(* ===== verification/_CoqProject ===== *)
-Q . S2P
Prelude.v
Bitmap.v
Divide.v
ListHead.v
CString.v
Printf.v
PrintfProps.v
PrintText.v
Sched.v
SchedInv.v
SchedProps.v
SchedReach.v
PageAlloc.v
PagePool.v
PagePoolProps.v
Xmalloc.v
XmallocProps.v
XmallocPages.v
ByteRing.v
FreeList.v
Gnttab.v
Grants.v
SharedRing.v
BlkFront.v
BlkProps.v
BlkProto.v
BlkIO.v
NetFront.v
NetProps.v
NetProto.v
NetDemo.v
FsFront.v
FsProps.v
FsProto.v
DbBack.v
DbProps.v
DbServe.v
Events.v
ArchMM.v
PageTables.v
Unmap.v
Console.v
P2m.v
Seqlock.v
Time.v
Smp.v
Suspend.v
SuspendProps.v
Completion.v
Spinlock.v
XenbusRing.v
Xenbus.v
XenbusProps.v
XenbusProto.v
