(* ===== verification/Prelude.v ===== *)
(** A verification library for the GUK microkernel.

    The kernel (src/) is a paravirtualised guest of Xen: memory management, a thread scheduler,
    synchronisation, event channels, clocks, grant tables, a client of the Xen store, and the
    front ends of the split device drivers.  The library models the C code file by file and
    proves what makes it correct.

    * Conventions

    A C function is a definition of the same name from the state of its component to a [res]
    of its result and the new state: [Ok] is a normal return, [Bug] a stop of the kernel
    (a failed [BUG_ON], [crash_exit], or an access that C leaves undefined), [Fuel] a loop
    bound that was too small.  Integers are [Z] with [wrap w] and [sgn w] where the C type
    wraps.  A struct is a record, the variables of a file are one record, a pointer to a
    kernel object is a key of a map or an index.  Bounds of loops: where the code determines
    the number of rounds, the fuel is computed from the state (the length of the array or of
    the list, the width of the word); where other parties determine it, fuel is an argument or
    the length of the list that says what they do.  Theorems about such functions give the
    result ([Ok]) for enough fuel and do not assume that the function returns (the loop over
    the requests of a debugger, whose handlers may wait for a thread, is the one about which
    [DbServe] says both that it ends, for requests that do not wait, and what it has done when
    it ends); a loop that does not end is proved to give [Fuel] for every bound ([Events.callback_second_word_diverges],
    [NetProto.rx_loop_stuck]).

    What other parties do (Xen, other domains, the store, back ends, other CPUs) is an explicit
    argument: a list of functions or of values that successive accesses consume, or steps of a
    transition system that interleave with those of the kernel.  Code outside of src/ (the
    macros and constants of Xen's public headers, hypercalls) is a class of operations with its
    documented laws in a second class; every theorem that uses such laws has an instance.

    * The parts

    - Shared: this file ([res], machine words, arrays, bytes), [Bitmap] (include/bitmap.h and
      the range operations of mm.c), [ListHead] (include/list.h on a heap of nodes: the pointer
      code implements insertion, removal, splicing and traversal of sequences; the other files
      use sequences), [CString] (lib/string.c, include/ctype.h, [num_option] of kernel.c).
    - Formatted text: [Printf] (lib/printf.c) and [PrintfProps]: [vsnprintf] never writes
      outside its buffer and returns the full length for every format, printing and scanning
      round trips, and the two versions of the number scanner agree; [PrintText]: what
      [sprintf] makes of the formats that build names.
    - 64-bit division: [Divide] (lib/math.c): division by digits computes the quotient and the
      remainder, for any width of the digits; the loops have the bounds of the arrays, and the
      correction of an estimated digit ends within its bound of 4.
    - Pages: [PageAlloc] (mm.c), [PagePool] and [PagePoolProps]: the invariant [pool_ok] of the
      bitmap and the counters, first fit of allocation, no double allocation, exact freeing,
      growing and shrinking the pool against the hypervisor ([mm_env], laws in [env_ok]).
    - Small objects: [Xmalloc] (lib/xmalloc.c) over the interface [PageSource], which
      [XmallocPages] implements with mm.c; [XmallocProps], [XmallocPages]: allocation gives a
      fresh block, freeing is exact and merges, reallocation keeps the contents.
    - Threads: [Sched] (sched.c, guk/sched.h), [SchedInv] (the invariant [sched_ok] and its
      preservation), [SchedProps], [SchedReach] (reachable states of any number of CPUs):
      [schedule] never stops on an assertion and picks the first eligible thread; join, exit,
      interruption and timers.  [Completion] (guk/wait.h, completion.c) and [Spinlock]
      (spinlock.c, guk/spinlock.h, x86/arch_spinlock.h) are step systems: no wake-up is lost,
      mutual exclusion, and a lock that is free is taken.
    - Clocks: [Seqlock] (reading a record that Xen changes meanwhile: the reader ends and gets
      one whole record) and [Time] (arch/x86/time.c, guk/time.h): the system and wall clocks,
      blocking, preemption at the end of a slice, suspension.
    - Processors: [Smp] (smp.c, and what check_suspend, idle_thread_fn and block_domain do to
      the state of a CPU): suspension parks every other processor, and returns exactly when no
      processor overwrote its mark.
    - Suspension: [Suspend] (service.c, shutdown.c: the services and the composition of the
      parts in do_suspend), [SuspendProps]: the domain goes on where it was, on any machine.
    - Event channels: [Events] (events.c, hypervisor.c): the upcall delivers the pending
      events of the first word and loops on others; handlers and hypercalls are [EventEnv].
    - Page tables: [ArchMM] (arch/x86/mm.c, x86/arch_mm.h) on machine memory, with Xen as
      [Machine]; [PageTables]: building is a refinement of an update of the translation;
      [Unmap]: what unmapping and write protection cover.
    - Grants and rings: [FreeList] (the free lists threaded through an array, which gnttab.c,
      blk_front.c and netfront.c use), [Gnttab] (gnttab.c, under interference of the other
      domains), [Grants] (what the drivers rely on, the class [GrantTable], and its instance
      for gnttab.c), [SharedRing] (the macros of Xen's io/ring.h as the class [ring_macros]
      with its laws, and rings read as sequences).
    - Block devices: [BlkFront] (blk_front.c, guk/blk_front.h), [BlkProps], [BlkProto] (every
      request is completed once with the answer to it, in any interleaving of submitting
      threads, handlers and back ends), [BlkIO] (what is put on the ring, splitting in pages).
    - Network: [NetFront] (netfront.c), [NetProps] (sending, taking buffers back, receiving,
      however answers arrive during the handler), [NetProto] (start and all reachable states),
      [NetDemo] (a concrete run).
    - Files: [FsFront] (fs-front.c, guk/fs.h), [FsProps] (every operation that is one request
      sends its type, arguments and page and gets the answer to it; reading a file through any number of pages; the interrupt handler), [FsProto] (many
      processors submit without a lock: requests appear in order, and are not overwritten as long
      as the interrupt handler runs only when all are answered).
    - Debugger: [DbBack] (the back end, db-back.c, with the structures of dbif.h), [DbProps]
      (transfers of memory, which end at the first fault; watched pages stay protected),
      [DbServe] (every request to the handler of its type, one response to each, in order).
    - Save and restore: [P2m] (arch/x86/p2m.c): Xen finds the physical-to-machine map through
      the table, after the start and after a restore that moves every frame.
    - Console: [Console] (console/console.c, console/xencons_ring.c): what is printed arrives
      complete and in order however the daemon drains the ring, and what is typed is read so.
    - Store: [ByteRing] (rings of bytes), [XenbusRing] (the byte rings of xenbus/xenbus.c),
      [Xenbus] (requests, replies, watches), [XenbusProps], [XenbusProto] (every request gets its
      own reply, in any interleaving of threads, the receiving thread and the daemon).

    * Assumptions on the environment

    [PagePool.env_ok]: what Xen does to the reservation.  [Machine], with [update_law],
    [pin_law] and [Unmap.multicall_law]: Xen performs the updates it accepts.  [EventEnv]:
    handlers keep the tables of the event channels.  [ring_macros_ok], [blkif_ok], [wire_ok]:
    documented behaviour of public headers.  [xencons_ok]: the sizes of the console's rings.
    [SuspendProps.xen_resumes], [virq_law]: Xen keeps the kernel's memory over a suspension, and
    gives out ports without an event; [parts_return], [service_ok]: the functions that do_suspend
    calls come back (for smp_suspend, [Smp] says when it does).
    [FsProto.timely]: no thread sleeps through 2^32 requests between two of its steps.
    [malloc_ok]: the allocator of the store client gives NULL or an unused address.
    [Seqlock.xen_step]: Xen keeps the version odd during an update and does not go through all
    2^32 versions during one reading.  The back ends of [BlkProto] and [NetProto] answer each
    request once; the daemon of [XenbusProto] answers with the identifier of the request.

    * Not modelled

    The exchange with the store when a device is started, resumed or shut down (a sequence of
    calls of the store client), or a debugger connects; the front end for remote execution
    (exec-front.c); tracing, which prints; the assembly of traps and context switches; the
    register context and the interrupt stack given to a CPU that is started; the glue to the
    virtual machine, the programs of the privileged domain under tools/, and the tests.  Locks
    around the functions of a component are not part of its definitions: what runs under a lock
    is one step. *)

From stdpp Require Export base numbers list gmap.
From stdpp Require Import options.
Open Scope Z_scope.

(** ** Outcomes of C code

    Every modelled C function that can fail to return normally is a function
    into [res]: [Ok] is a normal return, [Bug] is one of the ways the kernel
    stops, [Fuel] says that the bound given to a loop was too small. *)

Inductive bug :=
| BUG_ON          (** a failed [BUG_ON]/[BUG] assertion *)
| CRASH_EXIT      (** [crash_exit], [crash_exit_msg] and friends *)
| BAD_ACCESS.     (** an access outside the object (or the null pointer) *)

Inductive res (A : Type) :=
| Ok (a : A)
| Bug (b : bug)
| Fuel.
Arguments Ok {A} a.
Arguments Bug {A} b.
Arguments Fuel {A}.

Global Instance bug_eq_dec : EqDecision bug.
Proof. solve_decision. Defined.

Global Instance res_ret : MRet res := fun A a => Ok a.

Global Instance res_bind : MBind res := fun A B f m =>
  match m with
  | Ok a => f a
  | Bug b => Bug b
  | Fuel => Fuel
  end.

(** [BUG_ON(c)] *)
Definition bug_on (c : bool) : res () := if c then Bug BUG_ON else Ok ().

(** A C array or memory access, checked against the bounds of the object. *)
Definition access {A} (o : option A) : res A :=
  match o with Some a => Ok a | None => Bug BAD_ACCESS end.

Definition is_ok {A} (m : res A) : bool :=
  match m with Ok _ => true | _ => false end.

(** The value of a run that returns, for concrete examples. *)
Definition get {A} (m : res A) (d : A) : A := match m with Ok a => a | _ => d end.

Lemma res_bind_ok {A B} (m : res A) (f : A -> res B) b :
  (m ≫= f) = Ok b <-> exists a, m = Ok a /\ f a = Ok b.
Proof. destruct m; simpl; naive_solver. Qed.

Lemma Ok_inj {A} (a b : A) : Ok a = Ok b -> a = b.
Proof. by intros [= ->]. Qed.

Lemma ok_get {A} (m : res A) d : is_ok m = true -> m = Ok (get m d).
Proof. by destruct m. Qed.

Lemma access_ok {A} (o : option A) a : access o = Ok a <-> o = Some a.
Proof. destruct o; simpl; naive_solver. Qed.

Lemma bug_on_ok c u : bug_on c = Ok u <-> c = false.
Proof. destruct c, u; simpl; naive_solver. Qed.

(** Break every successful bind of the hypotheses into its steps. *)
Ltac res_step H :=
  lazymatch type of H with
  | (_ ≫= _) = Ok _ =>
      let a := fresh "a" in let H1 := fresh "Hr" in
      apply res_bind_ok in H; destruct H as (a & H1 & H);
      try res_step H1; try res_step H
  | access _ = Ok _ => apply access_ok in H
  | bug_on _ = Ok _ => apply bug_on_ok in H
  | Ok _ = Ok _ => injection H as H; try subst
  | mret _ = Ok _ => injection H as H; try subst
  | Bug _ = Ok _ => discriminate H
  | Fuel = Ok _ => discriminate H
  end.

Ltac res_inv := repeat match goal with H : _ = Ok _ |- _ => res_step H end.

(** ** Machine integers

    A w-bit unsigned integer is a [Z] in [0, 2^w); arithmetic that can leave
    the range is followed by [wrap w], signed readings use [sgn w]. *)

Definition wrap (w x : Z) : Z := x mod 2 ^ w.

Definition sgn (w x : Z) : Z :=
  let y := x mod 2 ^ w in if y <? 2 ^ (w - 1) then y else y - 2 ^ w.

Abbreviation wrap64 := (wrap 64).
Abbreviation wrap32 := (wrap 32).
Abbreviation sgn32 := (sgn 32).

Lemma wrap_range w x : 0 <= w -> 0 <= wrap w x < 2 ^ w.
Proof. intros. apply Z.mod_pos_bound. lia. Qed.

Lemma wrap_small w x : 0 <= x < 2 ^ w -> wrap w x = x.
Proof. apply Z.mod_small. Qed.

Lemma sgn_small w x : 0 < w -> 0 <= x < 2 ^ (w - 1) -> sgn w x = x.
Proof.
  intros Hw Hx. unfold sgn.
  assert (2 ^ w = 2 * 2 ^ (w - 1)) as Hp.
  { rewrite <- Z.pow_succ_r by lia. f_equal. lia. }
  rewrite Z.mod_small by lia.
  destruct (Z.ltb_spec x (2 ^ (w - 1))); lia.
Qed.

Lemma sgn_range w x : 0 < w -> - 2 ^ (w - 1) <= sgn w x < 2 ^ (w - 1).
Proof.
  intros Hw. unfold sgn.
  assert (2 ^ w = 2 * 2 ^ (w - 1)) as Hp.
  { rewrite <- Z.pow_succ_r by lia. f_equal. lia. }
  pose proof (Z.mod_pos_bound x (2 ^ w)).
  destruct (Z.ltb_spec (x mod 2 ^ w) (2 ^ (w - 1))); lia.
Qed.

Lemma sgn_id w x : 0 < w -> - 2 ^ (w - 1) <= x < 2 ^ (w - 1) -> sgn w x = x.
Proof.
  intros Hw Hx. destruct (decide (0 <= x)); [apply sgn_small; lia|]. unfold sgn.
  assert (2 ^ w = 2 * 2 ^ (w - 1)) as Hp.
  { rewrite <- Z.pow_succ_r by lia. f_equal. lia. }
  rewrite <- (Z_mod_plus_full x 1), Z.mod_small by lia.
  destruct (Z.ltb_spec (x + 1 * 2 ^ w) (2 ^ (w - 1))); lia.
Qed.

Lemma sgn_wrap w x : sgn w (wrap w x) = sgn w x.
Proof. unfold sgn, wrap. by rewrite Zmod_mod. Qed.

(** Indices less than [m] apart are different modulo [m]. *)
Lemma mod_inj m i j : 0 < m -> - m < i - j < m -> i mod m = j mod m -> i = j.
Proof.
  intros Hm Hd He.
  assert ((i - j) mod m = 0) as Hz by (rewrite Zminus_mod, He, Z.sub_diag; apply Z.mod_0_l; lia).
  apply Z.mod_divide in Hz as [c Hc]; [|lia]. assert (c = 0) by nia. lia.
Qed.

Lemma wrap_mod w m i : 0 < m -> (m | 2 ^ w) -> 0 <= w -> wrap w i mod m = i mod m.
Proof. intros. unfold wrap. symmetry. apply Znumtheory.Zmod_div_mod; [lia|lia|done]. Qed.

(** Wrap-around arithmetic does not see a wrapped operand. *)
Lemma wrap_add_l w x y : wrap w (wrap w x + y) = wrap w (x + y).
Proof. apply Zplus_mod_idemp_l. Qed.

Lemma wrap_sub w x y : wrap w (wrap w x - wrap w y) = wrap w (x - y).
Proof. unfold wrap. by rewrite <- Zminus_mod. Qed.

(** Bits of wrapped words. *)
Lemma wrap_testbit w x i :
  0 <= w -> Z.testbit (wrap w x) i = bool_decide (i < w) && Z.testbit x i.
Proof.
  intros Hw. unfold wrap. case_bool_decide.
  - destruct (decide (0 <= i)).
    + by rewrite Z.mod_pow2_bits_low.
    + rewrite !Z.testbit_neg_r by lia. done.
  - rewrite Z.mod_pow2_bits_high by lia. done.
Qed.

(** ** Arrays

    An array is a list; an index is an integer and is checked against the bounds. *)

Definition elem {A} (l : list A) (i : Z) : res A := if i <? 0 then Bug BAD_ACCESS else access (l !! Z.to_nat i).

Definition set_elem {A} (l : list A) (i : Z) (x : A) : res (list A) := _ ← elem l i; Ok (<[Z.to_nat i := x]> l).

Lemma elem_eq {A} (l : list A) i x : 0 <= i -> l !! Z.to_nat i = Some x -> elem l i = Ok x.
Proof. intros Hi Hx. unfold elem. rewrite (proj2 (Z.ltb_ge i 0)) by lia. by rewrite Hx. Qed.

Lemma elem_inv {A} (l : list A) i x : elem l i = Ok x -> 0 <= i /\ l !! Z.to_nat i = Some x.
Proof. unfold elem. destruct (Z.ltb_spec i 0); [done|]. rewrite access_ok. done. Qed.

Lemma elem_nth {A} (l : list A) i d : 0 <= i < Z.of_nat (length l) -> elem l i = Ok (nth (Z.to_nat i) l d).
Proof.
  intros Hi. destruct (lookup_lt_is_Some_2 l (Z.to_nat i)) as [x Hx]; [lia|]. rewrite (elem_eq l i x) by (done || lia).
  f_equal. symmetry. by apply nth_lookup_Some.
Qed.

Lemma set_elem_eq {A} (l : list A) i x : 0 <= i < Z.of_nat (length l) -> set_elem l i x = Ok (<[Z.to_nat i := x]> l).
Proof. intros Hi. unfold set_elem. by rewrite (elem_nth l i x Hi). Qed.

Lemma set_elem_out {A} (l : list A) i x : ~ (0 <= i < Z.of_nat (length l)) -> set_elem l i x = Bug BAD_ACCESS.
Proof.
  intros Hi. unfold set_elem, elem. destruct (Z.ltb_spec i 0); [done|]. by rewrite lookup_ge_None_2 by lia.
Qed.

(** [memcpy(dst, src, n)] on the bytes of the memory. *)
Definition copy_mem (dst src n : Z) (m : Z -> Z) : Z -> Z :=
  fun x => if (dst <=? x) && (x <? dst + n) then m (src + (x - dst)) else m x.

Lemma copy_mem_in dst src n m k : 0 <= k < n -> copy_mem dst src n m (dst + k) = m (src + k).
Proof. intros Hk. unfold copy_mem. rewrite (proj2 (Z.leb_le _ _)), (proj2 (Z.ltb_lt _ _)) by lia. simpl. f_equal. lia. Qed.

Lemma copy_mem_out dst src n m x : ~ dst <= x < dst + n -> copy_mem dst src n m x = m x.
Proof. intros Hx. unfold copy_mem. destruct (Z.leb_spec dst x), (Z.ltb_spec x (dst + n)); [lia|done..]. Qed.

(** ** Automation *)

Create HintDb guk discriminated.

(** Split the conjunctions of the goal without unfolding definitions. *)
Ltac splits := repeat match goal with |- _ /\ _ => split end.

(** Turn boolean comparisons of the code into propositions. *)
Ltac bool_hyps :=
  repeat match goal with
  | H : (_ =? _) = true |- _ => apply Z.eqb_eq in H
  | H : (_ =? _) = false |- _ => apply Z.eqb_neq in H
  | H : (_ <? _) = true |- _ => apply Z.ltb_lt in H
  | H : (_ <? _) = false |- _ => apply Z.ltb_ge in H
  | H : (_ <=? _) = true |- _ => apply Z.leb_le in H
  | H : (_ <=? _) = false |- _ => apply Z.leb_gt in H
  | H : negb _ = true |- _ => apply negb_true_iff in H
  | H : negb _ = false |- _ => apply negb_false_iff in H
  | H : _ && _ = true |- _ => apply andb_true_iff in H; destruct H
  | H : _ || _ = false |- _ => apply orb_false_iff in H; destruct H
  end.

(** Split on every boolean test of the goal, keeping the facts. *)
Ltac case_ifs :=
  repeat (case_match; bool_hyps; simplify_eq/=; try lia; try done).

(** Case analysis on a lookup in an updated map. *)
Ltac look_pair H := first [discriminate H | injection H as <- <- | injection H as <-; try discriminate | simplify_eq].
Ltac look H :=
  lazymatch type of H with
  | <[_ := _]> _ !! _ = Some _ =>
      let Hn := fresh "Hn" in
      rewrite lookup_insert_Some in H; destruct H as [[Hn H]|[Hn H]];
      [look_pair H; try (match type of Hn with _ = ?x => is_var x; subst x end)|look H]
  | delete _ _ !! _ = Some _ => let Hn := fresh "Hn" in rewrite lookup_delete_Some in H; destruct H as [Hn H]; look H
  | _ => idtac
  end.
