(* ===== verification/Bitmap.v ===== *)
(** Allocation bitmaps: the macros of include/bitmap.h and the two range
    operations of mm.c, [map_alloc] and [map_free], on an array of 64-bit words
    whose bounds are checked at every access. *)
From S2P Require Import Prelude.
From stdpp Require Import options.

(** ** The code *)

Definition ENTRIES_PER_MAPWORD : Z := 64.

(** A word of the map, and the update of one. *)
Definition rd (m : list Z) (i : Z) : res Z :=
  access (if 0 <=? i then m !! Z.to_nat i else None).

Definition wr (m : list Z) (i v : Z) : res (list Z) :=
  _ ← rd m i; Ok (<[Z.to_nat i := v]> m).

Definition allocated_in_map (m : list Z) (s : Z) : res bool :=
  w ← rd m (s / ENTRIES_PER_MAPWORD);
  Ok (negb (Z.land w (Z.shiftl 1 (Z.land s (ENTRIES_PER_MAPWORD - 1))) =? 0)).

Definition set_map (m : list Z) (s : Z) : res (list Z) :=
  w ← rd m (s / ENTRIES_PER_MAPWORD);
  wr m (s / ENTRIES_PER_MAPWORD)
    (Z.lor w (Z.shiftl 1 (Z.land s (ENTRIES_PER_MAPWORD - 1)))).

Definition clear_map (m : list Z) (s : Z) : res (list Z) :=
  w ← rd m (s / ENTRIES_PER_MAPWORD);
  wr m (s / ENTRIES_PER_MAPWORD)
    (Z.land w (wrap64 (Z.lnot (Z.shiftl 1 (Z.land s (ENTRIES_PER_MAPWORD - 1)))))).

Definition map_size_in_bytes (s : Z) : Z :=
  if s <? 8 then 1 else (s + 8) / 8.

(** The word loop of [map_alloc]: [while (++curr_idx < end_idx) map[curr_idx] = ~0L;] *)
Fixpoint map_alloc_words (fuel : nat) (m : list Z) (curr_idx end_idx : Z)
  : res (list Z * Z) :=
  match fuel with
  | O => Fuel
  | S fuel =>
      let curr_idx := curr_idx + 1 in
      if curr_idx <? end_idx then
        m ← wr m curr_idx (wrap64 (-1));
        map_alloc_words fuel m curr_idx end_idx
      else Ok (m, curr_idx)
  end.

(** The word loop of [map_free]: [while (++curr_idx != end_idx) map[curr_idx] = 0;] *)
Fixpoint map_free_words (fuel : nat) (m : list Z) (curr_idx end_idx : Z)
  : res (list Z * Z) :=
  match fuel with
  | O => Fuel
  | S fuel =>
      let curr_idx := curr_idx + 1 in
      if negb (curr_idx =? end_idx) then
        m ← wr m curr_idx 0;
        map_free_words fuel m curr_idx end_idx
      else Ok (m, curr_idx)
  end.

Definition map_alloc (m : list Z) (first_page nr_pages : Z) : res (list Z) :=
  let curr_idx := first_page / ENTRIES_PER_MAPWORD in
  let start_off := Z.land first_page (ENTRIES_PER_MAPWORD - 1) in
  let last := wrap64 (first_page + nr_pages) in
  let end_idx := last / ENTRIES_PER_MAPWORD in
  let end_off := Z.land last (ENTRIES_PER_MAPWORD - 1) in
  if curr_idx =? end_idx then
    w ← rd m curr_idx;
    wr m curr_idx
      (Z.lor w (Z.land (wrap64 (Z.shiftl 1 end_off - 1)) (wrap64 (- Z.shiftl 1 start_off))))
  else
    w ← rd m curr_idx;
    m ← wr m curr_idx (Z.lor w (wrap64 (- Z.shiftl 1 start_off)));
    '(m, curr_idx) ← map_alloc_words (Z.to_nat (end_idx - curr_idx)) m curr_idx end_idx;
    w ← rd m curr_idx;
    wr m curr_idx (Z.lor w (wrap64 (Z.shiftl 1 end_off - 1))).

Definition map_free (m : list Z) (first_page nr_pages : Z) : res (list Z) :=
  let curr_idx := first_page / ENTRIES_PER_MAPWORD in
  let start_off := Z.land first_page (ENTRIES_PER_MAPWORD - 1) in
  let last := wrap64 (first_page + nr_pages) in
  let end_idx := last / ENTRIES_PER_MAPWORD in
  let end_off := Z.land last (ENTRIES_PER_MAPWORD - 1) in
  if curr_idx =? end_idx then
    w ← rd m curr_idx;
    wr m curr_idx
      (Z.land w (Z.lor (wrap64 (- Z.shiftl 1 end_off)) (wrap64 (Z.shiftl 1 start_off - 1))))
  else
    w ← rd m curr_idx;
    m ← wr m curr_idx (Z.land w (wrap64 (Z.shiftl 1 start_off - 1)));
    '(m, curr_idx) ← map_free_words (Z.to_nat (end_idx - curr_idx)) m curr_idx end_idx;
    w ← rd m curr_idx;
    wr m curr_idx (Z.land w (wrap64 (- Z.shiftl 1 end_off))).

(** ** The view: a map is a set of page numbers *)

(** The bit of page [p]. *)
Definition page_bit (m : list Z) (p : Z) : bool :=
  match m !! Z.to_nat (p / 64) with
  | Some w => Z.testbit w (p mod 64)
  | None => false
  end.

(** Every word of the map is a 64-bit word. *)
Definition words_ok (m : list Z) : Prop := Forall (fun w => 0 <= w < 2 ^ 64) m.

(** Page [p] has a word in the map. *)
Definition covers (m : list Z) (p : Z) : Prop := 0 <= p /\ p / 64 < Z.of_nat (length m).

(** ** Lemmas *)

Lemma land_63 s : Z.land s 63 = s mod 64.
Proof. change 63 with (Z.ones 6). apply Z.land_ones. lia. Qed.

Lemma page_split p k : 0 <= k < 64 -> (64 * p + k) / 64 = p /\ (64 * p + k) mod 64 = k.
Proof.
  intros. replace (64 * p + k) with (k + p * 64) by lia.
  rewrite Z.div_add, Z.mod_add, Z.div_small, Z.mod_small by lia. lia.
Qed.

(** The two masks of the hint in mm.c. *)
Lemma mask_low e i :
  0 <= e < 64 -> Z.testbit (wrap64 (Z.shiftl 1 e - 1)) i = bool_decide (0 <= i < e).
Proof.
  intros He. destruct (decide (0 <= i)).
  - rewrite wrap_testbit by lia.
    replace (Z.shiftl 1 e - 1) with (Z.ones e)
      by (rewrite Z.ones_equiv, Z.shiftl_1_l; lia).
    rewrite Z.testbit_ones_nonneg by lia.
    repeat case_bool_decide; simpl; try lia;
      destruct (Z.ltb_spec i e); simpl; try lia; done.
  - rewrite Z.testbit_neg_r by lia. rewrite bool_decide_eq_false_2; [done|lia].
Qed.

Lemma mask_high s i :
  0 <= s < 64 -> Z.testbit (wrap64 (- Z.shiftl 1 s)) i = bool_decide (s <= i < 64).
Proof.
  intros Hs. destruct (decide (0 <= i)).
  - rewrite wrap_testbit by lia.
    replace (- Z.shiftl 1 s) with (Z.lnot (Z.ones s)).
    2:{ rewrite Z.ones_equiv, Z.shiftl_1_l. unfold Z.lnot. lia. }
    rewrite Z.lnot_spec, Z.testbit_ones_nonneg by lia.
    repeat case_bool_decide; simpl; try lia;
      destruct (Z.ltb_spec i s); simpl; try lia; done.
  - rewrite Z.testbit_neg_r by lia. rewrite bool_decide_eq_false_2; [done|lia].
Qed.

Lemma word_range w :
  (forall i, 64 <= i -> Z.testbit w i = false) -> 0 <= w -> w < 2 ^ 64.
Proof.
  intros Hb Hw. destruct (decide (w = 0)) as [->|]; [lia|].
  apply Z.log2_lt_pow2; [lia|].
  destruct (Z.lt_ge_cases (Z.log2 w) 64) as [|Hl]; [done|].
  specialize (Hb _ Hl). rewrite Z.bit_log2 in Hb by lia. done.
Qed.

Lemma word_testbit_high w i : 0 <= w < 2 ^ 64 -> 64 <= i -> Z.testbit w i = false.
Proof.
  intros. destruct (decide (w = 0)) as [->|]; [apply Z.testbit_0_l|].
  apply Z.bits_above_log2; [lia|].
  assert (Z.log2 w < 64) by (apply Z.log2_lt_pow2; lia). lia.
Qed.

Lemma lor_word w v : 0 <= w < 2 ^ 64 -> 0 <= v < 2 ^ 64 -> 0 <= Z.lor w v < 2 ^ 64.
Proof.
  intros. assert (0 <= Z.lor w v) by (apply Z.lor_nonneg; lia).
  split; [done|]. apply word_range; [|done]. intros.
  by rewrite Z.lor_spec, !word_testbit_high by lia.
Qed.

Lemma land_word w v : 0 <= w < 2 ^ 64 -> 0 <= Z.land w v < 2 ^ 64.
Proof.
  intros. assert (0 <= Z.land w v) by (apply Z.land_nonneg; lia).
  split; [done|]. apply word_range; [|done]. intros.
  by rewrite Z.land_spec, word_testbit_high by lia.
Qed.

#[export] Hint Resolve lor_word land_word : guk.

(** Reads and writes. *)
Lemma rd_ok m i w : rd m i = Ok w <-> 0 <= i /\ m !! Z.to_nat i = Some w.
Proof.
  unfold rd. rewrite access_ok. destruct (Z.leb_spec 0 i); [naive_solver|].
  split; [done|lia].
Qed.

Lemma rd_in m i : 0 <= i < Z.of_nat (length m) -> exists w, rd m i = Ok w /\ m !! Z.to_nat i = Some w.
Proof.
  intros Hi. destruct (lookup_lt_is_Some_2 m (Z.to_nat i)) as [w Hw]; [lia|].
  exists w. split; [|done]. apply rd_ok. naive_solver lia.
Qed.

Lemma rd_out m i : ~ (0 <= i < Z.of_nat (length m)) -> rd m i = Bug BAD_ACCESS.
Proof.
  intros Hi. unfold rd. destruct (Z.leb_spec 0 i); [|done].
  rewrite lookup_ge_None_2 by lia. done.
Qed.

Lemma wr_in m i v :
  0 <= i < Z.of_nat (length m) -> wr m i v = Ok (<[Z.to_nat i := v]> m).
Proof. intros Hi. unfold wr. destruct (rd_in m i Hi) as (w & -> & _). done. Qed.

Lemma words_ok_lookup m k w : words_ok m -> m !! k = Some w -> 0 <= w < 2 ^ 64.
Proof. unfold words_ok. rewrite Forall_lookup. eauto. Qed.

Lemma words_ok_insert m k v : words_ok m -> 0 <= v < 2 ^ 64 -> words_ok (<[k := v]> m).
Proof. intros. by apply Forall_insert. Qed.

Lemma page_bit_insert m i v p :
  0 <= i < Z.of_nat (length m) -> 0 <= p ->
  page_bit (<[Z.to_nat i := v]> m) p =
    if bool_decide (p / 64 = i) then Z.testbit v (p mod 64) else page_bit m p.
Proof.
  intros Hi Hp. unfold page_bit. pose proof (Z.div_pos p 64).
  case_bool_decide as E.
  - rewrite E, list_lookup_insert_eq by lia. done.
  - rewrite list_lookup_insert_ne by lia. done.
Qed.

Lemma allocated_in_map_spec m s :
  words_ok m -> covers m s -> allocated_in_map m s = Ok (page_bit m s).
Proof.
  intros Hm [Hs Hc]. unfold allocated_in_map, page_bit, ENTRIES_PER_MAPWORD.
  pose proof (Z.div_pos s 64). pose proof (Z.mod_pos_bound s 64).
  destruct (rd_in m (s / 64)) as (w & -> & ->); [lia|]. simpl. do 2 f_equal.
  change (64 - 1) with 63. rewrite land_63, Z.shiftl_1_l.
  destruct (Z.testbit w (s mod 64)) eqn:Hb.
  - apply negb_true_iff, Z.eqb_neq. intros E.
    assert (Z.testbit (Z.land w (2 ^ (s mod 64))) (s mod 64) = true) as E2.
    { by rewrite Z.land_spec, Hb, Z.pow2_bits_true by lia. }
    by rewrite E, Z.testbit_0_l in E2.
  - apply negb_false_iff, Z.eqb_eq, Z.bits_inj'. intros i Hi.
    rewrite Z.land_spec, Z.testbit_0_l.
    destruct (decide (i = s mod 64)) as [->|]; [by rewrite Hb|].
    rewrite Z.pow2_bits_false by lia. apply andb_false_r.
Qed.

(** The word loops write [v] strictly between the two indices. *)
Lemma map_alloc_words_spec m c e :
  0 <= c -> c < e < Z.of_nat (length m) ->
  exists m', map_alloc_words (Z.to_nat (e - c)) m c e = Ok (m', e) /\
    length m' = length m /\
    forall k, 0 <= k -> m' !! Z.to_nat k =
      if bool_decide (c < k < e) then Some (wrap64 (-1)) else m !! Z.to_nat k.
Proof.
  intros Hc He. remember (Z.to_nat (e - c)) as n eqn:Hn.
  revert m c Hc He Hn. induction n as [|n IH]; intros m c Hc He Hn; [lia|].
  cbn [map_alloc_words]. destruct (Z.ltb_spec (c + 1) e).
  - rewrite wr_in by lia. cbn [mbind res_bind].
    destruct (IH (<[Z.to_nat (c + 1) := wrap64 (-1)]> m) (c + 1)) as (m' & -> & Hl & Hk);
      [lia|rewrite length_insert; lia|lia|].
    rewrite length_insert in Hl. exists m'. split_and!; [done|done|].
    intros k Hk0. rewrite Hk by done.
    destruct (decide (k = c + 1)) as [->|].
    + rewrite (bool_decide_eq_true_2 (c < c + 1 < e)) by lia.
      rewrite bool_decide_eq_false_2 by lia. by rewrite list_lookup_insert_eq by lia.
    + rewrite list_lookup_insert_ne by lia.
      by repeat case_bool_decide; try lia.
  - exists m. replace e with (c + 1) by lia. split_and!; [done|done|].
    intros k Hk. case_bool_decide; [lia|done].
Qed.

Lemma map_free_words_spec m c e :
  0 <= c -> c < e < Z.of_nat (length m) ->
  exists m', map_free_words (Z.to_nat (e - c)) m c e = Ok (m', e) /\
    length m' = length m /\
    forall k, 0 <= k -> m' !! Z.to_nat k =
      if bool_decide (c < k < e) then Some 0 else m !! Z.to_nat k.
Proof.
  intros Hc He. remember (Z.to_nat (e - c)) as n eqn:Hn.
  revert m c Hc He Hn. induction n as [|n IH]; intros m c Hc He Hn; [lia|].
  cbn [map_free_words]. destruct (Z.eqb_spec (c + 1) e); cbn [negb].
  - exists m. subst e. split_and!; [done|done|].
    intros k Hk. case_bool_decide; [lia|done].
  - rewrite wr_in by lia. cbn [mbind res_bind].
    destruct (IH (<[Z.to_nat (c + 1) := 0]> m) (c + 1)) as (m' & -> & Hl & Hk);
      [lia|rewrite length_insert; lia|lia|].
    rewrite length_insert in Hl. exists m'. split_and!; [done|done|].
    intros k Hk0. rewrite Hk by done.
    destruct (decide (k = c + 1)) as [->|].
    + rewrite (bool_decide_eq_true_2 (c < c + 1 < e)) by lia.
      rewrite bool_decide_eq_false_2 by lia. by rewrite list_lookup_insert_eq by lia.
    + rewrite list_lookup_insert_ne by lia.
      by repeat case_bool_decide; try lia.
Qed.

(** What a range operation promises: the bits of the range become [b], the
    others are kept, and the map stays well formed. *)
Definition range_set (b : bool) (m m' : list Z) (first nr : Z) : Prop :=
  length m' = length m /\ words_ok m' /\
  forall p, 0 <= p ->
    page_bit m' p = if bool_decide (first <= p < first + nr) then b else page_bit m p.

(** Number a page by its word and its bit. *)
Ltac page_arith p :=
  let q := fresh "q" in let r := fresh "r" in
  pose proof (Z.div_mod p 64 ltac:(lia)); pose proof (Z.mod_pos_bound p 64 ltac:(lia));
  set (q := p / 64) in *; set (r := p mod 64) in *; clearbody q r.

Lemma words_ok_by_lookup m :
  (forall k w, m !! k = Some w -> 0 <= w < 2 ^ 64) -> words_ok m.
Proof. intros H. apply Forall_lookup. eauto. Qed.

(** Both range operations rewrite the first word, fill the words between, and
    rewrite the last word; [wfirst] and [wlast] are the rewritten words. *)
Lemma three_part_range b m m2 c s e o v wfirst wlast :
  words_ok m -> 0 <= c -> c < e < Z.of_nat (length m) ->
  0 <= s < 64 -> 0 <= o < 64 ->
  0 <= v < 2 ^ 64 -> 0 <= wfirst < 2 ^ 64 -> 0 <= wlast < 2 ^ 64 ->
  (forall i, 0 <= i < 64 -> Z.testbit v i = b) ->
  (forall i, 0 <= i < 64 -> Z.testbit wfirst i =
     if bool_decide (s <= i) then b else page_bit m (64 * c + i)) ->
  (forall i, 0 <= i < 64 -> Z.testbit wlast i =
     if bool_decide (i < o) then b else page_bit m (64 * e + i)) ->
  length m2 = length m ->
  (forall k, 0 <= k -> m2 !! Z.to_nat k =
     if bool_decide (c < k < e) then Some v
     else (<[Z.to_nat c := wfirst]> m) !! Z.to_nat k) ->
  range_set b m (<[Z.to_nat e := wlast]> m2) (64 * c + s) (64 * e + o - (64 * c + s)).
Proof.
  intros Hm Hc He Hs Ho Hv Hwf Hwl Hvb Hfb Hlb Hl2 Hk. split_and!.
  - by rewrite length_insert.
  - apply words_ok_insert; [|done]. apply words_ok_by_lookup. intros k w Hw.
    specialize (Hk (Z.of_nat k)). rewrite Nat2Z.id in Hk.
    rewrite Hk in Hw by lia. case_bool_decide; [naive_solver|].
    eapply words_ok_lookup; [|exact Hw]. by apply words_ok_insert.
  - intros p Hp. rewrite page_bit_insert by lia.
    assert (page_bit m p = page_bit m (64 * (p / 64) + p mod 64)) as Hpm
      by (f_equal; pose proof (Z.div_mod p 64); lia).
    assert (0 <= p mod 64 < 64) by (apply Z.mod_pos_bound; lia).
    assert (0 <= p / 64) by (apply Z.div_pos; lia).
    assert (page_bit m2 p = if bool_decide (c < p / 64 < e) then b else
              if bool_decide (p / 64 = c) then Z.testbit wfirst (p mod 64) else page_bit m p) as H2.
    { unfold page_bit at 1. rewrite Hk by lia. case_bool_decide; [by apply Hvb|].
      fold (page_bit (<[Z.to_nat c:=wfirst]> m) p). by rewrite page_bit_insert by lia. }
    rewrite H2, Hfb, Hlb, Hpm by done. page_arith p.
    repeat case_bool_decide; try lia; try done; subst; done.
Qed.

Lemma land_63_split x : exists c s, x = 64 * c + s /\ 0 <= s < 64 /\ x / 64 = c /\ Z.land x 63 = s.
Proof.
  exists (x / 64), (x mod 64). rewrite land_63.
  pose proof (Z.div_mod x 64). pose proof (Z.mod_pos_bound x 64). lia.
Qed.

Lemma page_bit_word m k i w :
  0 <= k -> 0 <= i < 64 -> m !! Z.to_nat k = Some w -> page_bit m (64 * k + i) = Z.testbit w i.
Proof.
  intros. unfold page_bit. destruct (page_split k i) as [-> ->]; [lia|]. by case_match; simplify_eq.
Qed.

Ltac word_bits :=
  rewrite ?Z.lor_spec, ?Z.land_spec, ?Z.lor_spec, ?mask_low, ?mask_high by lia;
  repeat case_bool_decide; try lia; cbn [orb andb];
  rewrite ?orb_true_r, ?orb_false_r, ?andb_true_r, ?andb_false_r; try done.

Lemma map_alloc_spec m first nr :
  words_ok m -> 0 <= first -> 0 <= nr -> first + nr < 2 ^ 64 -> covers m (first + nr) ->
  exists m', map_alloc m first nr = Ok m' /\ range_set true m m' first nr.
Proof.
  intros Hm Hf Hn Hw [_ Hc]. unfold map_alloc, ENTRIES_PER_MAPWORD. change (64 - 1) with 63.
  rewrite (wrap_small 64) by lia.
  destruct (land_63_split first) as (c & s & Hfe & Hs & -> & ->).
  destruct (land_63_split (first + nr)) as (e & o & Hle & Ho & E & ->).
  rewrite E in *. destruct (Z.eqb_spec c e) as [<-|Hne].
  - destruct (rd_in m c) as (w & -> & Hlk); [lia|]. cbn [mbind res_bind].
    rewrite wr_in by lia. eexists. split; [done|].
    pose proof (words_ok_lookup _ _ _ Hm Hlk). split_and!.
    + by rewrite length_insert.
    + apply words_ok_insert; [done|]. apply lor_word; [done|]. apply land_word, wrap_range. lia.
    + intros p Hp. rewrite page_bit_insert by lia.
      assert (0 <= p mod 64 < 64) by (apply Z.mod_pos_bound; lia).
      assert (p / 64 = c -> page_bit m p = Z.testbit w (p mod 64)) as Hpb.
      { intros Hq. unfold page_bit. by rewrite Hq, Hlk. }
      page_arith p. word_bits; rewrite ?Hpb by done; done.
  - destruct (rd_in m c) as (w & -> & Hlk); [lia|]. cbn [mbind res_bind].
    rewrite wr_in by lia. cbn [mbind res_bind].
    destruct (map_alloc_words_spec (<[Z.to_nat c:=Z.lor w (wrap64 (- Z.shiftl 1 s))]> m) c e)
      as (m2 & -> & Hl & Hk); [lia|rewrite length_insert; lia|].
    rewrite length_insert in Hl. cbn [mbind res_bind].
    destruct (rd_in m2 e) as (w2 & -> & Hlk2); [lia|]. cbn [mbind res_bind].
    rewrite wr_in by lia. eexists. split; [done|].
    rewrite Hk, bool_decide_eq_false_2, list_lookup_insert_ne in Hlk2 by lia.
    pose proof (words_ok_lookup _ _ _ Hm Hlk). pose proof (words_ok_lookup _ _ _ Hm Hlk2).
    replace first with (64 * c + s) by lia. replace nr with (64 * e + o - (64 * c + s)) by lia.
    eapply three_part_range with (v := wrap64 (-1))
      (wfirst := Z.lor w (wrap64 (- Z.shiftl 1 s))); try done; try lia;
      try (apply lor_word; [done|]); try (apply wrap_range; lia).
    + intros i Hi. rewrite wrap_testbit, Z.bits_m1 by lia. by rewrite bool_decide_eq_true_2 by lia.
    + intros i Hi. rewrite (page_bit_word m c i w) by (done || lia). word_bits.
    + intros i Hi. rewrite (page_bit_word m e i w2) by (done || lia). word_bits.
Qed.

Lemma map_free_spec m first nr :
  words_ok m -> 0 <= first -> 0 <= nr -> first + nr < 2 ^ 64 -> covers m (first + nr) ->
  exists m', map_free m first nr = Ok m' /\ range_set false m m' first nr.
Proof.
  intros Hm Hf Hn Hw [_ Hc]. unfold map_free, ENTRIES_PER_MAPWORD. change (64 - 1) with 63.
  rewrite (wrap_small 64) by lia.
  destruct (land_63_split first) as (c & s & Hfe & Hs & -> & ->).
  destruct (land_63_split (first + nr)) as (e & o & Hle & Ho & E & ->).
  rewrite E in *. destruct (Z.eqb_spec c e) as [<-|Hne].
  - destruct (rd_in m c) as (w & -> & Hlk); [lia|]. cbn [mbind res_bind].
    rewrite wr_in by lia. eexists. split; [done|].
    pose proof (words_ok_lookup _ _ _ Hm Hlk). split_and!.
    + by rewrite length_insert.
    + apply words_ok_insert; [done|]. by apply land_word.
    + intros p Hp. rewrite page_bit_insert by lia.
      assert (0 <= p mod 64 < 64) by (apply Z.mod_pos_bound; lia).
      assert (p / 64 = c -> page_bit m p = Z.testbit w (p mod 64)) as Hpb.
      { intros Hq. unfold page_bit. by rewrite Hq, Hlk. }
      page_arith p. word_bits; rewrite ?Hpb by done; done.
  - destruct (rd_in m c) as (w & -> & Hlk); [lia|]. cbn [mbind res_bind].
    rewrite wr_in by lia. cbn [mbind res_bind].
    destruct (map_free_words_spec (<[Z.to_nat c:=Z.land w (wrap64 (Z.shiftl 1 s - 1))]> m) c e)
      as (m2 & -> & Hl & Hk); [lia|rewrite length_insert; lia|].
    rewrite length_insert in Hl. cbn [mbind res_bind].
    destruct (rd_in m2 e) as (w2 & -> & Hlk2); [lia|]. cbn [mbind res_bind].
    rewrite wr_in by lia. eexists. split; [done|].
    rewrite Hk, bool_decide_eq_false_2, list_lookup_insert_ne in Hlk2 by lia.
    pose proof (words_ok_lookup _ _ _ Hm Hlk). pose proof (words_ok_lookup _ _ _ Hm Hlk2).
    replace first with (64 * c + s) by lia. replace nr with (64 * e + o - (64 * c + s)) by lia.
    eapply three_part_range with (v := 0)
      (wfirst := Z.land w (wrap64 (Z.shiftl 1 s - 1))); try done; try lia; try (by apply land_word).
    + intros i Hi. apply Z.testbit_0_l.
    + intros i Hi. rewrite (page_bit_word m c i w) by (done || lia). word_bits.
    + intros i Hi. rewrite (page_bit_word m e i w2) by (done || lia). word_bits.
Qed.

Lemma set_map_spec m s :
  words_ok m -> covers m s -> exists m', set_map m s = Ok m' /\ range_set true m m' s 1.
Proof.
  intros Hm [Hs Hc]. unfold set_map, ENTRIES_PER_MAPWORD. change (64 - 1) with 63.
  destruct (land_63_split s) as (c & o & Hse & Ho & E & ->). rewrite E in *.
  destruct (rd_in m c) as (w & -> & Hlk); [lia|]. cbn [mbind res_bind].
  rewrite wr_in, Z.shiftl_1_l by lia. eexists. split; [done|].
  pose proof (words_ok_lookup _ _ _ Hm Hlk). split_and!.
  - by rewrite length_insert.
  - apply words_ok_insert; [done|]. apply lor_word; [done|].
    split; [lia|]. apply Z.pow_lt_mono_r; lia.
  - intros p Hp. rewrite page_bit_insert by lia.
    assert (p / 64 = c -> page_bit m p = Z.testbit w (p mod 64)) as Hpb.
    { intros Hq. unfold page_bit. by rewrite Hq, Hlk. }
    rewrite Z.lor_spec, Z.pow2_bits_eqb by lia.
    page_arith p. repeat case_bool_decide; try lia; rewrite ?Hpb by done;
      destruct (Z.eqb_spec o r); try lia; by rewrite ?orb_true_r, ?orb_false_r.
Qed.

Lemma clear_map_spec m s :
  words_ok m -> covers m s -> exists m', clear_map m s = Ok m' /\ range_set false m m' s 1.
Proof.
  intros Hm [Hs Hc]. unfold clear_map, ENTRIES_PER_MAPWORD. change (64 - 1) with 63.
  destruct (land_63_split s) as (c & o & Hse & Ho & E & ->). rewrite E in *.
  destruct (rd_in m c) as (w & -> & Hlk); [lia|]. cbn [mbind res_bind].
  rewrite wr_in, Z.shiftl_1_l by lia. eexists. split; [done|].
  pose proof (words_ok_lookup _ _ _ Hm Hlk). split_and!.
  - by rewrite length_insert.
  - apply words_ok_insert; [done|]. by apply land_word.
  - intros p Hp. rewrite page_bit_insert by lia.
    assert (0 <= p mod 64 < 64) by (apply Z.mod_pos_bound; lia).
    assert (p / 64 = c -> page_bit m p = Z.testbit w (p mod 64)) as Hpb.
    { intros Hq. unfold page_bit. by rewrite Hq, Hlk. }
    rewrite Z.land_spec, wrap_testbit, Z.lnot_spec, Z.pow2_bits_eqb by lia.
    page_arith p. repeat case_bool_decide; try lia; rewrite ?Hpb by done;
      destruct (Z.eqb_spec o r); try lia; by rewrite ?andb_true_r, ?andb_false_r.
Qed.

(** ** Outside the map *)

Lemma wr_out m i v : ~ (0 <= i < Z.of_nat (length m)) -> wr m i v = Bug BAD_ACCESS.
Proof. intros. unfold wr. by rewrite rd_out. Qed.

Lemma map_alloc_words_out m c e :
  0 <= c < Z.of_nat (length m) -> Z.of_nat (length m) <= e ->
  map_alloc_words (Z.to_nat (e - c)) m c e = Bug BAD_ACCESS \/
  exists m', map_alloc_words (Z.to_nat (e - c)) m c e = Ok (m', e) /\ length m' = length m.
Proof.
  intros Hc He. remember (Z.to_nat (e - c)) as n eqn:Hn.
  revert m c Hc He Hn. induction n as [|n IH]; intros m c Hc He Hn; [lia|].
  cbn [map_alloc_words]. destruct (Z.ltb_spec (c + 1) e).
  - destruct (decide (c + 1 < Z.of_nat (length m))).
    + rewrite wr_in by lia. cbn [mbind res_bind].
      destruct (IH (<[Z.to_nat (c + 1):=wrap64 (-1)]> m) (c + 1)) as [->|(m' & -> & Hl)];
        rewrite ?length_insert in *; [lia..|by left|]. right. eauto.
    + left. by rewrite wr_out by lia.
  - right. exists m. replace e with (c + 1) by lia. done.
Qed.

Lemma map_free_words_out m c e :
  0 <= c < Z.of_nat (length m) -> Z.of_nat (length m) <= e ->
  map_free_words (Z.to_nat (e - c)) m c e = Bug BAD_ACCESS \/
  exists m', map_free_words (Z.to_nat (e - c)) m c e = Ok (m', e) /\ length m' = length m.
Proof.
  intros Hc He. remember (Z.to_nat (e - c)) as n eqn:Hn.
  revert m c Hc He Hn. induction n as [|n IH]; intros m c Hc He Hn; [lia|].
  cbn [map_free_words]. destruct (Z.eqb_spec (c + 1) e); cbn [negb].
  - right. exists m. by subst e.
  - destruct (decide (c + 1 < Z.of_nat (length m))).
    + rewrite wr_in by lia. cbn [mbind res_bind].
      destruct (IH (<[Z.to_nat (c + 1):=0]> m) (c + 1)) as [->|(m' & -> & Hl)];
        rewrite ?length_insert in *; [lia..|by left|]. right. eauto.
    + left. by rewrite wr_out by lia.
Qed.

Lemma map_alloc_out m first nr :
  0 <= first -> 0 <= nr -> first + nr < 2 ^ 64 -> ~ covers m (first + nr) ->
  map_alloc m first nr = Bug BAD_ACCESS.
Proof.
  intros Hf Hn Hw Hc. unfold map_alloc, ENTRIES_PER_MAPWORD. rewrite (wrap_small 64) by lia.
  assert (Z.of_nat (length m) <= (first + nr) / 64) as He by (unfold covers in Hc; lia).
  assert (0 <= first / 64 <= (first + nr) / 64)
    by (split; [apply Z.div_pos|apply Z.div_le_mono]; lia).
  destruct (decide (first / 64 < Z.of_nat (length m))) as [Hin|].
  2:{ rewrite (rd_out m (first / 64)) by lia. by destruct (first / 64 =? _). }
  rewrite (proj2 (Z.eqb_neq _ _)) by lia.
  destruct (rd_in m (first / 64)) as (w & -> & _); [lia|]. cbn [mbind res_bind].
  rewrite wr_in by lia. cbn [mbind res_bind].
  match goal with |- context [map_alloc_words _ ?m1 _ _] =>
    destruct (map_alloc_words_out m1 (first / 64) ((first + nr) / 64)) as [->|(m2 & -> & Hl)];
      rewrite ?length_insert in *; [lia..|done|] end.
  cbn [mbind res_bind]. by rewrite rd_out by lia.
Qed.

Lemma map_free_out m first nr :
  0 <= first -> 0 <= nr -> first + nr < 2 ^ 64 -> ~ covers m (first + nr) ->
  map_free m first nr = Bug BAD_ACCESS.
Proof.
  intros Hf Hn Hw Hc. unfold map_free, ENTRIES_PER_MAPWORD. rewrite (wrap_small 64) by lia.
  assert (Z.of_nat (length m) <= (first + nr) / 64) as He by (unfold covers in Hc; lia).
  assert (0 <= first / 64 <= (first + nr) / 64)
    by (split; [apply Z.div_pos|apply Z.div_le_mono]; lia).
  destruct (decide (first / 64 < Z.of_nat (length m))) as [Hin|].
  2:{ rewrite (rd_out m (first / 64)) by lia. by destruct (first / 64 =? _). }
  rewrite (proj2 (Z.eqb_neq _ _)) by lia.
  destruct (rd_in m (first / 64)) as (w & -> & _); [lia|]. cbn [mbind res_bind].
  rewrite wr_in by lia. cbn [mbind res_bind].
  match goal with |- context [map_free_words _ ?m1 _ _] =>
    destruct (map_free_words_out m1 (first / 64) ((first + nr) / 64)) as [->|(m2 & -> & Hl)];
      rewrite ?length_insert in *; [lia..|done|] end.
  cbn [mbind res_bind]. by rewrite rd_out by lia.
Qed.
