(* ===== verification/Divide.v ===== *)
(** Division of 64-bit numbers in software: lib/math.c.

    The code works on digits of half a [long] ([HALF_BITS] bits, 32 on x86_64) and views a
    number as two [long]s, through a union.  The headers of the kernel define the 64-bit types
    as [long], so the union has a second [long] that is not part of the number: what it holds
    is the argument [stale] of [__qdivrem].  Pointers into the arrays of five digits are
    indices. *)
From S2P Require Import Prelude.
From stdpp Require Import options.

Section Code.
Context (HALF_BITS : Z).

Definition long (x : Z) : Z := wrap (2 * HALF_BITS) x.
Definition B : Z := Z.shiftl 1 HALF_BITS.
Definition HHALF (x : Z) : Z := Z.shiftr x HALF_BITS.
Definition LHALF (x : Z) : Z := Z.land x (B - 1).
Definition COMBINE (a b : Z) : Z := Z.lor (long (Z.shiftl a HALF_BITS)) b.

(** [shl(&p[i], len, sh)] *)
Fixpoint shl (len : nat) (p : list Z) (i sh : Z) : res (list Z) :=
  x ← elem p i;
  match len with
  | O => set_elem p i (LHALF (long (Z.shiftl x sh)))
  | S len =>
      y ← elem p (i + 1);
      p ← set_elem p i (Z.lor (LHALF (long (Z.shiftl x sh))) (Z.shiftr y (HALF_BITS - sh)));
      shl len p (i + 1) sh
  end.

(** [for (n = 4; v[1] == 0; v++) if (--n == 1) ...]: the number of digits of [v] and its place. *)
Fixpoint skip_v (fuel : nat) (v : list Z) (n ov : Z) : res (Z * Z) :=
  match fuel with
  | O => Fuel
  | S fuel =>
      x ← elem v (ov + 1);
      if x =? 0 then if n - 1 =? 1 then Ok (1, ov) else skip_v fuel v (n - 1) (ov + 1) else Ok (n, ov)
  end.

(** A divisor of one digit: exercise 16. *)
Definition short_division (u : list Z) (t : Z) : res (Z * Z * Z) :=
  u1 ← elem u 1; u2 ← elem u 2; u3 ← elem u 3; u4 ← elem u 4;
  let q1 := u1 / t in
  let rbj := COMBINE (u1 mod t) u2 in
  let q2 := rbj / t in
  let rbj := COMBINE (rbj mod t) u3 in
  let q3 := rbj / t in
  let rbj := COMBINE (rbj mod t) u4 in
  let q4 := rbj / t in
  Ok (COMBINE q1 q2, COMBINE q3 q4, rbj mod t).

(** [for (m = 4 - n; u[1] == 0; u++) m--] *)
Fixpoint skip_u (fuel : nat) (u : list Z) (m ou : Z) : res (Z * Z) :=
  match fuel with
  | O => Fuel
  | S fuel => x ← elem u (ou + 1); if x =? 0 then skip_u fuel u (m - 1) (ou + 1) else Ok (m, ou)
  end.

(** D1: [for (t = v[1]; t < B / 2; t <<= 1) d++] *)
Fixpoint norm_shift (fuel : nat) (t d : Z) : res Z :=
  if t <? B / 2 then match fuel with O => Fuel | S fuel => norm_shift fuel (long (Z.shiftl t 1)) (d + 1) end else Ok d.

(** D3: the [while] loop, entered at [qhat_too_big] when [jump] is set. *)
Fixpoint qhat_loop (fuel : nat) (jump : bool) (v1 v2 uj2 qhat rhat : Z) : res Z :=
  match fuel with
  | O => Fuel
  | S fuel =>
      if jump || (COMBINE rhat uj2 <? long (v2 * qhat)) then
        let qhat := long (qhat - 1) in
        let rhat := long (rhat + v1) in
        if B <=? rhat then Ok qhat else qhat_loop fuel false v1 v2 uj2 qhat rhat
      else Ok qhat
  end.

Definition estimate (v1 v2 uj0 uj1 uj2 : Z) : res Z :=
  if uj0 =? v1 then qhat_loop 4 true v1 v2 uj2 B uj1
  else let nn := COMBINE uj0 uj1 in qhat_loop 4 false v1 v2 uj2 (nn / v1) (nn mod v1).

(** D4: [for (t = 0, i = n; i > 0; i--)], with [uj] the index of [u[j]]. *)
Fixpoint mul_sub (i : nat) (u v : list Z) (uj ov qhat t : Z) : res (list Z * Z) :=
  match i with
  | O => Ok (u, t)
  | S k =>
      ui ← elem u (uj + Z.of_nat i);
      vi ← elem v (ov + Z.of_nat i);
      let t := long (ui - vi * qhat - t) in
      u ← set_elem u (uj + Z.of_nat i) (LHALF t);
      mul_sub k u v uj ov qhat (Z.land (long (B - HHALF t)) (B - 1))
  end.

(** D6 *)
Fixpoint add_back (i : nat) (u v : list Z) (uj ov t : Z) : res (list Z * Z) :=
  match i with
  | O => Ok (u, t)
  | S k =>
      ui ← elem u (uj + Z.of_nat i);
      vi ← elem v (ov + Z.of_nat i);
      let t := long (t + (ui + vi)) in
      u ← set_elem u (uj + Z.of_nat i) (LHALF t);
      add_back k u v uj ov (HHALF t)
  end.

(** D3 to D6 for one [j]: the array [u] and the digit of the quotient. *)
Definition div_step (n : nat) (v1 v2 : Z) (u v : list Z) (uj ov : Z) : res (list Z * Z) :=
  uj0 ← elem u uj; uj1 ← elem u (uj + 1); uj2 ← elem u (uj + 2);
  qhat ← estimate v1 v2 uj0 uj1 uj2;
  '(u, t) ← mul_sub n u v uj ov qhat 0;
  x ← elem u uj;
  let t := long (x - t) in
  u ← set_elem u uj (LHALF t);
  if HHALF t =? 0 then Ok (u, qhat)
  else
    '(u, t) ← add_back n u v uj ov 0;
    x ← elem u uj;
    u ← set_elem u uj (LHALF (long (x + t)));
    Ok (u, long (qhat - 1)).

(** D7: [do ... while (++j <= m)] with [rounds] rounds to go. *)
Fixpoint div_loop (rounds : nat) (n : nat) (v1 v2 : Z) (u v q : list Z) (uj ov qj : Z) : res (list Z * list Z) :=
  match rounds with
  | O => Ok (u, q)
  | S rounds =>
      '(u, x) ← div_step n v1 v2 u v uj ov;
      q ← set_elem q qj x;
      div_loop rounds n v1 v2 u v q (uj + 1) ov (qj + 1)
  end.

(** [for (i = m + n; i > m; --i)], with [um] the index of [u[m]]. *)
Fixpoint unshift (i : nat) (u : list Z) (um d : Z) : res (list Z) :=
  match i with
  | O => set_elem u um 0
  | S k =>
      x ← elem u (um + Z.of_nat i);
      y ← elem u (um + Z.of_nat k);
      u ← set_elem u (um + Z.of_nat i) (Z.lor (Z.shiftr x d) (LHALF (long (Z.shiftl y (HALF_BITS - d)))));
      unshift k u um d
  end.

(** Program D for a dividend [u] and a divisor [v] of five digits each (the first unused):
    the two [long]s of the quotient and of the remainder. *)
Definition program_D (u v : list Z) (n ov : Z) : res (Z * Z * (Z * Z)) :=
  '(m, ou) ← skip_u 4 u (4 - n) 0;
  let q := replicate 5 0 in
  v1 ← elem v (ov + 1);
  d ← norm_shift (Z.to_nat HALF_BITS) v1 0;
  u ← (if 0 <? d then shl (Z.to_nat (m + n)) u ou d else Ok u);
  v ← (if 0 <? d then shl (Z.to_nat (n - 1)) v (ov + 1) d else Ok v);
  v1 ← elem v (ov + 1);
  v2 ← elem v (ov + 2);
  '(u, q) ← div_loop (Z.to_nat (m + 1)) (Z.to_nat n) v1 v2 u v q ou ov (4 - m);
  u ← (if 0 <? d then unshift (Z.to_nat n) u (ou + m) d else Ok u);
  q1 ← elem q 1; q2 ← elem q 2; q3 ← elem q 3; q4 ← elem q 4;
  u1 ← elem u 1; u2 ← elem u 2; u3 ← elem u 3; u4 ← elem u 4;
  Ok (COMBINE q1 q2, COMBINE q3 q4, (COMBINE u1 u2, COMBINE u3 u4)).

(** The quotient and the remainder; [stale] is the word of the union that [tmp.uq] does not
    cover.  A division by zero traps. *)
Definition __qdivrem (stale uq vq : Z) : res (Z * Z) :=
  if vq =? 0 then Bug CRASH_EXIT
  else if uq <? vq then Ok (0, uq)
  else
    let u := [0; HHALF stale; LHALF stale; HHALF uq; LHALF uq] in
    let v := [0; HHALF stale; LHALF stale; HHALF vq; LHALF vq] in
    '(n, ov) ← skip_v 4 v 4 0;
    if n =? 1 then
      t ← elem v (ov + 2);
      '(_, q, r) ← short_division u t;
      Ok (q, r)
    else
      '(_, q, (_, r)) ← program_D u v n ov;
      Ok (q, r).

(** Signed numbers are given and returned as such. *)
Definition __divdi3 (stale a b : Z) : res Z :=
  let ua := if a <? 0 then long (- long a) else a in
  let ub := if b <? 0 then long (- long b) else b in
  let neg := xorb (a <? 0) (b <? 0) in
  '(uq, _) ← __qdivrem stale ua ub;
  Ok (sgn (2 * HALF_BITS) (if neg then - uq else uq)).

Definition __udivdi3 (stale a b : Z) : res Z := '(q, _) ← __qdivrem stale a b; Ok q.
Definition __umoddi3 (stale a b : Z) : res Z := '(_, r) ← __qdivrem stale a b; Ok r.
End Code.

(** ** Halves of a word, digits and the numbers they stand for *)
Section Facts.
Context (h : Z) (Hh : 0 < h).

Abbreviation b := (2 ^ h).

Lemma base_ge : 2 <= b.
Proof using Hh. replace h with (h - 1 + 1) by lia. rewrite Z.pow_add_r by lia. assert (0 < 2 ^ (h - 1)) by (apply Z.pow_pos_nonneg; lia). lia. Qed.

Lemma B_eq : B h = b.
Proof using Hh. unfold B. rewrite Z.shiftl_mul_pow2 by lia. lia. Qed.

Lemma half_base : b = 2 * (b / 2).
Proof using Hh.
  replace h with (h - 1 + 1) at 1 2 by lia. rewrite Z.pow_add_r by lia. change (2 ^ 1) with 2. rewrite Z.div_mul by lia. lia.
Qed.

Lemma HHALF_eq x : HHALF h x = x / b.
Proof using Hh. unfold HHALF. apply Z.shiftr_div_pow2. lia. Qed.

Lemma LHALF_eq x : LHALF h x = x mod b.
Proof using Hh. unfold LHALF. rewrite B_eq. replace (b - 1) with (Z.ones h) by (rewrite Z.ones_equiv; lia). apply Z.land_ones. lia. Qed.

Lemma low_digit_eq x : Z.land x (B h - 1) = x mod b.
Proof using Hh. apply LHALF_eq. Qed.

Lemma long_eq x : long h x = x mod (b * b).
Proof using Hh. unfold long, wrap. rewrite <- Z.pow_add_r by lia. do 2 f_equal. lia. Qed.

Lemma long_small x : 0 <= x < b * b -> long h x = x.
Proof using Hh. intros Hx. rewrite long_eq. by apply Z.mod_small. Qed.

(** Disjoint bits are added. *)
Lemma lor_disjoint a c k : 0 <= k -> 0 <= c < 2 ^ k -> Z.lor (a * 2 ^ k) c = a * 2 ^ k + c.
Proof using.
  intros Hk Hc. rewrite <- Z.add_lor_land. enough (Z.land (a * 2 ^ k) c = 0) by lia. apply Z.bits_inj'. intros i Hi.
  rewrite Z.land_spec, Z.bits_0. destruct (decide (i < k)); [rewrite Z.mul_pow2_bits_low by done; done|].
  rewrite <- (Z.mod_small c (2 ^ k)) by lia. rewrite Z.mod_pow2_bits_high by lia. apply andb_false_r.
Qed.

Lemma COMBINE_eq a c : 0 <= a < b -> 0 <= c < b -> COMBINE h a c = a * b + c.
Proof using Hh.
  intros Ha Hc. unfold COMBINE. rewrite Z.shiftl_mul_pow2, long_small by nia. apply lor_disjoint; lia.
Qed.

(** The digit at an index, and the number the [k] digits from [i] on stand for. *)
Definition dig (a : list Z) (i : Z) : Z := nth (Z.to_nat i) a 0.

Fixpoint val (a : list Z) (i : Z) (k : nat) : Z :=
  match k with
  | O => 0
  | S k => val a i k * b + dig a (i + Z.of_nat k)
  end.

Definition digits (a : list Z) : Prop := length a = 5%nat /\ Forall (fun x => 0 <= x < b) a.

Lemma dig_range a i : digits a -> 0 <= dig a i < b.
Proof using Hh.
  intros [_ Ha]. unfold dig. pose proof base_ge. destruct (nth_in_or_default (Z.to_nat i) a 0) as [Hi | ->]; [|lia].
  rewrite List.Forall_forall in Ha. by apply Ha.
Qed.

Lemma elem_dig a i : digits a -> 0 <= i < 5 -> elem a i = Ok (dig a i).
Proof using. intros [Hl _] Hi. apply elem_nth. lia. Qed.

Lemma set_dig a i x : digits a -> 0 <= i < 5 -> set_elem a i x = Ok (<[Z.to_nat i := x]> a).
Proof using. intros [Hl _] Hi. apply set_elem_eq. lia. Qed.

Lemma digits_upd a i x : digits a -> 0 <= x < b -> digits (<[Z.to_nat i := x]> a).
Proof using. intros [Hl Ha] Hx. split; [by rewrite length_insert|]. by apply Forall_insert. Qed.

Lemma dig_upd a i x j : digits a -> 0 <= i < 5 -> 0 <= j -> dig (<[Z.to_nat i := x]> a) j = if decide (j = i) then x else dig a j.
Proof using.
  intros [Hl _] Hi Hj. unfold dig. rewrite !nth_lookup. case_decide as E.
  - subst. rewrite list_lookup_insert_eq by lia. done.
  - by rewrite list_lookup_insert_ne by lia.
Qed.

Lemma val_ext a a' i k : (forall j, i <= j < i + Z.of_nat k -> dig a j = dig a' j) -> val a i k = val a' i k.
Proof using. induction k as [|k IH]; intros E; [done|]. cbn [val]. rewrite IH, E; [done | lia |]. intros j Hj. apply E. lia. Qed.

Lemma val_upd a i x j k : digits a -> 0 <= i < 5 -> 0 <= j -> ~ (j <= i < j + Z.of_nat k) -> val (<[Z.to_nat i := x]> a) j k = val a j k.
Proof using. intros Ha Hi Hj Hn. apply val_ext. intros l Hl. rewrite dig_upd by (done || lia). rewrite decide_False; [done | lia]. Qed.

Lemma val_range a i k : digits a -> 0 <= val a i k < b ^ Z.of_nat k.
Proof using Hh.
  intros Ha. induction k as [|k IH]; [cbn; lia|]. cbn [val]. pose proof (dig_range a (i + Z.of_nat k) Ha).
  rewrite Nat2Z.inj_succ, Z.pow_succ_r by lia. nia.
Qed.

(** A number is its leading digit and the rest. *)
Lemma val_top a i k : val a i (S k) = dig a i * b ^ Z.of_nat k + val a (i + 1) k.
Proof using.
  induction k as [|k IH]; [cbn -[dig]; rewrite Z.add_0_r; lia|].
  change (val a i (S (S k))) with (val a i (S k) * b + dig a (i + Z.of_nat (S k))). rewrite IH. cbn [val].
  rewrite Nat2Z.inj_succ, Z.pow_succ_r by lia. replace (i + 1 + Z.of_nat k) with (i + Z.succ (Z.of_nat k)) by lia. lia.
Qed.

(** Leading zeros do not count. *)
Lemma val_zeros a i j k : (forall l, i <= l < i + Z.of_nat j -> dig a l = 0) -> val a i (j + k) = val a (i + Z.of_nat j) k.
Proof using.
  revert i. induction j as [|j IH]; intros i E; [by rewrite Z.add_0_r|].
  change (S j + k)%nat with (S (j + k)). rewrite val_top, E by lia. rewrite IH by (intros l Hl; apply E; lia).
  replace (i + 1 + Z.of_nat j) with (i + Z.of_nat (S j)) by lia. done.
Qed.
End Facts.

(** ** The loops on digits *)
Section Loops.
Context (h : Z) (Hh : 0 < h).

#[local] Abbreviation b := (2 ^ h).
#[local] Abbreviation digits := (digits h).
#[local] Abbreviation val := (val h).

(** Only the digits from [lo] to [hi] may differ. *)
Definition dig_frame (u u' : list Z) (lo hi : Z) : Prop := forall j, 0 <= j -> ~ (lo <= j <= hi) -> dig u' j = dig u j.

Lemma dig_frame_refl u lo hi : dig_frame u u lo hi.
Proof using. by intros j. Qed.

Lemma dig_frame_upd u i x u' lo hi :
  digits u -> 0 <= i < 5 -> lo <= i <= hi -> dig_frame (<[Z.to_nat i := x]> u) u' lo hi -> dig_frame u u' lo hi.
Proof using. intros Hu Hi Hl F j Hj Hn. rewrite F, (dig_upd h) by done. rewrite decide_False; [done | lia]. Qed.

Lemma dig_frame_wide u u' lo hi lo' hi' : lo' <= lo -> hi <= hi' -> dig_frame u u' lo hi -> dig_frame u u' lo' hi'.
Proof using. intros H1 H2 F j Hj Hn. apply F; lia. Qed.

Lemma dig_frame_trans u u1 u2 lo hi : dig_frame u u1 lo hi -> dig_frame u1 u2 lo hi -> dig_frame u u2 lo hi.
Proof using. intros F1 F2 j Hj Hn. by rewrite F2, F1. Qed.

Lemma dig_frame_val u u' lo hi i k : dig_frame u u' lo hi -> 0 <= i -> (i + Z.of_nat k <= lo \/ hi < i) -> val u' i k = val u i k.
Proof using. intros F Hi Hk. apply val_ext. intros j Hj. apply F; lia. Qed.

Lemma mod_sq x : (x mod (b * b)) mod b = x mod b.
Proof using Hh. pose proof (base_ge h Hh). apply Z.mod_mod_divide, Z.divide_factor_l. Qed.

Lemma pow_S k : b ^ Z.of_nat (S k) = b * b ^ Z.of_nat k.
Proof using. rewrite Nat2Z.inj_succ. apply Z.pow_succ_r. lia. Qed.

(** A digit_borrow: the digit written and what the next digit lacks. *)
Lemma digit_borrow x : - (b - 1) * b <= x < b ->
  let t := long h x in
  x = LHALF h t - Z.land (long h (B h - HHALF h t)) (B h - 1) * b
  /\ 0 <= LHALF h t < b /\ 0 <= Z.land (long h (B h - HHALF h t)) (B h - 1) < b.
Proof using Hh.
  intros Hx t. pose proof (base_ge h Hh) as Hb. rewrite (low_digit_eq h Hh), (LHALF_eq h Hh), (HHALF_eq h Hh), (B_eq h Hh).
  subst t. rewrite !(long_eq h Hh), !mod_sq.
  pose proof (Z.div_mod x b ltac:(lia)) as E. pose proof (Z.mod_pos_bound x b ltac:(lia)).
  split; [|by split; apply Z.mod_pos_bound; lia].
  assert (x mod (b * b) / b = (x / b) mod b) as ->.
  { rewrite Z.rem_mul_r, (Z.mul_comm b (_ mod b)), Z.div_add, Z.div_small by lia. lia. }
  assert (- (b - 1) <= x / b <= 0) as Hd by (split; [apply Z.div_le_lower_bound | apply Z.lt_succ_r, Z.div_lt_upper_bound]; lia).
  enough ((b - (x / b) mod b) mod b = - (x / b)) as -> by lia.
  rewrite Zminus_mod_idemp_r. replace (b - x / b) with (- (x / b) + 1 * b) by lia. rewrite Z_mod_plus_full. apply Z.mod_small. lia.
Qed.

Ltac digit := rewrite (elem_dig h) by (done || lia); cbn [mbind res_bind].
Ltac put_digit := rewrite (set_dig h) by (done || lia); cbn [mbind res_bind].

Lemma mul_sub_spec v ov qhat uj i : forall u t,
  digits u -> digits v -> 0 <= uj -> uj + Z.of_nat i < 5 -> 0 <= ov -> ov + Z.of_nat i < 5 -> 0 <= qhat < b -> 0 <= t < b ->
  exists u' t', mul_sub h i u v uj ov qhat t = Ok (u', t') /\ digits u' /\ 0 <= t' < b /\ dig_frame u u' (uj + 1) (uj + Z.of_nat i)
    /\ val u (uj + 1) i - qhat * val v (ov + 1) i - t = val u' (uj + 1) i - t' * b ^ Z.of_nat i.
Proof using Hh.
  induction i as [|k IH]; intros u t Hu Hv H1 H2 H3 H4 Hq Ht; [exists u, t; split_and!; [done | done | lia | lia | apply dig_frame_refl | cbn; lia]|].
  cbn [mul_sub]. do 2 digit. put_digit.
  pose proof (dig_range h Hh u (uj + Z.of_nat (S k)) Hu). pose proof (dig_range h Hh v (ov + Z.of_nat (S k)) Hv).
  set (x := dig u (uj + Z.of_nat (S k)) - dig v (ov + Z.of_nat (S k)) * qhat - t).
  destruct (digit_borrow x ltac:(subst x; nia)) as (Ex & Hl & Hc). cbn zeta in *.
  set (u1 := <[Z.to_nat (uj + Z.of_nat (S k)) := LHALF h (long h x)]> u) in *.
  assert (digits u1) as Hu1 by by apply digits_upd.
  edestruct (IH u1 _ Hu1 Hv H1 ltac:(lia) H3 ltac:(lia) Hq Hc) as (u' & t' & E & Hu' & Ht' & F & Ev). rewrite E. exists u', t'.
  assert (dig_frame u1 u' (uj + 1) (uj + Z.of_nat (S k))) as F1 by (eapply dig_frame_wide; [| |done]; lia).
  split_and!; [done | done | lia | lia | eapply dig_frame_upd; [done | | |done]; lia |]. cbn [val].
  replace (uj + 1 + Z.of_nat k) with (uj + Z.of_nat (S k)) by lia. replace (ov + 1 + Z.of_nat k) with (ov + Z.of_nat (S k)) by lia.
  rewrite (F (uj + Z.of_nat (S k))) by lia. subst u1. rewrite (dig_upd h), decide_True by (done || lia).
  rewrite (val_upd h) in Ev by (done || lia). rewrite pow_S. subst x. nia.
Qed.

Lemma digit_carry x : 0 <= x < b * b -> x = LHALF h x + HHALF h x * b /\ 0 <= LHALF h x < b.
Proof using Hh.
  intros Hx. pose proof (base_ge h Hh) as Hb. rewrite (LHALF_eq h Hh), (HHALF_eq h Hh).
  pose proof (Z.div_mod x b ltac:(lia)). pose proof (Z.mod_pos_bound x b ltac:(lia)). lia.
Qed.

Lemma add_back_spec v ov uj i : forall u t,
  digits u -> digits v -> 0 <= uj -> uj + Z.of_nat i < 5 -> 0 <= ov -> ov + Z.of_nat i < 5 -> 0 <= t <= 1 ->
  exists u' t', add_back h i u v uj ov t = Ok (u', t') /\ digits u' /\ 0 <= t' <= 1 /\ dig_frame u u' (uj + 1) (uj + Z.of_nat i)
    /\ val u (uj + 1) i + val v (ov + 1) i + t = val u' (uj + 1) i + t' * b ^ Z.of_nat i.
Proof using Hh.
  induction i as [|k IH]; intros u t Hu Hv H1 H2 H3 H4 Ht; [exists u, t; split_and!; [done | done | lia | lia | apply dig_frame_refl | cbn; lia]|].
  pose proof (base_ge h Hh) as Hb. cbn [add_back]. do 2 digit.
  pose proof (dig_range h Hh u (uj + Z.of_nat (S k)) Hu). pose proof (dig_range h Hh v (ov + Z.of_nat (S k)) Hv).
  set (x := t + (dig u (uj + Z.of_nat (S k)) + dig v (ov + Z.of_nat (S k)))). rewrite (long_small h Hh x) by (subst x; nia).
  put_digit. destruct (digit_carry x ltac:(subst x; nia)) as (Ex & Hl).
  set (u1 := <[Z.to_nat (uj + Z.of_nat (S k)) := LHALF h x]> u) in *.
  assert (digits u1) as Hu1 by by apply digits_upd.
  assert (0 <= HHALF h x <= 1) as Hc by (subst x; nia).
  edestruct (IH u1 _ Hu1 Hv H1 ltac:(lia) H3 ltac:(lia) Hc) as (u' & t' & E & Hu' & Ht' & F & Ev). rewrite E. exists u', t'.
  assert (dig_frame u1 u' (uj + 1) (uj + Z.of_nat (S k))) as F1 by (eapply dig_frame_wide; [| |done]; lia).
  split_and!; [done | done | lia | lia | eapply dig_frame_upd; [done | | |done]; lia |]. cbn [val].
  replace (uj + 1 + Z.of_nat k) with (uj + Z.of_nat (S k)) by lia. replace (ov + 1 + Z.of_nat k) with (ov + Z.of_nat (S k)) by lia.
  rewrite (F (uj + Z.of_nat (S k))) by lia. subst u1. rewrite (dig_upd h), decide_True by (done || lia).
  rewrite (val_upd h) in Ev by (done || lia). rewrite pow_S. subst x. nia.
Qed.

(** D3 finds the quotient of the three leading digits by the two of the divisor, at most
    [B - 1]. *)
Lemma qhat_loop_spec v1 v2 uj2 (Hv1 : b / 2 <= v1 < b) (Hv2 : 0 <= v2 < b) (Hu : 0 <= uj2 < b) fuel : forall jump qhat rhat,
  0 <= rhat < b -> b <= rhat + Z.of_nat fuel * v1 -> (if jump : bool then qhat = b else qhat <= b - 1) ->
  let Q := Z.min (b - 1) (((qhat * v1 + rhat) * b + uj2) / (v1 * b + v2)) in
  0 <= Q <= qhat -> qhat_loop h fuel jump v1 v2 uj2 qhat rhat = Ok Q.
Proof using Hh.
  pose proof (base_ge h Hh) as Hb. pose proof (half_base h Hh) as Hb2. set (V := v1 * b + v2). assert (0 < V) as HV by (subst V; nia).
  induction fuel as [|f IH]; intros jump qhat rhat Hr Hf Hj Q HQ; [lia|]. cbn [qhat_loop].
  set (N := (qhat * v1 + rhat) * b + uj2) in *.
  assert (forall z, z <= Q <-> z <= b - 1 /\ z * V <= N) as Hle.
  { intros z. subst Q. rewrite Z.min_glb_iff. split; intros [? Hz]; (split; [done|]).
    - pose proof (Z.mul_div_le N V HV). nia.
    - apply Z.div_le_lower_bound; lia. }
  rewrite (COMBINE_eq h Hh) by lia.
  destruct (jump || (rhat * b + uj2 <? long h (v2 * qhat))) eqn:Ec.
  - assert (Q <= qhat - 1) as HQ1.
    { destruct (Z.le_gt_cases Q (qhat - 1)); [done | exfalso]. destruct (proj1 (Hle qhat) ltac:(lia)) as [Hq1 HqN].
      destruct jump; [lia|]. cbn [orb] in Ec. apply Z.ltb_lt in Ec. rewrite (long_small h Hh) in Ec by nia. subst N V. nia. }
    assert (qhat <= b) as Hqb by (destruct jump; lia).
    rewrite (long_small h Hh (qhat - 1)), (long_small h Hh (rhat + v1)), (B_eq h Hh) by nia.
    destruct (Z.leb_spec b (rhat + v1)) as [Hx | Hx].
    + f_equal. apply Z.le_antisymm; [|done]. apply Hle. split; [lia|]. subst N V. nia.
    + rewrite (IH false (qhat - 1) (rhat + v1)).
      * f_equal. subst Q N. do 3 f_equal. lia.
      * lia.
      * lia.
      * lia.
      * replace ((qhat - 1) * v1 + (rhat + v1)) with (qhat * v1 + rhat) by lia. fold N Q. lia.
  - f_equal. apply orb_false_iff in Ec as [-> Ec]. apply Z.ltb_ge in Ec. rewrite (long_small h Hh) in Ec by nia.
    apply Z.le_antisymm; [|lia]. apply Hle. split; [lia|]. subst N V. nia.
Qed.

Lemma estimate_spec v1 v2 uj0 uj1 uj2 :
  b / 2 <= v1 < b -> 0 <= v2 < b -> 0 <= uj0 <= v1 -> 0 <= uj1 < b -> 0 <= uj2 < b ->
  estimate h v1 v2 uj0 uj1 uj2 = Ok (Z.min (b - 1) (((uj0 * b + uj1) * b + uj2) / (v1 * b + v2))).
Proof using Hh.
  intros Hv1 Hv2 Hu0 Hu1 Hu2. pose proof (base_ge h Hh) as Hb. pose proof (half_base h Hh) as Hb2.
  assert (0 <= ((uj0 * b + uj1) * b + uj2) / (v1 * b + v2)) as HQ by (apply Z.div_pos; nia). unfold estimate.
  destruct (Z.eqb_spec uj0 v1) as [E | E].
  - subst uj0. replace (v1 * b + uj1) with (b * v1 + uj1) in * by lia. rewrite (B_eq h Hh). apply (qhat_loop_spec v1 v2 uj2); [done | done | done | lia..].
  - rewrite (COMBINE_eq h Hh) by lia. set (nn := uj0 * b + uj1) in *. pose proof (Z.div_mod nn v1 ltac:(lia)) as Ed.
    pose proof (Z.mod_pos_bound nn v1 ltac:(lia)) as Hm. assert (nn / v1 < b) as Hq by (apply Z.div_lt_upper_bound; nia).
    rewrite (qhat_loop_spec v1 v2 uj2); [|done | done | done | lia | lia | lia |]; rewrite (Z.mul_comm (nn / v1)), <- Ed; [done|].
    split; [lia|]. etransitivity; [apply Z.le_min_r|]. apply Z.lt_succ_r, Z.div_lt_upper_bound; [nia|].
    assert (0 <= nn / v1) by (apply Z.div_pos; nia). assert (nn + 1 <= v1 * Z.succ (nn / v1)) by nia. nia.
Qed.

(** The estimate from the leading digits is the digit of the quotient or one more. *)
Lemma estimate_close U V P u012 v12 ur vr :
  0 < P -> U = u012 * P + ur -> 0 <= ur < P -> V = v12 * P + vr -> 0 <= vr < P -> b <= v12 -> 0 <= u012 -> U < V * b ->
  U / V <= Z.min (b - 1) (u012 / v12) <= U / V + 1.
Proof using Hh.
  intros HP EU Hur EV Hvr Hv Hu HU. pose proof (base_ge h Hh) as Hb. assert (0 < V) as HV by nia.
  pose proof (Z.mul_div_le U V HV) as H1. assert (0 <= U / V) as H0 by (apply Z.div_pos; nia).
  assert (U / V < b) by (apply Z.div_lt_upper_bound; lia). split.
  - apply Z.min_glb; [lia|]. apply Z.div_le_lower_bound; [lia|]. apply Z.lt_succ_r, (Z.mul_lt_mono_pos_r P); [done|].
    apply Z.le_lt_trans with (V * (U / V)); nia.
  - set (q := Z.min _ _). assert (0 <= q <= b - 1) as Hq by (subst q; pose proof (Z.div_pos u012 v12 Hu ltac:(lia)); lia).
    assert (q * v12 <= u012) as Hq2 by (pose proof (Z.mul_div_le u012 v12 ltac:(lia)); subst q; nia).
    enough (q - 1 <= U / V) by lia. apply Z.div_le_lower_bound; [done|].
    pose proof (Z.mul_le_mono_nonneg_l vr P q ltac:(lia) ltac:(lia)). pose proof (Z.mul_le_mono_nonneg_r q v12 P ltac:(lia) ltac:(lia)).
    pose proof (Z.mul_le_mono_nonneg_r _ _ P ltac:(lia) Hq2). subst U V. lia.
Qed.

(** D5: what the sign of the leading digit after the subtraction tells. *)
Lemma remainder_sign U V Bn q x w :
  0 <= U -> 0 < V < Bn -> U / V <= q <= U / V + 1 -> U - q * V = x * Bn + w -> 0 <= w < Bn ->
  (x = 0 /\ q = U / V /\ U mod V = w) \/ (x = -1 /\ q - 1 = U / V /\ U mod V = w + V - Bn).
Proof using.
  intros HU HV Hq E Hw. pose proof (Z.div_mod U V ltac:(lia)) as Ed. pose proof (Z.mod_pos_bound U V ltac:(lia)) as Hm.
  destruct (decide (q = U / V)) as [-> | Hne].
  - left. assert (x * Bn + w = U mod V) as Ex by lia. assert (x = 0) by nia. subst x. lia.
  - right. assert (q = U / V + 1) as -> by lia. assert (x * Bn + w = U mod V - V) as Ex by lia. assert (x = -1) by nia. subst x. lia.
Qed.

(** The leading two and three digits of a number. *)
Lemma val_top2 a i k : val a i (S (S k)) = (dig a i * b + dig a (i + 1)) * b ^ Z.of_nat k + val a (i + 2) k.
Proof using. rewrite !val_top, pow_S. replace (i + 1 + 1) with (i + 2) by lia. lia. Qed.

Lemma val_top3 a i k :
  val a i (S (S (S k))) = ((dig a i * b + dig a (i + 1)) * b + dig a (i + 2)) * b ^ Z.of_nat k + val a (i + 3) k.
Proof using. rewrite val_top2, val_top, pow_S. replace (i + 2 + 1) with (i + 3) by lia. lia. Qed.

Lemma lead_le u v i j k : digits u -> digits v -> val u i (S (S k)) < val v j (S k) * b -> dig u i <= dig v j.
Proof using Hh.
  intros Hu Hv. pose proof (base_ge h Hh) as Hb. rewrite (val_top _ u), (val_top _ v), pow_S.
  pose proof (val_range h Hh u (i + 1) (S k) Hu) as [Hr0 _]. pose proof (val_range h Hh v (j + 1) k Hv) as [_ Hr].
  assert (0 < b ^ Z.of_nat k) as HP by (apply Z.pow_pos_nonneg; lia). set (P := b ^ Z.of_nat k) in *. intros HU.
  apply Z.lt_succ_r, (Z.mul_lt_mono_pos_r (b * P)); [lia|]. pose proof (proj1 (Z.mul_lt_mono_pos_r b _ _ ltac:(lia)) Hr). lia.
Qed.

(** D3 at the digits of two numbers. *)
Lemma estimate_digits n u v uj ov :
  digits u -> digits v -> (2 <= n)%nat -> b / 2 <= dig v (ov + 1) -> val u uj (S n) < val v (ov + 1) n * b ->
  0 < val v (ov + 1) n /\ exists q, estimate h (dig v (ov + 1)) (dig v (ov + 2)) (dig u uj) (dig u (uj + 1)) (dig u (uj + 2)) = Ok q
    /\ 0 <= q < b /\ val u uj (S n) / val v (ov + 1) n <= q <= val u uj (S n) / val v (ov + 1) n + 1.
Proof using Hh.
  intros Hu Hv Hn Hnorm HU. pose proof (base_ge h Hh) as Hb. pose proof (half_base h Hh) as Hb2.
  destruct n as [|[|k]]; [lia | lia |]. pose proof (lead_le _ _ _ _ _ Hu Hv HU) as Hu0.
  pose proof (val_top3 u uj k) as EU. pose proof (val_top2 v (ov + 1) k) as EV.
  replace (ov + 1 + 1) with (ov + 2) in EV by lia. replace (ov + 1 + 2) with (ov + 3) in EV by lia.
  pose proof (val_range h Hh u (uj + 3) k Hu) as Hur. pose proof (val_range h Hh v (ov + 3) k Hv) as Hvr.
  assert (0 < b ^ Z.of_nat k) as HP by (apply Z.pow_pos_nonneg; lia).
  pose proof (val_range h Hh u uj (S (S (S k))) Hu) as [HU0 _].
  set (U := val u uj _) in *. set (V := val v (ov + 1) _) in *. set (P := b ^ Z.of_nat k) in *.
  pose proof (dig_range h Hh u uj Hu). pose proof (dig_range h Hh u (uj + 1) Hu). pose proof (dig_range h Hh u (uj + 2) Hu).
  pose proof (dig_range h Hh v (ov + 1) Hv). pose proof (dig_range h Hh v (ov + 2) Hv).
  assert (b <= dig v (ov + 1) * b) by nia. set (N := (dig u uj * b + dig u (uj + 1)) * b + dig u (uj + 2)) in *.
  assert (0 <= N) by (subst N; nia). set (D := dig v (ov + 1) * b + dig v (ov + 2)) in *.
  pose proof (Z.mul_le_mono_nonneg_r 1 D P ltac:(lia) ltac:(subst D; lia)) as HD.
  assert (U / V <= Z.min (b - 1) (N / D) <= U / V + 1) as Hq
    by (eapply estimate_close; [exact HP | exact EU | exact Hur | exact EV | exact Hvr | subst D; lia | done | exact HU]).
  split; [lia|]. exists (Z.min (b - 1) (N / D)). split; [apply estimate_spec; lia|]. split; [|done].
  pose proof (Z.div_pos U V HU0 ltac:(lia)). lia.
Qed.

Lemma minus_one : LHALF h (long h (-1)) = b - 1 /\ HHALF h (long h (-1)) = b - 1.
Proof using Hh.
  pose proof (base_ge h Hh) as Hb. rewrite (LHALF_eq h Hh), (HHALF_eq h Hh), (long_eq h Hh), mod_sq.
  assert (forall c, 1 < c -> (-1) mod c = c - 1) as Em by (intros c Hc; symmetry; apply Z.mod_unique with (-1); lia).
  rewrite !Em by nia. split; [done|].
  replace (b * b - 1) with ((b - 1) + (b - 1) * b) by lia. rewrite Z.div_add, Z.div_small by lia. lia.
Qed.

(** One digit of the quotient: the part of [u] it is made from is left with the remainder. *)
Lemma div_step_spec n u v uj ov :
  digits u -> digits v -> (2 <= n)%nat -> 0 <= uj -> uj + Z.of_nat n < 5 -> 0 <= ov -> ov + Z.of_nat n < 5 ->
  b / 2 <= dig v (ov + 1) -> val u uj (S n) < val v (ov + 1) n * b ->
  exists u', div_step h n (dig v (ov + 1)) (dig v (ov + 2)) u v uj ov = Ok (u', val u uj (S n) / val v (ov + 1) n)
    /\ digits u' /\ dig_frame u u' uj (uj + Z.of_nat n) /\ val u' uj (S n) = val u uj (S n) mod val v (ov + 1) n.
Proof using Hh.
  intros Hu Hv Hn H1 H2 H3 H4 Hnorm HU. pose proof (base_ge h Hh) as Hb.
  destruct (estimate_digits n u v uj ov Hu Hv Hn Hnorm HU) as (HV & q & Eq & Hqb & Hq). unfold div_step. do 3 digit. rewrite Eq. clear Eq. cbn [mbind res_bind].
  destruct (mul_sub_spec v ov q uj n u 0) as (u1 & t & E & Hu1 & Ht & F & Ev); [done | done | lia | lia | lia | lia | lia | lia |].
  rewrite E. clear E. cbn [mbind res_bind]. digit. rewrite (F uj) by lia. put_digit.
  pose proof (val_range h Hh v (ov + 1) n Hv) as [_ HVn]. pose proof (val_range h Hh u uj (S n) Hu) as [HU0 _].
  pose proof (val_range h Hh u1 (uj + 1) n Hu1) as Hw. pose proof (val_top h u uj n) as EU. pose proof (dig_range h Hh u uj Hu) as Hd.
  assert (val u uj (S n) / val v (ov + 1) n < b) as HQ by (apply Z.div_lt_upper_bound; lia).
  pose proof (Z.div_pos _ _ HU0 HV) as HQ0. set (U := val u uj (S n)) in *. set (V := val v (ov + 1) n) in *.
  assert (forall x, 0 <= x < b -> digits (<[Z.to_nat uj := x]> u1)) as Hput by (intros x Hx; by apply digits_upd).
  assert (dig_frame u u1 uj (uj + Z.of_nat n)) as F1 by (eapply dig_frame_wide; [| |done]; lia).
  destruct (remainder_sign U V (b ^ Z.of_nat n) q (dig u uj - t) (val u1 (uj + 1) n)) as [(Ex & <- & Em) | (Ex & EQ & Em)]; [done | lia | done | lia | done | |].
  - rewrite Ex, (long_small h Hh), (HHALF_eq h Hh), (LHALF_eq h Hh), Z.div_0_l, Z.mod_0_l by lia. cbn [Z.eqb].
    eexists. split; [done|]. split; [by apply Hput; lia|]. split.
    + intros j Hj Hn'. rewrite (dig_upd h), decide_False by (done || lia). by apply F1.
    + rewrite val_top, (dig_upd h), decide_True, (val_upd h) by (done || lia). lia.
  - destruct minus_one as (EL & EH). rewrite Ex, EL, EH. rewrite (proj2 (Z.eqb_neq (b - 1) 0)) by lia.
    set (u2 := <[Z.to_nat uj := b - 1]> u1). assert (digits u2) as Hu2 by (apply Hput; lia).
    destruct (add_back_spec v ov uj n u2 0) as (u3 & t' & E & Hu3 & Ht' & F3 & Ev3); [done | done | lia..|].
    rewrite E. clear E. cbn [mbind res_bind]. digit. rewrite (F3 uj) by lia. subst u2. rewrite (dig_upd h), decide_True by (done || lia).
    rewrite (val_upd h) in Ev3 by (done || lia). fold V in Ev3. pose proof (val_range h Hh u3 (uj + 1) n Hu3) as Hw3.
    pose proof (Z.mod_pos_bound U V HV). assert (t' = 1) as -> by nia.
    rewrite (long_small h Hh (b - 1 + 1)), (long_small h Hh (q - 1)), (LHALF_eq h Hh) by nia.
    replace (b - 1 + 1) with b by lia. rewrite Z.mod_same by lia. put_digit. rewrite EQ.
    eexists. split; [done|]. split; [apply digits_upd; [done | lia]|]. split.
    + intros j Hj Hn'. rewrite (dig_upd h), decide_False by (done || lia). rewrite (F3 j) by lia.
      rewrite (dig_upd h), decide_False by (done || lia). by apply F1.
    + rewrite val_top, (dig_upd h), decide_True, (val_upd h) by (done || lia). lia.
Qed.

Lemma val_app a i j k : val a i (j + k) = val a i j * b ^ Z.of_nat k + val a (i + Z.of_nat j) k.
Proof using.
  induction k as [|k IH]; [rewrite Nat.add_0_r; cbn; lia|]. rewrite Nat.add_succ_r. cbn [val]. rewrite IH, pow_S.
  replace (i + Z.of_nat (j + k)) with (i + Z.of_nat j + Z.of_nat k) by lia. lia.
Qed.

(** D7: long division, the quotient digit by digit and the remainder in place. *)
Lemma div_loop_spec n v ov rounds :
  digits v -> (2 <= n)%nat -> 0 <= ov -> ov + Z.of_nat n < 5 -> b / 2 <= dig v (ov + 1) ->
  forall u q uj qj, digits u -> digits q -> 0 <= uj -> uj + Z.of_nat (n + rounds) <= 5 -> 0 <= qj -> qj + Z.of_nat rounds <= 5 ->
  val u uj n < val v (ov + 1) n ->
  exists u' q', div_loop h rounds n (dig v (ov + 1)) (dig v (ov + 2)) u v q uj ov qj = Ok (u', q') /\ digits u' /\ digits q'
    /\ dig_frame u u' uj (uj + Z.of_nat (n + rounds) - 1) /\ dig_frame q q' qj (qj + Z.of_nat rounds - 1)
    /\ val q' qj rounds = val u uj (n + rounds) / val v (ov + 1) n
    /\ val u' uj (n + rounds) = val u uj (n + rounds) mod val v (ov + 1) n.
Proof using Hh.
  intros Hv Hn H3 H4 Hnorm. pose proof (base_ge h Hh) as Hb. induction rounds as [|r IH]; intros u q uj qj Hu Hq H1 H2 H5 H6 HU.
  - exists u, q. pose proof (val_range h Hh u uj n Hu). rewrite Nat.add_0_r, Z.div_small, Z.mod_small by lia.
    split_and!; try done; apply dig_frame_refl.
  - pose proof (dig_range h Hh u (uj + Z.of_nat n) Hu) as Hd. pose proof (val_range h Hh u uj n Hu) as Hr0. cbn [div_loop].
    assert (val u uj (S n) < val v (ov + 1) n * b) as HU1 by (cbn [val]; nia).
    destruct (div_step_spec n u v uj ov) as (u1 & E & Hu1 & F1 & Ev1); [done | done | done | lia..|]. rewrite E. clear E. cbn [mbind res_bind].
    rewrite Nat.add_succ_r, <- Nat.add_succ_l, val_app. set (U := val u uj (S n)) in *. set (V := val v (ov + 1) n) in *.
    assert (0 <= U) as HU0 by (apply val_range; done). assert (0 <= U / V < b) as Hx by (split; [apply Z.div_pos | apply Z.div_lt_upper_bound]; lia).
    pose proof (Z.div_mod U V ltac:(lia)) as Ed. pose proof (Z.mod_pos_bound U V ltac:(lia)) as Hm.
    pose proof (val_range h Hh v (ov + 1) n Hv) as [_ HVn]. fold V in HVn.
    pose proof (val_range h Hh u1 (uj + 1) n Hu1) as Hw. pose proof (dig_range h Hh u1 uj Hu1) as Hd1.
    rewrite (val_top h u1) in Ev1. assert (dig u1 uj = 0) as E0 by nia. rewrite E0 in Ev1.
    put_digit. destruct (IH u1 (<[Z.to_nat qj := U / V]> q) (uj + 1) (qj + 1)) as (u' & q' & -> & Hu' & Hq' & Fu & Fq & EQ & ER);
      [done | by apply digits_upd | lia..|].
    exists u', q'. split; [done|]. split; [done|]. split; [done|].
    rewrite (val_app u1), (dig_frame_val u u1 uj (uj + Z.of_nat n) (uj + 1 + Z.of_nat n)) in EQ, ER by (done || lia).
    change (val u' uj (S n + r)) with (val u' uj (S (n + r))).
    rewrite (val_top h _ uj), (val_top h _ qj), EQ, ER, (Fu uj), E0, (Fq qj), (dig_upd h), decide_True by (done || lia).
    replace (uj + 1 + Z.of_nat n) with (uj + Z.of_nat (S n)) by lia. set (T := val u (uj + Z.of_nat (S n)) r).
    assert (U * b ^ Z.of_nat r + T = U / V * b ^ Z.of_nat r * V + (val u1 (uj + 1) n * b ^ Z.of_nat r + T)) as -> by (rewrite Ed at 1; nia).
    split; [|split; [|split; [by rewrite Z.div_add_l by lia | by rewrite Z.mul_0_l, Z.add_comm, (Z.add_comm (_ * V)), Z_mod_plus_full, Z.add_0_r]]].
    + eapply dig_frame_trans; eapply dig_frame_wide; [| |exact F1| | |exact Fu]; lia.
    + eapply dig_frame_upd; [exact Hq | | |eapply dig_frame_wide; [| |exact Fq]]; lia.
Qed.

(** D1: the shift that normalises a digit. *)
Lemma norm_shift_spec fuel : forall t d, 0 < t < b -> b / 2 <= t * 2 ^ Z.of_nat fuel ->
  exists s, norm_shift h fuel t d = Ok (d + s) /\ 0 <= s /\ b / 2 <= t * 2 ^ s < b.
Proof using Hh.
  pose proof (base_ge h Hh) as Hb. pose proof (half_base h Hh) as Hb2.
  induction fuel as [|f IH]; intros t d Ht Hf; cbn [norm_shift]; rewrite (B_eq h Hh); destruct (Z.ltb_spec t (b / 2)) as [Hlt | Hge].
  - lia.
  - exists 0. split; [f_equal; lia | lia].
  - rewrite Z.shiftl_mul_pow2, (long_small h Hh) by nia. change (2 ^ 1) with 2. rewrite Nat2Z.inj_succ, Z.pow_succ_r in Hf by lia.
    destruct (IH (t * 2) (d + 1)) as (s & E & Hs & Hr); [lia | lia |]. exists (1 + s). rewrite E, Z.pow_add_r by lia. split; [f_equal; lia | lia].
  - exists 0. split; [f_equal; lia | lia].
Qed.

Section Shifts.
Context (d : Z) (Hd : 0 < d < h).

Lemma split_base : b = 2 ^ (h - d) * 2 ^ d /\ 0 < 2 ^ (h - d) /\ 0 < 2 ^ d.
Proof using Hd Hh. rewrite <- Z.pow_add_r by lia. split; [f_equal; lia|]. split; apply Z.pow_pos_nonneg; lia. Qed.

Lemma shl_digit x : 0 <= x < b -> LHALF h (long h (Z.shiftl x d)) = (x mod 2 ^ (h - d)) * 2 ^ d.
Proof using Hd Hh.
  intros Hx. destruct split_base as (Eb & H1 & H2). rewrite Z.shiftl_mul_pow2, (long_small h Hh), (LHALF_eq h Hh) by nia.
  rewrite Eb. apply Z.mul_mod_distr_r; lia.
Qed.

Lemma shr_digit y : 0 <= y < b -> 0 <= Z.shiftr y (h - d) < 2 ^ d /\ Z.shiftr y (h - d) = y * 2 ^ d / b.
Proof using Hd Hh.
  intros Hy. destruct split_base as (Eb & H1 & H2). rewrite Z.shiftr_div_pow2 by lia. split.
  - split; [apply Z.div_pos; lia | apply Z.div_lt_upper_bound; lia].
  - rewrite Eb, Z.div_mul_cancel_r by lia. done.
Qed.

Lemma shl_range x c : 0 <= x -> 0 <= c < 2 ^ d -> 0 <= (x mod 2 ^ (h - d)) * 2 ^ d + c < b.
Proof using Hd Hh. intros Hx Hc. destruct split_base as (Eb & H1 & H2). pose proof (Z.mod_pos_bound x _ H1). rewrite Eb. nia. Qed.

(** What a digit loses to the left is what its left neighbour gains. *)
Lemma shl_lost x : x * 2 ^ d = (x * 2 ^ d / b) * b + (x mod 2 ^ (h - d)) * 2 ^ d.
Proof using Hd Hh.
  destruct split_base as (Eb & H1 & H2). rewrite Eb, Z.div_mul_cancel_r by lia. pose proof (Z.div_mod x (2 ^ (h - d)) ltac:(lia)). nia.
Qed.

Lemma shl_spec len : forall p i, digits p -> 0 <= i -> i + Z.of_nat len < 5 ->
  exists p', shl h len p i d = Ok p' /\ digits p' /\ dig_frame p p' i (i + Z.of_nat len)
    /\ val p' i (S len) = val p i (S len) * 2 ^ d - (dig p i * 2 ^ d / b) * b ^ Z.of_nat (S len).
Proof using Hd Hh.
  induction len as [|len IH]; intros p i Hp Hi Hl; pose proof (dig_range h Hh p i Hp) as Hx; cbn [shl]; digit.
  - rewrite shl_digit by done. put_digit. pose proof (shl_range (dig p i) 0 ltac:(lia) ltac:(pose proof split_base; lia)).
    eexists. split; [done|]. split; [apply digits_upd; [done | lia]|]. split.
    + intros j Hj Hn. rewrite (dig_upd h), decide_False by (done || lia). done.
    + rewrite !val_top, (dig_upd h), decide_True, pow_S by (done || lia). cbn. pose proof (shl_lost (dig p i)). lia.
  - digit. rewrite shl_digit by done. pose proof (dig_range h Hh p (i + 1) Hp) as Hy. destruct (shr_digit _ Hy) as [Hs Es].
    rewrite lor_disjoint by lia. put_digit. pose proof (shl_range (dig p i) _ (proj1 Hx) Hs) as Hr.
    set (p1 := <[Z.to_nat i := _]> p). assert (digits p1) as Hp1 by by apply digits_upd.
    destruct (IH p1 (i + 1)) as (p' & E & Hp' & F & Ev); [done | lia | lia |]. exists p'. split; [done|]. split; [done|]. split.
    + eapply dig_frame_upd; [exact Hp | | |eapply dig_frame_wide; [| |exact F]]; lia.
    + subst p1. rewrite (val_upd h), (dig_upd h), decide_False in Ev by (done || lia).
      rewrite (val_top h p'), (val_top h p i), Ev, (F i), (dig_upd h), decide_True by (done || lia). pose proof (shl_lost (dig p i)).
      rewrite (pow_S (S len)). nia.
Qed.

End Shifts.

(** What a digit gives to its right neighbour. *)
Lemma unshift_digit d x y W :
  0 < d < h -> 0 <= x < b -> 0 <= y < b -> W mod b = y ->
  let z := Z.lor (Z.shiftr x d) (LHALF h (long h (Z.shiftl y (h - d)))) in
  0 <= z < b /\ (W * b + x) / 2 ^ d = W / 2 ^ d * b + z.
Proof using Hh.
  intros Hd Hx Hy HW. destruct (split_base d Hd) as (Eb & H1 & H2). rewrite (shl_digit (h - d)) by (done || lia).
  replace (h - (h - d)) with d by lia. rewrite Z.shiftr_div_pow2 by lia.
  assert (0 <= x / 2 ^ d < 2 ^ (h - d)) as Hq by (split; [apply Z.div_pos | apply Z.div_lt_upper_bound]; lia).
  rewrite Z.lor_comm, lor_disjoint by lia. pose proof (Z.mod_pos_bound y _ H2) as Hm. split; [rewrite Eb; nia|].
  assert (W mod 2 ^ d = y mod 2 ^ d) as EW by (rewrite <- HW, Eb; symmetry; apply Z.mod_mod_divide, Z.divide_factor_r).
  pose proof (Z.div_mod W (2 ^ d) ltac:(lia)) as Ed. rewrite EW in Ed.
  replace (W * b + x) with ((W * 2 ^ (h - d)) * 2 ^ d + x) by (rewrite Eb; lia). rewrite Z.div_add_l by lia.
  rewrite Ed at 1. rewrite Eb. lia.
Qed.

(** The remainder is shifted back. *)
Lemma unshift_spec d i : 0 < d < h -> forall u um, digits u -> 0 <= um -> um + Z.of_nat i < 5 -> dig u um = 0 ->
  exists u', unshift h i u um d = Ok u' /\ digits u' /\ dig_frame u u' um (um + Z.of_nat i) /\ val u' um (S i) = val u um (S i) / 2 ^ d.
Proof using Hh.
  intros Hd. induction i as [|k IH]; intros u um Hu Hm Hl H0; cbn [unshift].
  - put_digit. eexists. split; [done|]. split; [apply digits_upd; [done | pose proof (base_ge h Hh); lia]|]. split.
    + intros j Hj Hn. rewrite (dig_upd h), decide_False by (done || lia). done.
    + rewrite !val_top, (dig_upd h), decide_True, H0 by (done || lia). done.
  - do 2 digit. pose proof (dig_range h Hh u (um + Z.of_nat (S k)) Hu) as Hx. pose proof (dig_range h Hh u (um + Z.of_nat k) Hu) as Hy.
    destruct (unshift_digit d _ _ (val u um (S k)) Hd Hx Hy) as (Hz & Ez).
    { cbn [val]. rewrite Z.add_comm, Z_mod_plus_full. by apply Z.mod_small. }
    put_digit. set (u1 := <[Z.to_nat (um + Z.of_nat (S k)) := _]> u). assert (digits u1) as Hu1 by by apply digits_upd.
    destruct (IH u1 um) as (u' & -> & Hu' & F & Ev); [done | lia | lia | subst u1; by rewrite (dig_upd h), decide_False by (done || lia)|].
    exists u'. split; [done|]. split; [done|]. split.
    + eapply dig_frame_upd; [exact Hu | | |eapply dig_frame_wide; [| |exact F]]; lia.
    + change (val u' um (S (S k))) with (val u' um (S k) * b + dig u' (um + Z.of_nat (S k))). rewrite Ev, (F (um + Z.of_nat (S k))) by lia.
      subst u1. rewrite (dig_upd h), decide_True, (val_upd h) by (done || lia). by rewrite <- Ez.
Qed.

(** The leading zeros of the dividend are skipped. *)
Lemma skip_u_spec u fuel : forall m (o : Z), digits u -> 0 <= o -> o + Z.of_nat fuel <= 4 -> val u (o + 1) fuel <> 0 ->
  exists j, skip_u fuel u m o = Ok (m - Z.of_nat j, o + Z.of_nat j) /\ (j < fuel)%nat
    /\ (forall l, o < l <= o + Z.of_nat j -> dig u l = 0) /\ dig u (o + Z.of_nat j + 1) <> 0.
Proof using Hh.
  induction fuel as [|f IH]; intros m o Hu Ho Hf Hv; [done|]. cbn [skip_u]. digit. destruct (Z.eqb_spec (dig u (o + 1)) 0) as [E | E].
  - rewrite val_top, E in Hv. destruct (IH (m - 1) (o + 1)) as (j & -> & Hj & Hz & Hn); [done | lia | lia | lia |].
    exists (S j). split; [do 2 f_equal; lia|]. split; [lia|]. split.
    + intros l Hl. destruct (decide (l = o + 1)) as [-> | Hl1]; [done|]. apply Hz. lia.
    + by replace (o + Z.of_nat (S j) + 1) with (o + 1 + Z.of_nat j + 1) by lia.
  - exists O. split; [do 2 f_equal; lia|]. split; [lia|]. split; [intros l Hl; lia|]. by rewrite Z.add_0_r.
Qed.

(** A small number has leading zeros. *)
Lemma small_lead a n j : forall i, digits a -> val a i (j + n) < b ^ Z.of_nat n ->
  (forall l, i <= l < i + Z.of_nat j -> dig a l = 0) /\ val a (i + Z.of_nat j) n = val a i (j + n).
Proof using Hh.
  pose proof (base_ge h Hh) as Hb. induction j as [|j IH]; intros i Ha Hv; [split; [lia | by rewrite Z.add_0_r]|].
  change (S j + n)%nat with (S (j + n)) in *. rewrite val_top in Hv |- *. pose proof (dig_range h Hh a i Ha) as Hd.
  pose proof (val_range h Hh a (i + 1) (j + n) Ha) as Hr. pose proof (Z.pow_le_mono_r b (Z.of_nat n) (Z.of_nat (j + n)) ltac:(lia) ltac:(lia)).
  assert (dig a i = 0) as E by (clear IH; generalize dependent (b ^ Z.of_nat (j + n)); intros P; intros; nia).
  rewrite E in Hv |- *. destruct (IH (i + 1) Ha ltac:(lia)) as [Hz Ev]. split.
  - intros l Hl. destruct (decide (l = i)) as [-> | Hl1]; [done|]. apply Hz. lia.
  - replace (i + Z.of_nat (S j)) with (i + 1 + Z.of_nat j) by lia. lia.
Qed.

(** The shifts of D1 and of the remainder, which are left out when the divisor is normalised. *)
Lemma maybe_shl d p i len : digits p -> 0 <= i -> i + Z.of_nat len < 5 -> 0 <= d < h -> dig p i * 2 ^ d < b ->
  exists p', (if 0 <? d then shl h len p i d else Ok p) = Ok p' /\ digits p' /\ dig_frame p p' i (i + Z.of_nat len)
    /\ val p' i (S len) = val p i (S len) * 2 ^ d.
Proof using Hh.
  intros Hp Hi Hl Hd Hx. destruct (Z.ltb_spec 0 d) as [Hd0 | Hd0].
  - destruct (shl_spec d ltac:(lia) len p i Hp Hi Hl) as (p' & E & Hp' & F & Ev). exists p'. rewrite Z.div_small in Ev.
    + split_and!; [done | done | done | lia].
    + pose proof (dig_range h Hh p i Hp). pose proof (Z.pow_pos_nonneg 2 d). nia.
  - exists p. assert (d = 0) as -> by lia. split_and!; [done | done | apply dig_frame_refl | lia].
Qed.

Lemma maybe_unshift d u um n : digits u -> 0 <= um -> um + Z.of_nat n < 5 -> 0 <= d < h -> dig u um = 0 ->
  exists u', (if 0 <? d then unshift h n u um d else Ok u) = Ok u' /\ digits u' /\ dig_frame u u' um (um + Z.of_nat n)
    /\ val u' um (S n) = val u um (S n) / 2 ^ d.
Proof using Hh.
  intros Hu Hm Hl Hd H0. destruct (Z.ltb_spec 0 d) as [Hd0 | Hd0]; [apply unshift_spec; done || lia|].
  exists u. assert (d = 0) as -> by lia. split_and!; [done | done | apply dig_frame_refl | by rewrite Z.div_1_r].
Qed.

(** The two [long]s of a number of four digits. *)
Lemma two_longs a N : digits a -> val a 1 4 = N ->
  COMBINE h (dig a 1) (dig a 2) = N / (b * b) /\ COMBINE h (dig a 3) (dig a 4) = N mod (b * b).
Proof using Hh.
  intros Ha <-. pose proof (base_ge h Hh) as Hb.
  pose proof (dig_range h Hh a 1 Ha). pose proof (dig_range h Hh a 2 Ha). pose proof (dig_range h Hh a 3 Ha). pose proof (dig_range h Hh a 4 Ha).
  rewrite !(COMBINE_eq h Hh) by done.
  assert (val a 1 4 = (dig a 1 * b + dig a 2) * (b * b) + (dig a 3 * b + dig a 4)) as -> 
    by (rewrite !val_top2, !pow_S; change (val a (1 + 2 + 2) 0) with 0; change (1 + 2 + 1) with 4; change (1 + 2) with 3; change (1 + 1) with 2; change (b ^ Z.of_nat 0) with 1; lia).
  rewrite Z.div_add_l, Z.div_small, (Z.add_comm (_ * (b * b))), Z_mod_plus_full, Z.mod_small by nia. lia.
Qed.

(** The dividend starts with a zero: its first [n] digits are below the divisor. *)
Lemma top_small u o n m W D :
  digits u -> val u o (S n + S m) = W * D -> W < b ^ Z.of_nat (m + S n) -> 0 < D -> val u o (S n) < b ^ Z.of_nat n * D.
Proof using Hh.
  intros Hu E HW HD. pose proof (base_ge h Hh) as Hb. rewrite val_app in E. pose proof (val_range h Hh u (o + Z.of_nat (S n)) (S m) Hu).
  replace (m + S n)%nat with (n + S m)%nat in HW by lia. rewrite Nat2Z.inj_add, Z.pow_add_r in HW by lia.
  assert (0 < b ^ Z.of_nat (S m)) as HP by (apply Z.pow_pos_nonneg; lia). apply (Z.mul_lt_mono_pos_r (b ^ Z.of_nat (S m))); [done|].
  pose proof (proj1 (Z.mul_lt_mono_pos_r D _ _ HD) HW). lia.
Qed.

(** A quotient in place and the rest zero. *)
Lemma val_tail a j k : digits a -> (j + k = 5)%nat -> (forall l, 0 <= l < Z.of_nat j -> dig a l = 0) ->
  dig a 0 = 0 -> val a 1 4 = val a (Z.of_nat j) k.
Proof using.
  intros Ha Hjk Hz H0. pose proof (val_top h a 0 4) as E. rewrite H0 in E. change 5%nat with (5)%nat in E. rewrite <- Hjk in E.
  rewrite (val_zeros h a 0 j k) in E by (intros l Hl; apply Hz; lia). rewrite !Z.add_0_l in E. change (0 + 1) with 1 in E. lia.
Qed.

Definition no_lead (n : nat) (ov : Z) (v : list Z) : Prop := (forall l, 1 <= l <= ov -> dig v l = 0) /\ dig v (ov + 1) <> 0.

Lemma divisor_val n ov v : digits v -> (1 <= n)%nat -> ov = 4 - Z.of_nat n -> 0 <= ov -> no_lead n ov v ->
  val v 1 4 = val v (ov + 1) n /\ b ^ Z.of_nat (n - 1) <= val v (ov + 1) n.
Proof using Hh.
  intros Hv Hn -> Ho [Hz Hl]. split.
  - replace 4%nat with (Z.to_nat (4 - Z.of_nat n) + n)%nat at 1 by lia. rewrite val_zeros by (intros l Hl'; apply Hz; lia). f_equal. lia.
  - destruct n as [|k]; [lia|]. rewrite val_top. replace (S k - 1)%nat with k by lia. pose proof (base_ge h Hh).
    pose proof (dig_range h Hh v (4 - Z.of_nat (S k) + 1) Hv). pose proof (val_range h Hh v (4 - Z.of_nat (S k) + 1 + 1) k Hv).
    assert (0 < b ^ Z.of_nat k) by (apply Z.pow_pos_nonneg; lia). nia.
Qed.

Lemma skipped_few u v n ov (o : nat) :
  digits u -> digits v -> (1 <= n)%nat -> ov = 4 - Z.of_nat n -> 0 <= ov -> no_lead n ov v -> val v 1 4 <= val u 1 4 ->
  (o < 4)%nat -> (forall l, 0 < l <= Z.of_nat o -> dig u l = 0) -> (o + n <= 4)%nat.
Proof using Hh.
  intros Hu Hv Hn Ho Ho0 Hl HU Ho4 Hz. destruct (divisor_val n ov v Hv Hn Ho Ho0 Hl) as [EV HV]. pose proof (base_ge h Hh).
  replace (val u 1 4) with (val u 1 (o + (4 - o))) in HU by (f_equal; lia). rewrite val_zeros in HU by (intros l Hl'; apply Hz; lia).
  pose proof (val_range h Hh u (1 + Z.of_nat o) (4 - o) Hu) as Hr.
  assert (b ^ Z.of_nat (n - 1) < b ^ Z.of_nat (4 - o)) as Hp by lia. apply Z.pow_lt_mono_r_iff in Hp; lia.
Qed.

(** D1: both numbers shifted, and what long division needs of them. *)
Lemma normalise u v n ov o m d :
  digits u -> digits v -> ov = 4 - Z.of_nat (S n) -> 0 <= ov -> (o + m + S n = 4)%nat -> dig u (Z.of_nat o) = 0 ->
  0 <= d < h -> b / 2 <= dig v (ov + 1) * 2 ^ d < b ->
  exists u' v', (if 0 <? d then shl h (m + S n) u (Z.of_nat o) d else Ok u) = Ok u'
    /\ (if 0 <? d then shl h n v (ov + 1) d else Ok v) = Ok v' /\ digits u' /\ digits v'
    /\ dig_frame u u' (Z.of_nat o) 4 /\ b / 2 <= dig v' (ov + 1)
    /\ val u' (Z.of_nat o) (S n + S m) = val u (Z.of_nat o) (S n + S m) * 2 ^ d
    /\ val v' (ov + 1) (S n) = val v (ov + 1) (S n) * 2 ^ d
    /\ val u' (Z.of_nat o) (S n) < val v' (ov + 1) (S n).
Proof using Hh.
  intros Hu Hv Hov Ho Hom H0 Hd Hn. pose proof (base_ge h Hh) as Hb. pose proof (half_base h Hh) as Hb2.
  assert (0 < 2 ^ d) as Hd2 by (apply Z.pow_pos_nonneg; lia).
  destruct (maybe_shl d u (Z.of_nat o) (m + S n)) as (u' & Eu & Hu' & Fu & Evu); [done | lia | lia | lia | lia |].
  destruct (maybe_shl d v (ov + 1) n) as (v' & Ev & Hv' & Fv & Evv); [done | lia | lia | lia | lia |].
  exists u', v'. replace (S (m + S n)) with (S n + S m)%nat in Evu by lia. split_and!; try done.
  - eapply dig_frame_wide; [| |exact Fu]; lia.
  - pose proof (val_range h Hh v' (ov + 1 + 1) n Hv') as Hr. rewrite !val_top in Evv.
    pose proof (val_range h Hh v (ov + 1 + 1) n Hv) as Hr2. pose proof (dig_range h Hh v' (ov + 1) Hv').
    assert (0 < b ^ Z.of_nat n) as HP by (apply Z.pow_pos_nonneg; lia). generalize dependent (b ^ Z.of_nat n). intros P. intros.
    enough (dig v (ov + 1) * 2 ^ d <= dig v' (ov + 1)) by lia. apply Z.lt_succ_r, (Z.mul_lt_mono_pos_r P); [done|]. nia.
  - apply Z.lt_le_trans with (b ^ Z.of_nat n * 2 ^ d).
    + eapply top_small; [done | exact Evu | | done]. replace (S n + S m)%nat with (S (m + S n)) by lia. rewrite val_top, H0.
      by apply val_range.
    + rewrite Evv, val_top. pose proof (val_range h Hh v (ov + 1 + 1) n Hv). apply Z.mul_le_mono_nonneg_r; [lia|].
      assert (0 < b ^ Z.of_nat n) by (apply Z.pow_pos_nonneg; lia). assert (1 <= dig v (ov + 1)) by nia. nia.
Qed.

(** D2 to D7 and the shift back: the quotient and the remainder. *)
Lemma divide_normalised u v n ov o m d N D :
  digits u -> digits v -> (1 <= n)%nat -> ov = 4 - Z.of_nat (S n) -> (o + m + S n = 4)%nat ->
  (forall l, 0 <= l < Z.of_nat o -> dig u l = 0) -> 0 <= d < h -> b / 2 <= dig v (ov + 1) -> 0 < D ->
  val u (Z.of_nat o) (S n + S m) = N * 2 ^ d -> val v (ov + 1) (S n) = D * 2 ^ d ->
  val u (Z.of_nat o) (S n) < val v (ov + 1) (S n) ->
  exists u1 q u2, div_loop h (S m) (S n) (dig v (ov + 1)) (dig v (ov + 2)) u v (replicate 5 0) (Z.of_nat o) ov (4 - Z.of_nat m) = Ok (u1, q)
    /\ (if 0 <? d then unshift h (S n) u1 (Z.of_nat o + Z.of_nat m) d else Ok u1) = Ok u2
    /\ digits q /\ digits u2 /\ val q 1 4 = N / D /\ val u2 1 4 = N mod D.
Proof using Hh.
  intros Hu Hv Hn Hov Hom Hz Hd Hnorm HD EU EV Htop. pose proof (base_ge h Hh) as Hb. assert (0 < 2 ^ d) as Hd2 by (apply Z.pow_pos_nonneg; lia).
  assert (digits (replicate 5 0)) as Hq0 by (split; [done | repeat constructor; lia]).
  destruct (div_loop_spec (S n) v ov (S m)) with (u := u) (q := replicate 5 0) (uj := Z.of_nat o) (qj := 4 - Z.of_nat m)
    as (u1 & q & E & Hu1 & Hq & Fu & Fq & EQ & ER); [done | lia | lia | lia | done | done | done | lia | lia | lia | lia | done |].
  rewrite EU, EV, Z.div_mul_cancel_r in EQ by lia. rewrite EU, EV, Z.mul_mod_distr_r in ER by lia.
  pose proof (Z.mod_pos_bound N D HD) as HR. pose proof (val_range h Hh v (ov + 1) (S n) Hv) as [_ HDn]. rewrite EV in HDn.
  assert (N mod D * 2 ^ d < b ^ Z.of_nat (S n)) as HRn by nia. assert (N mod D < b ^ Z.of_nat (S n)) as HRn1 by nia.
  replace (S n + S m)%nat with (S m + S n)%nat in ER by lia.
  destruct (small_lead u1 (S n) (S m) (Z.of_nat o) Hu1 ltac:(lia)) as [Hz1 Ev1].
  destruct (maybe_unshift d u1 (Z.of_nat o + Z.of_nat m) (S n)) as (u2 & E2 & Hu2 & F2 & Ev2); [done | lia | lia | done | apply Hz1; lia |].
  exists u1, q, u2. split_and!; [done | done | done | done | |].
  - rewrite (val_tail q (4 - m) (S m)); [by replace (Z.of_nat (4 - m)) with (4 - Z.of_nat m) by lia | done | lia | |].
    + intros l Hl. rewrite Fq by lia. unfold dig. by destruct (Z.to_nat l) as [|[|[|[|[|[]]]]]].
    + rewrite Fq by lia. done.
  - rewrite (val_top h u1), (Hz1 (Z.of_nat o + Z.of_nat m)) in Ev2 by lia. replace (Z.of_nat o + Z.of_nat m + 1) with (Z.of_nat o + Z.of_nat (S m)) in Ev2 by lia.
    rewrite Ev1, ER, Z.mul_0_l, Z.add_0_l, Z.div_mul in Ev2 by lia.
    destruct (small_lead u2 (S n) 1 (Z.of_nat o + Z.of_nat m) Hu2) as [Hz2 _]; [change (1 + S n)%nat with (S (S n)); lia|].
    assert (forall l, 0 <= l <= Z.of_nat o + Z.of_nat m -> dig u2 l = 0) as Hz3.
    { intros l Hl. destruct (decide (l = Z.of_nat o + Z.of_nat m)) as [-> | Hne]; [apply Hz2; lia|]. rewrite F2 by lia.
      destruct (decide (l < Z.of_nat o)); [rewrite Fu by lia; apply Hz; lia | apply Hz1; lia]. }
    rewrite (val_tail u2 (o + m) (S (S n))); [by rewrite Nat2Z.inj_add | done | lia | intros l Hl; apply Hz3; lia | apply Hz3; lia].
Qed.

(** Program D divides. *)
Lemma program_D_spec u v n ov :
  digits u -> digits v -> dig u 0 = 0 -> (2 <= n)%nat -> ov = 4 - Z.of_nat n -> 0 <= ov -> no_lead n ov v ->
  val v 1 4 <= val u 1 4 ->
  let Q := val u 1 4 / val v 1 4 in let R := val u 1 4 mod val v 1 4 in
  program_D h u v (Z.of_nat n) ov = Ok (Q / (b * b), Q mod (b * b), (R / (b * b), R mod (b * b))).
Proof using Hh.
  intros Hu Hv H0 Hn Hov Ho Hl HU Q R. pose proof (base_ge h Hh) as Hb. destruct n as [|n]; [lia|].
  destruct (divisor_val (S n) ov v Hv ltac:(lia) Hov Ho Hl) as [EV HV]. replace (S n - 1)%nat with n in HV by lia.
  assert (0 < b ^ Z.of_nat n) as HP by (apply Z.pow_pos_nonneg; lia).
  unfold program_D. destruct (skip_u_spec u 4 (4 - Z.of_nat (S n)) 0) as (o & -> & Ho4 & Hz & _); [done | lia | lia | change (0 + 1) with 1; lia |].
  pose proof (skipped_few u v (S n) ov o Hu Hv ltac:(lia) Hov Ho Hl HU Ho4 Hz) as Hom. cbn [mbind res_bind]. digit.
  set (m := (4 - S n - o)%nat). replace (4 - Z.of_nat (S n) - Z.of_nat o) with (Z.of_nat m) by lia. rewrite !Z.add_0_l.
  pose proof (dig_range h Hh v (ov + 1) Hv) as Hv1. destruct Hl as [_ Hl].
  destruct (norm_shift_spec (Z.to_nat h) (dig v (ov + 1)) 0) as (d & -> & Hd & Hnorm); [lia | rewrite Z2Nat.id by lia; pose proof (half_base h Hh); nia |].
  cbn [mbind res_bind]. rewrite Z.add_0_l. assert (d < h) as Hdh by (apply (Z.pow_lt_mono_r_iff 2); [lia | lia | nia]).
  assert (dig u (Z.of_nat o) = 0) as Huo by (destruct o; [done | apply Hz; lia]).
  destruct (normalise u v n ov o m d) as (u1 & v1 & Eu & Ev & Hu1 & Hv1' & Fu & Hn1 & EU1 & EV1 & Htop); [done | done | lia | lia | lia | done | lia | lia |].
  replace (Z.to_nat (Z.of_nat m + Z.of_nat (S n))) with (m + S n)%nat by lia. replace (Z.to_nat (Z.of_nat (S n) - 1)) with n by lia.
  rewrite Eu, Ev. cbn [mbind res_bind]. do 2 digit. replace (Z.to_nat (Z.of_nat m + 1)) with (S m) by lia. rewrite Nat2Z.id.
  destruct (divide_normalised u1 v1 n ov o m d (val u 1 4) (val v 1 4)) as (u2 & q & u3 & -> & E3 & Hq & Hu3 & EQ & ER);
    [done | done | lia | done | lia | | lia | done | lia | rewrite EU1; f_equal | by rewrite EV1, EV | done |].
  - intros l Hl'. rewrite Fu by lia. destruct (decide (l = 0)) as [-> | Hne]; [done | apply Hz; lia].
  - symmetry. apply val_tail; [done | lia | intros l Hl' | done]. destruct (decide (l = 0)) as [-> | Hne]; [done | apply Hz; lia].
  - cbn [mbind res_bind]. rewrite E3. cbn [mbind res_bind]. do 8 digit.
    destruct (two_longs q Q Hq EQ) as [-> ->]. by destruct (two_longs u3 R Hu3 ER) as [-> ->].
Qed.

(** The number in the union: the word [stale] and the number itself. *)
Definition word_digits (g x : Z) : list Z := [0; HHALF h g; LHALF h g; HHALF h x; LHALF h x].

Lemma word_halves x : 0 <= x < b * b -> 0 <= HHALF h x < b /\ 0 <= LHALF h x < b /\ HHALF h x * b + LHALF h x = x.
Proof using Hh.
  intros Hx. pose proof (base_ge h Hh) as Hb. destruct (digit_carry x Hx) as [E Hl]. split_and!; [| | lia | lia | lia].
  - rewrite (HHALF_eq h Hh). apply Z.div_pos; lia.
  - rewrite (HHALF_eq h Hh). apply Z.div_lt_upper_bound; lia.
Qed.

Lemma word_digits_ok g x : 0 <= g < b * b -> 0 <= x < b * b ->
  digits (word_digits g x) /\ val (word_digits g x) 1 4 = g * (b * b) + x.
Proof using Hh.
  intros Hg Hx. destruct (word_halves g Hg) as (H1 & H2 & E1). destruct (word_halves x Hx) as (H3 & H4 & E2). split.
  - split; [done|]. repeat constructor; lia.
  - rewrite !val_top2, !pow_S. change (val _ (1 + 2 + 2) 0) with 0. change (b ^ Z.of_nat 0) with 1.
    change (dig (word_digits g x) 1) with (HHALF h g). change (dig _ (1 + 1)) with (LHALF h g).
    change (dig _ (1 + 2)) with (HHALF h x). change (dig _ (1 + 2 + 1)) with (LHALF h x). rewrite E1, E2. lia.
Qed.

(** One digit of the division by a single digit. *)
Lemma short_step t N x : 0 < t < b -> 0 <= x < b ->
  let r := COMBINE h (N mod t) x in
  (N * b + x) / t = N / t * b + r / t /\ (N * b + x) mod t = r mod t /\ 0 <= r / t < b.
Proof using Hh.
  intros Ht Hx. pose proof (Z.mod_pos_bound N t ltac:(lia)) as Hm. cbn zeta. rewrite (COMBINE_eq h Hh) by lia.
  pose proof (Z.div_mod N t ltac:(lia)) as Ed.
  assert (N * b = (t * (N / t) + N mod t) * b) as Eb by (by rewrite <- Ed).
  replace (N * b + x) with (N / t * b * t + (N mod t * b + x)) by lia.
  rewrite Z.div_add_l, Z.add_comm, (Z.add_comm (_ * t)), Z_mod_plus_full by lia. split_and!; [lia | done | |].
  - apply Z.div_pos; nia.
  - apply Z.div_lt_upper_bound; nia.
Qed.

Lemma short_division_spec u t : digits u -> 0 < t < b ->
  let Q := val u 1 4 / t in short_division h u t = Ok (Q / (b * b), Q mod (b * b), val u 1 4 mod t).
Proof using Hh.
  intros Hu Ht. pose proof (base_ge h Hh) as Hb. unfold short_division. do 4 digit. cbn zeta.
  pose proof (dig_range h Hh u 1 Hu) as H1. pose proof (dig_range h Hh u 2 Hu) as H2.
  pose proof (dig_range h Hh u 3 Hu) as H3. pose proof (dig_range h Hh u 4 Hu) as H4.
  assert (val u 1 4 = ((dig u 1 * b + dig u 2) * b + dig u 3) * b + dig u 4) as ->
    by (rewrite val_top3, val_top, pow_S; change (b ^ Z.of_nat 0) with 1; change (1 + 1) with 2; change (1 + 2) with 3; change (1 + 3) with 4; cbn; lia).
  assert (0 <= dig u 1 / t < b) as Hq1 by (split; [apply Z.div_pos | apply Z.div_lt_upper_bound]; nia).
  destruct (short_step t (dig u 1) (dig u 2) Ht H2) as (E2 & M2 & Hq2). set (N2 := dig u 1 * b + dig u 2) in *. rewrite <- M2.
  destruct (short_step t N2 (dig u 3) Ht H3) as (E3 & M3 & Hq3). set (N3 := N2 * b + dig u 3) in *. rewrite <- M3.
  destruct (short_step t N3 (dig u 4) Ht H4) as (E4 & M4 & Hq4). set (N4 := N3 * b + dig u 4) in *. rewrite <- M4.
  rewrite !(COMBINE_eq h Hh) by done. rewrite E4, E3, E2. set (q1 := dig u 1 / t) in *. set (q2 := COMBINE h (dig u 1 mod t) _ / t) in *.
  set (q3 := COMBINE h (N2 mod t) _ / t) in *. set (q4 := COMBINE h (N3 mod t) _ / t) in *.
  replace ((((q1 * b + q2) * b) + q3) * b + q4) with ((q1 * b + q2) * (b * b) + (q3 * b + q4)) by lia.
  assert (0 <= q3 * b + q4 < b * b) as Hlow by (clear - Hb Hq3 Hq4; nia). assert (b * b <> 0) as Hbb by (clear - Hb; nia).
  rewrite Z.div_add_l, (Z.div_small (q3 * b + q4)), Z.add_0_r, (Z.add_comm (_ * (b * b))), Z_mod_plus_full, (Z.mod_small (q3 * b + q4)) by done.
  by rewrite (COMBINE_eq h Hh q3 q4).
Qed.

(** The number of digits of a divisor. *)
Lemma skip_v_spec g x : 0 <= g < b * b -> 0 < x < b * b ->
  (skip_v 4 (word_digits g x) 4 0 = Ok (1, 2) /\ val (word_digits g x) 1 4 = dig (word_digits g x) 4)
  \/ exists n ov, skip_v 4 (word_digits g x) 4 0 = Ok (Z.of_nat n, ov) /\ (2 <= n)%nat /\ ov = 4 - Z.of_nat n /\ 0 <= ov /\ no_lead n ov (word_digits g x).
Proof using Hh.
  intros Hg Hx. destruct (word_digits_ok g x Hg ltac:(lia)) as [Hd Hv]. set (v := word_digits g x) in *.
  assert (skip_v 4 v 4 0 = if dig v 1 =? 0 then if dig v 2 =? 0 then if dig v 3 =? 0 then Ok (1, 2) else Ok (2, 2) else Ok (3, 1) else Ok (4, 0)) as ->.
  { cbn [skip_v]. rewrite !(elem_dig h) by (done || lia). cbn [mbind res_bind].
    change (0 + 1) with 1. change (1 + 1) with 2. change (2 + 1) with 3.
    destruct (dig v 1 =? 0); [|done]. destruct (dig v 2 =? 0); [|done]. by destruct (dig v 3 =? 0). }
  destruct (Z.eqb_spec (dig v 1) 0) as [E1 | E1].
  2:{ right. exists 4%nat, 0. do 4 (split; [done || lia|]). split; [intros; lia | done]. }
  destruct (Z.eqb_spec (dig v 2) 0) as [E2 | E2].
  2:{ right. exists 3%nat, 1. do 4 (split; [done || lia|]). split; [intros l Hl; by assert (l = 1) as -> by lia | done]. }
  destruct (Z.eqb_spec (dig v 3) 0) as [E3 | E3].
  2:{ right. exists 2%nat, 2. do 4 (split; [done || lia|]). split; [|done].
      intros l Hl. destruct (decide (l = 1)) as [-> | Hne]; [done|]. by assert (l = 2) as -> by lia. }
  left. split; [done|]. rewrite val_top3, val_top, E1. change (1 + 1) with 2. change (1 + 2) with 3. change (1 + 3) with 4.
  rewrite E2, E3. change (b ^ Z.of_nat 0) with 1. change (val v (4 + 1) 0) with 0. lia.
Qed.

(** What the code computes: the two numbers have the word [g] of the union above them. *)
Lemma qdivrem_value g uq vq : 0 <= g < b * b -> 0 <= uq < b * b -> 0 < vq < b * b ->
  let N := g * (b * b) + uq in let D := g * (b * b) + vq in
  __qdivrem h g uq vq = if uq <? vq then Ok (0, uq) else Ok ((N / D) mod (b * b), (N mod D) mod (b * b)).
Proof using Hh.
  intros Hg Hu Hv N D. pose proof (base_ge h Hh) as Hb. unfold __qdivrem. rewrite (proj2 (Z.eqb_neq vq 0)) by lia.
  destruct (Z.ltb_spec uq vq) as [Hlt | Hge]; [done|]. fold (word_digits g uq) (word_digits g vq).
  destruct (word_digits_ok g uq Hg Hu) as [HuD EU]. destruct (word_digits_ok g vq Hg ltac:(lia)) as [HvD EV]. fold N in EU. fold D in EV.
  destruct (skip_v_spec g vq Hg Hv) as [[-> E] | (n & ov & -> & Hn & Hov & Ho & Hl)]; cbn [mbind res_bind].
  - rewrite E in EV. change (1 =? 1) with true. cbn iota. digit. change (2 + 2) with 4. rewrite EV.
    pose proof (dig_range h Hh (word_digits g vq) 4 HvD) as Hd. rewrite EV in Hd. assert (0 < D) by (subst D; nia).
    rewrite short_division_spec, EU by (done || lia). cbn [mbind res_bind]. do 2 f_equal.
    symmetry. apply Z.mod_small. pose proof (Z.mod_pos_bound N D). nia.
  - rewrite (proj2 (Z.eqb_neq (Z.of_nat n) 1)) by lia. rewrite program_D_spec by (done || lia). cbn [mbind res_bind]. by rewrite EU, EV.
Qed.
End Loops.

(** C39: division by repeated digits (Knuth's Program D, with normalisation, the estimate of
    each digit and its correction) is division: when the second word of the union is zero, for
    every dividend and every divisor but zero [__qdivrem] returns the quotient and the
    remainder, on every path (dividend below the divisor, divisor of one digit, divisor of two).
    A word left in the union is taken as the upper half of both numbers, and the result is then
    1 and the difference, whatever the numbers are.  Division by zero traps. *)
Theorem qdivrem_spec h g uq vq : 0 < h -> 0 <= g < 2 ^ (2 * h) -> 0 <= uq < 2 ^ (2 * h) -> 0 <= vq < 2 ^ (2 * h) ->
  __qdivrem h g uq vq =
    if vq =? 0 then Bug CRASH_EXIT
    else if g =? 0 then Ok (uq / vq, uq mod vq)
    else if uq <? vq then Ok (0, uq) else Ok (1, uq - vq).
Proof.
  intros Hh Hg Hu Hv. destruct (Z.eqb_spec vq 0) as [-> | Hv0]; [done|]. pose proof (base_ge h Hh) as Hb.
  replace (2 ^ (2 * h)) with (2 ^ h * 2 ^ h) in * by (rewrite <- Z.pow_add_r by lia; f_equal; lia).
  rewrite (qdivrem_value h Hh) by lia. destruct (Z.eqb_spec g 0) as [-> | Hg0].
  - rewrite Z.mul_0_l, !Z.add_0_l. destruct (Z.ltb_spec uq vq); [by rewrite Z.div_small, Z.mod_small by lia|].
    pose proof (Z.mod_pos_bound uq vq ltac:(lia)). rewrite (Z.mod_small (uq mod vq)) by lia.
    rewrite Z.mod_small; [done|]. split; [apply Z.div_pos | apply Z.div_lt_upper_bound]; nia.
  - destruct (Z.ltb_spec uq vq) as [Hlt | Hge]; [done|]. set (L := 2 ^ h * 2 ^ h) in *.
    assert (L <= g * L) by nia. replace (g * L + uq) with (1 * (g * L + vq) + (uq - vq)) by lia.
    rewrite Z.div_add_l, (Z.add_comm (1 * _)), Z_mod_plus_full, Z.div_small by lia.
    rewrite (Z.mod_small (uq - vq) (g * L + vq)), (Z.mod_small (uq - vq)), Z.mod_small by lia. done.
Qed.

Lemma qdivrem_spec_witness : __qdivrem 32 0 (2 ^ 63 + 12345) (2 ^ 40 + 7) = Ok ((2 ^ 63 + 12345) / (2 ^ 40 + 7), (2 ^ 63 + 12345) mod (2 ^ 40 + 7)).
Proof. apply (qdivrem_spec 32 0 (2 ^ 63 + 12345) (2 ^ 40 + 7)); lia. Defined.

(** The word on the stack decides the result on a 64-bit machine. *)
Lemma qdivrem_stale_word : __qdivrem 32 1 10 5 = Ok (1, 5).
Proof. by vm_compute. Qed.

(** Signed division rounds towards zero; the one quotient out of range wraps. *)
Lemma divdi3_quot h a b : 0 < h -> - 2 ^ (2 * h - 1) <= a < 2 ^ (2 * h - 1) -> - 2 ^ (2 * h - 1) <= b < 2 ^ (2 * h - 1) -> b <> 0 ->
  __divdi3 h 0 a b = Ok (sgn (2 * h) (Z.quot a b)).
Proof.
  intros Hh Ha Hb Hb0. assert (2 ^ (2 * h) = 2 * 2 ^ (2 * h - 1)) as E by (rewrite <- Z.pow_succ_r by lia; f_equal; lia).
  assert (forall x, - 2 ^ (2 * h - 1) <= x < 2 ^ (2 * h - 1) -> (if x <? 0 then long h (- long h x) else x) = Z.abs x) as Eabs.
  { intros x Hx. destruct (Z.ltb_spec x 0); [|lia]. unfold long.
    replace (wrap (2 * h) x) with (x + 2 ^ (2 * h)) by (unfold wrap; apply Z.mod_unique with (-1); lia).
    unfold wrap. symmetry. apply Z.mod_unique with (-1); lia. }
  unfold __divdi3. rewrite !Eabs, qdivrem_spec by lia. rewrite (proj2 (Z.eqb_neq (Z.abs b) 0)) by lia.
  change (0 =? 0) with true. cbn [mbind res_bind]. do 2 f_equal. rewrite <- Z.quot_div_nonneg by lia.
  destruct (Z.ltb_spec a 0), (Z.ltb_spec b 0); cbn [xorb]; rewrite ?(Z.abs_neq a), ?(Z.abs_neq b), ?(Z.abs_eq a), ?(Z.abs_eq b) by lia.
  - by rewrite Z.quot_opp_opp.
  - rewrite Z.quot_opp_l by lia. lia.
  - rewrite Z.quot_opp_r by lia. lia.
  - done.
Qed.

Lemma udivdi3_umoddi3 h a b : 0 < h -> 0 <= a < 2 ^ (2 * h) -> 0 < b < 2 ^ (2 * h) ->
  __udivdi3 h 0 a b = Ok (a / b) /\ __umoddi3 h 0 a b = Ok (a mod b).
Proof.
  intros Hh Ha Hb. unfold __udivdi3, __umoddi3. rewrite qdivrem_spec by lia. by rewrite (proj2 (Z.eqb_neq b 0)) by lia.
Qed.
