(* ===== verification/ListHead.v ===== *)
(** Intrusive doubly linked lists ([include/list.h]).

    A [struct list_head] is a pair of addresses in a heap of nodes.  The
    operations are the pointer updates of the header, in its order; [dlist]
    reads a circular chain as the sequence of its entries, and the lemmas show
    that the pointer updates are the expected operations on sequences and leave
    every other list alone. *)

From S2P Require Import Prelude.

Record list_head := ListHead { next : Z; prev : Z }.

Abbreviation lheap := (gmap Z list_head).

Definition get_next (h : lheap) (p : Z) : res Z := n ← access (h !! p); Ok (next n).
Definition get_prev (h : lheap) (p : Z) : res Z := n ← access (h !! p); Ok (prev n).

Definition set_next (h : lheap) (p v : Z) : res lheap :=
  n ← access (h !! p); Ok (<[p := ListHead v (prev n)]> h).
Definition set_prev (h : lheap) (p v : Z) : res lheap :=
  n ← access (h !! p); Ok (<[p := ListHead (next n) v]> h).

Definition INIT_LIST_HEAD (h : lheap) (ptr : Z) : res lheap :=
  h ← set_next h ptr ptr;
  set_prev h ptr ptr.

Definition __list_add (h : lheap) (new prev next : Z) : res lheap :=
  h ← set_prev h next new;
  h ← set_next h new next;
  h ← set_prev h new prev;
  set_next h prev new.

Definition list_add (h : lheap) (new head : Z) : res lheap :=
  n ← get_next h head;
  h ← __list_add h new head n;
  n ← get_next h new;
  _ ← bug_on (n =? new);
  Ok h.

Definition list_add_tail (h : lheap) (new head : Z) : res lheap :=
  p ← get_prev h head;
  h ← __list_add h new p head;
  n ← get_next h new;
  _ ← bug_on (n =? new);
  Ok h.

Definition __list_del (h : lheap) (prev next : Z) : res lheap :=
  h ← set_prev h next prev;
  set_next h prev next.

Definition list_del (h : lheap) (entry : Z) : res lheap :=
  p ← get_prev h entry;
  n ← get_next h entry;
  __list_del h p n.

Definition list_del_init (h : lheap) (entry : Z) : res lheap :=
  h ← list_del h entry;
  INIT_LIST_HEAD h entry.

Definition list_empty (h : lheap) (head : Z) : res bool :=
  n ← get_next h head; Ok (n =? head).

Definition list_splice (h : lheap) (list head : Z) : res lheap :=
  first ← get_next h list;
  if first =? list then Ok h else
    last ← get_prev h list;
    at_ ← get_next h head;
    h ← set_prev h first head;
    h ← set_next h head first;
    h ← set_next h last at_;
    set_prev h at_ last.

(** [list_for_each(pos, head) body]; [body] returns the new state. *)
Fixpoint list_for_each_from {S} (fuel : nat) (h : lheap) (pos head : Z)
    (body : Z -> S -> res S) (s : S) : res S :=
  if pos =? head then Ok s else
  match fuel with
  | O => Fuel
  | S fuel =>
      s ← body pos s;
      n ← get_next h pos;
      list_for_each_from fuel h n head body s
  end.

Definition list_for_each {S} (fuel : nat) (h : lheap) (head : Z)
    (body : Z -> S -> res S) (s : S) : res S :=
  n ← get_next h head;
  list_for_each_from fuel h n head body s.

(** [list_for_each_safe(pos, n, head) body]: the body may change the links, the
    successor is read before it runs. *)
Fixpoint list_for_each_safe_from (fuel : nat) (h : lheap) (pos n head : Z)
    (body : Z -> lheap -> res lheap) : res lheap :=
  if pos =? head then Ok h else
  match fuel with
  | O => Fuel
  | S fuel =>
      h ← body pos h;
      n' ← get_next h n;
      list_for_each_safe_from fuel h n n' head body
  end.

Definition list_for_each_safe (fuel : nat) (h : lheap) (head : Z)
    (body : Z -> lheap -> res lheap) : res lheap :=
  pos ← get_next h head;
  n ← get_next h pos;
  list_for_each_safe_from fuel h pos n head body.

(** ** Circular chains as sequences *)

Definition link (h : lheap) (a b : Z) : Prop :=
  next <$> h !! a = Some b /\ prev <$> h !! b = Some a.

(** [seg h a m b]: the chain from [a] through the entries [m] to [b]. *)
Fixpoint seg (h : lheap) (a : Z) (m : list Z) (b : Z) : Prop :=
  match m with
  | [] => link h a b
  | x :: m => link h a x /\ seg h x m b
  end.

Definition dlist (h : lheap) (head : Z) (l : list Z) : Prop :=
  NoDup (head :: l) /\ seg h head l head.

Lemma seg_app h a m1 x m2 b : seg h a (m1 ++ x :: m2) b <-> seg h a m1 x /\ seg h x m2 b.
Proof. revert a. induction m1 as [|y m1 IH]; intros a; simpl; [done|]. rewrite IH. tauto. Qed.

Lemma seg_frame h h' a m b :
  seg h a m b ->
  (forall x, x ∈ a :: m -> next <$> h' !! x = next <$> h !! x) ->
  (forall x, x ∈ m ++ [b] -> prev <$> h' !! x = prev <$> h !! x) ->
  seg h' a m b.
Proof.
  revert a. induction m as [|y m IH]; intros a; simpl.
  - intros [H1 H2] Hn Hp. split; [rewrite Hn by set_solver|rewrite Hp by set_solver]; done.
  - intros [[H1 H2] Hs] Hn Hp. split.
    + split; [rewrite Hn by set_solver|rewrite Hp by set_solver]; done.
    + apply IH; [done|set_solver..].
Qed.

(** The node after [l1] in the chain and the node before [l2]. *)
Definition after (head : Z) (l2 : list Z) : Z := default head (hd_error l2).
Definition before (head : Z) (l1 : list Z) : Z := default head (last l1).

Lemma seg_at h head l1 l2 :
  seg h head (l1 ++ l2) head ->
  link h (before head l1) (after head l2) /\
  match l2 with [] => True | y :: l2' => seg h y l2' head end /\
  (l1 = [] \/ exists l1' x, l1 = l1' ++ [x] /\ seg h head l1' x).
Proof.
  intros Hs. destruct l1 as [|x l1' _] using rev_ind.
  - destruct l2; simpl in *; naive_solver.
  - unfold before. rewrite last_snoc. rewrite <- app_assoc in Hs. simpl in Hs.
    apply seg_app in Hs as [Hs1 Hs2].
    destruct l2 as [|y l2']; simpl in *; (split_and!; [tauto..|]); right; eauto.
Qed.

Lemma seg_join h head l1 l2 m :
  seg h (before head l1) m (after head l2) ->
  match l2 with [] => True | y :: l2' => seg h y l2' head end ->
  (l1 = [] \/ exists l1' x, l1 = l1' ++ [x] /\ seg h head l1' x) ->
  seg h head (l1 ++ m ++ l2) head.
Proof.
  intros Hm H2 H1.
  assert (seg h (before head l1) (m ++ l2) head) as Hr.
  { destruct l2 as [|y l2']; simpl in *; [by rewrite app_nil_r|]. apply seg_app; done. }
  destruct H1 as [->|(l1' & x & -> & Hs1)]; [done|].
  unfold before in Hr. rewrite last_snoc in Hr. rewrite <- app_assoc. apply seg_app; done.
Qed.

Lemma before_in head l1 : before head l1 ∈ head :: l1.
Proof.
  unfold before. destruct l1 as [|x l1' _] using rev_ind; [set_solver|].
  rewrite last_snoc. simpl. set_solver.
Qed.

Lemma after_in head l2 : after head l2 ∈ head :: l2.
Proof. unfold after. destruct l2; simpl; set_solver. Qed.

(** ** Specifications of the pointer updates *)

Lemma get_next_ok h p v : get_next h p = Ok v <-> next <$> h !! p = Some v.
Proof. unfold get_next. destruct (h !! p); simpl; naive_solver. Qed.

Lemma get_prev_ok h p v : get_prev h p = Ok v <-> prev <$> h !! p = Some v.
Proof. unfold get_prev. destruct (h !! p); simpl; naive_solver. Qed.

Lemma set_next_ok h p v :
  is_Some (h !! p) -> exists h', set_next h p v = Ok h' /\
    (forall x, is_Some (h' !! x) <-> is_Some (h !! x)) /\
    (forall x, next <$> h' !! x = if decide (x = p) then Some v else next <$> h !! x) /\
    (forall x, prev <$> h' !! x = prev <$> h !! x).
Proof.
  intros [n Hn]. unfold set_next. rewrite Hn. simpl. eexists. split; [done|].
  split_and!; intros x; destruct (decide (x = p)) as [->|]; simplify_map_eq;
    rewrite ?Hn; naive_solver.
Qed.

Lemma set_prev_ok h p v :
  is_Some (h !! p) -> exists h', set_prev h p v = Ok h' /\
    (forall x, is_Some (h' !! x) <-> is_Some (h !! x)) /\
    (forall x, next <$> h' !! x = next <$> h !! x) /\
    (forall x, prev <$> h' !! x = if decide (x = p) then Some v else prev <$> h !! x).
Proof.
  intros [n Hn]. unfold set_prev. rewrite Hn. simpl. eexists. split; [done|].
  split_and!; intros x; destruct (decide (x = p)) as [->|]; simplify_map_eq;
    rewrite ?Hn; naive_solver.
Qed.

(** Insertion between two linked nodes. *)
Lemma __list_add_ok h new p q :
  link h p q -> is_Some (h !! new) -> new <> p -> new <> q ->
  exists h', __list_add h new p q = Ok h' /\
    (forall x, is_Some (h' !! x) <-> is_Some (h !! x)) /\
    link h' p new /\ link h' new q /\
    (forall x, x <> p -> x <> new -> next <$> h' !! x = next <$> h !! x) /\
    (forall x, x <> q -> x <> new -> prev <$> h' !! x = prev <$> h !! x).
Proof.
  intros [Hpq Hqp] Hnew Hp Hq. unfold __list_add.
  assert (is_Some (h !! p)) as Hip by (destruct (h !! p); [done|discriminate]).
  assert (is_Some (h !! q)) as Hiq by (destruct (h !! q); [done|discriminate]).
  destruct (set_prev_ok h q new Hiq) as (h1 & -> & Hd1 & Hn1 & Hp1). simpl.
  destruct (set_next_ok h1 new q) as (h2 & -> & Hd2 & Hn2 & Hp2); [by apply Hd1|]. simpl.
  destruct (set_prev_ok h2 new p) as (h3 & -> & Hd3 & Hn3 & Hp3); [by apply Hd2, Hd1|]. simpl.
  destruct (set_next_ok h3 p new) as (h4 & -> & Hd4 & Hn4 & Hp4); [by apply Hd3, Hd2, Hd1|].
  exists h4. split; [done|]. split; [intros x; by rewrite Hd4, Hd3, Hd2, Hd1|].
  unfold link. split_and!; intros;
    rewrite ?Hn4, ?Hp4, ?Hn3, ?Hp3, ?Hn2, ?Hp2, ?Hn1, ?Hp1;
    repeat case_decide; try congruence; done.
Qed.

(** Removal of the node between two others. *)
Lemma __list_del_ok h p q :
  is_Some (h !! p) -> is_Some (h !! q) ->
  exists h', __list_del h p q = Ok h' /\
    (forall x, is_Some (h' !! x) <-> is_Some (h !! x)) /\
    link h' p q /\
    (forall x, x <> p -> next <$> h' !! x = next <$> h !! x) /\
    (forall x, x <> q -> prev <$> h' !! x = prev <$> h !! x).
Proof.
  intros Hip Hiq. unfold __list_del.
  destruct (set_prev_ok h q p Hiq) as (h1 & -> & Hd1 & Hn1 & Hp1). simpl.
  destruct (set_next_ok h1 p q) as (h2 & -> & Hd2 & Hn2 & Hp2); [by apply Hd1|].
  exists h2. split; [done|]. split; [intros x; by rewrite Hd2, Hd1|].
  unfold link. split_and!; intros; rewrite ?Hn2, ?Hp2, ?Hn1, ?Hp1;
    repeat case_decide; try congruence; done.
Qed.

(** Another list survives changes that touch only nodes outside it. *)
Definition untouched (h h' : lheap) (xs : list Z) : Prop :=
  forall x, x ∉ xs -> h' !! x = h !! x.

Lemma node_ext (n1 n2 : option list_head) :
  next <$> n1 = next <$> n2 -> prev <$> n1 = prev <$> n2 -> n1 = n2.
Proof. destruct n1 as [[]|], n2 as [[]|]; naive_solver. Qed.

Lemma dlist_untouched h h' xs head l :
  untouched h h' xs -> dlist h head l -> head :: l ## xs -> dlist h' head l.
Proof.
  intros Hu [Hnd Hs] Hdis. split; [done|].
  apply (seg_frame h); [done| |]; intros x Hx; rewrite Hu; try done; set_solver.
Qed.

Lemma dlist_dom h head l x : dlist h head l -> x ∈ head :: l -> is_Some (h !! x).
Proof.
  intros [_ Hs] Hx.
  assert (exists b, next <$> h !! x = Some b) as [b Hb].
  { revert Hs Hx. generalize head at 1 3. induction l as [|y l IH]; intros a; simpl.
    - intros [H _] Hx. exists head. by replace x with a by set_solver.
    - intros [[H _] Hs] [->|Hx]%elem_of_cons; [eauto|]. by apply (IH y). }
  destruct (h !! x); [done|discriminate].
Qed.

(** The shared core of [list_add] and [list_add_tail]: inserting at a point of
    the chain. *)
Lemma dlist_insert h head l1 l2 new :
  dlist h head (l1 ++ l2) -> is_Some (h !! new) -> new ∉ head :: l1 ++ l2 ->
  exists h', __list_add h new (before head l1) (after head l2) = Ok h' /\
    dlist h' head (l1 ++ new :: l2) /\ next <$> h' !! new = Some (after head l2) /\
    new <> after head l2 /\ untouched h h' (new :: head :: l1 ++ l2).
Proof.
  intros [Hnd Hs] Hnew Hni. pose proof (before_in head l1) as Hb. pose proof (after_in head l2) as Ha.
  destruct (seg_at _ _ _ _ Hs) as (Hl & H2 & H1).
  assert (new <> before head l1) by (intros Heq; rewrite <- Heq in Hb; set_solver).
  assert (new <> after head l2) by (intros Heq; rewrite <- Heq in Ha; set_solver).
  destruct (__list_add_ok h new (before head l1) (after head l2)) as (h' & -> & Hd & Hl1 & Hl2 & Hn & Hp); [done..|].
  exists h'. split; [done|]. split; [split|split; [apply Hl2|split; [done|]]].
  - assert (head :: l1 ++ new :: l2 ≡ₚ new :: head :: l1 ++ l2) as -> by solve_Permutation.
    by constructor.
  - change (new :: l2) with ([new] ++ l2). apply NoDup_cons in Hnd as [Hh Hnd].
    apply NoDup_app in Hnd as (Hnd1 & Hdis & Hnd2).
    assert (forall x, x ∈ head :: l1 -> x ∉ l2) as Hx1 by (clear - Hh Hdis; set_solver).
    assert (forall x, x ∈ head :: l2 -> x ∉ l1) as Hx2 by (clear - Hh Hdis; set_solver).
    assert (new ∉ l1 /\ new ∉ l2 /\ new <> head) as (Hn1 & Hn2 & Hn3) by (clear - Hni; set_solver).
    apply seg_join; [done| |].
    + destruct l2 as [|y l2']; [done|]. simpl in *. apply NoDup_cons in Hnd2 as [Hy _].
      apply (seg_frame h); [done| |]; intros x Hx; [apply Hn|apply Hp]; intros ->.
      * by apply (Hx1 _ Hb).
      * done.
      * clear - Hx Hh Hy. set_solver.
      * clear - Hx Hn2 Hn3. set_solver.
    + destruct H1 as [->|(l1' & z & -> & H1)]; [by left|]. right. exists l1', z. split; [done|].
      unfold before in *. rewrite last_snoc in *. simpl in *. apply NoDup_app in Hnd1 as (_ & Hz & _).
      apply (seg_frame h); [done| |]; intros x Hx; [apply Hn|apply Hp]; intros ->.
      * clear - Hx Hh Hz. set_solver.
      * clear - Hx Hn1 Hn3. set_solver.
      * by apply (Hx2 _ Ha).
      * done.
  - intros x Hx. apply node_ext; [apply Hn|apply Hp]; intros ->; clear - Hx Ha Hb; set_solver.
Qed.

Lemma dlist_remove h head l1 e l2 :
  dlist h head (l1 ++ e :: l2) ->
  exists h', list_del h e = Ok h' /\ dlist h' head (l1 ++ l2) /\
    untouched h h' (head :: l1 ++ l2) /\ (forall x, is_Some (h' !! x) <-> is_Some (h !! x)).
Proof.
  intros Hd. pose proof Hd as [Hnd Hs].
  pose proof (before_in head l1) as Hb. pose proof (after_in head l2) as Ha.
  assert (is_Some (h !! before head l1)) as Hib by (eapply dlist_dom; [exact Hd|clear - Hb; set_solver]).
  assert (is_Some (h !! after head l2)) as Hia by (eapply dlist_dom; [exact Hd|clear - Ha; set_solver]).
  destruct (seg_at _ _ _ _ Hs) as ([_ Hpe] & H2 & H1). simpl in Hpe, H2.
  change (e :: l2) with ([e] ++ l2) in Hs. rewrite app_assoc in Hs.
  destruct (seg_at _ _ _ _ Hs) as ([Hne _] & H2' & _).
  unfold before in Hne. rewrite last_snoc in Hne. simpl in Hne.
  destruct (__list_del_ok h (before head l1) (after head l2)) as (h' & Heq & Hdom & Hl & Hn & Hp); [done..|].
  change (after head (e :: l2)) with e in Hpe.
  unfold list_del. apply get_prev_ok in Hpe. apply get_next_ok in Hne. rewrite Hpe. cbn [mbind res_bind].
  rewrite Hne. cbn [mbind res_bind]. exists h'. split; [done|].
  assert (head :: l1 ++ e :: l2 ≡ₚ e :: head :: l1 ++ l2) as Hperm by solve_Permutation.
  rewrite Hperm in Hnd. apply NoDup_cons in Hnd as [He Hnd]. split; [split; [done|]|split; [|done]].
  - apply NoDup_cons in Hnd as [Hh Hnd]. apply NoDup_app in Hnd as (Hnd1 & Hdis & Hnd2).
    assert (forall x, x ∈ head :: l1 -> x ∉ l2) as Hx1 by (clear - Hh Hdis; set_solver).
    assert (forall x, x ∈ head :: l2 -> x ∉ l1) as Hx2 by (clear - Hh Hdis; set_solver).
    apply (seg_join _ _ _ _ []); [done| |].
    + destruct l2 as [|y l2']; [done|]. simpl in *. apply NoDup_cons in Hnd2 as [Hy _].
      apply (seg_frame h); [apply H2'| |]; intros x Hx; [apply Hn|apply Hp]; intros ->.
      * by apply (Hx1 _ Hb).
      * clear - Hx Hh Hy. set_solver.
    + destruct H1 as [->|(l1' & z & -> & H1)]; [by left|]. right. exists l1', z. split; [done|].
      unfold before in *. rewrite last_snoc in *. simpl in *. apply NoDup_app in Hnd1 as (_ & Hz & _).
      apply (seg_frame h); [done| |]; intros x Hx; [apply Hn|apply Hp]; intros ->.
      * clear - Hx Hh Hz. set_solver.
      * by apply (Hx2 _ Ha).
  - intros x Hx. apply node_ext; [apply Hn|apply Hp]; intros ->; clear - Hx Ha Hb; set_solver.
Qed.

Lemma dlist_next h head l1 l2 : dlist h head (l1 ++ l2) -> get_next h (before head l1) = Ok (after head l2).
Proof. intros [_ Hs]. apply get_next_ok. by destruct (seg_at _ _ _ _ Hs) as ([? _] & _). Qed.

Lemma dlist_prev h head l1 l2 : dlist h head (l1 ++ l2) -> get_prev h (after head l2) = Ok (before head l1).
Proof. intros [_ Hs]. apply get_prev_ok. by destruct (seg_at _ _ _ _ Hs) as ([_ ?] & _). Qed.

Lemma dlist_first h head l : dlist h head l -> get_next h head = Ok (after head l).
Proof. exact (dlist_next h head [] l). Qed.

(** Both ends of a chain redirected. *)
Lemma seg_redirect h h' a a' x m b b' :
  seg h a (x :: m) b -> NoDup (x :: m) ->
  link h' a' x -> link h' (before x m) b' ->
  (forall y, y ∈ x :: m -> y <> before x m -> next <$> h' !! y = next <$> h !! y) ->
  (forall y, y ∈ m -> prev <$> h' !! y = prev <$> h !! y) ->
  seg h' a' (x :: m) b'.
Proof.
  revert a a' x. induction m as [|y m IH]; intros a a' x [_ Hs] Hnd H1 H2 Hn Hp; [by split|].
  destruct Hs as [[Hxy Hyx] Hs]. apply NoDup_cons in Hnd as [Hx Hnd].
  assert (before x (y :: m) = before y m) as Hb by (unfold before; rewrite last_cons; by destruct (last m)).
  rewrite Hb in *.
  assert (before y m ∈ y :: m) as Hin by apply before_in.
  split; [done|]. apply (IH x x y); [by split|done| |done| |].
  - split; [|by rewrite Hp by set_solver]. rewrite Hn; [done|set_solver|congruence].
  - intros z Hz Hne. apply Hn; [set_solver|done].
  - intros z Hz. apply Hp. set_solver.
Qed.

Lemma dlist_splice h head l list x m :
  dlist h head l -> dlist h list (x :: m) -> head :: l ## list :: x :: m ->
  exists h', list_splice h list head = Ok h' /\ dlist h' head (x :: m ++ l) /\
    untouched h h' (head :: x :: m ++ l).
Proof.
  intros Hd1 Hd2 Hdis. pose proof Hd1 as [Hnd1 Hs1]. pose proof Hd2 as [Hnd2 Hs2].
  assert (before list (x :: m) = before x m) as Hbl by (unfold before; rewrite last_cons; by destruct (last m)).
  pose proof (before_in x m) as Hbin. pose proof (after_in head l) as Hain.
  assert (list <> x) as Hlx by (apply NoDup_cons in Hnd2; set_solver).
  assert (forall z, z ∈ x :: m -> is_Some (h !! z)) as Hdom2 by (intros; eapply dlist_dom; [exact Hd2|set_solver]).
  assert (forall z, z ∈ head :: l -> is_Some (h !! z)) as Hdom1 by (intros; by apply (dlist_dom h head l)).
  unfold list_splice. rewrite (dlist_first _ _ _ Hd2). change (after list (x :: m)) with x. cbn [mbind res_bind].
  destruct (Z.eqb_spec x list); [congruence|].
  pose proof (dlist_prev h list (x :: m) []) as Hpl. rewrite app_nil_r, Hbl in Hpl. change (after list []) with list in Hpl. rewrite (Hpl Hd2).
  cbn [mbind res_bind]. rewrite (dlist_first _ _ _ Hd1). cbn [mbind res_bind].
  destruct (set_prev_ok h x head) as (h1 & -> & D1 & N1 & P1); [apply Hdom2; set_solver|]. cbn [mbind res_bind].
  destruct (set_next_ok h1 head x) as (h2 & -> & D2 & N2 & P2); [apply D1, Hdom1; set_solver|]. cbn [mbind res_bind].
  destruct (set_next_ok h2 (before x m) (after head l)) as (h3 & -> & D3 & N3 & P3); [by apply D2, D1, Hdom2|].
  cbn [mbind res_bind].
  destruct (set_prev_ok h3 (after head l) (before x m)) as (h4 & -> & D4 & N4 & P4); [by apply D3, D2, D1, Hdom1|].
  assert (forall z, z ∈ x :: m -> z ∉ head :: l) as Hd by (clear - Hdis; set_solver).
  assert (before x m <> head) as Hbh by (intros Heq; apply (Hd _ Hbin); rewrite Heq; set_solver).
  assert (after head l <> x) as Hax by (intros Heq; apply (Hd x); [set_solver|by rewrite <- Heq]).
  assert (forall z, z <> head -> z <> before x m -> next <$> h4 !! z = next <$> h !! z) as Hn.
  { intros z Hz1 Hz2. rewrite N4, N3, N2, N1. repeat case_decide; congruence. }
  assert (forall z, z <> x -> z <> after head l -> prev <$> h4 !! z = prev <$> h !! z) as Hp.
  { intros z Hz1 Hz2. rewrite P4, P3, P2, P1. repeat case_decide; congruence. }
  assert (link h4 head x) as Hl1.
  { split; rewrite ?N4, ?N3, ?N2, ?P4, ?P3, ?P2, ?P1; repeat case_decide; congruence. }
  assert (link h4 (before x m) (after head l)) as Hl2.
  { split; rewrite ?N4, ?N3, ?P4; repeat case_decide; congruence. }
  apply NoDup_cons in Hnd2 as [Hln Hnd2]. pose proof Hnd2 as [Hxm Hndm]%NoDup_cons.
  exists h4. split; [done|]. split; [split|].
  - assert (head :: x :: m ++ l ≡ₚ (x :: m) ++ head :: l) as -> by solve_Permutation.
    apply NoDup_app. done.
  - assert (seg h4 head (x :: m) (after head l)) as Hseg.
    { apply (seg_redirect h _ list _ _ _ list); try done.
      - intros y Hy Hne. apply Hn; [intros ->; by apply (Hd head); [|left]|done].
      - intros y Hy. apply Hp; [intros ->; done|]. intros ->. apply (Hd (after head l)); [by right|done]. }
    destruct l as [|y l]; [by rewrite app_nil_r|].
    apply (seg_app _ _ (x :: m) y l). split; [done|]. destruct Hs1 as [_ Hs1].
    apply NoDup_cons in Hnd1 as [Hh1 Hnd1]. apply NoDup_cons in Hnd1 as [Hy1 _].
    apply (seg_frame h); [done| |]; intros z Hz; [apply Hn|apply Hp].
    + intros ->. done.
    + intros ->. apply (Hd _ Hbin). by right.
    + intros ->. apply (Hd x); [by left|]. clear - Hz. set_solver.
    + intros ->. change (after head (y :: l)) with y in Hz. clear - Hz Hy1 Hh1. set_solver.
  - intros z Hz. apply node_ext; [apply Hn|apply Hp]; intros ->; apply Hz; clear - Hain Hbin; set_solver.
Qed.

(** A loop body over the entries of a sequence. *)
Fixpoint for_list {S} (body : Z -> S -> res S) (l : list Z) (s : S) : res S :=
  match l with
  | [] => Ok s
  | x :: l => s ← body x s; for_list body l s
  end.

Lemma for_each_from_spec {S} h head l1 l2 (body : Z -> S -> res S) fuel s :
  dlist h head (l1 ++ l2) -> (length l2 <= fuel)%nat ->
  list_for_each_from fuel h (after head l2) head body s = for_list body l2 s.
Proof.
  revert l1 fuel s. induction l2 as [|x l2 IH]; intros l1 fuel s Hd Hf.
  - unfold after. simpl. destruct fuel; simpl; by rewrite Z.eqb_refl.
  - destruct fuel as [|fuel]; [simpl in Hf; lia|]. simpl in Hf.
    change (after head (x :: l2)) with x. cbn [list_for_each_from for_list].
    destruct (Z.eqb_spec x head) as [->|_].
    { destruct Hd as [Hnd _]. exfalso. apply NoDup_cons in Hnd as [Hh _]. set_solver. }
    destruct (body x s) as [s'| |]; [|done..]. cbn [mbind res_bind].
    change (x :: l2) with ([x] ++ l2) in Hd. rewrite app_assoc in Hd.
    pose proof (dlist_next _ _ _ _ Hd) as Hn. unfold before in Hn. rewrite last_snoc in Hn. simpl in Hn.
    rewrite Hn. simpl. apply (IH (l1 ++ [x])); [done|lia].
Qed.

(** ** Properties *)

(** The pointer updates of [list_add] and [list_add_tail] insert a fresh
    entry after, respectively before, the given node of a circular list — the
    head or any entry — and nothing else changes: for the chain of entries
    [l1 ++ l2] the result is [l1 ++ new :: l2], and every list disjoint from it
    is kept. *)
Lemma list_add_refines h head l1 l2 new :
  dlist h head (l1 ++ l2) -> is_Some (h !! new) -> new ∉ head :: l1 ++ l2 ->
  (exists h', list_add h new (before head l1) = Ok h' /\ dlist h' head (l1 ++ new :: l2) /\
     (forall hd m, dlist h hd m -> hd :: m ## new :: head :: l1 ++ l2 -> dlist h' hd m)) /\
  (exists h', list_add_tail h new (after head l2) = Ok h' /\ dlist h' head (l1 ++ new :: l2) /\
     (forall hd m, dlist h hd m -> hd :: m ## new :: head :: l1 ++ l2 -> dlist h' hd m)).
Proof.
  intros Hd Hnew Hni. destruct (dlist_insert h head l1 l2 new) as (h' & Hadd & Hd' & Hn & Hne & Hu); [done..|].
  pose proof Hn as Hn'. apply get_next_ok in Hn'.
  assert (bug_on (after head l2 =? new) = Ok ()) as Hb by (destruct (Z.eqb_spec (after head l2) new); [congruence|done]).
  unfold list_add, list_add_tail. rewrite (dlist_next _ _ _ _ Hd), (dlist_prev _ _ _ _ Hd). simpl. rewrite Hadd. simpl.
  rewrite Hn'. cbn [mbind res_bind]. rewrite Hb. simpl.
  split; exists h'; (split_and!; [done..|]); intros hd m Hm Hdis; by eapply dlist_untouched.
Qed.

(** [list_del] removes exactly its entry and keeps the order of the others;
    [list_del_init] also makes the entry an empty list of its own; neither
    touches any other list; [list_empty] decides emptiness. *)
Lemma list_del_refines h head l1 e l2 :
  dlist h head (l1 ++ e :: l2) ->
  list_empty h head = Ok false /\
  (exists h', list_del h e = Ok h' /\ dlist h' head (l1 ++ l2) /\
     list_empty h' head = Ok (bool_decide (l1 ++ l2 = [])) /\
     (forall hd m, dlist h hd m -> hd :: m ## head :: l1 ++ l2 -> dlist h' hd m)) /\
  (exists h', list_del_init h e = Ok h' /\ dlist h' head (l1 ++ l2) /\ dlist h' e [] /\ list_empty h' e = Ok true /\
     (forall hd m, dlist h hd m -> hd :: m ## e :: head :: l1 ++ l2 -> dlist h' hd m)).
Proof.
  assert (forall h l, dlist h head l -> list_empty h head = Ok (bool_decide (l = []))) as Hempty.
  { intros h0 l [Hnd Hs]. unfold list_empty. rewrite (dlist_first _ _ l) by done. simpl. f_equal.
    unfold after. destruct l as [|y l]; simpl; [by rewrite Z.eqb_refl|].
    apply Z.eqb_neq. apply NoDup_cons in Hnd as [Hh _]. set_solver. }
  intros Hd. split; [rewrite (Hempty _ _ Hd); by rewrite bool_decide_eq_false_2 by (by destruct l1)|].
  destruct (dlist_remove h head l1 e l2 Hd) as (h1 & Hdel & Hd1 & Hu & Hdom). split.
  - exists h1. split_and!; [done|done|by apply Hempty|]. intros hd m Hm Hdis. by eapply dlist_untouched.
  - assert (is_Some (h1 !! e)) as Hie by (apply Hdom; eapply dlist_dom; [exact Hd|set_solver]).
    unfold list_del_init, INIT_LIST_HEAD. rewrite Hdel. simpl.
    destruct (set_next_ok h1 e e Hie) as (h2 & -> & Hd2 & Hn2 & Hp2). simpl.
    destruct (set_prev_ok h2 e e) as (h3 & -> & Hd3 & Hn3 & Hp3); [by apply Hd2|].
    assert (untouched h1 h3 [e]) as Hu3.
    { intros x Hx. apply node_ext; rewrite ?Hn3, ?Hp3, ?Hn2, ?Hp2; case_decide; set_solver. }
    assert (dlist h3 e []) as He3.
    { split; [apply NoDup_singleton|]. split; rewrite ?Hn3, ?Hp3, ?Hn2, ?Hp2; by rewrite decide_True. }
    assert (e ∉ head :: l1 ++ l2) as He.
    { destruct Hd as [Hnd _]. assert (head :: l1 ++ e :: l2 ≡ₚ e :: head :: l1 ++ l2) as Hp by solve_Permutation.
      rewrite Hp in Hnd. by apply NoDup_cons in Hnd as [? _]. }
    exists h3. split_and!; [done|eapply dlist_untouched; [exact Hu3|done|clear - He; set_solver]|done| |].
    + unfold list_empty. rewrite (dlist_first _ _ [] He3). simpl. by rewrite Z.eqb_refl.
    + intros hd m Hm Hdis. eapply dlist_untouched; [exact Hu3| |clear - Hdis; set_solver].
      eapply dlist_untouched; [exact Hu|done|clear - Hdis; set_solver].
Qed.

(** [list_splice] moves the entries of one list, in order, in front of the
    entries of another; splicing an empty list changes nothing; lists disjoint
    from both are kept. *)
Lemma list_splice_refines h head l list m :
  dlist h head l -> dlist h list m -> head :: l ## list :: m ->
  exists h', list_splice h list head = Ok h' /\ dlist h' head (m ++ l) /\
    (forall hd k, dlist h hd k -> hd :: k ## head :: m ++ l -> dlist h' hd k).
Proof.
  intros Hd1 Hd2 Hdis. destruct m as [|x m].
  - exists h. split; [|done]. unfold list_splice. rewrite (dlist_first _ _ _ Hd2). simpl. by rewrite Z.eqb_refl.
  - destruct (dlist_splice h head l list x m) as (h' & ? & ? & ?); [done..|]. exists h'. split_and!; [done..|].
    intros hd k Hk Hdk. by eapply dlist_untouched.
Qed.

(** [list_for_each] runs its body on the entries of the list, once each and
    in order, and stops; the bound on the loop is the length of the list. *)
Lemma list_for_each_visits {S} h head l (body : Z -> S -> res S) s fuel :
  dlist h head l -> (length l <= fuel)%nat ->
  list_for_each fuel h head body s = for_list body l s.
Proof.
  intros Hd Hf. unfold list_for_each. rewrite (dlist_first _ _ l Hd). simpl.
  by apply (for_each_from_spec h head []).
Qed.

(** ** Witnesses *)

(** Two lists: head 1 with entries 2, 3 and head 10 with entry 11; 20 is a
    node outside them. *)
Definition demo_lheap : lheap :=
  list_to_map [(1, ListHead 2 3); (2, ListHead 3 1); (3, ListHead 1 2);
    (10, ListHead 11 11); (11, ListHead 10 10); (20, ListHead 0 0)].

Lemma demo_dlist : dlist demo_lheap 1 [2; 3] /\ dlist demo_lheap 10 [11].
Proof. split; (split; [by apply (bool_decide_unpack _); vm_compute|by vm_compute]). Qed.

Lemma list_add_refines_witness :
  exists h', list_add_tail demo_lheap 20 1 = Ok h' /\ dlist h' 1 [2; 3; 20] /\ dlist h' 10 [11].
Proof.
  destruct demo_dlist as [H1 H2].
  destruct (list_add_refines demo_lheap 1 [2; 3] [] 20 H1) as (_ & h' & Ha & Hd & Hf);
    [vm_compute; eauto|by apply (bool_decide_unpack _); vm_compute|].
  exists h'. split_and!; [done..|]. apply Hf; [done|set_solver by lia].
Defined.

Lemma list_del_refines_witness :
  exists h', list_del demo_lheap 2 = Ok h' /\ dlist h' 1 [3].
Proof.
  destruct demo_dlist as [H1 _]. destruct (list_del_refines demo_lheap 1 [] 2 [3] H1) as (_ & (h' & ? & ? & _) & _).
  eauto.
Defined.

Lemma list_splice_refines_witness :
  exists h', list_splice demo_lheap 10 1 = Ok h' /\ dlist h' 1 [11; 2; 3].
Proof.
  destruct demo_dlist as [H1 H2].
  destruct (list_splice_refines demo_lheap 1 [2; 3] 10 [11] H1 H2) as (h' & ? & ? & _); [set_solver by lia|]. eauto.
Defined.

Lemma list_for_each_visits_witness :
  list_for_each 2 demo_lheap 1 (fun x acc => Ok (acc ++ [x])) [] = Ok [2; 3].
Proof. rewrite (list_for_each_visits demo_lheap 1 [2; 3]); [done|apply demo_dlist|done]. Defined.
