(* ===== verification/CString.v ===== *)
(** C strings and memory ([lib/string.c], [include/ctype.h], and the command
    line option parser [num_option] of [kernel.c]).

    A byte is a [Z] in [0, 256).  A pointer that is only read through is the
    list of the bytes of its object from that place on, so [*p] is the head and
    [p + 1] the tail, and reading past the end of the object is a [BAD_ACCESS].
    A destination is the list of the bytes of the object from the pointer on,
    and the operation returns its new contents; source and destination are
    different objects. *)

From Stdlib Require Import Ascii String.
From S2P Require Import Prelude.
Open Scope Z_scope.
Open Scope list_scope.

(** String literals as byte lists (without and with the terminator). *)
Fixpoint str (s : string) : list Z :=
  match s with
  | EmptyString => []
  | String a s => Z.of_nat (nat_of_ascii a) :: str s
  end.

Definition cstr (s : string) : list Z := str s ++ [0].

(** ** Character classes ([ctype.h]) *)

Definition U_ : Z := 1.
Definition L_ : Z := 2.
Definition D_ : Z := 4.
Definition C_ : Z := 8.
Definition P_ : Z := 16.
Definition S_ : Z := 32.
Definition X_ : Z := 64.
Definition SP_ : Z := 128.

Definition ctype_table : list Z :=
  [C_; C_; C_; C_; C_; C_; C_; C_;
   C_; Z.lor C_ S_; Z.lor C_ S_; Z.lor C_ S_; Z.lor C_ S_; Z.lor C_ S_; C_; C_;
   C_; C_; C_; C_; C_; C_; C_; C_;
   C_; C_; C_; C_; C_; C_; C_; C_;
   Z.lor S_ SP_; P_; P_; P_; P_; P_; P_; P_;
   P_; P_; P_; P_; P_; P_; P_; P_;
   D_; D_; D_; D_; D_; D_; D_; D_;
   D_; D_; P_; P_; P_; P_; P_; P_;
   P_; Z.lor U_ X_; Z.lor U_ X_; Z.lor U_ X_; Z.lor U_ X_; Z.lor U_ X_; Z.lor U_ X_; U_;
   U_; U_; U_; U_; U_; U_; U_; U_;
   U_; U_; U_; U_; U_; U_; U_; U_;
   U_; U_; U_; P_; P_; P_; P_; P_;
   P_; Z.lor L_ X_; Z.lor L_ X_; Z.lor L_ X_; Z.lor L_ X_; Z.lor L_ X_; Z.lor L_ X_; L_;
   L_; L_; L_; L_; L_; L_; L_; L_;
   L_; L_; L_; L_; L_; L_; L_; L_;
   L_; L_; L_; P_; P_; P_; P_; C_;
   0; 0; 0; 0; 0; 0; 0; 0;
   0; 0; 0; 0; 0; 0; 0; 0;
   0; 0; 0; 0; 0; 0; 0; 0;
   0; 0; 0; 0; 0; 0; 0; 0;
   Z.lor S_ SP_; P_; P_; P_; P_; P_; P_; P_;
   P_; P_; P_; P_; P_; P_; P_; P_;
   P_; P_; P_; P_; P_; P_; P_; P_;
   P_; P_; P_; P_; P_; P_; P_; P_;
   U_; U_; U_; U_; U_; U_; U_; U_;
   U_; U_; U_; U_; U_; U_; U_; U_;
   U_; U_; U_; U_; U_; U_; U_; P_;
   U_; U_; U_; U_; U_; U_; U_; L_;
   L_; L_; L_; L_; L_; L_; L_; L_;
   L_; L_; L_; L_; L_; L_; L_; L_;
   L_; L_; L_; L_; L_; L_; L_; P_;
   L_; L_; L_; L_; L_; L_; L_; L_].

Definition ismask (x : Z) : Z := nth (Z.to_nat (wrap 8 x)) ctype_table 0.

Definition isdigit (c : Z) : bool := negb (Z.land (ismask c) D_ =? 0).
Definition islower (c : Z) : bool := negb (Z.land (ismask c) L_ =? 0).
Definition isupper (c : Z) : bool := negb (Z.land (ismask c) U_ =? 0).
Definition isspace (c : Z) : bool := negb (Z.land (ismask c) S_ =? 0).
Definition isxdigit (c : Z) : bool := negb (Z.land (ismask c) (Z.lor D_ X_) =? 0).
Definition isalpha (c : Z) : bool := negb (Z.land (ismask c) (Z.lor U_ L_) =? 0).
Definition isalnum (c : Z) : bool := negb (Z.land (ismask c) (Z.lor U_ (Z.lor L_ D_)) =? 0).
Definition ispunct (c : Z) : bool := negb (Z.land (ismask c) P_ =? 0).
Definition iscntrl (c : Z) : bool := negb (Z.land (ismask c) C_ =? 0).

(** ['A'] is 65 and ['a'] is 97. *)
Definition tolower (c : Z) : Z := if isupper c then wrap 8 (c - (65 - 97)) else c.
Definition toupper (c : Z) : Z := if islower c then wrap 8 (c - (97 - 65)) else c.

(** ** Memory and strings ([string.c]) *)

Definition schar (c : Z) : Z := sgn 8 c.

(** [signed char res = *su1 - *su2] on unsigned bytes, then converted to [int]. *)
Fixpoint memcmp (cs ct : list Z) (count : nat) {struct count} : res Z :=
  match count with
  | O => Ok 0
  | S count =>
      match cs, ct with
      | a :: cs, b :: ct =>
          let r := schar (a - b) in
          if r =? 0 then memcmp cs ct count else Ok r
      | _, _ => Bug BAD_ACCESS
      end
  end.

Fixpoint memcpy (dest src : list Z) (count : nat) {struct count} : res (list Z) :=
  match count with
  | O => Ok dest
  | S count =>
      match dest, src with
      | _ :: dest, c :: src => d ← memcpy dest src count; Ok (c :: d)
      | _, _ => Bug BAD_ACCESS
      end
  end.

Fixpoint strncmp (cs ct : list Z) (count : nat) {struct count} : res Z :=
  match count with
  | O => Ok 0
  | S count =>
      match cs, ct with
      | a :: cs, b :: ct =>
          let r := schar (schar a - schar b) in
          if negb (r =? 0) || (a =? 0) then Ok r else
          (* the loop leaves the last difference, which is 0 here *)
          strncmp cs ct count
      | _, _ => Bug BAD_ACCESS
      end
  end.

Fixpoint strcmp (cs ct : list Z) : res Z :=
  match cs, ct with
  | a :: cs, b :: ct =>
      let r := schar (schar a - schar b) in
      if negb (r =? 0) || (a =? 0) then Ok r else strcmp cs ct
  | _, _ => Bug BAD_ACCESS
  end.

Fixpoint strcpy (dest src : list Z) : res (list Z) :=
  match dest, src with
  | _ :: dest, c :: src =>
      if c =? 0 then Ok (c :: dest) else d ← strcpy dest src; Ok (c :: d)
  | _, _ => Bug BAD_ACCESS
  end.

Fixpoint strncpy (dest src : list Z) (count : nat) {struct count} : res (list Z) :=
  match count with
  | O => Ok dest
  | S count =>
      match dest, src with
      | _ :: dest, c :: src =>
          if c =? 0 then Ok (c :: dest) else d ← strncpy dest src count; Ok (c :: d)
      | _, _ => Bug BAD_ACCESS
      end
  end.

Fixpoint memset (s : list Z) (c : Z) (count : nat) {struct count} : res (list Z) :=
  match count with
  | O => Ok s
  | S count =>
      match s with
      | _ :: s => d ← memset s c count; Ok (wrap 8 c :: d)
      | [] => Bug BAD_ACCESS
      end
  end.

(** [count] is a [size_t], which callers set to its maximum. *)
Fixpoint strnlen (s : list Z) (count : Z) {struct s} : res Z :=
  if count =? 0 then Ok 0 else
  match s with
  | c :: s => if c =? 0 then Ok 0 else n ← strnlen s (count - 1); Ok (1 + n)
  | [] => Bug BAD_ACCESS
  end.

Fixpoint strcat (dest src : list Z) : res (list Z) :=
  match dest with
  | c :: d => if c =? 0 then strcpy dest src else d ← strcat d src; Ok (c :: d)
  | [] => Bug BAD_ACCESS
  end.

Fixpoint strlen (s : list Z) : res Z :=
  match s with
  | c :: s => if c =? 0 then Ok 0 else n ← strlen s; Ok (1 + n)
  | [] => Bug BAD_ACCESS
  end.

(** [None] is the null pointer, [Some s] the place found. *)
Fixpoint strchr (s : list Z) (c : Z) : res (option (list Z)) :=
  match s with
  | b :: s' =>
      if b =? wrap 8 c then Ok (Some s) else
      if b =? 0 then Ok None else strchr s' c
  | [] => Bug BAD_ACCESS
  end.

(** The loop of [strstr]: [l1] counts down the rest of [s1]. *)
Fixpoint strstr_loop (fuel : nat) (s1 s2 : list Z) (l1 l2 : Z) : res (option (list Z)) :=
  if l1 <? l2 then Ok None else
  match fuel with
  | O => Fuel
  | S fuel =>
      r ← memcmp s1 s2 (Z.to_nat (wrap64 l2));
      if r =? 0 then Ok (Some s1) else
      match s1 with
      | _ :: s1 => strstr_loop fuel s1 s2 (l1 - 1) l2
      | [] => Bug BAD_ACCESS
      end
  end.

Definition strstr (s1 s2 : list Z) : res (option (list Z)) :=
  n2 ← strlen s2;
  let l2 := sgn32 n2 in
  if l2 =? 0 then Ok (Some s1) else
  n1 ← strlen s1;
  strstr_loop (S (length s1)) s1 s2 (sgn32 n1) l2.

(** [malloc] gives the bytes of a fresh block of the size, or nothing. *)
Definition strdup (malloc : Z -> option (list Z)) (x : list Z) : res (option (list Z)) :=
  n ← strlen x;
  let l := sgn32 n in
  match malloc (wrap64 (l + 1)) with
  | None => Ok None
  | Some r => d ← memcpy r x (Z.to_nat (wrap64 (l + 1))); Ok (Some d)
  end.

(** ** Command line options ([kernel.c]) *)

(** The digit loop: [result = result * 10 + (c - '0')] on an [int], for the next character [c]. *)
Fixpoint option_digits (s : list Z) (result : Z) : res Z :=
  match s with
  | c :: s =>
      if (c =? 32) || (c =? 0) then Ok result
      else option_digits s (sgn32 (result * 10 + (schar c - 48)))
  | [] => Bug BAD_ACCESS
  end.

Definition num_option (cmd_line option : list Z) : res Z :=
  tsarg ← strstr cmd_line option;
  match tsarg with
  | None => Ok (-1)
  | Some tsarg =>
      n ← strlen option;
      let tsarg := drop (Z.to_nat n) tsarg in
      match tsarg with
      | c :: tsarg => if c =? 61 then option_digits tsarg 0 else Ok (-1)
      | [] => Bug BAD_ACCESS
      end
  end.

(** ** Lemmas *)

Definition byte (c : Z) : Prop := 0 <= c < 256.

Global Instance byte_dec c : Decision (byte c).
Proof. unfold byte. apply _. Defined.

(** A fact about bytes that computes is checked on all of them. *)
Lemma byte_forall (P : Z -> bool) :
  forallb P (Z.of_nat <$> seq 0 256) = true -> forall c, byte c -> P c = true.
Proof.
  intros Hall c [H0 H1]. rewrite forallb_forall in Hall. apply Hall.
  apply in_map_iff. exists (Z.to_nat c). split; [lia|]. apply in_seq. lia.
Qed.

Ltac by_bytes P :=
  match goal with |- forall c, byte c -> _ =>
    let H := fresh in let c := fresh in let Hc := fresh in
    intros c Hc; pose proof (byte_forall P ltac:(vm_compute; reflexivity) c Hc) as H;
    cbv beta in H
  end.

(** The bytes of a C string and what follows its terminator. *)
Definition nonzero (s : list Z) : Prop := Forall (fun c => 0 < c < 256) s.

Global Instance nonzero_dec s : Decision (nonzero s).
Proof. unfold nonzero. apply _. Defined.

(** Decidable facts about concrete values. *)
Ltac decides := apply (bool_decide_unpack _); vm_compute; exact I.

Lemma schar_diff_zero a b : byte a -> byte b -> schar (a - b) = 0 <-> a = b.
Proof.
  unfold byte, schar, sgn. intros Ha Hb. change (2 ^ 8) with 256. change (2 ^ (8 - 1)) with 128.
  pose proof (Z.mod_pos_bound (a - b) 256 ltac:(lia)).
  pose proof (Z.div_mod (a - b) 256 ltac:(lia)).
  destruct (Z.ltb_spec ((a - b) mod 256) 128); nia.
Qed.

Lemma schar_schar a b : schar (schar a - schar b) = schar (a - b).
Proof.
  unfold schar, sgn. change (2 ^ 8) with 256. change (2 ^ (8 - 1)) with 128.
  assert (forall x, exists k, (if x mod 256 <? 128 then x mod 256 else x mod 256 - 256) = x + k * 256) as Hk.
  { intros x. pose proof (Z.div_mod x 256 ltac:(lia)).
    destruct (_ <? _); [exists (- (x / 256))|exists (- (x / 256) - 1)]; lia. }
  destruct (Hk a) as [ka ->], (Hk b) as [kb ->].
  replace (a + ka * 256 - (b + kb * 256)) with (a - b + (ka - kb) * 256) by ring.
  by rewrite Z_mod_plus_full.
Qed.

Lemma nonzero_bytes s : nonzero s -> Forall byte s.
Proof. intros H. eapply Forall_impl; [exact H|]. unfold byte. cbv beta. lia. Qed.

Lemma strlen_spec s r : nonzero s -> strlen (s ++ 0 :: r) = Ok (Z.of_nat (length s)).
Proof.
  induction 1 as [|c s Hc Hs IH]; simpl; [done|].
  destruct (Z.eqb_spec c 0); [lia|]. rewrite IH. simpl. f_equal. lia.
Qed.

Lemma memcmp_total cs ct n :
  (n <= length cs)%nat -> (n <= length ct)%nat -> Forall byte cs -> Forall byte ct ->
  exists v, memcmp cs ct n = Ok v /\ (v = 0 <-> take n cs = take n ct).
Proof.
  revert cs ct. induction n as [|n IH]; intros cs ct Hcs Hct Hb1 Hb2; simpl; [by exists 0|].
  destruct cs as [|a cs]; simpl in Hcs; [lia|]. destruct ct as [|b ct]; simpl in Hct; [lia|].
  apply Forall_cons in Hb1 as [Ha Hb1]. apply Forall_cons in Hb2 as [Hb Hb2].
  destruct (IH cs ct) as (v & Hv & Hiff); [lia|lia|done|done|].
  pose proof (schar_diff_zero a b Ha Hb) as Hz. destruct (Z.eqb_spec (schar (a - b)) 0).
  - exists v. split; [done|]. rewrite Hiff. simpl. split; [intros ->; f_equal; tauto|]. by intros [= _ ->].
  - eexists. split; [done|]. split; [done|]. intros [= -> _]. tauto.
Qed.

Lemma strcmp_total a b r1 r2 :
  nonzero a -> nonzero b ->
  exists v, strcmp (a ++ 0 :: r1) (b ++ 0 :: r2) = Ok v /\ (v = 0 <-> a = b).
Proof.
  intros Ha. revert b. induction Ha as [|x a Hx Ha IH]; intros b Hb; destruct b as [|y b]; simpl.
  - by exists 0.
  - apply Forall_cons in Hb as [Hy _]. rewrite schar_schar. destruct (Z.eqb_spec (schar (0 - y)) 0) as [Hz|Hz]; simpl.
    + apply (schar_diff_zero 0 y) in Hz; unfold byte; lia.
    + eexists. split; [done|]. by split.
  - rewrite schar_schar. destruct (Z.eqb_spec (schar (x - 0)) 0) as [Hz|Hz]; simpl.
    + apply (schar_diff_zero x 0) in Hz; unfold byte; lia.
    + eexists. split; [done|]. by split.
  - apply Forall_cons in Hb as [Hy Hb]. rewrite schar_schar.
    pose proof (schar_diff_zero x y ltac:(unfold byte; lia) ltac:(unfold byte; lia)) as Hz.
    destruct (Z.eqb_spec (schar (x - y)) 0); simpl.
    + destruct (Z.eqb_spec x 0); [lia|]. destruct (IH b Hb) as (v & -> & Hv). exists v. split; [done|].
      rewrite Hv. split; [intros ->; f_equal; tauto|]. by intros [= _ ->].
    + eexists. split; [done|]. split; [done|]. intros [= -> _]. tauto.
Qed.

Lemma strncmp_total a b r1 r2 n :
  nonzero a -> nonzero b ->
  exists v, strncmp (a ++ 0 :: r1) (b ++ 0 :: r2) n = Ok v /\ (v = 0 <-> take n a = take n b).
Proof.
  intros Ha. revert b n. induction Ha as [|x a Hx Ha IH]; intros b n Hb;
    (destruct n as [|n]; [by exists 0|]); destruct b as [|y b]; simpl.
  - by exists 0.
  - apply Forall_cons in Hb as [Hy _]. rewrite schar_schar. destruct (Z.eqb_spec (schar (0 - y)) 0) as [Hz|Hz]; simpl.
    + apply (schar_diff_zero 0 y) in Hz; unfold byte; lia.
    + eexists. split; [done|]. by split.
  - rewrite schar_schar. destruct (Z.eqb_spec (schar (x - 0)) 0) as [Hz|Hz]; simpl.
    + apply (schar_diff_zero x 0) in Hz; unfold byte; lia.
    + eexists. split; [done|]. by split.
  - apply Forall_cons in Hb as [Hy Hb]. rewrite schar_schar.
    pose proof (schar_diff_zero x y ltac:(unfold byte; lia) ltac:(unfold byte; lia)) as Hz.
    destruct (Z.eqb_spec (schar (x - y)) 0); simpl.
    + destruct (Z.eqb_spec x 0); [lia|]. destruct (IH b n Hb) as (v & -> & Hv). exists v. split; [done|].
      rewrite Hv. split; [intros ->; f_equal; tauto|]. by intros [= _ ->].
    + eexists. split; [done|]. split; [done|]. intros [= -> _]. tauto.
Qed.

(** [b] occurs in [a] after [pre], for the first time. *)
Definition first_occurrence (a b pre suf : list Z) : Prop :=
  a = pre ++ b ++ suf /\ forall pre' suf', a = pre' ++ b ++ suf' -> (length pre <= length pre')%nat.

Lemma strstr_loop_spec fuel a b r1 r2 :
  nonzero a -> nonzero b -> Forall byte r1 -> Forall byte r2 ->
  Z.of_nat (length a) < 2 ^ 31 -> Z.of_nat (length b) < 2 ^ 31 -> b <> [] -> (length a < fuel)%nat ->
  (exists pre suf, first_occurrence a b pre suf /\
     strstr_loop fuel (a ++ 0 :: r1) (b ++ 0 :: r2) (Z.of_nat (length a)) (Z.of_nat (length b)) =
     Ok (Some (b ++ suf ++ 0 :: r1))) \/
  ((forall pre suf, a <> pre ++ b ++ suf) /\
     strstr_loop fuel (a ++ 0 :: r1) (b ++ 0 :: r2) (Z.of_nat (length a)) (Z.of_nat (length b)) = Ok None).
Proof.
  intros Ha Hb Hr1 Hr2 La Lb Hbne. revert a Ha La. induction fuel as [|fuel IH]; intros a Ha La Hf; [lia|].
  cbn [strstr_loop]. destruct (Z.ltb_spec (Z.of_nat (length a)) (Z.of_nat (length b))) as [Hlt|Hge].
  { right. split; [|done]. intros pre suf ->. rewrite !length_app in Hlt. lia. }
  rewrite wrap_small by lia. rewrite Nat2Z.id.
  assert (forall s r, nonzero s -> Forall byte r -> Forall byte (s ++ 0 :: r)) as Hby.
  { intros s r Hs Hr. apply Forall_app. split; [by apply nonzero_bytes|]. constructor; [unfold byte; lia|done]. }
  destruct (memcmp_total (a ++ 0 :: r1) (b ++ 0 :: r2) (length b)) as (v & -> & Hv);
    [rewrite length_app; lia..|by apply Hby|by apply Hby|].
  rewrite take_app_length, take_app_le in Hv by lia. simpl.
  destruct (Z.eqb_spec v 0) as [->|Hne].
  - left. exists [], (drop (length b) a).
    assert (a = b ++ drop (length b) a) as Hab.
    { rewrite <- (take_drop (length b) a) at 1. f_equal. by apply Hv. }
    split; [split; [done|simpl; lia]|]. rewrite Hab at 1. by rewrite <- app_assoc.
  - assert (forall suf, a <> b ++ suf) as Hno.
    { intros suf ->. apply Hne, Hv. by rewrite take_app_length. }
    destruct a as [|x a]; [destruct b; simpl in Hge; [done|lia]|].
    apply Forall_cons in Ha as [Hx Ha]. cbn [app length].
    replace (Z.of_nat (S (length a)) - 1) with (Z.of_nat (length a)) by lia.
    simpl in La, Hf. destruct (IH a Ha) as [(pre & suf & [Hocc Hmin] & ->)|[Hnone ->]]; [lia..| |].
    + left. exists (x :: pre), suf. split; [|done]. split; [by rewrite Hocc|].
      intros [|z pre'] suf' Heq; [by destruct (Hno suf')|]. simplify_eq/=. apply le_n_S. by eapply Hmin.
    + right. split; [|done]. intros [|z pre] suf Heq; [by destruct (Hno suf)|]. simplify_eq/=.
      by apply (Hnone pre suf).
Qed.

Lemma sgn32_small n : 0 <= n < 2 ^ 31 -> sgn32 n = n.
Proof. intros. apply sgn_small; simpl; lia. Qed.

Lemma strstr_spec a b r1 r2 :
  nonzero a -> nonzero b -> Forall byte r1 -> Forall byte r2 ->
  Z.of_nat (length a) < 2 ^ 31 -> Z.of_nat (length b) < 2 ^ 31 ->
  (exists pre suf, first_occurrence a b pre suf /\
     strstr (a ++ 0 :: r1) (b ++ 0 :: r2) = Ok (Some (b ++ suf ++ 0 :: r1))) \/
  ((forall pre suf, a <> pre ++ b ++ suf) /\ strstr (a ++ 0 :: r1) (b ++ 0 :: r2) = Ok None).
Proof.
  intros Ha Hb Hr1 Hr2 La Lb. unfold strstr. rewrite (strlen_spec b r2 Hb). cbn [mbind res_bind].
  rewrite sgn32_small by lia. destruct (Z.eqb_spec (Z.of_nat (length b)) 0) as [Hz|Hz].
  - left. destruct b; [|simpl in Hz; lia]. exists [], a. split; [|done]. split; [done|]. simpl. lia.
  - rewrite (strlen_spec a r1 Ha). cbn [mbind res_bind]. rewrite sgn32_small by lia.
    apply strstr_loop_spec; try done; [by intros ->|]. rewrite length_app. lia.
Qed.

Lemma first_occurrence_eq a b pre suf pre' suf' :
  first_occurrence a b pre suf -> first_occurrence a b pre' suf' -> pre = pre' /\ suf = suf'.
Proof.
  intros [H1 M1] [H2 M2]. pose proof (M1 _ _ H2). pose proof (M2 _ _ H1).
  rewrite H1 in H2. apply app_inj_1 in H2 as [-> H2]; [|lia]. by apply app_inv_head in H2.
Qed.

Lemma strcpy_spec dest s r :
  nonzero s ->
  strcpy dest (s ++ 0 :: r) =
  if decide (length s < length dest)%nat then Ok (s ++ 0 :: drop (S (length s)) dest) else Bug BAD_ACCESS.
Proof.
  intros Hs. revert dest. induction Hs as [|c s Hc Hs IH]; intros [|d dest]; simpl; try done.
  destruct (Z.eqb_spec c 0); [lia|]. rewrite IH.
  destruct (decide (length s < length dest)%nat); [rewrite decide_True by lia|rewrite decide_False by lia]; done.
Qed.

Lemma memcpy_spec dest src n :
  (n <= length dest)%nat -> (n <= length src)%nat -> memcpy dest src n = Ok (take n src ++ drop n dest).
Proof.
  revert dest src. induction n as [|n IH]; intros [|d dest] [|c src]; simpl; try lia; try done.
  intros. by rewrite IH by lia.
Qed.

Lemma strcat_spec d dr s r :
  nonzero d -> nonzero s -> (length s <= length dr)%nat ->
  strcat (d ++ 0 :: dr) (s ++ 0 :: r) = Ok (d ++ s ++ 0 :: drop (length s) dr).
Proof.
  intros Hd Hs Hl. induction Hd as [|c d Hc Hd IH].
  - cbn [app strcat]. rewrite Z.eqb_refl, strcpy_spec by done. by rewrite decide_True by (simpl; lia).
  - cbn [app strcat]. destruct (Z.eqb_spec c 0); [lia|]. by rewrite IH.
Qed.

Lemma strncpy_spec dest s r n :
  nonzero s -> (n <= length dest)%nat ->
  strncpy dest (s ++ 0 :: r) n =
  Ok (if decide (length s < n)%nat then s ++ 0 :: drop (S (length s)) dest else take n s ++ drop n dest).
Proof.
  intros Hs. revert dest n. induction Hs as [|c s Hc Hs IH]; intros [|d dest] [|n] Hn; simpl in *; try done; try lia.
  destruct (Z.eqb_spec c 0); [lia|]. rewrite IH by lia. simpl.
  destruct (decide (length s < n)%nat); [rewrite decide_True by lia|rewrite decide_False by lia]; done.
Qed.

(** The value of a string of decimal digits. *)
Definition dec_value (ds : list Z) : Z := foldl (fun acc c => acc * 10 + (c - 48)) 0 ds.

Lemma dec_foldl_bound ds acc :
  Forall (fun c => 48 <= c <= 57) ds -> 0 <= acc ->
  acc <= foldl (fun acc c => acc * 10 + (c - 48)) acc ds.
Proof.
  intros Hd. revert acc. induction Hd as [|c ds Hc Hd IH]; intros acc Ha; simpl; [lia|].
  etransitivity; [|apply IH]; lia.
Qed.

Lemma option_digits_spec ds acc t r :
  Forall (fun c => 48 <= c <= 57) ds -> 0 <= acc -> t = 0 \/ t = 32 ->
  foldl (fun acc c => acc * 10 + (c - 48)) acc ds < 2 ^ 31 ->
  option_digits (ds ++ t :: r) acc = Ok (foldl (fun acc c => acc * 10 + (c - 48)) acc ds).
Proof.
  intros Hd Ha Ht. revert acc Ha. induction Hd as [|c ds Hc Hd IH]; intros acc Ha Hlt; simpl.
  - by destruct Ht as [-> | ->].
  - destruct (Z.eqb_spec c 32); [lia|]. destruct (Z.eqb_spec c 0); [lia|]. simpl.
    assert (schar c = c) as -> by (apply sgn_small; simpl; lia).
    simpl in Hlt. pose proof (dec_foldl_bound ds (acc * 10 + (c - 48)) Hd ltac:(lia)).
    rewrite sgn32_small by lia. apply IH; [lia|done].
Qed.

(** ** Properties *)

(** [strstr] returns the place of the first occurrence of its second string
    in the first, and the null pointer exactly when there is none (strings
    shorter than 2^31, as the code keeps the lengths in [int]s). *)
Lemma strstr_first_occurrence a b r1 r2 :
  nonzero a -> nonzero b -> Forall byte r1 -> Forall byte r2 ->
  Z.of_nat (length a) < 2 ^ 31 -> Z.of_nat (length b) < 2 ^ 31 ->
  (exists pre suf, first_occurrence a b pre suf /\
     strstr (a ++ 0 :: r1) (b ++ 0 :: r2) = Ok (Some (b ++ suf ++ 0 :: r1))) \/
  ((forall pre suf, a <> pre ++ b ++ suf) /\ strstr (a ++ 0 :: r1) (b ++ 0 :: r2) = Ok None).
Proof. apply strstr_spec. Qed.

Lemma strstr_first_occurrence_witness :
  strstr (cstr "abcabd") (cstr "abd") = Ok (Some (cstr "abd")) /\
  exists pre suf, first_occurrence (str "abcabd") (str "abd") pre suf.
Proof.
  split; [done|].
  destruct (strstr_first_occurrence (str "abcabd") (str "abd") [] []) as [(pre & suf & H & _)|[_ H]];
    [repeat constructor; simpl; lia..|simpl; lia|simpl; lia|eauto|discriminate H].
Defined.

(** [strcmp], [strncmp] and [memcmp] return 0 exactly on equal strings, on
    strings that agree on their first [n] characters, and on equal first [n]
    bytes: keeping the difference in a [signed char] never hides one. *)
Lemma string_compare_zero a b r1 r2 n :
  nonzero a -> nonzero b ->
  (exists v, strcmp (a ++ 0 :: r1) (b ++ 0 :: r2) = Ok v /\ (v = 0 <-> a = b)) /\
  (exists v, strncmp (a ++ 0 :: r1) (b ++ 0 :: r2) n = Ok v /\ (v = 0 <-> take n a = take n b)) /\
  ((n <= length a)%nat -> (n <= length b)%nat ->
   exists v, memcmp a b n = Ok v /\ (v = 0 <-> take n a = take n b)).
Proof.
  intros Ha Hb. split_and!; [by apply strcmp_total|by apply strncmp_total|].
  intros. apply memcmp_total; auto using nonzero_bytes.
Qed.

Lemma string_compare_zero_witness :
  exists v, strcmp (cstr "vif") (cstr "vbd") = Ok v /\ (v = 0 <-> str "vif" = str "vbd").
Proof.
  destruct (string_compare_zero (str "vif") (str "vbd") [] [] 0) as (H & _);
    [repeat constructor; simpl; lia..|exact H].
Defined.

(** The order reported by [memcmp] is wrong whenever the first differing
    bytes are 128 or more apart: the difference does not fit a [signed char],
    and the larger string compares as the smaller one. *)
Lemma memcmp_order_inverted p x y s t n :
  Forall byte p -> byte x -> byte y -> 128 <= x - y -> (length p < n)%nat ->
  exists v, memcmp (p ++ x :: s) (p ++ y :: t) n = Ok v /\ v < 0.
Proof.
  unfold byte. intros Hp Hx Hy Hxy. revert n. induction Hp as [|c p Hc Hp IH]; intros [|n] Hn; simpl in *; try lia.
  - assert (schar (x - y) = x - y - 256) as ->.
    { unfold schar, sgn. change (2 ^ 8) with 256. change (2 ^ (8 - 1)) with 128.
      rewrite Z.mod_small by lia. destruct (Z.ltb_spec (x - y) 128); lia. }
    destruct (Z.eqb_spec (x - y - 256) 0); [lia|]. eexists. split; [done|lia].
  - rewrite Z.sub_diag. change (schar 0) with 0. simpl. apply IH. lia.
Qed.

Lemma memcmp_order_inverted_witness :
  exists v, memcmp [7; 200; 1] [7; 10; 2] 3 = Ok v /\ v < 0.
Proof. apply (memcmp_order_inverted [7] 200 10 [1] [2] 3); unfold byte; simpl; try lia; repeat constructor; lia. Defined.

(** [strcpy] writes the string and its terminator and nothing else, and
    runs out of the destination exactly when it has no room for them; [strcat]
    appends; [strncpy] copies at most [n] bytes and leaves the rest of the
    destination alone: no terminator when the string has [n] or more characters,
    and no zero padding when it has fewer. *)
Lemma string_copy dest d dr s r n :
  nonzero s -> nonzero d -> (length s <= length dr)%nat -> (n <= length dest)%nat ->
  strcpy dest (s ++ 0 :: r) =
    (if decide (length s < length dest)%nat then Ok (s ++ 0 :: drop (S (length s)) dest) else Bug BAD_ACCESS) /\
  strcat (d ++ 0 :: dr) (s ++ 0 :: r) = Ok (d ++ s ++ 0 :: drop (length s) dr) /\
  strncpy dest (s ++ 0 :: r) n =
    Ok (if decide (length s < n)%nat then s ++ 0 :: drop (S (length s)) dest else take n s ++ drop n dest).
Proof. intros. split_and!; [by apply strcpy_spec|by apply strcat_spec|by apply strncpy_spec]. Qed.

Lemma string_copy_witness :
  strncpy [9; 9; 9; 9; 9] (cstr "ab") 5 = Ok [97; 98; 0; 9; 9] /\
  strncpy [9; 9; 9] (cstr "abcd") 2 = Ok [97; 98; 9].
Proof.
  split.
  - apply (string_copy [9; 9; 9; 9; 9] [] [0; 0] (str "ab") [] 5); [repeat constructor; simpl; lia|constructor|simpl; lia..].
  - apply (string_copy [9; 9; 9] [] [0; 0; 0; 0] (str "abcd") [] 2); [repeat constructor; simpl; lia|constructor|simpl; lia..].
Defined.

(** [num_option] returns the decimal number after the first occurrence of
    [option=] on the command line, up to the next space or the end, when it fits
    an [int]; it returns -1 when the option does not occur. *)
Lemma num_option_value pre opt ds suf :
  nonzero (pre ++ opt ++ 61 :: ds ++ suf) -> Z.of_nat (length (pre ++ opt ++ 61 :: ds ++ suf)) < 2 ^ 31 ->
  Forall (fun c => 48 <= c <= 57) ds -> dec_value ds < 2 ^ 31 -> suf = [] \/ hd_error suf = Some 32 ->
  first_occurrence (pre ++ opt ++ 61 :: ds ++ suf) opt pre (61 :: ds ++ suf) ->
  num_option ((pre ++ opt ++ 61 :: ds ++ suf) ++ [0]) (opt ++ [0]) = Ok (dec_value ds) /\
  forall cmd, nonzero cmd -> Z.of_nat (length cmd) < 2 ^ 31 -> (forall p s, cmd <> p ++ opt ++ s) ->
    num_option (cmd ++ [0]) (opt ++ [0]) = Ok (-1).
Proof.
  intros Hnz Hlen Hd Hv Hsuf Hocc.
  assert (nonzero opt) as Hopt by (apply Forall_app in Hnz as [_ Hnz]; by apply Forall_app in Hnz as [? _]).
  assert (Z.of_nat (length opt) < 2 ^ 31) as Hlo by (rewrite !length_app in Hlen; lia).
  split.
  - unfold num_option.
    destruct (strstr_spec _ opt [] [] Hnz Hopt) as [(pre' & suf' & Hocc' & ->)|[Hno _]];
      [constructor|constructor|done|done| |by destruct Hocc as [Ho _]; apply Hno in Ho].
    destruct (first_occurrence_eq _ _ _ _ _ _ Hocc Hocc') as [<- <-].
    cbn [mbind res_bind]. rewrite strlen_spec by done. cbn [mbind res_bind].
    rewrite Nat2Z.id, drop_app_length. cbn [app]. rewrite Z.eqb_refl, <- app_assoc.
    destruct suf as [|c suf]; cbn [app].
    + apply option_digits_spec; [done|lia|by left|done].
    + apply option_digits_spec; [done|lia| |done]. right. destruct Hsuf as [|Hsuf]; [done|]. by injection Hsuf.
  - intros cmd Hc Hlc Hno. unfold num_option.
    destruct (strstr_spec cmd opt [] [] Hc Hopt) as [(p & s & [Ho _] & _)|[_ ->]];
      [constructor|constructor|done|done|by apply Hno in Ho|done].
Qed.

Lemma num_option_value_witness :
  num_option (cstr "-x -XX:GUKMS=15 y") (cstr "-XX:GUKMS") = Ok 15.
Proof.
  refine (proj1 (num_option_value (str "-x ") (str "-XX:GUKMS") (str "15") (str " y") _ _ _ _ _ _));
    [decides|decides|decides|decides|by right|].
  split; [done|]. intros [|? [|? [|? pre']]] suf Heq; simpl in *; try lia; discriminate Heq.
Defined.

(** On ASCII the character table of [ctype.h] gives the usual classes, and
    [toupper] and [tolower] change exactly the letters of the other case. *)
Lemma ctype_ascii c :
  0 <= c < 128 ->
  isdigit c = (48 <=? c) && (c <=? 57) /\
  isupper c = (65 <=? c) && (c <=? 90) /\
  islower c = (97 <=? c) && (c <=? 122) /\
  isxdigit c = (48 <=? c) && (c <=? 57) || (65 <=? c) && (c <=? 70) || (97 <=? c) && (c <=? 102) /\
  isspace c = (c =? 32) || (9 <=? c) && (c <=? 13) /\
  toupper c = (if (97 <=? c) && (c <=? 122) then c - 32 else c) /\
  tolower c = (if (65 <=? c) && (c <=? 90) then c + 32 else c).
Proof.
  intros Hc.
  pose proof (byte_forall (fun c => (128 <=? c) ||
    eqb (isdigit c) ((48 <=? c) && (c <=? 57)) && eqb (isupper c) ((65 <=? c) && (c <=? 90)) &&
    eqb (islower c) ((97 <=? c) && (c <=? 122)) &&
    eqb (isxdigit c) ((48 <=? c) && (c <=? 57) || (65 <=? c) && (c <=? 70) || (97 <=? c) && (c <=? 102)) &&
    eqb (isspace c) ((c =? 32) || (9 <=? c) && (c <=? 13)) &&
    (toupper c =? (if (97 <=? c) && (c <=? 122) then c - 32 else c)) &&
    (tolower c =? (if (65 <=? c) && (c <=? 90) then c + 32 else c))) ltac:(vm_compute; reflexivity) c
    ltac:(unfold byte; lia)) as H.
  cbv beta in H. apply orb_prop in H as [H|H]; [bool_hyps; lia|].
  repeat (apply andb_prop in H; destruct H as [H ?]).
  split_and!; first [by apply eqb_prop|by apply Z.eqb_eq].
Qed.

Lemma ctype_ascii_witness : isxdigit 70 = true.
Proof. by destruct (ctype_ascii 70 ltac:(lia)) as (_ & _ & _ & H & _). Defined.
