(* ===== verification/Printf.v ===== *)
(** Formatted output and input ([lib/printf.c]).

    Strings are byte lists as in [CString].  The output routines write through
    [if (str <= end) *str = c; ++str;], which is [emit] of a small state monad
    [fm] over the buffer, the write position and the stores made by [%n]; the
    environment holds the addresses of the buffer and of its end.  A variable
    argument is a 64-bit slot, possibly the address of a string or of a variable
    to be stored to; [va_arg] of a narrower type reads the low bits. *)

From Stdlib Require Import String.
From S2P Require Import Prelude Bitmap CString.
Open Scope Z_scope.
Open Scope list_scope.

(** ** Numbers from strings *)

(** The digit loop shared by the conversions; the rest of the string is where
    [endp] points. *)
Fixpoint strtoul_digits (cp : list Z) (base result : Z) : res (Z * list Z) :=
  match cp with
  | c :: cp' =>
      let value := if isdigit c then c - 48 else toupper c - 65 + 10 in
      if isxdigit c && (wrap64 value <? base)
      then strtoul_digits cp' base (wrap64 (result * base + value))
      else Ok (result, cp)
  | [] => Bug BAD_ACCESS
  end.

Definition peek (s : list Z) : res Z := access (head s).

(** The choice of the base and the prefix it skips. *)
Definition strtoul_base (cp : list Z) (base : Z) : res (Z * list Z) :=
  if base =? 0 then
    c ← peek cp;
    if c =? 48 then
      let cp := tail cp in
      c ← peek cp;
      if c =? 120 then
        c1 ← peek (tail cp);
        if isxdigit c1 then Ok (16, tail cp) else Ok (8, cp)
      else Ok (8, cp)
    else Ok (10, cp)
  else Ok (base, cp).

Definition simple_strtoul (cp : list Z) (base : Z) : res (Z * list Z) :=
  '(base, cp) ← strtoul_base cp base;
  strtoul_digits cp base 0.

Definition simple_strtol (cp : list Z) (base : Z) : res (Z * list Z) :=
  c ← peek cp;
  if c =? 45 then
    '(v, r) ← simple_strtoul (tail cp) base; Ok (sgn 64 (- v), r)
  else
    '(v, r) ← simple_strtoul cp base; Ok (sgn 64 v, r).

(** The same loop with the upper case conversion written out. *)
Fixpoint strtoull_digits (cp : list Z) (base result : Z) : res (Z * list Z) :=
  match cp with
  | c :: cp' =>
      let value := if isdigit c then c - 48 else (if islower c then toupper c else schar c) - 65 + 10 in
      if isxdigit c && (wrap64 value <? base)
      then strtoull_digits cp' base (wrap64 (result * base + value))
      else Ok (result, cp)
  | [] => Bug BAD_ACCESS
  end.

Definition simple_strtoull (cp : list Z) (base : Z) : res (Z * list Z) :=
  '(base, cp) ← strtoul_base cp base;
  strtoull_digits cp base 0.

Definition simple_strtoll (cp : list Z) (base : Z) : res (Z * list Z) :=
  c ← peek cp;
  if c =? 45 then
    '(v, r) ← simple_strtoull (tail cp) base; Ok (sgn 64 (- v), r)
  else
    '(v, r) ← simple_strtoull cp base; Ok (sgn 64 v, r).

Fixpoint skip_atoi (s : list Z) (i : Z) : res (Z * list Z) :=
  match s with
  | c :: s' => if isdigit c then skip_atoi s' (sgn32 (i * 10 + c - 48)) else Ok (i, s)
  | [] => Bug BAD_ACCESS
  end.

(** ** The output monad *)

Record pst := PSt {
  p_buf : list Z;             (** the bytes of the buffer's object *)
  p_str : Z;                  (** [str - buf] *)
  p_stores : list (Z * Z)     (** stores of [%n]: address, value *)
}.

(** Addresses of the buffer and of its last byte. *)
Record penv := PEnv { e_buf : Z; e_end : Z }.

Definition fm (X : Type) : Type := penv -> pst -> res (X * pst).

Global Instance fm_ret : MRet fm := fun X x => fun _ st => Ok (x, st).
Global Instance fm_bind : MBind fm := fun X Y f m => fun env st =>
  match m env st with
  | Ok (x, st) => f x env st
  | Bug b => Bug b
  | Fuel => Fuel
  end.

Definition lift {X} (m : res X) : fm X := fun _ st => match m with Ok x => Ok (x, st) | Bug b => Bug b | Fuel => Fuel end.

(** [if (str <= end) *str = c; ++str;] *)
Definition emit (c : Z) : fm () := fun env st =>
  if e_buf env + p_str st <=? e_end env then
    match wr (p_buf st) (p_str st) c with
    | Ok b => Ok ((), PSt b (p_str st + 1) (p_stores st))
    | Bug b => Bug b
    | Fuel => Fuel
    end
  else Ok ((), PSt (p_buf st) (p_str st + 1) (p_stores st)).

(** [*ip = (str - buf)] *)
Definition store_pos (addr : Z) (conv : Z -> Z) : fm () := fun _ st =>
  Ok ((), PSt (p_buf st) (p_str st) (p_stores st ++ [(addr, conv (p_str st))])).

Fixpoint emit_all (cs : list Z) : fm () :=
  match cs with
  | [] => mret ()
  | c :: cs => _ ← emit c; emit_all cs
  end.

Definition emits (n : Z) (c : Z) : fm () := emit_all (replicate (Z.to_nat n) c).

(** ** Number formatting *)

Definition ZEROPAD : Z := 1.
Definition SIGN : Z := 2.
Definition PLUS : Z := 4.
Definition SPACE : Z := 8.
Definition LEFT : Z := 16.
Definition SPECIAL : Z := 32.
Definition LARGE : Z := 64.

Definition has (flags f : Z) : bool := negb (Z.land flags f =? 0).

Definition small_digits : list Z := str "0123456789abcdefghijklmnopqrstuvwxyz".
Definition large_digits : list Z := str "0123456789ABCDEFGHIJKLMNOPQRSTUVWXYZ".

(** [while (num2 != 0) { tmp[i++] = digits[num2 % base2]; num2 /= base2; }],
    with [char tmp[66]]. *)
Fixpoint digits_loop (fuel : nat) (digits tmp : list Z) (num2 base2 : Z) : res (list Z) :=
  if num2 =? 0 then Ok tmp else
  match fuel with
  | O => Fuel
  | S fuel =>
      d ← access (digits !! Z.to_nat (num2 mod base2));
      if 66 <=? Z.of_nat (length tmp) then Bug BAD_ACCESS else
      digits_loop fuel digits (tmp ++ [d]) (num2 / base2) base2
  end.

(** [while (size-- > 0) emit(c)]: returns the final [size]. *)
Definition pad_while (size c : Z) : fm Z :=
  _ ← emits size c;
  mret (if 0 <? size then -1 else sgn32 (size - 1)).

Definition number (num base size precision type : Z) : fm () :=
  let digits := if has type LARGE then large_digits else small_digits in
  let type := if has type LEFT then Z.land type (Z.lnot ZEROPAD) else type in
  if (base <? 2) || (36 <? base) then mret () else
  let c := if has type ZEROPAD then 48 else 32 in
  let '(sign, num, size) :=
    if has type SIGN then
      if num <? 0 then (45, sgn 64 (- num), sgn32 (size - 1))
      else if has type PLUS then (43, num, sgn32 (size - 1))
      else if has type SPACE then (32, num, sgn32 (size - 1))
      else (0, num, size)
    else (0, num, size) in
  let size :=
    if has type SPECIAL then
      if base =? 16 then sgn32 (size - 2)
      else if base =? 8 then sgn32 (size - 1) else size
    else size in
  tmp ← lift (if num =? 0 then Ok [48] else digits_loop 64 digits [] (wrap64 num) base);
  let i := Z.of_nat (length tmp) in
  let precision := if precision <? i then i else precision in
  let size := sgn32 (size - precision) in
  size ← (if has type (ZEROPAD + LEFT) then mret size else pad_while size 32);
  _ ← (if sign =? 0 then mret () else emit sign);
  _ ← (if has type SPECIAL then
         if base =? 8 then emit 48
         else if base =? 16 then
           _ ← emit 48;
           d ← lift (access (digits !! 33%nat));
           emit d
         else mret ()
       else mret ());
  size ← (if has type LEFT then mret size else pad_while size c);
  _ ← emits (precision - i) 48;
  _ ← emit_all (rev tmp);
  _ ← pad_while size 32;
  mret ().

(** ** Format directives *)

(** A variable argument: an integer (the null pointer is [ANum 0]), the address
    of a string with the bytes found there, the address of a variable. *)
Inductive arg :=
| ANum (v : Z)
| AStr (addr : Z) (s : list Z)
| ARef (addr : Z).

Definition slot (a : arg) : Z := match a with ANum v => v | AStr v _ => v | ARef v => v end.

Definition va_arg (args : list arg) : res (arg * list arg) :=
  match args with a :: args => Ok (a, args) | [] => Bug BAD_ACCESS end.

(** The [repeat:] loop, entered after the [%]. *)
Fixpoint parse_flags (fmt : list Z) (flags : Z) : res (Z * list Z) :=
  match fmt with
  | c :: fmt' =>
      if c =? 45 then parse_flags fmt' (Z.lor flags LEFT)
      else if c =? 43 then parse_flags fmt' (Z.lor flags PLUS)
      else if c =? 32 then parse_flags fmt' (Z.lor flags SPACE)
      else if c =? 35 then parse_flags fmt' (Z.lor flags SPECIAL)
      else if c =? 48 then parse_flags fmt' (Z.lor flags ZEROPAD)
      else Ok (flags, fmt)
  | [] => Bug BAD_ACCESS
  end.

Definition parse_width (fmt : list Z) (flags : Z) (args : list arg) : res (Z * Z * list Z * list arg) :=
  c ← peek fmt;
  if isdigit c then
    '(w, fmt) ← skip_atoi fmt 0; Ok (w, flags, fmt, args)
  else if c =? 42 then
    '(a, args) ← va_arg args;
    let w := sgn32 (slot a) in
    if w <? 0 then Ok (sgn32 (- w), Z.lor flags LEFT, tail fmt, args)
    else Ok (w, flags, tail fmt, args)
  else Ok (-1, flags, fmt, args).

Definition parse_precision (fmt : list Z) (args : list arg) : res (Z * list Z * list arg) :=
  c ← peek fmt;
  if c =? 46 then
    let fmt := tail fmt in
    c ← peek fmt;
    '(p, fmt, args) ←
      (if isdigit c then '(p, fmt) ← skip_atoi fmt 0; Ok (p, fmt, args)
       else if c =? 42 then '(a, args) ← va_arg args; Ok (sgn32 (slot a), tail fmt, args)
       else Ok (-1, fmt, args));
    Ok (if p <? 0 then 0 else p, fmt, args)
  else Ok (-1, fmt, args).

(** The qualifier is [-1] or the character [h], [l], [L] or [Z]. *)
Definition parse_qualifier (fmt : list Z) : res (Z * list Z) :=
  c ← peek fmt;
  '(q, fmt) ←
    (if (c =? 104) || (c =? 108) || (c =? 76) || (c =? 90) then
       let fmt := tail fmt in
       c' ← peek fmt;
       if (c =? 108) && (c' =? 108) then Ok (76, tail fmt) else Ok (c, fmt)
     else Ok (-1, fmt));
  c ← peek fmt;
  if c =? 113 then Ok (76, tail fmt) else Ok (q, fmt).

Record spec := Spec { sp_flags : Z; sp_width : Z; sp_precision : Z; sp_qualifier : Z }.

(** Everything between the [%] and the conversion character. *)
Definition parse_spec (fmt : list Z) (args : list arg) : res (spec * list Z * list arg) :=
  '(flags, fmt) ← parse_flags fmt 0;
  '(width, flags, fmt, args) ← parse_width fmt flags args;
  '(precision, fmt, args) ← parse_precision fmt args;
  '(qualifier, fmt) ← parse_qualifier fmt;
  Ok (Spec flags width precision qualifier, fmt, args).

(** [while (--field_width > 0) emit(' ')]: returns the final [field_width]. *)
Definition pad_char (field_width : Z) : fm Z :=
  let w := sgn32 (field_width - 1) in
  _ ← emits w 32;
  mret (if 0 <? w then 0 else w).

Definition convert_c (flags field_width : Z) (args : list arg) : fm (list arg) :=
  field_width ← (if has flags LEFT then mret field_width else pad_char field_width);
  '(a, args) ← lift (va_arg args);
  _ ← emit (wrap 8 (slot a));
  _ ← pad_char field_width;
  mret args.

(** [for (i = 0; i < len; ++i) { emit(s[0]); ++s; }] *)
Fixpoint emit_string (len : nat) (s : list Z) : fm () :=
  match len with
  | O => mret ()
  | S len =>
      match s with
      | c :: s => _ ← emit c; emit_string len s
      | [] => lift (Bug BAD_ACCESS)
      end
  end.

(** [while (len < field_width--) emit(' ')]: returns the final [field_width]. *)
Definition pad_string (len field_width : Z) : fm Z :=
  _ ← emits (field_width - len) 32;
  mret (sgn32 ((if len <? field_width then len else field_width) - 1)).

Definition convert_s (flags field_width precision : Z) (args : list arg) : fm (list arg) :=
  '(a, args) ← lift (va_arg args);
  s ← lift match a with
           | AStr _ s => Ok s
           | ANum v => if wrap64 v =? 0 then Ok (cstr "<NULL>") else Bug BAD_ACCESS
           | ARef _ => Bug BAD_ACCESS
           end;
  n ← lift (strnlen s (wrap64 precision));
  let len := sgn32 n in
  field_width ← (if has flags LEFT then mret field_width else pad_string len field_width);
  _ ← emit_string (Z.to_nat len) s;
  _ ← pad_string len field_width;
  mret args.

Definition convert_n (qualifier : Z) (args : list arg) : fm (list arg) :=
  '(a, args) ← lift (va_arg args);
  match a with
  | ARef addr =>
      _ ← (if qualifier =? 108 then store_pos addr (fun x => x)
           else if qualifier =? 90 then store_pos addr wrap64
           else store_pos addr sgn32);
      mret args
  | _ => lift (Bug BAD_ACCESS)
  end.

(** [num], an [unsigned long long]. *)
Definition int_arg (qualifier flags v : Z) : Z :=
  if qualifier =? 76 then wrap64 v
  else if qualifier =? 108 then wrap64 v
  else if qualifier =? 90 then wrap64 v
  else if qualifier =? 104 then
    if has flags SIGN then wrap64 (sgn 16 v) else wrap 16 v
  else if has flags SIGN then wrap64 (sgn32 v) else wrap32 v.

Definition convert_int (base flags : Z) (sp : spec) (args : list arg) : fm (list arg) :=
  '(a, args) ← lift (va_arg args);
  _ ← number (sgn 64 (int_arg (sp_qualifier sp) flags (slot a))) base (sp_width sp) (sp_precision sp) flags;
  mret args.

(** The switch on the conversion character; [fmt] points at it, the result at
    the character the loop goes on with. *)
Definition convert (sp : spec) (fmt : list Z) (args : list arg) : fm (list Z * list arg) :=
  let flags := sp_flags sp in
  c ← lift (peek fmt);
  if c =? 99 then args ← convert_c flags (sp_width sp) args; mret (tail fmt, args)
  else if c =? 115 then
    args ← convert_s flags (sp_width sp) (sp_precision sp) args; mret (tail fmt, args)
  else if c =? 112 then
    let '(width, flags) :=
      if sp_width sp =? -1 then (16, Z.lor flags ZEROPAD) else (sp_width sp, flags) in
    '(a, args) ← lift (va_arg args);
    _ ← number (sgn 64 (slot a)) 16 width (sp_precision sp) flags;
    mret (tail fmt, args)
  else if c =? 110 then args ← convert_n (sp_qualifier sp) args; mret (tail fmt, args)
  else if c =? 37 then _ ← emit 37; mret (tail fmt, args)
  else if c =? 111 then args ← convert_int 8 flags sp args; mret (tail fmt, args)
  else if c =? 88 then args ← convert_int 16 (Z.lor flags LARGE) sp args; mret (tail fmt, args)
  else if c =? 120 then args ← convert_int 16 flags sp args; mret (tail fmt, args)
  else if (c =? 100) || (c =? 105) then
    args ← convert_int 10 (Z.lor flags SIGN) sp args; mret (tail fmt, args)
  else if c =? 117 then args ← convert_int 10 flags sp args; mret (tail fmt, args)
  else
    _ ← emit 37;
    if c =? 0 then mret (fmt, args)
    else _ ← emit c; mret (tail fmt, args).

Fixpoint format_loop (fuel : nat) (fmt : list Z) (args : list arg) : fm () :=
  c ← lift (peek fmt);
  if c =? 0 then mret () else
  match fuel with
  | O => lift Fuel
  | S fuel =>
      if c =? 37 then
        '(sp, fmt, args) ← lift (parse_spec (tail fmt) args);
        '(fmt, args) ← convert sp fmt args;
        format_loop fuel fmt args
      else
        _ ← emit c;
        format_loop fuel (tail fmt) args
  end.

(** [end] and the corrected [size] for a buffer at address [buf]. *)
Definition buffer_end (buf size : Z) : Z * Z :=
  let e := wrap64 (buf + size - 1) in
  if e <? wrap64 (buf - 1) then (2 ^ 64 - 1, wrap64 (2 ^ 64 - 1 - buf + 1)) else (e, size).

(** Returns the result, the new contents of the buffer and the stores of [%n]. *)
Definition vsnprintf (buf : Z) (contents : list Z) (size : Z) (fmt : list Z) (args : list arg)
    : res (Z * list Z * list (Z * Z)) :=
  let '(e, size) := buffer_end buf size in
  '(_, st) ← format_loop (length fmt) fmt args (PEnv buf e) (PSt contents 0 []);
  contents ←
    (if buf + p_str st <=? e then wr (p_buf st) (p_str st) 0
     else if 0 <? size then wr (p_buf st) (e - buf) 0
     else Ok (p_buf st));
  Ok (sgn32 (p_str st), contents, p_stores st).

Definition vsprintf (buf : Z) (contents : list Z) (fmt : list Z) (args : list arg) :=
  vsnprintf buf contents (2 ^ 32 - 1) fmt args.

Definition snprintf (buf : Z) (contents : list Z) (size : Z) (fmt : list Z) (args : list arg) :=
  vsnprintf buf contents size fmt args.

Definition sprintf (buf : Z) (contents : list Z) (fmt : list Z) (args : list arg) :=
  vsprintf buf contents fmt args.

(** ** Formatted input *)

(** What [sscanf] stores through its pointer arguments. *)
Inductive sval :=
| VNum (v : Z)
| VBytes (s : list Z).

Fixpoint skip_space (s : list Z) : res (list Z) :=
  match s with
  | c :: s' => if isspace c then skip_space s' else Ok s
  | [] => Bug BAD_ACCESS
  end.

Fixpoint skip_nonspace (s : list Z) : res (list Z) :=
  match s with
  | c :: s' => if negb (isspace c) && negb (c =? 0) then skip_nonspace s' else Ok s
  | [] => Bug BAD_ACCESS
  end.

(** [do { s[0] = str[0]; ++s; ++str; } while (--field_width > 0 && str[0]);] *)
Fixpoint scan_chars (str : list Z) (field_width : Z) : res (list Z * list Z) :=
  match str with
  | c :: str' =>
      if 0 <? field_width - 1 then
        c' ← peek str';
        if c' =? 0 then Ok ([c], str') else
        '(cs, r) ← scan_chars str' (field_width - 1); Ok (c :: cs, r)
      else Ok ([c], str')
  | [] => Bug BAD_ACCESS
  end.

(** [while (str[0] && !isspace(str[0]) && field_width--) copy] *)
Fixpoint scan_word (str : list Z) (field_width : Z) : res (list Z * list Z) :=
  match str with
  | c :: str' =>
      if negb (c =? 0) && negb (isspace c) && negb (field_width =? 0) then
        '(cs, r) ← scan_word str' (field_width - 1); Ok (c :: cs, r)
      else Ok ([], str)
  | [] => Bug BAD_ACCESS
  end.

Definition INT_MAX : Z := 2 ^ 31 - 1.

(** The qualifier is [-1] or [h], [H] (for hh), [l], [L] (also for ll), [Z], [z]. *)
Definition scan_qualifier (fmt : list Z) : res (Z * list Z) :=
  c ← peek fmt;
  if (c =? 104) || (c =? 108) || (c =? 76) || (c =? 90) || (c =? 122) then
    let fmt := tail fmt in
    c' ← peek fmt;
    if c =? c' then
      if c =? 104 then Ok (72, tail fmt)
      else if c =? 108 then Ok (76, tail fmt)
      else Ok (c, fmt)
    else Ok (c, fmt)
  else Ok (-1, fmt).

(** The digit test before a number is read. *)
Definition scan_digit_ok (base digit : Z) : bool :=
  negb ((digit =? 0)
        || ((base =? 16) && negb (isxdigit digit))
        || ((base =? 10) && negb (isdigit digit))
        || ((base =? 8) && (negb (isdigit digit) || (55 <? digit)))
        || ((base =? 0) && negb (isdigit digit))).

(** The value stored and the rest of the input. *)
Definition scan_number (qualifier base : Z) (is_sign : bool) (str : list Z) : res (Z * list Z) :=
  if qualifier =? 72 then
    if is_sign then '(v, r) ← simple_strtol str base; Ok (sgn 8 v, r)
    else '(v, r) ← simple_strtoul str base; Ok (wrap 8 v, r)
  else if qualifier =? 104 then
    if is_sign then '(v, r) ← simple_strtol str base; Ok (sgn 16 v, r)
    else '(v, r) ← simple_strtoul str base; Ok (wrap 16 v, r)
  else if qualifier =? 108 then
    if is_sign then simple_strtol str base else simple_strtoul str base
  else if qualifier =? 76 then
    if is_sign then simple_strtoll str base else simple_strtoull str base
  else if (qualifier =? 90) || (qualifier =? 122) then simple_strtoul str base
  else
    if is_sign then '(v, r) ← simple_strtol str base; Ok (sgn32 v, r)
    else '(v, r) ← simple_strtoul str base; Ok (wrap32 v, r).

(** An integer conversion: [None] when the input has no number here. *)
Definition scan_int (qualifier base : Z) (is_sign : bool) (str : list Z) : res (option (Z * list Z)) :=
  str ← skip_space str;
  c ← peek str;
  digit ← (if is_sign && (c =? 45) then peek (tail str) else Ok c);
  if scan_digit_ok base digit then
    '(v, r) ← scan_number qualifier base is_sign str; Ok (Some (v, r))
  else Ok None.

(** One conversion; [fmt] points after the conversion character [c].  The result
    is the input left, the arguments left, the number of conversions done and
    the stores made, or [None] when scanning stops here. *)
Definition scan_conv (total : Z) (c qualifier field_width : Z) (str : list Z) (args : list arg)
    : res (option (list Z * list arg * Z * list (Z * sval))) :=
  let int base is_sign :=
    r ← scan_int qualifier base is_sign str;
    match r with
    | None => Ok None
    | Some (v, str) => '(a, args) ← va_arg args; Ok (Some (str, args, 1, [(slot a, VNum v)]))
    end in
  if c =? 99 then
    '(a, args) ← va_arg args;
    '(cs, str) ← scan_chars str (if field_width =? -1 then 1 else field_width);
    Ok (Some (str, args, 1, [(slot a, VBytes cs)]))
  else if c =? 115 then
    '(a, args) ← va_arg args;
    str ← skip_space str;
    '(cs, str) ← scan_word str (if field_width =? -1 then INT_MAX else field_width);
    Ok (Some (str, args, 1, [(slot a, VBytes (cs ++ [0]))]))
  else if c =? 110 then
    '(a, args) ← va_arg args;
    Ok (Some (str, args, 0, [(slot a, VNum (sgn32 (total - Z.of_nat (length str))))]))
  else if c =? 111 then int 8 false
  else if (c =? 120) || (c =? 88) then int 16 false
  else if c =? 105 then int 0 true
  else if c =? 100 then int 10 true
  else if c =? 117 then int 10 false
  else if c =? 37 then
    c' ← peek str;
    if c' =? 37 then Ok (Some (tail str, args, 0, [])) else Ok None
  else Ok None.

(** [total] is the length of the whole input, [num] the conversions so far. *)
Fixpoint scan_loop (fuel : nat) (total : Z) (fmt str : list Z) (args : list arg)
    (num : Z) (outs : list (Z * sval)) : res (Z * list (Z * sval)) :=
  cf ← peek fmt;
  if cf =? 0 then Ok (num, outs) else
  cs ← peek str;
  if cs =? 0 then Ok (num, outs) else
  match fuel with
  | O => Fuel
  | S fuel =>
      '(fmt, str) ←
        (if isspace cf then f ← skip_space fmt; s ← skip_space str; Ok (f, s) else Ok (fmt, str));
      cf ← peek fmt;
      if negb (cf =? 37) && negb (cf =? 0) then
        cs ← peek str;
        if cf =? cs then scan_loop fuel total (tail fmt) (tail str) args num outs else Ok (num, outs)
      else if cf =? 0 then Ok (num, outs) else
      let fmt := tail fmt in
      cf ← peek fmt;
      if cf =? 42 then
        fmt ← skip_nonspace fmt;
        str ← skip_nonspace str;
        scan_loop fuel total fmt str args num outs
      else
      '(field_width, fmt) ← (if isdigit cf then skip_atoi fmt 0 else Ok (-1, fmt));
      '(qualifier, fmt) ← scan_qualifier fmt;
      cf ← peek fmt;
      cs ← peek str;
      if (cf =? 0) || (cs =? 0) then Ok (num, outs) else
      r ← scan_conv total cf qualifier field_width str args;
      match r with
      | None => Ok (num, outs)
      | Some (str, args, k, stores) =>
          scan_loop fuel total (tail fmt) str args (sgn32 (num + k)) (outs ++ stores)
      end
  end.

Definition vsscanf (buf fmt : list Z) (args : list arg) : res (Z * list (Z * sval)) :=
  scan_loop (length fmt) (Z.of_nat (length buf)) fmt buf args 0 [].

Definition sscanf (buf fmt : list Z) (args : list arg) := vsscanf buf fmt args.

Example sscanf_demo :
  vsscanf (cstr "vbd 51712 -7 ff tail") (cstr "%s %d %li %x") [ARef 1; ARef 2; ARef 3; ARef 4] =
  Ok (4, [(1, VBytes (cstr "vbd")); (2, VNum 51712); (3, VNum (-7)); (4, VNum 255)]).
Proof. reflexivity. Qed.

Example sprintf_demo :
  vsnprintf 4096 (replicate 30 9) 30 (cstr "%5d|%-5x|%05u|%#X|%s%%")
    [ANum (-42); ANum 255; ANum 7; ANum 255; AStr 64 (cstr "hi")] =
  Ok (26, cstr "  -42|ff   |00007|0XFF|hi%" ++ [9; 9; 9], []).
Proof. reflexivity. Qed.
