(* ===== verification/PrintfProps.v ===== *)
(** Properties of formatted output and input: what [vsnprintf] writes and
    returns for every format, the number conversions, and the round trips
    between them. *)

From Stdlib Require Import String.
From S2P Require Import Prelude Bitmap CString Printf.
Open Scope Z_scope.
Open Scope list_scope.

(** ** Output actions

    Every output routine is a fixed sequence of actions, whatever the buffer. *)

Inductive act :=
| AEmit (c : Z)
| AStore (addr : Z) (conv : Z -> Z).

Fixpoint run (acts : list act) : fm () :=
  match acts with
  | [] => mret ()
  | AEmit c :: acts => _ ← emit c; run acts
  | AStore addr conv :: acts => _ ← store_pos addr conv; run acts
  end.

(** The same actions for every buffer, then a result or a stop. *)
Definition uniform {X} (Q : X -> Prop) (m : fm X) : Prop :=
  exists acts (out : X + bug), match out with inl x => Q x | inr _ => True end /\
  forall env st, m env st =
    (_ ← run acts; match out with inl x => mret x | inr b => lift (Bug b) end) env st.

Abbreviation uniform_any := (uniform (fun _ => True)).

Lemma run_app a1 a2 env st : run (a1 ++ a2) env st = (_ ← run a1; run a2) env st.
Proof.
  revert st. induction a1 as [|[c|addr conv] a1 IH]; intros st; [done|..]; simpl.
  - unfold mbind, fm_bind. destruct (emit c env st) as [[[] st']| |]; [|done..]. rewrite IH. done.
  - unfold mbind, fm_bind, store_pos. rewrite IH. done.
Qed.

Lemma uniform_ret {X} (Q : X -> Prop) x : Q x -> uniform Q (mret x).
Proof. intros. exists [], (inl x). done. Qed.

Lemma uniform_lift {X} (Q : X -> Prop) (m : res X) :
  (forall x, m = Ok x -> Q x) -> m <> Fuel -> uniform Q (lift m).
Proof. intros HQ Hf. destruct m as [x|b|]; [exists [], (inl x)|exists [], (inr b)|]; naive_solver. Qed.

Lemma uniform_bind {X Y} (Q : X -> Prop) (R : Y -> Prop) (m : fm X) (f : X -> fm Y) :
  uniform Q m -> (forall x, Q x -> uniform R (f x)) -> uniform R (m ≫= f).
Proof.
  intros (a1 & [x|b] & HQ & Hm) Hf.
  - destruct (Hf x HQ) as (a2 & out & HR & Hfx). exists (a1 ++ a2), out. split; [done|]. intros env st.
    unfold mbind, fm_bind in *. rewrite run_app, Hm. unfold mbind, fm_bind.
    destruct (run a1 env st) as [[[] st']| |]; [|done..]. simpl. apply Hfx.
  - exists a1, (inr b). split; [done|]. intros env st. unfold mbind, fm_bind in *. rewrite Hm.
    destruct (run a1 env st) as [[[] st']| |]; done.
Qed.

Lemma uniform_weaken {X} (Q R : X -> Prop) m : (forall x, Q x -> R x) -> uniform Q m -> uniform R m.
Proof. intros HQR (a & [x|b] & HQ & Hm); exists a; [exists (inl x)|exists (inr b)]; naive_solver. Qed.

Lemma uniform_emit c : uniform_any (emit c).
Proof.
  exists [AEmit c], (inl ()). split; [done|]. intros env st. simpl. unfold mbind, fm_bind.
  by destruct (emit c env st) as [[[] ?]| |].
Qed.

Lemma uniform_store addr conv : uniform_any (store_pos addr conv).
Proof. exists [AStore addr conv], (inl ()). done. Qed.

Lemma uniform_emit_all cs : uniform_any (emit_all cs).
Proof.
  induction cs as [|c cs IH]; [by apply uniform_ret|]. eapply uniform_bind; [apply uniform_emit|done].
Qed.

Lemma uniform_if {X} (Q : X -> Prop) (b : bool) m1 m2 :
  uniform Q m1 -> uniform Q m2 -> uniform Q (if b then m1 else m2).
Proof. by destruct b. Qed.

Create HintDb uniform discriminated.
#[export] Hint Resolve uniform_emit uniform_store uniform_emit_all : uniform.

(** Decompose a routine into its actions. *)
Ltac uniform_step :=
  match goal with
  | |- uniform _ (mbind _ _) => eapply uniform_bind; [|intros ? ?]
  | |- uniform _ (mret _) => apply uniform_ret
  | |- uniform _ (if _ then _ else _) => apply uniform_if
  | |- uniform _ (let '_ := ?x in _) => destruct x
  | |- uniform _ _ => solve [eauto with uniform]
  end.

Lemma uniform_access {A} (o : option A) : uniform_any (lift (access o)).
Proof. apply uniform_lift; [done|by destruct o]. Qed.

#[export] Hint Resolve uniform_access : uniform.

Lemma uniform_emit_string len s : uniform_any (emit_string len s).
Proof.
  revert s. induction len as [|len IH]; intros [|c s]; simpl; repeat uniform_step; try done.
  - by apply uniform_lift.
Qed.

Lemma uniform_pad_while size c : uniform_any (pad_while size c).
Proof. unfold pad_while, emits. by repeat uniform_step. Qed.

Lemma uniform_pad_char w : uniform_any (pad_char w).
Proof. unfold pad_char, emits. cbv zeta. by repeat uniform_step. Qed.

Lemma uniform_pad_string len w : uniform_any (pad_string len w).
Proof. unfold pad_string, emits. by repeat uniform_step. Qed.

#[export] Hint Resolve uniform_emit_string uniform_pad_while uniform_pad_char uniform_pad_string : uniform.

(** ** Digits *)

(** The value of little-endian digits. *)
Definition le_value (base : Z) (vs : list Z) : Z := foldr (fun v acc => v + base * acc) 0 vs.

Lemma digits_loop_spec fuel digits tmp n base :
  2 <= base <= 36 -> length digits = 36%nat -> 0 <= n < base ^ Z.of_nat fuel ->
  (length tmp + fuel <= 66)%nat ->
  exists vs, digits_loop fuel digits tmp n base = Ok (tmp ++ ((fun v => digits !!! Z.to_nat v) <$> vs)) /\
    Forall (fun v => 0 <= v < base) vs /\ le_value base vs = n /\ (length vs <= fuel)%nat /\ (n <> 0 -> vs <> []).
Proof.
  intros Hb Hd. revert tmp n. induction fuel as [|fuel IH]; intros tmp n Hn Hl; simpl.
  - simpl in Hn. replace n with 0 by lia. exists []. rewrite app_nil_r. done.
  - destruct (Z.eqb_spec n 0) as [->|Hne].
    { exists []. rewrite app_nil_r. split_and!; try done. simpl. lia. }
    pose proof (Z.mod_pos_bound n base ltac:(lia)) as Hm.
    destruct (lookup_lt_is_Some_2 digits (Z.to_nat (n mod base))) as [d Hdd]; [lia|].
    rewrite Hdd. cbn [access mbind res_bind]. destruct (Z.leb_spec 66 (Z.of_nat (length tmp))); [lia|].
    destruct (IH (tmp ++ [d]) (n / base)) as (vs & Heq & Hvs & Hval & Hlen & _).
    { rewrite Nat2Z.inj_succ, Z.pow_succ_r in Hn by lia. split; [apply Z.div_pos; lia|].
      apply Z.div_lt_upper_bound; lia. }
    { rewrite length_app. simpl. lia. }
    exists (n mod base :: vs). split_and!; [|by constructor| |simpl; lia|done].
    + rewrite Heq, <- app_assoc. simpl. by rewrite (list_lookup_total_correct _ _ _ Hdd).
    + simpl. rewrite Hval. pose proof (Z.div_mod n base ltac:(lia)). lia.
Qed.

Definition digit_chars (type : Z) : list Z := if has type LARGE then large_digits else small_digits.

Lemma wrap64_signed n : - 2 ^ 63 <= n < 2 ^ 63 -> wrap64 n = if n <? 0 then n + 2 ^ 64 else n.
Proof.
  intros Hn. unfold wrap. destruct (Z.ltb_spec n 0).
  - rewrite <- (Z_mod_plus_full n 1). rewrite Z.mod_small; lia.
  - apply Z.mod_small. lia.
Qed.

Lemma number_digits n type base :
  2 <= base <= 36 -> - 2 ^ 63 <= n < 2 ^ 63 ->
  exists vs, (if n =? 0 then Ok [48] else digits_loop 64 (digit_chars type) [] (wrap64 n) base) =
    Ok ((fun v => digit_chars type !!! Z.to_nat v) <$> vs) /\
    Forall (fun v => 0 <= v < base) vs /\ le_value base vs = wrap64 n /\ (length vs <= 64)%nat /\ vs <> [].
Proof.
  intros Hb Hn. destruct (Z.eqb_spec n 0) as [->|Hne].
  - exists [0]. split_and!; [unfold digit_chars; by destruct (has type LARGE)| |unfold le_value; simpl; by rewrite Z.mul_0_r|simpl; lia|done].
    apply Forall_singleton. lia.
  - pose proof (wrap_range 64 n ltac:(lia)) as Hw.
    destruct (digits_loop_spec 64 (digit_chars type) [] (wrap64 n) base) as (vs & -> & Hvs & Hval & Hlen & Hnn);
      [lia| | |simpl; lia|].
    + unfold digit_chars. by destruct (has type LARGE).
    + split; [lia|]. eapply Z.lt_le_trans; [apply Hw|]. apply Z.pow_le_mono_l. lia.
    + exists vs. split_and!; try done. apply Hnn. rewrite wrap64_signed by done. destruct (Z.ltb_spec n 0); lia.
Qed.

Lemma sgn64_neg n : - 2 ^ 63 <= sgn 64 n < 2 ^ 63.
Proof. apply (sgn_range 64). lia. Qed.

(** The digits [number] computes never overrun its 66 byte buffer. *)
Lemma uniform_digits n type base :
  2 <= base <= 36 -> - 2 ^ 63 <= n < 2 ^ 63 ->
  uniform_any (lift (if n =? 0 then Ok [48] else digits_loop 64 (digit_chars type) [] (wrap64 n) base)).
Proof.
  intros Hb Hn. destruct (number_digits n type base Hb Hn) as (vs & -> & _). by apply uniform_lift.
Qed.

Lemma uniform_number num base size precision type :
  - 2 ^ 63 <= num < 2 ^ 63 -> uniform_any (number num base size precision type).
Proof.
  intros Hnum. unfold number. fold (digit_chars type).
  set (type' := if has type LEFT then _ else type). cbv zeta.
  destruct ((base <? 2) || (36 <? base)) eqn:Hb; [by apply uniform_ret|]. bool_hyps.
  match goal with |- uniform _ (let '_ := ?x in _) => destruct x as [[sign n] sz] eqn:Hs end.
  assert (- 2 ^ 63 <= n < 2 ^ 63) as Hn.
  { repeat case_match; simplify_eq; auto using sgn64_neg. }
  eapply uniform_bind; [apply uniform_digits; [lia|done]|intros tmp _].
  by repeat uniform_step.
Qed.

#[export] Hint Resolve uniform_number sgn64_neg : uniform.

(** ** Parsing the directives *)

(** A parser that stops at a later place of the format. *)
Definition later (fmt fmt' : list Z) : Prop := (length fmt' <= length fmt)%nat.

Lemma later_tail fmt : later fmt (tail fmt).
Proof. unfold later. destruct fmt; simpl; lia. Qed.

Lemma later_refl fmt : later fmt fmt.
Proof. unfold later. lia. Qed.

Lemma later_trans f1 f2 f3 : later f1 f2 -> later f2 f3 -> later f1 f3.
Proof. unfold later. lia. Qed.

#[export] Hint Resolve later_tail : uniform.

Definition advances {X} (m : res X) (fmt : list Z) (rest : X -> list Z) : Prop :=
  m <> Fuel /\ forall x, m = Ok x -> later fmt (rest x).

Lemma advances_ok {X} (x : X) fmt rest : later fmt (rest x) -> advances (Ok x) fmt rest.
Proof. intros H. split; [done|]. by intros ? [= <-]. Qed.

Lemma advances_bug {X} b fmt (rest : X -> list Z) : advances (Bug b) fmt rest.
Proof. done. Qed.

Lemma advances_bind {X Y} (m : res X) (f : X -> res Y) fmt rest rest' :
  advances m fmt rest -> (forall x, later fmt (rest x) -> advances (f x) (rest x) rest') ->
  advances (m ≫= f) fmt rest'.
Proof.
  intros [Hf Hm] Hk. destruct m as [x|b|]; [|done..]. simpl.
  destruct (Hk x (Hm x eq_refl)) as [H1 H2]. split; [done|]. intros y Hy. eapply later_trans; [|by apply H2].
  by apply Hm.
Qed.

Lemma advances_peek {Y} fmt (f : Z -> res Y) rest :
  (forall c, advances (f c) fmt rest) -> advances (peek fmt ≫= f) fmt rest.
Proof. intros Hk. unfold peek. destruct fmt; [done|]. simpl. apply Hk. Qed.

Lemma advances_weaken {X} (m : res X) fmt1 fmt2 rest : later fmt1 fmt2 -> advances m fmt2 rest -> advances m fmt1 rest.
Proof. intros Hl [H1 H2]. split; [done|]. intros x Hx. eapply later_trans; [done|auto]. Qed.

Lemma parse_flags_advances fmt flags : advances (parse_flags fmt flags) fmt snd.
Proof.
  revert flags. induction fmt as [|c fmt IH]; intros flags; simpl; [done|].
  repeat case_match; try (eapply (advances_weaken _ _ fmt); [unfold later; simpl; lia|apply IH]).
  apply advances_ok. unfold later. simpl. lia.
Qed.

Lemma skip_atoi_advances fmt i : advances (skip_atoi fmt i) fmt snd.
Proof.
  revert i. induction fmt as [|c fmt IH]; intros i; simpl; [done|].
  case_match; [eapply (advances_weaken _ _ fmt); [unfold later; simpl; lia|apply IH]|].
  apply advances_ok. unfold later. simpl. lia.
Qed.

Lemma parse_width_advances fmt flags args :
  advances (parse_width fmt flags args) fmt (fun '(_, _, f, _) => f).
Proof.
  unfold parse_width. apply advances_peek. intros c. destruct (isdigit c); [|destruct (c =? 42)].
  - eapply advances_bind; [apply skip_atoi_advances|]. intros [w f] _. apply advances_ok, later_refl.
  - destruct args as [|a args]; [done|]. simpl. destruct (_ <? 0); apply advances_ok, later_tail.
  - apply advances_ok, later_refl.
Qed.

Lemma parse_precision_advances fmt args :
  advances (parse_precision fmt args) fmt (fun '(_, f, _) => f).
Proof.
  unfold parse_precision. apply advances_peek. intros c. destruct (c =? 46); [|apply advances_ok, later_refl].
  apply (advances_weaken _ _ (tail fmt)); [apply later_tail|]. apply advances_peek. intros c'.
  eapply (advances_bind _ _ _ (fun '(_, f, _) => f)).
  - destruct (isdigit c'); [|destruct (c' =? 42)].
    + eapply advances_bind; [apply skip_atoi_advances|]. intros [p f] _. apply advances_ok, later_refl.
    + destruct args as [|a args]; [done|]. simpl. apply advances_ok, later_tail.
    + apply advances_ok, later_refl.
  - intros [[p f] a] _. apply advances_ok, later_refl.
Qed.

Lemma parse_qualifier_advances fmt : advances (parse_qualifier fmt) fmt snd.
Proof.
  unfold parse_qualifier. apply advances_peek. intros c. eapply (advances_bind _ _ _ snd).
  - destruct (_ || _); [|apply advances_ok, later_refl].
    apply (advances_weaken _ _ (tail fmt)); [apply later_tail|]. apply advances_peek. intros c'.
    destruct (_ && _); apply advances_ok; [apply later_tail|apply later_refl].
  - intros [q f] _. apply advances_peek. intros c'. destruct (c' =? 113); apply advances_ok; [apply later_tail|apply later_refl].
Qed.

Lemma parse_spec_advances fmt args : advances (parse_spec fmt args) fmt (fun '(_, f, _) => f).
Proof.
  unfold parse_spec. eapply advances_bind; [apply parse_flags_advances|]. intros [flags f1] _.
  eapply advances_bind; [apply parse_width_advances|]. intros [[[w fl] f2] a2] _.
  eapply advances_bind; [apply parse_precision_advances|]. intros [[p f3] a3] _.
  eapply advances_bind; [apply parse_qualifier_advances|]. intros [q f4] _. apply advances_ok, later_refl.
Qed.

Lemma uniform_va_arg args : uniform_any (lift (va_arg args)).
Proof. by destruct args; apply uniform_lift. Qed.

Lemma uniform_peek s : uniform_any (lift (peek s)).
Proof. apply uniform_access. Qed.

#[export] Hint Resolve uniform_va_arg uniform_peek : uniform.

Lemma strnlen_not_fuel s n : strnlen s n <> Fuel.
Proof.
  revert n. induction s as [|c s IH]; intros n; simpl; repeat case_match; try done.
  specialize (IH (n - 1)). by destruct (strnlen s (n - 1)).
Qed.

Lemma uniform_convert_c flags w args : uniform_any (convert_c flags w args).
Proof. unfold convert_c. by repeat uniform_step. Qed.

Lemma uniform_convert_s flags w p args : uniform_any (convert_s flags w p args).
Proof.
  unfold convert_s. eapply uniform_bind; [apply uniform_va_arg|intros [a args'] _].
  eapply (uniform_bind (fun _ => True)).
  { apply uniform_lift; [done|]. repeat case_match; done. }
  intros s _. eapply (uniform_bind (fun _ => True)).
  { apply uniform_lift; [done|apply strnlen_not_fuel]. }
  intros n _. cbv zeta. by repeat uniform_step.
Qed.

Lemma uniform_convert_n q args : uniform_any (convert_n q args).
Proof.
  unfold convert_n. eapply uniform_bind; [apply uniform_va_arg|intros [a args'] _].
  destruct a; [by apply uniform_lift..|]. by repeat uniform_step.
Qed.

Lemma uniform_convert_int base flags sp args : uniform_any (convert_int base flags sp args).
Proof. unfold convert_int. by repeat uniform_step. Qed.

#[export] Hint Resolve uniform_convert_c uniform_convert_s uniform_convert_n uniform_convert_int : uniform.

Lemma uniform_convert sp fmt args :
  uniform (fun r => later fmt (fst r)) (convert sp fmt args).
Proof.
  unfold convert. cbv zeta. eapply uniform_bind; [apply uniform_peek|intros c _].
  repeat uniform_step; simpl; auto using later_refl, later_tail.
Qed.

Lemma uniform_format_loop fuel fmt args : (length fmt <= fuel)%nat -> uniform_any (format_loop fuel fmt args).
Proof.
  revert fmt args. induction fuel as [|fuel IH]; intros fmt args Hf.
  - destruct fmt; [|simpl in Hf; lia]. by exists [], (inr BAD_ACCESS).
  - destruct fmt as [|c fmt]; [by exists [], (inr BAD_ACCESS)|]. cbn [format_loop peek]. simpl in Hf.
    eapply uniform_bind; [apply uniform_peek|intros c' _]. apply uniform_if; [by apply uniform_ret|]. apply uniform_if.
    + eapply (uniform_bind (fun '(_, f, _) => later fmt f)).
      { destruct (parse_spec_advances fmt args) as [H1 H2]. apply uniform_lift; [|done].
        intros [[sp f] a] Heq. by apply (H2 _ Heq). }
      intros [[sp f] a] Hl. eapply uniform_bind; [apply uniform_convert|]. intros [f' a'] Hl'.
      simpl in Hl'. apply IH. unfold later in *. lia.
    + eapply uniform_bind; [apply uniform_emit|intros _ _]. simpl. apply IH. lia.
Qed.

(** ** What is written *)

(** The buffer after the output [o] so far. *)
Definition written (contents : list Z) (size : Z) (o : list Z) : list Z :=
  let k := Z.to_nat (Z.min (Z.of_nat (length o)) size) in take k o ++ drop k contents.

(** The buffer [vsnprintf] leaves. *)
Definition printed (contents : list Z) (size : Z) (o : list Z) : list Z :=
  if size =? 0 then contents else
  let k := Z.to_nat (Z.min (Z.of_nat (length o)) (size - 1)) in take k o ++ 0 :: drop (S k) contents.

Lemma wrb_in m i v : 0 <= i < Z.of_nat (length m) -> wr m i v = Ok (<[Z.to_nat i := v]> m).
Proof.
  intros Hi. unfold wr, rd. destruct (Z.leb_spec 0 i); [|lia].
  destruct (lookup_lt_is_Some_2 m (Z.to_nat i)) as [x ->]; [lia|]. done.
Qed.

Lemma take_insert_drop (m : list Z) (o : list Z) k v :
  (k < length m)%nat -> (k <= length o)%nat ->
  <[k := v]> (take k o ++ drop k m) = take k o ++ v :: drop (S k) m.
Proof.
  intros Hk Ho. rewrite insert_app_r_alt by (rewrite length_take; lia).
  rewrite length_take. replace (k - k `min` length o)%nat with 0%nat by lia.
  destruct (lookup_lt_is_Some_2 m k Hk) as [x Hx]. by rewrite (drop_S _ _ _ Hx).
Qed.

Lemma length_written contents size o :
  0 <= size <= Z.of_nat (length contents) -> length (written contents size o) = length contents.
Proof. intros. unfold written. rewrite length_app, length_take, length_drop. lia. Qed.

Lemma written_snoc contents size o c :
  0 <= size <= Z.of_nat (length contents) ->
  written contents size (o ++ [c]) =
  if Z.of_nat (length o) <? size then <[length o := c]> (written contents size o) else written contents size o.
Proof.
  intros Hs. unfold written. rewrite length_app. simpl. destruct (Z.ltb_spec (Z.of_nat (length o)) size).
  - replace (Z.to_nat (Z.min (Z.of_nat (length o)) size)) with (length o) by lia.
    replace (Z.to_nat (Z.min (Z.of_nat (length o + 1)) size)) with (S (length o)) by lia.
    rewrite take_insert_drop by lia. rewrite !take_ge by (rewrite ?length_app; simpl; lia).
    by rewrite <- app_assoc.
  - replace (Z.to_nat (Z.min (Z.of_nat (length o + 1)) size)) with (Z.to_nat size) by lia.
    replace (Z.to_nat (Z.min (Z.of_nat (length o)) size)) with (Z.to_nat size) by lia.
    by rewrite take_app_le by lia.
Qed.

Fixpoint out_of (acts : list act) : list Z :=
  match acts with
  | [] => []
  | AEmit c :: acts => c :: out_of acts
  | AStore _ _ :: acts => out_of acts
  end.

Fixpoint stores_of (pos : Z) (acts : list act) : list (Z * Z) :=
  match acts with
  | [] => []
  | AEmit c :: acts => stores_of (pos + 1) acts
  | AStore addr conv :: acts => (addr, conv pos) :: stores_of pos acts
  end.

Lemma run_spec acts buf contents size o stores :
  0 <= size <= Z.of_nat (length contents) ->
  run acts (PEnv buf (buf + size - 1)) (PSt (written contents size o) (Z.of_nat (length o)) stores) =
  Ok ((), PSt (written contents size (o ++ out_of acts)) (Z.of_nat (length (o ++ out_of acts)))
            (stores ++ stores_of (Z.of_nat (length o)) acts)).
Proof.
  intros Hs. revert o stores. induction acts as [|[c|addr conv] acts IH]; intros o stores; simpl.
  - by rewrite !app_nil_r.
  - assert (emit c (PEnv buf (buf + size - 1)) (PSt (written contents size o) (Z.of_nat (length o)) stores) =
      Ok ((), PSt (written contents size (o ++ [c])) (Z.of_nat (length (o ++ [c]))) stores)) as He.
    { unfold emit. simpl. rewrite written_snoc by done. rewrite length_app. simpl.
      rewrite Nat2Z.inj_add. destruct (Z.ltb_spec (Z.of_nat (length o)) size).
      - destruct (Z.leb_spec (buf + Z.of_nat (length o)) (buf + size - 1)); [|lia].
        rewrite wrb_in by (rewrite length_written by done; lia). by rewrite Nat2Z.id.
      - destruct (Z.leb_spec (buf + Z.of_nat (length o)) (buf + size - 1)); [lia|done]. }
    unfold mbind, fm_bind. rewrite He, IH, <- app_assoc, (length_app o [c]). simpl.
    by replace (Z.of_nat (length o + 1)) with (Z.of_nat (length o) + 1) by lia.
  - unfold mbind, fm_bind, store_pos. simpl. rewrite IH, <- app_assoc. done.
Qed.

Lemma printed_final contents size o buf :
  0 <= size <= Z.of_nat (length contents) ->
  (if buf + Z.of_nat (length o) <=? buf + size - 1 then wr (written contents size o) (Z.of_nat (length o)) 0
   else if 0 <? size then wr (written contents size o) (buf + size - 1 - buf) 0
   else Ok (written contents size o)) = Ok (printed contents size o).
Proof.
  intros Hs. unfold printed. destruct (Z.leb_spec (buf + Z.of_nat (length o)) (buf + size - 1)) as [Hle|Hgt].
  - rewrite wrb_in by (rewrite length_written by done; lia). destruct (Z.eqb_spec size 0); [lia|]. f_equal.
    unfold written. rewrite Nat2Z.id. rewrite !Z.min_l by lia. rewrite Nat2Z.id.
    by rewrite take_insert_drop by lia.
  - destruct (Z.ltb_spec 0 size).
    + rewrite wrb_in by (rewrite length_written by done; lia). destruct (Z.eqb_spec size 0); [lia|]. f_equal.
      unfold written. rewrite !Z.min_r by lia. replace (buf + size - 1 - buf) with (size - 1) by lia.
      replace (Z.to_nat size) with (S (Z.to_nat (size - 1))) by lia.
      set (k := Z.to_nat (size - 1)).
      destruct (lookup_lt_is_Some_2 o k) as [x Hx]; [lia|].
      rewrite (take_S_r _ _ _ Hx), <- app_assoc. rewrite insert_app_r_alt by (rewrite length_take; lia).
      rewrite length_take. replace (k - k `min` length o)%nat with 0%nat by lia. done.
    + replace size with 0 by lia. simpl. f_equal. unfold written. rewrite Z.min_r by lia. done.
Qed.

Lemma buffer_end_ok buf size :
  1 <= buf -> 0 <= size -> buf + size <= 2 ^ 64 -> buffer_end buf size = (buf + size - 1, size).
Proof.
  intros Hb Hs Hle. unfold buffer_end. rewrite !wrap_small by lia.
  destruct (Z.ltb_spec (buf + size - 1) (buf - 1)); [lia|done].
Qed.

Lemma run_start acts buf contents size :
  0 <= size <= Z.of_nat (length contents) ->
  run acts (PEnv buf (buf + size - 1)) (PSt contents 0 []) =
  Ok ((), PSt (written contents size (out_of acts)) (Z.of_nat (length (out_of acts))) (stores_of 0 acts)).
Proof.
  intros Hs. pose proof (run_spec acts buf contents size [] [] Hs) as H.
  assert (written contents size [] = contents) as Hw.
  { unfold written. simpl. rewrite Z.min_l by lia. done. }
  rewrite Hw in H. exact H.
Qed.

Lemma vsnprintf_run acts fmt args buf contents size :
  (forall env st, format_loop (length fmt) fmt args env st = run acts env st) ->
  1 <= buf -> 0 <= size <= Z.of_nat (length contents) -> buf + size <= 2 ^ 64 ->
  vsnprintf buf contents size fmt args =
  Ok (sgn32 (Z.of_nat (length (out_of acts))), printed contents size (out_of acts), stores_of 0 acts).
Proof.
  intros Hrun Hb Hs Hle. unfold vsnprintf. rewrite buffer_end_ok, Hrun, run_start by lia.
  cbn [mbind res_bind p_str p_buf p_stores]. by rewrite printed_final.
Qed.

(** ** Properties *)

(** C37: For every format and arguments, [vsnprintf] either stops on a bad
    access whatever the buffer, or there is one output string such that for
    every buffer and size the function returns its length, writes its first
    [size - 1] characters and a terminator, and touches nothing beyond them
    (nothing at all when [size] is 0); the stores of [%n] do not depend on the
    buffer either.  The loop always terminates. *)
Theorem vsnprintf_truncates fmt args :
  (exists out stores, forall buf contents size,
     1 <= buf -> 0 <= size <= Z.of_nat (length contents) -> buf + size <= 2 ^ 64 ->
     vsnprintf buf contents size fmt args = Ok (sgn32 (Z.of_nat (length out)), printed contents size out, stores)) \/
  (exists b, forall buf contents size,
     1 <= buf -> 0 <= size <= Z.of_nat (length contents) -> buf + size <= 2 ^ 64 ->
     vsnprintf buf contents size fmt args = Bug b).
Proof.
  destruct (uniform_format_loop (length fmt) fmt args) as (acts & out & _ & Hrun); [lia|].
  destruct out as [[]|b]; [left|right].
  - exists (out_of acts), (stores_of 0 acts). intros buf contents size Hb Hs Hle.
    apply vsnprintf_run; try done. intros env st. rewrite Hrun. unfold mbind, fm_bind.
    by destruct (run acts env st) as [[[] ?]| |].
  - exists b. intros buf contents size Hb Hs Hle. unfold vsnprintf. rewrite buffer_end_ok by lia.
    rewrite Hrun. unfold mbind, fm_bind. by rewrite run_start.
Qed.

Example vsnprintf_cut :
  vsnprintf 4096 (replicate 6 9) 4 (cstr "%d") [ANum 12345] = Ok (5, [49; 50; 51; 0; 9; 9], []).
Proof. reflexivity. Qed.

(** ** Numbers from strings *)

Definition digit_value (c : Z) : Z := if isdigit c then c - 48 else toupper c - 65 + 10.

Definition is_digit_of (base c : Z) : bool := isxdigit c && (wrap64 (digit_value c) <? base).

Definition value_of (base : Z) (ds : list Z) : Z := foldl (fun acc c => acc * base + digit_value c) 0 ds.

Lemma strtoul_digits_spec base ds t r acc :
  Forall (fun c => is_digit_of base c = true) ds -> is_digit_of base t = false ->
  strtoul_digits (ds ++ t :: r) base (wrap64 acc) =
  Ok (wrap64 (foldl (fun acc c => acc * base + digit_value c) acc ds), t :: r).
Proof.
  intros Hds Ht. revert acc. induction Hds as [|c ds Hc Hds IH]; intros acc; cbn [app strtoul_digits foldl].
  - fold (digit_value t). fold (is_digit_of base t). by rewrite Ht.
  - fold (digit_value c). fold (is_digit_of base c). rewrite Hc.
    replace (wrap64 (wrap64 acc * base + digit_value c)) with (wrap64 (acc * base + digit_value c)); [apply IH|].
    unfold wrap. rewrite (Z.add_mod (acc mod _ * base)), Z.mul_mod_idemp_l, <- Z.add_mod by lia. done.
Qed.

Lemma simple_strtoul_spec base ds t r :
  base <> 0 -> Forall (fun c => is_digit_of base c = true) ds -> is_digit_of base t = false ->
  simple_strtoul (ds ++ t :: r) base = Ok (wrap64 (value_of base ds), t :: r) /\
  simple_strtol (45 :: ds ++ t :: r) base = Ok (sgn 64 (- wrap64 (value_of base ds)), t :: r).
Proof.
  intros Hb Hds Ht. pose proof (strtoul_digits_spec base ds t r 0 Hds Ht) as H.
  change (wrap64 0) with 0 in H.
  assert (simple_strtoul (ds ++ t :: r) base = Ok (wrap64 (value_of base ds), t :: r)) as Hu.
  { unfold simple_strtoul, strtoul_base. destruct (Z.eqb_spec base 0); [done|]. exact H. }
  split; [done|]. unfold simple_strtol. simpl. by rewrite Hu.
Qed.

(** [simple_strtoul] with an explicit base reads the longest prefix of
    digits of that base, returns its value modulo 2^64, and points [endp] at the
    first character that is not such a digit; [simple_strtol] reads a minus sign
    and negates. *)
Lemma simple_strtoul_value base ds t r :
  base <> 0 -> Forall (fun c => is_digit_of base c = true) ds -> is_digit_of base t = false ->
  simple_strtoul (ds ++ t :: r) base = Ok (wrap64 (value_of base ds), t :: r) /\
  simple_strtol (45 :: ds ++ t :: r) base = Ok (sgn 64 (- wrap64 (value_of base ds)), t :: r).
Proof. apply simple_strtoul_spec. Qed.

Lemma simple_strtoul_value_witness :
  simple_strtoul (cstr "7fz") 16 = Ok (127, cstr "z").
Proof. apply (simple_strtoul_value 16 (str "7f") 122 [0]); [done|decides|done]. Defined.

Lemma bytes_tail s : Forall byte s -> Forall byte (tail s).
Proof. destruct 1; simpl; [constructor|done]. Qed.

(** The four conversions agree: on byte strings [simple_strtoull] returns
    what [simple_strtoul] does and [simple_strtoll] what [simple_strtol] does,
    although the digit values are computed differently. *)
Lemma strtoull_equiv cp base :
  Forall byte cp ->
  simple_strtoull cp base = simple_strtoul cp base /\ simple_strtoll cp base = simple_strtol cp base.
Proof.
  assert (forall cp acc base, Forall byte cp -> strtoull_digits cp base acc = strtoul_digits cp base acc) as Hd.
  { intros cp' acc base' Hb. revert acc. induction Hb as [|c cp' Hc Hb IH]; intros acc; simpl; [done|].
    assert (isxdigit c = true -> (if islower c then toupper c else schar c) = toupper c) as Ht.
    { intros Hx. pose proof (byte_forall (fun c => negb (isxdigit c) || ((if islower c then toupper c else schar c) =? toupper c))
        ltac:(vm_compute; reflexivity) c Hc) as H. cbv beta in H. rewrite Hx in H. by apply Z.eqb_eq in H. }
    destruct (isxdigit c); [|done]. rewrite Ht by done. simpl. destruct (_ <? base'); [apply IH|done]. }
  assert (forall cp base, Forall byte cp -> simple_strtoull cp base = simple_strtoul cp base) as Hu.
  { intros cp' base' Hb. unfold simple_strtoull, simple_strtoul.
    destruct (strtoul_base cp' base') as [[b s]| |] eqn:E; [|done..]. simpl. apply Hd.
    assert (Forall byte (tail cp') /\ Forall byte (tail (tail cp'))) as [H1 H2].
    { auto using bytes_tail. }
    unfold strtoul_base in E. repeat (case_match; simplify_eq/=; res_inv; try done). }
  intros Hb. split; [by apply Hu|]. unfold simple_strtoll, simple_strtol. destruct (peek cp); [|done..]. simpl.
  rewrite !Hu by auto using bytes_tail. done.
Qed.

Lemma strtoull_equiv_witness : simple_strtoull (cstr "0x1F") 0 = simple_strtoul (cstr "0x1F") 0.
Proof. apply strtoull_equiv. decides. Defined.

(** ** Round trips *)

Lemma emit_all_run cs env st : emit_all cs env st = run (AEmit <$> cs) env st.
Proof.
  revert st. induction cs as [|c cs IH]; intros st; [done|]. simpl. unfold mbind, fm_bind.
  destruct (emit c env st) as [[[] st']| |]; [|done..]. apply IH.
Qed.

Lemma emits_neg n c : n <= 0 -> emits n c = mret ().
Proof. intros. unfold emits. by replace (Z.to_nat n) with 0%nat by lia. Qed.

Definition int_text (signed : bool) (num base : Z) (vs : list Z) : list Z :=
  (if signed && (num <? 0) then [45] else []) ++ rev ((fun v => small_digits !!! Z.to_nat v) <$> vs).

Lemma sgn32_neg n : - 2 ^ 31 <= n < 0 -> sgn32 n = n.
Proof. intros. apply sgn_id; simpl; lia. Qed.

Lemma pad_while_neg n c : - 2 ^ 31 < n <= 0 -> pad_while n c = mret (n - 1).
Proof.
  intros. unfold pad_while. rewrite emits_neg by lia. destruct (Z.ltb_spec 0 n); [lia|].
  by rewrite sgn32_neg by lia.
Qed.

Lemma fm_bind_ext {X Y} (m : fm X) (k1 k2 : X -> fm Y) env st :
  (forall x st', k1 x env st' = k2 x env st') -> (m ≫= k1) env st = (m ≫= k2) env st.
Proof. intros Hk. unfold mbind, fm_bind. destruct (m env st) as [[x st']| |]; auto. Qed.

Lemma number_tail n i cs env st :
  - 2 ^ 31 + 1 < n <= 0 ->
  (z ← pad_while n 32; _ ← emits (i - i) 48; _ ← emit_all cs; _ ← pad_while z 32; mret ()) env st = emit_all cs env st.
Proof.
  intros Hn. rewrite pad_while_neg, Z.sub_diag, emits_neg by lia.
  change ((_ ← emit_all cs; _ ← pad_while (n - 1) 32; mret ()) env st = emit_all cs env st).
  rewrite pad_while_neg by lia. unfold mbind, fm_bind. by destruct (emit_all cs env st) as [[[] ?]| |].
Qed.

(** [number] with [size] and [precision] that ask for no padding. *)
Lemma number_emits num base size type sign n vs :
  2 <= base <= 36 -> type = 0 \/ type = SIGN ->
  (if has type SIGN then if num <? 0 then (45, sgn 64 (- num), -2) else (0, num, -1) else (0, num, -1)) = (sign, n, size) ->
  (if n =? 0 then Ok [48] else digits_loop 64 small_digits [] (wrap64 n) base) = Ok vs ->
  (1 <= length vs <= 64)%nat ->
  forall env st, number num base (-1) (-1) type env st =
    emit_all ((if sign =? 0 then [] else [sign]) ++ rev vs) env st.
Proof.
  intros Hb Ht Hs Htmp Hlen env st.
  assert (number num base (-1) (-1) type env st =
    (size' ← pad_while (sgn32 (size - Z.of_nat (length vs))) 32;
     _ ← (if sign =? 0 then mret () else emit sign);
     _ ← mret ();
     size' ← pad_while size' 32;
     _ ← emits (Z.of_nat (length vs) - Z.of_nat (length vs)) 48;
     _ ← emit_all (rev vs);
     _ ← pad_while size' 32; mret ()) env st) as ->.
  { assert (has type LARGE = false /\ has type LEFT = false /\ has type ZEROPAD = false /\ has type SPECIAL = false /\
      has type PLUS = false /\ has type SPACE = false /\ has type (ZEROPAD + LEFT) = false)
      as (E1 & E2 & E3 & E4 & E5 & E6 & E7) by (destruct Ht as [-> | ->]; done).
    unfold number. rewrite E2. cbv beta iota zeta. rewrite E1, E2, E3, E4, E5, E6, E7. cbv beta iota zeta.
    destruct (Z.ltb_spec base 2); [lia|]. destruct (Z.ltb_spec 36 base); [lia|]. cbn [orb].
    change (sgn32 (-1 - 1)) with (-2).
    destruct (if has type SIGN then _ else _) as [[sg n0] sz]. injection Hs as -> -> ->.
    unfold mbind at 1, fm_bind at 1, lift at 1. rewrite Htmp.
    destruct (Z.ltb_spec (-1) (Z.of_nat (length vs))); [done|lia]. }
  assert (size - Z.of_nat (length vs) < 0 /\ -2 <= size) as [Hsz Hsz2].
  { destruct (has type SIGN), (num <? 0); injection Hs as _ _ <-; lia. }
  rewrite (sgn32_neg (size - _)) by lia. unfold mbind at 1, fm_bind at 1.
  rewrite pad_while_neg by lia. cbv beta iota.
  assert (- 2 ^ 31 + 1 < size - Z.of_nat (length vs) - 1 <= 0) as Hn by lia.
  pose proof (fun st => number_tail _ (Z.of_nat (length vs)) (rev vs) env st Hn) as Ht1.
  destruct (Z.eqb_spec sign 0) as [->|Hsign]; [apply Ht1|]. cbn [app emit_all].
  apply (fm_bind_ext (emit sign)). intros _ st1. apply Ht1.
Qed.

(** The text of a number: an optional sign and the digits. *)
Lemma number_plain num base (signed : bool) :
  2 <= base <= 36 -> - 2 ^ 63 <= num < 2 ^ 63 ->
  exists vs, Forall (fun v => 0 <= v < base) vs /\ (length vs <= 64)%nat /\ vs <> [] /\
    le_value base vs = (if signed && (num <? 0) then - num else wrap64 num) /\
    forall env st, number num base (-1) (-1) (if signed then SIGN else 0) env st =
      run (AEmit <$> int_text signed num base vs) env st.
Proof.
  intros Hb Hn.
  set (n' := if signed && (num <? 0) then sgn 64 (- num) else num).
  assert (- 2 ^ 63 <= n' < 2 ^ 63) as Hn' by (subst n'; destruct (_ && _); [apply sgn64_neg|done]).
  destruct (number_digits n' 0 base Hb Hn') as (vs & Htmp & Hvs & Hval & Hlen & Hne).
  change (digit_chars 0) with small_digits in Htmp.
  exists vs. split_and!; try done.
  - rewrite Hval. subst n'. destruct signed; simpl; [|done]. destruct (Z.ltb_spec num 0); [|done].
    unfold wrap, sgn. rewrite (Z.mod_small (- num)) by lia. destruct (_ <? _).
    + apply Z.mod_small. lia.
    + rewrite <- (Z_mod_plus_full _ 1). rewrite Z.mod_small; lia.
  - intros env st. unfold int_text. rewrite <- emit_all_run.
    assert (1 <= length ((fun v => small_digits !!! Z.to_nat v) <$> vs) <= 64)%nat as Hl.
    { rewrite length_fmap. clear - Hlen Hne. destruct vs; [done|]. simpl in *. lia. }
    rewrite (number_emits num base (if signed && (num <? 0) then -2 else -1) (if signed then SIGN else 0)
      (if signed && (num <? 0) then 45 else 0) n' ((fun v => small_digits !!! Z.to_nat v) <$> vs) Hb); [|by destruct signed; auto| |done|done].
    + by destruct (signed && (num <? 0)).
    + subst n'. destruct signed; [|done]. cbn [andb]. by destruct (num <? 0).
Qed.

(** The digits read back. *)
Lemma small_digit_value v :
  0 <= v < 16 -> let c := small_digits !!! Z.to_nat v in
  isxdigit c = true /\ digit_value c = v /\ isspace c = false /\ 0 < c < 256 /\ c <> 45 /\ (v < 10 -> isdigit c = true).
Proof.
  intros Hv. cbv zeta. assert (forallb (fun v => let c := small_digits !!! v in
    isxdigit c && (digit_value c =? Z.of_nat v) && negb (isspace c) && (0 <? c) && (c <? 256) && negb (c =? 45) &&
    ((10 <=? Z.of_nat v) || isdigit c)) (seq 0 16) = true) as H by (vm_compute; reflexivity).
  rewrite forallb_forall in H. specialize (H (Z.to_nat v)). rewrite in_seq in H. specialize (H ltac:(lia)).
  cbv beta zeta in H. rewrite Z2Nat.id in H by lia.
  set (c := small_digits !!! Z.to_nat v) in *. repeat (apply andb_prop in H; destruct H as [H ?]). bool_hyps.
  split_and!; try done. intros. match goal with H : _ || _ = true |- _ => apply orb_prop in H as [H|H] end; [bool_hyps; lia|done].
Qed.

Lemma value_of_digits base vs :
  2 <= base <= 16 -> Forall (fun v => 0 <= v < base) vs ->
  value_of base (rev ((fun v => small_digits !!! Z.to_nat v) <$> vs)) = le_value base vs.
Proof.
  intros Hb Hvs. unfold value_of, le_value. induction Hvs as [|v vs Hv Hvs IH]; [done|].
  rewrite fmap_cons. cbn [rev foldr]. rewrite foldl_app, IH. cbn [foldl]. destruct (small_digit_value v ltac:(lia)) as (_ & -> & _). lia.
Qed.

Lemma digits_are_digits base vs :
  2 <= base <= 16 -> Forall (fun v => 0 <= v < base) vs ->
  Forall (fun c => is_digit_of base c = true) (rev ((fun v => small_digits !!! Z.to_nat v) <$> vs)).
Proof.
  intros Hb Hvs. apply Forall_rev, Forall_fmap. eapply Forall_impl; [exact Hvs|]. cbv beta. intros v Hv.
  simpl. destruct (small_digit_value v ltac:(lia)) as (Hx & Hval & _). unfold is_digit_of. rewrite Hx, Hval.
  rewrite wrap_small by lia. simpl. apply Z.ltb_lt. lia.
Qed.

Lemma out_of_emits cs : out_of (AEmit <$> cs) = cs /\ forall pos, stores_of pos (AEmit <$> cs) = [].
Proof.
  induction cs as [|c cs [IH1 IH2]]; [done|]. rewrite fmap_cons. cbn [out_of stores_of]. rewrite IH1.
  split; [done|]. intros pos. apply IH2.
Qed.

Lemma int_text_strtol num base (signed : bool) vs t r :
  2 <= base <= 16 -> - 2 ^ 63 <= num < 2 ^ 63 ->
  Forall (fun v => 0 <= v < base) vs -> vs <> [] -> is_digit_of base t = false ->
  le_value base vs = (if signed && (num <? 0) then - num else wrap64 num) ->
  simple_strtol (int_text signed num base vs ++ t :: r) base = Ok (num, t :: r) /\
  (signed = false -> simple_strtoul (int_text signed num base vs ++ t :: r) base = Ok (wrap64 num, t :: r)).
Proof.
  intros Hb Hn Hvs Hne Ht Hval. unfold int_text.
  pose proof (digits_are_digits base vs Hb Hvs) as Hds. set (ds := rev _) in *.
  assert (value_of base ds = le_value base vs) as Hv by (by apply value_of_digits).
  destruct (simple_strtoul_spec base ds t r) as [Hu Hl]; [lia|done..|]. rewrite Hv, Hval in *.
  assert (exists c ds', ds = c :: ds' /\ c <> 45) as (c & ds' & Hc & H45).
  { destruct vs as [|v vs _] using rev_ind; [done|]. subst ds. rewrite fmap_app, rev_app_distr. cbn [fmap list_fmap rev app].
    eexists _, _. split; [done|]. apply Forall_app in Hvs as [_ Hv1]. apply Forall_cons in Hv1 as [Hv1 _].
    by destruct (small_digit_value v ltac:(lia)) as (_ & _ & _ & _ & ? & _). }
  destruct (signed && (num <? 0)) eqn:Hsg; cbn [app].
  - apply andb_prop in Hsg as [-> Hneg]. bool_hyps. split; [|done]. rewrite Hl.
    rewrite (wrap_small 64 (- num)) by lia. do 2 f_equal. rewrite Z.opp_involutive.
    by apply sgn_id.
  - rewrite (wrap_small 64 (wrap64 num)) in Hu by (apply (wrap_range 64); lia). split; [|done].
    unfold simple_strtol. rewrite Hc in *. cbn [app peek head access mbind res_bind] in *.
    destruct (Z.eqb_spec c 45); [done|]. rewrite Hu. cbn [mbind res_bind]. do 2 f_equal.
    rewrite sgn_wrap. by apply sgn_id.
Qed.

Lemma format_ld n env st : format_loop (length (cstr "%ld")) (cstr "%ld") [ANum n] env st =
  number (sgn 64 (wrap64 n)) 10 (-1) (-1) SIGN env st.
Proof.
  assert (parse_spec [108; 100; 0] [ANum n] = Ok (Spec 0 (-1) (-1) 108, [100; 0], [ANum n])) as Hp by reflexivity.
  transitivity ((r ← lift (parse_spec [108; 100; 0] [ANum n]);
    let '(sp, fmt, args) := r in r ← convert sp fmt args; let '(fmt, args) := r in format_loop 3 fmt args) env st); [done|].
  rewrite Hp. transitivity ((r ← (a ← convert_int 10 SIGN (Spec 0 (-1) (-1) 108) [ANum n]; mret ([0], a));
    let '(fmt, args) := r in format_loop 3 fmt args) env st); [done|].
  transitivity ((_ ← number (sgn 64 (wrap64 n)) 10 (-1) (-1) SIGN; mret ()) env st).
  - unfold convert_int, mbind, fm_bind, lift. cbn [va_arg slot sp_qualifier sp_width sp_precision int_arg].
    change (int_arg 108 SIGN n) with (wrap64 n). by destruct (number _ _ _ _ _ env st) as [[[] ?]| |].
  - unfold mbind, fm_bind. by destruct (number _ _ _ _ _ env st) as [[[] ?]| |].
Qed.

Lemma int_text_start num vs :
  Forall (fun v => 0 <= v < 10) vs -> vs <> [] ->
  exists c s, int_text true num 10 vs = c :: s /\ isspace c = false /\ c <> 0 /\
    (c = 45 /\ (exists d s', s = d :: s' /\ isdigit d = true) \/ c <> 45 /\ isdigit c = true).
Proof.
  intros Hvs Hne. unfold int_text. destruct vs as [|v vs _] using rev_ind; [done|].
  apply Forall_app in Hvs as [_ Hv]. apply Forall_cons in Hv as [Hv _].
  destruct (small_digit_value v ltac:(lia)) as (_ & _ & Hsp & Hr & H45 & Hd).
  rewrite fmap_app, rev_app_distr. cbn [fmap list_fmap rev app].
  destruct (true && (num <? 0)).
  - eexists 45, _. split; [done|]. split_and!; [done|lia|]. left. split; [done|]. eexists _, _.
    split; [done|]. apply Hd. lia.
  - eexists _, _. split; [done|]. split_and!; [done|lia|]. right. split; [done|]. apply Hd. lia.
Qed.

Lemma isdigit_nonzero c : isdigit c = true -> c <> 0.
Proof. by intros Hd ->. Qed.

Lemma scan_loop_ld c rest total args :
  c <> 0 ->
  scan_loop 4 total (cstr "%ld") (c :: rest) args 0 [] =
  (r ← scan_conv total 100 108 (-1) (c :: rest) args;
   match r with
   | None => Ok (0, [])
   | Some (str, args, k, stores) => scan_loop 3 total [0] str args (sgn32 (0 + k)) stores
   end).
Proof. intros. by destruct c. Qed.

(** [%ld] of [sscanf] on the text of a number. *)
Lemma scan_ld num vs p :
  - 2 ^ 63 <= num < 2 ^ 63 -> Forall (fun v => 0 <= v < 10) vs -> vs <> [] ->
  le_value 10 vs = (if true && (num <? 0) then - num else wrap64 num) ->
  vsscanf (int_text true num 10 vs ++ [0]) (cstr "%ld") [ARef p] = Ok (1, [(p, VNum num)]).
Proof.
  intros Hn Hvs Hne Hval.
  destruct (int_text_strtol num 10 true vs 0 [] ltac:(lia) Hn Hvs Hne ltac:(done) Hval) as [Hl _].
  destruct (int_text_start num vs Hvs Hne) as (c & s & Hcs & Hsp & Hc0 & Hcase).
  unfold vsscanf. change (length (cstr "%ld")) with 4%nat. rewrite Hcs in *. cbn [app] in *.
  assert (scan_int 108 10 true (c :: s ++ [0]) = Ok (Some (num, [0]))) as Hscan.
  { unfold scan_int. cbn [skip_space]. rewrite Hsp. cbn [mbind res_bind peek head access tail andb].
    assert ((if c =? 45 then peek (s ++ [0]) else Ok c) = Ok (if c =? 45 then hd 0 s else c) /\
      isdigit (if c =? 45 then hd 0 s else c) = true) as [-> Hd].
    { destruct Hcase as [[-> (d & s' & -> & Hd)]|[H45 Hd]]; [done|]. by destruct (Z.eqb_spec c 45). }
    cbn [mbind res_bind]. unfold scan_digit_ok. set (d := if c =? 45 then hd 0 s else c) in *.
    destruct (Z.eqb_spec d 0); [by apply isdigit_nonzero in Hd|]. rewrite Hd. simpl.
    change (scan_number 108 10 true (c :: s ++ [0])) with (simple_strtol (c :: s ++ [0]) 10). by rewrite Hl. }
  rewrite scan_loop_ld by done.
  assert (forall total, scan_conv total 100 108 (-1) (c :: s ++ [0]) [ARef p] =
    Ok (Some ([0], [], 1, [(p, VNum num)]))) as ->; [|done].
  intros total. transitivity (r ← scan_int 108 10 true (c :: s ++ [0]);
    match r with
    | None => Ok None
    | Some (v, str) => Ok (Some (str, @nil arg, 1, [(p, VNum v)]))
    end); [done|]. by rewrite Hscan.
Qed.

(** C38: [snprintf] with [%ld] prints any 64-bit signed integer, [INT64_MIN] included, as one
    text of at most 65 characters - cut, in a smaller buffer, to its size -, and
    [simple_strtol] and [%ld] of [sscanf] read this text as the integer. *)
Theorem print_scan_roundtrip n :
  - 2 ^ 63 <= n < 2 ^ 63 ->
  exists text, (1 <= length text <= 65)%nat /\
    (forall buf contents size, 1 <= buf -> 0 <= size <= Z.of_nat (length contents) -> buf + size <= 2 ^ 64 ->
       snprintf buf contents size (cstr "%ld") [ANum n] =
       Ok (Z.of_nat (length text), printed contents size text, [])) /\
    (forall r, simple_strtol (text ++ 0 :: r) 10 = Ok (n, 0 :: r)) /\
    (forall p, sscanf (text ++ [0]) (cstr "%ld") [ARef p] = Ok (1, [(p, VNum n)])).
Proof.
  intros Hn. destruct (number_plain n 10 true ltac:(lia) Hn) as (vs & Hvs & Hlen & Hne & Hval & Hrun).
  exists (int_text true n 10 vs).
  assert (1 <= length (int_text true n 10 vs) <= 65)%nat as Hl.
  { unfold int_text. rewrite length_app, length_rev, length_fmap.
    assert (length vs <> 0)%nat by (by destruct vs). destruct (true && (n <? 0)); simpl; lia. }
  split; [done|]. split_and!.
  - intros buf contents size Hb Hs Hle. unfold snprintf.
    rewrite (vsnprintf_run (AEmit <$> int_text true n 10 vs)); try done.
    + destruct (out_of_emits (int_text true n 10 vs)) as [-> ->]. rewrite sgn32_small by lia. done.
    + intros env st. rewrite format_ld, sgn_wrap, sgn_id by lia. apply Hrun.
  - intros r. apply int_text_strtol; [lia|done..].
  - intros p. by apply scan_ld.
Qed.

Lemma print_scan_roundtrip_witness :
  exists text, sscanf (text ++ [0]) (cstr "%ld") [ARef 8] = Ok (1, [(8, VNum (- 2 ^ 63))]) /\
    snprintf 4096 (replicate 70 0) 70 (cstr "%ld") [ANum (- 2 ^ 63)] =
    Ok (Z.of_nat (length text), printed (replicate 70 0) 70 text, []).
Proof.
  destruct (print_scan_roundtrip (- 2 ^ 63) ltac:(lia)) as (text & _ & Hp & _ & Hs).
  exists text. split; [apply Hs|]. apply Hp; [lia|rewrite length_replicate; lia|lia].
Defined.
