(* ===== verification/PrintText.v ===== *)
(** What [sprintf] writes for formats made of text, [%s] and [%c]: the calls of the kernel that
    make names and paths.  [sprintf] gives [vsnprintf] a size of 2^32 - 1: nothing but the
    length of the text keeps it inside the buffer. *)
From Stdlib Require Import String.
From S2P Require Import Prelude Bitmap CString Printf PrintfProps.
From stdpp Require Import options.
Open Scope Z_scope.
Open Scope list_scope.

(** A terminated string with the characters [t]. *)
Definition c_string (t s : list Z) : Prop := exists r, s = t ++ 0 :: r /\ Forall (fun c => c <> 0) t /\ Z.of_nat (length t) < 2 ^ 31.

Lemma strnlen_text t r : Forall (fun c => c <> 0) t -> forall n, Z.of_nat (length t) < n -> strnlen (t ++ 0 :: r) n = Ok (Z.of_nat (length t)).
Proof.
  induction 1 as [|c t Hc _ IH]; intros n Hn; cbn [app strnlen length] in *.
  - destruct (Z.eqb_spec n 0); [lia|done].
  - destruct (Z.eqb_spec n 0); [lia|]. destruct (Z.eqb_spec c 0); [done|]. rewrite IH by lia. simpl. f_equal. lia.
Qed.

Lemma strlen_text t s : c_string t s -> strlen s = Ok (Z.of_nat (length t)).
Proof.
  intros (r & -> & Hz & _). induction Hz as [|c t Hc _ IH]; [done|].
  cbn [app length strlen] in *. destruct (Z.eqb_spec c 0); [done|]. rewrite IH. simpl. f_equal. lia.
Qed.

Lemma emit_string_all t r env st : emit_string (length t) (t ++ r) env st = emit_all t env st.
Proof. revert st. induction t as [|c t IH]; intros st; [done|]. simpl. apply fm_bind_ext. intros _ st'. apply IH. Qed.

Lemma emit_all_bind {X} (cs : list Z) (k : () -> fm X) env st :
  (emit_all cs ≫= k) env st = match emit_all cs env st with Ok (x, st) => k x env st | Bug b => Bug b | Fuel => Fuel end.
Proof. done. Qed.

Lemma emit_all_app a b env st : emit_all (a ++ b) env st = (_ ← emit_all a; emit_all b) env st.
Proof.
  revert st. induction a as [|c a IH]; intros st; [done|]. simpl. unfold mbind, fm_bind.
  destruct (emit c env st) as [[[] st']| |]; [|done..]. apply IH.
Qed.

(** The loop over the format prints [text]. *)
Definition prints_text (fuel : nat) (fmt : list Z) (args : list arg) (text : list Z) : Prop :=
  forall env st, format_loop fuel fmt args env st = emit_all text env st.

Lemma text_end fuel fmt args : prints_text fuel (0 :: fmt) args [].
Proof. intros env st. by destruct fuel. Qed.

Lemma text_char fuel c fmt args text :
  c <> 0 -> c <> 37 -> prints_text fuel fmt args text -> prints_text (S fuel) (c :: fmt) args (c :: text).
Proof.
  intros H0 H37 Ht env st. cbn [format_loop]. unfold mbind at 1, fm_bind at 1, lift at 1. cbn [peek head access].
  destruct (Z.eqb_spec c 0); [done|]. destruct (Z.eqb_spec c 37); [done|]. cbn [emit_all tail].
  apply fm_bind_ext. intros _ st'. apply Ht.
Qed.

Lemma text_s fuel fmt a s t args text :
  fmt <> [] -> c_string t s -> prints_text fuel fmt args text ->
  prints_text (S fuel) (37 :: 115 :: fmt) (AStr a s :: args) (t ++ text).
Proof.
  intros Hf (r & -> & Hz & Hl) Ht env st. rewrite emit_all_app.
  assert (parse_spec (115 :: fmt) (AStr a (t ++ 0 :: r) :: args) = Ok (Spec 0 (-1) (-1) (-1), 115 :: fmt, AStr a (t ++ 0 :: r) :: args)) as Hp by reflexivity.
  transitivity ((x ← lift (parse_spec (115 :: fmt) (AStr a (t ++ 0 :: r) :: args));
    let '(sp, fmt, args) := x in x ← convert sp fmt args; let '(fmt, args) := x in format_loop fuel fmt args) env st); [done|].
  rewrite Hp. transitivity ((x ← (args ← convert_s 0 (-1) (-1) (AStr a (t ++ 0 :: r) :: args); mret (fmt, args));
    let '(fmt, args) := x in format_loop fuel fmt args) env st); [done|].
  assert (convert_s 0 (-1) (-1) (AStr a (t ++ 0 :: r) :: args) env st = (_ ← emit_all t; mret args) env st) as Hc.
  { transitivity ((n ← lift (strnlen (t ++ 0 :: r) (wrap64 (-1))); w ← pad_string (sgn32 n) (-1);
      _ ← emit_string (Z.to_nat (sgn32 n)) (t ++ 0 :: r); _ ← pad_string (sgn32 n) w; mret args) env st); [done|].
    rewrite strnlen_text by (done || change (wrap64 (-1)) with (2 ^ 64 - 1); lia). unfold mbind at 1, fm_bind at 1, lift at 1.
    rewrite sgn_small, Nat2Z.id by lia.
    assert (forall w, w <= -1 -> - 2 ^ 31 < w -> pad_string (Z.of_nat (length t)) w = mret (w - 1)) as Hpad.
    { intros w Hw Hw2. unfold pad_string. rewrite emits_neg by lia. destruct (Z.ltb_spec (Z.of_nat (length t)) w); [lia|].
      rewrite sgn32_neg by lia. done. }
    rewrite Hpad by lia. unfold mbind at 1, fm_bind at 1, mret at 1, fm_ret at 1. 
    unfold mbind at 1, fm_bind at 1. rewrite emit_string_all. unfold mbind at 2, fm_bind at 2.
    destruct (emit_all t env st) as [[[] st']| |]; [|done..]. by rewrite Hpad by lia. }
  unfold mbind at 1, fm_bind at 1. unfold mbind at 1, fm_bind at 1. rewrite Hc. unfold mbind, fm_bind.
  destruct (emit_all t env st) as [[[] st']| |]; [|done..]. simpl. apply Ht.
Qed.

Lemma text_c fuel fmt v args text :
  fmt <> [] -> prints_text fuel fmt args text -> prints_text (S fuel) (37 :: 99 :: fmt) (ANum v :: args) (wrap 8 v :: text).
Proof.
  intros Hf Ht env st.
  assert (parse_spec (99 :: fmt) (ANum v :: args) = Ok (Spec 0 (-1) (-1) (-1), 99 :: fmt, ANum v :: args)) as Hp by reflexivity.
  transitivity ((x ← lift (parse_spec (99 :: fmt) (ANum v :: args));
    let '(sp, fmt, args) := x in x ← convert sp fmt args; let '(fmt, args) := x in format_loop fuel fmt args) env st); [done|].
  rewrite Hp. transitivity ((x ← (args ← convert_c 0 (-1) (ANum v :: args); mret (fmt, args));
    let '(fmt, args) := x in format_loop fuel fmt args) env st); [done|].
  assert (convert_c 0 (-1) (ANum v :: args) env st = (_ ← emit (wrap 8 v); mret args) env st) as Hc.
  { unfold convert_c, mbind, fm_bind. simpl. by destruct (emit (wrap 8 v) env st) as [[[] ?]| |]. }
  unfold mbind at 1, fm_bind at 1. unfold mbind at 1, fm_bind at 1. rewrite Hc. cbn [emit_all]. unfold mbind, fm_bind.
  destruct (emit (wrap 8 v) env st) as [[[] st']| |]; [|done..]. simpl. apply Ht.
Qed.

Lemma text_lit fuel cs fmt args text :
  Forall (fun c => c <> 0 /\ c <> 37) cs -> prints_text fuel fmt args text ->
  prints_text (length cs + fuel) (cs ++ fmt) args (cs ++ text).
Proof. intros Hcs Ht. induction Hcs as [|c cs [H0 H37] _ IH]; [done|]. by apply text_char. Qed.

(** The text is written, its terminator after it, and nothing else; a text that does not fit
    is written past the end of the buffer. *)
Lemma emit_all_written contents buf text : forall o,
  Z.of_nat (length o + length text) < 2 ^ 32 - 1 -> (length o <= length contents)%nat ->
  emit_all text (PEnv buf (buf + (2 ^ 32 - 1) - 1)) (PSt (o ++ drop (length o) contents) (Z.of_nat (length o)) []) =
  if decide (length o + length text <= length contents)%nat
  then Ok ((), PSt ((o ++ text) ++ drop (length (o ++ text)) contents) (Z.of_nat (length (o ++ text))) [])
  else Bug BAD_ACCESS.
Proof.
  induction text as [|c text IH]; intros o Ho Hc; cbn [emit_all].
  { rewrite app_nil_r. simpl. by rewrite decide_True by lia. }
  cbn [length] in *. unfold mbind, fm_bind. unfold emit. cbn [e_buf e_end p_str p_buf p_stores].
  rewrite (proj2 (Z.leb_le _ _)) by lia. destruct (decide (length o = length contents)) as [He|He].
  - rewrite wr_out; [by rewrite decide_False by lia|]. rewrite length_app, length_drop. lia.
  - rewrite wr_in by (rewrite length_app, length_drop; lia). rewrite Nat2Z.id, insert_app_r_alt, Nat.sub_diag by lia.
    destruct (lookup_lt_is_Some_2 contents (length o)) as [x Hx]; [lia|]. rewrite (drop_S _ x) by done. cbn [insert list_insert].
    specialize (IH (o ++ [c])). rewrite !length_app in IH. cbn [length] in IH.
    replace (length o + 1)%nat with (S (length o)) in IH by lia. replace (Z.of_nat (length o) + 1) with (Z.of_nat (S (length o))) by lia.
    rewrite <- !app_assoc in IH. cbn [app] in IH. rewrite IH by lia.
    rewrite !length_app, <- app_assoc. cbn [length app]. rewrite Nat.add_succ_r. done.
Qed.

Lemma sprintf_text fmt args text buf contents :
  prints_text (length fmt) fmt args text -> 1 <= buf -> buf + 2 ^ 32 <= 2 ^ 64 -> Z.of_nat (length text) < 2 ^ 31 ->
  sprintf buf contents fmt args =
  if decide (length text < length contents)%nat
  then Ok (Z.of_nat (length text), text ++ 0 :: drop (S (length text)) contents, []) else Bug BAD_ACCESS.
Proof.
  intros Ht Hb1 Hb2 Hl. unfold sprintf, vsprintf, vsnprintf. rewrite buffer_end_ok by lia. rewrite Ht.
  pose proof (emit_all_written contents buf text []) as He. cbn [length app Nat.add] in He. rewrite drop_0 in He. change (Z.of_nat 0) with 0 in He. rewrite He by lia.
  destruct (decide (length text < length contents)%nat) as [Hlt|Hge].
  - rewrite decide_True by lia. cbn [mbind res_bind p_str p_buf p_stores]. rewrite (proj2 (Z.leb_le _ _)) by lia.
    rewrite wr_in by (rewrite length_app, length_drop; lia). cbn [mbind res_bind]. rewrite sgn_small by lia.
    rewrite Nat2Z.id, insert_app_r_alt, Nat.sub_diag by lia.
    destruct (lookup_lt_is_Some_2 contents (length text)) as [x Hx]; [lia|]. by rewrite (drop_S _ x) by done.
  - destruct (decide _) as [Hle|]; [|done]. cbn [mbind res_bind p_str p_buf p_stores]. rewrite (proj2 (Z.leb_le _ _)) by lia.
    rewrite wr_out; [done|]. rewrite length_app, length_drop. lia.
Qed.
