(* ===== verification/Sched.v ===== *)
(** The thread scheduler ([sched.c], [include/guk/sched.h]): definitions.

    Threads and timers are records in finite maps keyed by their addresses; the
    linked lists of the kernel are sequences of these addresses (that the pointer
    code of [list.h] implements the sequence operations is proved in
    [ListHead]).  A thread's [ready_list] node is in at most one of the ready
    queue, the zombie queue and the joiner lists, and [list_del_init] takes it
    out of whichever it is in.  Adding a node that is already linked would
    corrupt two lists; the model stops there with [BAD_ACCESS].

    Functions run on a CPU given as [cpu] ([smp_processor_id()]); what they take
    from the clock, from the application scheduler and from the hypervisor is in
    [sched_env], and calls out of the component are appended to [sched_log].  A
    function that calls [schedule] in the middle is two definitions, before and
    after the switch.  Spin locks are modelled in [Spinlock]; here a function is one
    atomic step. *)

From S2P Require Import Prelude.

(** ** Thread flags *)

Definition RUNNABLE_FLAG : Z := 0x1.
Definition RUNNING_FLAG : Z := 0x2.
Definition RESCHED_FLAG : Z := 0x4.
Definition DYING_FLAG : Z := 0x8.
Definition REQ_DEBUG_SUSPEND_FLAG : Z := 0x10.
Definition STEPPING_FLAG : Z := 0x20.
Definition DEBUG_SUSPEND_FLAG : Z := 0x40.
Definition INTERRUPTED_FLAG : Z := 0x80.
Definition UKERNEL_FLAG : Z := 0x100.
Definition JOIN_FLAG : Z := 0x200.
Definition AUX1_FLAG : Z := 0x400.
Definition AUX2_FLAG : Z := 0x800.
Definition SLEEP_FLAG : Z := 0x1000.
Definition APPSCHED_FLAG : Z := 0x2000.
Definition WATCH_FLAG : Z := 0x4000.

Definition PREEMPT_ACTIVE : Z := 0x10000000.

Record thread := Thread {
  preempt_count : Z;            (** [int] *)
  flags : Z;                    (** [u32] *)
  regs : Z;                     (** address of the saved registers, 0 for none *)
  id : Z;                       (** [uint16_t] *)
  appsched_id : Z;              (** [int16_t] *)
  guk_stack_allocated : bool;
  t_timeslice : Z;              (** [u64], as the next three *)
  resched_running_time : Z;
  start_running_time : Z;
  cum_running_time : Z;
  t_cpu : Z;                    (** [unsigned int]; [-1] is [2^32-1] *)
  lock_count : Z;               (** [int] *)
  started : bool;               (** its saved [ip] is inside [schedule], not at [thread_starter] *)
  joiners : list Z              (** the threads on its joiner list *)
}.

Definition set_flags (v : Z) (t : thread) : thread :=
  Thread (preempt_count t) v (regs t) (id t) (appsched_id t) (guk_stack_allocated t) (t_timeslice t)
    (resched_running_time t) (start_running_time t) (cum_running_time t) (t_cpu t) (lock_count t) (started t) (joiners t).
Definition set_preempt_count (v : Z) (t : thread) : thread :=
  Thread v (flags t) (regs t) (id t) (appsched_id t) (guk_stack_allocated t) (t_timeslice t)
    (resched_running_time t) (start_running_time t) (cum_running_time t) (t_cpu t) (lock_count t) (started t) (joiners t).
Definition set_regs (v : Z) (t : thread) : thread :=
  Thread (preempt_count t) (flags t) v (id t) (appsched_id t) (guk_stack_allocated t) (t_timeslice t)
    (resched_running_time t) (start_running_time t) (cum_running_time t) (t_cpu t) (lock_count t) (started t) (joiners t).
Definition set_appsched_id (v : Z) (t : thread) : thread :=
  Thread (preempt_count t) (flags t) (regs t) (id t) v (guk_stack_allocated t) (t_timeslice t)
    (resched_running_time t) (start_running_time t) (cum_running_time t) (t_cpu t) (lock_count t) (started t) (joiners t).
Definition set_t_timeslice (v : Z) (t : thread) : thread :=
  Thread (preempt_count t) (flags t) (regs t) (id t) (appsched_id t) (guk_stack_allocated t) v
    (resched_running_time t) (start_running_time t) (cum_running_time t) (t_cpu t) (lock_count t) (started t) (joiners t).
Definition set_times (resched start cum : Z) (t : thread) : thread :=
  Thread (preempt_count t) (flags t) (regs t) (id t) (appsched_id t) (guk_stack_allocated t) (t_timeslice t)
    resched start cum (t_cpu t) (lock_count t) (started t) (joiners t).
Definition set_t_cpu (v : Z) (t : thread) : thread :=
  Thread (preempt_count t) (flags t) (regs t) (id t) (appsched_id t) (guk_stack_allocated t) (t_timeslice t)
    (resched_running_time t) (start_running_time t) (cum_running_time t) v (lock_count t) (started t) (joiners t).
Definition set_started (v : bool) (t : thread) : thread :=
  Thread (preempt_count t) (flags t) (regs t) (id t) (appsched_id t) (guk_stack_allocated t) (t_timeslice t)
    (resched_running_time t) (start_running_time t) (cum_running_time t) (t_cpu t) (lock_count t) v (joiners t).
Definition set_joiners (v : list Z) (t : thread) : thread :=
  Thread (preempt_count t) (flags t) (regs t) (id t) (appsched_id t) (guk_stack_allocated t) (t_timeslice t)
    (resched_running_time t) (start_running_time t) (cum_running_time t) (t_cpu t) (lock_count t) (started t) v.

(** [thread->flags & FLAG], [|= FLAG], [&= ~FLAG] *)
Definition is_flag (f : Z) (t : thread) : bool := negb (Z.land (flags t) f =? 0).
Definition set_flag (f : Z) (t : thread) : thread := set_flags (Z.lor (flags t) f) t.
Definition clear_flag (f : Z) (t : thread) : thread := set_flags (Z.land (flags t) (Z.lnot f)) t.

Abbreviation is_runnable := (is_flag RUNNABLE_FLAG).
Abbreviation is_running := (is_flag RUNNING_FLAG).
Abbreviation need_resched := (is_flag RESCHED_FLAG).
Abbreviation is_dying := (is_flag DYING_FLAG).
Abbreviation is_req_debug_suspend := (is_flag REQ_DEBUG_SUSPEND_FLAG).
Abbreviation is_stepped := (is_flag STEPPING_FLAG).
Abbreviation is_debug_suspend := (is_flag DEBUG_SUSPEND_FLAG).
Abbreviation is_interrupted := (is_flag INTERRUPTED_FLAG).
Abbreviation is_ukernel := (is_flag UKERNEL_FLAG).
Abbreviation is_joining := (is_flag JOIN_FLAG).
Abbreviation is_sleeping := (is_flag SLEEP_FLAG).
Abbreviation is_appsched := (is_flag APPSCHED_FLAG).

(** ** Timers *)

Definition ACTIVE_SQ_FLAG : Z := 0x1.
Definition EXPIRED_SQ_FLAG : Z := 0x2.

Record sleep_queue_t := SQ { sq_flags : Z; wakeup_time : Z; sq_thread : Z }.

Definition sq_flag (f : Z) (q : sleep_queue_t) : bool := negb (Z.land (sq_flags q) f =? 0).
Definition sq_set (f : Z) (q : sleep_queue_t) : sleep_queue_t := SQ (Z.lor (sq_flags q) f) (wakeup_time q) (sq_thread q).
Definition sq_clear (f : Z) (q : sleep_queue_t) : sleep_queue_t :=
  SQ (Z.land (sq_flags q) (Z.lnot f)) (wakeup_time q) (sq_thread q).

(** ** State *)

Record cpu_private := CPU { idle_thread : Z; current_thread : Z; cpu_up : bool }.

(** Calls out of the scheduler. *)
Inductive sched_event :=
| SignalCpu (cpu : Z)                     (** [smp_signal_cpu] *)
| BlockUpcall (id cpu : Z)
| WakeUpcall (id cpu : Z)
| AttachUpcall (id tcpu cpu : Z)
| DetachUpcall (id cpu : Z)
| DescheduleUpcall (cpu : Z)
| SetTimer (slice : Z)                    (** [set_timer_interrupt] *)
| DestroyUpcall (thread : Z)              (** [guk_invoke_destroy] *)
| FreeThread (thread : Z) (guk_stack : bool).   (** its stack and itself are freed *)

Record sched := Sched {
  threads : gmap Z thread;
  timers : gmap Z sleep_queue_t;
  ready_queue : list Z;
  sleep_queue : list Z;
  zombie_queue : list Z;
  thread_list : list Z;
  cpus : list cpu_private;
  upcalls_active : bool;
  thread_id : Z;                (** [uint16_t] *)
  debug_thread_id : Z;          (** [uint16_t] *)
  timeslice : Z;
  sched_log : list sched_event
}.

Definition set_threads v s := Sched v (timers s) (ready_queue s) (sleep_queue s) (zombie_queue s) (thread_list s)
  (cpus s) (upcalls_active s) (thread_id s) (debug_thread_id s) (timeslice s) (sched_log s).
Definition set_timers v s := Sched (threads s) v (ready_queue s) (sleep_queue s) (zombie_queue s) (thread_list s)
  (cpus s) (upcalls_active s) (thread_id s) (debug_thread_id s) (timeslice s) (sched_log s).
Definition set_ready_queue v s := Sched (threads s) (timers s) v (sleep_queue s) (zombie_queue s) (thread_list s)
  (cpus s) (upcalls_active s) (thread_id s) (debug_thread_id s) (timeslice s) (sched_log s).
Definition set_sleep_queue v s := Sched (threads s) (timers s) (ready_queue s) v (zombie_queue s) (thread_list s)
  (cpus s) (upcalls_active s) (thread_id s) (debug_thread_id s) (timeslice s) (sched_log s).
Definition set_zombie_queue v s := Sched (threads s) (timers s) (ready_queue s) (sleep_queue s) v (thread_list s)
  (cpus s) (upcalls_active s) (thread_id s) (debug_thread_id s) (timeslice s) (sched_log s).
Definition set_thread_list v s := Sched (threads s) (timers s) (ready_queue s) (sleep_queue s) (zombie_queue s) v
  (cpus s) (upcalls_active s) (thread_id s) (debug_thread_id s) (timeslice s) (sched_log s).
Definition set_cpus v s := Sched (threads s) (timers s) (ready_queue s) (sleep_queue s) (zombie_queue s) (thread_list s)
  v (upcalls_active s) (thread_id s) (debug_thread_id s) (timeslice s) (sched_log s).
Definition set_ids v w s := Sched (threads s) (timers s) (ready_queue s) (sleep_queue s) (zombie_queue s) (thread_list s)
  (cpus s) (upcalls_active s) v w (timeslice s) (sched_log s).
Definition set_upcalls_active v s := Sched (threads s) (timers s) (ready_queue s) (sleep_queue s) (zombie_queue s)
  (thread_list s) (cpus s) v (thread_id s) (debug_thread_id s) (timeslice s) (sched_log s).
Definition set_timeslice v s := Sched (threads s) (timers s) (ready_queue s) (sleep_queue s) (zombie_queue s)
  (thread_list s) (cpus s) (upcalls_active s) (thread_id s) (debug_thread_id s) v (sched_log s).
Definition log (e : sched_event) s := Sched (threads s) (timers s) (ready_queue s) (sleep_queue s) (zombie_queue s)
  (thread_list s) (cpus s) (upcalls_active s) (thread_id s) (debug_thread_id s) (timeslice s) (sched_log s ++ [e]).

(** What the component reads from outside: the two clocks and the application
    scheduler. *)
Record sched_env := SchedEnv {
  NOW : Z;
  running_time : Z;                       (** [get_running_time()] *)
  smp_init_completed : bool;
  scheduler_upcall : Z -> option Z;       (** the thread it picked for a CPU *)
  runnable_upcall : Z -> bool;
  pick_cpu_upcall : Z
}.

Definition SECONDS (x : Z) : Z := x * 1000000000.
Definition MILLISECS (x : Z) : Z := x * 1000000.
Definition MAX_SLEEP : Z := 10.

(** ** Access *)

Definition thr (s : sched) (t : Z) : res thread := access (threads s !! t).

Definition upd (t : Z) (f : thread -> thread) (s : sched) : res sched :=
  th ← thr s t; Ok (set_threads (<[t := f th]> (threads s)) s).

Definition timer (s : sched) (q : Z) : res sleep_queue_t := access (timers s !! q).

Definition upd_timer (q : Z) (f : sleep_queue_t -> sleep_queue_t) (s : sched) : res sched :=
  x ← timer s q; Ok (set_timers (<[q := f x]> (timers s)) s).

Definition per_cpu (s : sched) (cpu : Z) : res cpu_private :=
  access (if 0 <=? cpu then cpus s !! Z.to_nat cpu else None).

Definition current (s : sched) (cpu : Z) : res Z := c ← per_cpu s cpu; Ok (current_thread c).

(** ** The [ready_list] node of a thread *)

Definition remove_from (t : Z) (l : list Z) : list Z := filter (fun x => x <> t) l.

(** Is the node on some list? *)
Definition linked (t : Z) (s : sched) : bool :=
  bool_decide (t ∈ ready_queue s) || bool_decide (t ∈ zombie_queue s) ||
  bool_decide (map_Exists (fun _ th => t ∈ joiners th) (threads s)).

(** [list_del_init(&thread->ready_list)] *)
Definition unlink (t : Z) (s : sched) : sched :=
  set_threads ((fun th => set_joiners (remove_from t (joiners th)) th) <$> threads s)
    (set_zombie_queue (remove_from t (zombie_queue s))
       (set_ready_queue (remove_from t (ready_queue s)) s)).

(** [list_add_tail(&thread->ready_list, ...)] *)
Definition add_ready (t : Z) (s : sched) : res sched :=
  if linked t s then Bug BAD_ACCESS else Ok (set_ready_queue (ready_queue s ++ [t]) s).
Definition add_zombie (t : Z) (s : sched) : res sched :=
  if linked t s then Bug BAD_ACCESS else Ok (set_zombie_queue (zombie_queue s ++ [t]) s).
Definition add_joiner (t joinee : Z) (s : sched) : res sched :=
  if linked t s then Bug BAD_ACCESS else upd joinee (fun j => set_joiners (joiners j ++ [t]) j) s.

(** ** Preemption counts *)

(** [add_preempt_count(ti, val)]: the count is an [int]. *)
Definition add_preempt_count (t val : Z) (s : sched) : res sched :=
  th ← thr s t;
  let n := sgn32 (preempt_count th + val) in
  _ ← bug_on (n <? 0);
  upd t (set_preempt_count n) s.

Definition preempt_disable (cpu : Z) (s : sched) : res sched :=
  t ← current s cpu; add_preempt_count t 1 s.

(** [preempt_enable] up to the check for rescheduling, which is the step
    [preempt_schedule] of the thread if it has to be taken. *)
Definition preempt_enable_no_resched (cpu : Z) (s : sched) : res sched :=
  t ← current s cpu; add_preempt_count t (-1) s.

Definition is_preemptible (th : thread) : bool :=
  (preempt_count th =? 0) || (preempt_count th =? PREEMPT_ACTIVE).

Section Operations.
Context (E : sched_env) (cpu : Z).

(** ** Blocking and waking *)

Definition guk_kick_cpu (target : Z) (s : sched) : sched :=
  if (0 <=? sgn32 target) && smp_init_completed E then log (SignalCpu (sgn32 target)) s else s.

Definition guk_block (t : Z) (s : sched) : res sched :=
  th ← thr s t;
  if is_runnable th then
    if upcalls_active s && is_appsched th then
      s ← preempt_disable cpu s;
      s ← upd t (clear_flag RUNNABLE_FLAG) s;
      preempt_enable_no_resched cpu (log (BlockUpcall (appsched_id th) cpu) s)
    else
      s ← upd t (clear_flag RUNNABLE_FLAG) s;
      Ok (unlink t s)
  else Ok s.

Definition db_wake (t : Z) (s : sched) : res sched :=
  th ← thr s t;
  s ← (if upcalls_active s && is_appsched th then
         s ← preempt_disable cpu s;
         s ← upd t (set_flag RUNNABLE_FLAG) s;
         preempt_enable_no_resched cpu (log (WakeUpcall (appsched_id th) cpu) s)
       else
         if is_runnable th then Ok s else
         s ← upd t (set_flag RUNNABLE_FLAG) s;
         add_ready t s);
  Ok (if t_cpu th =? cpu then s else guk_kick_cpu (t_cpu th) s).

Definition guk_wake (t : Z) (s : sched) : res sched :=
  s ← upd t (set_regs 0) s;
  th ← thr s t;
  if is_debug_suspend th then Ok s
  else if is_req_debug_suspend th then
    s ← upd t (clear_flag REQ_DEBUG_SUSPEND_FLAG) s;
    upd t (set_flag DEBUG_SUSPEND_FLAG) s
  else
    _ ← bug_on (is_dying th);
    if negb (is_runnable th) || (upcalls_active s && is_appsched th) then db_wake t s else Ok s.

(** ** The sleep queue *)

(** Insertion before the first entry with a later wake up time. *)
Fixpoint sleep_insert (tm : gmap Z sleep_queue_t) (q : Z) (w : Z) (l : list Z) : res (list Z) :=
  match l with
  | [] => Ok [q]
  | e :: l' =>
      x ← access (tm !! e);
      if w <? wakeup_time x then Ok (q :: l) else l' ← sleep_insert tm q w l'; Ok (e :: l')
  end.

Definition guk_sleep_queue_add (q : Z) (s : sched) : res sched :=
  x ← timer s q;
  if bool_decide (q ∈ sleep_queue s) then Bug BAD_ACCESS else
  l ← sleep_insert (timers s) q (wakeup_time x) (sleep_queue s);
  upd_timer q (sq_set ACTIVE_SQ_FLAG) (set_sleep_queue l s).

Definition guk_sleep_queue_del (q : Z) (s : sched) : res sched :=
  upd_timer q (sq_clear ACTIVE_SQ_FLAG) (set_sleep_queue (remove_from q (sleep_queue s)) s).

Definition guk_create_timer (q : Z) (thread0 time0 : Z) (s : sched) : sched :=
  set_timers (<[q := SQ 0 time0 thread0]> (timers s)) s.

Definition guk_delete_timer (q : Z) (s : sched) : sched := set_timers (delete q (timers s)) s.

Definition guk_add_timer (q timeout : Z) (s : sched) : res sched :=
  t ← current s cpu;
  s ← upd_timer q (fun x => SQ (sq_flags x) (sgn 64 (NOW E + timeout * 1000000)) t) s;
  guk_sleep_queue_add q s.

Definition guk_remove_timer (q : Z) (s : sched) : res (Z * sched) :=
  s ← guk_sleep_queue_del q s;
  x ← timer s q;
  if sq_flag EXPIRED_SQ_FLAG x then s ← upd_timer q (sq_clear EXPIRED_SQ_FLAG) s; Ok (1, s)
  else Ok (0, s).

(** The loop of [wake_expired] over the sleep queue. *)
Fixpoint wake_expired_loop (l : list Z) (s : sched) : res sched :=
  match l with
  | [] => Ok s
  | q :: l =>
      x ← timer s q;
      if sq_flag EXPIRED_SQ_FLAG x then wake_expired_loop l s
      else if wakeup_time x <=? NOW E then
        s ← upd_timer q (sq_set EXPIRED_SQ_FLAG) s;
        s ← guk_wake (sq_thread x) s;
        wake_expired_loop l s
      else Ok s
  end.

Definition wake_expired (s : sched) : res sched := wake_expired_loop (sleep_queue s) s.

Definition blocking_time (s : sched) : res Z :=
  w ← match sleep_queue s with
      | [] => Ok (NOW E + SECONDS MAX_SLEEP)
      | q :: _ =>
          x ← timer s q;
          th ← thr s (sq_thread x);
          if is_ukernel th || (t_cpu th =? cpu) then Ok (wakeup_time x) else Ok (NOW E + SECONDS MAX_SLEEP)
      end;
  Ok (if w <? NOW E then -1 else w).

(** ** Choosing and switching *)

(** The eligible threads of the ready queue. *)
Definition eligible (pcpu : Z) (s : sched) (th : thread) : bool :=
  is_runnable th && negb (is_running th && negb (t_cpu th =? pcpu)) &&
  (negb (upcalls_active s) || is_ukernel th || (t_cpu th =? pcpu)).

(** The scan of [pick_thread]; [i] is bounded by the last thread id, a [BUG]
    beyond it. *)
Fixpoint pick_scan (pcpu : Z) (s : sched) (i : Z) (l : list Z) : res (option Z) :=
  match l with
  | [] => Ok None
  | t :: l =>
      _ ← bug_on (thread_id s <? i + 1);
      th ← thr s t;
      if eligible pcpu s th then Ok (Some t) else pick_scan pcpu s (i + 1) l
  end.

(** [pcpu] is the parameter [cpu] of the function, the CPU field of [prev]. *)
Definition pick_thread (prev pcpu : Z) (s : sched) : res (Z * sched) :=
  c ← per_cpu s cpu;
  p ← thr s prev;
  s ← (if (negb (upcalls_active s) || negb (is_appsched p)) && is_runnable p && negb (prev =? idle_thread c)
       then add_ready prev (unlink prev s) else Ok s);
  r ← pick_scan pcpu s 0 (ready_queue s);
  match r with
  | Some next =>
      th ← thr s next;
      _ ← bug_on (is_running th && negb (t_cpu th =? pcpu));
      s ← upd next (set_flag RUNNING_FLAG) s;
      Ok (next, if upcalls_active s && is_appsched p then log (DescheduleUpcall pcpu) s else s)
  | None =>
      match (if upcalls_active s then scheduler_upcall E pcpu else None) with
      | None => s ← upd (idle_thread c) (set_flag RUNNING_FLAG) s; Ok (idle_thread c, s)
      | Some next =>
          th ← thr s next;
          _ ← bug_on (is_running th && negb (t_cpu th =? pcpu));
          s ← upd next (set_flag RUNNING_FLAG) s;
          Ok (next, s)
      end
  end.

(** What the thread switched to does first: [switch_thread_in], then, unless
    this is its first run, [preempt_enable]. *)
Definition schedule_resume (prev next : Z) (s : sched) : res sched :=
  s ← upd prev (clear_flag RUNNING_FLAG) s;
  n ← thr s next;
  if started n then preempt_enable_no_resched cpu s else upd next (set_started true) s.

(** The part of [guk_schedule] after [next] is chosen; [c] is this CPU. *)
Definition schedule_commit (c : cpu_private) (prev next pcpu : Z) (s : sched) : res sched :=
  n ← thr s next;
  _ ← bug_on (is_dying n);
  s ← upd next (set_t_cpu pcpu) s;
  p ← thr s prev;
  s ← (if is_stepped p then Ok s else upd prev (clear_flag RESCHED_FLAG) s);
  n ← thr s next;
  s ← upd next (set_times (wrap64 (running_time E + t_timeslice n)) (running_time E) (cum_running_time n)) s;
  let s := log (SetTimer (t_timeslice n)) s in
  if prev =? next then preempt_enable_no_resched cpu s
  else
    let s := set_cpus (<[Z.to_nat cpu := CPU (idle_thread c) next (cpu_up c)]> (cpus s)) s in
    schedule_resume prev next s.

Definition guk_schedule (irqs_off in_irq : bool) (s : sched) : res sched :=
  _ ← bug_on in_irq;
  _ ← bug_on irqs_off;
  c ← per_cpu s cpu;
  let prev := current_thread c in
  p ← thr s prev;
  _ ← bug_on (negb (lock_count p =? 0));
  _ ← bug_on (negb (is_preemptible p));
  s ← upd prev (fun p => set_times (resched_running_time p) (start_running_time p)
        (wrap64 (cum_running_time p + (running_time E - start_running_time p))) p) s;
  s ← wake_expired s;
  s ← add_preempt_count prev 1 s;
  p ← thr s prev;
  let pcpu := t_cpu p in
  pc ← per_cpu s pcpu;
  '(next, s) ←
    (if cpu_up pc then
       '(next, s) ← pick_thread prev pcpu s;
       n ← thr s next;
       _ ← bug_on (negb (is_runnable n) && negb (next =? idle_thread pc));
       Ok (next, s)
     else Ok (idle_thread pc, s));
  schedule_commit c prev next pcpu s.

(** ** Exit and join *)

(** [guk_join_thread] up to its call of [schedule], which it makes unless the
    calling thread is dying. *)
Definition join_begin (joinee : Z) (s : sched) : res (bool * sched) :=
  this ← current s cpu;
  th ← thr s this;
  if is_dying th then Ok (false, s) else
  s ← upd this (set_regs 0) s;
  s ← guk_block this s;
  s ← upd this (set_flag JOIN_FLAG) s;
  s ← add_joiner this joinee s;
  Ok (true, s).

(** The rest of [guk_join_thread] after [schedule] returned. *)
Definition join_end (this : Z) (s : sched) : res (Z * sched) :=
  th ← thr s this;
  if is_interrupted th then s ← upd this (clear_flag INTERRUPTED_FLAG) s; Ok (-1, s)
  else Ok (0, s).

Fixpoint wake_joiners_loop (l : list Z) (s : sched) : res sched :=
  match l with
  | [] => Ok s
  | t :: l =>
      s ← upd t (clear_flag JOIN_FLAG) s;
      s ← guk_wake t (unlink t s);
      wake_joiners_loop l s
  end.

Definition wake_joiners (joinee : Z) (s : sched) : res sched :=
  th ← thr s joinee; wake_joiners_loop (joiners th) s.

(** [exit_thread] up to its call of [schedule]. *)
Definition exit_begin (s : sched) : res sched :=
  t ← current s cpu;
  th ← thr s t;
  let s := if is_ukernel th then s else log (DestroyUpcall t) s in
  s ← preempt_disable cpu s;
  _ ← bug_on (negb (is_running th));
  s ← guk_block t s;
  s ← upd t (set_flag DYING_FLAG) s;
  s ← add_zombie t s;
  th ← thr s t;
  s ← (if bool_decide (joiners th = []) then Ok s else wake_joiners t s);
  preempt_enable_no_resched cpu s.

(** The body of the loop of [reap_dead]; freeing the structure removes it from
    the thread map. *)
Fixpoint reap_loop (l : list Z) (s : sched) : res sched :=
  match l with
  | [] => Ok s
  | t :: l =>
      th ← thr s t;
      if is_dying th && (negb (is_running th) && (t_cpu th =? cpu)) then
        let s := unlink t s in
        s ← (if bool_decide (joiners th = []) then Ok s else wake_joiners t s);
        let s := log (FreeThread t (guk_stack_allocated th)) s in
        reap_loop l (set_threads (delete t (threads s)) (set_thread_list (remove_from t (thread_list s)) s))
      else reap_loop l s
  end.

Definition reap_dead (s : sched) : res sched := reap_loop (zombie_queue s) s.

(** ** Sleeping and interrupting *)

(** [guk_nanosleep] up to its call of [schedule]; [q] is the address of its
    local timer. *)
Definition nanosleep_begin (q nanosecs : Z) (s : sched) : res sched :=
  t ← current s cpu;
  let s := set_timers (<[q := SQ 0 0 t]> (timers s)) s in
  s ← preempt_disable cpu s;
  s ← guk_block t s;
  s ← upd_timer q (fun x => SQ (sq_flags x) (sgn 64 (NOW E + nanosecs)) (sq_thread x)) s;
  s ← upd t (set_flag SLEEP_FLAG) s;
  s ← guk_sleep_queue_add q s;
  preempt_enable_no_resched cpu s.

(** The rest of [guk_nanosleep] in thread [t]; the timer leaves scope. *)
Definition nanosleep_end (t q : Z) (s : sched) : res (Z * sched) :=
  th ← thr s t;
  s ← (if is_sleeping th then
         s ← upd t (clear_flag SLEEP_FLAG) s; guk_sleep_queue_del q s
       else Ok s);
  s ← upd_timer q (sq_clear EXPIRED_SQ_FLAG) s;
  th ← thr s t;
  let s' := guk_delete_timer q in
  if is_interrupted th then s ← upd t (clear_flag INTERRUPTED_FLAG) s; Ok (-1, s' s)
  else Ok (0, s' s).

Definition guk_interrupt (t : Z) (s : sched) : res sched :=
  th ← thr s t;
  if is_runnable th || is_running th || is_dying th then Ok s else
  s ← (if is_joining th then upd t (clear_flag JOIN_FLAG) (unlink t s) else Ok s);
  s ← upd t (set_flag INTERRUPTED_FLAG) s;
  guk_wake t s.

(** ** Threads *)

Definition get_thread_by_id (i : Z) (s : sched) : res (option Z) :=
  foldr (fun t k => th ← thr s t; if id th =? i then Ok (Some t) else k) (Ok None) (thread_list s).

(** [create_thread_with_id_stack]: [t] is the address [arch_create_thread] got
    for the structure, [fpregs] whether the page for the floating point
    registers could be allocated.  [flags] and the fields set here are those of
    the source; the structure comes from the allocator. *)
Definition create_thread_with_id_stack (t : option Z) (fpregs : bool) (fl : Z) (java_stack : bool) (tid : Z)
    (s : sched) : res (option Z * sched) :=
  match t with
  | None => Ok (None, s)
  | Some t =>
      if negb fpregs then Ok (None, s) else
      let c := if negb java_stack || negb (upcalls_active s) then wrap32 (-1) else wrap32 (pick_cpu_upcall E) in
      let th := Thread 0 fl 0 tid (-1) (negb java_stack) (timeslice s) 0 0 0 c 0 false [] in
      let th := clear_flag RUNNING_FLAG th in
      let s := set_threads (<[t := th]> (threads s)) s in
      let s := set_thread_list (thread_list s ++ [t]) s in
      _ ← bug_on (tid =? 0);
      s ← guk_wake t s;
      Ok (Some t, s)
  end.

(** [thread_id++] is evaluated with the arguments. *)
Definition guk_create_thread_with_stack (t : option Z) (fpregs : bool) (fl : Z) (java_stack : bool) (s : sched)
    : res (option Z * sched) :=
  create_thread_with_id_stack t fpregs fl java_stack (thread_id s)
    (set_ids (wrap 16 (thread_id s + 1)) (debug_thread_id s) s).

Definition create_thread (t : option Z) (fpregs : bool) (fl : Z) (s : sched) : res (option Z * sched) :=
  guk_create_thread_with_stack t fpregs fl false s.

Definition create_debug_thread (t : option Z) (fpregs : bool) (s : sched) : res (option Z * sched) :=
  create_thread_with_id_stack t fpregs UKERNEL_FLAG false (debug_thread_id s)
    (set_ids (thread_id s) (wrap 16 (debug_thread_id s + 1)) s).

(** The idle thread of CPU [c]; it is not put on any list. *)
Definition create_idle_thread (t c : Z) (s : sched) : sched :=
  set_threads (<[t := set_flag RUNNING_FLAG
    (Thread 1 UKERNEL_FLAG 0 (wrap 16 c) (-1) true 0 0 0 0 (wrap32 c) 0 true [])]> (threads s)) s.

Definition guk_set_timeslice (t ms : Z) (s : sched) : res (Z * sched) :=
  th ← thr s t;
  s ← upd t (set_t_timeslice (wrap64 (MILLISECS ms))) s;
  Ok (sgn32 (t_timeslice th), s).

Definition guk_attach_to_appsched (t i : Z) (s : sched) : res sched :=
  if upcalls_active s then
    s ← preempt_disable cpu s;
    s ← guk_block t s;
    s ← upd t (set_flag APPSCHED_FLAG) s;
    s ← upd t (set_flag RUNNABLE_FLAG) s;
    s ← upd t (set_appsched_id (sgn 16 i)) s;
    th ← thr s t;
    preempt_enable_no_resched cpu (log (AttachUpcall (appsched_id th) (t_cpu th) cpu) s)
  else Ok s.

Definition guk_detach_from_appsched (t : Z) (s : sched) : res sched :=
  if upcalls_active s then
    s ← preempt_disable cpu s;
    th ← thr s t;
    let s := log (DetachUpcall (appsched_id th) cpu) s in
    s ← upd t (clear_flag APPSCHED_FLAG) s;
    s ← upd t (set_appsched_id (-1)) s;
    s ← upd t (clear_flag RUNNABLE_FLAG) s;
    s ← guk_wake t s;
    preempt_enable_no_resched cpu s
  else Ok s.

(** [guk_register_upcalls]: only the activation; the functions are those of the
    environment. *)
Definition guk_register_upcalls (allowed : bool) (s : sched) : Z * sched :=
  if allowed && negb (upcalls_active s) then (0, set_upcalls_active true s) else (1, s).

(** Is there work for the idle thread to go back to? *)
Definition runnable_threads (s : sched) : res bool :=
  r ← foldr (fun t k => th ← thr s t;
       if is_runnable th && negb (is_running th) && (is_ukernel th || (t_cpu th =? cpu)) then Ok true else k)
     (Ok false) (ready_queue s);
  Ok (r || (upcalls_active s && runnable_upcall E cpu)).

Definition guk_not_idle_or_stepped (s : sched) : res (option Z) :=
  c ← per_cpu s cpu;
  th ← thr s (current_thread c);
  Ok (if negb (current_thread c =? idle_thread c) && negb (is_stepped th) then Some (current_thread c) else None).

(** [preempt_schedule] up to its first call of [schedule]: [None] when it
    returns at once. *)
Definition preempt_schedule_begin (irqs_off : bool) (s : sched) : res (option sched) :=
  t ← current s cpu;
  th ← thr s t;
  if negb (preempt_count th =? 0) || irqs_off then Ok None else
  _ ← bug_on (negb (need_resched th));
  s ← upd t (set_regs 0) s;
  s ← add_preempt_count t PREEMPT_ACTIVE s;
  Ok (Some s).

(** Its part after [schedule] returned in thread [t]; the result says whether it
    blocks for the debugger and calls [schedule] again. *)
Definition preempt_schedule_end (t : Z) (s : sched) : res (bool * sched) :=
  s ← add_preempt_count t (- PREEMPT_ACTIVE) s;
  th ← thr s t;
  _ ← bug_on (negb (preempt_count th =? 0));
  _ ← bug_on (negb (regs th =? 0));
  if is_req_debug_suspend th then
    s ← upd t (clear_flag RESCHED_FLAG) s;
    s ← upd t (clear_flag REQ_DEBUG_SUSPEND_FLAG) s;
    s ← upd t (set_flag DEBUG_SUSPEND_FLAG) s;
    s ← guk_block t s;
    Ok (true, s)
  else Ok (false, s).
End Operations.
