(* ===== verification/SchedInv.v ===== *)
(** The scheduler's invariant and its preservation by the operations of
    [Sched]: which threads are on which queue, that exactly the threads marked
    running are current on their CPU, and that the sleep queue is ordered. *)

From S2P Require Import Prelude Sched.

(** ** Flags *)

Lemma is_flag_set_self f t : f <> 0 -> is_flag f (set_flag f t) = true.
Proof.
  intros Hf. unfold is_flag, set_flag. simpl. rewrite Z.land_lor_distr_l, Z.land_diag.
  apply negb_true_iff, Z.eqb_neq. intros H. apply Z.lor_eq_0_iff in H. tauto.
Qed.

Lemma is_flag_set_other f g t : Z.land g f = 0 -> is_flag f (set_flag g t) = is_flag f t.
Proof. intros Hfg. unfold is_flag, set_flag. simpl. by rewrite Z.land_lor_distr_l, Hfg, Z.lor_0_r. Qed.

Lemma is_flag_clear_self f t : is_flag f (clear_flag f t) = false.
Proof.
  unfold is_flag, clear_flag. simpl. rewrite <- Z.land_assoc, (Z.land_comm (Z.lnot f)).
  by rewrite Z.land_lnot_diag, Z.land_0_r.
Qed.

Lemma is_flag_clear_other f g t : Z.land g f = 0 -> is_flag f (clear_flag g t) = is_flag f t.
Proof.
  intros Hfg. unfold is_flag, clear_flag. simpl. rewrite <- Z.land_assoc. do 3 f_equal.
  apply Z.bits_inj'. intros n Hn. rewrite Z.land_spec, Z.lnot_spec by done.
  assert (Z.testbit g n && Z.testbit f n = false) as H by (by rewrite <- Z.land_spec, Hfg, Z.bits_0).
  destruct (Z.testbit g n), (Z.testbit f n); done.
Qed.

(** Evaluate the flags of an updated thread. *)
Ltac flags :=
  repeat first
    [ rewrite is_flag_set_self by done
    | rewrite is_flag_clear_self
    | rewrite is_flag_set_other by reflexivity
    | rewrite is_flag_clear_other by reflexivity ].

Ltac flags_in H :=
  repeat first
    [ rewrite is_flag_set_self in H by done
    | rewrite is_flag_clear_self in H
    | rewrite is_flag_set_other in H by reflexivity
    | rewrite is_flag_clear_other in H by reflexivity ].

(** ** The invariant *)

(** The thread belongs on the ready queue. *)
Definition queued (s : sched) (th : thread) : bool :=
  is_runnable th && negb (upcalls_active s && is_appsched th).

(** Threads that wait on no list of the scheduler. *)
Definition free_node (s : sched) (t : Z) : Prop :=
  t ∉ ready_queue s /\ t ∉ zombie_queue s /\ forall j jth, threads s !! j = Some jth -> t ∉ joiners jth.

Record sched_ok (s : sched) : Prop := SchedOk {
  ok_ready : forall t, t ∈ ready_queue s <-> exists th, threads s !! t = Some th /\ queued s th = true;
  ok_ready_nodup : NoDup (ready_queue s);
  ok_zombie : forall t, t ∈ zombie_queue s -> exists th, threads s !! t = Some th /\ is_dying th = true;
  ok_dying : forall t th, threads s !! t = Some th -> is_dying th = true -> is_runnable th = false;
  ok_joiner : forall j jth t, threads s !! j = Some jth -> t ∈ joiners jth ->
    exists th, threads s !! t = Some th /\ is_joining th = true /\ is_runnable th = false /\ is_dying th = false;
  ok_joiner_one : forall j1 j2 t1 t2 t, threads s !! j1 = Some t1 -> threads s !! j2 = Some t2 ->
    t ∈ joiners t1 -> t ∈ joiners t2 -> j1 = j2;
  ok_joiner_nodup : forall j jth, threads s !! j = Some jth -> NoDup (joiners jth);
  ok_idle : forall c cp, cpus s !! c = Some cp ->
    exists th, threads s !! idle_thread cp = Some th /\ is_runnable th = false /\ is_dying th = false /\
      t_cpu th = Z.of_nat c;
  ok_current : forall c cp, cpus s !! c = Some cp ->
    exists th, threads s !! current_thread cp = Some th /\ is_running th = true /\ t_cpu th = Z.of_nat c;
  ok_running : forall t th, threads s !! t = Some th -> is_running th = true ->
    started th = true /\ exists c cp, cpus s !! c = Some cp /\ current_thread cp = t;
  ok_switched : forall t th, threads s !! t = Some th -> started th = true -> is_running th = false ->
    1 <= preempt_count th < 2 ^ 31;
  ok_count : Z.of_nat (size (threads s)) <= thread_id s
}.

Lemma not_linked s t : free_node s t -> linked t s = false.
Proof.
  intros (H1 & H2 & H3). unfold linked. rewrite !bool_decide_eq_false_2 by done. simpl.
  apply bool_decide_eq_false_2. intros (j & jth & Hj & Hin). by apply (H3 j jth).
Qed.

Lemma remove_from_id t l : t ∉ l -> remove_from t l = l.
Proof.
  unfold remove_from. induction l as [|x l IH]; intros Hx; [done|].
  apply not_elem_of_cons in Hx as [Hx Hl]. rewrite filter_cons_True by congruence. by rewrite IH.
Qed.

Lemma elem_of_remove t x l : x ∈ remove_from t l <-> x <> t /\ x ∈ l.
Proof. unfold remove_from. by rewrite list_elem_of_filter. Qed.

Lemma remove_nodup t l : NoDup l -> NoDup (remove_from t l).
Proof. apply NoDup_filter. Qed.

(** Taking a thread that is on no list off its list changes nothing. *)
Lemma unlink_joiners_id s t :
  (forall j jth, threads s !! j = Some jth -> t ∉ joiners jth) ->
  (fun th => set_joiners (remove_from t (joiners th)) th) <$> threads s = threads s.
Proof.
  intros H. apply map_eq. intros j. rewrite lookup_fmap. destruct (threads s !! j) as [jth|] eqn:E; [|done].
  simpl. rewrite remove_from_id by (by eapply H). by destruct jth.
Qed.

(** A thread that is neither joining nor dying is at most on the ready queue. *)
Lemma only_ready s t th :
  sched_ok s -> threads s !! t = Some th -> is_dying th = false -> is_joining th = false \/ is_runnable th = true ->
  t ∉ zombie_queue s /\ forall j jth, threads s !! j = Some jth -> t ∉ joiners jth.
Proof.
  intros Hok Ht Hd Hj. split.
  - intros Hz. destruct (ok_zombie s Hok t Hz) as (th' & Ht' & Hd'). naive_solver congruence.
  - intros j jth Hjt Hin. destruct (ok_joiner s Hok j jth t Hjt Hin) as (th' & Ht' & ? & ? & ?). naive_solver congruence.
Qed.

Lemma unlink_ready s t th :
  sched_ok s -> threads s !! t = Some th -> is_dying th = false -> is_joining th = false \/ is_runnable th = true ->
  unlink t s = set_ready_queue (remove_from t (ready_queue s)) s.
Proof.
  intros Hok Ht Hd Hj. destruct (only_ready s t th Hok Ht Hd Hj) as [Hz Hjo].
  unfold unlink. rewrite unlink_joiners_id by done. rewrite remove_from_id by done. by destruct s.
Qed.

Lemma upd_eq s t th f : threads s !! t = Some th -> upd t f s = Ok (set_threads (<[t := f th]> (threads s)) s).
Proof. intros H. unfold upd, thr. by rewrite H. Qed.

Lemma thr_eq s t th : threads s !! t = Some th -> thr s t = Ok th.
Proof. intros H. unfold thr. by rewrite H. Qed.

(** ** A change of one thread

    The clauses of the invariant that a change of the record of [t] must
    respect, with the queue it implies. *)

Lemma sched_ok_update s t th th' rq :
  sched_ok s -> threads s !! t = Some th ->
  joiners th' = joiners th -> t_cpu th' = t_cpu th -> is_running th' = is_running th ->
  is_dying th' = is_dying th -> started th' = started th ->
  preempt_count th' = preempt_count th \/ is_running th = true ->
  (is_joining th = true -> is_runnable th = false -> is_joining th' = true /\ is_runnable th' = false \/
     forall j jth, threads s !! j = Some jth -> t ∉ joiners jth) ->
  (is_dying th = true -> is_runnable th' = false) ->
  (is_runnable th' = true -> is_runnable th = true \/ forall c cp, cpus s !! c = Some cp -> idle_thread cp <> t) ->
  (forall x, x ∈ rq <-> if decide (x = t) then queued s th' = true else x ∈ ready_queue s) -> NoDup rq ->
  sched_ok (set_ready_queue rq (set_threads (<[t := th']> (threads s)) s)).
Proof.
  intros Hok Ht Hj Hc Hr Hd Hst Hpc Hjo Hdr Hidle Hrq Hnd.
  assert (forall x xth, <[t := th']> (threads s) !! x = Some xth ->
    exists xth0, threads s !! x = Some xth0 /\ joiners xth = joiners xth0 /\ is_running xth = is_running xth0 /\
      t_cpu xth = t_cpu xth0 /\ started xth = started xth0 /\ (preempt_count xth = preempt_count xth0 \/ is_running xth0 = true)) as Hback.
  { intros x xth Hx. destruct (decide (x = t)) as [->|Hne]; simplify_map_eq; [exists th|exists xth]; split_and!; auto. }
  destruct Hok as [A1 A2 A3 A4 A5 A6 A7 A8 A9 A10 A12 A11].
  split; cbn [ready_queue zombie_queue threads cpus thread_id set_ready_queue set_threads upcalls_active].
  - intros x. rewrite Hrq. destruct (decide (x = t)) as [->|Hne]; simplify_map_eq.
    + unfold queued. simpl. naive_solver.
    + apply A1.
  - done.
  - intros x Hx. destruct (A3 x Hx) as (xth & Hxt & Hxd). destruct (decide (x = t)) as [->|]; simplify_map_eq; eauto.
  - intros x xth Hx Hxd. destruct (decide (x = t)) as [->|]; simplify_map_eq; [apply Hdr; congruence|by eapply A4].
  - intros j jth x Hjj Hin. destruct (Hback j jth Hjj) as (jth0 & Hj0 & Hjeq & _). rewrite Hjeq in Hin.
    destruct (A5 j jth0 x Hj0 Hin) as (xth & Hx & Hx1 & Hx2 & Hx3).
    destruct (decide (x = t)) as [->|]; simplify_map_eq; [|eauto].
    destruct (Hjo Hx1 Hx2) as [[? ?]|Hno]; [|by apply (Hno j jth0) in Hin].
    exists th'. by rewrite Hd.
  - intros j1 j2 t1 t2 x H1 H2. destruct (Hback _ _ H1) as (? & ? & -> & _), (Hback _ _ H2) as (? & ? & -> & _). by eapply A6.
  - intros j jth H1. destruct (Hback _ _ H1) as (? & ? & -> & _). by eapply A7.
  - intros c cp Hcp. destruct (A8 c cp Hcp) as (xth & Hx & Hx1 & Hx2 & Hx3).
    destruct (decide (idle_thread cp = t)) as [Heq|]; [|by simplify_map_eq; eauto].
    rewrite Heq in *. simplify_map_eq. exists th'. split_and!; [done| |congruence|congruence].
    destruct (is_runnable th') eqn:E; [|done]. destruct (Hidle eq_refl) as [|Hno]; [congruence|by apply (Hno c cp) in Hcp].
  - intros c cp Hcp. destruct (A9 c cp Hcp) as (xth & Hx & Hx1 & Hx2).
    destruct (decide (current_thread cp = t)) as [Heq|]; [|by simplify_map_eq; eauto].
    rewrite Heq in *. simplify_map_eq. exists th'. split_and!; [done|congruence|congruence].
  - intros x xth Hx Hxr. destruct (Hback _ _ Hx) as (xth0 & Hx0 & _ & Hreq & _ & Hseq & _). rewrite Hseq. eapply A10; [exact Hx0|congruence].
  - intros x xth Hx Hxs Hxr. destruct (Hback _ _ Hx) as (xth0 & Hx0 & _ & Hreq & _ & Hseq & Hpe).
    destruct Hpe as [->|]; [|congruence]. eapply A12; [exact Hx0|congruence..].
  - rewrite map_size_insert_Some by done. done.
Qed.

(** ** Blocking and waking *)

(** Nothing but threads, the ready queue and the log changed. *)
Definition frame (s s' : sched) : Prop :=
  timers s' = timers s /\ sleep_queue s' = sleep_queue s /\ zombie_queue s' = zombie_queue s /\
  thread_list s' = thread_list s /\ cpus s' = cpus s /\ upcalls_active s' = upcalls_active s /\
  thread_id s' = thread_id s /\ debug_thread_id s' = debug_thread_id s /\ timeslice s' = timeslice s.

Lemma frame_refl s : frame s s.
Proof. done. Qed.

Lemma frame_trans s1 s2 s3 : frame s1 s2 -> frame s2 s3 -> frame s1 s3.
Proof. unfold frame. intuition congruence. Qed.

(** The CPU has a current thread whose preemption can be disabled once more. *)
Definition quiet (s : sched) (cpu : Z) : Prop :=
  exists cp th, per_cpu s cpu = Ok cp /\ threads s !! current_thread cp = Some th /\ 0 <= preempt_count th < 2 ^ 31 - 1.

Lemma sched_ok_log s e : sched_ok s -> sched_ok (log e s).
Proof. intros []. by split. Qed.

Lemma add_preempt_count_eq s t th v :
  threads s !! t = Some th -> 0 <= preempt_count th + v < 2 ^ 31 ->
  add_preempt_count t v s = Ok (set_threads (<[t := set_preempt_count (preempt_count th + v) th]> (threads s)) s).
Proof.
  intros Ht Hv. unfold add_preempt_count. rewrite (thr_eq _ _ _ Ht). cbn [mbind res_bind].
  rewrite sgn_id by (simpl; lia). destruct (Z.ltb_spec (preempt_count th + v) 0); [lia|]. simpl. by rewrite (upd_eq _ _ _ _ Ht).
Qed.

Lemma preempt_bracket cpu s t th g e :
  quiet s cpu -> threads s !! t = Some th ->
  (forall x, preempt_count (g x) = preempt_count x) ->
  (forall x v, g (set_preempt_count v x) = set_preempt_count v (g x)) ->
  (s ← preempt_disable cpu s; s ← upd t g s; preempt_enable_no_resched cpu (log e s)) =
  Ok (log e (set_threads (<[t := g th]> (threads s)) s)).
Proof.
  intros (cp & c & Hcp & Hc & Hpc) Ht Hg1 Hg2. unfold preempt_disable, preempt_enable_no_resched, current.
  rewrite Hcp. cbn [mbind res_bind]. rewrite (add_preempt_count_eq _ _ _ _ Hc) by lia. cbn [mbind res_bind].
  destruct (decide (t = current_thread cp)) as [->|Hne].
  - rewrite Hc in Ht. injection Ht as <-. erewrite upd_eq by (simpl; by rewrite lookup_insert_eq). cbn [mbind res_bind].
    change (per_cpu (log _ (set_threads _ (set_threads _ s))) cpu) with (per_cpu s cpu). rewrite Hcp. cbn [mbind res_bind].
    erewrite add_preempt_count_eq; [|simpl; by rewrite lookup_insert_eq|rewrite Hg1; simpl; lia].
    f_equal. unfold log, set_threads. simpl. f_equal. rewrite !insert_insert_eq, Hg1, Hg2. f_equal. simpl.
    pose proof (Hg1 c) as H. destruct (g c). simpl in H. unfold set_preempt_count. simpl. f_equal. lia.
  - erewrite upd_eq by (simpl; rewrite lookup_insert_ne by done; exact Ht). cbn [mbind res_bind].
    change (per_cpu (log _ (set_threads _ (set_threads _ s))) cpu) with (per_cpu s cpu). rewrite Hcp. cbn [mbind res_bind].
    erewrite add_preempt_count_eq; [|simpl; rewrite lookup_insert_ne by done; by rewrite lookup_insert_eq|simpl; lia].
    f_equal. unfold log, set_threads. simpl. f_equal. rewrite insert_insert_ne by done. rewrite insert_insert_eq.
    f_equal. apply insert_id. rewrite Hc. f_equal. destruct c. unfold set_preempt_count. simpl. f_equal. lia.
Qed.

Lemma set_ready_same s : set_ready_queue (ready_queue s) s = s.
Proof. by destruct s. Qed.

Lemma block_spec cpu s t th :
  sched_ok s -> quiet s cpu -> threads s !! t = Some th -> is_runnable th = true ->
  exists s', guk_block cpu t s = Ok s' /\ sched_ok s' /\ frame s s' /\
    threads s' = <[t := clear_flag RUNNABLE_FLAG th]> (threads s) /\
    ready_queue s' = remove_from t (ready_queue s).
Proof.
  intros Hok Hq Ht Hr. pose proof (ok_dying s Hok t th Ht) as Hdy.
  assert (is_dying th = false) as Hd by (destruct (is_dying th); [by rewrite Hdy in Hr|done]).
  assert (sched_ok (set_ready_queue (remove_from t (ready_queue s))
            (set_threads (<[t := clear_flag RUNNABLE_FLAG th]> (threads s)) s))) as Hok'.
  { apply (sched_ok_update s t th); try done; flags; try done; try congruence; try by left.
    - intros x. rewrite elem_of_remove. case_decide; [|naive_solver]. unfold queued. flags. naive_solver.
    - apply remove_nodup, Hok. }
  unfold guk_block. rewrite (thr_eq _ _ _ Ht). cbn [mbind res_bind]. rewrite Hr.
  destruct (upcalls_active s && is_appsched th) eqn:Hup.
  - rewrite (preempt_bracket cpu s t th) by done. eexists. split; [done|].
    assert (t ∉ ready_queue s) as Hnr.
    { intros Hin. apply (ok_ready s Hok) in Hin as (th' & Ht' & Hqd). simplify_eq. unfold queued in Hqd.
      by rewrite Hr, Hup in Hqd. }
    rewrite remove_from_id in Hok' by done. rewrite remove_from_id by done.
    split_and!; try done. apply sched_ok_log. rewrite <- set_ready_same. exact Hok'.
  - rewrite (upd_eq _ _ _ _ Ht). cbn [mbind res_bind]. eexists. split; [done|].
    destruct (only_ready s t th Hok Ht Hd) as [Hz Hjo]; [by right|].
    assert (unlink t (set_threads (<[t := clear_flag RUNNABLE_FLAG th]> (threads s)) s) =
      set_ready_queue (remove_from t (ready_queue s)) (set_threads (<[t := clear_flag RUNNABLE_FLAG th]> (threads s)) s)) as Heq.
    { unfold unlink. rewrite unlink_joiners_id; cbn [threads set_threads].
      - cbn [zombie_queue set_threads]. rewrite remove_from_id by done. by destruct s.
      - intros j jth Hj. destruct (decide (j = t)) as [->|]; simplify_map_eq; [|by eapply Hjo].
        by apply (Hjo t th). }
    rewrite Heq. by split_and!.
Qed.

Lemma set_flag_id f t : is_flag f t = true -> (exists k, 0 <= k /\ f = 2 ^ k) -> set_flag f t = t.
Proof.
  intros Hf (k & Hk & ->). unfold is_flag in Hf. apply negb_true_iff, Z.eqb_neq in Hf.
  assert (Z.testbit (flags t) k = true) as Hb.
  { destruct (Z.testbit (flags t) k) eqn:E; [done|]. destruct Hf. apply Z.bits_inj'. intros n Hn.
    rewrite Z.land_spec, Z.bits_0, Z.pow2_bits_eqb by done. destruct (Z.eqb_spec k n) as [->|]; [by rewrite E|by rewrite andb_false_r]. }
  assert (Z.lor (flags t) (2 ^ k) = flags t) as Heq.
  { apply Z.bits_inj'. intros n Hn. rewrite Z.lor_spec, Z.pow2_bits_eqb by done.
    destruct (Z.eqb_spec k n) as [->|]; [by rewrite Hb|by rewrite orb_false_r]. }
  unfold set_flag. rewrite Heq. by destruct t.
Qed.

(** What [guk_wake] makes of a thread. *)
Definition woken (th : thread) : thread :=
  let th := set_regs 0 th in
  if is_debug_suspend th then th
  else if is_req_debug_suspend th then set_flag DEBUG_SUSPEND_FLAG (clear_flag REQ_DEBUG_SUSPEND_FLAG th)
  else set_flag RUNNABLE_FLAG th.

(** The thread is not the idle thread of any CPU. *)
Definition not_idle (s : sched) (t : Z) : Prop := forall c cp, cpus s !! c = Some cp -> idle_thread cp <> t.

(** Waking is allowed: the thread is not dying, not on a joiner list and not idle. *)
Definition wakeable (s : sched) (t : Z) (th : thread) : Prop :=
  threads s !! t = Some th /\ is_dying th = false /\ not_idle s t /\
  forall j jth, threads s !! j = Some jth -> t ∉ joiners jth.

Lemma frame_kick E target s : frame s (guk_kick_cpu E target s) /\ threads (guk_kick_cpu E target s) = threads s /\
  ready_queue (guk_kick_cpu E target s) = ready_queue s /\ (sched_ok s -> sched_ok (guk_kick_cpu E target s)).
Proof. unfold guk_kick_cpu. destruct (_ && _); split_and!; auto using sched_ok_log, frame_refl. done. Qed.

Lemma db_wake_spec E cpu s t th :
  sched_ok s -> quiet s cpu -> wakeable s t th ->
  (is_runnable th = true -> upcalls_active s && is_appsched th = true) ->
  exists s', db_wake E cpu t s = Ok s' /\ sched_ok s' /\ frame s s' /\
    threads s' = <[t := set_flag RUNNABLE_FLAG th]> (threads s) /\
    ready_queue s' = if upcalls_active s && is_appsched th then ready_queue s else ready_queue s ++ [t].
Proof.
  intros Hok Hq (Ht & Hd & Hni & Hnj) Hr. unfold db_wake. rewrite (thr_eq _ _ _ Ht). cbn [mbind res_bind].
  assert (t ∉ zombie_queue s) as Hnz.
  { intros Hz. destruct (ok_zombie s Hok t Hz) as (? & ? & ?). congruence. }
  assert (t ∉ ready_queue s) as Hnr.
  { intros Hin. apply (ok_ready s Hok) in Hin as (th' & Ht' & Hqd). simplify_eq. unfold queued in Hqd.
    apply andb_prop in Hqd as [Hx Hy]. by rewrite Hr in Hy. }
  set (rq := if upcalls_active s && is_appsched th then ready_queue s else ready_queue s ++ [t]).
  assert (sched_ok (set_ready_queue rq (set_threads (<[t := set_flag RUNNABLE_FLAG th]> (threads s)) s))) as Hok'.
  { apply (sched_ok_update s t th); try done; flags; try done; try congruence; try by left.
    - intros _ _. by right.
    - intros _. right. done.
    - intros x. unfold queued. flags. subst rq. destruct (upcalls_active s && is_appsched th); case_decide; subst; simpl.
      + naive_solver.
      + done.
      + set_solver.
      + set_solver.
    - subst rq. pose proof (ok_ready_nodup s Hok). destruct (_ && _); [done|]. apply NoDup_app. set_solver by auto using NoDup_singleton. }
  match goal with |- context [mbind _ ?m] => set (m1 := m) end.
  assert (exists s1, m1 = Ok s1 /\ sched_ok s1 /\ frame s s1 /\ threads s1 = <[t := set_flag RUNNABLE_FLAG th]> (threads s) /\
    ready_queue s1 = rq) as (s1 & -> & H1 & H2 & H3 & H4).
  { subst m1. destruct (upcalls_active s && is_appsched th) eqn:Hup.
    - rewrite (preempt_bracket cpu s t th) by done. eexists. split; [done|]. split_and!; try done.
      apply sched_ok_log. rewrite <- set_ready_same. exact Hok'.
    - destruct (is_runnable th); [by specialize (Hr eq_refl)|].
      rewrite (upd_eq _ _ _ _ Ht). cbn [mbind res_bind]. unfold add_ready.
      rewrite not_linked. { eexists. split; [done|]. by split_and!. }
      split_and!; try done. intros j jth Hj. destruct (decide (j = t)) as [->|]; simpl in Hj; simplify_map_eq; [|by eapply Hnj].
      by apply (Hnj t th). }
  cbn [mbind res_bind]. eexists. split; [done|]. destruct (t_cpu th =? cpu); [by split_and!|].
  destruct (frame_kick E (t_cpu th) s1) as (F1 & F2 & F3 & F4). split_and!; [by apply F4|by eapply frame_trans|congruence..].
Qed.

Lemma woken_facts th :
  joiners (woken th) = joiners th /\ t_cpu (woken th) = t_cpu th /\ is_running (woken th) = is_running th /\
  is_dying (woken th) = is_dying th /\ is_joining (woken th) = is_joining th /\ is_appsched (woken th) = is_appsched th /\
  is_ukernel (woken th) = is_ukernel th /\ is_interrupted (woken th) = is_interrupted th /\ preempt_count (woken th) = preempt_count th /\
  lock_count (woken th) = lock_count th /\ started (woken th) = started th /\
  (is_runnable th = true -> is_runnable (woken th) = true) /\
  (is_debug_suspend th = true -> is_debug_suspend (woken th) = true) /\
  (is_runnable (woken th) = true \/ is_debug_suspend (woken th) = true) /\
  is_runnable (woken th) = is_runnable th || negb (is_debug_suspend th || is_req_debug_suspend th).
Proof.
  unfold woken. cbv zeta. change (is_debug_suspend (set_regs 0 th)) with (is_debug_suspend th).
  change (is_req_debug_suspend (set_regs 0 th)) with (is_req_debug_suspend th).
  destruct (is_debug_suspend th) eqn:E1, (is_req_debug_suspend th); simpl; flags;
    change (is_debug_suspend (set_regs 0 th)) with (is_debug_suspend th);
    change (is_runnable (set_regs 0 th)) with (is_runnable th); rewrite ?orb_true_r, ?orb_false_r, ?E1; splits; auto.
Qed.

(** The state after [thread->regs = NULL]. *)
Definition regs_cleared (t : Z) (th : thread) (s : sched) : sched :=
  set_threads (<[t := set_regs 0 th]> (threads s)) s.

Lemma regs_cleared_ok cpu s t th :
  sched_ok s -> quiet s cpu -> wakeable s t th ->
  sched_ok (regs_cleared t th s) /\ quiet (regs_cleared t th s) cpu /\ wakeable (regs_cleared t th s) t (set_regs 0 th).
Proof.
  intros Hok Hq (Ht & Hd & Hni & Hnj). unfold regs_cleared. splits.
  - rewrite <- set_ready_same. apply (sched_ok_update s t th); try done; [by left|by intros; left|exact (ok_dying s Hok t th Ht)|by left| |apply Hok].
    intros x. simpl. case_decide as Hx; [subst|done]. rewrite (ok_ready s Hok). change (queued s (set_regs 0 th)) with (queued s th). naive_solver.
  - destruct Hq as (cp & c & Hcp & Hc & Hpc). exists cp. destruct (decide (current_thread cp = t)) as [Heq|].
    + exists (set_regs 0 th). rewrite Heq. split_and!; try done; [simpl; by rewrite lookup_insert_eq|..]; rewrite Heq in Hc; simplify_eq; simpl; lia.
    + exists c. split; [done|]. split; [simpl; by rewrite lookup_insert_ne|done].
  - split_and!; try done; [simpl; by rewrite lookup_insert_eq|]. intros j jth Hj. simpl in Hj.
    destruct (decide (j = t)) as [->|]; simplify_map_eq; [by apply (Hnj t th)|by eapply Hnj].
Qed.

Lemma wake_spec E cpu s t th :
  sched_ok s -> quiet s cpu -> wakeable s t th ->
  exists s', guk_wake E cpu t s = Ok s' /\ sched_ok s' /\ frame s s' /\
    threads s' = <[t := woken th]> (threads s) /\
    ready_queue s' = if queued s th || negb (queued s (woken th)) then ready_queue s else ready_queue s ++ [t].
Proof.
  intros Hok Hq Hw. pose proof Hw as (Ht & Hd & Hni & Hnj).
  destruct (regs_cleared_ok cpu s t th Hok Hq Hw) as (Hok0 & Hq0 & Hw0). unfold regs_cleared in *.
  set (s0 := set_threads (<[t := set_regs 0 th]> (threads s)) s) in *.
  assert (threads s0 !! t = Some (set_regs 0 th)) as Ht0 by (simpl; by rewrite lookup_insert_eq).
  unfold guk_wake. rewrite (upd_eq _ _ _ _ Ht). cbn [mbind res_bind]. fold s0. rewrite (thr_eq _ _ _ Ht0). cbn [mbind res_bind].
  unfold woken. cbv zeta.
  destruct (is_debug_suspend (set_regs 0 th)) eqn:E1.
  { exists s0. split_and!; try done. change (queued s (set_regs 0 th)) with (queued s th). by destruct (queued s th). }
  destruct (is_req_debug_suspend (set_regs 0 th)) eqn:E2.
  { rewrite (upd_eq _ _ _ _ Ht0). cbn [mbind res_bind]. erewrite upd_eq by (simpl; by rewrite lookup_insert_eq).
    eexists. split; [done|].
    assert (queued s (set_flag DEBUG_SUSPEND_FLAG (clear_flag REQ_DEBUG_SUSPEND_FLAG (set_regs 0 th))) = queued s th) as Hqq.
    { unfold queued. flags. done. }
    split_and!; try done.
    - rewrite <- set_ready_same. simpl. rewrite insert_insert_eq. subst s0. simpl. rewrite !insert_insert_eq.
      change (set_threads ?m (set_threads _ (set_threads _ s))) with (set_threads m s).
      apply (sched_ok_update s t th); simpl; flags; try done; [by left|by intros; left|exact (ok_dying s Hok t th Ht)|by left| |apply Hok].
      intros x. case_decide as Hx; [subst|done]. rewrite (ok_ready s Hok), Hqq. naive_solver.
    - simpl. by rewrite !insert_insert_eq.
    - rewrite Hqq. by destruct (queued s th). }
  change (is_dying (set_regs 0 th)) with (is_dying th). rewrite Hd. cbn [bug_on mbind res_bind].
  change (is_runnable (set_regs 0 th)) with (is_runnable th). change (is_appsched (set_regs 0 th)) with (is_appsched th).
  change (upcalls_active s0) with (upcalls_active s).
  assert (queued s (set_flag RUNNABLE_FLAG (set_regs 0 th)) = negb (upcalls_active s && is_appsched th)) as Hqq.
  { unfold queued. flags. done. }
  rewrite Hqq. unfold queued. destruct (is_runnable th) eqn:Hr.
  - destruct (upcalls_active s && is_appsched th) eqn:Hup; cbn [negb orb andb].
    + destruct (db_wake_spec E cpu s0 t (set_regs 0 th) Hok0 Hq0 Hw0) as (s' & -> & H1 & H2 & H3 & H4); [done|].
      exists s'. split; [done|]. split_and!; [done|by eapply frame_trans; [|exact H2]| |].
      * rewrite H3. simpl. by rewrite insert_insert_eq.
      * rewrite H4. simpl. change (is_appsched (set_regs 0 th)) with (is_appsched th). by rewrite Hup.
    + exists s0. split_and!; try done. simpl. f_equal. symmetry. apply set_flag_id; [done|by exists 0].
  - cbn [negb orb andb].
    destruct (db_wake_spec E cpu s0 t (set_regs 0 th) Hok0 Hq0 Hw0) as (s' & -> & H1 & H2 & H3 & H4);
      [change (is_runnable (set_regs 0 th)) with (is_runnable th); congruence|].
    exists s'. split; [done|]. split_and!; [done|by eapply frame_trans; [|exact H2]| |].
    + rewrite H3. simpl. by rewrite insert_insert_eq.
    + rewrite H4. simpl. change (is_appsched (set_regs 0 th)) with (is_appsched th). by destruct (upcalls_active s && is_appsched th).
Qed.

(** ** Expired timers *)

(** What waking threads leaves of a thread. *)
Definition same_thread (th th' : thread) : Prop :=
  joiners th' = joiners th /\ t_cpu th' = t_cpu th /\ is_running th' = is_running th /\ is_dying th' = is_dying th /\
  is_joining th' = is_joining th /\ is_appsched th' = is_appsched th /\ preempt_count th' = preempt_count th /\
  lock_count th' = lock_count th /\ started th' = started th /\ (is_runnable th = true -> is_runnable th' = true) /\
  (is_debug_suspend th = true -> is_debug_suspend th' = true).

Definition same_threads (s s' : sched) : Prop := forall t,
  match threads s !! t, threads s' !! t with
  | Some th, Some th' => same_thread th th'
  | None, None => True
  | _, _ => False
  end.

Lemma same_thread_refl th : same_thread th th.
Proof. by split_and!. Qed.

Lemma same_thread_trans a b c : same_thread a b -> same_thread b c -> same_thread a c.
Proof. unfold same_thread. intuition (try congruence). Qed.

Lemma same_threads_refl s : same_threads s s.
Proof. intros t. destruct (threads s !! t); auto using same_thread_refl. Qed.

Lemma same_threads_trans s1 s2 s3 : same_threads s1 s2 -> same_threads s2 s3 -> same_threads s1 s3.
Proof.
  intros H1 H2 t. specialize (H1 t). specialize (H2 t).
  destruct (threads s1 !! t), (threads s2 !! t), (threads s3 !! t); try done. by eapply same_thread_trans.
Qed.

Lemma same_threads_lookup s s' t th : same_threads s s' -> threads s !! t = Some th ->
  exists th', threads s' !! t = Some th' /\ same_thread th th'.
Proof. intros H Ht. specialize (H t). rewrite Ht in H. destruct (threads s' !! t); [eauto|done]. Qed.

Lemma same_threads_back s s' t th' : same_threads s s' -> threads s' !! t = Some th' ->
  exists th, threads s !! t = Some th /\ same_thread th th'.
Proof. intros H Ht. specialize (H t). rewrite Ht in H. destruct (threads s !! t); [eauto|done]. Qed.

Lemma same_threads_insert s s' t th th' :
  threads s !! t = Some th -> same_thread th th' -> threads s' = <[t := th']> (threads s) -> same_threads s s'.
Proof.
  intros Ht Hs Heq x. rewrite Heq. destruct (decide (x = t)) as [->|].
  - by rewrite Ht, lookup_insert_eq.
  - rewrite lookup_insert_ne by done. destruct (threads s !! x); auto using same_thread_refl.
Qed.

Lemma same_woken th : same_thread th (woken th).
Proof. destruct (woken_facts th) as (?&?&?&?&?&?&?&?&?&?&?&?&?&?). by split_and!. Qed.

Lemma wakeable_same s s' t th :
  same_threads s s' -> cpus s' = cpus s -> wakeable s t th -> exists th', wakeable s' t th'.
Proof.
  intros Hs Hc (Ht & Hd & Hni & Hnj). destruct (same_threads_lookup _ _ _ _ Hs Ht) as (th' & Ht' & Hth').
  exists th'. split_and!; [done| | |].
  - unfold same_thread in Hth'. intuition congruence.
  - unfold not_idle. by rewrite Hc.
  - intros j jth' Hj. destruct (same_threads_back _ _ _ _ Hs Hj) as (jth & Hj0 & Hjj).
    replace (joiners jth') with (joiners jth) by (unfold same_thread in Hjj; intuition congruence). by eapply Hnj.
Qed.

Lemma quiet_same s s' cpu : same_threads s s' -> cpus s' = cpus s -> quiet s cpu -> quiet s' cpu.
Proof.
  intros Hs Hc (cp & th & Hcp & Ht & Hpc). destruct (same_threads_lookup _ _ _ _ Hs Ht) as (th' & Ht' & Hth').
  exists cp, th'. unfold per_cpu in *. rewrite Hc. split_and!; try done; unfold same_thread in Hth'; intuition (try lia).
Qed.

Definition timer_ok (s : sched) (q : Z) : Prop :=
  exists x, timers s !! q = Some x /\ (sq_flag EXPIRED_SQ_FLAG x = true \/ exists th, wakeable s (sq_thread x) th).

Definition timers_ok (s : sched) : Prop := forall q, q ∈ sleep_queue s -> timer_ok s q.

(** The timer has gone off. *)
Definition expired_in (s : sched) (q : Z) : Prop :=
  exists x, timers s !! q = Some x /\ sq_flag EXPIRED_SQ_FLAG x = true.

(** Timers only expire. *)
Definition same_timers (s s' : sched) : Prop := forall q x, timers s !! q = Some x ->
  exists x', timers s' !! q = Some x' /\ wakeup_time x' = wakeup_time x /\ sq_thread x' = sq_thread x /\
    (x' = x \/ x' = sq_set EXPIRED_SQ_FLAG x).

Lemma sq_set_self f q : f <> 0 -> sq_flag f (sq_set f q) = true.
Proof.
  intros Hf. unfold sq_flag, sq_set. simpl. rewrite Z.land_lor_distr_l, Z.land_diag.
  apply negb_true_iff, Z.eqb_neq. intros H. apply Z.lor_eq_0_iff in H. tauto.
Qed.

Lemma sq_set_idem f q : sq_set f (sq_set f q) = sq_set f q.
Proof. unfold sq_set. simpl. by rewrite <- Z.lor_assoc, Z.lor_diag. Qed.

Lemma same_timers_trans s1 s2 s3 : same_timers s1 s2 -> same_timers s2 s3 -> same_timers s1 s3.
Proof.
  intros H1 H2 q x Hx. destruct (H1 q x Hx) as (y & Hy & ? & ? & Hxy). destruct (H2 q y Hy) as (z & Hz & ? & ? & Hyz).
  exists z. split_and!; [done|congruence..|]. destruct Hxy as [->| ->], Hyz as [->| ->]; rewrite ?sq_set_idem; auto.
Qed.

Lemma timer_ok_same s s' q :
  same_threads s s' -> same_timers s s' -> cpus s' = cpus s -> timer_ok s q -> timer_ok s' q.
Proof.
  intros Hs Ht Hc (x & Hx & Hor). destruct (Ht q x Hx) as (x' & Hx' & Hw & Hth & Heq). exists x'. split; [done|].
  destruct Heq as [->| ->]; [|left; by apply sq_set_self]. destruct Hor as [|[th Hwk]]; [by left|]. right.
  by eapply wakeable_same.
Qed.

(** Everything but the threads' runnable state, the ready queue, the timers'
    flags and the log is as before. *)
Definition wakes (s s' : sched) : Prop :=
  sched_ok s' /\ same_threads s s' /\ same_timers s s' /\ sleep_queue s' = sleep_queue s /\ zombie_queue s' = zombie_queue s /\
  cpus s' = cpus s /\ upcalls_active s' = upcalls_active s /\ thread_id s' = thread_id s.

Lemma wakes_refl s : sched_ok s -> wakes s s.
Proof. intros. split_and!; auto using same_threads_refl. intros q x Hx. exists x. auto. Qed.

Lemma wakes_trans s1 s2 s3 : wakes s1 s2 -> wakes s2 s3 -> wakes s1 s3.
Proof.
  intros (?&?&?&?&?&?&?&?) (?&?&?&?&?&?&?&?).
  split_and!; [done|by eapply same_threads_trans|by eapply same_timers_trans|congruence..].
Qed.

Lemma expired_same s s' q : same_timers s s' -> expired_in s q -> expired_in s' q.
Proof.
  intros Hs (x & Hx & He). destruct (Hs q x Hx) as (x' & Hx' & _ & _ & [-> | ->]); [by exists x|].
  exists (sq_set EXPIRED_SQ_FLAG x). split; [done|by apply sq_set_self].
Qed.

(** The thread is runnable, or stopped by the debugger, which wakes it itself. *)
Definition awake (s : sched) (t : Z) : Prop :=
  exists th, threads s !! t = Some th /\ (is_runnable th = true \/ is_debug_suspend th = true).

Lemma awake_same s s' t : same_threads s s' -> awake s t -> awake s' t.
Proof.
  intros Hs (th & Ht & Hor). destruct (same_threads_lookup _ _ _ _ Hs Ht) as (th' & Ht' & Hth').
  exists th'. unfold same_thread in Hth'. intuition.
Qed.

Lemma wake_expired_loop_spec E cpu l s :
  sched_ok s -> quiet s cpu -> (forall q, q ∈ l -> timer_ok s q) ->
  exists s', wake_expired_loop E cpu l s = Ok s' /\ wakes s s' /\
    exists l1 l2, l = l1 ++ l2 /\ (forall q, q ∈ l1 -> expired_in s' q) /\
      (forall q x, q ∈ l1 -> timers s !! q = Some x -> sq_flag EXPIRED_SQ_FLAG x = false -> awake s' (sq_thread x)) /\
      (forall q, hd_error l2 = Some q -> exists x, timers s' !! q = Some x /\ NOW E < wakeup_time x).
Proof.
  revert s. induction l as [|q l IH]; intros s Hok Hq Hl.
  { exists s. split; [done|]. split; [by apply wakes_refl|]. exists [], []. split_and!; [done|set_solver|set_solver|done]. }
  destruct (Hl q ltac:(set_solver)) as (x & Hx & Hor). cbn [wake_expired_loop]. unfold timer. rewrite Hx. cbn [access mbind res_bind].
  assert (forall s1, wakes s s1 -> expired_in s1 q -> (forall q', q' <> q -> timers s1 !! q' = timers s !! q') ->
    (sq_flag EXPIRED_SQ_FLAG x = false -> awake s1 (sq_thread x)) ->
    exists s', wake_expired_loop E cpu l s1 = Ok s' /\ wakes s s' /\
    exists l1 l2, q :: l = l1 ++ l2 /\ (forall q, q ∈ l1 -> expired_in s' q) /\
      (forall q x, q ∈ l1 -> timers s !! q = Some x -> sq_flag EXPIRED_SQ_FLAG x = false -> awake s' (sq_thread x)) /\
      (forall q, hd_error l2 = Some q -> exists x, timers s' !! q = Some x /\ NOW E < wakeup_time x)) as Hrest.
  { intros s1 Hw He Hoth Haw. pose proof Hw as (Hok1 & Hst & Htm & _ & _ & Hc & _).
    destruct (IH s1) as (s' & Heq & Hw' & l1 & l2 & -> & Hl1 & Ha1 & Hl2);
      [done|by eapply quiet_same|intros q' Hq'; eapply timer_ok_same; [done..|apply Hl; set_solver]|].
    pose proof Hw' as (_ & Hst' & Htm' & _).
    exists s'. split; [done|]. split; [by eapply wakes_trans|]. exists (q :: l1), l2. split_and!; [done| | |done].
    - intros q' [->|Hin]%elem_of_cons; [|by apply Hl1]. by eapply expired_same.
    - intros q' x' Hq' Hx' He'. destruct (decide (q' = q)) as [->|Hne].
      + simplify_eq. eapply awake_same; [exact Hst'|by apply Haw].
      + apply elem_of_cons in Hq' as [|Hin]; [done|]. eapply Ha1; [exact Hin|by rewrite Hoth|done]. }
  destruct (sq_flag EXPIRED_SQ_FLAG x) eqn:Hexp.
  { apply Hrest; [by apply wakes_refl|by exists x|done|done]. }
  destruct (Z.leb_spec (wakeup_time x) (NOW E)) as [Hle|Hgt].
  - destruct Hor as [|[th Hwk]]; [done|]. unfold upd_timer, timer. rewrite Hx. cbn [access mbind res_bind].
    set (s0 := set_timers (<[q := sq_set EXPIRED_SQ_FLAG x]> (timers s)) s).
    assert (sched_ok s0) as Hok0 by (destruct Hok; by split).
    destruct (wake_spec E cpu s0 (sq_thread x) th Hok0 Hq Hwk) as (s1 & -> & Hok1 & Hf & Hth & _). cbn [mbind res_bind].
    destruct Hf as (F1 & F2 & F3 & F4 & F5 & F6 & F7 & F8 & F9). destruct Hwk as (Ht & _). apply Hrest.
    + unfold wakes. splits; [done| | |done..].
      * eapply (same_threads_insert s); [exact Ht|apply same_woken|exact Hth].
      * intros q' x' Hx'. rewrite F1. simpl. destruct (decide (q' = q)) as [->|]; simplify_map_eq; eauto 10.
    + exists (sq_set EXPIRED_SQ_FLAG x). rewrite F1. simpl. rewrite lookup_insert_eq. split; [done|by apply sq_set_self].
    + intros q' Hne. rewrite F1. simpl. by rewrite lookup_insert_ne.
    + intros _. exists (woken th). rewrite Hth, lookup_insert_eq. split; [done|].
      by destruct (woken_facts th) as (?&?&?&?&?&?&?&?&?&?&?&?&?&?&?).
  - exists s. split; [done|]. split; [by apply wakes_refl|]. exists [], (q :: l). split_and!; [done|set_solver|set_solver|].
    intros q' [= <-]. eauto.
Qed.

(** ** The ready queue after the wake ups *)

(** The threads of the timers that go off in the scan, in order: those up to the
    first timer that is neither expired before nor due. *)
Fixpoint due_threads (now : Z) (tm : gmap Z sleep_queue_t) (l : list Z) : list Z :=
  match l with
  | [] => []
  | q :: l =>
      match tm !! q with
      | None => []
      | Some x =>
          if sq_flag EXPIRED_SQ_FLAG x then due_threads now tm l
          else if wakeup_time x <=? now
          then sq_thread x :: due_threads now (<[q := sq_set EXPIRED_SQ_FLAG x]> tm) l
          else []
      end
  end.

(** A thread that is woken goes to the end of the queue, unless it is on it, is
    held by the debugger, or belongs to the application scheduler. *)
Definition enqueue (s : sched) (rq : list Z) (t : Z) : list Z :=
  match threads s !! t with
  | Some th => if bool_decide (t ∈ rq) || negb (queued s (woken th)) then rq else rq ++ [t]
  | None => rq
  end.

Definition ready_after (now : Z) (s : sched) : list Z :=
  foldl (enqueue s) (ready_queue s) (due_threads now (timers s) (sleep_queue s)).

(** Threads as they were, or woken, with other times. *)
Definition same_kind (th th' : thread) : Prop :=
  is_ukernel th' = is_ukernel th /\ is_running th' = is_running th /\ t_cpu th' = t_cpu th /\
  is_appsched th' = is_appsched th /\ is_runnable (woken th') = is_runnable (woken th).

Definition same_kinds (s s' : sched) : Prop :=
  upcalls_active s' = upcalls_active s /\
  forall t, match threads s !! t, threads s' !! t with
            | Some th, Some th' => same_kind th th'
            | None, None => True
            | _, _ => False
            end.

Lemma same_kind_woken th : same_kind th (woken th).
Proof.
  destruct (woken_facts th) as (_&H1&H2&_&_&H3&H4&_&_&_&_&H5&H6&H7&H8). unfold same_kind. splits; try done.
  destruct (woken_facts (woken th)) as (_&_&_&_&_&_&_&_&_&_&_&K5&K6&_&K8).
  destruct (is_runnable (woken th)) eqn:E; [by apply K5|]. destruct H7 as [|H7]; [done|].
  by rewrite K8, H7.
Qed.

Lemma same_kind_times a b c th : same_kind th (set_times a b c th).
Proof.
  unfold same_kind. splits; try done. destruct (woken_facts th) as (_&_&_&_&_&_&_&_&_&_&_&_&_&_&->).
  by destruct (woken_facts (set_times a b c th)) as (_&_&_&_&_&_&_&_&_&_&_&_&_&_&->).
Qed.

Lemma same_kinds_refl s : same_kinds s s.
Proof. split; [done|]. intros t. destruct (threads s !! t); [by splits|done]. Qed.

Lemma same_kinds_insert s s1 s2 t th th' :
  same_kinds s s1 -> threads s1 !! t = Some th -> same_kind th th' -> threads s2 = <[t := th']> (threads s1) ->
  upcalls_active s2 = upcalls_active s1 -> same_kinds s s2.
Proof.
  intros [Hu Hk] Ht (K1 & K2 & K3 & K4 & K5) Heq Hu2. split; [congruence|]. intros x. specialize (Hk x). rewrite Heq.
  destruct (decide (x = t)) as [->|]; [|by rewrite lookup_insert_ne].
  rewrite lookup_insert_eq. rewrite Ht in Hk. destruct (threads s !! t); [|done].
  unfold same_kind in *. intuition congruence.
Qed.

Lemma enqueue_kinds s s1 t th rq :
  same_kinds s s1 -> threads s1 !! t = Some th ->
  enqueue s rq t = if bool_decide (t ∈ rq) || negb (queued s1 (woken th)) then rq else rq ++ [t].
Proof.
  intros [Hu Hk] Ht. unfold enqueue. specialize (Hk t). rewrite Ht in Hk. destruct (threads s !! t) as [th0|]; [|done].
  destruct Hk as (_ & _ & _ & Ha & Hr). unfold queued. rewrite Hu, Hr.
  destruct (woken_facts th) as (_&_&_&_&_&->&_). destruct (woken_facts th0) as (_&_&_&_&_&->&_). by rewrite Ha.
Qed.

Lemma wake_loop_queue E cpu l s0 s s' :
  sched_ok s -> quiet s cpu -> (forall q, q ∈ l -> timer_ok s q) -> same_kinds s0 s -> wake_expired_loop E cpu l s = Ok s' ->
  same_kinds s0 s' /\ ready_queue s' = foldl (enqueue s0) (ready_queue s) (due_threads (NOW E) (timers s) l).
Proof.
  revert s. induction l as [|q l IH]; intros s Hok Hq Hl Hk; cbn [wake_expired_loop due_threads]; [by intros [= <-]|].
  destruct (Hl q ltac:(set_solver)) as (x & Hx & Hor). unfold timer. rewrite Hx. cbn [access mbind res_bind].
  destruct (sq_flag EXPIRED_SQ_FLAG x) eqn:Hexp; [apply IH; auto; set_solver|].
  destruct (Z.leb_spec (wakeup_time x) (NOW E)) as [Hle|]; [|by intros [= <-]].
  destruct Hor as [|[th Hwk]]; [done|]. unfold upd_timer, timer. rewrite Hx. cbn [access mbind res_bind].
  set (s1 := set_timers (<[q := sq_set EXPIRED_SQ_FLAG x]> (timers s)) s).
  assert (sched_ok s1) as Hok1 by (destruct Hok; by split).
  destruct (wake_spec E cpu s1 (sq_thread x) th Hok1 Hq Hwk) as (s2 & -> & Hok2 & Hf & Hth & Hrq). cbn [mbind res_bind].
  destruct Hf as (F1 & _ & _ & _ & F5 & F6 & _). pose proof Hwk as (Ht & _). intros Hrun.
  assert (same_threads s s2) as Hst by (eapply (same_threads_insert s); [exact Ht|apply same_woken|exact Hth]).
  assert (same_timers s s2) as Htm.
  { intros q' x' Hx'. rewrite F1. simpl. destruct (decide (q' = q)) as [->|]; simplify_map_eq; eauto 10. }
  apply IH in Hrun as [Hk' ->]; [split; [done|]|done|by eapply quiet_same| |].
  - rewrite F1. cbn [foldl]. f_equal. rewrite (enqueue_kinds s0 s _ th) by done. rewrite Hrq.
    change (queued s1) with (queued s). change (ready_queue s1) with (ready_queue s).
    assert (bool_decide (sq_thread x ∈ ready_queue s) = queued s th) as ->; [|done].
    apply eq_bool_prop_intro. rewrite bool_decide_spec, (ok_ready s Hok), Is_true_true. split; [|eauto].
    intros (y & Hy & Hqy). congruence.
  - intros q' Hq'. eapply timer_ok_same; [exact Hst|exact Htm|exact F5|apply Hl; set_solver].
  - by eapply (same_kinds_insert s0 s); [|exact Ht|apply same_kind_woken|exact Hth|].
Qed.

(** ** Picking a thread *)

Lemma pick_scan_spec pcpu s i l :
  (forall t, t ∈ l -> exists th, threads s !! t = Some th) -> 0 <= i -> i + Z.of_nat (length l) <= thread_id s ->
  exists r, pick_scan pcpu s i l = Ok r /\
  match r with
  | None => forall t th, t ∈ l -> threads s !! t = Some th -> eligible pcpu s th = false
  | Some t => exists th l1 l2, l = l1 ++ t :: l2 /\ threads s !! t = Some th /\ eligible pcpu s th = true /\
      forall t' th', t' ∈ l1 -> threads s !! t' = Some th' -> eligible pcpu s th' = false
  end.
Proof.
  revert i. induction l as [|t l IH]; intros i Hl Hi Hlen; cbn [pick_scan].
  { exists None. split; [done|]. set_solver. }
  destruct (Hl t ltac:(set_solver)) as [th Ht]. simpl in Hlen.
  destruct (Z.ltb_spec (thread_id s) (i + 1)); [lia|]. cbn [bug_on mbind res_bind]. rewrite (thr_eq _ _ _ Ht). cbn [mbind res_bind].
  destruct (eligible pcpu s th) eqn:He.
  - exists (Some t). split; [done|]. exists th, [], l. split_and!; [done..|set_solver].
  - destruct (IH (i + 1)) as (r & -> & Hr); [set_solver|lia|lia|]. exists r. split; [done|]. destruct r as [t'|].
    + destruct Hr as (th' & l1 & l2 & -> & H1 & H2 & H3). exists th', (t :: l1), l2. split_and!; [done..|].
      intros t'' th'' [->|Hin]%elem_of_cons Hth; [congruence|by eapply H3].
    + intros t'' th'' [->|Hin]%elem_of_cons Hth; [congruence|by eapply Hr].
Qed.

(** The ready queue after [prev] went to its end. *)
Definition rotated (prev : Z) (p : thread) (s : sched) : sched :=
  if queued s p then set_ready_queue (remove_from prev (ready_queue s) ++ [prev]) s else s.

Lemma rotated_ok s prev p : sched_ok s -> threads s !! prev = Some p -> sched_ok (rotated prev p s).
Proof.
  intros Hok Hp. unfold rotated. destruct (queued s p) eqn:Hq; [|done].
  pose proof Hok as [A1 A2 A3 A4 A5 A6 A7 A8 A9 A10 A12 A11]. split; try done.
  - intros t. simpl. rewrite elem_of_app, elem_of_remove, list_elem_of_singleton, A1.
    change (queued (set_ready_queue _ s)) with (queued s). split.
    + intros [[_ H]| ->]; [done|by exists p].
    + intros H. destruct (decide (t = prev)); [by right|by left].
  - simpl. apply NoDup_app. split_and!; [by apply remove_nodup| |apply NoDup_singleton].
    intros x [Hx _]%elem_of_remove. rewrite list_elem_of_singleton. done.
Qed.

Lemma rotate_eq s prev p c :
  sched_ok s -> threads s !! prev = Some p ->
  (exists k, cpus s !! k = Some c) ->
  (if (negb (upcalls_active s) || negb (is_appsched p)) && is_runnable p && negb (prev =? idle_thread c)
   then add_ready prev (unlink prev s) else Ok s) = Ok (rotated prev p s).
Proof.
  intros Hok Hp [k Hc]. unfold rotated, queued.
  rewrite (andb_comm (is_runnable p)), negb_andb. destruct ((_ || _) && is_runnable p) eqn:Hq; [|done].
  apply andb_prop in Hq as [_ Hr]. destruct (ok_idle s Hok k c Hc) as (ith & Hi & Hir & _).
  destruct (Z.eqb_spec prev (idle_thread c)); [congruence|]. simpl.
  assert (is_dying p = false) as Hd.
  { destruct (is_dying p) eqn:E; [|done]. by rewrite (ok_dying s Hok _ _ Hp E) in Hr. }
  rewrite (unlink_ready s prev p) by auto. unfold add_ready. rewrite not_linked; [done|].
  destruct (only_ready s prev p) as [Hz Hj]; auto. split_and!; [|done|done]. simpl. rewrite elem_of_remove. tauto.
Qed.

Lemma running_current s c cp t th :
  sched_ok s -> cpus s !! c = Some cp -> threads s !! t = Some th -> is_running th = true -> t_cpu th = Z.of_nat c ->
  t = current_thread cp.
Proof.
  intros Hok Hc Ht Hr Htc. destruct (ok_running s Hok t th Ht Hr) as (_ & c' & cp' & Hc' & Hcur).
  destruct (ok_current s Hok c' cp' Hc') as (th' & Ht' & _ & Htc'). subst t. simplify_eq.
  assert (c' = c) as -> by lia. congruence.
Qed.

(** What the application scheduler promises about the thread it picks: it is
    attached to it, runnable, and stays on the CPU. *)
Definition appsched_ok (E : sched_env) (s : sched) (cpu : Z) : Prop :=
  upcalls_active s = true -> forall t, scheduler_upcall E cpu = Some t ->
  exists th, threads s !! t = Some th /\ is_runnable th = true /\ t_cpu th = cpu.

Lemma appsched_same E s s' cpu :
  same_threads s s' -> upcalls_active s' = upcalls_active s -> appsched_ok E s cpu -> appsched_ok E s' cpu.
Proof.
  intros Hs Hu H Hup t Ht. rewrite Hu in Hup. destruct (H Hup t Ht) as (th & Hth & Hr & Hc).
  destruct (same_threads_lookup _ _ _ _ Hs Hth) as (th' & Hth' & Hsame). exists th'. unfold same_thread in Hsame. intuition congruence.
Qed.

(** The thread chosen: the first eligible one of the rotated queue, else the
    application scheduler's, else the idle thread. *)
Definition chosen (E : sched_env) (cpu : Z) (s : sched) (cp : cpu_private) (next : Z) : Prop :=
  (exists n l1 l2, ready_queue s = l1 ++ next :: l2 /\ threads s !! next = Some n /\ eligible cpu s n = true /\
     forall t th, t ∈ l1 -> threads s !! t = Some th -> eligible cpu s th = false) \/
  ((forall t th, t ∈ ready_queue s -> threads s !! t = Some th -> eligible cpu s th = false) /\
   next = default (idle_thread cp) (if upcalls_active s then scheduler_upcall E cpu else None)).

Lemma ready_length s : sched_ok s -> Z.of_nat (length (ready_queue s)) <= thread_id s.
Proof.
  intros Hok. etransitivity; [|apply (ok_count s Hok)]. apply inj_le. rewrite <- size_dom.
  rewrite <- (size_list_to_set (C:=gset Z)) by apply Hok. apply subseteq_size. intros t.
  rewrite elem_of_list_to_set, (ok_ready s Hok), elem_of_dom. intros (th & Ht & _). eauto.
Qed.

Lemma pick_thread_spec E cpu s cp p :
  sched_ok s -> 0 <= cpu -> cpus s !! Z.to_nat cpu = Some cp -> threads s !! current_thread cp = Some p ->
  appsched_ok E s cpu ->
  let s1 := rotated (current_thread cp) p s in
  exists next n s', pick_thread E cpu (current_thread cp) cpu s = Ok (next, s') /\ sched_ok s1 /\
    chosen E cpu s1 cp next /\ threads s1 !! next = Some n /\
    threads s' = <[next := set_flag RUNNING_FLAG n]> (threads s) /\ ready_queue s' = ready_queue s1 /\ frame s s' /\
    is_dying n = false /\ (is_runnable n = true \/ next = idle_thread cp) /\ (is_running n = true -> next = current_thread cp).
Proof.
  intros Hok Hcpu Hcp Hp Happ. cbv zeta.
  pose proof (rotated_ok s (current_thread cp) p Hok Hp) as Hok1. set (s1 := rotated (current_thread cp) p s) in *.
  assert (threads s1 = threads s /\ cpus s1 = cpus s /\ upcalls_active s1 = upcalls_active s /\ frame s s1) as (Ht1 & Hc1 & Hu1 & Hf1).
  { subst s1. unfold rotated. by destruct (queued s p). }
  assert (cpus s1 !! Z.to_nat cpu = Some cp) as Hcp1 by (by rewrite Hc1).
  unfold pick_thread, per_cpu. destruct (Z.leb_spec 0 cpu); [|lia]. rewrite Hcp. cbn [access mbind res_bind].
  rewrite (thr_eq _ _ _ Hp). cbn [mbind res_bind]. rewrite (rotate_eq s _ p cp Hok Hp) by eauto. fold s1. cbn [mbind res_bind].
  destruct (pick_scan_spec cpu s1 0 (ready_queue s1)) as (r & -> & Hr);
    [intros t Ht; apply (ok_ready s1 Hok1) in Ht as (th & ? & _); eauto|lia|by apply ready_length|].
  cbn [mbind res_bind].
  assert (forall n next, threads s1 !! next = Some n -> is_runnable n = true -> is_dying n = false) as Hnd.
  { intros n next Hn Hrn. destruct (is_dying n) eqn:Ed; [|done]. by rewrite (ok_dying s1 Hok1 _ _ Hn Ed) in Hrn. }
  destruct r as [next|].
  - destruct Hr as (n & l1 & l2 & Hrq & Hn & Hel & Hbef). pose proof Hel as Hel'. unfold eligible in Hel'.
    apply andb_prop in Hel' as [Hel' _]. apply andb_prop in Hel' as [Hrun Hnr]. apply negb_true_iff in Hnr.
    rewrite (thr_eq _ _ _ Hn). cbn [mbind res_bind]. rewrite Hnr. cbn [bug_on mbind res_bind].
    rewrite (upd_eq _ _ _ _ Hn). cbn [mbind res_bind]. eexists next, n, _. split; [done|]. split; [done|].
    split; [left; eauto 10|]. split; [done|].
    assert (is_running n = true -> next = current_thread cp) as Hcur.
    { intros Hrn. rewrite Hrn in Hnr. apply negb_false_iff, Z.eqb_eq in Hnr.
      eapply (running_current s1); [done|exact Hcp1|done|done|lia]. }
    destruct (upcalls_active (set_threads _ s1) && is_appsched p); (splits; [by rewrite <- Ht1|done|done|by eapply Hnd|by left|done]).
  - rewrite Hu1. destruct (if upcalls_active s then scheduler_upcall E cpu else None) as [next|] eqn:Hup.
    + destruct (upcalls_active s) eqn:Hua; [|done]. destruct (Happ Hua next Hup) as (n & Hn & Hrun & Htc).
      rewrite <- Ht1 in Hn. rewrite (thr_eq _ _ _ Hn). cbn [mbind res_bind].
      rewrite Htc, Z.eqb_refl, andb_false_r. cbn [bug_on mbind res_bind].
      rewrite (upd_eq _ _ _ _ Hn). cbn [mbind res_bind]. eexists next, n, _. split; [done|]. split; [done|].
      split; [right; split; [done|]; by rewrite Hu1, Hup|]. split; [done|].
      splits; [by rewrite <- Ht1|done|done|by eapply Hnd|by left|].
      intros Hrn. eapply (running_current s1); [done|exact Hcp1|done|done|lia].
    + destruct (ok_idle s1 Hok1 _ _ Hcp1) as (n & Hn & Hnr & Hdy & Htc).
      rewrite (upd_eq _ _ _ _ Hn). cbn [mbind res_bind]. eexists _, n, _. split; [done|]. split; [done|].
      split; [right; split; [done|]; by rewrite Hu1, Hup|]. split; [done|].
      splits; [by rewrite <- Ht1|done|done|done|by right|].
      intros Hrn. eapply (running_current s1); [done|exact Hcp1|done|done|done].
Qed.

(** ** The switch *)

(** Agreement on what decides which queue a thread is on. *)
Definition same_queues (th th' : thread) : Prop :=
  joiners th' = joiners th /\ is_dying th' = is_dying th /\ is_joining th' = is_joining th /\
  is_runnable th' = is_runnable th /\ is_appsched th' = is_appsched th.

(** The state [s'] after a switch on CPU [c] from the current thread, [p] before and [P]
    after, to [next], [n] before and [N] after. *)
Section Switch.
Variables (s s' : sched) (c : nat) (cp : cpu_private) (next : Z) (p n P N : thread).
Hypotheses (Hok : sched_ok s) (Hc : cpus s !! c = Some cp)
  (Hp : threads s !! current_thread cp = Some p) (Hn : threads s !! next = Some n)
  (Hne : next <> current_thread cp) (Hnr : is_running n = false) (Hidle : is_runnable n = true \/ t_cpu n = Z.of_nat c)
  (HqP : same_queues p P) (HqN : same_queues n N) (HrP : is_running P = false) (HrN : is_running N = true)
  (HcP : t_cpu P = t_cpu p) (HcN : t_cpu N = Z.of_nat c) (HsP : started P = true) (HsN : started N = true)
  (HpcP : 1 <= preempt_count P < 2 ^ 31)
  (Eth : threads s' = <[current_thread cp := P]> (<[next := N]> (threads s))) (Erq : ready_queue s' = ready_queue s)
  (Ezq : zombie_queue s' = zombie_queue s) (Ecpu : cpus s' = <[c := CPU (idle_thread cp) next (cpu_up cp)]> (cpus s))
  (Eup : upcalls_active s' = upcalls_active s) (Etid : thread_id s' = thread_id s).
Set Default Proof Using "All".

Lemma switch_back x xth' : threads s' !! x = Some xth' -> exists xth, threads s !! x = Some xth /\ same_queues xth xth'.
Proof.
  intros Hx. rewrite Eth in Hx. destruct (decide (x = current_thread cp)) as [->|].
  { simplify_map_eq. by exists p. }
  destruct (decide (x = next)) as [->|]; simplify_map_eq; [by exists n|]. exists xth'. by splits.
Qed.

Lemma switch_fwd x xth :
  threads s !! x = Some xth -> exists xth', threads s' !! x = Some xth' /\ same_queues xth xth' /\ (x <> next -> t_cpu xth' = t_cpu xth).
Proof.
  intros Hx. rewrite Eth. destruct (decide (x = current_thread cp)) as [->|].
  { simplify_map_eq. by exists P. }
  destruct (decide (x = next)) as [->|]; simplify_map_eq; [by exists N|]. exists xth. by splits.
Qed.

Lemma switch_queued x y : same_queues x y -> queued s' y = queued s x.
Proof. intros (_ & _ & _ & Hr & Ha). unfold queued. by rewrite Eup, Hr, Ha. Qed.

Lemma switch_ready t : t ∈ ready_queue s' <-> exists th, threads s' !! t = Some th /\ queued s' th = true.
Proof.
  rewrite Erq, (ok_ready s Hok). split.
  - intros (th & Ht & Hq). destruct (switch_fwd t th Ht) as (th' & Ht' & Hs & _). exists th'. split; [done|]. by rewrite (switch_queued th).
  - intros (th' & Ht' & Hq). destruct (switch_back t th' Ht') as (th & Ht & Hs). exists th. split; [done|]. by rewrite <- (switch_queued th th').
Qed.

Lemma switch_joiner j jth' t :
  threads s' !! j = Some jth' -> t ∈ joiners jth' ->
  exists th, threads s' !! t = Some th /\ is_joining th = true /\ is_runnable th = false /\ is_dying th = false.
Proof.
  intros Hj Hin. destruct (switch_back j jth' Hj) as (jth & Hj0 & (Hjo & _)). rewrite Hjo in Hin.
  destruct (ok_joiner s Hok j jth t Hj0 Hin) as (th & Ht & H1 & H2 & H3).
  destruct (switch_fwd t th Ht) as (th' & Ht' & (_ & ? & ? & ? & _) & _). exists th'. splits; congruence.
Qed.

Lemma switch_idle c' cp'' :
  cpus s' !! c' = Some cp'' ->
  exists th, threads s' !! idle_thread cp'' = Some th /\ is_runnable th = false /\ is_dying th = false /\ t_cpu th = Z.of_nat c'.
Proof.
  intros Hcp'. rewrite Ecpu in Hcp'.
  assert (exists cp', cpus s !! c' = Some cp' /\ idle_thread cp'' = idle_thread cp') as (cp' & Hcp0 & ->).
  { apply list_lookup_insert_Some in Hcp' as [(<- & <- & _)|[_ Hcp']]; eauto. }
  destruct (ok_idle s Hok c' cp' Hcp0) as (th & Ht & Hr & Hd & Htc).
  destruct (switch_fwd _ th Ht) as (th' & Ht' & (_ & ? & _ & ? & _) & Hcpu). exists th'. splits; [done|congruence|congruence|].
  destruct (decide (idle_thread cp' = next)) as [Heq|]; [|rewrite Hcpu by done; done].
  rewrite Heq in *. rewrite Eth in Ht'. simplify_map_eq. destruct Hidle; [congruence|]. lia.
Qed.

Lemma switch_current c' cp'' :
  cpus s' !! c' = Some cp'' ->
  exists th, threads s' !! current_thread cp'' = Some th /\ is_running th = true /\ t_cpu th = Z.of_nat c'.
Proof.
  intros Hcp'. rewrite Ecpu in Hcp'. apply list_lookup_insert_Some in Hcp' as [(<- & <- & _)|[Hcne Hcp']].
  - simpl. exists N. rewrite Eth. by simplify_map_eq.
  - destruct (ok_current s Hok c' cp'' Hcp') as (th & Ht & Hr & Htc).
    destruct (ok_current s Hok c cp Hc) as (p' & Hp' & _ & Hpc).
    assert (current_thread cp'' <> current_thread cp) by (intros Heq; rewrite Heq in Ht; simplify_eq; lia).
    assert (current_thread cp'' <> next) by (intros Heq; rewrite Heq in Ht; congruence).
    exists th. rewrite Eth. by simplify_map_eq.
Qed.

Lemma switch_running t th' :
  threads s' !! t = Some th' -> is_running th' = true ->
  started th' = true /\ exists c' cp', cpus s' !! c' = Some cp' /\ current_thread cp' = t.
Proof.
  intros Ht' Hr. rewrite Eth in Ht'. rewrite Ecpu.
  destruct (decide (t = current_thread cp)) as [->|]; [simplify_map_eq; congruence|].
  destruct (decide (t = next)) as [->|]; simplify_map_eq.
  - split; [done|]. eexists c, _. rewrite list_lookup_insert_eq by (by eapply lookup_lt_Some). done.
  - destruct (ok_running s Hok t th' Ht' Hr) as (Hst & c' & cp' & Hcp' & Hcur). split; [done|]. exists c', cp'.
    assert (c <> c') by (intros ->; congruence). by rewrite list_lookup_insert_ne.
Qed.

Lemma sched_ok_switch : sched_ok s'.
Proof.
  split.
  - exact switch_ready.
  - rewrite Erq. apply Hok.
  - intros t Hz. rewrite Ezq in Hz. destruct (ok_zombie s Hok t Hz) as (th & Ht & Hd).
    destruct (switch_fwd t th Ht) as (th' & Ht' & (_ & Hd' & _) & _). exists th'. split; [done|congruence].
  - intros t th' Ht' Hd. destruct (switch_back t th' Ht') as (th & Ht & (_ & Hd' & _ & Hr & _)). rewrite Hr.
    eapply (ok_dying s Hok); [exact Ht|congruence].
  - exact switch_joiner.
  - intros j1 j2 t1 t2 t H1 H2. destruct (switch_back _ _ H1) as (? & ? & (-> & _)), (switch_back _ _ H2) as (? & ? & (-> & _)).
    by eapply (ok_joiner_one s Hok).
  - intros j jth H1. destruct (switch_back _ _ H1) as (? & ? & (-> & _)). by eapply (ok_joiner_nodup s Hok).
  - exact switch_idle.
  - exact switch_current.
  - exact switch_running.
  - intros t th' Ht' Hst Hr. rewrite Eth in Ht'. destruct (decide (t = current_thread cp)) as [->|]; [by simplify_map_eq|].
    destruct (decide (t = next)) as [->|]; simplify_map_eq; [congruence|]. by eapply (ok_switched s Hok).
  - rewrite Etid, Eth, map_size_insert_Some by (rewrite lookup_insert_ne by done; by eexists).
    rewrite map_size_insert_Some by (by eexists). apply Hok.
Qed.
End Switch.

(** The rest of the state after a switch. *)
Definition switched (s s' : sched) : Prop :=
  ready_queue s' = ready_queue s /\ zombie_queue s' = zombie_queue s /\ timers s' = timers s /\
  sleep_queue s' = sleep_queue s /\ upcalls_active s' = upcalls_active s /\ thread_id s' = thread_id s.

Lemma same_queues_refl th : same_queues th th.
Proof. by splits. Qed.

Lemma same_queues_trans a b c : same_queues a b -> same_queues b c -> same_queues a c.
Proof. unfold same_queues. intuition congruence. Qed.

Lemma current_set_cpus s cpu c next cp m :
  0 <= cpu -> cpus s !! Z.to_nat cpu = Some cp ->
  current (set_threads m (set_cpus (<[Z.to_nat cpu := CPU c next (cpu_up cp)]> (cpus s)) s)) cpu = Ok next.
Proof.
  intros Hcpu Hcp. unfold current, per_cpu. destruct (Z.leb_spec 0 cpu); [|lia]. simpl.
  by rewrite list_lookup_insert_eq by (by eapply lookup_lt_Some).
Qed.

(** The effect of the flags and times set before the switch. *)
Definition prepared (pcpu rt : Z) (n : thread) : thread :=
  set_times (wrap64 (rt + t_timeslice n)) rt (cum_running_time n) (set_t_cpu pcpu n).

Definition unsched (p : thread) : thread := if is_stepped p then p else clear_flag RESCHED_FLAG p.

Lemma unsched_facts p : same_queues p (unsched p) /\ is_running (unsched p) = is_running p /\ t_cpu (unsched p) = t_cpu p /\
  started (unsched p) = started p /\ preempt_count (unsched p) = preempt_count p.
Proof. unfold unsched, same_queues. destruct (is_stepped p); [by splits|]. flags. by splits. Qed.

Lemma commit_switch E cpu s cp prev next pcpu P0 N0 :
  0 <= cpu -> cpus s !! Z.to_nat cpu = Some cp -> prev <> next ->
  threads s !! prev = Some P0 -> threads s !! next = Some N0 -> is_dying N0 = false ->
  (started N0 = true -> 1 <= preempt_count N0 < 2 ^ 31) ->
  exists s' N, schedule_commit E cpu cp prev next pcpu s = Ok s' /\ switched s s' /\
    cpus s' = <[Z.to_nat cpu := CPU (idle_thread cp) next (cpu_up cp)]> (cpus s) /\
    threads s' = <[prev := clear_flag RUNNING_FLAG (unsched P0)]> (<[next := N]> (threads s)) /\
    same_queues N0 N /\ is_running N = is_running N0 /\ t_cpu N = pcpu /\ started N = true.
Proof.
  intros Hcpu Hcp Hne HP HN Hd Hst. unfold schedule_commit. rewrite (thr_eq _ _ _ HN). cbn [mbind res_bind]. rewrite Hd.
  cbn [bug_on mbind res_bind]. rewrite (upd_eq _ _ _ _ HN). cbn [mbind res_bind].
  set (m1 := <[next := set_t_cpu pcpu N0]> (threads s)).
  assert (threads (set_threads m1 s) !! prev = Some P0) as HP1 by (simpl; subst m1; by rewrite lookup_insert_ne).
  rewrite (thr_eq _ _ _ HP1). cbn [mbind res_bind].
  assert ((if is_stepped P0 then Ok (set_threads m1 s) else upd prev (clear_flag RESCHED_FLAG) (set_threads m1 s)) =
    Ok (set_threads (<[prev := unsched P0]> m1) s)) as ->.
  { unfold unsched. destruct (is_stepped P0); [by rewrite insert_id by done|]. by rewrite (upd_eq _ _ _ _ HP1). }
  cbn [mbind res_bind]. set (m2 := <[prev := unsched P0]> m1).
  assert (threads (set_threads m2 s) !! next = Some (set_t_cpu pcpu N0)) as HN2.
  { simpl. subst m2 m1. by rewrite lookup_insert_ne, lookup_insert_eq by done. }
  rewrite (thr_eq _ _ _ HN2). cbn [mbind res_bind]. rewrite (upd_eq _ _ _ _ HN2). cbn [mbind res_bind].
  destruct (Z.eqb_spec prev next); [done|].
  set (m3 := <[next := prepared pcpu (running_time E) N0]> m2).
  change (set_times _ _ _ (set_t_cpu pcpu N0)) with (prepared pcpu (running_time E) N0). cbn [threads set_threads]. fold m3.
  unfold schedule_resume. set (sl := set_cpus _ (log _ (set_threads m3 (set_threads m2 s)))).
  assert (threads sl !! prev = Some (unsched P0)) as HP3.
  { simpl. subst m3 m2. by rewrite lookup_insert_ne, lookup_insert_eq by done. }
  rewrite (upd_eq _ _ _ _ HP3). cbn [mbind res_bind].
  set (m4 := <[prev := clear_flag RUNNING_FLAG (unsched P0)]> (threads sl)).
  assert (threads (set_threads m4 sl) !! next = Some (prepared pcpu (running_time E) N0)) as HN4.
  { simpl. subst m4. simpl. subst m3. by rewrite lookup_insert_ne, lookup_insert_eq by done. }
  rewrite (thr_eq _ _ _ HN4). cbn [mbind res_bind].
  assert (forall N, <[next := N]> m4 = <[prev := clear_flag RUNNING_FLAG (unsched P0)]> (<[next := N]> (threads s))) as Hm.
  { intros N. subst m4. simpl. subst m3 m2 m1. apply map_eq. intros x.
    destruct (decide (x = prev)) as [->|]; [by simplify_map_eq|].
    destruct (decide (x = next)) as [->|]; by simplify_map_eq. }
  change (started (prepared pcpu (running_time E) N0)) with (started N0). destruct (started N0) eqn:Es.
  - unfold preempt_enable_no_resched.
    assert (current (set_threads m4 sl) cpu = Ok next) as ->.
    { unfold current, per_cpu. destruct (Z.leb_spec 0 cpu); [|lia]. simpl.
      by rewrite list_lookup_insert_eq by (by eapply lookup_lt_Some). }
    cbn [mbind res_bind]. specialize (Hst eq_refl).
    rewrite (add_preempt_count_eq _ _ _ _ HN4) by (simpl; lia). cbn [threads set_threads]. rewrite Hm.
    eexists _, _. split; [done|]. splits; [done..| | |]; by splits.
  - rewrite (upd_eq _ _ _ _ HN4). cbn [threads set_threads]. rewrite Hm. eexists _, _. split; [done|].
    splits; [done..| | |]; by splits.
Qed.

Lemma commit_same E cpu s cp prev pcpu P0 :
  0 <= cpu -> cpus s !! Z.to_nat cpu = Some cp -> current_thread cp = prev ->
  threads s !! prev = Some P0 -> is_dying P0 = false -> 1 <= preempt_count P0 < 2 ^ 31 ->
  exists s' P, schedule_commit E cpu cp prev prev pcpu s = Ok s' /\ switched s s' /\ cpus s' = cpus s /\
    threads s' = <[prev := P]> (threads s) /\ same_queues P0 P /\ is_running P = is_running P0 /\ t_cpu P = pcpu /\ started P = started P0.
Proof.
  intros Hcpu Hcp Hcur HP Hd Hpc. unfold schedule_commit. rewrite (thr_eq _ _ _ HP). cbn [mbind res_bind]. rewrite Hd.
  cbn [bug_on mbind res_bind]. rewrite (upd_eq _ _ _ _ HP). cbn [mbind res_bind].
  set (s1 := set_threads (<[prev := set_t_cpu pcpu P0]> (threads s)) s).
  assert (threads s1 !! prev = Some (set_t_cpu pcpu P0)) as HP1 by (simpl; by rewrite lookup_insert_eq).
  rewrite (thr_eq _ _ _ HP1). cbn [mbind res_bind].
  assert ((if is_stepped (set_t_cpu pcpu P0) then Ok s1 else upd prev (clear_flag RESCHED_FLAG) s1) =
    Ok (set_threads (<[prev := unsched (set_t_cpu pcpu P0)]> (threads s)) s)) as ->.
  { unfold unsched. destruct (is_stepped _); [done|]. rewrite (upd_eq _ _ _ _ HP1). simpl. by rewrite insert_insert_eq. }
  cbn [mbind res_bind]. set (U := unsched (set_t_cpu pcpu P0)).
  assert (threads (set_threads (<[prev := U]> (threads s)) s) !! prev = Some U) as HP2 by (simpl; by rewrite lookup_insert_eq).
  rewrite (thr_eq _ _ _ HP2). cbn [mbind res_bind]. rewrite (upd_eq _ _ _ _ HP2). cbn [mbind res_bind]. rewrite Z.eqb_refl.
  unfold preempt_enable_no_resched, current, per_cpu. destruct (Z.leb_spec 0 cpu); [|lia]. cbn [cpus log set_threads].
  rewrite Hcp. cbn [access mbind res_bind]. rewrite Hcur.
  destruct (unsched_facts (set_t_cpu pcpu P0)) as (Hq & Hr & Hc & Hs & Hp). fold U in Hq, Hr, Hc, Hs, Hp.
  erewrite add_preempt_count_eq; [|simpl; by rewrite lookup_insert_eq|simpl; rewrite Hp; simpl; lia].
  eexists _, _. split; [done|]. simpl. rewrite !insert_insert_eq. splits; try done.
Qed.

(** A change of the current thread that leaves its queues alone. *)
Lemma sched_ok_same s t th th' rq :
  sched_ok s -> threads s !! t = Some th -> same_queues th th' -> t_cpu th' = t_cpu th ->
  is_running th' = is_running th -> started th' = started th -> preempt_count th' = preempt_count th \/ is_running th = true ->
  rq = ready_queue s ->
  sched_ok (set_ready_queue rq (set_threads (<[t := th']> (threads s)) s)).
Proof.
  intros Hok Ht (Hj & Hd & Hjn & Hr & Ha) Hc Hrun Hst Hpc ->. apply (sched_ok_update s t th); try done.
  - rewrite Hr, Hjn. by left.
  - rewrite Hr. by apply (ok_dying s Hok t th).
  - rewrite Hr. by left.
  - intros x. case_decide; [subst|done]. rewrite (ok_ready s Hok). unfold queued. rewrite Hr, Ha. naive_solver.
  - apply Hok.
Qed.

Lemma sched_ok_fields s s' :
  sched_ok s -> threads s' = threads s -> ready_queue s' = ready_queue s -> zombie_queue s' = zombie_queue s ->
  cpus s' = cpus s -> upcalls_active s' = upcalls_active s -> thread_id s' = thread_id s -> sched_ok s'.
Proof.
  intros [A1 A2 A3 A4 A5 A6 A7 A8 A9 A10 A12 A11] E1 E2 E3 E4 E5 E6.
  split; unfold queued in *; rewrite ?E1, ?E2, ?E3, ?E4, ?E5, ?E6; done.
Qed.

Lemma wakeable_queues s s' t th :
  wakeable s t th ->
  (forall x xth, threads s !! x = Some xth -> exists xth', threads s' !! x = Some xth' /\ same_queues xth xth') ->
  (forall x xth', threads s' !! x = Some xth' -> exists xth, threads s !! x = Some xth /\ same_queues xth xth') ->
  (forall c cp', cpus s' !! c = Some cp' -> exists cp, cpus s !! c = Some cp /\ idle_thread cp' = idle_thread cp) ->
  exists th', wakeable s' t th'.
Proof.
  intros (Ht & Hd & Hni & Hnj) Hf Hb Hc. destruct (Hf t th Ht) as (th' & Ht' & (_ & Hd' & _)). exists th'. unfold wakeable. splits.
  - done.
  - congruence.
  - intros c cp' Hcp'. destruct (Hc c cp' Hcp') as (cp & Hcp & ->). by eapply Hni.
  - intros j jth' Hj. destruct (Hb j jth' Hj) as (jth & Hj0 & (-> & _)). by eapply Hnj.
Qed.

(** The states before the choice: [s2] after the wake ups, then with the current
    thread's preemption disabled. *)
Definition no_preempt (prev : Z) (p2 : thread) (s2 : sched) : sched :=
  set_threads (<[prev := set_preempt_count (preempt_count p2 + 1) p2]> (threads s2)) s2.

Lemma per_cpu_ok s cpu cp : 0 <= cpu -> cpus s !! Z.to_nat cpu = Some cp -> per_cpu s cpu = Ok cp.
Proof. intros Hc Hcp. unfold per_cpu. destruct (Z.leb_spec 0 cpu); [|lia]. by rewrite Hcp. Qed.

Lemma preemptible_count p : is_preemptible p = true -> 0 <= preempt_count p <= PREEMPT_ACTIVE.
Proof.
  intros Hpre. unfold is_preemptible in Hpre. apply orb_prop in Hpre as [H|H]; bool_hyps; rewrite H; unfold PREEMPT_ACTIVE; lia.
Qed.

(** What [schedule] is called with. *)
Record callable (E : sched_env) (cpu : Z) (s : sched) (cp : cpu_private) (p : thread) : Prop := {
  ca_ok : sched_ok s;
  ca_timers : timers_ok s;
  ca_cpu : 0 <= cpu;
  ca_cp : cpus s !! Z.to_nat cpu = Some cp;
  ca_up : cpu_up cp = true;
  ca_thread : threads s !! current_thread cp = Some p;
  ca_lock : lock_count p = 0;
  ca_preempt : is_preemptible p = true;
  ca_app : appsched_ok E s cpu
}.

(** [schedule] up to the choice: its assertions hold, and the expired timers wake their threads. *)
Lemma schedule_prefix E cpu s cp p :
  callable E cpu s cp p ->
  exists s2 p2, wakes s s2 /\ threads s2 !! current_thread cp = Some p2 /\
    (same_kinds s s2 /\ ready_queue s2 = ready_after (NOW E) s) /\
    guk_schedule E cpu false false s =
      '(next, s) ← ('(next, s) ← pick_thread E cpu (current_thread cp) cpu (no_preempt (current_thread cp) p2 s2);
         n ← thr s next;
         _ ← bug_on (negb (is_runnable n) && negb (next =? idle_thread cp));
         Ok (next, s));
      schedule_commit E cpu cp (current_thread cp) next cpu s.
Proof.
  intros [Hok Htm Hcpu Hcp Hup Hp Hlock Hpre Happ]. unfold guk_schedule. cbn [bug_on mbind res_bind].
  rewrite (per_cpu_ok _ _ _ Hcpu Hcp). cbn [mbind res_bind]. rewrite (thr_eq _ _ _ Hp). cbn [mbind res_bind]. rewrite Hlock, Hpre.
  cbn [bug_on Z.eqb negb mbind res_bind]. pose proof (preemptible_count p Hpre) as Hpc.
  set (prev := current_thread cp) in *.
  rewrite (upd_eq _ _ _ _ Hp). cbn [mbind res_bind]. set (p0 := set_times _ _ _ p).
  set (s0 := set_threads (<[prev := p0]> (threads s)) s).
  assert (sched_ok s0) as Hok0.
  { subst s0. rewrite <- set_ready_same. apply (sched_ok_same s prev p); try done. by left. }
  assert (wakes s s0) as Hw0.
  { unfold wakes. splits; try done; [|intros q x Hx; exists x; auto]. eapply (same_threads_insert s _ prev p p0); [done|by splits|done]. }
  assert (quiet s0 cpu) as Hq0.
  { exists cp, p0. subst s0. simpl. splits; [by apply per_cpu_ok|apply lookup_insert_eq|simpl; unfold PREEMPT_ACTIVE in Hpc; lia..]. }
  assert (forall q, q ∈ sleep_queue s -> timer_ok s0 q) as Htm0.
  { intros q Hq. destruct Hw0 as (_ & H1 & H2 & _). eapply timer_ok_same; [done..|by apply Htm]. }
  unfold wake_expired. change (sleep_queue s0) with (sleep_queue s).
  destruct (wake_expired_loop_spec E cpu (sleep_queue s) s0 Hok0 Hq0 Htm0) as (s2 & Hrun & Hw02 & _).
  assert (same_kinds s s0) as Hk0 by (eapply (same_kinds_insert s s); [apply same_kinds_refl|exact Hp|apply same_kind_times|done..]).
  pose proof (wake_loop_queue E cpu _ s _ s2 Hok0 Hq0 Htm0 Hk0 Hrun) as Hk2. rewrite Hrun. cbn [mbind res_bind].
  pose proof (wakes_trans _ _ _ Hw0 Hw02) as Hw2. pose proof Hw2 as (_ & Hst2 & _ & _ & _ & Hcp2 & _).
  destruct (same_threads_lookup _ _ _ _ Hst2 Hp) as (p2 & Hp2 & (_ & Hc2 & _ & _ & _ & _ & Hpc2 & _)).
  exists s2, p2. split; [done|]. split; [done|]. split; [exact Hk2|].
  rewrite (add_preempt_count_eq _ _ _ _ Hp2) by (unfold PREEMPT_ACTIVE in Hpc; lia). cbn [mbind res_bind].
  fold (no_preempt prev p2 s2). rewrite (thr_eq (no_preempt prev p2 s2) prev (set_preempt_count (preempt_count p2 + 1) p2)) by (simpl; by rewrite lookup_insert_eq).
  cbn [mbind res_bind]. destruct (ok_current s Hok _ _ Hcp) as (p' & Hp' & _ & Hptc). fold prev in Hp'. rewrite Hp in Hp'. injection Hp' as <-.
  change (t_cpu (set_preempt_count (preempt_count p2 + 1) p2)) with (t_cpu p2). rewrite Hc2, Hptc, Z2Nat.id by done.
  rewrite (per_cpu_ok (no_preempt prev p2 s2) cpu cp) by (simpl; by rewrite ?Hcp2). cbn [mbind res_bind]. by rewrite Hup.
Qed.

(** What is known when the next thread was chosen; [p3] is the current thread and [s3] the
    state before the choice, [n] the chosen thread and [s4] the state after it. *)
Record picked (E : sched_env) (cpu : Z) (s : sched) (cp : cpu_private) (s2 : sched) (p2 : thread)
    (next : Z) (n : thread) (s4 : sched) : Prop := {
  pk_wakes : wakes s s2;
  pk_kinds : same_kinds s s2;
  pk_queue : ready_queue s2 = ready_after (NOW E) s;
  pk_prev : threads s2 !! current_thread cp = Some p2;
  pk_ok : sched_ok (rotated (current_thread cp) (set_preempt_count (preempt_count p2 + 1) p2) (no_preempt (current_thread cp) p2 s2));
  pk_chosen : chosen E cpu (rotated (current_thread cp) (set_preempt_count (preempt_count p2 + 1) p2) (no_preempt (current_thread cp) p2 s2)) cp next;
  pk_cpu : t_cpu p2 = cpu;
  pk_run : is_running p2 = true /\ started p2 = true;
  pk_count : 0 <= preempt_count p2 <= PREEMPT_ACTIVE;
  pk_next : threads (no_preempt (current_thread cp) p2 s2) !! next = Some n;
  pk_threads : threads s4 = <[next := set_flag RUNNING_FLAG n]> (threads (no_preempt (current_thread cp) p2 s2));
  pk_ready : ready_queue s4 = ready_queue (rotated (current_thread cp) (set_preempt_count (preempt_count p2 + 1) p2) (no_preempt (current_thread cp) p2 s2));
  pk_frame : frame (no_preempt (current_thread cp) p2 s2) s4;
  pk_dying : is_dying n = false;
  pk_runnable : is_runnable n = true \/ next = idle_thread cp;
  pk_current : is_running n = true -> next = current_thread cp
}.

Lemma rotated_fields prev p s :
  threads (rotated prev p s) = threads s /\ cpus (rotated prev p s) = cpus s /\ zombie_queue (rotated prev p s) = zombie_queue s /\
  upcalls_active (rotated prev p s) = upcalls_active s /\ thread_id (rotated prev p s) = thread_id s.
Proof. unfold rotated. by destruct (queued s p). Qed.

Lemma schedule_pick E cpu s cp p :
  callable E cpu s cp p ->
  exists s2 p2 next n s4, picked E cpu s cp s2 p2 next n s4 /\
    guk_schedule E cpu false false s = schedule_commit E cpu cp (current_thread cp) next cpu s4.
Proof.
  intros Hca. pose proof Hca as [Hok Htm Hcpu Hcp Hup Hp Hlock Hpre Happ].
  destruct (schedule_prefix E cpu s cp p Hca) as (s2 & p2 & Hw & Hp2 & [Hk2 Hrq2] & ->). set (prev := current_thread cp) in *.
  pose proof Hw as (Hok2 & Hst2 & Htm2 & Hsq2 & Hzq2 & Hcp2 & Hua2 & Hid2).
  destruct (same_threads_lookup _ _ _ _ Hst2 Hp) as (p2' & Hp2' & (_ & Hc2 & Hr2 & _ & _ & _ & Hpc2 & _ & Hs2 & _)).
  rewrite Hp2 in Hp2'. injection Hp2' as <-.
  destruct (ok_current s Hok _ _ Hcp) as (p' & Hp' & Hprun & Hptc). fold prev in Hp'. rewrite Hp in Hp'. injection Hp' as <-.
  set (p3 := set_preempt_count (preempt_count p2 + 1) p2). set (s3 := no_preempt prev p2 s2).
  assert (threads s3 !! prev = Some p3) as Hp3 by (simpl; by rewrite lookup_insert_eq).
  assert (cpus s3 !! Z.to_nat cpu = Some cp) as Hcp3 by (simpl; by rewrite Hcp2).
  assert (sched_ok s3) as Hok3.
  { subst s3. unfold no_preempt. rewrite <- set_ready_same. apply (sched_ok_same s2 prev p2); try done. right. congruence. }
  assert (appsched_ok E s3 cpu) as Happ3.
  { intros Hua t Ht. destruct (appsched_same E s s2 cpu Hst2 Hua2 Happ Hua t Ht) as (th & Hth & Hthr & Hthc).
    simpl. destruct (decide (t = prev)) as [->|]; [|exists th; by rewrite lookup_insert_ne].
    exists p3. rewrite lookup_insert_eq. simplify_eq. by splits. }
  pose proof (pick_thread_spec E cpu s3 cp p3 Hok3 Hcpu Hcp3 Hp3 Happ3) as Hpick. cbv zeta in Hpick. fold prev in Hpick.
  destruct Hpick as (next & n & s4 & -> & Hok5 & Hch & Hn5 & Hth4 & Hrq4 & Hf4 & Hnd & Hrn & Hcur). cbn [mbind res_bind].
  rewrite (proj1 (rotated_fields prev p3 s3)) in Hn5.
  exists s2, p2, next, n, s4. split.
  { constructor; try done; [lia|split; [congruence|]|rewrite Hpc2; by apply preemptible_count].
    rewrite Hs2. by destruct (ok_running s Hok prev p Hp Hprun). }
  assert (threads s4 !! next = Some (set_flag RUNNING_FLAG n)) as Hn4 by (rewrite Hth4; by rewrite lookup_insert_eq).
  rewrite (thr_eq _ _ _ Hn4). cbn [mbind res_bind].
  assert (bug_on (negb (is_runnable (set_flag RUNNING_FLAG n)) && negb (next =? idle_thread cp)) = Ok ()) as ->.
  { flags. destruct Hrn as [->| ->]; [done|]. by rewrite Z.eqb_refl, andb_false_r. }
  done.
Qed.

(** The timers stay good when the threads keep their queues. *)
Lemma timers_ok_queues s s' :
  timers_ok s -> sleep_queue s' = sleep_queue s -> timers s' = timers s ->
  (forall x xth, threads s !! x = Some xth -> exists xth', threads s' !! x = Some xth' /\ same_queues xth xth') ->
  (forall x xth', threads s' !! x = Some xth' -> exists xth, threads s !! x = Some xth /\ same_queues xth xth') ->
  (forall c cp', cpus s' !! c = Some cp' -> exists cp, cpus s !! c = Some cp /\ idle_thread cp' = idle_thread cp) ->
  timers_ok s'.
Proof.
  intros Htm Hsq Ht Hf Hb Hc q Hq. rewrite Hsq in Hq. destruct (Htm q Hq) as (x & Hx & Hor). exists x. rewrite Ht. split; [done|].
  destruct Hor as [|[th Hwk]]; [by left|right]. by eapply (wakeable_queues s).
Qed.

(** The threads after a switch from [prev] to [next]. *)
Lemma switch_timers s2 s' prev next p2 n P N :
  prev <> next -> threads s2 !! prev = Some p2 ->
  threads (no_preempt prev p2 s2) !! next = Some n ->
  threads s' = <[prev := P]> (<[next := N]> (threads (no_preempt prev p2 s2))) -> same_queues p2 P -> same_queues n N ->
  timers_ok s2 -> sleep_queue s' = sleep_queue s2 -> timers s' = timers s2 ->
  (forall c cp', cpus s' !! c = Some cp' -> exists cp, cpus s2 !! c = Some cp /\ idle_thread cp' = idle_thread cp) ->
  timers_ok s'.
Proof.
  intros Hne Hp2 Hn Hth3 HPq HNq Htm Hsq Ht Hc. simpl in Hn. rewrite lookup_insert_ne in Hn by done.
  apply (timers_ok_queues s2); [done..| | |done].
  - intros y yth Hy. rewrite Hth3. destruct (decide (y = prev)) as [->|].
    { exists P. rewrite lookup_insert_eq. rewrite Hp2 in Hy. injection Hy as <-. by split. }
    rewrite lookup_insert_ne by done. destruct (decide (y = next)) as [->|].
    { exists N. rewrite lookup_insert_eq. rewrite Hn in Hy. injection Hy as <-. by split. }
    exists yth. simpl. rewrite !lookup_insert_ne by done. split; [done|apply same_queues_refl].
  - intros y yth. rewrite Hth3. destruct (decide (y = prev)) as [->|].
    { rewrite lookup_insert_eq. intros [= <-]. by exists p2. }
    rewrite lookup_insert_ne by done. destruct (decide (y = next)) as [->|].
    { rewrite lookup_insert_eq. intros [= <-]. by exists n. }
    simpl. rewrite !lookup_insert_ne by done. intros. exists yth. split; [done|apply same_queues_refl].
Qed.

Lemma picked_timers E cpu s cp s2 p2 next n s4 : timers_ok s -> picked E cpu s cp s2 p2 next n s4 -> timers_ok s2.
Proof.
  intros Htm Hpk q Hq. destruct (pk_wakes _ _ _ _ _ _ _ _ _ Hpk) as (_ & Hst & Htm2 & Hsq & _ & Hcp & _). rewrite Hsq in Hq.
  eapply timer_ok_same; [exact Hst|exact Htm2|exact Hcp|by apply Htm].
Qed.

(** The state the choice leads to. *)
Definition scheduled (E : sched_env) (cpu : Z) (s : sched) (cp : cpu_private) (s4 s' : sched) (next : Z) : Prop :=
  ready_queue s' = ready_queue s4 /\ sched_ok s' /\ timers_ok s' /\ current s' cpu = Ok next /\
  (forall c, c <> Z.to_nat cpu -> cpus s' !! c = cpus s !! c).

(** The same thread goes on. *)
Lemma schedule_same E cpu s cp p s2 p2 n s4 :
  callable E cpu s cp p -> picked E cpu s cp s2 p2 (current_thread cp) n s4 ->
  exists s', schedule_commit E cpu cp (current_thread cp) (current_thread cp) cpu s4 = Ok s' /\
    scheduled E cpu s cp s4 s' (current_thread cp).
Proof.
  intros Hca Hpk. pose proof (picked_timers _ _ _ _ _ _ _ _ _ (ca_timers _ _ _ _ _ Hca) Hpk) as Htok2.
  destruct Hca as [_ _ Hcpu Hcp _ _ _ _ _]. destruct Hpk as [Hw _ _ Hp2 Hok5 _ Hc2 [Hr2 Hs2] Hpc Hn Hth4 Hrq4 Hf4 Hnd _ _].
  destruct Hw as (_ & _ & _ & _ & _ & Hcp2 & _). set (prev := current_thread cp) in *. set (s3 := no_preempt prev p2 s2) in *.
  set (p3 := set_preempt_count (preempt_count p2 + 1) p2) in *. set (s5 := rotated prev p3 s3) in *.
  destruct (rotated_fields prev p3 s3) as (Ht5 & Hc5 & Hz5 & Hu5 & Hi5). fold s5 in Ht5, Hc5, Hz5, Hu5, Hi5.
  destruct Hf4 as (F1 & F2 & F3 & F4 & F5 & F6 & F7 & _).
  assert (threads s3 !! prev = Some p3) as Hp3 by apply lookup_insert_eq. assert (n = p3) as -> by congruence.
  assert (cpus s4 !! Z.to_nat cpu = Some cp) as Hcp4 by (rewrite F5; simpl; by rewrite Hcp2).
  destruct (commit_same E cpu s4 cp prev cpu (set_flag RUNNING_FLAG p3)) as (s' & P & -> & Hsw & Hcp' & Hth' & HPq & HPr & HPc & HPs);
    [done|done|done|by rewrite Hth4, lookup_insert_eq|by flags|simpl; unfold PREEMPT_ACTIVE in Hpc; lia|].
  destruct Hsw as (W1 & W2 & W3 & W4 & W5 & W6).
  assert (same_queues p3 P) as HPq3.
  { eapply same_queues_trans; [|exact HPq]. unfold same_queues. flags. by splits. }
  assert (threads s' = <[prev := P]> (threads s3)) as Hth3 by (rewrite Hth', Hth4; by rewrite insert_insert_eq).
  exists s'. split; [done|]. unfold scheduled. splits; [exact W1|..].
  - eapply sched_ok_fields; [apply (sched_ok_same s5 prev p3 P (ready_queue s5)); try done|..]; simpl; try congruence.
    + rewrite HPr. flags. change (is_running p3) with (is_running p2). congruence.
    + right. change (is_running p3) with (is_running p2). congruence.
  - apply (timers_ok_queues s2); [done|by rewrite W4, F2|by rewrite W3, F1| | |].
    + intros y yth Hy. rewrite Hth3. simpl. rewrite insert_insert_eq. destruct (decide (y = prev)) as [->|].
      * exists P. rewrite lookup_insert_eq. rewrite Hp2 in Hy. injection Hy as <-. by split.
      * exists yth. rewrite lookup_insert_ne by done. split; [done|apply same_queues_refl].
    + intros y yth. rewrite Hth3. simpl. rewrite insert_insert_eq. destruct (decide (y = prev)) as [->|].
      * rewrite lookup_insert_eq. intros [= <-]. by exists p2.
      * rewrite lookup_insert_ne by done. intros. exists yth. split; [done|apply same_queues_refl].
    + intros c cp' Hc'. rewrite Hcp', F5 in Hc'. simpl in Hc'. eauto.
  - unfold current. by rewrite (per_cpu_ok s' cpu cp) by (done || by rewrite Hcp').
  - intros c _. rewrite Hcp', F5. simpl. by rewrite Hcp2.
Qed.

(** Another thread is switched to. *)
Lemma schedule_other E cpu s cp p s2 p2 next n s4 :
  callable E cpu s cp p -> picked E cpu s cp s2 p2 next n s4 -> current_thread cp <> next ->
  exists s', schedule_commit E cpu cp (current_thread cp) next cpu s4 = Ok s' /\ scheduled E cpu s cp s4 s' next.
Proof.
  intros Hca Hpk Hne. pose proof (picked_timers _ _ _ _ _ _ _ _ _ (ca_timers _ _ _ _ _ Hca) Hpk) as Htok2.
  destruct Hca as [_ _ Hcpu Hcp _ _ _ _ _]. destruct Hpk as [Hw _ _ Hp2 Hok5 _ Hc2 [Hr2 Hs2] Hpc Hn Hth4 Hrq4 Hf4 Hnd Hrn Hcur].
  destruct Hw as (_ & _ & _ & _ & _ & Hcp2 & _). set (prev := current_thread cp) in *. set (s3 := no_preempt prev p2 s2) in *.
  set (p3 := set_preempt_count (preempt_count p2 + 1) p2) in *. set (s5 := rotated prev p3 s3) in *.
  destruct (rotated_fields prev p3 s3) as (Ht5 & Hc5 & Hz5 & Hu5 & Hi5). fold s5 in Ht5, Hc5, Hz5, Hu5, Hi5.
  destruct Hf4 as (F1 & F2 & F3 & F4 & F5 & F6 & F7 & _).
  assert (is_running n = false) as Hnrun by (destruct (is_running n); [by destruct Hne; rewrite Hcur|done]).
  assert (cpus s3 !! Z.to_nat cpu = Some cp) as Hcp3 by (simpl; by rewrite Hcp2).
  assert (cpus s4 !! Z.to_nat cpu = Some cp) as Hcp4 by (by rewrite F5).
  assert (threads s3 !! prev = Some p3) as Hp3 by (simpl; by rewrite lookup_insert_eq).
  assert (threads s5 !! next = Some n) as Hn5 by (by rewrite Ht5).
  destruct (commit_switch E cpu s4 cp prev next cpu p3 (set_flag RUNNING_FLAG n)) as (s' & N & -> & Hsw & Hcp' & Hth' & HNq & HNr & HNc & HNs);
    [done|done|done|by rewrite Hth4, lookup_insert_ne|by rewrite Hth4, lookup_insert_eq|by flags|by intros; apply (ok_switched s5 Hok5 next n)|].
  destruct Hsw as (W1 & W2 & W3 & W4 & W5 & W6). set (P := clear_flag RUNNING_FLAG (unsched p3)) in *.
  destruct (unsched_facts p3) as (HUq & HUr & HUc & HUs & HUp).
  assert (same_queues p3 P) as HPq.
  { eapply same_queues_trans; [exact HUq|]. subst P. unfold same_queues. flags. by splits. }
  assert (same_queues n N) as HNq'.
  { eapply same_queues_trans; [|exact HNq]. unfold same_queues. flags. by splits. }
  assert (threads s' = <[prev := P]> (<[next := N]> (threads s3))) as Hth3 by (rewrite Hth', Hth4; by rewrite insert_insert_eq).
  exists s'. split; [done|]. unfold scheduled. splits; [exact W1|..].
  - eapply (sched_ok_switch s5 s' (Z.to_nat cpu) cp next p3 n P N); fold prev; try done; try congruence.
    + destruct Hrn as [|Hidle]; [by left|right]. destruct (ok_idle s5 Hok5 (Z.to_nat cpu) cp) as (th & Hth & _ & _ & Htc); [congruence|].
      rewrite <- Hidle in Hth. congruence.
    + subst P. by flags.
    + rewrite HNr. by flags.
    + rewrite HNc. lia.
    + change (started P) with (started (unsched p3)). by rewrite HUs.
    + change (preempt_count P) with (preempt_count (unsched p3)). rewrite HUp. simpl. unfold PREEMPT_ACTIVE in Hpc. lia.
  - apply (switch_timers s2 s' prev next p2 n P N); try done; [by rewrite W4, F2|by rewrite W3, F1|].
    intros c cp' Hc'. rewrite Hcp', F5 in Hc'. simpl in Hc'. apply list_lookup_insert_Some in Hc' as [(<- & <- & _)|[_ Hc']]; eauto.
  - unfold current. by erewrite per_cpu_ok; [|done|rewrite Hcp', list_lookup_insert_eq; [done|by eapply lookup_lt_Some]].
  - intros c Hc. rewrite Hcp', list_lookup_insert_ne by done. rewrite F5. simpl. by rewrite Hcp2.
Qed.

(** ** The choice, from the state before the call *)

(** The current thread goes to the end of the ready queue if it is on it. *)
Definition rotate (prev : Z) (rq : list Z) : list Z :=
  if bool_decide (prev ∈ rq) then remove_from prev rq ++ [prev] else rq.

(** The queue [schedule] chooses from. *)
Definition run_queue (now : Z) (s : sched) (cp : cpu_private) : list Z := rotate (current_thread cp) (ready_after now s).

(** May the CPU run the thread: it runs on no other CPU, and with an application
    scheduler it is a kernel thread or belongs to this CPU. *)
Definition fits (cpu : Z) (s : sched) (t : Z) : bool :=
  match threads s !! t with
  | Some th => negb (is_running th && negb (t_cpu th =? cpu)) && (negb (upcalls_active s) || is_ukernel th || (t_cpu th =? cpu))
  | None => false
  end.

(** The first thread of the queue that fits, else the application scheduler's
    choice, else the idle thread. *)
Definition next_thread (E : sched_env) (cpu : Z) (s : sched) (cp : cpu_private) : Z :=
  match find (fits cpu s) (run_queue (NOW E) s cp) with
  | Some t => t
  | None => default (idle_thread cp) (if upcalls_active s then scheduler_upcall E cpu else None)
  end.

Lemma rotated_queue s2 prev p2 rq :
  sched_ok s2 -> threads s2 !! prev = Some p2 -> ready_queue s2 = rq ->
  ready_queue (rotated prev (set_preempt_count (preempt_count p2 + 1) p2) (no_preempt prev p2 s2)) = rotate prev rq.
Proof.
  intros Hok Hp <-. unfold rotated, rotate. change (queued _ (set_preempt_count _ p2)) with (queued s2 p2).
  assert (bool_decide (prev ∈ ready_queue s2) = queued s2 p2) as ->; [|by destruct (queued s2 p2)].
  apply eq_bool_prop_intro. rewrite bool_decide_spec, (ok_ready s2 Hok), Is_true_true. split; [|eauto].
  intros (y & Hy & Hqy). congruence.
Qed.

(** A thread of the queue is eligible when it fits, its flags as before the call. *)
Lemma eligible_fits cpu s s2 prev p2 t th :
  same_kinds s s2 -> threads s2 !! prev = Some p2 ->
  threads (no_preempt prev p2 s2) !! t = Some th -> is_runnable th = true -> eligible cpu (no_preempt prev p2 s2) th = fits cpu s t.
Proof.
  intros [Hu Hk] Hp Ht Hr. unfold eligible, fits. rewrite Hr. specialize (Hk t).
  assert (exists th2, threads s2 !! t = Some th2 /\ is_running th = is_running th2 /\ t_cpu th = t_cpu th2 /\ is_ukernel th = is_ukernel th2)
    as (th2 & Ht2 & -> & -> & ->).
  { simpl in Ht. destruct (decide (t = prev)) as [->|]; simplify_map_eq; eauto. }
  rewrite Ht2 in Hk. destruct (threads s !! t); [|done]. destruct Hk as (-> & -> & -> & _). simpl. by rewrite Hu.
Qed.

Lemma find_app_first (f : Z -> bool) l1 x l2 :
  (forall y, y ∈ l1 -> f y = false) -> f x = true -> find f (l1 ++ x :: l2) = Some x.
Proof.
  intros H1 Hx. induction l1 as [|y l1 IH]; simpl; [by rewrite Hx|]. rewrite H1 by set_solver. apply IH. set_solver.
Qed.

Lemma find_all_false (f : Z -> bool) l : (forall y, y ∈ l -> f y = false) -> find f l = None.
Proof. intros H. induction l as [|y l IH]; simpl; [done|]. rewrite H by set_solver. apply IH. set_solver. Qed.

Lemma chosen_next E cpu s cp s2 p2 next n s4 : picked E cpu s cp s2 p2 next n s4 -> next = next_thread E cpu s cp.
Proof.
  intros Hpk. pose proof (pk_kinds _ _ _ _ _ _ _ _ _ Hpk) as Hk. pose proof (pk_prev _ _ _ _ _ _ _ _ _ Hpk) as Hp.
  pose proof (pk_ok _ _ _ _ _ _ _ _ _ Hpk) as Hok. pose proof (pk_chosen _ _ _ _ _ _ _ _ _ Hpk) as Hch.
  destruct (pk_wakes _ _ _ _ _ _ _ _ _ Hpk) as (Hok2 & _ & _ & _ & _ & _ & Hu & _).
  pose proof (rotated_queue s2 _ p2 _ Hok2 Hp (pk_queue _ _ _ _ _ _ _ _ _ Hpk)) as Hrq. fold (run_queue (NOW E) s cp) in Hrq.
  set (s3 := no_preempt _ _ _) in *. set (p3 := set_preempt_count _ p2) in *.
  destruct (rotated_fields (current_thread cp) p3 s3) as (Ht & _ & _ & Hu5 & _).
  set (s5 := rotated _ _ s3) in *.
  assert (forall t th, t ∈ ready_queue s5 -> threads s5 !! t = Some th -> eligible cpu s5 th = fits cpu s t) as Hel.
  { intros t th Hin Hth. apply (ok_ready s5 Hok) in Hin as (th' & Hth' & Hq). rewrite Hth in Hth'. injection Hth' as <-.
    unfold queued in Hq. apply andb_prop in Hq as [Hr _]. rewrite Ht in Hth.
    assert (eligible cpu s5 th = eligible cpu s3 th) as -> by (unfold eligible; by rewrite Hu5). by eapply eligible_fits. }
  unfold next_thread. rewrite <- Hrq. destruct Hch as [(n' & l1 & l2 & Hq & Hn & He & Hbef)|[Hnone ->]].
  - rewrite Hq, find_app_first; [done| |].
    + intros t Hin. destruct (proj1 (ok_ready s5 Hok t)) as (th & Hth & _); [rewrite Hq; set_solver|].
      rewrite <- (Hel t th); [by eapply Hbef|rewrite Hq; set_solver|done].
    + rewrite <- (Hel next n'); [done|rewrite Hq; set_solver|done].
  - rewrite find_all_false; [by rewrite Hu5, <- Hu|]. intros t Hin.
    destruct (proj1 (ok_ready s5 Hok t) Hin) as (th & Hth & _). rewrite <- (Hel t th); eauto.
Qed.

Lemma schedule_spec E cpu s cp p :
  sched_ok s -> timers_ok s -> 0 <= cpu -> cpus s !! Z.to_nat cpu = Some cp -> cpu_up cp = true ->
  threads s !! current_thread cp = Some p -> lock_count p = 0 -> is_preemptible p = true -> appsched_ok E s cpu ->
  exists s', guk_schedule E cpu false false s = Ok s' /\ sched_ok s' /\ timers_ok s' /\
    current s' cpu = Ok (next_thread E cpu s cp) /\ ready_queue s' = run_queue (NOW E) s cp /\
    (forall c, c <> Z.to_nat cpu -> cpus s' !! c = cpus s !! c).
Proof.
  intros Hok Htm Hcpu Hcp Hup Hp Hlock Hpre Happ. assert (callable E cpu s cp p) as Hca by done.
  destruct (schedule_pick E cpu s cp p Hca) as (s2 & p2 & next & n & s4 & Hpk & ->).
  assert (exists s', schedule_commit E cpu cp (current_thread cp) next cpu s4 = Ok s' /\ scheduled E cpu s cp s4 s' next)
    as (s' & Hs' & Hrq & Hok' & Htm' & Hcur & Hoth).
  { destruct (decide (current_thread cp = next)) as [He|Hne]; [|by eapply schedule_other].
    subst next. by eapply schedule_same. }
  exists s'. rewrite <- (chosen_next _ _ _ _ _ _ _ _ _ Hpk). splits; try done.
  rewrite Hrq, (pk_ready _ _ _ _ _ _ _ _ _ Hpk). apply rotated_queue; [|apply Hpk..].
  by destruct (pk_wakes _ _ _ _ _ _ _ _ _ Hpk).
Qed.
