(* ===== verification/SchedProps.v ===== *)
(** Properties of the scheduler: what each operation does to the queues, the
    choice of the next thread, timers, join and exit, and the invariant of every
    reachable state. *)

From Stdlib Require Import Sorting.Sorted.
From S2P Require Import Prelude Sched SchedInv.

(** ** Joiners *)

(** [s1] is the state after the blocked thread [t] was taken out of the joiner list it is in,
    and its [JOIN_FLAG] was cleared. *)
Section Unjoin.
Variables (s : sched) (t : Z) (th : thread).
Hypotheses (Hok : sched_ok s) (Ht : threads s !! t = Some th) (Hd : is_dying th = false) (Hr : is_runnable th = false).
Set Default Proof Using "All".

Local Abbreviation m := (<[t := clear_flag JOIN_FLAG th]> (threads s)).
Local Abbreviation s1 := (unlink t (set_threads m s)).

(** The thread [x], [xth] before, afterwards. *)
Definition unjoined (x : Z) (xth : thread) : thread :=
  set_joiners (remove_from t (joiners xth)) (if decide (x = t) then clear_flag JOIN_FLAG xth else xth).

Lemma unjoin_state : s1 = set_threads ((fun th => set_joiners (remove_from t (joiners th)) th) <$> m) s.
Proof.
  assert (t ∉ ready_queue s) as Hnr.
  { intros Hin. apply (ok_ready s Hok) in Hin as (th' & Ht' & Hq). simplify_eq. unfold queued in Hq. by rewrite Hr in Hq. }
  assert (t ∉ zombie_queue s) as Hnz by (intros Hz; destruct (ok_zombie s Hok t Hz) as (? & ? & ?); congruence).
  unfold unlink. simpl. rewrite !remove_from_id by done. by destruct s.
Qed.

Lemma unjoin_fwd x xth : threads s !! x = Some xth -> threads s1 !! x = Some (unjoined x xth).
Proof.
  intros Hx. rewrite unjoin_state. simpl. rewrite lookup_fmap. unfold unjoined. destruct (decide (x = t)) as [->|]; by simplify_map_eq.
Qed.

Lemma unjoin_none x : threads s !! x = None -> threads s1 !! x = None.
Proof.
  intros Hx. rewrite unjoin_state. simpl. rewrite lookup_fmap. destruct (decide (x = t)) as [->|]; [congruence|].
  by rewrite lookup_insert_ne, Hx.
Qed.

Lemma unjoin_back x xth' : threads s1 !! x = Some xth' -> exists xth, threads s !! x = Some xth /\ xth' = unjoined x xth.
Proof.
  intros Hx. destruct (threads s !! x) as [xth|] eqn:E; [|by rewrite unjoin_none in Hx].
  exists xth. split; [done|]. rewrite (unjoin_fwd x xth E) in Hx. congruence.
Qed.

Lemma unjoined_flag f x xth : Z.land JOIN_FLAG f = 0 -> is_flag f (unjoined x xth) = is_flag f xth.
Proof.
  intros Hc. unfold unjoined. change (is_flag f (set_joiners ?l ?z)) with (is_flag f z). destruct (decide _); [|done].
  by rewrite is_flag_clear_other.
Qed.

Lemma unjoined_fields x xth :
  t_cpu (unjoined x xth) = t_cpu xth /\ started (unjoined x xth) = started xth /\
  preempt_count (unjoined x xth) = preempt_count xth /\ joiners (unjoined x xth) = remove_from t (joiners xth).
Proof. unfold unjoined. destruct (decide (x = t)); by splits. Qed.

Lemma unjoin_sched_ok : sched_ok s1.
Proof.
  pose proof unjoin_fwd as Hf. pose proof unjoin_back as Hb. destruct Hok as [A1 A2 A3 A4 A5 A6 A7 A8 A9 A10 A12 A11].
  split; rewrite ?unjoin_state; cbn [ready_queue zombie_queue cpus thread_id set_threads]; rewrite <- ?unjoin_state.
  - intros x. rewrite A1. unfold queued. assert (upcalls_active s1 = upcalls_active s) as -> by by rewrite unjoin_state. split.
    + intros (xth & Hx & Hq). eexists. split; [by apply Hf|]. by rewrite !unjoined_flag by done.
    + intros (xth' & Hx & Hq). destruct (Hb x xth' Hx) as (xth & Hx0 & ->). exists xth. split; [done|].
      by rewrite !unjoined_flag in Hq by done.
  - done.
  - intros x Hx. destruct (A3 x Hx) as (xth & Hx0 & Hxd). eexists. split; [by apply Hf|]. by rewrite unjoined_flag by done.
  - intros x xth' Hx Hxd. destruct (Hb x xth' Hx) as (xth & Hx0 & ->). rewrite unjoined_flag in * by done. by eapply A4.
  - intros j jth' x Hj Hin. destruct (Hb j jth' Hj) as (jth & Hj0 & ->). destruct (unjoined_fields j jth) as (_ & _ & _ & Hjo).
    rewrite Hjo in Hin. apply elem_of_remove in Hin as [Hne Hin].
    destruct (A5 j jth x Hj0 Hin) as (xth & Hx & H1 & H2 & H3). eexists. split; [by apply Hf|].
    splits; [unfold unjoined; by rewrite decide_False by done|by rewrite unjoined_flag|by rewrite unjoined_flag].
  - intros j1 j2 t1 t2 x H1 H2. destruct (Hb _ _ H1) as (y1 & Hy1 & ->), (Hb _ _ H2) as (y2 & Hy2 & ->).
    destruct (unjoined_fields j1 y1) as (_ & _ & _ & ->), (unjoined_fields j2 y2) as (_ & _ & _ & ->).
    rewrite !elem_of_remove. intros [_ ?] [_ ?]. by eapply A6.
  - intros j jth' Hj. destruct (Hb _ _ Hj) as (y & Hy & ->). destruct (unjoined_fields j y) as (_ & _ & _ & ->). by eapply remove_nodup, A7.
  - intros c cp Hcp. destruct (A8 c cp Hcp) as (xth & Hx & H1 & H2 & H3). eexists. split; [by apply Hf|].
    rewrite !unjoined_flag by done. by destruct (unjoined_fields (idle_thread cp) xth) as (-> & _).
  - intros c cp Hcp. destruct (A9 c cp Hcp) as (xth & Hx & H1 & H2). eexists. split; [by apply Hf|].
    rewrite !unjoined_flag by done. by destruct (unjoined_fields (current_thread cp) xth) as (-> & _).
  - intros x xth' Hx Hxr. destruct (Hb x xth' Hx) as (xth & Hx0 & ->). rewrite unjoined_flag in Hxr by done.
    destruct (unjoined_fields x xth) as (_ & -> & _). by eapply A10.
  - intros x xth' Hx Hxs Hxr. destruct (Hb x xth' Hx) as (xth & Hx0 & ->). rewrite unjoined_flag in Hxr by done.
    destruct (unjoined_fields x xth) as (_ & Hs & -> & _). rewrite Hs in Hxs. by eapply A12.
  - rewrite unjoin_state. simpl. rewrite map_size_fmap, map_size_insert_Some by (by eexists). done.
Qed.

Lemma unjoin_ok :
  sched_ok s1 /\ frame s s1 /\ ready_queue s1 = ready_queue s /\
  (forall x xth, threads s !! x = Some xth -> threads s1 !! x = Some (unjoined x xth)) /\
  (forall x, threads s !! x = None -> threads s1 !! x = None) /\
  (forall j jth, threads s1 !! j = Some jth -> t ∉ joiners jth).
Proof.
  split; [exact unjoin_sched_ok|]. split; [by rewrite unjoin_state|]. split; [by rewrite unjoin_state|].
  split; [exact unjoin_fwd|]. split; [exact unjoin_none|].
  intros j jth' Hj. destruct (unjoin_back j jth' Hj) as (y & Hy & ->). destruct (unjoined_fields j y) as (_ & _ & _ & ->).
  rewrite elem_of_remove. tauto.
Qed.
End Unjoin.

(** A joiner of [joinee] that is let go. *)
Definition released (s : sched) (t : Z) : Prop :=
  exists th, threads s !! t = Some th /\ is_joining th = false /\ (is_runnable th = true \/ is_debug_suspend th = true).

(** Threads other than those in [l] keep their record, except that [l] leaves
    the joiner lists. *)
Lemma wake_joiners_loop_spec E cpu l s :
  sched_ok s -> quiet s cpu -> NoDup l ->
  (forall t, t ∈ l -> not_idle s t /\ exists th, threads s !! t = Some th /\ is_dying th = false /\ is_runnable th = false) ->
  exists s', wake_joiners_loop E cpu l s = Ok s' /\ sched_ok s' /\ quiet s' cpu /\ frame s s' /\
    (forall t, t ∈ l -> released s' t) /\
    (forall j jth, threads s' !! j = Some jth -> exists jth0, threads s !! j = Some jth0 /\
       joiners jth = filter (fun x => x ∉ l) (joiners jth0)) /\
    (forall x xth, x ∉ l -> threads s !! x = Some xth -> exists xth', threads s' !! x = Some xth' /\
       flags xth' = flags xth /\ preempt_count xth' = preempt_count xth).
Proof.
  revert s. induction l as [|t l IH]; intros s Hok Hq Hnd Hl.
  { exists s. splits; [done|done|done|apply frame_refl|set_solver| |eauto].
    intros j jth Hj. exists jth. split; [done|]. symmetry. induction (joiners jth) as [|x js IHj]; [done|].
    rewrite filter_cons_True by set_solver. by rewrite IHj. }
  apply NoDup_cons in Hnd as [Htl Hnd]. destruct (Hl t ltac:(by left)) as (Hni & th & Ht & Hd & Hr). cbn [wake_joiners_loop].
  rewrite (upd_eq _ _ _ _ Ht). cbn [mbind res_bind].
  destruct (unjoin_ok s t th Hok Ht Hd Hr) as (Hok1 & Hf1 & Hrq1 & Hth1 & Hno1 & Hnj1). unfold unjoined in Hth1.
  set (s1 := unlink t _) in *. pose proof (Hth1 t th Ht) as Ht1. rewrite decide_True in Ht1 by done.
  set (th1 := set_joiners _ (clear_flag JOIN_FLAG th)) in *.
  pose proof Hf1 as (_ & _ & _ & _ & Hc1 & _).
  assert (quiet s1 cpu) as Hq1.
  { destruct Hq as (cp & c & Hcp & Hc & Hpc). eexists cp, _. unfold per_cpu in *. rewrite Hc1. split; [done|]. split; [by apply Hth1|].
    destruct (decide _); done. }
  assert (wakeable s1 t th1) as Hwk.
  { unfold wakeable. splits; [done| | |done].
    - change (is_dying th1) with (is_dying (clear_flag JOIN_FLAG th)). by flags.
    - unfold not_idle. by rewrite Hc1. }
  destruct (wake_spec E cpu s1 t th1 Hok1 Hq1 Hwk) as (s2 & -> & Hok2 & Hf2 & Hth2 & _). cbn [mbind res_bind].
  pose proof Hf2 as (_ & _ & _ & _ & Hc2 & _).
  destruct (woken_facts th1) as (W1&W2&W3&W4&W5&W6&W7&W8&W9&W10&W11&W12&W13&W14&W15).
  assert (same_threads s1 s2) as Hst by (by eapply same_threads_insert; [exact Ht1|apply same_woken|]).
  destruct (IH s2) as (s' & -> & Hok' & Hq' & Hf' & Hrel & Hjo & Hkeep); [done|by eapply quiet_same|done| |].
  { intros x Hx. destruct (Hl x ltac:(by right)) as (Hxni & xth & Hxt & Hxd & Hxr). split; [unfold not_idle; by rewrite Hc2, Hc1|].
    assert (x <> t) by (intros ->; done). eexists. rewrite Hth2, lookup_insert_ne by done. split; [by apply Hth1|].
    by rewrite decide_False by done. }
  exists s'. splits; [done|done|done|by eapply frame_trans; [|eapply frame_trans]| | |].
  - intros x [->|Hx]%elem_of_cons; [|by apply Hrel].
    destruct (Hkeep t (woken th1)) as (th' & Ht' & Hfl & _); [done|rewrite Hth2; by rewrite lookup_insert_eq|].
    exists th'. unfold is_flag in *. rewrite Hfl. splits; [done| |done]. rewrite W5. by apply is_flag_clear_self.
  - intros j jth Hj. destruct (Hjo j jth Hj) as (j2 & Hj2 & ->).
    assert (exists j0, threads s !! j = Some j0 /\ joiners j2 = remove_from t (joiners j0)) as (j0 & Hj0 & ->).
    { destruct (threads s !! j) as [j0|] eqn:E0.
      - exists j0. split; [done|]. destruct (same_threads_back s1 s2 j j2 Hst Hj2) as (j1 & Hj1 & (-> & _)).
        rewrite (Hth1 j j0 E0) in Hj1. injection Hj1 as <-. by destruct (decide (j = t)).
      - destruct (same_threads_back s1 s2 j j2 Hst Hj2) as (j1 & Hj1 & _). by rewrite (Hno1 j E0) in Hj1. }
    exists j0. split; [done|]. unfold remove_from. rewrite list_filter_filter. apply list_filter_iff. intros x. set_solver.
  - intros x xth Hx Hxt. apply not_elem_of_cons in Hx as [Hxne Hxl].
    destruct (Hkeep x (set_joiners (remove_from t (joiners xth)) xth)) as (x' & Hx' & Hfl & Hpc); [done| |eauto].
    rewrite Hth2, lookup_insert_ne by done. rewrite (Hth1 x xth Hxt). by rewrite decide_False.
Qed.

(** ** The sleep queue is ordered *)

Definition wake_time (s : sched) (q : Z) : Z :=
  match timers s !! q with Some x => wakeup_time x | None => 0 end.

Definition sleep_sorted (s : sched) : Prop :=
  StronglySorted (fun a b => wake_time s a <= wake_time s b) (sleep_queue s) /\
  forall q, q ∈ sleep_queue s -> is_Some (timers s !! q).

Lemma sleep_insert_spec s q w l :
  (forall e, e ∈ l -> is_Some (timers s !! e)) -> wake_time s q = w ->
  StronglySorted (fun a b => wake_time s a <= wake_time s b) l ->
  exists l1 l2, l = l1 ++ l2 /\ sleep_insert (timers s) q w l = Ok (l1 ++ q :: l2) /\
    StronglySorted (fun a b => wake_time s a <= wake_time s b) (l1 ++ q :: l2) /\
    Forall (fun e => wake_time s e <= w) l1 /\ Forall (fun e => w < wake_time s e) l2.
Proof.
  intros Hl Hw. induction l as [|e l IH]; intros Hs; simpl.
  - exists [], []. splits; try done. repeat constructor.
  - destruct (Hl e ltac:(by left)) as [x Hx]. rewrite Hx. cbn [access mbind res_bind].
    assert (wake_time s e = wakeup_time x) as He by (unfold wake_time; by rewrite Hx).
    apply StronglySorted_inv in Hs as [Hs Hall]. destruct (Z.ltb_spec w (wakeup_time x)) as [Hlt|Hge].
    + assert (Forall (fun e' => w < wake_time s e') (e :: l)) as Hgt.
      { constructor; [lia|]. eapply Forall_impl; [exact Hall|]. cbv beta. lia. }
      exists [], (e :: l). splits; try done. simpl. constructor; [by constructor|].
      eapply Forall_impl; [exact Hgt|]. cbv beta. lia.
    + destruct IH as (l1 & l2 & -> & -> & Hs' & H1 & H2); [intros; apply Hl; by right|done|].
      exists (e :: l1), l2. splits; try done; [|constructor; [lia|done]].
      simpl. constructor; [done|]. apply Forall_app in Hall as [Ha1 Ha2]. apply Forall_app. split; [done|].
      constructor; [lia|done].
Qed.

(** [guk_sleep_queue_add] keeps the sleep queue ordered by wake up time: the
    timer goes after every timer that is not later and before every later one,
    the others keep their order, and it becomes active; [guk_sleep_queue_del]
    takes exactly that timer out again. *)
Lemma sleep_queue_ordered s q x :
  sleep_sorted s -> timers s !! q = Some x -> q ∉ sleep_queue s ->
  exists s' l1 l2, guk_sleep_queue_add q s = Ok s' /\ sleep_sorted s' /\
    sleep_queue s = l1 ++ l2 /\ sleep_queue s' = l1 ++ q :: l2 /\
    Forall (fun e => wake_time s e <= wakeup_time x) l1 /\ Forall (fun e => wakeup_time x < wake_time s e) l2 /\
    threads s' = threads s /\ ready_queue s' = ready_queue s /\
    (exists y, timers s' !! q = Some y /\ sq_flag ACTIVE_SQ_FLAG y = true /\ wakeup_time y = wakeup_time x) /\
    exists s'', guk_sleep_queue_del q s' = Ok s'' /\ sleep_queue s'' = sleep_queue s.
Proof.
  intros [Hs Hdom] Hx Hq. unfold guk_sleep_queue_add, timer. rewrite Hx. cbn [access mbind res_bind].
  rewrite bool_decide_eq_false_2 by done.
  assert (wake_time s q = wakeup_time x) as Hw by (unfold wake_time; by rewrite Hx).
  destruct (sleep_insert_spec s q (wakeup_time x) (sleep_queue s) Hdom Hw Hs) as (l1 & l2 & Heq & -> & Hs' & H1 & H2).
  cbn [mbind res_bind]. unfold upd_timer, timer. simpl. rewrite Hx. cbn [access mbind res_bind].
  eexists _, l1, l2. split; [done|].
  set (s' := set_timers _ _).
  assert (forall e, wake_time s' e = wake_time s e) as Hwt.
  { intros e. unfold wake_time, s'. simpl. destruct (decide (e = q)) as [->|]; by simplify_map_eq. }
  assert (timers s' !! q = Some (sq_set ACTIVE_SQ_FLAG x)) as Hx' by (simpl; by rewrite lookup_insert_eq).
  split; [split|splits; try done].
  - simpl. eapply StronglySorted_ind with (P := fun l => StronglySorted (fun a b => wake_time s' a <= wake_time s' b) l); [constructor| |exact Hs'].
    intros a l _ IH Hall. constructor; [done|]. eapply Forall_impl; [exact Hall|]. cbv beta. intros e. by rewrite !Hwt.
  - intros e He. simpl in He. simpl. destruct (decide (e = q)) as [->|]; [rewrite lookup_insert_eq; by eexists|].
    rewrite lookup_insert_ne by done. apply Hdom. rewrite Heq. set_solver.
  - exists (sq_set ACTIVE_SQ_FLAG x). splits; [done|by apply sq_set_self|done].
  - unfold guk_sleep_queue_del, upd_timer, timer. cbn [timers set_sleep_queue]. rewrite Hx'. cbn [access mbind res_bind].
    eexists. split; [done|]. simpl. rewrite Heq in Hq. apply not_elem_of_app in Hq as [Hq1 Hq2].
    unfold remove_from. rewrite filter_app, filter_cons_False by tauto. fold (remove_from q l1) (remove_from q l2).
    by rewrite !remove_from_id.
Qed.

(** [wake_expired] on an ordered sleep queue marks every timer whose time
    has come as expired, and each thread whose timer went off in this call is
    runnable afterwards (or held by the debugger); the invariant is kept and the
    scan stops at the first timer that is not due. *)
Lemma wake_expired_exact E cpu s :
  sched_ok s -> quiet s cpu -> timers_ok s -> sleep_sorted s ->
  exists s', wake_expired E cpu s = Ok s' /\ sched_ok s' /\ sleep_queue s' = sleep_queue s /\
    (forall q x, q ∈ sleep_queue s -> timers s !! q = Some x -> wakeup_time x <= NOW E -> expired_in s' q) /\
    (forall q x, q ∈ sleep_queue s -> timers s !! q = Some x -> sq_flag EXPIRED_SQ_FLAG x = false ->
       wakeup_time x <= NOW E -> awake s' (sq_thread x)).
Proof.
  intros Hok Hq Htm [Hs Hdom].
  destruct (wake_expired_loop_spec E cpu (sleep_queue s) s Hok Hq Htm) as (s' & Heq & Hw & l1 & l2 & Hl & He & Ha & Hl2).
  exists s'. pose proof Hw as (Hok' & _ & Htm' & Hsq & _).
  assert (forall q x, q ∈ sleep_queue s -> timers s !! q = Some x -> wakeup_time x <= NOW E -> q ∈ l1) as Hin.
  { intros q x Hqin Hx Hle. rewrite Hl in Hqin. apply elem_of_app in Hqin as [|Hq2]; [done|].
    destruct l2 as [|q0 l2]; [by apply not_elem_of_nil in Hq2|].
    destruct (Hl2 q0 eq_refl) as (y & Hy & Hlt).
    destruct (Hdom q0 ltac:(rewrite Hl; set_solver)) as [y0 Hy0].
    destruct (Htm' q0 y0 Hy0) as (y' & Hy' & Hwt & _). simplify_eq.
    assert (wake_time s q0 <= wake_time s q) as Hord.
    { rewrite Hl in Hs. apply elem_of_cons in Hq2 as [->|Hq2]; [done|].
      clear - Hs Hq2. induction l1 as [|z l1 IH]; simpl in Hs; apply StronglySorted_inv in Hs as [Hs Hall]; [|by apply IH].
      rewrite Forall_forall in Hall. by apply Hall. }
    unfold wake_time in Hord. rewrite Hx, Hy0 in Hord. lia. }
  splits; [done|done|done| |].
  - intros q x Hqin Hx Hle. apply He. by eapply Hin.
  - intros q x Hqin Hx Hne Hle. eapply Ha; [by eapply Hin|done|done].
Qed.

(** ** Block, wake, interrupt *)

(** [guk_block] takes a runnable thread off the ready queue and nothing
    else, and [guk_wake] puts it back, at the end of the queue: the invariant is
    kept, and no other thread moves or changes. *)
Lemma block_wake_queue E cpu s t th :
  sched_ok s -> quiet s cpu -> wakeable s t th -> queued s th = true ->
  is_debug_suspend th = false -> is_req_debug_suspend th = false ->
  exists s1 s2, guk_block cpu t s = Ok s1 /\ sched_ok s1 /\ frame s s1 /\
    ready_queue s1 = remove_from t (ready_queue s) /\ t ∉ ready_queue s1 /\
    threads s1 = <[t := clear_flag RUNNABLE_FLAG th]> (threads s) /\
    guk_wake E cpu t s1 = Ok s2 /\ sched_ok s2 /\ frame s s2 /\
    ready_queue s2 = remove_from t (ready_queue s) ++ [t] /\
    (forall x, x <> t -> threads s2 !! x = threads s !! x).
Proof.
  intros Hok Hq (Ht & Hd & Hni & Hnj) Hqd Hds Hrd. pose proof Hqd as Hqd'. apply andb_prop in Hqd' as [Hr Hna].
  destruct (block_spec cpu s t th Hok Hq Ht Hr) as (s1 & -> & Hok1 & Hf1 & Hth1 & Hrq1).
  pose proof Hf1 as (_ & _ & _ & _ & Hc1 & Hu1 & _).
  set (th1 := clear_flag RUNNABLE_FLAG th) in *.
  assert (wakeable s1 t th1) as Hwk.
  { unfold wakeable. splits; [rewrite Hth1; by rewrite lookup_insert_eq|subst th1; by flags|unfold not_idle; by rewrite Hc1|].
    intros j jth. rewrite Hth1. destruct (decide (j = t)) as [->|]; intros Hj; simplify_map_eq; [by apply (Hnj t th)|by eapply Hnj]. }
  assert (quiet s1 cpu) as Hq1.
  { destruct Hq as (cp & c & Hcp & Hc & Hpc). unfold quiet, per_cpu in *. rewrite Hc1, Hth1. exists cp.
    destruct (decide (current_thread cp = t)) as [Heq|].
    - exists th1. rewrite Heq in *. rewrite lookup_insert_eq. simplify_eq. split; [done|]. split; [done|exact Hpc].
    - exists c. by rewrite lookup_insert_ne. }
  destruct (wake_spec E cpu s1 t th1 Hok1 Hq1 Hwk) as (s2 & Hwake & Hok2 & Hf2 & Hth2 & Hrq2).
  assert (queued s1 th1 = false) as Hn1 by (unfold queued; subst th1; by flags).
  assert (queued s1 (woken th1) = true) as Hn2.
  { destruct (woken_facts th1) as (_&_&_&_&_&Hwa&_&_&_&_&_&_&_&_&Hwr). unfold queued. rewrite Hwa, Hwr, Hu1. subst th1.
    flags. rewrite Hds, Hrd. exact Hna. }
  rewrite Hn1, Hn2 in Hrq2. simpl in Hrq2. exists s1, s2.
  splits; try done; [rewrite Hrq1, elem_of_remove; tauto|by eapply frame_trans|congruence|].
  intros x Hx. by rewrite Hth2, Hth1, !lookup_insert_ne.
Qed.

(** The first branch of [guk_interrupt]: a thread that is joining leaves the
    joiner list, any other thread is on none. *)
Lemma interrupt_unjoin cpu s t th :
  sched_ok s -> quiet s cpu -> threads s !! t = Some th -> is_runnable th = false -> is_dying th = false ->
  (is_joining th = false -> forall j jth, threads s !! j = Some jth -> t ∉ joiners jth) ->
  exists s1 th1, (if is_joining th then upd t (clear_flag JOIN_FLAG) (unlink t s) else Ok s) = Ok s1 /\
    sched_ok s1 /\ quiet s1 cpu /\ threads s1 !! t = Some th1 /\ is_dying th1 = false /\ is_runnable th1 = false /\
    is_joining th1 = false /\ cpus s1 = cpus s /\ (forall j jth, threads s1 !! j = Some jth -> t ∉ joiners jth).
Proof.
  intros Hok Hq Ht Hr Hd Hnj. destruct (is_joining th) eqn:Hj; [|exists s, th; splits; [done..|]; by apply Hnj].
  destruct (unjoin_ok s t th Hok Ht Hd Hr) as (Hok1 & Hf1 & _ & Hth1 & Hno1 & Hnj1). unfold unjoined in Hth1.
  set (s1 := unlink t (set_threads _ s)) in *.
  pose proof Hf1 as (_ & _ & _ & _ & Hc1 & _).
  assert (upd t (clear_flag JOIN_FLAG) (unlink t s) = Ok s1) as ->.
  { unfold upd, thr. assert (threads (unlink t s) !! t = Some (set_joiners (remove_from t (joiners th)) th)) as Hx.
    { simpl. by rewrite lookup_fmap, Ht. }
    rewrite Hx. cbn [access mbind res_bind]. f_equal. subst s1. unfold unlink, set_threads. simpl. f_equal.
    by rewrite fmap_insert. }
  eexists s1, _. splits; [done|done| |by apply Hth1| | | |done|done].
  - destruct Hq as (cp & c & Hcp & Hc & Hpc). eexists cp, _. unfold per_cpu in *. rewrite Hc1. split; [done|].
    split; [by apply Hth1|]. by destruct (decide _).
  - rewrite decide_True by done. change (is_dying (set_joiners _ ?z)) with (is_dying z). by flags.
  - rewrite decide_True by done. change (is_runnable (set_joiners _ ?z)) with (is_runnable z). by flags.
  - rewrite decide_True by done. change (is_joining (set_joiners _ ?z)) with (is_joining z). by flags.
Qed.

(** A sleep or a join of an interrupted thread returns -1. *)
Lemma interrupted_returns s t th :
  threads s !! t = Some th -> is_interrupted th = true ->
  (exists s', join_end t s = Ok (-1, s')) /\
  (forall q x, timers s !! q = Some x -> exists s', nanosleep_end t q s = Ok (-1, s')).
Proof.
  intros Ht Hi. split.
  - unfold join_end. rewrite (thr_eq _ _ _ Ht). cbn [mbind res_bind]. rewrite Hi, (upd_eq _ _ _ _ Ht). by eexists.
  - intros q x Hx. unfold nanosleep_end. rewrite (thr_eq _ _ _ Ht). cbn [mbind res_bind].
    destruct (is_sleeping th).
    + rewrite (upd_eq _ _ _ _ Ht). cbn [mbind res_bind]. unfold guk_sleep_queue_del, upd_timer, timer. simpl. rewrite Hx.
      cbn [access mbind res_bind]. simpl. rewrite lookup_insert_eq. cbn [access mbind res_bind]. unfold thr. simpl.
      rewrite lookup_insert_eq. cbn [access mbind res_bind]. flags. rewrite Hi. unfold upd, thr. simpl.
      rewrite lookup_insert_eq. cbn [access mbind res_bind]. by eexists.
    + cbn [mbind res_bind]. unfold upd_timer, timer. rewrite Hx. cbn [access mbind res_bind]. unfold thr. simpl. rewrite Ht.
      cbn [access mbind res_bind]. rewrite Hi. unfold upd, thr. simpl. rewrite Ht. cbn [access mbind res_bind]. by eexists.
Qed.

(** Setting a flag that the scheduler's invariant does not read. *)
Lemma mark_interrupted cpu s t th :
  let th2 := set_flag INTERRUPTED_FLAG th in let s2 := set_threads (<[t := th2]> (threads s)) s in
  sched_ok s -> quiet s cpu -> threads s !! t = Some th -> is_dying th = false -> not_idle s t ->
  (forall j jth, threads s !! j = Some jth -> t ∉ joiners jth) ->
  sched_ok s2 /\ quiet s2 cpu /\ wakeable s2 t th2.
Proof.
  intros th2 s2 Hok Hq Ht Hd Hni Hnj. splits.
  - subst s2. rewrite <- set_ready_same. apply (sched_ok_same s t th th2); try done; subst th2; unfold same_queues; flags; try done.
    by left.
  - destruct Hq as (cp & c & Hcp & Hc & Hpc). exists cp. destruct (decide (current_thread cp = t)) as [Heq|].
    + exists th2. rewrite Heq in *. simplify_eq. split; [done|]. split; [simpl; by rewrite lookup_insert_eq|exact Hpc].
    + exists c. simpl. by rewrite lookup_insert_ne.
  - unfold wakeable. splits; [simpl; by rewrite lookup_insert_eq|subst th2; by flags|done|].
    intros j jth. simpl. destruct (decide (j = t)) as [->|]; intros Hj; simplify_map_eq; [by apply (Hnj t th)|by eapply Hnj].
Qed.

(** Interrupting a thread that sleeps, joins or waits takes it off the
    joiner list it is on, makes it runnable, and makes its [guk_nanosleep] or
    [guk_join_thread] return -1; a thread that is runnable, running or dying is
    left alone. *)
Lemma interrupt_wakes E cpu s t th :
  sched_ok s -> quiet s cpu -> threads s !! t = Some th -> not_idle s t ->
  (is_runnable th || is_running th || is_dying th = true -> guk_interrupt E cpu t s = Ok s) /\
  (is_runnable th = false -> is_running th = false -> is_dying th = false ->
   (is_joining th = false -> forall j jth, threads s !! j = Some jth -> t ∉ joiners jth) ->
   exists s' th', guk_interrupt E cpu t s = Ok s' /\ sched_ok s' /\ threads s' !! t = Some th' /\
     is_interrupted th' = true /\ (is_runnable th' = true \/ is_debug_suspend th' = true) /\ is_joining th' = false /\
     (forall j jth, threads s' !! j = Some jth -> t ∉ joiners jth) /\
     (exists s'', join_end t s' = Ok (-1, s'')) /\
     (forall q x, timers s' !! q = Some x -> exists s'', nanosleep_end t q s' = Ok (-1, s''))).
Proof.
  intros Hok Hq Ht Hni. unfold guk_interrupt. rewrite (thr_eq _ _ _ Ht). cbn [mbind res_bind]. split; [by intros ->|].
  intros Hr Hrun Hd Hnj. rewrite Hr, Hrun, Hd. cbn [orb].
  destruct (interrupt_unjoin cpu s t th Hok Hq Ht Hr Hd Hnj) as (s1 & th1 & -> & Hok1 & Hq1 & Ht1 & Hd1 & Hr1 & Hj1 & Hc1 & Hnj1).
  cbn [mbind res_bind]. rewrite (upd_eq _ _ _ _ Ht1). cbn [mbind res_bind].
  destruct (mark_interrupted cpu s1 t th1 Hok1 Hq1 Ht1 Hd1) as (Hok2 & Hq2 & Hwk); [unfold not_idle; by rewrite Hc1|done|].
  set (th2 := set_flag INTERRUPTED_FLAG th1) in *. set (s2 := set_threads (<[t := th2]> (threads s1)) s1) in *.
  destruct (wake_spec E cpu s2 t th2 Hok2 Hq2 Hwk) as (s3 & -> & Hok3 & Hf3 & Hth3 & _).
  destruct (woken_facts th2) as (W1&W2&W3&W4&W5&W6&W7&W8&W9&W10&W11&W12&W13&W14&W15).
  assert (threads s3 !! t = Some (woken th2)) as Ht3 by (rewrite Hth3; by rewrite lookup_insert_eq).
  assert (is_interrupted (woken th2) = true) as Hi3 by (rewrite W8; subst th2; by flags).
  destruct (interrupted_returns s3 t _ Ht3 Hi3) as [Hjoin Hsleep].
  exists s3, (woken th2). splits; [done|done|done|done|done|rewrite W5; subst th2; by flags| |done|done].
  intros j jth. rewrite Hth3. simpl. rewrite insert_insert_eq. destruct (decide (j = t)) as [->|]; intros Hj; simplify_map_eq.
  - rewrite W1. by apply (Hnj1 t th1).
  - by eapply Hnj1.
Qed.

(** ** Exit *)

Lemma filter_self (l : list Z) : filter (fun x => x ∉ l) l = [].
Proof.
  destruct (filter (fun x => x ∉ l) l) as [|z r] eqn:E; [done|].
  assert (z ∈ filter (fun x => x ∉ l) l) as Hz by (rewrite E; by left). apply list_elem_of_filter in Hz. tauto.
Qed.

(** A blocked thread that becomes a zombie. *)
Lemma die_ok s t th :
  sched_ok s -> threads s !! t = Some th -> is_runnable th = false -> not_idle s t ->
  (forall j jth, threads s !! j = Some jth -> t ∉ joiners jth) ->
  sched_ok (set_zombie_queue (zombie_queue s ++ [t]) (set_threads (<[t := set_flag DYING_FLAG th]> (threads s)) s)).
Proof.
  intros Hok Ht Hr Hni Hnj. pose proof Hok as [A1 A2 A3 A4 A5 A6 A7 A8 A9 A10 A12 A11].
  set (th' := set_flag DYING_FLAG th).
  assert (is_runnable th' = false /\ is_running th' = is_running th /\ is_dying th' = true /\
    queued s th' = false /\ queued s th = false) as (F1 & F2 & F3 & F4 & F5).
  { unfold queued. subst th'. flags. rewrite Hr. by splits. }
  split; cbn [ready_queue zombie_queue threads cpus thread_id set_zombie_queue set_threads].
  - intros x. rewrite A1. change (queued (set_zombie_queue _ _)) with (queued s). destruct (decide (x = t)) as [->|]; simplify_map_eq.
    + split; intros (y & ? & ?); simplify_eq; congruence.
    + done.
  - done.
  - intros x Hx. rewrite elem_of_app, list_elem_of_singleton in Hx. destruct (decide (x = t)) as [->|]; simplify_map_eq; [eauto|].
    destruct Hx as [Hx|]; [by apply A3|done].
  - intros x xth Hx. destruct (decide (x = t)) as [->|]; simplify_map_eq; [done|by apply (A4 x xth)].
  - intros j jth x Hj Hin.
    assert (exists jth0, threads s !! j = Some jth0 /\ joiners jth = joiners jth0) as (jth0 & Hj0 & Hjo).
    { destruct (decide (j = t)) as [->|]; simplify_map_eq; eauto. }
    rewrite Hjo in Hin. destruct (decide (x = t)) as [->|]; [by apply Hnj in Hj0|]. rewrite lookup_insert_ne by done. by eapply A5.
  - intros j1 j2 t1 t2 x H1 H2 I1 I2.
    assert (forall j jth, <[t:=th']> (threads s) !! j = Some jth -> exists jth0, threads s !! j = Some jth0 /\ joiners jth = joiners jth0) as Hb.
    { intros j jth Hj. destruct (decide (j = t)) as [->|]; simplify_map_eq; eauto. }
    destruct (Hb _ _ H1) as (y1 & Hy1 & E1), (Hb _ _ H2) as (y2 & Hy2 & E2). rewrite E1 in I1. rewrite E2 in I2. by eapply A6.
  - intros j jth Hj. destruct (decide (j = t)) as [->|]; simplify_map_eq; [by apply (A7 t th)|by eapply A7].
  - intros c cp Hc. rewrite lookup_insert_ne by (intros Heq; by eapply Hni). by apply A8.
  - intros c cp Hc. destruct (A9 c cp Hc) as (x & Hx & ? & ?).
    destruct (decide (current_thread cp = t)) as [Heq|]; [|by simplify_map_eq; eauto]. rewrite Heq in *. simplify_map_eq.
    exists th'. by rewrite F2.
  - intros x xth Hx Hxr. destruct (decide (x = t)) as [->|]; simplify_map_eq; [|by eapply A10]. rewrite F2 in Hxr. by apply (A10 t th).
  - intros x xth Hx Hxs Hxr. destruct (decide (x = t)) as [->|]; simplify_map_eq; [|by eapply A12].
    rewrite F2 in Hxr. by apply (A12 t th).
  - by rewrite map_size_insert_Some by (by eexists).
Qed.

(** A thread that is off every list becomes a zombie. *)
Lemma add_zombie_dying s t th :
  sched_ok s -> threads s !! t = Some th -> is_runnable th = false -> not_idle s t -> t ∉ zombie_queue s -> t ∉ ready_queue s ->
  (forall j jth, threads s !! j = Some jth -> t ∉ joiners jth) ->
  let s4 := set_zombie_queue (zombie_queue s ++ [t]) (set_threads (<[t := set_flag DYING_FLAG th]> (threads s)) s) in
  (s ← upd t (set_flag DYING_FLAG) s; add_zombie t s) = Ok s4 /\ sched_ok s4.
Proof.
  intros Hok Ht Hr Hni Hz Hrq Hnj s4. split; [|by apply die_ok]. rewrite (upd_eq _ _ _ _ Ht). cbn [mbind res_bind].
  unfold add_zombie. rewrite not_linked; [done|]. unfold free_node. splits; [done|done|].
  intros j jth. simpl. destruct (decide (j = t)) as [->|Hne].
  - rewrite lookup_insert_eq. intros [= <-]. exact (Hnj t th Ht).
  - rewrite lookup_insert_ne by done. apply Hnj.
Qed.

(** The dying thread lets its joiners go, if it has any. *)
Lemma exit_wake E cpu s cp t th :
  sched_ok s -> per_cpu s cpu = Ok cp -> current_thread cp = t -> threads s !! t = Some th ->
  0 <= preempt_count th < 2 ^ 31 - 1 -> t ∉ joiners th -> (forall x, x ∈ joiners th -> not_idle s x) ->
  exists s', (if bool_decide (joiners th = []) then Ok s else wake_joiners E cpu t s) = Ok s' /\ sched_ok s' /\ frame s s' /\
    (forall x, x ∈ joiners th -> released s' x) /\
    exists th', threads s' !! t = Some th' /\ flags th' = flags th /\ preempt_count th' = preempt_count th /\ joiners th' = [].
Proof.
  intros Hok Hcp Hcur Ht Hpc Htj Hni. case_bool_decide as Hnil.
  - exists s. splits; [done|done|apply frame_refl|rewrite Hnil; set_solver|]. by exists th.
  - unfold wake_joiners. rewrite (thr_eq _ _ _ Ht). cbn [mbind res_bind].
    destruct (wake_joiners_loop_spec E cpu (joiners th) s) as (s' & -> & Hok' & _ & Hf' & Hrel & Hjo & Hkeep); [done| | | |].
    + exists cp, th. by rewrite Hcur.
    + by apply (ok_joiner_nodup s Hok t).
    + intros x Hx. split; [by apply Hni|]. destruct (ok_joiner s Hok t th x Ht Hx) as (y & Hy & _ & ? & ?). eauto.
    + exists s'. splits; [done|done|done|done|].
      destruct (Hkeep t th) as (th' & Ht' & ? & ?); [done|done|].
      destruct (Hjo t th' Ht') as (y & Hy & Hyj). rewrite Ht in Hy. injection Hy as <-.
      exists th'. splits; [done|done|done|]. rewrite Hyj. apply filter_self.
Qed.

(** Up to the moment the exiting thread is blocked, one preemption count up. *)
Lemma exit_block cpu s cp t th :
  sched_ok s -> per_cpu s cpu = Ok cp -> current_thread cp = t -> threads s !! t = Some th -> is_runnable th = true ->
  is_running th = true -> is_dying th = false -> 0 <= preempt_count th < 2 ^ 30 ->
  let th1 := set_preempt_count (preempt_count th + 1) th in
  exists s2, preempt_disable cpu s = Ok (set_threads (<[t := th1]> (threads s)) s) /\
    guk_block cpu t (set_threads (<[t := th1]> (threads s)) s) = Ok s2 /\ sched_ok s2 /\ frame s s2 /\
    threads s2 = <[t := clear_flag RUNNABLE_FLAG th1]> (threads s) /\ t ∉ ready_queue s2 /\ t ∉ zombie_queue s2 /\
    (forall j jth, threads s2 !! j = Some jth -> t ∉ joiners jth).
Proof.
  intros Hok Hcp Hcur Ht Hr Hrun Hd Hpc th1. unfold preempt_disable, current. rewrite Hcp. cbn [mbind res_bind].
  rewrite Hcur, (add_preempt_count_eq _ _ _ _ Ht) by lia. set (s1 := set_threads (<[t := th1]> (threads s)) s).
  assert (threads s1 !! t = Some th1) as Ht1 by (simpl; by rewrite lookup_insert_eq).
  assert (sched_ok s1) as Hok1.
  { subst s1. rewrite <- set_ready_same. apply (sched_ok_same s t th); try done. by right. }
  assert (quiet s1 cpu) as Hq1.
  { exists cp, th1. rewrite Hcur. split; [done|]. split; [done|]. simpl. lia. }
  destruct (block_spec cpu s1 t th1 Hok1 Hq1 Ht1 Hr) as (s2 & Hb & Hok2 & Hf2 & Hth2 & Hrq2).
  destruct (only_ready s1 t th1 Hok1 Ht1 Hd) as [Hz Hj]; [by right|].
  exists s2. splits; [done|exact Hb|done|exact Hf2| |rewrite Hrq2, elem_of_remove; tauto| |].
  - rewrite Hth2. simpl. by rewrite insert_insert_eq.
  - destruct Hf2 as (_ & _ & -> & _). done.
  - intros j jth. rewrite Hth2. destruct (decide (j = t)) as [->|Hne].
    + rewrite lookup_insert_eq. intros [= <-]. exact (Hj t th1 Ht1).
    + rewrite lookup_insert_ne by done. apply Hj.
Qed.

(** C36: [exit_thread] of a running thread puts it on the zombie queue, marked
    dying and off the ready queue, and lets every thread that joined it go: each
    is runnable (or held by the debugger) and no longer joining. *)
Theorem exit_releases_joiners E cpu s cp t th :
  sched_ok s -> per_cpu s cpu = Ok cp -> 0 <= cpu -> current_thread cp = t -> threads s !! t = Some th ->
  is_runnable th = true -> upcalls_active s = false -> 0 <= preempt_count th < 2 ^ 30 -> not_idle s t ->
  (forall x, x ∈ joiners th -> not_idle s x) ->
  exists s', exit_begin E cpu s = Ok s' /\ sched_ok s' /\
    zombie_queue s' = zombie_queue s ++ [t] /\ t ∉ ready_queue s' /\
    (exists th', threads s' !! t = Some th' /\ is_dying th' = true /\ is_running th' = true /\ joiners th' = []) /\
    (forall x, x ∈ joiners th -> released s' x).
Proof.
  intros Hok Hcp Hcpu Hcur Ht Hr Hua Hpc Hni Hjni. unfold exit_begin. unfold current at 1. rewrite Hcp. cbn [mbind res_bind]. rewrite Hcur.
  rewrite (thr_eq _ _ _ Ht). cbn [mbind res_bind].
  set (s0 := if is_ukernel th then s else log (DestroyUpcall t) s).
  assert (sched_ok s0 /\ threads s0 = threads s /\ frame s s0) as (Hok0 & Ht0 & Hf0).
  { subst s0. destruct (is_ukernel th); splits; auto using sched_ok_log, frame_refl. done. }
  assert (is_running th = true) as Hrun.
  { unfold per_cpu in Hcp. destruct (Z.leb_spec 0 cpu); [|lia]. apply access_ok in Hcp.
    destruct (ok_current s Hok _ _ Hcp) as (th' & Ht' & ? & _). congruence. }
  rewrite <- Ht0 in Ht.
  assert (is_dying th = false) as Hd.
  { destruct (is_dying th) eqn:Ed; [|done]. by rewrite (ok_dying s0 Hok0 _ _ Ht Ed) in Hr. }
  destruct (exit_block cpu s0 cp t th) as (s2 & -> & Hb & Hok2 & Hf2 & Hth2 & Hrq2 & Hz2 & Hnj2); try done.
  { unfold per_cpu in *. destruct Hf0 as (_ & _ & _ & _ & -> & _). done. }
  cbn [mbind res_bind]. rewrite Hrun. cbn [negb bug_on mbind res_bind]. rewrite Hb. cbn [mbind res_bind]. clear Hb.
  set (th2 := clear_flag RUNNABLE_FLAG _) in *. pose proof (frame_trans _ _ _ Hf0 Hf2) as (_ & _ & Fz & _ & Fc & _).
  assert (is_runnable th2 = false /\ is_running th2 = true) as (Hr2 & Hrun2) by (subst th2; flags; done).
  assert (threads s2 !! t = Some th2) as Ht2 by (rewrite Hth2; by rewrite lookup_insert_eq).
  assert (forall x, not_idle s x -> not_idle s2 x) as Hni2 by (intros x; unfold not_idle; by rewrite Fc).
  destruct (add_zombie_dying s2 t th2) as [Hza Hok4]; try done; [by apply Hni2|].
  destruct (upd t (set_flag DYING_FLAG) s2) as [s3| |]; [|done..]. cbn [mbind res_bind] in Hza |- *. rewrite Hza. cbn [mbind res_bind].
  set (th3 := set_flag DYING_FLAG th2) in *. set (s4 := set_zombie_queue _ _) in *.
  assert (threads s4 !! t = Some th3) as Ht4 by (simpl; by rewrite lookup_insert_eq).
  assert (per_cpu s4 cpu = Ok cp) as Hcp4 by (unfold per_cpu in *; simpl; by rewrite Fc).
  assert (t ∉ joiners th) as Htj.
  { intros Hin. destruct (ok_joiner s0 Hok0 t th t Ht Hin) as (y & Hy & _ & Hyr & _). congruence. }
  rewrite (thr_eq _ _ _ Ht4). cbn [mbind res_bind].
  destruct (exit_wake E cpu s4 cp t th3) as (s5 & -> & Hok5 & Hf5 & Hrel & th5 & Ht5 & Hfl5 & Hpc5 & Hj5); try done;
    [simpl; lia|intros x Hx; apply Hni2; by apply Hjni|].
  cbn [mbind res_bind]. pose proof Hf5 as (_ & _ & Hz5 & _ & Hc5 & _).
  unfold preempt_enable_no_resched, current. unfold per_cpu. rewrite Hc5. fold (per_cpu s4 cpu). rewrite Hcp4. cbn [mbind res_bind]. rewrite Hcur.
  rewrite (add_preempt_count_eq _ _ _ _ Ht5) by (rewrite Hpc5; simpl; lia).
  assert (forall f, is_flag f th5 = is_flag f th3) as Hfl by (intros f; unfold is_flag; by rewrite Hfl5).
  eexists. split; [done|]. splits.
  - rewrite <- set_ready_same. apply (sched_ok_same s5 t th5); try done. right. rewrite Hfl. subst th3. by flags.
  - simpl. rewrite Hz5. simpl. by rewrite Fz.
  - simpl. intros Hin. apply (ok_ready s5 Hok5) in Hin as (y & Hy & Hqy). rewrite Ht5 in Hy. injection Hy as <-.
    unfold queued in Hqy. rewrite Hfl in Hqy. unfold th3 in Hqy. flags_in Hqy. by rewrite Hr2 in Hqy.
  - simpl. rewrite lookup_insert_eq. eexists. split; [done|].
    change (is_dying (set_preempt_count ?v ?z)) with (is_dying z). change (is_running (set_preempt_count ?v ?z)) with (is_running z).
    rewrite !Hfl. subst th3. flags. by splits.
  - intros x Hx. destruct (Hrel x Hx) as (y & Hy & ?). exists y. simpl. rewrite lookup_insert_ne by (intros <-; done). done.
Qed.

(** ** Scheduling *)

(** C4: [schedule] on a CPU that is up, called outside locks with preemption
    not disabled, never stops on one of its assertions.  The threads whose timers
    go off in the call are appended to the ready queue in the order of the sleep
    queue, the current thread moves to the end of it, and that is the ready queue
    afterwards; the CPU then runs the first thread of that queue it may run, else
    the one the application scheduler picks, else the idle thread.  Queue and
    choice are computed from the state before the call.  The invariant is kept,
    the other CPUs keep their threads. *)
Theorem schedule_switches E cpu s cp p :
  sched_ok s -> timers_ok s -> 0 <= cpu -> cpus s !! Z.to_nat cpu = Some cp -> cpu_up cp = true ->
  threads s !! current_thread cp = Some p -> lock_count p = 0 -> is_preemptible p = true -> appsched_ok E s cpu ->
  exists s', guk_schedule E cpu false false s = Ok s' /\ sched_ok s' /\ timers_ok s' /\
    current s' cpu = Ok (next_thread E cpu s cp) /\ ready_queue s' = run_queue (NOW E) s cp /\
    (forall c, c <> Z.to_nat cpu -> cpus s' !! c = cpus s !! c).
Proof. apply schedule_spec. Qed.

(** ** Creating threads *)

Lemma insert_ok s t th lst i :
  sched_ok s -> threads s !! t = None -> is_runnable th = false -> is_running th = false -> started th = false ->
  is_dying th = false -> joiners th = [] -> Z.of_nat (size (threads s)) + 1 <= i ->
  sched_ok (set_thread_list lst (set_ids i (debug_thread_id s) (set_threads (<[t := th]> (threads s)) s))).
Proof.
  intros Hok Ht Hr Hrun Hst Hd Hj Hi. pose proof Hok as [A1 A2 A3 A4 A5 A6 A7 A8 A9 A10 A12 A11].
  assert (forall x xth, threads s !! x = Some xth -> <[t := th]> (threads s) !! x = Some xth) as Hf.
  { intros x xth Hx. rewrite lookup_insert_ne; [done|congruence]. }
  assert (forall x xth, <[t := th]> (threads s) !! x = Some xth -> x = t /\ xth = th \/ threads s !! x = Some xth) as Hb.
  { intros x xth Hx. destruct (decide (x = t)) as [->|]; simplify_map_eq; auto. }
  split; cbn [ready_queue zombie_queue threads cpus thread_id set_thread_list set_ids set_threads].
  - intros x. rewrite A1. change (queued (set_thread_list _ _)) with (queued s). split; intros (xth & Hx & Hq); [eauto|].
    destruct (Hb x xth Hx) as [[-> ->]|]; [|eauto]. unfold queued in Hq. by rewrite Hr in Hq.
  - done.
  - intros x Hx. destruct (A3 x Hx) as (xth & ? & ?). eauto.
  - intros x xth Hx. destruct (Hb x xth Hx) as [[-> ->]|]; [congruence|by apply (A4 x)].
  - intros j jth x Hjt Hin. destruct (Hb j jth Hjt) as [[-> ->]|Hj0]; [rewrite Hj in Hin; set_solver|].
    destruct (A5 j jth x Hj0 Hin) as (xth & ? & ?). eauto.
  - intros j1 j2 t1 t2 x H1 H2 I1 I2. destruct (Hb _ _ H1) as [[-> ->]|]; [rewrite Hj in I1; set_solver|].
    destruct (Hb _ _ H2) as [[-> ->]|]; [rewrite Hj in I2; set_solver|]. by eapply A6.
  - intros j jth Hjt. destruct (Hb _ _ Hjt) as [[-> ->]|]; [rewrite Hj; constructor|by eapply A7].
  - intros c cp Hc. destruct (A8 c cp Hc) as (xth & ? & ?). eauto.
  - intros c cp Hc. destruct (A9 c cp Hc) as (xth & ? & ?). eauto.
  - intros x xth Hx Hxr. destruct (Hb _ _ Hx) as [[-> ->]|]; [congruence|by eapply A10].
  - intros x xth Hx Hxs Hxr. destruct (Hb _ _ Hx) as [[-> ->]|]; [congruence|by eapply A12].
  - rewrite map_size_insert_None by done. lia.
Qed.

Lemma create_spec E cpu s t fl js :
  sched_ok s -> quiet s cpu -> threads s !! t = None -> fl = 0 \/ fl = UKERNEL_FLAG -> 0 < thread_id s < 2 ^ 16 - 1 ->
  exists s' th, guk_create_thread_with_stack E cpu (Some t) true fl js s = Ok (Some t, s') /\ sched_ok s' /\
     threads s' = <[t := th]> (threads s) /\ id th = thread_id s /\ is_runnable th = true /\ joiners th = [] /\
     ready_queue s' = ready_queue s ++ [t] /\ thread_list s' = thread_list s ++ [t] /\ thread_id s' = thread_id s + 1 /\
     cpus s' = cpus s /\ timers s' = timers s /\ sleep_queue s' = sleep_queue s.
Proof.
  intros Hok Hq Ht Hfl Htid. unfold guk_create_thread_with_stack, create_thread_with_id_stack. cbn [negb]. cbv zeta.
  set (th := clear_flag RUNNING_FLAG _).
  assert (is_runnable th = false /\ is_running th = false /\ is_dying th = false /\ is_appsched th = false /\
    is_debug_suspend th = false /\ is_req_debug_suspend th = false) as (F1 & F2 & F3 & F4 & F5 & F6).
  { subst th. destruct Hfl as [-> | ->]; done. }
  rewrite wrap_small by lia.
  assert (sched_ok (set_thread_list (thread_list s ++ [t]) (set_ids (thread_id s + 1) (debug_thread_id s) (set_threads (<[t := th]> (threads s)) s)))) as Hok1.
  { apply insert_ok; try done. pose proof (ok_count s Hok). lia. }
  set (s1 := set_thread_list _ _) in Hok1.
  match goal with |- context [guk_wake E cpu t ?x] => change x with s1 end.
  destruct (Z.eqb_spec (thread_id s) 0); [lia|]. cbn [bug_on mbind res_bind].
  assert (threads s1 !! t = Some th) as Ht1 by (simpl; by rewrite lookup_insert_eq).
  assert (wakeable s1 t th) as Hwk.
  { unfold wakeable. splits; [done|done| |].
    - intros c cp Hc Heq. destruct (ok_idle s Hok c cp Hc) as (? & ? & _). congruence.
    - intros j jth. simpl. destruct (decide (j = t)) as [->|Hne].
      { rewrite lookup_insert_eq. intros [= <-]. by apply not_elem_of_nil. }
      rewrite lookup_insert_ne by done. intros Hj Hin. destruct (ok_joiner s Hok j jth t Hj Hin) as (? & ? & _). congruence. }
  assert (quiet s1 cpu) as Hq1.
  { destruct Hq as (cp & c & Hcp & Hc & Hpc). exists cp, c. splits; [done| |lia|lia]. simpl. rewrite lookup_insert_ne; [done|congruence]. }
  destruct (wake_spec E cpu s1 t th Hok1 Hq1 Hwk) as (s' & -> & Hok' & Hf & Hth & Hrq). cbn [mbind res_bind].
  destruct Hf as (Hft & Hfs & _ & Htl & Hfc & Hua & Hti & _).
  assert (woken th = set_flag RUNNABLE_FLAG (set_regs 0 th)) as Hw.
  { unfold woken. cbv zeta. change (is_debug_suspend (set_regs 0 th)) with (is_debug_suspend th).
    change (is_req_debug_suspend (set_regs 0 th)) with (is_req_debug_suspend th). by rewrite F5, F6. }
  assert (queued s1 th = false /\ queued s1 (woken th) = true) as [Q1 Q2].
  { unfold queued. rewrite F1, Hw. flags. change (is_appsched (set_regs 0 th)) with (is_appsched th). rewrite F4.
    by rewrite andb_false_r. }
  rewrite Q1, Q2 in Hrq. simpl in Hrq.
  assert (threads s' = <[t := woken th]> (threads s)) as Hth' by (rewrite Hth; simpl; by rewrite insert_insert_eq).
  exists s', (woken th). rewrite Hth', Hw. splits; try done. by flags.
Qed.

(** A new thread gets the next thread id, which no existing thread has, and
    starts at the end of the ready queue; when the 16-bit counter has wrapped to
    0 the creation stops on the assertion. *)
Lemma create_thread_id E cpu s t fl js :
  sched_ok s -> quiet s cpu -> threads s !! t = None -> fl = 0 \/ fl = UKERNEL_FLAG ->
  (forall x xth, threads s !! x = Some xth -> id xth < thread_id s) ->
  (0 < thread_id s < 2 ^ 16 - 1 ->
   exists s' th, guk_create_thread_with_stack E cpu (Some t) true fl js s = Ok (Some t, s') /\ sched_ok s' /\
     threads s' !! t = Some th /\ id th = thread_id s /\ is_runnable th = true /\
     ready_queue s' = ready_queue s ++ [t] /\ thread_list s' = thread_list s ++ [t] /\ thread_id s' = thread_id s + 1 /\
     (forall x xth, x <> t -> threads s' !! x = Some xth -> id xth <> id th)) /\
  (thread_id s = 0 -> guk_create_thread_with_stack E cpu (Some t) true fl js s = Bug BUG_ON).
Proof.
  intros Hok Hq Ht Hfl Hids. split; [|intros H0; unfold guk_create_thread_with_stack, create_thread_with_id_stack; cbn [negb]; by rewrite H0].
  intros Htid. destruct (create_spec E cpu s t fl js Hok Hq Ht Hfl Htid) as (s' & th & -> & Hok' & Hth & Hid & Hr & _ & Hrq & Htl & Hti & _).
  exists s', th. rewrite Hth, lookup_insert_eq. splits; try done.
  intros x xth Hx. rewrite lookup_insert_ne by done. intros Hxt%Hids. lia.
Qed.
