(* ===== verification/SchedReach.v ===== *)
(** Reachable states of the scheduler, and a concrete system of two CPUs on which
    the theorems of [SchedProps] are applied. *)

From Stdlib Require Import Sorting.Sorted.
From stdpp Require Import relations.
From S2P Require Import Prelude Sched SchedInv SchedProps.

(** ** Steps

    One step is one call of the scheduler, by some CPU, under the conditions its
    callers establish. *)

Inductive step : sched -> sched -> Prop :=
| StepSchedule E cpu s s' cp p :
    0 <= cpu -> cpus s !! Z.to_nat cpu = Some cp -> cpu_up cp = true ->
    threads s !! current_thread cp = Some p -> lock_count p = 0 -> is_preemptible p = true -> appsched_ok E s cpu ->
    guk_schedule E cpu false false s = Ok s' -> step s s'
| StepBlock cpu s s' t th :
    quiet s cpu -> threads s !! t = Some th -> is_runnable th = true -> guk_block cpu t s = Ok s' -> step s s'
| StepWake E cpu s s' t th :
    quiet s cpu -> wakeable s t th -> guk_wake E cpu t s = Ok s' -> step s s'
| StepTimer s s' q x th :
    timers s !! q = Some x -> wakeable s (sq_thread x) th ->
    guk_sleep_queue_add q s = Ok s' -> step s s'
| StepTimerDel s s' q : guk_sleep_queue_del q s = Ok s' -> step s s'
| StepCreate E cpu s s' t fl js r :
    quiet s cpu -> threads s !! t = None -> fl = 0 \/ fl = UKERNEL_FLAG ->
    (forall x xth, threads s !! x = Some xth -> id xth < thread_id s) -> 0 < thread_id s < 2 ^ 16 - 1 ->
    guk_create_thread_with_stack E cpu (Some t) true fl js s = Ok (r, s') -> step s s'.

Lemma wakeable_update s s' t th th' :
  threads s !! t = Some th -> threads s' = <[t := th']> (threads s) -> cpus s' = cpus s ->
  joiners th' = joiners th -> is_dying th' = is_dying th ->
  forall x xth, wakeable s x xth -> exists xth', wakeable s' x xth'.
Proof.
  intros Ht Hth Hc Hj Hd x xth (Hx & Hxd & Hni & Hnj).
  assert (forall j jth', threads s' !! j = Some jth' -> exists jth, threads s !! j = Some jth /\ joiners jth' = joiners jth) as Hb.
  { intros j jth'. rewrite Hth. destruct (decide (j = t)) as [->|]; intros; simplify_map_eq; eauto. }
  assert (exists xth', threads s' !! x = Some xth' /\ is_dying xth' = false) as (xth' & Hx' & Hxd').
  { rewrite Hth. destruct (decide (x = t)) as [->|]; simplify_map_eq; [exists th'; by rewrite Hd|by exists xth]. }
  exists xth'. unfold wakeable. splits; [done|done|unfold not_idle; by rewrite Hc|].
  intros j jth' Hjj. destruct (Hb j jth' Hjj) as (jth & Hj0 & ->). by eapply Hnj.
Qed.

Lemma timers_ok_update s s' :
  timers_ok s -> sleep_queue s' = sleep_queue s -> timers s' = timers s ->
  (forall x xth, wakeable s x xth -> exists xth', wakeable s' x xth') -> timers_ok s'.
Proof.
  intros H Hq Ht Hw q Hin. rewrite Hq in Hin. destruct (H q Hin) as (x & Hx & Hor). exists x. rewrite Ht. split; [done|].
  destruct Hor as [|[th Hth]]; [by left|right]. by eapply Hw.
Qed.

Lemma block_timers cpu s s' t th :
  sched_ok s -> timers_ok s -> quiet s cpu -> threads s !! t = Some th -> is_runnable th = true ->
  guk_block cpu t s = Ok s' -> sched_ok s' /\ timers_ok s'.
Proof.
  intros Hok Htm Hq Ht Hr Hb. destruct (block_spec cpu s t th Hok Hq Ht Hr) as (s1 & Hb1 & Hok1 & Hf & Hth & _).
  rewrite Hb in Hb1. injection Hb1 as <-. destruct Hf as (Ft & Fs & _ & _ & Fc & _).
  split; [done|]. apply (timers_ok_update s); try done. intros x xth. apply (wakeable_update s s' t th _ Ht Hth Fc); [done|].
  by flags.
Qed.

Lemma wake_timers E cpu s s' t th :
  sched_ok s -> timers_ok s -> quiet s cpu -> wakeable s t th -> guk_wake E cpu t s = Ok s' -> sched_ok s' /\ timers_ok s'.
Proof.
  intros Hok Htm Hq Hw Hb. destruct (wake_spec E cpu s t th Hok Hq Hw) as (s1 & Hb1 & Hok1 & Hf & Hth & _).
  rewrite Hb in Hb1. injection Hb1 as <-. destruct Hf as (Ft & Fs & _ & _ & Fc & _). destruct Hw as (Ht & _).
  split; [done|]. apply (timers_ok_update s); try done. intros x xth.
  destruct (same_woken th) as (Hj & _ & _ & Hd & _). exact (wakeable_update s s' t th _ Ht Hth Fc Hj Hd x xth).
Qed.

(** Nothing but the timers and the sleep queue changes. *)
Lemma sched_ok_timers s tm l : sched_ok s -> sched_ok (set_timers tm (set_sleep_queue l s)).
Proof. intros Hok. by apply (sched_ok_fields s). Qed.

Lemma sleep_insert_perm tm q w l l' : sleep_insert tm q w l = Ok l' -> l' ≡ₚ q :: l.
Proof.
  revert l'. induction l as [|e l IH]; intros l'; simpl; [by intros [= <-]|].
  destruct (tm !! e); simpl; [|done]. destruct (w <? _); [by intros [= <-]|].
  destruct (sleep_insert tm q w l) as [r| |]; simpl; [|done..]. intros [= <-]. rewrite (IH r eq_refl). apply perm_swap.
Qed.

Lemma timer_ok_set s tm l q x :
  tm !! q = Some x -> sq_flag EXPIRED_SQ_FLAG x = true \/ (exists th, wakeable s (sq_thread x) th) ->
  timer_ok (set_timers tm (set_sleep_queue l s)) q.
Proof. intros Hx Hor. by exists x. Qed.

Lemma timer_add_ok s s' q x th :
  sched_ok s -> timers_ok s -> timers s !! q = Some x -> wakeable s (sq_thread x) th ->
  guk_sleep_queue_add q s = Ok s' -> sched_ok s' /\ timers_ok s'.
Proof.
  intros Hok Htm Hx Hw. unfold guk_sleep_queue_add, timer. rewrite Hx. cbn [access mbind res_bind].
  case_bool_decide; [done|]. destruct (sleep_insert _ _ _ _) as [l| |] eqn:Hl; [|done..]. cbn [mbind res_bind].
  unfold upd_timer, timer. cbn [timers set_sleep_queue]. rewrite Hx. cbn [access mbind res_bind]. intros [= <-].
  split; [by apply sched_ok_timers|]. intros e He. simpl in He. rewrite (sleep_insert_perm _ _ _ _ _ Hl) in He.
  assert (e = q \/ e ∈ sleep_queue s) as [-> | He'] by set_solver; clear He; [|rename He' into He].
  - eapply timer_ok_set; [apply lookup_insert_eq|]. right. by exists th.
  - destruct (Htm e He) as (y & Hy & Hor). destruct (decide (e = q)) as [->|].
    + eapply timer_ok_set; [apply lookup_insert_eq|]. right. by exists th.
    + eapply timer_ok_set; [by rewrite lookup_insert_ne|done].
Qed.

Lemma timer_del_ok s s' q : sched_ok s -> timers_ok s -> guk_sleep_queue_del q s = Ok s' -> sched_ok s' /\ timers_ok s'.
Proof.
  intros Hok Htm. unfold guk_sleep_queue_del, upd_timer, timer. cbn [timers set_sleep_queue].
  destruct (timers s !! q) as [x|] eqn:Hx; [|done]. cbn [access mbind res_bind]. intros [= <-].
  split; [by apply sched_ok_timers|]. intros e He. apply elem_of_remove in He as [Hne He].
  destruct (Htm e He) as (y & Hy & Hor). eapply timer_ok_set; [by rewrite lookup_insert_ne|done].
Qed.

Lemma create_timers E cpu s s' t fl js r :
  sched_ok s -> timers_ok s -> quiet s cpu -> threads s !! t = None -> fl = 0 \/ fl = UKERNEL_FLAG ->
  0 < thread_id s < 2 ^ 16 - 1 -> guk_create_thread_with_stack E cpu (Some t) true fl js s = Ok (r, s') ->
  sched_ok s' /\ timers_ok s'.
Proof.
  intros Hok Htm Hq Ht Hfl Hid Hs.
  destruct (create_spec E cpu s t fl js Hok Hq Ht Hfl Hid) as (s1 & th & Hs1 & Hok' & Hth & _ & _ & Hj & _ & _ & _ & Hc & Ht' & Hsq).
  rewrite Hs in Hs1. injection Hs1 as -> <-. split; [done|]. apply (timers_ok_update s); try done.
  intros x xth (Hx & Hd & Hni & Hnj). exists xth. unfold wakeable. rewrite Hth. splits.
  - rewrite lookup_insert_ne; [done|congruence].
  - done.
  - unfold not_idle. by rewrite Hc.
  - intros j jth. destruct (decide (j = t)) as [->|].
    + rewrite lookup_insert_eq. intros [= <-]. rewrite Hj. by apply not_elem_of_nil.
    + rewrite lookup_insert_ne by done. apply Hnj.
Qed.

Lemma step_ok s s' : sched_ok s /\ timers_ok s -> step s s' -> sched_ok s' /\ timers_ok s'.
Proof.
  intros [Hok Htm] H. destruct H.
  - destruct (schedule_spec E cpu s cp p) as (s1 & Hs & Hok1 & Htm1 & _); [done..|].
    rewrite Hs in *. by simplify_eq.
  - by eapply block_timers.
  - by eapply wake_timers.
  - by eapply timer_add_ok.
  - by eapply timer_del_ok.
  - by eapply create_timers.
Qed.

(** C5: In every state reachable from a well-formed one by scheduling on any
    CPU, blocking, waking, adding and removing timers and creating threads: the
    invariant holds, no thread is current on two CPUs, the ready queue holds
    exactly the runnable threads (those attached to the application scheduler
    apart), each once, and [schedule] called with preemption enabled on a CPU
    that is up stops on none of its assertions. *)
Theorem reachable_schedulable s0 s :
  sched_ok s0 -> timers_ok s0 -> rtc step s0 s ->
  sched_ok s /\ timers_ok s /\
  (forall c1 c2 cp1 cp2, cpus s !! c1 = Some cp1 -> cpus s !! c2 = Some cp2 -> current_thread cp1 = current_thread cp2 -> c1 = c2) /\
  (NoDup (ready_queue s) /\ forall t, t ∈ ready_queue s <-> exists th, threads s !! t = Some th /\ queued s th = true) /\
  (forall E cpu cp p, 0 <= cpu -> cpus s !! Z.to_nat cpu = Some cp -> cpu_up cp = true ->
     threads s !! current_thread cp = Some p -> lock_count p = 0 -> is_preemptible p = true -> appsched_ok E s cpu ->
     exists s', guk_schedule E cpu false false s = Ok s' /\ step s s').
Proof.
  intros Hok0 Htm0 H.
  assert (sched_ok s /\ timers_ok s) as [Hok Htm].
  { induction H as [|a b c Hab _ IH]; [by split|]. destruct (step_ok a b) as [? ?]; [by split|done|]. by apply IH. }
  splits; [done|done| |by apply Hok|by apply Hok|].
  - intros c1 c2 cp1 cp2 H1 H2 Heq. destruct (ok_current s Hok _ _ H1) as (t1 & Ht1 & _ & E1).
    destruct (ok_current s Hok _ _ H2) as (t2 & Ht2 & _ & E2). rewrite Heq in Ht1. simplify_eq. lia.
  - intros E cpu cp p ? ? ? ? ? ? ?. destruct (schedule_spec E cpu s cp p) as (s' & Hs & _); [done..|].
    exists s'. split; [done|]. by eapply StepSchedule.
Qed.

(** ** A system of two CPUs

    Threads 1 and 2 are the idle threads; 10 runs on CPU 0, 11 is ready, 12
    sleeps until time 50, 13 has joined 10, 14 runs on CPU 1. *)

Definition demo_thread (fl tid tcpu pc : Z) (st : bool) (js : list Z) : thread :=
  Thread pc fl 0 tid (-1) true 10 0 0 0 tcpu 0 st js.

Definition demo_threads : list (Z * thread) :=
  [(1, demo_thread UKERNEL_FLAG 0 0 1 true []);
   (2, demo_thread UKERNEL_FLAG 1 1 1 true []);
   (10, demo_thread (Z.lor RUNNABLE_FLAG RUNNING_FLAG) 2 0 0 true [13]);
   (11, demo_thread RUNNABLE_FLAG 3 0 1 false []);
   (12, demo_thread SLEEP_FLAG 4 0 1 true []);
   (13, demo_thread JOIN_FLAG 5 0 1 true []);
   (14, demo_thread (Z.lor RUNNABLE_FLAG RUNNING_FLAG) 6 1 0 true [])].

Definition demo_timer : sleep_queue_t := SQ ACTIVE_SQ_FLAG 50 12.

Definition demo (sq : list Z) : sched :=
  Sched (list_to_map demo_threads) (list_to_map [(100, demo_timer); (101, SQ 0 70 11)]) [10; 11; 14] sq []
    [1; 2; 10; 11; 12; 13; 14] [CPU 1 10 true; CPU 2 14 true] false 70 1 10 [].

Definition demo_env : sched_env := SchedEnv 60 5 true (fun _ => None) (fun _ => true) 0.

Lemma demo_lookup sq t th : threads (demo sq) !! t = Some th -> (t, th) ∈ demo_threads.
Proof. apply elem_of_list_to_map_2. Qed.

Lemma demo_get sq t th : (t, th) ∈ demo_threads -> threads (demo sq) !! t = Some th.
Proof. apply elem_of_list_to_map_1. simpl. by apply (bool_decide_unpack _). Qed.

Ltac demo_cases H :=
  apply demo_lookup in H; unfold demo_threads in H; rewrite !elem_of_cons, elem_of_nil in H;
  destruct_or! H; try done; injection H as -> ->.

Ltac demo_in := apply demo_get; unfold demo_threads; rewrite !elem_of_cons; tauto.

Lemma demo_cpu sq c cp : cpus (demo sq) !! c = Some cp -> (c = 0%nat /\ cp = CPU 1 10 true) \/ (c = 1%nat /\ cp = CPU 2 14 true).
Proof. destruct c as [|[|[|c]]]; simpl; intros [= <-]; auto. Qed.

Lemma demo_joined sq j jth t : threads (demo sq) !! j = Some jth -> t ∈ joiners jth -> j = 10 /\ t = 13.
Proof. intros Hj Hin. demo_cases Hj; simpl in Hin; rewrite ?elem_of_cons, ?elem_of_nil in Hin; lia. Qed.

Lemma demo_ok sq : sched_ok (demo sq).
Proof.
  split.
  - intros t. split.
    + intros Ht. change (t ∈ [10; 11; 14]) in Ht. rewrite !elem_of_cons, elem_of_nil in Ht. destruct_or! Ht; subst; try done; eexists; (split; [demo_in|done]).
    + intros (th & Ht & Hq). demo_cases Ht; try done; simpl; set_solver.
  - by apply (bool_decide_unpack _).
  - intros t Ht. by apply elem_of_nil in Ht.
  - intros t th Ht. by demo_cases Ht.
  - intros j jth t Hj Hin. destruct (demo_joined _ _ _ _ Hj Hin) as [-> ->]. eexists. split; [demo_in|done].
  - intros j1 j2 t1 t2 t H1 H2 I1 I2. destruct (demo_joined _ _ _ _ H1 I1), (demo_joined _ _ _ _ H2 I2). lia.
  - intros j jth Hj. demo_cases Hj; simpl; repeat constructor; rewrite elem_of_nil; tauto.
  - intros c cp Hc. destruct (demo_cpu _ _ _ Hc) as [[-> ->]|[-> ->]]; (eexists; split; [demo_in|done]).
  - intros c cp Hc. destruct (demo_cpu _ _ _ Hc) as [[-> ->]|[-> ->]]; (eexists; split; [demo_in|done]).
  - intros t th Ht Hr. demo_cases Ht; try done; (split; [done|]).
    + by exists 0%nat, (CPU 1 10 true).
    + by exists 1%nat, (CPU 2 14 true).
  - intros t th Ht Hs Hr. demo_cases Ht; try done; simpl; lia.
  - done.
Qed.

Lemma demo_wakeable sq t th : threads (demo sq) !! t = Some th -> t = 11 \/ t = 12 -> wakeable (demo sq) t th.
Proof.
  intros Ht Hor. unfold wakeable. splits; [done| | |].
  - demo_cases Ht; try done; lia.
  - intros c cp Hc. destruct (demo_cpu _ _ _ Hc) as [[-> ->]|[-> ->]]; simpl; lia.
  - intros j jth Hj Hin. destruct (demo_joined _ _ _ _ Hj Hin). lia.
Qed.

Lemma demo_timers : timers_ok (demo [100]).
Proof.
  intros q Hq. apply list_elem_of_singleton in Hq as ->. exists demo_timer. split; [done|]. right. eexists.
  apply demo_wakeable; [demo_in|tauto].
Qed.

Lemma demo_quiet sq : quiet (demo sq) 0.
Proof. eexists (CPU 1 10 true), _. split; [done|]. split; [demo_in|]. simpl. lia. Qed.

(** ** The properties on it *)

Lemma sleep_queue_ordered_witness :
  exists s' l1 l2, guk_sleep_queue_add 101 (demo [100]) = Ok s' /\ sleep_queue s' = l1 ++ 101 :: l2.
Proof.
  edestruct (sleep_queue_ordered (demo [100]) 101 (SQ 0 70 11)) as (s' & l1 & l2 & H1 & _ & _ & H2 & _).
  - split; [repeat constructor|]. intros q Hq. apply list_elem_of_singleton in Hq as ->. by eexists.
  - done.
  - intros H. apply list_elem_of_singleton in H. lia.
  - eauto.
Defined.

Lemma wake_expired_exact_witness :
  exists s', wake_expired demo_env 0 (demo [100]) = Ok s' /\ awake s' 12.
Proof.
  edestruct (wake_expired_exact demo_env 0 (demo [100])) as (s' & H1 & _ & _ & _ & H2).
  - apply demo_ok.
  - apply demo_quiet.
  - apply demo_timers.
  - split; [repeat constructor|]. intros q Hq. apply list_elem_of_singleton in Hq as ->. by eexists.
  - exists s'. split; [done|]. apply (H2 100 demo_timer); [by left|done|done|simpl; lia].
Defined.

Lemma block_wake_queue_witness :
  exists s1 s2, guk_block 0 11 (demo []) = Ok s1 /\ guk_wake demo_env 0 11 s1 = Ok s2 /\ ready_queue s2 = [10; 14; 11].
Proof.
  edestruct (block_wake_queue demo_env 0 (demo []) 11) as (s1 & s2 & H1 & _ & _ & _ & _ & _ & H2 & _ & _ & H3 & _).
  - apply demo_ok.
  - apply demo_quiet.
  - apply demo_wakeable; [demo_in|tauto].
  - done.
  - done.
  - done.
  - exists s1, s2. by splits.
Defined.

Lemma interrupt_wakes_witness :
  exists s' th', guk_interrupt demo_env 0 13 (demo []) = Ok s' /\ threads s' !! 13 = Some th' /\
    (is_runnable th' = true \/ is_debug_suspend th' = true) /\ exists s'', join_end 13 s' = Ok (-1, s'').
Proof.
  edestruct (interrupt_wakes demo_env 0 (demo []) 13) as [_ H].
  - apply demo_ok.
  - apply demo_quiet.
  - demo_in.
  - intros c cp Hc. destruct (demo_cpu _ _ _ Hc) as [[-> ->]|[-> ->]]; simpl; lia.
  - destruct H as (s' & th' & H1 & _ & H2 & _ & H3 & _ & _ & H4 & _); [done..|]. exists s', th'. by splits.
Defined.

Lemma exit_releases_joiners_witness :
  exists s', exit_begin demo_env 0 (demo []) = Ok s' /\ zombie_queue s' = [10] /\ released s' 13.
Proof.
  edestruct (exit_releases_joiners demo_env 0 (demo []) (CPU 1 10 true) 10) as (s' & H1 & _ & H2 & _ & _ & H3).
  - apply demo_ok.
  - done.
  - lia.
  - done.
  - demo_in.
  - done.
  - done.
  - simpl. lia.
  - intros c cp Hc. destruct (demo_cpu _ _ _ Hc) as [[-> ->]|[-> ->]]; simpl; lia.
  - intros x Hx c cp Hc. apply list_elem_of_singleton in Hx as ->. destruct (demo_cpu _ _ _ Hc) as [[-> ->]|[-> ->]]; simpl; lia.
  - exists s'. splits; [done|done|]. apply H3. by left.
Defined.

(** The expired timer adds thread 12, the current thread 10 moves to the end;
    11 is first. *)
Lemma schedule_switches_witness :
  exists s', guk_schedule demo_env 0 false false (demo [100]) = Ok s' /\
    current s' 0 = Ok 11 /\ ready_queue s' = [11; 14; 12; 10].
Proof.
  edestruct (schedule_switches demo_env 0 (demo [100]) (CPU 1 10 true)) as (s' & H1 & _ & _ & H2 & H3 & _).
  - apply demo_ok.
  - apply demo_timers.
  - lia.
  - done.
  - done.
  - demo_in.
  - done.
  - done.
  - by intros [=].
  - exists s'. splits; [done|rewrite H2; by vm_compute|rewrite H3; by vm_compute].
Defined.

Lemma create_thread_id_witness :
  exists s' th, guk_create_thread_with_stack demo_env 0 (Some 20) true 0 false (demo []) = Ok (Some 20, s') /\
    threads s' !! 20 = Some th /\ id th = 70.
Proof.
  edestruct (create_thread_id demo_env 0 (demo []) 20 0 false) as [H _].
  - apply demo_ok.
  - apply demo_quiet.
  - done.
  - by left.
  - intros x xth Hx. demo_cases Hx; simpl; lia.
  - destruct H as (s' & th & H1 & _ & H2 & H3 & _); [simpl; lia|]. eauto.
Defined.

Lemma reachable_schedulable_witness :
  exists s1 s', guk_block 0 11 (demo [100]) = Ok s1 /\ sched_ok s1 /\ guk_schedule demo_env 1 false false s1 = Ok s'.
Proof.
  destruct (guk_block 0 11 (demo [100])) as [s1| |] eqn:Hb; [|by vm_compute in Hb..]. exists s1.
  edestruct (reachable_schedulable (demo [100]) s1) as (H1 & _ & _ & _ & H2).
  - apply demo_ok.
  - apply demo_timers.
  - apply rtc_once. eapply (StepBlock 0 _ _ 11); [apply demo_quiet|demo_in|done|done].
  - vm_compute in Hb. injection Hb as <-.
    edestruct (H2 demo_env 1 (CPU 2 14 true)) as (s' & H3 & _); [lia|done|done|reflexivity|done|done|by intros [=]|].
    exists s'. by splits.
Defined.
