(* ===== verification/PageAlloc.v ===== *)
(** The page pool: mm.c.

    The file-scope variables of mm.c are the record [mm]; each function is a
    definition of the same name from a state to a [res] of its result and the
    new state.  The hypervisor and the architecture code that mm.c calls are the
    operations of the record [mm_env]. *)
From S2P Require Import Prelude Bitmap.
From stdpp Require Import options.

(** ** Data *)

Definition PAGE_SHIFT : Z := 12.
Definition PAGE_SIZE : Z := 4096.
Definition BITS_PER_PAGE : Z := 4096 * 8.
Definition DEFAULT_SMALL_PERCENTAGE : Z := 2.
Definition BULK_ALLOCATION : Z := 512.
Definition is_bulk (n : Z) : bool := BULK_ALLOCATION <=? n.

(** [to_virt(PFN_PHYS(page))] and [virt_to_pfn(pointer)]: the kernel is linked
    at address 0 (arch/x86/guk-x86_64.lds), so [VIRT_START] is 0. *)
Definition pfn_to_virtu (pfn : Z) : Z := wrap64 (Z.shiftl pfn PAGE_SHIFT).
Definition virt_to_pfn (va : Z) : Z := Z.shiftr va PAGE_SHIFT.

(** [memory_hole_t], without its list link. *)
Record memory_hole := Hole { start_pfn : Z; end_pfn : Z }.

Global Instance memory_hole_eq_dec : EqDecision memory_hole.
Proof. solve_decision. Defined.

(** The static variables of mm.c; [arch] is the state of the architecture code. *)
Record mm {arch_st : Type} := MM {
  alloc_bitmap : list Z;
  first_alloc_page : Z;
  end_alloc_page : Z;
  max_end_alloc_page : Z;
  first_free_page : Z;
  first_bulk_page : Z;
  first_free_bulk_page : Z;
  num_free_pages : Z;
  num_free_bulk_pages : Z;
  memory_hole_list : list memory_hole;
  in_increase_memory : bool;
  phys_to_machine_mapping : list Z;
  arch : arch_st
}.
Arguments mm : clear implicits.

Section Setters.
Context {A : Type}.
Implicit Types s : mm A.

Definition set_alloc_bitmap v s : mm A :=
  MM _ v (first_alloc_page s) (end_alloc_page s) (max_end_alloc_page s) (first_free_page s)
    (first_bulk_page s) (first_free_bulk_page s) (num_free_pages s) (num_free_bulk_pages s)
    (memory_hole_list s) (in_increase_memory s) (phys_to_machine_mapping s) (arch s).
Definition set_end_alloc_page v s : mm A :=
  MM _ (alloc_bitmap s) (first_alloc_page s) v (max_end_alloc_page s) (first_free_page s)
    (first_bulk_page s) (first_free_bulk_page s) (num_free_pages s) (num_free_bulk_pages s)
    (memory_hole_list s) (in_increase_memory s) (phys_to_machine_mapping s) (arch s).
Definition set_first_free_page v s : mm A :=
  MM _ (alloc_bitmap s) (first_alloc_page s) (end_alloc_page s) (max_end_alloc_page s) v
    (first_bulk_page s) (first_free_bulk_page s) (num_free_pages s) (num_free_bulk_pages s)
    (memory_hole_list s) (in_increase_memory s) (phys_to_machine_mapping s) (arch s).
Definition set_first_free_bulk_page v s : mm A :=
  MM _ (alloc_bitmap s) (first_alloc_page s) (end_alloc_page s) (max_end_alloc_page s) (first_free_page s)
    (first_bulk_page s) v (num_free_pages s) (num_free_bulk_pages s)
    (memory_hole_list s) (in_increase_memory s) (phys_to_machine_mapping s) (arch s).
Definition set_num_free_pages v s : mm A :=
  MM _ (alloc_bitmap s) (first_alloc_page s) (end_alloc_page s) (max_end_alloc_page s) (first_free_page s)
    (first_bulk_page s) (first_free_bulk_page s) v (num_free_bulk_pages s)
    (memory_hole_list s) (in_increase_memory s) (phys_to_machine_mapping s) (arch s).
Definition set_num_free_bulk_pages v s : mm A :=
  MM _ (alloc_bitmap s) (first_alloc_page s) (end_alloc_page s) (max_end_alloc_page s) (first_free_page s)
    (first_bulk_page s) (first_free_bulk_page s) (num_free_pages s) v
    (memory_hole_list s) (in_increase_memory s) (phys_to_machine_mapping s) (arch s).
Definition set_memory_hole_list v s : mm A :=
  MM _ (alloc_bitmap s) (first_alloc_page s) (end_alloc_page s) (max_end_alloc_page s) (first_free_page s)
    (first_bulk_page s) (first_free_bulk_page s) (num_free_pages s) (num_free_bulk_pages s)
    v (in_increase_memory s) (phys_to_machine_mapping s) (arch s).
Definition set_in_increase_memory v s : mm A :=
  MM _ (alloc_bitmap s) (first_alloc_page s) (end_alloc_page s) (max_end_alloc_page s) (first_free_page s)
    (first_bulk_page s) (first_free_bulk_page s) (num_free_pages s) (num_free_bulk_pages s)
    (memory_hole_list s) v (phys_to_machine_mapping s) (arch s).
Definition set_phys_to_machine_mapping v s : mm A :=
  MM _ (alloc_bitmap s) (first_alloc_page s) (end_alloc_page s) (max_end_alloc_page s) (first_free_page s)
    (first_bulk_page s) (first_free_bulk_page s) (num_free_pages s) (num_free_bulk_pages s)
    (memory_hole_list s) (in_increase_memory s) v (arch s).
Definition set_arch v s : mm A :=
  MM _ (alloc_bitmap s) (first_alloc_page s) (end_alloc_page s) (max_end_alloc_page s) (first_free_page s)
    (first_bulk_page s) (first_free_bulk_page s) (num_free_pages s) (num_free_bulk_pages s)
    (memory_hole_list s) (in_increase_memory s) (phys_to_machine_mapping s) v.
End Setters.

(** What mm.c calls: the memory hypercalls, the page-table code of
    arch/x86/mm.c and arch/x86/p2m.c, and the small-object allocator. *)
Record mm_env {A : Type} := MMEnv {
  (** [HYPERVISOR_memory_op(XENMEM_populate_physmap)] for [nr] pages at [start]:
      the return code and the machine frames it stores in the table *)
  populate_physmap : Z -> Z -> mm A -> Z * list Z;
  (** [HYPERVISOR_memory_op(XENMEM_decrease_reservation)] *)
  xen_decrease_reservation : Z -> Z -> mm A -> Z;
  (** [build_pagetable(pfn_to_virtu(start), pfn_to_virtu(end), linear, alloc)] *)
  build_pagetable : Z -> Z -> mm A -> res (bool * mm A);
  (** [demolish_pagetable(start_address, end_address)] *)
  demolish_pagetable : Z -> Z -> mm A -> res (mm A);
  (** [arch_update_p2m(start_pfn, end_pfn, adding)] *)
  arch_update_p2m : Z -> Z -> bool -> mm A -> res (mm A);
  (** [xmalloc(memory_hole_t)]: whether it returned an object *)
  xmalloc_hole : mm A -> res (bool * mm A);
  (** [free(memory_hole)] *)
  free_hole : mm A -> res (mm A);
  (** the caller runs in interrupt context *)
  in_irq : bool
}.
Arguments mm_env : clear implicits.

(** ** Allocation *)

Section Code.
Context {A : Type} (E : mm_env A).
Implicit Types s : mm A.

(** [next_free(int page)]: the argument and the result are [int]s. *)
Fixpoint next_free_loop (fuel : nat) s (page : Z) : res Z :=
  match fuel with
  | O => Fuel
  | S fuel =>
      if page <? end_alloc_page s then
        b ← allocated_in_map (alloc_bitmap s) page;
        if negb b then Ok page else next_free_loop fuel s (page + 1)
      else Ok page
  end.

Definition next_free s (page : Z) : res Z :=
  let page := wrap64 (sgn32 page) in
  next_free_loop (S (Z.to_nat (end_alloc_page s - page))) s page.

(** The loop that extends a run of free pages from [npage]:
    the remaining [nn], [npage], and whether it broke off at an allocated page. *)
Fixpoint extend_run (fuel : nat) (bm : list Z) (nn npage end_page : Z) : res (Z * Z * bool) :=
  match fuel with
  | O => Fuel
  | S fuel =>
      if (1 <? nn) && (npage <? end_page) then
        b ← allocated_in_map bm npage;
        if negb b then extend_run fuel bm (nn - 1) (npage + 1) end_page
        else Ok (nn, npage, true)
      else Ok (nn, npage, false)
  end.

(** The search loop of [_allocate_pages]: [while (page < end_page)]. *)
Fixpoint find_run (fuel : nat) (bm : list Z) (n page end_page : Z) : res (option Z) :=
  match fuel with
  | O => Fuel
  | S fuel =>
      if page <? end_page then
        b ← allocated_in_map bm page;
        if negb b then
          '(nn, npage, broke) ← extend_run (S (Z.to_nat (end_page - page))) bm n (page + 1) end_page;
          let page := if (broke : bool) then npage else page in
          if nn =? 1 then Ok (Some page)
          else find_run fuel bm n (page + 1) end_page
        else find_run fuel bm n (page + 1) end_page
      else Ok None
  end.

(** The body of [if (nn == 1)]: account for the [n] pages at [page] and mark them. *)
Definition take_run (is_bulk_alloc : bool) (n page : Z) s : res (mm A) :=
  s ← (if is_bulk_alloc then
         let s := set_num_free_bulk_pages (wrap64 (num_free_bulk_pages s - n)) s in
         if page =? first_free_bulk_page s then
           f ← next_free s (page + n); Ok (set_first_free_bulk_page f s)
         else Ok s
       else
         if page =? first_free_page s then
           f ← next_free s (page + n); Ok (set_first_free_page f s)
         else Ok s);
  let s := set_num_free_pages (wrap64 (num_free_pages s - n)) s in
  bm ← map_alloc (alloc_bitmap s) page n;
  Ok (set_alloc_bitmap bm s).

(** The loop [while (result == 0)]; [increase] is [increase_memory_holding_lock]. *)
Fixpoint allocate_loop (fuel : nat) (increase : Z -> mm A -> res (Z * mm A))
    (n : Z) (is_bulk_alloc : bool) s : res (Z * mm A) :=
  match fuel with
  | O => Fuel
  | S fuel =>
      let end_page := if is_bulk_alloc then end_alloc_page s else first_bulk_page s in
      let page := if is_bulk_alloc then first_free_bulk_page s else first_free_page s in
      r ← find_run (S (Z.to_nat (end_page - page))) (alloc_bitmap s) n page end_page;
      '(result, s) ← match r with
        | Some page => s ← take_run is_bulk_alloc n page s; Ok (pfn_to_virtu page, s)
        | None => Ok (0, s)
        end;
      if 0 <? result then Ok (result, s)
      else if negb is_bulk_alloc then
        (* Out of small pages, try the bulk area *)
        allocate_loop fuel increase n true s
      else
        (* Out of bulk pages, try to increase *)
        '(k, s) ← increase (wrap64 n) s;
        if k =? 0 then Ok (0, s) else allocate_loop fuel increase n true s
  end.

(** [_allocate_pages(n, type)]; the type is only traced. *)
Definition _allocate_pages (fuel : nat) (increase : Z -> mm A -> res (Z * mm A))
    (n : Z) s : res (Z * mm A) :=
  _ ← bug_on (in_irq E);
  allocate_loop fuel increase n (is_bulk n) s.

(** [guk_deallocate_pages(pointer, n, type)] *)
Definition guk_deallocate_pages (pointer n : Z) s : res (mm A) :=
  _ ← bug_on (in_irq E);
  let page := virt_to_pfn pointer in
  let s := if is_bulk n then
             let s := if page <? first_free_bulk_page s then set_first_free_bulk_page page s else s in
             set_num_free_bulk_pages (wrap64 (num_free_bulk_pages s + n)) s
           else
             if page <? first_free_page s then set_first_free_page page s else s in
  bm ← map_free (alloc_bitmap s) page n;
  let s := set_alloc_bitmap bm s in
  Ok (set_num_free_pages (wrap64 (num_free_pages s + n)) s).

Definition guk_free_pages (pointer order : Z) s : res (mm A) :=
  guk_deallocate_pages pointer (Z.shiftl 1 order) s.

(** ** Ballooning *)

(** [for (pfn = 0; pfn < nr; pfn++) phys_to_machine_mapping[start + pfn] = f(pfn)] *)
Fixpoint fill_p2m (nr : nat) (start pfn : Z) (f : Z -> Z) (t : list Z) : res (list Z) :=
  match nr with
  | O => Ok t
  | S nr => t ← wr t (start + pfn) (f pfn); fill_p2m nr start (pfn + 1) f t
  end.

(** The hypervisor stores the frames it gives at the start of the extent list. *)
Fixpoint store_frames (start : Z) (mfns : list Z) (t : list Z) : res (list Z) :=
  match mfns with
  | [] => Ok t
  | m :: mfns => t ← wr t start m; store_frames (start + 1) mfns t
  end.

Definition increase_reservation (nr_pages : Z) (hole : memory_hole) s : res (Z * mm A) :=
  _ ← bug_on (wrap64 (end_pfn hole - start_pfn hole) <? nr_pages);
  t ← fill_p2m (Z.to_nat nr_pages) (start_pfn hole) 0 (fun pfn => start_pfn hole + pfn)
        (phys_to_machine_mapping s);
  let s := set_phys_to_machine_mapping t s in
  let '(rc, mfns) := populate_physmap E (start_pfn hole) nr_pages s in
  t ← store_frames (start_pfn hole) mfns (phys_to_machine_mapping s);
  let s := set_phys_to_machine_mapping t s in
  if 0 <? rc then
    '(built, s) ← build_pagetable E (start_pfn hole) (start_pfn hole + rc) s;
    if (built : bool) then
      s ← arch_update_p2m E (start_pfn hole) (start_pfn hole + rc) true s;
      Ok (rc, s)
    else Ok (0, s)
  else Ok (rc, s).

Definition decrease_reservation (hole : memory_hole) s : res (Z * mm A) :=
  let nr_pages := wrap64 (end_pfn hole - start_pfn hole) in
  s ← demolish_pagetable E (pfn_to_virtu (start_pfn hole)) (pfn_to_virtu (end_pfn hole)) s;
  let rc := xen_decrease_reservation E (start_pfn hole) nr_pages s in
  if negb (wrap64 rc =? nr_pages) then Bug CRASH_EXIT
  else
    t ← fill_p2m (Z.to_nat nr_pages) (start_pfn hole) 0 (fun _ => wrap64 (-1))
          (phys_to_machine_mapping s);
    let s := set_phys_to_machine_mapping t s in
    s ← arch_update_p2m E (start_pfn hole) (end_pfn hole) false s;
    Ok (rc, s).

Fixpoint can_increase_loop (holes : list memory_hole) (n : Z) : Z :=
  match holes with
  | [] => 0
  | h :: holes =>
      let hole := wrap64 (end_pfn h - start_pfn h) in
      if n <=? hole then n else can_increase_loop holes (wrap64 (n - hole))
  end.

Definition can_increase (n : Z) s : Z := can_increase_loop (memory_hole_list s) n.

Definition guk_current_reservation s : Z :=
  wrap64 (max_end_alloc_page s -
    foldl (fun result h => wrap64 (result + (end_pfn h - start_pfn h))) 0 (memory_hole_list s)).

(** The loop [while (n > 0)] of [increase_memory_holding_lock]. *)
Fixpoint increase_loop (fuel : nat) (n result : Z) s : res (Z * mm A) :=
  match fuel with
  | O => Fuel
  | S fuel =>
      if 0 <? n then
        match memory_hole_list s with
        | [] => Bug BAD_ACCESS
        | memory_hole :: _ =>
            let hole_size := wrap64 (end_pfn memory_hole - start_pfn memory_hole) in
            let nn := if hole_size <=? n then hole_size else n in
            '(rc, s) ← increase_reservation nn memory_hole s;
            if 0 <? rc then
              bm ← map_free (alloc_bitmap s) (start_pfn memory_hole) rc;
              let s := set_alloc_bitmap bm s in
              let s := if end_alloc_page s <? start_pfn memory_hole + rc
                       then set_end_alloc_page (start_pfn memory_hole + rc) s else s in
              let s := set_num_free_pages (wrap64 (num_free_pages s + rc)) s in
              let s := set_num_free_bulk_pages (wrap64 (num_free_bulk_pages s + rc)) s in
              let s := set_memory_hole_list
                (if hole_size =? rc then tail (memory_hole_list s)
                 else Hole (wrap64 (start_pfn memory_hole + rc)) (end_pfn memory_hole)
                        :: tail (memory_hole_list s)) s in
              increase_loop fuel (wrap64 (n - rc)) (result + rc) s
            else Ok (result, s)
        end
      else Ok (result, s)
  end.

Definition increase_memory_holding_lock (n : Z) s : res (Z * mm A) :=
  if in_increase_memory s then Ok (0, set_in_increase_memory false s)
  else
    let s := set_in_increase_memory true s in
    '(result, s) ← (if negb (can_increase n s =? 0)
                    then increase_loop (S (Z.to_nat n)) n 0 s else Ok (0, s));
    Ok (result, set_in_increase_memory false s).

Definition guk_increase_page_pool := increase_memory_holding_lock.

(** The allocation with the pool's own growth.  The outer loop runs once on the
    small region and once more after each successful growth, and each growth
    takes at least one page out of the holes. *)
Definition total_holes (holes : list memory_hole) : Z :=
  foldr (fun h t => Z.max 0 (end_pfn h - start_pfn h) + t) 0 holes.

Definition guk_allocate_pages (n : Z) s : res (Z * mm A) :=
  _allocate_pages (3 + Z.to_nat (total_holes (memory_hole_list s)))
    increase_memory_holding_lock n s.

Definition alloc_pages (order : Z) s : res (Z * mm A) := guk_allocate_pages (Z.shiftl 1 order) s.

(** [memory_hole_add]: before the first hole that starts later. *)
Fixpoint memory_hole_add (new_hole : memory_hole) (holes : list memory_hole) : list memory_hole :=
  match holes with
  | [] => [new_hole]
  | h :: hs =>
      if start_pfn new_hole <? start_pfn h then new_hole :: h :: hs
      else h :: memory_hole_add new_hole hs
  end.

(** The inner loop of [guk_decrease_page_pool]: walk down free pages. *)
Fixpoint walk_down (fuel : nat) s (page nn n : Z) : res (Z * Z) :=
  match fuel with
  | O => Fuel
  | S fuel =>
      b ← allocated_in_map (alloc_bitmap s) page;
      if negb b && (first_bulk_page s <=? page) && (nn <? n)
      then walk_down fuel s (wrap64 (page - 1)) (nn + 1) n
      else Ok (page, nn)
  end.

Fixpoint decrease_loop (fuel : nat) (page n rc : Z) s : res (Z * mm A) :=
  match fuel with
  | O => Fuel
  | S fuel =>
      if (first_bulk_page s <=? page) && (0 <? n) then
        b ← allocated_in_map (alloc_bitmap s) page;
        if negb b then
          let npage := page + 1 in
          '(page, nn) ← walk_down (S (Z.to_nat n)) s page 0 n;
          '(got, s) ← xmalloc_hole E s;
          if negb got then Bug BAD_ACCESS else
          let memory_hole := Hole (wrap64 (page + 1)) npage in
          '(rc, s) ← decrease_reservation memory_hole s;
          s ← (if 0 <? rc then
                 let s := set_num_free_pages (wrap64 (num_free_pages s - rc)) s in
                 let s := set_num_free_bulk_pages (wrap64 (num_free_bulk_pages s - rc)) s in
                 let s := if end_alloc_page s =? end_pfn memory_hole
                          then set_end_alloc_page (wrap64 (end_alloc_page s - rc)) s else s in
                 bm ← map_alloc (alloc_bitmap s) (start_pfn memory_hole) rc;
                 let s := set_alloc_bitmap bm s in
                 match memory_hole_list s with
                 | [] => Ok (set_memory_hole_list (memory_hole_add memory_hole []) s)
                 | h :: hs =>
                     if negb (end_pfn memory_hole =? start_pfn h)
                     then Ok (set_memory_hole_list (memory_hole_add memory_hole (h :: hs)) s)
                     else (* coalesce *)
                       free_hole E (set_memory_hole_list (Hole (start_pfn memory_hole) (end_pfn h) :: hs) s)
                 end
               else free_hole E s);
          decrease_loop fuel (wrap64 (page - 1)) (wrap64 (n - nn)) rc s
        else decrease_loop fuel (wrap64 (page - 1)) n rc s
      else Ok (rc, s)
  end.

Definition guk_decrease_page_pool (n : Z) s : res (Z * mm A) :=
  let page := wrap64 (end_alloc_page s - 1) in
  decrease_loop (S (Z.to_nat (end_alloc_page s))) page n 0 s.

(** [guk_decreaseable_page_pool] *)
Fixpoint count_down (fuel : nat) s (page n : Z) : res (Z * Z) :=
  match fuel with
  | O => Fuel
  | S fuel =>
      b ← allocated_in_map (alloc_bitmap s) page;
      if negb b && (first_bulk_page s <=? page)
      then count_down fuel s (wrap64 (page - 1)) (n + 1)
      else Ok (page, n)
  end.

Fixpoint decreaseable_loop (fuel : nat) s (page n : Z) : res Z :=
  match fuel with
  | O => Fuel
  | S fuel =>
      if first_bulk_page s <=? page then
        b ← allocated_in_map (alloc_bitmap s) page;
        '(page, n) ← (if negb b then count_down (S (Z.to_nat (end_alloc_page s))) s page n
                      else Ok (page, n));
        decreaseable_loop fuel s (wrap64 (page - 1)) n
      else Ok n
  end.

Definition guk_decreaseable_page_pool s : res Z :=
  decreaseable_loop (S (Z.to_nat (end_alloc_page s))) s (wrap64 (end_alloc_page s - 1)) 0.

Definition guk_page_pool_start s : Z := first_alloc_page s.
Definition guk_page_pool_end s : Z := end_alloc_page s - 1.
Definition guk_total_free_pages s : Z := num_free_pages s.
Definition guk_bulk_free_pages s : Z := num_free_bulk_pages s.
Definition guk_maximum_reservation s : Z := max_end_alloc_page s.

(** ** Initialisation *)

(** [init_page_allocator(cmd_line, min, max)]: [max_end] is
    [xen_maximum_reservation()], [small_opt] the value of the small-region
    option (negative when absent); the bitmap is the memory of its pages. *)
Definition init_page_allocator (max_end small_opt min max : Z) (p2m : list Z) (a : A) : res (mm A) :=
  let bitmap_pages := max_end / BITS_PER_PAGE in
  let min := wrap64 (min + bitmap_pages) in
  let num_free := wrap64 (max - min) in
  let small_pct := if small_opt <? 0 then DEFAULT_SMALL_PERCENTAGE else small_opt in
  let first_bulk := wrap64 (min + wrap64 (max_end * small_pct) / 100) in
  let first_bulk := if max <? first_bulk then max else first_bulk in
  let bm := replicate (Z.to_nat (bitmap_pages * 512)) (wrap64 (-1)) in
  bm ← map_free bm min num_free;
  Ok (MM _ bm min max max_end min first_bulk first_bulk num_free (wrap64 (max - first_bulk))
        [] false p2m a).

(** [resize_phys_to_machine_mapping_table]; [fresh] is what a fresh table holds. *)
Definition resize_phys_to_machine_mapping_table (fresh : Z -> list Z) s : res (mm A) :=
  s ← (if end_alloc_page s <? max_end_alloc_page s then
         let size := (max_end_alloc_page s * 8 + PAGE_SIZE - 1) / PAGE_SIZE in
         '(va, s) ← guk_allocate_pages size s;
         if va =? 0 then Bug CRASH_EXIT else
         let e := Z.to_nat (end_alloc_page s) in
         if Z.of_nat (length (phys_to_machine_mapping s)) <? end_alloc_page s then Bug BAD_ACCESS else
         Ok (set_phys_to_machine_mapping
               (take e (phys_to_machine_mapping s) ++ drop e (fresh (size * 512))) s)
       else Ok s);
  '(got, s) ← xmalloc_hole E s;
  if negb got then Bug BAD_ACCESS else
  Ok (set_memory_hole_list
        (Hole (end_alloc_page s) (max_end_alloc_page s) :: memory_hole_list s) s).

End Code.
