(* ===== verification/PagePool.v ===== *)
(** Correctness of the page pool of mm.c (definitions in PageAlloc). *)
From Stdlib Require Import Sorted.
From S2P Require Import Prelude Bitmap PageAlloc.
From stdpp Require Import options.

(** ** Counting free pages *)

Fixpoint count_free (f : Z -> bool) (lo : Z) (n : nat) : Z :=
  match n with
  | O => 0
  | S n => (if f lo then 0 else 1) + count_free f (lo + 1) n
  end.

Lemma count_free_app f lo a b :
  count_free f lo (a + b) = count_free f lo a + count_free f (lo + Z.of_nat a) b.
Proof.
  revert lo. induction a as [|a IH]; intros lo; simpl.
  - by rewrite Z.add_0_r.
  - rewrite IH. replace (lo + 1 + Z.of_nat a) with (lo + Z.of_nat (S a)) by lia. lia.
Qed.

Lemma count_free_ext f g lo n :
  (forall p, lo <= p < lo + Z.of_nat n -> f p = g p) -> count_free f lo n = count_free g lo n.
Proof.
  revert lo. induction n as [|n IH]; intros lo H; simpl; [done|].
  rewrite H by lia. rewrite (IH (lo + 1)); [done|]. intros. apply H. lia.
Qed.

Lemma count_free_const f lo n b :
  (forall p, lo <= p < lo + Z.of_nat n -> f p = b) ->
  count_free f lo n = if b then 0 else Z.of_nat n.
Proof.
  revert lo. induction n as [|n IH]; intros lo H; [by destruct b|].
  cbn [count_free]. rewrite H by lia.
  rewrite (IH (lo + 1)) by (intros; apply H; lia). destruct b; lia.
Qed.

(** Setting the bits of a range that all had the other value changes the count
    by the length of the range. *)
Lemma count_free_range b f g lo n p k :
  0 <= k -> lo <= p -> p + k <= lo + Z.of_nat n ->
  (forall q, p <= q < p + k -> f q = negb b) ->
  (forall q, lo <= q < lo + Z.of_nat n -> g q = if bool_decide (p <= q < p + k) then b else f q) ->
  count_free g lo n = count_free f lo n + (if b then -1 else 1) * k.
Proof.
  intros Hk Hp Hpk Hf Hg.
  set (a := Z.to_nat (p - lo)). set (m := Z.to_nat k).
  replace n with (a + (m + (n - a - m)))%nat by lia.
  rewrite !count_free_app.
  rewrite (count_free_ext g f lo a).
  2:{ intros. rewrite Hg by lia. rewrite bool_decide_eq_false_2 by lia. done. }
  rewrite (count_free_const g (lo + Z.of_nat a) m b).
  2:{ intros. rewrite Hg by lia. rewrite bool_decide_eq_true_2 by lia. done. }
  rewrite (count_free_const f (lo + Z.of_nat a) m (negb b)) by (intros; apply Hf; lia).
  rewrite (count_free_ext g f (lo + Z.of_nat a + Z.of_nat m)).
  2:{ intros. rewrite Hg by lia. rewrite bool_decide_eq_false_2 by lia. done. }
  destruct b; simpl; lia.
Qed.

(** ** The search is first fit *)

Definition run_free (bm : list Z) (p n : Z) : Prop :=
  forall q, p <= q < p + n -> page_bit bm q = false.

(** The first-fit specification of the search in the pages [lo, hi). *)
Definition first_fit (bm : list Z) (n lo hi : Z) (r : option Z) : Prop :=
  match r with
  | Some p => lo <= p /\ p + n <= hi /\ run_free bm p n /\
              forall q, lo <= q < p -> ~ run_free bm q n
  | None => forall q, lo <= q -> q + n <= hi -> ~ run_free bm q n
  end.

Lemma covers_below bm p hi : covers bm hi -> 0 <= p <= hi -> covers bm p.
Proof.
  intros [_ Hc] Hp. split; [lia|]. assert (p / 64 <= hi / 64); [|lia].
  apply Z.div_le_mono; lia.
Qed.

Lemma covers_len m m' p : length m' = length m -> covers m' p <-> covers m p.
Proof. unfold covers. by intros ->. Qed.

Lemma extend_run_spec fuel bm nn p hi :
  words_ok bm -> covers bm hi -> 0 <= p -> 1 <= nn ->
  (Z.to_nat (hi - p) < fuel)%nat ->
  exists nn' np broke, extend_run fuel bm nn p hi = Ok (nn', np, broke) /\
    1 <= nn' /\ np - p = nn - nn' /\ p <= np /\ run_free bm p (np - p) /\
    (p <= hi -> np <= hi) /\
    (if broke : bool then 1 < nn' /\ np < hi /\ page_bit bm np = true
     else nn' = 1 \/ hi <= np).
Proof.
  intros Hw Hc. revert nn p. induction fuel as [|fuel IH]; intros nn p Hp Hn Hf; [lia|].
  cbn [extend_run]. destruct (Z.ltb_spec 1 nn); cbn [andb].
  2:{ exists nn, p, false. unfold run_free. split_and!; try done; try lia. }
  destruct (Z.ltb_spec p hi).
  2:{ exists nn, p, false. unfold run_free. split_and!; try done; try lia. }
  rewrite allocated_in_map_spec by (done || eapply covers_below; eauto; lia).
  cbn [mbind res_bind]. destruct (page_bit bm p) eqn:Hb; cbn [negb].
  - exists nn, p, true. unfold run_free. split_and!; try done; try lia.
  - destruct (IH (nn - 1) (p + 1)) as (nn' & np & broke & -> & Hn' & Hd & Hle & Hrun & Hhi & Hbr);
      [lia..|].
    exists nn', np, broke. split_and!; try done; try lia.
    intros q Hq. destruct (decide (q = p)) as [->|]; [done|]. apply Hrun. lia.
Qed.

Lemma find_run_first_fit fuel bm n lo hi :
  words_ok bm -> covers bm hi -> 0 <= lo -> 1 <= n ->
  (Z.to_nat (hi - lo) < fuel)%nat ->
  exists r, find_run fuel bm n lo hi = Ok r /\ first_fit bm n lo hi r.
Proof.
  intros Hw Hc. revert lo. induction fuel as [|fuel IH]; intros lo Hlo Hn Hf; [lia|].
  cbn [find_run]. destruct (Z.ltb_spec lo hi) as [Hlt|].
  2:{ exists None. split; [done|]. intros q ??. lia. }
  rewrite allocated_in_map_spec by (done || eapply covers_below; eauto; lia).
  cbn [mbind res_bind]. destruct (page_bit bm lo) eqn:Hb; cbn [negb].
  - destruct (IH (lo + 1)) as (r & -> & Hr); [lia..|]. exists r. split; [done|].
    assert (~ run_free bm lo n) as Hno.
    { intros Hrun. specialize (Hrun lo ltac:(lia)). congruence. }
    destruct r as [p|]; simpl in *.
    + destruct Hr as (? & ? & ? & Hfst). split_and!; try done; try lia.
      intros q Hq. destruct (decide (q = lo)) as [->|]; [done|]. apply Hfst. lia.
    + intros q Hq Hqn. destruct (decide (q = lo)) as [->|]; [done|]. apply Hr; lia.
  - destruct (extend_run_spec (S (Z.to_nat (hi - lo))) bm n (lo + 1) hi)
      as (nn & np & broke & -> & Hnn & Hd & Hle & Hrun & Hhi & Hbr); [done|done|lia..|].
    cbn [mbind res_bind].
    assert (run_free bm lo (np - lo)) as Hrun'.
    { intros q Hq. destruct (decide (q = lo)) as [->|]; [done|]. apply Hrun. lia. }
    destruct (Z.eqb_spec nn 1) as [->|Hne].
    + destruct broke; [lia|]. exists (Some lo). split; [done|].
      simpl. split_and!; try lia. by replace n with (np - lo) by lia.
    + set (nx := (if broke then np else lo) + 1).
      destruct (IH nx) as (r & Hr0 & Hr); [subst nx; destruct broke; lia..|].
      rewrite Hr0. exists r. split; [done|].
      assert (forall q, lo <= q < nx -> q + n <= hi -> ~ run_free bm q n) as Hno.
      { intros q Hq Hqn Hq'. subst nx. destruct broke.
        - destruct Hbr as (? & ? & Ht). rewrite (Hq' np) in Ht by lia. done.
        - lia. }
      assert (lo < nx) by (subst nx; destruct broke; lia).
      destruct r as [p|]; simpl in *.
      * destruct Hr as (? & ? & ? & Hfst). split_and!; try done; try lia.
        intros q Hq. destruct (decide (nx <= q)); [apply Hfst; lia|apply Hno; lia].
      * intros q Hq Hqn. destruct (decide (nx <= q)); [apply Hr; lia|apply Hno; lia].
Qed.

(** ** The state invariant of the pool *)

Definition hole_order (h1 h2 : memory_hole) : Prop := end_pfn h1 <= start_pfn h2.

Definition pool_free {A} (s : mm A) : Z :=
  count_free (page_bit (alloc_bitmap s)) (first_alloc_page s)
    (Z.to_nat (end_alloc_page s - first_alloc_page s)).

Record pool_ok {A} (s : mm A) : Prop := {
  ok_words : words_ok (alloc_bitmap s);
  (** the bitmap has the words that the range operations of the pool touch *)
  ok_covers : covers (alloc_bitmap s) (end_alloc_page s);
  ok_bounds : 0 < first_alloc_page s <= first_bulk_page s /\
              first_bulk_page s <= end_alloc_page s <= max_end_alloc_page s /\
              max_end_alloc_page s < 2 ^ 31;
  ok_first_free : first_alloc_page s <= first_free_page s < 2 ^ 31;
  ok_first_free_bulk : first_bulk_page s <= first_free_bulk_page s < 2 ^ 31;
  (** what lies past the pool, or in a hole, appears allocated *)
  ok_tail : forall p, end_alloc_page s <= p <= max_end_alloc_page s ->
              covers (alloc_bitmap s) p -> page_bit (alloc_bitmap s) p = true;
  ok_holes : Forall (fun h => first_bulk_page s <= start_pfn h <= end_pfn h /\
                end_pfn h <= max_end_alloc_page s /\ covers (alloc_bitmap s) (end_pfn h) /\
                (start_pfn h < end_pfn h \/ start_pfn h = max_end_alloc_page s) /\
                forall p, start_pfn h <= p < end_pfn h -> page_bit (alloc_bitmap s) p = true)
               (memory_hole_list s);
  ok_sorted : StronglySorted hole_order (memory_hole_list s);
  ok_p2m : max_end_alloc_page s <= Z.of_nat (length (phys_to_machine_mapping s));
  (** the counter of free pages is exact *)
  ok_count : num_free_pages s = pool_free s
}.

(** ** Allocation *)

Section Alloc.
Context {A : Type} (E : mm_env A).
Implicit Types s : mm A.

Lemma next_free_loop_spec fuel s p :
  words_ok (alloc_bitmap s) -> covers (alloc_bitmap s) (end_alloc_page s) -> 0 <= p ->
  (Z.to_nat (end_alloc_page s - p) < fuel)%nat ->
  exists q, next_free_loop fuel s p = Ok q /\ p <= q <= Z.max p (end_alloc_page s) /\
    (forall r, p <= r < q -> page_bit (alloc_bitmap s) r = true) /\
    (q < end_alloc_page s -> page_bit (alloc_bitmap s) q = false).
Proof.
  intros Hw Hc. revert p. induction fuel as [|fuel IH]; intros p Hp Hf; [lia|].
  cbn [next_free_loop]. destruct (Z.ltb_spec p (end_alloc_page s)).
  2:{ exists p. split_and!; try done; lia. }
  rewrite allocated_in_map_spec by (done || eapply covers_below; eauto; lia).
  cbn [mbind res_bind]. destruct (page_bit (alloc_bitmap s) p) eqn:Hb; cbn [negb].
  - destruct (IH (p + 1)) as (q & -> & ? & Hall & Hq); [lia..|].
    exists q. split_and!; try done; try lia.
    intros r Hr. destruct (decide (r = p)) as [->|]; [done|]. apply Hall. lia.
  - exists p. split_and!; try done; lia.
Qed.

Lemma next_free_spec s p :
  words_ok (alloc_bitmap s) -> covers (alloc_bitmap s) (end_alloc_page s) -> 0 <= p < 2 ^ 31 ->
  exists q, next_free s p = Ok q /\ p <= q <= Z.max p (end_alloc_page s) /\
    (forall r, p <= r < q -> page_bit (alloc_bitmap s) r = true) /\
    (q < end_alloc_page s -> page_bit (alloc_bitmap s) q = false).
Proof.
  intros Hw Hc Hp. unfold next_free.
  rewrite (sgn_small 32), (wrap_small 64) by lia.
  apply next_free_loop_spec; (done || lia).
Qed.

(** What taking a run leaves: the pages are marked, both counters account for
    them, and no other variable but the search hints changes. *)
Record taken (bulk : bool) (n page : Z) s s' : Prop := {
  tk_range : range_set true (alloc_bitmap s) (alloc_bitmap s') page n;
  tk_num : num_free_pages s' = num_free_pages s - n;
  tk_bulk : num_free_bulk_pages s' =
              if bulk then wrap64 (num_free_bulk_pages s - n) else num_free_bulk_pages s;
  tk_same : first_alloc_page s' = first_alloc_page s /\ end_alloc_page s' = end_alloc_page s /\
            max_end_alloc_page s' = max_end_alloc_page s /\ first_bulk_page s' = first_bulk_page s /\
            memory_hole_list s' = memory_hole_list s /\
            phys_to_machine_mapping s' = phys_to_machine_mapping s /\
            in_increase_memory s' = in_increase_memory s /\ arch s' = arch s;
  tk_hint : (first_free_page s <= first_free_page s' <= Z.max (first_free_page s) (end_alloc_page s)) /\
            (first_free_bulk_page s <= first_free_bulk_page s' <=
               Z.max (first_free_bulk_page s) (end_alloc_page s));
  tk_ok : pool_ok s'
}.

(** The search regions of [_allocate_pages]. *)
Definition region_lo (bulk : bool) s := if bulk then first_free_bulk_page s else first_free_page s.
Definition region_hi (bulk : bool) s := if bulk then end_alloc_page s else first_bulk_page s.

Lemma region_covered bulk s :
  pool_ok s -> 0 < first_alloc_page s <= region_lo bulk s /\ region_hi bulk s <= end_alloc_page s /\
    covers (alloc_bitmap s) (region_hi bulk s).
Proof.
  intros H. pose proof (ok_bounds s H). pose proof (ok_first_free s H).
  pose proof (ok_first_free_bulk s H). destruct bulk; simpl; split_and!; try lia;
    eapply covers_below; [apply ok_covers|lia|apply ok_covers|lia]; done.
Qed.

Lemma pool_free_pages s p n :
  pool_ok s -> 0 <= n -> first_alloc_page s <= p -> p + n <= end_alloc_page s ->
  run_free (alloc_bitmap s) p n -> n <= pool_free s.
Proof.
  intros H Hn Hp Hpn Hrun. unfold pool_free.
  set (N := Z.to_nat (end_alloc_page s - first_alloc_page s)).
  set (a := Z.to_nat (p - first_alloc_page s)).
  replace N with (a + (Z.to_nat n + (N - a - Z.to_nat n)))%nat by (pose proof (ok_bounds s H); lia).
  rewrite !count_free_app.
  rewrite (count_free_const _ (first_alloc_page s + Z.of_nat a) (Z.to_nat n) false).
  2:{ intros q Hq. apply Hrun. lia. }
  assert (forall f lo k, 0 <= count_free f lo k) as Hpos.
  { intros f lo k. revert lo. induction k as [|k IH]; intros lo; simpl; [lia|].
    specialize (IH (lo + 1)). destruct (f lo); lia. }
  match goal with |- _ <= ?a + (_ + ?b) => assert (0 <= a) by apply Hpos; assert (0 <= b) by apply Hpos end.
  lia.
Qed.

Lemma pool_free_bound s : pool_ok s -> 0 <= pool_free s < 2 ^ 31.
Proof.
  intros H. pose proof (ok_bounds s H). unfold pool_free.
  assert (forall f lo k, 0 <= count_free f lo k <= Z.of_nat k) as Hb.
  { intros f lo k. revert lo. induction k as [|k IH]; intros lo; simpl; [lia|].
    specialize (IH (lo + 1)). destruct (f lo); lia. }
  specialize (Hb (page_bit (alloc_bitmap s)) (first_alloc_page s)
    (Z.to_nat (end_alloc_page s - first_alloc_page s))). lia.
Qed.

(** Marking a free run of the pool keeps the invariant. *)
Lemma pool_ok_mark s s' p n :
  pool_ok s -> 1 <= n -> first_alloc_page s <= p -> p + n <= end_alloc_page s ->
  run_free (alloc_bitmap s) p n ->
  range_set true (alloc_bitmap s) (alloc_bitmap s') p n ->
  num_free_pages s' = num_free_pages s - n ->
  first_alloc_page s' = first_alloc_page s -> end_alloc_page s' = end_alloc_page s ->
  max_end_alloc_page s' = max_end_alloc_page s -> first_bulk_page s' = first_bulk_page s ->
  memory_hole_list s' = memory_hole_list s ->
  phys_to_machine_mapping s' = phys_to_machine_mapping s ->
  first_alloc_page s <= first_free_page s' < 2 ^ 31 ->
  first_bulk_page s <= first_free_bulk_page s' < 2 ^ 31 -> pool_ok s'.
Proof.
  intros H Hn Hp Hpn Hrun (Hl & Hw & Hbit) Hnum Ha He Hm Hb Hh Ht Hf Hfb.
  pose proof (ok_bounds s H). split; rewrite ?Ha, ?He, ?Hm, ?Hb, ?Hh, ?Ht; try apply H; try done.
  - destruct (ok_covers s H). unfold covers. by rewrite Hl.
  - intros q Hq Hcq. rewrite Hbit by lia. case_bool_decide; [done|]. apply (ok_tail s H); [done|].
    unfold covers in *. by rewrite Hl in Hcq.
  - eapply Forall_impl; [apply (ok_holes s H)|]. cbv beta. intros h (? & ? & ? & ? & Hq).
    split_and!; try lia; [unfold covers in *; by rewrite Hl|].
    intros q ?. rewrite Hbit by lia. case_bool_decide; [done|auto].
  - rewrite Hnum, (ok_count s H). unfold pool_free. rewrite Ha, He.
    rewrite (count_free_range true (page_bit (alloc_bitmap s)) (page_bit (alloc_bitmap s')) _ _ p n); [cbn; lia|lia|lia|lia| |].
    + intros q Hq. by apply Hrun.
    + intros q Hq. by rewrite Hbit by lia.
Qed.

Lemma take_run_spec bulk n p s :
  pool_ok s -> 1 <= n -> region_lo bulk s <= p -> p + n <= region_hi bulk s ->
  run_free (alloc_bitmap s) p n ->
  exists s', take_run bulk n p s = Ok s' /\ taken bulk n p s s'.
Proof.
  intros H Hn Hlo Hhi Hrun. pose proof (ok_bounds s H).
  destruct (region_covered bulk s H) as (Hc1 & Hc2 & Hc3).
  assert (covers (alloc_bitmap s) (p + n)) as Hcov.
  { eapply covers_below; [apply Hc3|lia]. }
  destruct (map_alloc_spec (alloc_bitmap s) p n) as (bm & Hmap & Hset);
    [apply H|lia..|done|].
  pose proof (ok_covers s H) as Hce.
  pose proof (pool_free_pages s p n H ltac:(lia) ltac:(lia) ltac:(lia) Hrun).
  pose proof (pool_free_bound s H). pose proof (ok_count s H).
  pose proof (ok_first_free s H). pose proof (ok_first_free_bulk s H).
  unfold take_run. destruct bulk; simpl region_lo in *; simpl region_hi in *; cbn zeta.
  - set (s1 := set_num_free_bulk_pages _ s).
    destruct (next_free_spec s1 (p + n)) as (q & -> & Hqr & _); [apply H|done|lia|].
    change (first_free_bulk_page s1) with (first_free_bulk_page s). subst s1. cbn in Hqr.
    destruct (Z.eqb_spec p (first_free_bulk_page s)); cbn; rewrite Hmap; cbn;
      (eexists; split; [reflexivity|]); split; cbn; try done; try lia;
      try (apply wrap_small; lia);
      eapply (pool_ok_mark s _ p n); cbn; try done; try lia; apply wrap_small; lia.
  - destruct (next_free_spec s (p + n)) as (q & -> & Hqr & _); [apply H|done|lia|].
    destruct (Z.eqb_spec p (first_free_page s)); cbn; rewrite Hmap; cbn;
      (eexists; split; [reflexivity|]); split; cbn; try done; try lia;
      try (apply wrap_small; lia);
      eapply (pool_ok_mark s _ p n); cbn; try done; try lia; apply wrap_small; lia.
Qed.

(** One growth step of the allocation loop. *)
Definition grows (increase : Z -> mm A -> res (Z * mm A)) (n : Z) s s' : Prop :=
  exists k, increase (wrap64 n) s = Ok (k, s') /\ k <> 0.

(** No run of [n] pages is free where the search looks. *)
Definition exhausted (bulk : bool) (n : Z) s : Prop :=
  first_fit (alloc_bitmap s) n (region_lo bulk s) (region_hi bulk s) None.

(** The outcomes of the allocation loop. *)
Definition alloc_outcome (increase : Z -> mm A -> res (Z * mm A)) (n : Z) (bulk : bool) s r s' : Prop :=
  (r = 0 /\ exists s1, rtc (grows increase n) s s1 /\ increase (wrap64 n) s1 = Ok (0, s') /\
     exhausted true n s1 /\ (bulk = false -> exhausted false n s)) \/
  (exists b s1 p, rtc (grows increase n) s s1 /\ r = PAGE_SIZE * p /\ r <> 0 /\
     first_fit (alloc_bitmap s1) n (region_lo b s1) (region_hi b s1) (Some p) /\
     (b <> bulk -> b = true /\ exhausted false n s) /\ taken b n p s1 s').

Lemma pfn_to_virtu_small p : 0 <= p < 2 ^ 31 -> pfn_to_virtu p = PAGE_SIZE * p.
Proof.
  intros. unfold pfn_to_virtu, PAGE_SIZE, PAGE_SHIFT.
  rewrite Z.shiftl_mul_pow2 by lia. rewrite wrap_small; lia.
Qed.

Lemma allocate_loop_outcome fuel increase n bulk s r s' :
  pool_ok s -> 1 <= n < 2 ^ 31 ->
  (forall s1 k s2, pool_ok s1 -> increase (wrap64 n) s1 = Ok (k, s2) -> pool_ok s2) ->
  allocate_loop fuel increase n bulk s = Ok (r, s') ->
  alloc_outcome increase n bulk s r s'.
Proof.
  intros Hok Hn Hinc. revert bulk s Hok. induction fuel as [|fuel IH]; intros bulk s Hok Hr; [done|].
  cbn [allocate_loop] in Hr. destruct (region_covered bulk s Hok) as (Hc1 & Hc2 & Hc3).
  pose proof (ok_bounds s Hok).
  change (if bulk then end_alloc_page s else first_bulk_page s) with (region_hi bulk s) in Hr.
  change (if bulk then first_free_bulk_page s else first_free_page s) with (region_lo bulk s) in Hr.
  destruct (find_run_first_fit (S (Z.to_nat (region_hi bulk s - region_lo bulk s)))
    (alloc_bitmap s) n (region_lo bulk s) (region_hi bulk s)) as (o & Ho & Hff);
    [apply Hok|done|lia..|].
  rewrite Ho in Hr. cbn [mbind res_bind] in Hr. destruct o as [p|].
  - destruct Hff as (Hlo & Hhi & Hrun & Hfst).
    destruct (take_run_spec bulk n p s) as (s2 & Ht & Htk); [done|lia|done|done|done|].
    rewrite Ht in Hr. cbn [mbind res_bind] in Hr.
    rewrite pfn_to_virtu_small in Hr by lia. unfold PAGE_SIZE in Hr.
    rewrite (proj2 (Z.ltb_lt _ _)) in Hr by lia. injection Hr as <- <-.
    right. exists bulk, s, p. unfold PAGE_SIZE.
    split_and!; try done; lia.
  - cbn [mbind res_bind] in Hr. rewrite Z.ltb_irrefl in Hr.
    destruct bulk; cbn [negb] in Hr.
    + destruct (increase (wrap64 n) s) as [[k s2]| |] eqn:Hk; cbn [mbind res_bind] in Hr; try done.
      destruct (Z.eqb_spec k 0) as [->|Hk0].
      * injection Hr as <- <-. left. split; [done|]. exists s. by split_and!.
      * assert (grows increase n s s2) as Hg by (by exists k).
        apply IH in Hr; [|by eapply Hinc].
        destruct Hr as [(-> & s1 & H1 & H2 & H3 & _)|(b & s1 & p & H1 & H2 & H3 & H4 & H5 & H6)].
        -- left. split; [done|]. exists s1. split_and!; try done. by eapply rtc_l.
        -- right. exists b, s1, p. split_and!; try done; try (by eapply rtc_l).
           intros Hb. by destruct (H5 Hb).
    + apply IH in Hr; [|done].
      destruct Hr as [(-> & s1 & H1 & H2 & H3 & _)|(b & s1 & p & H1 & H2 & H3 & H4 & H5 & H6)].
      * left. split; [done|]. exists s1. by split_and!.
      * right. exists b, s1, p. split_and!; try done. intros Hb. split; [|done]. by destruct b.
Qed.
End Alloc.

(** ** Growth *)

(** What the callees of the growth path leave alone: they may take pages for
    page tables (the pool stays well formed) but move no bound and no hole. *)
Definition frame {A} (s s' : mm A) : Prop :=
  pool_ok s' /\ first_alloc_page s' = first_alloc_page s /\ end_alloc_page s' = end_alloc_page s /\
  max_end_alloc_page s' = max_end_alloc_page s /\ first_bulk_page s' = first_bulk_page s /\
  memory_hole_list s' = memory_hole_list s /\
  forall p, page_bit (alloc_bitmap s) p = true -> page_bit (alloc_bitmap s') p = true.

(** The documented behaviour of the callees: the hypervisor never hands out more
    than was asked for; the page-table code returns and keeps the frame. *)
Class env_ok {A} (E : mm_env A) : Prop := {
  populate_le start nr s : 0 <= nr ->
    (populate_physmap E start nr s).1 <= nr /\
    Z.of_nat (length (populate_physmap E start nr s).2) <= nr;
  build_frame a b s : pool_ok s -> exists r s', build_pagetable E a b s = Ok (r, s') /\ frame s s';
  p2m_frame a b add s : pool_ok s -> exists s', arch_update_p2m E a b add s = Ok s' /\ frame s s';
  not_in_irq : in_irq E = false
}.

Section Grow.
Context {A : Type} (E : mm_env A) `{!env_ok E}.
Implicit Types s : mm A.

Lemma pool_frame_refl s : pool_ok s -> frame s s.
Proof. by intros. Qed.

Lemma pool_frame_trans s1 s2 s3 : frame s1 s2 -> frame s2 s3 -> frame s1 s3.
Proof. intros (? & ? & ? & ? & ? & ? & ?) (? & ? & ? & ? & ? & ? & ?). unfold frame. split_and!; try congruence. auto. Qed.

Lemma fill_p2m_ok nr start pfn f t :
  0 <= start + pfn -> start + pfn + Z.of_nat nr <= Z.of_nat (length t) ->
  exists t', fill_p2m nr start pfn f t = Ok t' /\ length t' = length t.
Proof.
  revert pfn t. induction nr as [|nr IH]; intros pfn t H1 H2; simpl; [eauto|].
  rewrite wr_in by lia. cbn [mbind res_bind].
  destruct (IH (pfn + 1) (<[Z.to_nat (start + pfn):=f pfn]> t)) as (t' & -> & Hl);
    rewrite ?length_insert in *; [lia..|]. eauto.
Qed.

Lemma store_frames_ok start mfns t :
  0 <= start -> start + Z.of_nat (length mfns) <= Z.of_nat (length t) ->
  exists t', store_frames start mfns t = Ok t' /\ length t' = length t.
Proof.
  revert start t. induction mfns as [|m mfns IH]; intros start t H1 H2; simpl in *; [eauto|].
  rewrite wr_in by lia. cbn [mbind res_bind].
  destruct (IH (start + 1) (<[Z.to_nat start:=m]> t)) as (t' & -> & Hl);
    rewrite ?length_insert in *; [lia..|]. eauto.
Qed.

Lemma frame_p2m s t :
  pool_ok s -> length t = length (phys_to_machine_mapping s) ->
  frame s (set_phys_to_machine_mapping t s).
Proof. intros [] Hl. split; [|done]. split; cbn; try done. by rewrite Hl. Qed.

Lemma increase_reservation_spec nr h s :
  pool_ok s -> 0 <= start_pfn h -> 0 <= nr <= end_pfn h - start_pfn h ->
  end_pfn h <= max_end_alloc_page s ->
  exists rc s', increase_reservation E nr h s = Ok (rc, s') /\ rc <= nr /\ frame s s'.
Proof using env_ok0.
  intros Hok Hs Hnr Hmax. pose proof (ok_p2m s Hok). pose proof (ok_bounds s Hok).
  unfold increase_reservation. rewrite wrap_small by lia.
  rewrite (proj2 (Z.ltb_ge _ _)) by lia. cbn [bug_on mbind res_bind].
  destruct (fill_p2m_ok (Z.to_nat nr) (start_pfn h) 0 (fun pfn => start_pfn h + pfn)
    (phys_to_machine_mapping s)) as (t & -> & Ht); [lia..|]. cbn [mbind res_bind].
  set (s1 := set_phys_to_machine_mapping t s).
  pose proof (populate_le (start_pfn h) nr s1) as Hp.
  destruct (populate_physmap E (start_pfn h) nr s1) as [rc mfns]. simpl in Hp.
  destruct (store_frames_ok (start_pfn h) mfns (phys_to_machine_mapping s1)) as (t' & -> & Ht');
    [lia|subst s1; cbn; lia|]. cbn [mbind res_bind].
  set (s2 := set_phys_to_machine_mapping t' s1).
  assert (frame s s1) as Hf1 by (by apply frame_p2m).
  assert (frame s s2) as Hf.
  { eapply pool_frame_trans; [exact Hf1|]. apply frame_p2m; [apply Hf1|done]. }
  destruct (Z.ltb_spec 0 rc); [|exists rc, s2; split_and!; (done || lia)].
  destruct (build_frame (start_pfn h) (start_pfn h + rc) s2) as (b & s3 & -> & Hf3); [apply Hf|].
  cbn [mbind res_bind]. pose proof (pool_frame_trans _ _ _ Hf Hf3) as Hfs3.
  destruct b; [|exists 0, s3; split_and!; (done || lia)].
  destruct (p2m_frame (start_pfn h) (start_pfn h + rc) true s3) as (s4 & -> & Hf4); [apply Hf3|].
  cbn [mbind res_bind]. exists rc, s4. split_and!; [done|lia|]. exact (pool_frame_trans _ _ _ Hfs3 Hf4).
Qed.

(** Pages past the pool count as allocated. *)
Lemma count_free_tail s e :
  pool_ok s -> end_alloc_page s <= e <= max_end_alloc_page s -> covers (alloc_bitmap s) e ->
  count_free (page_bit (alloc_bitmap s)) (first_alloc_page s) (Z.to_nat (e - first_alloc_page s)) =
  pool_free s.
Proof.
  intros Hok He Hc. pose proof (ok_bounds s Hok). unfold pool_free.
  replace (Z.to_nat (e - first_alloc_page s)) with
    (Z.to_nat (end_alloc_page s - first_alloc_page s) + Z.to_nat (e - end_alloc_page s))%nat by lia.
  rewrite count_free_app.
  rewrite (count_free_const _ (first_alloc_page s + _) _ true); [lia|].
  intros p Hp. apply (ok_tail s Hok); [lia|]. eapply covers_below; [done|lia].
Qed.

(** Opening [rc] pages at the bottom of the first hole keeps the invariant. *)
Lemma pool_ok_open s h hs bm rc :
  pool_ok s -> memory_hole_list s = h :: hs -> 0 < rc <= end_pfn h - start_pfn h ->
  range_set false (alloc_bitmap s) bm (start_pfn h) rc ->
  pool_ok (MM _ bm (first_alloc_page s) (Z.max (end_alloc_page s) (start_pfn h + rc))
    (max_end_alloc_page s) (first_free_page s) (first_bulk_page s) (first_free_bulk_page s)
    (num_free_pages s + rc) (wrap64 (num_free_bulk_pages s + rc))
    (if end_pfn h - start_pfn h =? rc then hs else Hole (start_pfn h + rc) (end_pfn h) :: hs)
    (in_increase_memory s) (phys_to_machine_mapping s) (arch s)).
Proof.
  intros Hok Hh Hrc (Hl & Hw & Hbit). pose proof (ok_bounds s Hok).
  pose proof (ok_holes s Hok) as Hholes. pose proof (ok_sorted s Hok) as Hsort.
  rewrite Hh in Hholes, Hsort. apply Forall_cons in Hholes as [(Hh1 & Hh2 & Hhc & Hhe & Hh3) Hholes].
  apply StronglySorted_inv in Hsort as [Hsort Hhd]. rewrite Forall_forall in Hhd.
  assert (Forall (fun h0 => first_bulk_page s <= start_pfn h0 <= end_pfn h0 /\
    end_pfn h0 <= max_end_alloc_page s /\ covers bm (end_pfn h0) /\
    (start_pfn h0 < end_pfn h0 \/ start_pfn h0 = max_end_alloc_page s) /\
    forall p, start_pfn h0 <= p < end_pfn h0 -> page_bit bm p = true) hs) as Hrest.
  { apply Forall_forall. intros h' Hin. rewrite Forall_forall in Hholes.
    destruct (Hholes h' Hin) as (? & ? & ? & ? & Hb). specialize (Hhd h' Hin). unfold hole_order in Hhd.
    split_and!; try lia; [unfold covers in *; by rewrite Hl|]. intros p Hp. rewrite Hbit by lia.
    rewrite bool_decide_eq_false_2 by lia. auto. }
  split; cbn; try apply Hok; try done; try lia.
  - rewrite covers_len by done.
    destruct (Z.max_spec (end_alloc_page s) (start_pfn h + rc)) as [[_ ->]|[_ ->]];
      [eapply covers_below; [done|lia]|apply Hok].
  - intros p Hp Hcp. rewrite covers_len in Hcp by done. rewrite Hbit by lia.
    rewrite bool_decide_eq_false_2 by lia. apply (ok_tail s Hok); [lia|done].
  - destruct (Z.eqb_spec (end_pfn h - start_pfn h) rc); [done|].
    apply Forall_cons. split; [|done]. cbn. split_and!; try lia; [by rewrite covers_len|].
    intros p Hp. rewrite Hbit by lia. rewrite bool_decide_eq_false_2 by lia. apply Hh3. lia.
  - destruct (Z.eqb_spec (end_pfn h - start_pfn h) rc); [done|].
    constructor; [done|]. apply Forall_forall. intros h' Hin. by apply (Hhd h' Hin).
  - rewrite (ok_count s Hok). unfold pool_free at 2. cbn.
    rewrite (count_free_range false (page_bit (alloc_bitmap s)) (page_bit bm) _ _ (start_pfn h) rc);
      [|lia|lia|lia| |].
    + rewrite count_free_tail; [lia|done|lia|].
      destruct (Z.max_spec (end_alloc_page s) (start_pfn h + rc)) as [[_ ->]|[_ ->]];
        [eapply covers_below; [done|lia]|apply Hok].
    + intros q Hq. cbn. apply Hh3. lia.
    + intros q Hq. by rewrite Hbit by lia.
Qed.

(** Page [p] is taken: marked, and not merely because it lies in a hole. *)
Definition used (p : Z) s : Prop :=
  0 <= p /\ page_bit (alloc_bitmap s) p = true /\
  Forall (fun h => ~ (start_pfn h <= p < end_pfn h)) (memory_hole_list s).

(** The bounds of the pool after it grew. *)
Definition bounds_kept s s' : Prop :=
  max_end_alloc_page s' = max_end_alloc_page s /\ first_alloc_page s' = first_alloc_page s /\
  first_bulk_page s' = first_bulk_page s /\ end_alloc_page s <= end_alloc_page s'.

Lemma total_holes_nonneg holes : 0 <= total_holes holes.
Proof. induction holes; simpl; lia. Qed.

Lemma increase_loop_spec fuel n result s :
  pool_ok s -> 0 <= n <= total_holes (memory_hole_list s) -> n < 2 ^ 64 -> (Z.to_nat n < fuel)%nat ->
  exists r s', increase_loop E fuel n result s = Ok (result + r, s') /\ 0 <= r <= n /\ pool_ok s' /\
    total_holes (memory_hole_list s') = total_holes (memory_hole_list s) - r /\
    bounds_kept s s' /\ forall p, used p s -> used p s'.
Proof using env_ok0.
  revert n result s. induction fuel as [|fuel IH]; intros n result s Hok Hn Hn64 Hf; [lia|].
  cbn [increase_loop]. destruct (Z.ltb_spec 0 n).
  2:{ exists 0, s. rewrite Z.add_0_r. unfold bounds_kept. split_and!; (done || lia). }
  destruct (memory_hole_list s) as [|h hs] eqn:Hh; [simpl in Hn; lia|].
  pose proof (ok_bounds s Hok). pose proof (ok_holes s Hok) as Hholes. rewrite Hh in Hholes.
  apply Forall_cons in Hholes as [(Hh1 & Hh2 & _ & _ & Hh3) _].
  rewrite (wrap_small 64 (end_pfn h - start_pfn h)) by lia.
  set (nn := if end_pfn h - start_pfn h <=? n then _ else _).
  assert (0 <= nn <= end_pfn h - start_pfn h /\ nn <= n) as Hnn.
  { subst nn. destruct (Z.leb_spec (end_pfn h - start_pfn h) n); lia. }
  destruct (increase_reservation_spec nn h s) as (rc & s1 & -> & Hrc & Hf1); [done|lia..|].
  cbn [mbind res_bind]. destruct Hf1 as (Hok1 & E1 & E2 & E3 & E4 & E5 & E6).
  destruct (Z.ltb_spec 0 rc).
  2:{ exists 0, s1. rewrite Z.add_0_r, E5, Hh. unfold bounds_kept. split_and!; try (done || lia).
      intros p (? & ? & ?). unfold used. rewrite E5. auto. }
  pose proof (ok_holes s1 Hok1) as Hholes1. rewrite E5, Hh in Hholes1.
  apply Forall_cons in Hholes1 as [(_ & _ & Hhc1 & _) _].
  destruct (map_free_spec (alloc_bitmap s1) (start_pfn h) rc) as (bm & -> & Hset);
    [apply Hok1|lia..|eapply covers_below; [done|lia]|].
  cbn [mbind res_bind]. pose proof (pool_free_bound s1 Hok1). pose proof (ok_count s1 Hok1).
  pose proof (pool_ok_open s1 h hs bm rc Hok1 ltac:(congruence) ltac:(lia) Hset) as Hok2.
  set (s2 := MM _ bm _ _ _ _ _ _ _ _ _ _ _ _) in Hok2.
  match goal with |- context [increase_loop E fuel _ _ ?s3] => assert (s3 = s2) as -> end.
  { subst s2. rewrite (wrap_small 64 (start_pfn h + rc)) by lia.
    unfold set_memory_hole_list, set_num_free_bulk_pages, set_num_free_pages,
      set_end_alloc_page, set_alloc_bitmap; cbn [end_alloc_page].
    destruct (Z.ltb_spec (end_alloc_page s1) (start_pfn h + rc)); cbn;
      rewrite E5, Hh; cbn [tail]; rewrite (wrap_small 64 (num_free_pages s1 + rc)) by lia;
      f_equal; lia. }
  rewrite (wrap_small 64 (n - rc)) by lia.
  assert (total_holes (memory_hole_list s2) = total_holes (h :: hs) - rc) as Htot.
  { subst s2. cbn. destruct (Z.eqb_spec (end_pfn h - start_pfn h) rc); cbn; lia. }
  destruct (IH (n - rc) (result + rc) s2) as (r & s' & -> & Hr & Hok' & Ht' & Hm' & Hu');
    [done|lia..|].
  exists (rc + r), s'. splits; try done; try lia.
  - do 2 f_equal. lia.
  - destruct Hm' as (M1 & M2 & M3 & M4). subst s2. unfold bounds_kept. cbn in M1, M2, M3, M4. splits; lia.
  - intros p (Hp0 & Hpb & Hph). apply Hu'. rewrite Hh in Hph. apply Forall_cons in Hph as [Hp1 Hp2].
    destruct Hset as (_ & _ & Hbit). split_and!; [done|..]; subst s2; cbn.
    + rewrite Hbit by done. rewrite bool_decide_eq_false_2 by lia. by apply E6.
    + destruct (Z.eqb_spec (end_pfn h - start_pfn h) rc); [done|].
      apply Forall_cons. split; [cbn; lia|done].
Qed.
End Grow.

Section Pool.
Context {A : Type} (E : mm_env A) `{!env_ok E}.
Implicit Types s : mm A.

Lemma can_increase_iff s n :
  pool_ok s -> 0 <= n < 2 ^ 64 ->
  (can_increase n s <> 0 <-> 0 < n <= total_holes (memory_hole_list s)).
Proof.
  intros Hok Hn. pose proof (ok_bounds s Hok). pose proof (ok_holes s Hok) as Hh.
  unfold can_increase. revert n Hn. induction (memory_hole_list s) as [|h hs IH]; intros n Hn;
    simpl; [lia|].
  apply Forall_cons in Hh as [(? & ? & _) Hh]. pose proof (total_holes_nonneg hs).
  rewrite (wrap_small 64 (end_pfn h - start_pfn h)) by lia.
  destruct (Z.leb_spec n (end_pfn h - start_pfn h)); [lia|].
  rewrite wrap_small by lia. rewrite IH by (done || lia). lia.
Qed.

Lemma pool_ok_flag b s : pool_ok s -> pool_ok (set_in_increase_memory b s).
Proof. intros []. by split. Qed.

Lemma increase_memory_spec n s :
  pool_ok s -> 0 <= n < 2 ^ 64 ->
  exists r s', increase_memory_holding_lock E n s = Ok (r, s') /\ pool_ok s' /\ 0 <= r <= n /\
    total_holes (memory_hole_list s') = total_holes (memory_hole_list s) - r /\
    bounds_kept s s' /\ forall p, used p s -> used p s'.
Proof using env_ok0.
  intros Hok Hn. unfold increase_memory_holding_lock. destruct (in_increase_memory s).
  { exists 0, (set_in_increase_memory false s). unfold bounds_kept in *; split_and!; cbn [memory_hole_list max_end_alloc_page first_alloc_page first_bulk_page end_alloc_page set_in_increase_memory] in *;
    (done || lia || (by apply pool_ok_flag) || tauto). }
  set (s1 := set_in_increase_memory true s).
  assert (pool_ok s1) as Hok1 by by apply pool_ok_flag.
  pose proof (can_increase_iff s1 n Hok1 Hn) as Hci.
  destruct (Z.eqb_spec (can_increase n s1) 0); cbn [negb mbind res_bind].
  { exists 0, (set_in_increase_memory false s1). unfold bounds_kept in *; split_and!; cbv [s1] in *; cbn [memory_hole_list max_end_alloc_page first_alloc_page first_bulk_page end_alloc_page set_in_increase_memory] in *;
    (done || lia || (by apply pool_ok_flag) || tauto). }
  destruct (increase_loop_spec E (S (Z.to_nat n)) n 0 s1) as (r & s' & -> & Hr & Hok' & Ht & Hm & Hu);
    [done|lia..|].
  cbn [mbind res_bind]. exists r, (set_in_increase_memory false s').
  unfold bounds_kept in *; split_and!; cbv [s1] in *; cbn [memory_hole_list max_end_alloc_page first_alloc_page first_bulk_page end_alloc_page set_in_increase_memory] in *;
    (done || lia || (by apply pool_ok_flag) || tauto).
Qed.

Lemma allocate_loop_total fuel n (bulk : bool) s :
  pool_ok s -> 1 <= n < 2 ^ 31 ->
  (Z.to_nat (total_holes (memory_hole_list s)) + (if bulk then 0 else 1) < fuel)%nat ->
  exists r s', allocate_loop fuel (increase_memory_holding_lock E) n bulk s = Ok (r, s') /\ pool_ok s'.
Proof using env_ok0.
  revert bulk s. induction fuel as [|fuel IH]; intros bulk s Hok Hn Hf; [lia|].
  cbn [allocate_loop]. destruct (region_covered bulk s Hok) as (Hc1 & Hc2 & Hc3).
  pose proof (ok_bounds s Hok).
  change (if bulk then end_alloc_page s else first_bulk_page s) with (region_hi bulk s).
  change (if bulk then first_free_bulk_page s else first_free_page s) with (region_lo bulk s).
  destruct (find_run_first_fit (S (Z.to_nat (region_hi bulk s - region_lo bulk s)))
    (alloc_bitmap s) n (region_lo bulk s) (region_hi bulk s)) as (o & -> & Hff);
    [apply Hok|done|lia..|].
  cbn [mbind res_bind]. destruct o as [p|].
  - destruct Hff as (Hlo & Hhi & Hrun & Hfst).
    destruct (take_run_spec bulk n p s) as (s2 & -> & Htk); [done|lia|done|done|done|].
    cbn [mbind res_bind]. rewrite pfn_to_virtu_small by lia. unfold PAGE_SIZE.
    rewrite (proj2 (Z.ltb_lt _ _)) by lia. eexists _, s2. split; [done|]. apply Htk.
  - cbn [mbind res_bind]. rewrite Z.ltb_irrefl. destruct bulk; cbn [negb].
    + rewrite wrap_small by lia.
      destruct (increase_memory_spec n s) as (k & s2 & -> & Hok2 & Hk & Ht & _); [done|lia|].
      cbn [mbind res_bind]. destruct (Z.eqb_spec k 0); [eauto|].
      apply IH; [done|done|]. pose proof (total_holes_nonneg (memory_hole_list s2)). lia.
    + apply IH; [done|done|lia].
Qed.

(** An allocation always returns, keeps the pool well formed, and either hands
    out the first free run or finds none and could not grow. *)
Lemma allocate_pages_spec n s :
  pool_ok s -> 1 <= n < 2 ^ 31 ->
  exists r s', guk_allocate_pages E n s = Ok (r, s') /\ pool_ok s' /\
    alloc_outcome (increase_memory_holding_lock E) n (is_bulk n) s r s'.
Proof using env_ok0.
  intros Hok Hn. unfold guk_allocate_pages, _allocate_pages. rewrite not_in_irq. cbn [bug_on mbind res_bind].
  set (fuel := (3 + Z.to_nat (total_holes (memory_hole_list s)))%nat).
  destruct (allocate_loop_total fuel n (is_bulk n) s) as (r & s' & Hr & Hok');
    [done|done|subst fuel; destruct (is_bulk n); lia|].
  rewrite Hr. exists r, s'. split_and!; [done|done|].
  eapply allocate_loop_outcome; try done.
  intros s1 k s2 Hok1 Hk. rewrite wrap_small in Hk by lia.
  destruct (increase_memory_spec n s1) as (k' & s2' & Hk' & ? & _); [done|lia|]. congruence.
Qed.

(** ** Deallocation *)

Lemma virt_to_pfn_page p : virt_to_pfn (PAGE_SIZE * p) = p.
Proof.
  unfold virt_to_pfn, PAGE_SIZE, PAGE_SHIFT. rewrite Z.shiftr_div_pow2 by lia.
  replace (4096 * p) with (p * 2 ^ 12) by lia. apply Z.div_mul. lia.
Qed.

(** The pages [p, p+n) are in use: in the pool, marked, and in no hole. *)
Definition in_use (p n : Z) s : Prop :=
  (if is_bulk n then first_bulk_page s else first_alloc_page s) <= p /\ p + n <= end_alloc_page s /\
  (forall q, p <= q < p + n -> page_bit (alloc_bitmap s) q = true) /\
  Forall (fun h => end_pfn h <= p \/ p + n <= start_pfn h \/ end_pfn h <= start_pfn h)
    (memory_hole_list s).

Record released (n page : Z) s s' : Prop := {
  rl_range : range_set false (alloc_bitmap s) (alloc_bitmap s') page n;
  rl_num : num_free_pages s' = num_free_pages s + n;
  rl_bulk : num_free_bulk_pages s' =
              if is_bulk n then wrap64 (num_free_bulk_pages s + n) else num_free_bulk_pages s;
  rl_hint : first_free_page s' = (if is_bulk n then first_free_page s else Z.min page (first_free_page s)) /\
            first_free_bulk_page s' =
              (if is_bulk n then Z.min page (first_free_bulk_page s) else first_free_bulk_page s);
  rl_same : first_alloc_page s' = first_alloc_page s /\ end_alloc_page s' = end_alloc_page s /\
            max_end_alloc_page s' = max_end_alloc_page s /\ first_bulk_page s' = first_bulk_page s /\
            memory_hole_list s' = memory_hole_list s /\
            phys_to_machine_mapping s' = phys_to_machine_mapping s;
  rl_ok : pool_ok s'
}.

Lemma pool_ok_release s s' p n :
  pool_ok s -> 0 <= n -> in_use p n s ->
  range_set false (alloc_bitmap s) (alloc_bitmap s') p n ->
  num_free_pages s' = num_free_pages s + n ->
  first_alloc_page s' = first_alloc_page s -> end_alloc_page s' = end_alloc_page s ->
  max_end_alloc_page s' = max_end_alloc_page s -> first_bulk_page s' = first_bulk_page s ->
  memory_hole_list s' = memory_hole_list s ->
  phys_to_machine_mapping s' = phys_to_machine_mapping s ->
  first_alloc_page s <= first_free_page s' < 2 ^ 31 ->
  first_bulk_page s <= first_free_bulk_page s' < 2 ^ 31 -> pool_ok s'.
Proof.
  intros H Hn (Hp & Hpn & Hset & Hdisj) (Hl & Hw & Hbit) Hnum Ha He Hm Hb Hh Ht Hf Hfb.
  pose proof (ok_bounds s H). assert (first_alloc_page s <= p) by (destruct (is_bulk n); lia).
  split; rewrite ?Ha, ?He, ?Hm, ?Hb, ?Hh, ?Ht; try apply H; try done.
  - destruct (ok_covers s H). unfold covers. by rewrite Hl.
  - intros q Hq Hcq. rewrite covers_len in Hcq by done. rewrite Hbit by lia.
    rewrite bool_decide_eq_false_2 by lia. by apply (ok_tail s H).
  - pose proof (ok_holes s H) as Hholes. rewrite Forall_forall in Hholes, Hdisj |- *.
    intros h Hin. destruct (Hholes h Hin) as (? & ? & ? & ? & Hq). specialize (Hdisj h Hin).
    split_and!; try lia; [by rewrite covers_len|]. intros q ?. rewrite Hbit by lia. rewrite bool_decide_eq_false_2 by lia. auto.
  - rewrite Hnum, (ok_count s H). unfold pool_free. rewrite Ha, He.
    rewrite (count_free_range false (page_bit (alloc_bitmap s)) (page_bit (alloc_bitmap s')) _ _ p n);
      [cbn; lia|lia|lia|lia| |].
    + intros q Hq. by apply Hset.
    + intros q Hq. by rewrite Hbit by lia.
Qed.

Lemma deallocate_pages_spec p n s :
  pool_ok s -> 1 <= n -> in_use p n s ->
  exists s', guk_deallocate_pages E (PAGE_SIZE * p) n s = Ok s' /\ released n p s s'.
Proof using env_ok0.
  intros Hok Hn Huse. pose proof Huse as (Hp & Hpn & Hset & Hdisj). pose proof (ok_bounds s Hok).
  pose proof (ok_first_free s Hok). pose proof (ok_first_free_bulk s Hok).
  assert (first_alloc_page s <= p) by (destruct (is_bulk n); lia).
  destruct (map_free_spec (alloc_bitmap s) p n) as (bm & Hmap & Hrs);
    [apply Hok|lia..|eapply covers_below; [apply ok_covers; done|lia]|].
  pose proof (pool_free_bound s Hok). pose proof (ok_count s Hok).
  unfold guk_deallocate_pages. rewrite not_in_irq, virt_to_pfn_page. cbn [bug_on mbind res_bind].
  destruct (is_bulk n) eqn:Hb; cbn zeta.
  - destruct (Z.ltb_spec p (first_free_bulk_page s)); cbn; rewrite Hmap; cbn;
      (eexists; split; [reflexivity|]); split; rewrite ?Hb; cbn; try done; try lia;
      try (apply wrap_small; lia); eapply (pool_ok_release s _ p n); cbn; try done; try lia;
      apply wrap_small; lia.
  - destruct (Z.ltb_spec p (first_free_page s)); cbn; rewrite Hmap; cbn;
      (eexists; split; [reflexivity|]); split; rewrite ?Hb; cbn; try done; try lia;
      try (apply wrap_small; lia); eapply (pool_ok_release s _ p n); cbn; try done; try lia;
      apply wrap_small; lia.
Qed.
End Pool.
