(* ===== verification/PagePoolProps.v ===== *)
(** The properties of the bitmap and of the page pool, each with a witness on a
    concrete pool. *)
From Stdlib Require Import Sorted.
From S2P Require Import Prelude Bitmap PageAlloc PagePool.
From stdpp Require Import options.

(** ** A concrete pool for the witnesses *)

(** A hypervisor that gives what it is asked for, page tables that need no frames. *)
Definition demo_env : mm_env () :=
  MMEnv _ (fun start nr _ => (nr, (fun i => 5000 + i) <$> seqZ start nr))
    (fun _ nr _ => nr) (fun _ _ s => Ok (true, s)) (fun _ _ s => Ok s)
    (fun _ _ _ s => Ok s) (fun s => Ok (true, s)) (fun s => Ok s) false.

(** Pages 8..99 of which 8..39 are the small region; pages 8, 9, 41 are taken;
    a hole at 100..119. *)
Definition demo_pool : mm () :=
  MM _ (<[0%nat := 2 ^ 41 + 2 ^ 10 - 1]> (<[1%nat := 2 ^ 64 - 2 ^ 36]> (replicate 4 (2 ^ 64 - 1))))
    8 100 120 10 40 40 89 59 [Hole 100 120] false (replicate 120 7) ().

Lemma range_by_check (f : Z -> bool) b lo hi :
  forallb (fun p => eqb (f p) b) (seqZ lo (hi - lo)) = true ->
  forall p, lo <= p < hi -> f p = b.
Proof.
  rewrite forallb_forall. intros H p Hp. apply eqb_prop, H, list_elem_of_In, elem_of_seqZ. lia.
Qed.

Lemma demo_pool_ok : pool_ok demo_pool.
Proof.
  split.
  - unfold words_ok. repeat constructor; done.
  - by vm_compute.
  - by vm_compute.
  - by vm_compute.
  - by vm_compute.
  - intros p Hp _. cbn in Hp. eapply (range_by_check _ true 100 121); [by vm_compute|lia].
  - cbn. repeat constructor; cbn; try lia.
    apply (range_by_check _ true 100 120). by vm_compute.
  - repeat constructor.
  - by vm_compute.
  - by vm_compute.
Qed.

Global Instance demo_env_ok : env_ok demo_env.
Proof.
  split; cbn; intros.
  - rewrite length_fmap, length_seqZ. lia.
  - exists true, s. split; [done|]. unfold frame. by split_and!.
  - exists s. split; [done|]. unfold frame. by split_and!.
  - done.
Qed.

(** ** Bitmaps *)

(** On a bitmap of 64-bit words, [map_alloc] and [map_free] on pages
    [first, first+nr) set respectively clear exactly the bits of those pages and
    keep every other bit and the size of the map, provided the word of page
    [first+nr] exists; when it does not, both access memory outside the map. *)
Lemma bitmap_range_ops m first nr :
  words_ok m -> 0 <= first -> 0 <= nr -> first + nr < 2 ^ 64 ->
  (covers m (first + nr) ->
     (exists m', map_alloc m first nr = Ok m' /\ range_set true m m' first nr) /\
     (exists m', map_free m first nr = Ok m' /\ range_set false m m' first nr)) /\
  (~ covers m (first + nr) ->
     map_alloc m first nr = Bug BAD_ACCESS /\ map_free m first nr = Bug BAD_ACCESS).
Proof.
  intros. split; intros; split;
    auto using map_alloc_spec, map_free_spec, map_alloc_out, map_free_out.
Qed.

Lemma bitmap_range_ops_witness :
  map_alloc [0; 0; 0] 60 70 = Ok [15 * 2 ^ 60; 2 ^ 64 - 1; 3] /\
  exists m', map_free [15 * 2 ^ 60; 2 ^ 64 - 1; 3] 60 70 = Ok m' /\
    range_set false [15 * 2 ^ 60; 2 ^ 64 - 1; 3] m' 60 70.
Proof.
  split; [by vm_compute|].
  apply (bitmap_range_ops [15 * 2 ^ 60; 2 ^ 64 - 1; 3] 60 70).
  - unfold words_ok. repeat constructor; done.
  - lia.
  - lia.
  - lia.
  - by vm_compute.
Defined.

(** Setting a page in a bitmap with [set_map] and clearing it with
    [clear_map] touch that page only, and [allocated_in_map] reads the bit back. *)
Lemma bitmap_page_ops m s :
  words_ok m -> covers m s ->
  (exists m', set_map m s = Ok m' /\ allocated_in_map m' s = Ok true /\ range_set true m m' s 1) /\
  (exists m', clear_map m s = Ok m' /\ allocated_in_map m' s = Ok false /\ range_set false m m' s 1).
Proof.
  intros Hm Hc. pose proof Hc as [Hs _]. split.
  - destruct (set_map_spec m s Hm Hc) as (m' & -> & Hl & Hw & Hb). exists m'. split_and!; try done.
    rewrite allocated_in_map_spec by (done || by rewrite (covers_len m)).
    by rewrite Hb, bool_decide_eq_true_2 by lia.
  - destruct (clear_map_spec m s Hm Hc) as (m' & -> & Hl & Hw & Hb). exists m'. split_and!; try done.
    rewrite allocated_in_map_spec by (done || by rewrite (covers_len m)).
    by rewrite Hb, bool_decide_eq_true_2 by lia.
Qed.

Lemma bitmap_page_ops_witness :
  exists m', set_map [0; 0] 65 = Ok m' /\ allocated_in_map m' 65 = Ok true /\
    range_set true [0; 0] m' 65 1.
Proof.
  apply (bitmap_page_ops [0; 0] 65); [unfold words_ok; repeat constructor; done|by vm_compute].
Defined.

(** ** Allocation *)

(** C1: [guk_allocate_pages] always returns, keeps the pool well formed (in
    particular the free-page counter stays exact), and either
    hands out the first run of [n] free pages of the region it searched
    (small region, then bulk region, then bulk region after growing), marking
    exactly those pages, or returns 0 after no run was found anywhere it looks
    and the pool could not grow. *)
Theorem allocate_pages_first_fit {A} (E : mm_env A) `{!env_ok E} n (s : mm A) :
  pool_ok s -> 1 <= n < 2 ^ 31 ->
  exists r s', guk_allocate_pages E n s = Ok (r, s') /\ pool_ok s' /\
    alloc_outcome (increase_memory_holding_lock E) n (is_bulk n) s r s'.
Proof. by apply allocate_pages_spec. Qed.

Lemma allocate_pages_first_fit_witness :
  (guk_allocate_pages demo_env 3 demo_pool ≫= fun x => Ok (fst x)) = Ok (4096 * 10) /\
  (guk_allocate_pages demo_env 31 demo_pool ≫= fun x => Ok (fst x)) = Ok (4096 * 42) /\
  exists r s', guk_allocate_pages demo_env 31 demo_pool = Ok (r, s') /\ pool_ok s' /\
    alloc_outcome (increase_memory_holding_lock demo_env) 31 (is_bulk 31) demo_pool r s'.
Proof.
  split_and!; [by vm_compute|by vm_compute|].
  apply (allocate_pages_first_fit demo_env 31 demo_pool demo_pool_ok). lia.
Defined.

Lemma grows_used {A} (E : mm_env A) `{!env_ok E} n (s s' : mm A) p :
  pool_ok s -> 1 <= n < 2 ^ 31 -> rtc (grows (increase_memory_holding_lock E) n) s s' ->
  used p s -> pool_ok s' /\ used p s'.
Proof.
  intros Hok Hn Hr. induction Hr as [s|s s1 s2 (k & Hk & _) _ IH]; [done|].
  intros Hu. rewrite wrap_small in Hk by lia.
  destruct (increase_memory_spec E n s) as (k' & s' & Hk' & Hok' & _ & _ & _ & Hus); [done|lia|].
  rewrite Hk' in Hk. simplify_eq. auto.
Qed.

(** C2: Allocated pages are never handed out twice: a page in use before a
    successful [guk_allocate_pages] is still in use after it and is not among
    the [n] pages returned, which are in use from then on. *)
Theorem allocate_pages_no_double {A} (E : mm_env A) `{!env_ok E} n (s s' : mm A) r :
  pool_ok s -> 1 <= n < 2 ^ 31 -> guk_allocate_pages E n s = Ok (r, s') -> r <> 0 ->
  exists page, r = PAGE_SIZE * page /\
    (forall p, used p s -> used p s' /\ ~ (page <= p < page + n)) /\
    (forall p, page <= p < page + n -> used p s').
Proof.
  intros Hok Hn Hr Hr0.
  destruct (allocate_pages_spec E n s Hok Hn) as (r' & s2 & Hr' & Hok' & Ho).
  rewrite Hr in Hr'. simplify_eq. destruct Ho as [(-> & _)|Ho]; [done|].
  destruct Ho as (b & s1 & page & Hg & -> & _ & (Hlo & Hhi & Hrun & _) & _ & Htk).
  assert (pool_ok s1) as Hok1.
  { clear -Hg Hok Hn env_ok0. induction Hg as [|s s1 s2 (k & Hk & _) _ IH]; [done|].
    rewrite wrap_small in Hk by lia.
    destruct (increase_memory_spec E n s) as (? & ? & Hk' & ? & _); [done|lia|].
    rewrite Hk' in Hk. simplify_eq. auto. }
  destruct (region_covered b s1 Hok1) as (Hc1 & Hc2 & _).
  destruct (tk_range _ _ _ _ _ Htk) as (_ & _ & Hbit).
  destruct (tk_same _ _ _ _ _ Htk) as (_ & _ & _ & _ & Hholes & _).
  exists page. split_and!; [done| |].
  - intros p Hp. destruct (grows_used E n s s1 p Hok Hn Hg Hp) as [_ (Hp0 & Hpb & Hph)].
    unfold used. rewrite Hholes, Hbit by done. split_and!; try done.
    + by case_bool_decide.
    + intros Hin. by rewrite (Hrun p Hin) in Hpb.
  - intros p Hp. unfold used. rewrite Hholes, Hbit, bool_decide_eq_true_2 by lia.
    split_and!; [lia|done|]. pose proof (ok_holes s1 Hok1) as Hh.
    eapply Forall_impl; [exact Hh|]. cbv beta. intros h (? & ? & ? & ? & Hb) Hin.
    specialize (Hb p Hin). by rewrite (Hrun p) in Hb by lia.
Qed.

Lemma allocate_pages_no_double_witness :
  exists s' page, guk_allocate_pages demo_env 3 demo_pool = Ok (PAGE_SIZE * page, s') /\ page = 10 /\
    (forall p, used p demo_pool -> used p s' /\ ~ (page <= p < page + 3)).
Proof.
  destruct (guk_allocate_pages demo_env 3 demo_pool) as [[r s']| |] eqn:Hr; [|by vm_compute in Hr..].
  assert (r = 4096 * 10) as ->.
  { assert ((guk_allocate_pages demo_env 3 demo_pool ≫= fun x => Ok (fst x)) = Ok (4096 * 10)) as H
      by by vm_compute. rewrite Hr in H. by injection H. }
  destruct (allocate_pages_no_double demo_env 3 demo_pool s' (4096 * 10) demo_pool_ok
    ltac:(lia) Hr ltac:(lia)) as (page & Hp & H1 & _).
  exists s', page. unfold PAGE_SIZE in *. split_and!; [by rewrite <- Hp|lia|done].
Defined.

(** C3: Deallocating [n] pages in use at [page] frees exactly those pages,
    increases the free-page counter by [n], lowers the search hint of the
    region chosen by the size, and keeps the pool well formed. *)
Theorem deallocate_pages_exact {A} (E : mm_env A) `{!env_ok E} page n (s : mm A) :
  pool_ok s -> 1 <= n -> in_use page n s ->
  exists s', guk_deallocate_pages E (PAGE_SIZE * page) n s = Ok s' /\ released n page s s'.
Proof. by apply deallocate_pages_spec. Qed.

Lemma deallocate_pages_exact_witness :
  exists s', guk_deallocate_pages demo_env (PAGE_SIZE * 8) 2 demo_pool = Ok s' /\
    released 2 8 demo_pool s'.
Proof.
  apply (deallocate_pages_exact demo_env 8 2 demo_pool demo_pool_ok ltac:(lia)).
  split_and!; [by vm_compute|by vm_compute| |repeat constructor; cbn; lia].
  intros q Hq. apply (range_by_check _ true 8 10); [by vm_compute|lia].
Defined.

(** Freeing what an allocation from the pool returned gives back the bitmap
    and the free-page counter of before; the bulk counter comes back too when
    the request was of the size class of the region that served it, but a small
    request served by the bulk region leaves it [n] short. *)
Lemma allocate_deallocate_roundtrip {A} (E : mm_env A) `{!env_ok E} bulk n page (s s1 : mm A) :
  pool_ok s -> 1 <= n < 2 ^ 31 -> (is_bulk n = true -> bulk = true) ->
  0 <= num_free_bulk_pages s < 2 ^ 64 ->
  first_fit (alloc_bitmap s) n (region_lo bulk s) (region_hi bulk s) (Some page) ->
  take_run bulk n page s = Ok s1 ->
  exists s2, guk_deallocate_pages E (PAGE_SIZE * page) n s1 = Ok s2 /\ pool_ok s2 /\
    (forall p, 0 <= p -> page_bit (alloc_bitmap s2) p = page_bit (alloc_bitmap s) p) /\
    num_free_pages s2 = num_free_pages s /\
    num_free_bulk_pages s2 =
      (if bulk && negb (is_bulk n) then wrap64 (num_free_bulk_pages s - n) else num_free_bulk_pages s).
Proof.
  intros Hok Hn Hb Hnb (Hlo & Hhi & Hrun & _) Ht.
  destruct (take_run_spec bulk n page s) as (s1' & Ht' & Htk); [done|lia|done|done|done|].
  rewrite Ht in Ht'. injection Ht' as <-.
  destruct (tk_range _ _ _ _ _ Htk) as (_ & _ & Hbit).
  destruct (tk_same _ _ _ _ _ Htk) as (Ea & Ee & _ & Efb & Eh & _).
  destruct (region_covered bulk s Hok) as (Hc1 & Hc2 & _).
  pose proof (ok_first_free_bulk s Hok).
  destruct (deallocate_pages_spec E page n s1) as (s2 & -> & Hrl); [apply Htk|lia| |].
  { split_and!.
    - destruct (is_bulk n) eqn:Hbn; [|lia]. specialize (Hb eq_refl). subst bulk. simpl in *. lia.
    - lia.
    - intros q Hq. rewrite Hbit by lia. by rewrite bool_decide_eq_true_2 by lia.
    - rewrite Eh. eapply Forall_impl; [apply (ok_holes s Hok)|]. cbv beta.
      intros h (? & ? & ? & ? & Hhole). destruct (decide (end_pfn h <= page)); [by left|].
      destruct (decide (page + n <= start_pfn h)); [by right; left|].
      destruct (decide (start_pfn h < end_pfn h)); [exfalso|right; right; lia].
      set (q := Z.max page (start_pfn h)).
      assert (page_bit (alloc_bitmap s) q = true) as Hqt by (apply Hhole; lia).
      by rewrite (Hrun q) in Hqt by lia. }
  destruct (rl_range _ _ _ _ Hrl) as (_ & _ & Hbit2).
  exists s2. split_and!; [done|apply Hrl| |rewrite (rl_num _ _ _ _ Hrl), (tk_num _ _ _ _ _ Htk); lia|].
  - intros p Hp. rewrite Hbit2, Hbit by done. case_bool_decide; [|done]. by rewrite Hrun.
  - rewrite (rl_bulk _ _ _ _ Hrl), (tk_bulk _ _ _ _ _ Htk).
    destruct (is_bulk n); [specialize (Hb eq_refl); subst bulk; cbn|by destruct bulk].
    unfold wrap. rewrite Zplus_mod_idemp_l. rewrite Z.mod_small; lia.
Qed.

Lemma allocate_deallocate_roundtrip_witness :
  exists s1 s2, take_run true 3 42 demo_pool = Ok s1 /\
    guk_deallocate_pages demo_env (PAGE_SIZE * 42) 3 s1 = Ok s2 /\
    num_free_bulk_pages demo_pool = 59 /\ num_free_bulk_pages s2 = 56.
Proof.
  destruct (take_run true 3 42 demo_pool) as [s1| |] eqn:Ht; [|by vm_compute in Ht..].
  destruct (allocate_deallocate_roundtrip demo_env true 3 42 demo_pool s1 demo_pool_ok
    ltac:(lia) ltac:(done) ltac:(cbn; lia)) as (s2 & Hs2 & _ & _ & _ & Hb); [|done|].
  - split_and!; [by vm_compute|by vm_compute| |].
    + intros q Hq. apply (range_by_check _ false 42 45); [by vm_compute|lia].
    + intros q Hq Hrun. cbn in Hq. specialize (Hrun 41 ltac:(lia)). by vm_compute in Hrun.
  - exists s1, s2. by split_and!.
Defined.

(** A pool of exactly 512 bulk pages, 64..575, all free, and no small region. *)
Definition bulk_pool : mm () :=
  MM _ ((2 ^ 64 - 1) :: replicate 8 0 ++ [2 ^ 64 - 1]) 64 576 576 64 64 64 512 512 [] false [] ().

(** The pool keeps no record that bulk pages lent to a small request came
    back: in a pool of exactly 512 bulk pages with no small region, after one
    page is allocated and freed again all 512 pages are free and contiguous, yet
    a request for 512 pages fails. *)
Lemma bulk_hint_lost :
  exists r s1 s2 s3, guk_allocate_pages demo_env 1 bulk_pool = Ok (r, s1) /\ r <> 0 /\
    guk_deallocate_pages demo_env r 1 s1 = Ok s2 /\
    run_free (alloc_bitmap s2) 64 512 /\ num_free_pages s2 = 512 /\
    guk_allocate_pages demo_env 512 s2 = Ok (0, s3).
Proof.
  eexists _, _, _, _. split; [vm_compute; reflexivity|]. split; [done|].
  split; [vm_compute; reflexivity|]. split; [|split; [done|vm_compute; reflexivity]].
  intros q Hq. apply (range_by_check _ false 64 576); [by vm_compute|lia].
Qed.

(** The sum of the holes as [guk_current_reservation] computes it. *)
Lemma fold_holes {A} (s : mm A) acc :
  pool_ok s -> 0 <= acc -> acc + total_holes (memory_hole_list s) < 2 ^ 64 ->
  foldl (fun result h => wrap64 (result + (end_pfn h - start_pfn h))) acc (memory_hole_list s) =
  acc + total_holes (memory_hole_list s).
Proof.
  intros Hok. pose proof (ok_holes s Hok) as Hh. revert acc.
  induction (memory_hole_list s) as [|h hs IH]; intros acc Ha Hs; simpl in *; [lia|].
  apply Forall_cons in Hh as [(? & ? & _) Hh]. pose proof (total_holes_nonneg hs).
  rewrite wrap_small by lia. rewrite IH by (done || lia). lia.
Qed.

Lemma total_holes_bound {A} (s : mm A) :
  pool_ok s -> first_bulk_page s + total_holes (memory_hole_list s) <= max_end_alloc_page s.
Proof.
  intros Hok. pose proof (ok_bounds s Hok) as (_ & Hb & _). pose proof (ok_holes s Hok) as Hh.
  pose proof (ok_sorted s Hok) as Hs.
  assert (forall hs lo hi, lo <= hi -> StronglySorted hole_order hs ->
    Forall (fun h => lo <= start_pfn h <= end_pfn h /\ end_pfn h <= hi) hs ->
    lo + total_holes hs <= hi) as Hgen.
  { intros hs. induction hs as [|h hs IH]; intros lo hi Hlh Hsort Hall; simpl; [lia|].
    apply Forall_cons in Hall as [[? ?] Hall]. apply StronglySorted_inv in Hsort as [Hsort Hhd].
    assert (end_pfn h + total_holes hs <= hi); [|lia].
    apply IH; [lia|done|]. rewrite Forall_forall in *. intros h' Hin.
    specialize (Hall h' Hin). specialize (Hhd h' Hin). unfold hole_order in Hhd. lia. }
  apply Hgen; [lia|done|]. eapply Forall_impl; [exact Hh|]. cbv beta. intros ? (? & ? & _). lia.
Qed.

(** Growing the pool by up to [n] pages always returns; it adds [r <= n]
    pages, takes them out of the holes (so the current reservation grows by
    exactly [r]), gives nothing when the holes hold fewer than [n] pages, keeps
    the pool well formed and leaves every page in use as it is. *)
Lemma increase_page_pool_accounting {A} (E : mm_env A) `{!env_ok E} n (s : mm A) :
  pool_ok s -> 0 <= n < 2 ^ 64 ->
  exists r s', guk_increase_page_pool E n s = Ok (r, s') /\ pool_ok s' /\ 0 <= r <= n /\
    (total_holes (memory_hole_list s) < n -> r = 0) /\
    guk_current_reservation s' = guk_current_reservation s + r /\
    (forall p, used p s -> used p s').
Proof.
  intros Hok Hn. unfold guk_increase_page_pool.
  destruct (increase_memory_spec E n s) as (r & s' & Hr & Hok' & Hrn & Ht & [Hm _] & Hu); [done|done|].
  exists r, s'. rewrite Hr. split_and!; try (done || lia).
  - intros Hlt. pose proof (total_holes_nonneg (memory_hole_list s')).
    unfold increase_memory_holding_lock in Hr.
    destruct (in_increase_memory s); [congruence|].
    pose proof (can_increase_iff (set_in_increase_memory true s) n (pool_ok_flag true s Hok) Hn) as Hci.
    cbn [memory_hole_list set_in_increase_memory] in Hci.
    destruct (Z.eqb_spec (can_increase n (set_in_increase_memory true s)) 0); [|lia].
    cbn in Hr. congruence.
  - pose proof (total_holes_bound s Hok). pose proof (total_holes_bound s' Hok').
    pose proof (ok_bounds s Hok). pose proof (ok_bounds s' Hok').
    pose proof (total_holes_nonneg (memory_hole_list s)).
    pose proof (total_holes_nonneg (memory_hole_list s')).
    unfold guk_current_reservation. rewrite !fold_holes by (done || lia).
    rewrite !wrap_small by lia. lia.
Qed.

Lemma increase_page_pool_accounting_witness :
  (guk_increase_page_pool demo_env 5 demo_pool ≫= fun x => Ok (x.1, guk_current_reservation x.2)) =
    Ok (5, 105) /\
  exists r s', guk_increase_page_pool demo_env 5 demo_pool = Ok (r, s') /\
    guk_current_reservation s' = guk_current_reservation demo_pool + r.
Proof.
  split; [by vm_compute|].
  destruct (increase_page_pool_accounting demo_env 5 demo_pool demo_pool_ok ltac:(lia))
    as (r & s' & H1 & _ & _ & _ & H2 & _). eauto.
Defined.

(** ** Initialisation *)

Lemma page_bit_replicate n p :
  0 <= p -> p / 64 < Z.of_nat n -> page_bit (replicate n (wrap64 (-1))) p = true.
Proof.
  intros Hp Hn. unfold page_bit. assert (0 <= p / 64) by (apply Z.div_pos; lia).
  rewrite lookup_replicate_2 by lia. pose proof (Z.mod_pos_bound p 64).
  rewrite wrap_testbit, Z.bits_m1 by lia. by rewrite bool_decide_eq_true_2 by lia.
Qed.

Lemma words_ok_replicate n : words_ok (replicate n (wrap64 (-1))).
Proof. apply Forall_replicate. apply wrap_range. lia. Qed.

Lemma init_covers k p : 0 <= p -> 0 <= k ->
  covers (replicate (Z.to_nat (k * 512)) (wrap64 (-1))) p <-> p < 32768 * k.
Proof.
  intros. unfold covers. rewrite length_replicate, Z2Nat.id by lia.
  pose proof (Z.div_mod p 64 ltac:(lia)). pose proof (Z.mod_pos_bound p 64 ltac:(lia)). lia.
Qed.

(** When the pages of the initial reservation lie below the pages the
    bitmap has bits for, [init_page_allocator] returns a well-formed pool in
    which exactly the pages from the first page after the bitmap up to [max] are
    free. *)
Lemma init_page_allocator_ok {A} max_end small_opt min max p2m (a : A) :
  let bitmap_pages := max_end / BITS_PER_PAGE in
  0 < min -> min + bitmap_pages <= max -> 0 <= max_end < 2 ^ 31 -> max <= max_end ->
  max < BITS_PER_PAGE * bitmap_pages -> small_opt <= 100 ->
  max_end <= Z.of_nat (length p2m) ->
  exists s, init_page_allocator max_end small_opt min max p2m a = Ok s /\ pool_ok s /\
    first_alloc_page s = min + bitmap_pages /\ end_alloc_page s = max /\
    num_free_pages s = max - (min + bitmap_pages) /\
    (forall p, covers (alloc_bitmap s) p ->
       page_bit (alloc_bitmap s) p = negb (bool_decide (min + bitmap_pages <= p < max))).
Proof.
  intros bp Hmin Hle Hmax Hme Hcov Hopt Hp2m. unfold init_page_allocator. fold bp.
  assert (0 <= bp) by (apply Z.div_pos; unfold BITS_PER_PAGE; lia).
  rewrite (wrap_small 64 (min + bp)), (wrap_small 64 (max - (min + bp))) by lia.
  set (bm0 := replicate _ _).
  assert (covers bm0 max) as Hc0 by (apply init_covers; unfold BITS_PER_PAGE in Hcov; lia).
  destruct (map_free_spec bm0 (min + bp) (max - (min + bp))) as (bm & -> & Hl & Hw & Hbit);
    [apply words_ok_replicate|lia..|by replace (min + bp + (max - (min + bp))) with max by lia|].
  replace (min + bp + (max - (min + bp))) with max in Hbit by lia.
  set (pct := if small_opt <? 0 then _ else _).
  assert (0 <= pct <= 100) as Hpct.
  { subst pct. unfold DEFAULT_SMALL_PERCENTAGE. destruct (Z.ltb_spec small_opt 0); lia. }
  assert (0 <= wrap64 (max_end * pct) / 100 < 2 ^ 60) as Hsm.
  { rewrite wrap_small by nia. split; [apply Z.div_pos; nia|apply Z.div_lt_upper_bound; nia]. }
  rewrite (wrap_small 64 (min + bp + _)) by lia.
  set (fb := if max <? _ then max else _).
  assert (min + bp <= fb <= max) as Hfb.
  { subst fb. match goal with |- context [max <? ?x] => destruct (Z.ltb_spec max x) end; lia. }
  cbn [mbind res_bind]. eexists. split; [reflexivity|]. cbn.
  assert (forall p, covers bm p -> page_bit bm p = negb (bool_decide (min + bp <= p < max))) as Hbits.
  { intros p Hcp. rewrite (covers_len bm0) in Hcp by done. pose proof Hcp as [Hp0 Hp1].
    rewrite Hbit by done. case_bool_decide; [done|]. subst bm0. rewrite length_replicate in Hp1.
    by apply page_bit_replicate. }
  split_and!; try done. split; cbn; try done; try lia.
  - by rewrite (covers_len bm0).
  - intros p Hp Hcp. rewrite Hbits by done. by rewrite bool_decide_eq_false_2 by lia.
  - constructor.
  - unfold pool_free. cbn.
    rewrite (count_free_const _ (min + bp) _ false); [lia|].
    intros p Hp. rewrite Hbits; [by rewrite bool_decide_eq_true_2 by lia|].
    rewrite (covers_len bm0) by done. eapply covers_below; [done|lia].
Qed.

Lemma init_page_allocator_ok_witness :
  exists s, init_page_allocator 65536 (-1) 100 40000 (replicate (Z.to_nat 65536) 0) () = Ok s /\ pool_ok s /\
    first_alloc_page s = 102.
Proof.
  destruct (init_page_allocator_ok 65536 (-1) 100 40000 (replicate (Z.to_nat 65536) 0) ()) as (s & H1 & H2 & H3 & _);
    [lia|vm_compute; discriminate|lia|lia|vm_compute; reflexivity|lia|rewrite length_replicate, Z2Nat.id; lia|].
  exists s. by split_and!.
Defined.

(** The size of the bitmap is rounded down: whenever the initial
    reservation reaches the last page the bitmap has a bit for — always when it
    equals the maximal reservation, and always for domains of less than 128MB —
    [init_page_allocator] reads and writes words outside the bitmap. *)
Lemma init_page_allocator_short_bitmap {A} max_end small_opt min max p2m (a : A) :
  let bitmap_pages := max_end / BITS_PER_PAGE in
  0 <= min -> min + bitmap_pages <= max -> 0 <= max_end < 2 ^ 31 -> max <= max_end ->
  BITS_PER_PAGE * bitmap_pages <= max \/ max = max_end \/ max_end < BITS_PER_PAGE ->
  init_page_allocator max_end small_opt min max p2m a = Bug BAD_ACCESS.
Proof.
  intros bp Hmin Hle Hmax Hme Hcase. unfold init_page_allocator. fold bp.
  assert (0 <= bp) by (apply Z.div_pos; unfold BITS_PER_PAGE; lia).
  assert (BITS_PER_PAGE * bp <= max) as Hb.
  { destruct Hcase as [?|[->|?]]; [done| |].
    - apply Z.mul_div_le. unfold BITS_PER_PAGE. lia.
    - subst bp. rewrite Z.div_small by lia. lia. }
  rewrite (wrap_small 64 (min + bp)), (wrap_small 64 (max - (min + bp))) by lia.
  rewrite map_free_out; [done|lia..|].
  replace (min + bp + (max - (min + bp))) with max by lia.
  rewrite init_covers by lia. unfold BITS_PER_PAGE in Hb. lia.
Qed.

Lemma init_page_allocator_short_bitmap_witness :
  init_page_allocator 65536 (-1) 100 65536 [] () = Bug BAD_ACCESS /\
  init_page_allocator 20000 (-1) 100 16000 [] () = Bug BAD_ACCESS.
Proof.
  split; (apply init_page_allocator_short_bitmap; [lia|vm_compute; discriminate|lia|lia|]);
    [right; left; reflexivity|right; right; reflexivity].
Defined.

(** ** Holes *)

(** [memory_hole_add] keeps the list of holes ordered by start and adds
    exactly the new hole, after the holes that start at the same page. *)
Lemma memory_hole_add_sorted new_hole holes :
  StronglySorted (fun h1 h2 => start_pfn h1 <= start_pfn h2) holes ->
  StronglySorted (fun h1 h2 => start_pfn h1 <= start_pfn h2) (memory_hole_add new_hole holes) /\
  exists before after, holes = before ++ after /\
    memory_hole_add new_hole holes = before ++ new_hole :: after /\
    Forall (fun h => start_pfn h <= start_pfn new_hole) before /\
    Forall (fun h => start_pfn new_hole < start_pfn h) after.
Proof.
  induction holes as [|h hs IH]; intros Hs; simpl.
  - split; [repeat constructor|]. exists [], []. by repeat constructor.
  - apply StronglySorted_inv in Hs as [Hs Hh]. destruct (Z.ltb_spec (start_pfn new_hole) (start_pfn h)).
    + assert (Forall (fun h0 => start_pfn new_hole < start_pfn h0) (h :: hs)).
      { constructor; [done|]. eapply Forall_impl; [exact Hh|]. cbv beta. lia. }
      split; [|exists [], (h :: hs); by split_and!].
      constructor; [by constructor|]. eapply Forall_impl; [eassumption|]. cbv beta. lia.
    + destruct (IH Hs) as (Hs' & bf & af & -> & Heq & Hb & Ha). split.
      * constructor; [done|]. rewrite Heq. apply Forall_app in Hh as [H1 H2].
        apply Forall_app. split; [done|]. by constructor.
      * exists (h :: bf), af. rewrite Heq. split_and!; try done. by constructor.
Qed.

Lemma memory_hole_add_sorted_witness :
  memory_hole_add (Hole 5 6) [Hole 1 2; Hole 8 9] = [Hole 1 2; Hole 5 6; Hole 8 9] /\
  StronglySorted (fun h1 h2 => start_pfn h1 <= start_pfn h2)
    (memory_hole_add (Hole 5 6) [Hole 1 2; Hole 8 9]).
Proof.
  split; [done|]. apply memory_hole_add_sorted. repeat constructor; cbn; lia.
Defined.

(** Pages 8..63, bulk from 40; pages 8..39 and 62 are in use. *)
Definition split_pool : mm () :=
  MM _ [2 ^ 62 + 2 ^ 40 - 1; 2 ^ 64 - 1] 8 64 64 40 40 40 23 23 [Hole 64 64] false (replicate 64 7) ().

(** When [guk_decrease_page_pool] releases pages from more than one free
    run it reports only the last run: asked for 4 pages, with 1 free page at the
    top of the bulk region and 3 below a page in use, it gives 4 pages back to
    the hypervisor and returns 3. *)
Lemma decrease_page_pool_reports_last :
  exists s', guk_decrease_page_pool demo_env 4 split_pool = Ok (3, s') /\
    guk_current_reservation split_pool = 64 /\ guk_current_reservation s' = 60 /\
    memory_hole_list s' = [Hole 59 62; Hole 63 64] /\ num_free_pages s' = num_free_pages split_pool - 4.
Proof. eexists. split; [vm_compute; reflexivity|]. by vm_compute. Qed.
