(* ===== verification/Xmalloc.v ===== *)
(** The small-object allocator: lib/xmalloc.c.

    The allocator takes pages from the page pool through the interface
    [PageSource] (its instance for mm.c is in [XmallocPages]).  Memory blocks
    start with a header; the headers are a map from addresses, and [linked] says
    that a [next] or [prev] pointer of the header is not NULL.  The free list is
    the sequence of the headers on it (list.h is in [ListHead]); following a NULL
    pointer of an entry stops with [BAD_ACCESS].  The file relies on no macro
    named [__cacheline_aligned] being defined (none is): the word declares a
    variable, the header has 24 bytes and is aligned to 8. *)
From S2P Require Import Prelude.

Definition PAGE_SIZE : Z := 4096.
Definition PAGE_MASK : Z := wrap64 (Z.lnot (PAGE_SIZE - 1)).

(** [sizeof(struct xmalloc_hdr)] and its alignment. *)
Definition HDR : Z := 24.
Definition HDR_ALIGN : Z := 8.

(** What the allocator needs of the pool: runs of pages it owns. *)
Class PageSource (M : Type) := {
  guk_allocate_pages : Z -> M -> res (Z * M);
  guk_deallocate_pages : Z -> Z -> M -> res M;
  in_irq : M -> bool;
  pages_ok : M -> Prop;
  (** the [n] pages at [p] are handed out *)
  page_run : M -> Z -> Z -> Prop;
  run_bounds m p n : pages_ok m -> page_run m p n -> 0 < p /\ 1 <= n /\ p + n < 2 ^ 31;
  not_irq m : pages_ok m -> in_irq m = false;
  allocate_law n m : pages_ok m -> 1 <= n < 2 ^ 31 ->
    exists r m', guk_allocate_pages n m = Ok (r, m') /\ pages_ok m' /\
      (forall q k, page_run m q k -> page_run m' q k) /\
      (r = 0 \/ exists p, r = PAGE_SIZE * p /\ page_run m' p n /\
         forall q k, page_run m q k -> q + k <= p \/ p + n <= q);
  deallocate_law p n m : pages_ok m -> page_run m p n ->
    exists m', guk_deallocate_pages (PAGE_SIZE * p) n m = Ok m' /\ pages_ok m' /\
      forall q k, page_run m q k -> q + k <= p \/ p + n <= q -> page_run m' q k
}.

Record xmalloc_hdr := Hdr { size : Z; linked : bool }.

Record heap {M : Type} := Heap {
  hdrs : gmap Z xmalloc_hdr;
  freelist : list Z;
  pages : M;
  bytes : Z -> Z                 (** the contents of the blocks *)
}.
Arguments heap : clear implicits.
Arguments Heap {M}.

Section Code.
Context {M : Type} `{!PageSource M}.
Implicit Types h : heap M.

Definition set_hdr (a : Z) (v : xmalloc_hdr) h : heap M := Heap (<[a := v]> (hdrs h)) (freelist h) (pages h) (bytes h).
Definition set_freelist (l : list Z) h : heap M := Heap (hdrs h) l (pages h) (bytes h).
Definition set_pages (m : M) h : heap M := Heap (hdrs h) (freelist h) m (bytes h).
Definition set_bytes (m : Z -> Z) h : heap M := Heap (hdrs h) (freelist h) (pages h) m.

(** [list_del(&i->freelist)]: the entry keeps its pointers. *)
Definition del (i : Z) h : heap M := set_freelist (filter (fun x => x <> i) (freelist h)) h.

Definition maybe_split (hdr size block : Z) h : heap M :=
  let leftover := wrap64 (block - size) in
  if 2 * HDR <=? leftover then
    let extra := wrap64 (hdr + size) in
    set_hdr hdr (Hdr size false) (set_freelist (extra :: freelist h) (set_hdr extra (Hdr leftover true) h))
  else set_hdr hdr (Hdr block false) h.

Definition xmalloc_new_page (size : Z) h : res (Z * heap M) :=
  '(hdr, m) ← guk_allocate_pages 1 (pages h);
  let h := set_pages m h in
  if hdr =? 0 then Ok (0, h) else Ok (wrap64 (hdr + HDR), maybe_split hdr size PAGE_SIZE h).

Definition align_up (size align : Z) : Z :=
  Z.land (wrap64 (wrap64 (size + align) - 1)) (wrap64 (Z.lnot (align - 1))).

Definition xmalloc_whole_pages (size : Z) h : res (Z * heap M) :=
  let asize := align_up size PAGE_SIZE in
  '(hdr, m) ← guk_allocate_pages (sgn32 (asize / PAGE_SIZE)) (pages h);
  let h := set_pages m h in
  if hdr =? 0 then Ok (0, h) else Ok (wrap64 (hdr + HDR), set_hdr hdr (Hdr asize false) h).

(** An entry of the free list, whose pointers are followed. *)
Definition entry (i : Z) h : res xmalloc_hdr :=
  v ← access (hdrs h !! i); if linked v then Ok v else Bug BAD_ACCESS.

(** [list_for_each_entry(i, &freelist, freelist)]: the first block that is big enough. *)
Fixpoint search (l : list Z) (sz : Z) h : res (option (Z * Z)) :=
  match l with
  | [] => Ok None
  | i :: l => v ← entry i h; if size v <? sz then search l sz h else Ok (Some (i, size v))
  end.

Definition guk_xmalloc (asize : Z) h : res (Z * heap M) :=
  _ ← bug_on (in_irq (pages h));
  let size := align_up (wrap64 (asize + HDR)) HDR_ALIGN in
  if PAGE_SIZE <=? size then xmalloc_whole_pages size h
  else
    r ← search (freelist h) size h;
    match r with
    | Some (i, isize) => Ok (wrap64 (i + HDR), maybe_split i size isize (del i h))
    | None => xmalloc_new_page size h
    end.

(** [list_for_each_entry_safe(i, tmp, &freelist, freelist)] of [guk_xfree]: the
    header of the block after the merges. *)
Fixpoint merge_loop (l : list Z) (hdr : Z) h : res (Z * heap M) :=
  match l with
  | [] => Ok (hdr, h)
  | i :: l =>
      v ← entry i h;
      if negb (Z.land (Z.lxor i hdr) PAGE_MASK =? 0) then merge_loop l hdr h
      else
        '(hdr', h) ← (if wrap64 (i + size v) =? hdr then
                        w ← access (hdrs h !! hdr);
                        Ok (i, set_hdr i (Hdr (wrap64 (size v + size w)) true) (del i h))
                      else Ok (hdr, h));
        w ← access (hdrs h !! hdr');
        if wrap64 (hdr + size w) =? i then
          v ← access (hdrs h !! i);
          merge_loop l hdr' (set_hdr hdr' (Hdr (wrap64 (size w + size v)) (linked w)) (del i h))
        else merge_loop l hdr' h
  end.

Definition guk_xfree (p : Z) h : res (heap M) :=
  _ ← bug_on (in_irq (pages h));
  if p =? 0 then Ok h
  else
    let hdr := wrap64 (p - HDR) in
    if negb (Z.land p PAGE_MASK =? Z.land hdr PAGE_MASK) then Bug BAD_ACCESS
    else
      v ← access (hdrs h !! hdr);
      if linked v then Bug BAD_ACCESS
      else if PAGE_SIZE <=? size v then
        m ← guk_deallocate_pages hdr (sgn32 (size v / PAGE_SIZE)) (pages h); Ok (set_pages m h)
      else
        '(hdr, h) ← merge_loop (freelist h) hdr h;
        v ← access (hdrs h !! hdr);
        if size v =? PAGE_SIZE then
          if negb (Z.land hdr (PAGE_SIZE - 1) =? 0) then Bug BAD_ACCESS
          else m ← guk_deallocate_pages hdr 1 (pages h); Ok (set_pages m h)
        else Ok (set_freelist (hdr :: freelist h) (set_hdr hdr (Hdr (size v) true) h)).

(** [memcpy(dest, src, count)] on the contents. *)
Fixpoint copy_bytes (count : nat) (dest src : Z) (m : Z -> Z) : Z -> Z :=
  match count with
  | O => m
  | S count => copy_bytes count (dest + 1) (src + 1) (fun a => if a =? dest then m src else m a)
  end.

Definition guk_xrealloc (p asize : Z) h : res (Z * heap M) :=
  _ ← bug_on (in_irq (pages h));
  if p =? 0 then guk_xmalloc asize h
  else
    v ← access (hdrs h !! wrap64 (p - HDR));
    let psize := sgn32 (size v - HDR) in
    if asize <=? wrap64 psize then Ok (p, h)
    else
      '(result, h) ← guk_xmalloc asize h;
      if (result =? 0) && negb (psize =? 0) then Bug BAD_ACCESS
      else
        h ← guk_xfree p (set_bytes (copy_bytes (Z.to_nat (wrap64 psize)) result p (bytes h)) h);
        Ok (result, h).

Definition UINT_MAX : Z := 2 ^ 32 - 1.

Definition guk_xmalloc_array (sz num : Z) h : res (Z * heap M) :=
  if negb (sz =? 0) && (UINT_MAX / sz <? num) then Ok (0, h) else guk_xmalloc (wrap64 (sz * num)) h.
End Code.

(** ** Blocks

    The blocks of the heap, by address: their size and whether they are free.
    A page of small blocks is tiled by them; no two free ones are adjacent. *)

Abbreviation blocks := (gmap Z (Z * bool)).

Section Invariant.
Context {M : Type} `{!PageSource M}.
Implicit Types (h : heap M) (B : blocks).

(** The block lies in one page, with room after its header, or is a run of pages. *)
Definition shape (m : M) (a sz : Z) (free : bool) : Prop :=
  (8 | a) /\ (8 | sz) /\ HDR <= sz /\
  exists p, (PAGE_SIZE * p <= a /\ a + HDR < PAGE_SIZE * (p + 1) /\ a + sz <= PAGE_SIZE * (p + 1) /\
             sz < PAGE_SIZE /\ page_run m p 1) \/
            (free = false /\ a = PAGE_SIZE * p /\ exists n, sz = PAGE_SIZE * n /\ page_run m p n).

Definition page_boundary (a : Z) : Prop := exists q, a = PAGE_SIZE * q.

Record blocks_ok (m : M) B : Prop := {
  bk_shape : forall a sz f, B !! a = Some (sz, f) -> shape m a sz f;
  bk_disjoint : forall a sz f b sz' f', B !! a = Some (sz, f) -> B !! b = Some (sz', f') -> a <> b ->
    a + sz <= b \/ b + sz' <= a;
  bk_next : forall a sz f, B !! a = Some (sz, f) -> page_boundary (a + sz) \/ is_Some (B !! (a + sz));
  bk_prev : forall a sz f, B !! a = Some (sz, f) -> page_boundary a \/
    exists b sz' f', B !! b = Some (sz', f') /\ b + sz' = a;
  bk_coalesced : forall a sz sz', B !! a = Some (sz, true) -> B !! (a + sz) = Some (sz', true) -> page_boundary (a + sz)
}.

(** The heap with these blocks; the header of the used block [ex] is not fixed. *)
Record heap_inv (ex : option Z) h B : Prop := {
  hk_pages : pages_ok (pages h);
  hk_blocks : blocks_ok (pages h) B;
  hk_hdrs : forall a sz f, B !! a = Some (sz, f) -> ex <> Some a -> hdrs h !! a = Some (Hdr sz f);
  hk_ex : forall a, ex = Some a -> exists sz, B !! a = Some (sz, false);
  hk_free : forall a, a ∈ freelist h <-> exists sz, B !! a = Some (sz, true);
  hk_nodup : NoDup (freelist h)
}.

Definition heap_ok h B : Prop := heap_inv None h B.

(** *** Changes of the blocks *)

Lemma shape_bounds m a sz f : pages_ok m -> shape m a sz f -> 0 < a /\ 0 < sz /\ a + sz < 2 ^ 43.
Proof.
  intros Hm (_ & _ & Hs & p & Hp). unfold PAGE_SIZE, HDR in *. destruct Hp as [(?&?&?&?&Hr)|(_ & ? & n & ? & Hr)];
    pose proof (run_bounds _ _ _ Hm Hr); lia.
Qed.

Lemma shape_mono m m' a sz f : (forall q k, page_run m q k -> page_run m' q k) -> shape m a sz f -> shape m' a sz f.
Proof.
  intros H (? & ? & ? & p & Hp). split_and!; [done..|]. exists p.
  destruct Hp as [(?&?&?&?&?)|(? & ? & n & ? & ?)]; [left; by split_and!; [..|apply H]|right; split_and!; eauto].
Qed.

Lemma blocks_mono m m' B : (forall q k, page_run m q k -> page_run m' q k) -> blocks_ok m B -> blocks_ok m' B.
Proof. intros H [? ? ? ? ?]. split; try done. intros. eapply shape_mono; eauto. Qed.

(** The block changes between free and used. *)
Lemma blocks_reflag m B a sz f f' :
  blocks_ok m B -> B !! a = Some (sz, f) -> shape m a sz f' ->
  (f' = true -> (forall sz', B !! (a + sz) = Some (sz', true) -> page_boundary (a + sz)) /\
     forall b sz', B !! b = Some (sz', true) -> b + sz' = a -> page_boundary a) ->
  blocks_ok m (<[a := (sz, f')]> B).
Proof.
  intros [Hsh Hdis Hnx Hpv Hco] Ha Hs Hadj. split.
  - intros x szx fx Hx. look Hx; eauto.
  - intros x szx fx y szy fy Hx Hy Hne. look Hx; look Hy; try done; eauto.
  - intros x szx fx Hx. destruct (decide (x + szx = a)) as [->|Hne].
    { right. rewrite lookup_insert_eq. by eexists. }
    rewrite lookup_insert_ne by done. look Hx; eauto.
  - intros x szx fx Hx. assert (exists g, B !! x = Some (szx, g)) as [g Hg] by (look Hx; eauto).
    destruct (Hpv x szx g Hg) as [|(b & szb & fb & Hb & <-)]; [by left|]. right.
    destruct (decide (b = a)) as [->|Hne]; [simplify_eq; exists a, sz, f'; by rewrite lookup_insert_eq|].
    exists b, szb, fb. by rewrite lookup_insert_ne.
  - assert (0 < sz) as Hsz by (destruct Hs as (_ & _ & ? & _); unfold HDR in *; lia).
    intros x szx szx' Hx Hy. destruct (decide (x = a)) as [->|Hxa].
    + rewrite lookup_insert_eq in Hx. injection Hx as <- ->. rewrite lookup_insert_ne in Hy by lia.
      by eapply (proj1 (Hadj eq_refl)).
    + rewrite lookup_insert_ne in Hx by done. destruct (decide (x + szx = a)) as [E|].
      * rewrite E, lookup_insert_eq in Hy. injection Hy as <- ->. rewrite E. by eapply (proj2 (Hadj eq_refl)).
      * rewrite lookup_insert_ne in Hy by done. by eapply Hco.
Qed.

(** A used block that fits in a page is cut in two, the second part free. *)
Lemma blocks_split m B a sz s p :
  blocks_ok m B -> B !! a = Some (sz, false) -> (8 | s) -> HDR <= s -> 2 * HDR <= sz - s ->
  PAGE_SIZE * p <= a -> a + sz <= PAGE_SIZE * (p + 1) -> page_run m p 1 ->
  (forall sz', B !! (a + sz) = Some (sz', true) -> page_boundary (a + sz)) ->
  blocks_ok m (<[a := (s, false)]> (<[a + s := (sz - s, true)]> B)).
Proof.
  intros [Hsh Hdis Hnx Hpv Hco] Ha H8 Hs Hl Hp1 Hp2 Hr Hadj. destruct (Hsh _ _ _ Ha) as (Ha8 & Hsz8 & _).
  assert (forall x szx fx, B !! x = Some (szx, fx) -> x <> a -> a + sz <= x \/ x + szx <= a) as Hd.
  { intros x szx fx Hx Hne. destruct (Hdis x szx fx a sz false); eauto. }
  assert (forall x szx fx, B !! x = Some (szx, fx) -> 0 < szx) as Hpos.
  { intros x szx fx Hx. destruct (Hsh _ _ _ Hx) as (_ & _ & ? & _). unfold HDR in *. lia. }
  unfold HDR in *. split.
  - intros x szx fx Hx. look Hx.
    + split_and!; try done. exists p. left. split_and!; try done; unfold HDR; lia.
    + split_and!; [by apply Z.divide_add_r|by apply Z.divide_sub_r|unfold HDR; lia|]. exists p. left. unfold HDR. split_and!; try done; lia.
    + eauto.
  - intros x szx fx y szy fy Hx Hy Hne. look Hx; look Hy; try lia; eauto.
    + destruct (Hd y szy fy); eauto; lia.
    + destruct (Hd y szy fy); eauto; lia.
    + destruct (Hd x szx fx); eauto; lia.
    + destruct (Hd x szx fx); eauto; lia.
  - intros x szx fx Hx. look Hx.
    + right. rewrite lookup_insert_ne, lookup_insert_eq by lia. by eexists.
    + replace (a + s + (sz - s)) with (a + sz) by lia. destruct (Hnx a sz false Ha) as [|[y Hy]]; [by left|right].
      rewrite !lookup_insert_ne by lia. by eexists.
    + destruct (Hnx x szx fx) as [|[y Hy]]; [done|by left|right].
      destruct (decide (x + szx = a)) as [->|]; [rewrite lookup_insert_eq; by eexists|]. rewrite lookup_insert_ne by done.
      destruct (decide (x + szx = a + s)) as [->|]; [rewrite lookup_insert_eq; by eexists|]. rewrite lookup_insert_ne by done. by eexists.
  - intros x szx fx Hx. look Hx.
    + destruct (Hpv a sz false) as [|(b & szb & fb & Hb & Hbe)]; [done|by left|right].
      exists b, szb, fb. rewrite !lookup_insert_ne; [done| |].
      * intros <-. destruct (Hd (a + s) szb fb); try done; specialize (Hpos _ _ _ Hb); lia.
      * intros <-. specialize (Hpos _ _ _ Hb). lia.
    + right. exists a, s, false. by rewrite lookup_insert_eq.
    + destruct (Hpv x szx fx) as [|(b & szb & fb & Hb & Hbe)]; [done|by left|right].
      destruct (decide (b = a)) as [->|].
      { simplify_eq. exists (a + s), (sz - s), true. rewrite lookup_insert_ne, lookup_insert_eq by lia. split; [done|lia]. }
      exists b, szb, fb. rewrite !lookup_insert_ne; [done| |done].
      intros <-. destruct (Hd (a + s) szb fb); try done; specialize (Hpos _ _ _ Hb); lia.
  - intros x szx szx' Hx Hy. look Hx; look Hy; try lia.
    + assert (a + s + (sz - s) = a + sz) as E by lia. rewrite E in Hy |- *. by eapply Hadj.
    + pose proof (Hpos _ _ _ Hx). destruct (Hd x szx true); try done; lia.
    + eauto.
Qed.

(** A run of pages from the pool becomes a block. *)
Lemma blocks_add m B p n :
  pages_ok m -> blocks_ok m B -> page_run m p n ->
  (forall x szx fx, B !! x = Some (szx, fx) -> x + szx <= PAGE_SIZE * p \/ PAGE_SIZE * (p + n) <= x) ->
  blocks_ok m (<[PAGE_SIZE * p := (PAGE_SIZE * n, false)]> B).
Proof.
  intros Hm [Hsh Hdis Hnx Hpv Hco] Hr Hd. destruct (run_bounds _ _ _ Hm Hr) as (? & ? & ?).
  assert (forall x szx fx, B !! x = Some (szx, fx) -> 0 < szx) as Hpos.
  { intros x szx fx Hx. destruct (Hsh _ _ _ Hx) as (_ & _ & ? & _). unfold HDR in *. lia. }
  assert (B !! (PAGE_SIZE * p) = None) as Hnone.
  { destruct (B !! (PAGE_SIZE * p)) as [[szx fx]|] eqn:E; [|done]. specialize (Hd _ _ _ E). specialize (Hpos _ _ _ E). unfold PAGE_SIZE in *. lia. }
  split.
  - intros x szx fx Hx. look Hx; [|eauto]. unfold shape, PAGE_SIZE, HDR in *. split_and!.
    + exists (512 * p). lia.
    + exists (512 * n). lia.
    + lia.
    + exists p. right. eauto.
  - intros x szx fx y szy fy Hx Hy Hne. look Hx; look Hy; try done; eauto.
    + destruct (Hd y szy fy); [done|lia..].
    + destruct (Hd x szx fx); [done|lia..].
  - intros x szx fx Hx. look Hx; [left; exists (p + n); lia|]. destruct (Hnx x szx fx) as [|[y Hy]]; [done|by left|right].
    rewrite lookup_insert_ne; [by eexists|congruence].
  - intros x szx fx Hx. look Hx; [left; by exists p|]. destruct (Hpv x szx fx) as [|(b & szb & fb & Hb & Hbe)]; [done|by left|right].
    exists b, szb, fb. rewrite lookup_insert_ne; [done|congruence].
  - intros x szx szx' Hx Hy. look Hx; look Hy; eauto.
Qed.

(** A block that is a run of pages goes back to the pool. *)
Lemma blocks_drop m m' B p n :
  blocks_ok m B -> B !! (PAGE_SIZE * p) = Some (PAGE_SIZE * n, false) -> 1 <= n ->
  (forall q k, page_run m q k -> q + k <= p \/ p + n <= q -> page_run m' q k) ->
  blocks_ok m' (delete (PAGE_SIZE * p) B).
Proof.
  intros [Hsh Hdis Hnx Hpv Hco] Ha Hn Hr.
  assert (forall x szx fx, B !! x = Some (szx, fx) -> x <> PAGE_SIZE * p -> x + szx <= PAGE_SIZE * p \/ PAGE_SIZE * (p + n) <= x) as Hd.
  { intros x szx fx Hx Hne. destruct (Hdis x szx fx (PAGE_SIZE * p) (PAGE_SIZE * n) false); [done..|left|right]; lia. }
  split.
  - intros x szx fx Hx. look Hx. specialize (Hd x szx fx).
    destruct (Hsh x szx fx) as (? & ? & ? & q & Hq); [done|]. unfold shape. split_and!; [done..|]. exists q. unfold PAGE_SIZE, HDR in *.
    destruct Hq as [(?&?&?&?&?)|(? & ? & k & ? & ?)].
    + left. split_and!; [done..|]. apply Hr; [done|]. destruct Hd; [done|done|lia..].
    + right. split_and!; [done..|]. exists k. split; [done|]. apply Hr; [done|]. destruct Hd; [done|done|lia..].
  - intros x szx fx y szy fy Hx Hy. look Hx; look Hy. eauto.
  - intros x szx fx Hx. look Hx. destruct (decide (x + szx = PAGE_SIZE * p)) as [E|]; [left; by exists p|].
    rewrite lookup_delete_ne by done. eauto.
  - intros x szx fx Hx. look Hx. destruct (Hpv x szx fx) as [|(b & szb & fb & Hb & Hbe)]; [done|by left|].
    destruct (decide (b = PAGE_SIZE * p)) as [->|].
    + simplify_eq. left. exists (p + n). lia.
    + right. exists b, szb, fb. by rewrite lookup_delete_ne.
  - intros x szx szx' Hx Hy. look Hx; look Hy. eauto.
Qed.

(** Two adjacent blocks of a page become one used block. *)
Lemma blocks_merge m B a sa fa sb fb :
  blocks_ok m B -> B !! a = Some (sa, fa) -> B !! (a + sa) = Some (sb, fb) -> ~ page_boundary (a + sa) ->
  blocks_ok m (<[a := (sa + sb, false)]> (delete (a + sa) B)) /\ sa + sb <= PAGE_SIZE.
Proof.
  intros [Hsh Hdis Hnx Hpv Hco] Ha Hb Hnb.
  assert (forall x szx fx, B !! x = Some (szx, fx) -> 0 < szx) as Hpos.
  { intros x szx fx Hx. destruct (Hsh _ _ _ Hx) as (_ & _ & ? & _). unfold HDR in *. lia. }
  pose proof (Hpos _ _ _ Ha). pose proof (Hpos _ _ _ Hb).
  assert (shape m a (sa + sb) false /\ sa + sb <= PAGE_SIZE) as [Hs Hle].
  { destruct (Hsh _ _ _ Ha) as (? & ? & ? & p & Hp), (Hsh _ _ _ Hb) as (? & ? & ? & q & Hq). unfold PAGE_SIZE, HDR in *.
    destruct Hp as [(?&?&?&?&?)|(_ & ? & n & ? & ?)]; [|destruct Hnb; exists (p + n); unfold PAGE_SIZE; lia].
    destruct Hq as [(?&?&?&?&?)|(_ & ? & n & ? & ?)]; [|destruct Hnb; by exists q].
    assert (a + sa <> 4096 * (p + 1)) by (intros E; destruct Hnb; by exists (p + 1)). assert (q = p) as -> by lia.
    split; [|lia]. unfold shape, HDR, PAGE_SIZE. split_and!; [done|by apply Z.divide_add_r|lia|]. exists p.
    destruct (decide (sa + sb = 4096)); [right; split_and!; [done|lia|exists 1; split; [lia|done]]|left; split_and!; [done|lia|lia|lia|done]]. }
  assert (forall x szx fx, B !! x = Some (szx, fx) -> x <> a -> x <> a + sa -> a + sa + sb <= x \/ x + szx <= a) as Hd.
  { intros x szx fx Hx H1 H2. specialize (Hpos _ _ _ Hx). destruct (Hdis x szx fx a sa fa), (Hdis x szx fx (a + sa) sb fb); eauto; lia. }
  split; [split|done].
  - intros x szx fx Hx. look Hx; eauto.
  - intros x szx fx y szy fy Hx Hy Hne. look Hx; look Hy; try done; eauto.
    + destruct (Hd y szy fy); eauto; lia.
    + destruct (Hd x szx fx); eauto; lia.
  - intros x szx fx Hx. look Hx.
    + destruct (Hnx _ _ _ Hb) as [?|[y Hy]]; [left; by replace (a + (sa + sb)) with (a + sa + sb) by lia|right].
      replace (a + (sa + sb)) with (a + sa + sb) by lia. rewrite lookup_insert_ne, lookup_delete_ne by lia. by eexists.
    + destruct (Hnx x szx fx) as [|[y Hy]]; [done|by left|right].
      destruct (decide (x + szx = a)) as [->|]; [rewrite lookup_insert_eq; by eexists|]. rewrite lookup_insert_ne by done.
      rewrite lookup_delete_ne; [by eexists|]. intros E. assert (x <> a) by congruence.
      assert (0 < szx) by eauto. destruct (Hd x szx fx); try done; lia.
  - intros x szx fx Hx. look Hx.
    + destruct (Hpv _ _ _ Ha) as [|(b & szb & fb' & Hb' & Hbe)]; [by left|right]. specialize (Hpos _ _ _ Hb').
      exists b, szb, fb'. rewrite lookup_insert_ne, lookup_delete_ne by lia. done.
    + destruct (Hpv x szx fx) as [|(b & szb & fb' & Hb' & Hbe)]; [done|by left|right].
      destruct (decide (b = a + sa)) as [->|].
      { simplify_eq. exists a, (sa + sb), false. rewrite lookup_insert_eq. split; [done|lia]. }
      destruct (decide (b = a)) as [->|]; [simplify_eq; congruence|].
      exists b, szb, fb'. rewrite lookup_insert_ne, lookup_delete_ne by done. done.
  - intros x szx szx' Hx Hy. look Hx; look Hy. eauto.
Qed.

(** *** Masks *)

Lemma land_mask k x : 0 <= k < 64 -> 0 <= x < 2 ^ 64 -> Z.land x (wrap64 (Z.lnot (2 ^ k - 1))) = 2 ^ k * (x / 2 ^ k).
Proof.
  intros Hk Hx. rewrite Z.mul_comm, <- Z.shiftl_mul_pow2, <- Z.shiftr_div_pow2 by lia.
  apply Z.bits_inj'. intros i Hi. rewrite Z.land_spec, Z.shiftl_spec, wrap_testbit by lia. rewrite Z.lnot_spec by lia.
  replace (2 ^ k - 1) with (Z.ones k) by (rewrite Z.ones_equiv; lia). rewrite Z.testbit_ones_nonneg by lia.
  destruct (Z.ltb_spec i k).
  - rewrite andb_false_r. rewrite andb_false_r. by rewrite Z.testbit_neg_r by lia.
  - rewrite Z.shiftr_spec by lia. replace (i - k + k) with i by lia. case_bool_decide; [by rewrite andb_true_r|].
    cbn [andb]. rewrite andb_false_r. symmetry. destruct (decide (x = 0)) as [->|]; [by rewrite Z.testbit_0_l|].
    apply Z.bits_above_log2; [lia|]. assert (Z.log2 x < 64) by (apply Z.log2_lt_pow2; lia). lia.
Qed.

Lemma page_mask x : 0 <= x < 2 ^ 64 -> Z.land x PAGE_MASK = 4096 * (x / 4096).
Proof. intros. exact (land_mask 12 x ltac:(lia) ltac:(lia)). Qed.

Lemma page_of x q : PAGE_SIZE * q <= x < PAGE_SIZE * (q + 1) -> x / 4096 = q.
Proof. unfold PAGE_SIZE. intros. symmetry. apply (Z.div_unique_pos _ _ _ (x - 4096 * q)); lia. Qed.

Lemma same_page_test i a p q :
  PAGE_SIZE * p <= i < PAGE_SIZE * (p + 1) -> PAGE_SIZE * q <= a < PAGE_SIZE * (q + 1) -> 0 <= p < 2 ^ 40 -> 0 <= q < 2 ^ 40 ->
  (Z.land (Z.lxor i a) PAGE_MASK =? 0) = bool_decide (p = q).
Proof.
  intros Hi Ha Hp Hq.
  assert (Z.land (Z.lxor i a) PAGE_MASK = Z.lxor (Z.land i PAGE_MASK) (Z.land a PAGE_MASK)) as ->.
  { apply Z.bits_inj'. intros k _. rewrite Z.land_spec, !Z.lxor_spec, !Z.land_spec. by destruct (Z.testbit i k), (Z.testbit a k), (Z.testbit PAGE_MASK k). }
  rewrite !page_mask by (unfold PAGE_SIZE in *; lia).
  rewrite (page_of i p), (page_of a q) by done. case_bool_decide as E.
  - subst. by rewrite Z.lxor_nilpotent.
  - apply Z.eqb_neq. intros H%Z.lxor_eq. lia.
Qed.

Lemma align_up_spec k size :
  0 <= k < 32 -> 0 <= size < 2 ^ 60 ->
  (2 ^ k | align_up size (2 ^ k)) /\ size <= align_up size (2 ^ k) < size + 2 ^ k.
Proof.
  intros Hk Hs. unfold align_up. assert (0 < 2 ^ k <= 2 ^ 32) by (split; [lia|apply Z.pow_le_mono_r; lia]).
  rewrite (wrap_small 64 (size + 2 ^ k)), (wrap_small 64 (_ - 1)) by lia. rewrite land_mask by lia.
  split; [apply Z.divide_factor_l|].
  pose proof (Z.div_mod (size + 2 ^ k - 1) (2 ^ k)). pose proof (Z.mod_pos_bound (size + 2 ^ k - 1) (2 ^ k)). lia.
Qed.

(** *** Allocation *)

(** The other used blocks are as before. *)
Definition same_used (a : Z) B B' : Prop := forall x szx, x <> a -> B' !! x = Some (szx, false) <-> B !! x = Some (szx, false).

Lemma split_ok h B a sz s p :
  heap_inv (Some a) h B -> B !! a = Some (sz, false) -> (8 | s) -> HDR <= s <= sz -> 0 <= p < 2 ^ 31 ->
  PAGE_SIZE * p <= a -> a + sz <= PAGE_SIZE * (p + 1) -> page_run (pages h) p 1 ->
  (forall sz', B !! (a + sz) = Some (sz', true) -> page_boundary (a + sz)) ->
  exists sz' B', heap_ok (maybe_split a s sz h) B' /\ B' !! a = Some (sz', false) /\ s <= sz' /\ same_used a B B' /\
    bytes (maybe_split a s sz h) = bytes h.
Proof.
  intros [Hp Hb Hh He Hf Hn] Ha H8 Hs Hp0 Hp1 Hp2 Hr Hadj. unfold maybe_split, HDR, PAGE_SIZE in *.
  rewrite (wrap_small 64 (sz - s)) by lia. destruct (Z.leb_spec (2 * 24) (sz - s)).
  - rewrite wrap_small by lia.
    assert (B !! (a + s) = None) as Hnone.
    { destruct (B !! (a + s)) as [[szx fx]|] eqn:E; [|done]. destruct (bk_shape _ _ Hb _ _ _ E) as (_ & _ & ? & _). unfold HDR in *.
      destruct (bk_disjoint _ _ Hb _ _ _ _ _ _ E Ha); lia. }
    exists s, (<[a := (s, false)]> (<[a + s := (sz - s, true)]> B)). splits; [split|by rewrite lookup_insert_eq|lia| |done].
    + done.
    + apply (blocks_split _ B a sz s p); unfold HDR, PAGE_SIZE; try done; lia.
    + intros x szx fx Hx _. cbn [hdrs set_hdr set_freelist]. look Hx.
      * by rewrite lookup_insert_eq.
      * by rewrite lookup_insert_ne, lookup_insert_eq by done.
      * rewrite !lookup_insert_ne by done. apply Hh; congruence.
    + done.
    + intros x. cbn [freelist set_hdr set_freelist]. rewrite elem_of_cons, Hf. destruct (decide (x = a + s)) as [->|].
      { rewrite lookup_insert_ne, lookup_insert_eq by lia. naive_solver. }
      destruct (decide (x = a)) as [->|].
      { rewrite lookup_insert_eq, Ha. naive_solver. }
      rewrite !lookup_insert_ne by done. naive_solver.
    + cbn [freelist set_hdr set_freelist]. apply NoDup_cons. split; [|done]. rewrite Hf, Hnone. naive_solver.
    + intros x szx Hx. rewrite lookup_insert_ne by done. destruct (decide (x = a + s)) as [->|].
      * rewrite lookup_insert_eq, Hnone. naive_solver.
      * by rewrite lookup_insert_ne.
  - exists sz, B. splits; [split; try done| done|lia|done|done].
    intros x szx fx Hx _. cbn [hdrs set_hdr]. destruct (decide (x = a)) as [->|].
    + rewrite lookup_insert_eq. congruence.
    + rewrite lookup_insert_ne by done. apply Hh; congruence.
Qed.

Lemma elem_of_del (i x : Z) (l : list Z) : x ∈ filter (fun y => y <> i) l <-> x ∈ l /\ x <> i.
Proof. rewrite list_elem_of_filter. tauto. Qed.

Lemma take_ok h B a sz :
  heap_ok h B -> B !! a = Some (sz, true) -> heap_inv (Some a) (del a h) (<[a := (sz, false)]> B).
Proof.
  intros [Hp Hb Hh He Hf Hn] Ha. split.
  - done.
  - apply (blocks_reflag _ B a sz true); [done..| |done].
    destruct (bk_shape _ _ Hb _ _ _ Ha) as (? & ? & ? & p & [?|[? _]]); [|done]. unfold shape. eauto 10.
  - intros x szx fx Hx Hne. look Hx; [congruence|]. by apply Hh.
  - intros x [= <-]. exists sz. by rewrite lookup_insert_eq.
  - intros x. cbn [del freelist set_freelist]. rewrite elem_of_del, Hf. destruct (decide (x = a)) as [->|].
    + rewrite lookup_insert_eq. naive_solver.
    + rewrite lookup_insert_ne by done. naive_solver.
  - by apply NoDup_filter.
Qed.

Lemma search_spec h B sz l :
  heap_ok h B -> (forall i, i ∈ l -> i ∈ freelist h) ->
  exists r, search l sz h = Ok r /\
    match r with
    | Some (i, isz) => B !! i = Some (isz, true) /\ sz <= isz
    | None => forall i isz, i ∈ l -> B !! i = Some (isz, true) -> isz < sz
    end.
Proof.
  intros Hok. induction l as [|i l IH]; intros Hl; cbn [search].
  { exists None. split; [done|]. intros i isz H. by apply elem_of_nil in H. }
  destruct (proj1 (hk_free _ _ _ Hok i) (Hl i ltac:(by left))) as [isz Hi].
  unfold entry. rewrite (hk_hdrs _ _ _ Hok i isz true Hi) by done. cbn [access mbind res_bind linked size].
  destruct (Z.ltb_spec isz sz).
  - destruct IH as (r & -> & Hr); [intros; apply Hl; by right|]. exists r. split; [done|].
    destruct r as [[]|]; [done|]. intros x xsz Hx Hb. apply elem_of_cons in Hx as [->|Hx]; [|by eapply Hr].
    rewrite Hi in Hb. by injection Hb as <-.
  - by exists (Some (i, isz)).
Qed.

(** Pages from the pool that become a block. *)
Lemma add_ok h B m p n :
  heap_ok h B -> pages_ok m -> (forall q k, page_run (pages h) q k -> page_run m q k) -> page_run m p n ->
  (forall q k, page_run (pages h) q k -> q + k <= p \/ p + n <= q) ->
  heap_inv (Some (PAGE_SIZE * p)) (set_pages m h) (<[PAGE_SIZE * p := (PAGE_SIZE * n, false)]> B) /\
  B !! (PAGE_SIZE * p) = None /\
  forall x szx fx, B !! x = Some (szx, fx) -> x + szx <= PAGE_SIZE * p \/ PAGE_SIZE * (p + n) <= x.
Proof.
  intros [Hp Hb Hh He Hf Hn] Hm Hmono Hr Hfresh. destruct (run_bounds _ _ _ Hm Hr) as (? & ? & ?).
  assert (forall x szx fx, B !! x = Some (szx, fx) -> x + szx <= PAGE_SIZE * p \/ PAGE_SIZE * (p + n) <= x) as Hd.
  { intros x szx fx Hx. destruct (bk_shape _ _ Hb x szx fx Hx) as (_ & _ & ? & q & Hq). unfold PAGE_SIZE, HDR in *.
    destruct Hq as [(?&?&?&?&?)|(_ & ? & k & ? & ?)]; edestruct (Hfresh q); eauto; lia. }
  assert (B !! (PAGE_SIZE * p) = None) as Hnone.
  { destruct (B !! (PAGE_SIZE * p)) as [[szx fx]|] eqn:E; [|done]. destruct (bk_shape _ _ Hb _ _ _ E) as (_ & _ & ? & _).
    specialize (Hd _ _ _ E). unfold PAGE_SIZE, HDR in *. lia. }
  splits; [split|done|done].
  - done.
  - apply blocks_add; [done|by eapply blocks_mono|done|done].
  - intros x szx fx Hx Hne. look Hx; [congruence|]. by apply Hh.
  - intros x [= <-]. exists (PAGE_SIZE * n). by rewrite lookup_insert_eq.
  - intros x. change (freelist (set_pages m h)) with (freelist h). rewrite Hf. destruct (decide (x = PAGE_SIZE * p)) as [->|].
    + rewrite lookup_insert_eq, Hnone. naive_solver.
    + by rewrite lookup_insert_ne.
  - done.
Qed.

(** The outcome of an allocation of [asize] bytes: a fresh used block with room
    for them behind its header, the other used blocks untouched; or 0, with the
    blocks as before. *)
Definition allocated (asize : Z) h B (r : Z) h' : Prop :=
  bytes h' = bytes h /\
  ((r = 0 /\ heap_ok h' B) \/
   (exists a sz B', r = a + HDR /\ heap_ok h' B' /\ B' !! a = Some (sz, false) /\ HDR + asize <= sz /\
      (forall szx, B !! a <> Some (szx, false)) /\ same_used a B B')).

Lemma pages_mono_ok h B m :
  heap_ok h B -> pages_ok m -> (forall q k, page_run (pages h) q k -> page_run m q k) -> heap_ok (set_pages m h) B.
Proof. intros [? ? ? ? ? ?] ? ?. split; try done. by eapply blocks_mono. Qed.

Lemma hdr_addr a sz f m : pages_ok m -> shape m a sz f -> wrap64 (a + HDR) = a + HDR.
Proof. intros Hm Hs. destruct (shape_bounds _ _ _ _ Hm Hs) as (? & ? & ?). apply wrap_small. unfold HDR. lia. Qed.

Lemma new_page_spec h B sz :
  heap_ok h B -> (8 | sz) -> HDR <= sz <= PAGE_SIZE ->
  exists r h', xmalloc_new_page sz h = Ok (r, h') /\ allocated (sz - HDR) h B r h'.
Proof.
  intros Hok H8 Hsz. unfold xmalloc_new_page.
  destruct (allocate_law 1 (pages h) (hk_pages _ _ _ Hok) ltac:(lia)) as (a & m & -> & Hm & Hmono & Ha).
  cbn [mbind res_bind]. destruct Ha as [->|(p & -> & Hr & Hfresh)].
  { eexists _, _. split; [done|]. split; [done|]. left. split; [done|]. by eapply pages_mono_ok. }
  destruct (run_bounds _ _ _ Hm Hr) as (? & ? & ?). unfold PAGE_SIZE in *.
  rewrite (proj2 (Z.eqb_neq _ _)) by lia.
  destruct (add_ok h B m p 1 Hok Hm Hmono Hr Hfresh) as (Hinv & Hnone & Hd). unfold PAGE_SIZE in *.
  change (4096 * 1) with 4096 in *.
  destruct (split_ok (set_pages m h) _ (4096 * p) 4096 sz p Hinv) as (sz' & B' & Hok' & Hb' & Hle & Hsame & Hby);
    [by rewrite lookup_insert_eq|done|lia|lia|unfold PAGE_SIZE; lia..|done| |].
  { intros sz' _. exists (p + 1). unfold PAGE_SIZE. lia. }
  rewrite wrap_small by (unfold HDR; lia). eexists _, _. split; [done|]. split; [by rewrite Hby|].
  right. exists (4096 * p), sz', B'. splits; try done; [lia|congruence|].
  intros x szx Hx. rewrite (Hsame x szx Hx). by rewrite lookup_insert_ne.
Qed.

Lemma whole_pages_spec h B sz :
  heap_ok h B -> HDR <= sz < 2 ^ 42 ->
  exists r h', xmalloc_whole_pages sz h = Ok (r, h') /\ allocated (sz - HDR) h B r h'.
Proof.
  intros Hok Hsz. unfold xmalloc_whole_pages.
  destruct (align_up_spec 12 sz) as [[n Hn] Hup]; [lia|unfold HDR in *; lia|]. change (2 ^ 12) with 4096 in *.
  unfold PAGE_SIZE, HDR in *. rewrite Hn in *. rewrite Z.div_mul by lia.
  rewrite sgn_small by lia.
  destruct (allocate_law n (pages h) (hk_pages _ _ _ Hok) ltac:(lia)) as (a & m & -> & Hm & Hmono & Ha).
  cbn [mbind res_bind]. destruct Ha as [->|(p & -> & Hr & Hfresh)].
  { eexists _, _. split; [done|]. split; [done|]. left. split; [done|]. by eapply pages_mono_ok. }
  destruct (run_bounds _ _ _ Hm Hr) as (? & ? & ?). unfold PAGE_SIZE in *. rewrite (proj2 (Z.eqb_neq _ _)) by lia.
  destruct (add_ok h B m p n Hok Hm Hmono Hr Hfresh) as ([Hp Hb Hh He Hf Hnd] & Hnone & Hd). unfold PAGE_SIZE in *.
  rewrite wrap_small by lia. eexists _, _. split; [done|]. split; [done|].
  right. exists (4096 * p), (4096 * n), (<[4096 * p := (4096 * n, false)]> B).
  splits; [done|split; try done|by rewrite lookup_insert_eq|unfold HDR; lia|congruence|].
  - intros x szx fx Hx _. cbn [hdrs set_hdr]. rewrite (Z.mul_comm n). destruct (decide (x = 4096 * p)) as [->|Hne].
    + rewrite lookup_insert_eq in Hx. rewrite lookup_insert_eq. by injection Hx as <- <-.
    + rewrite lookup_insert_ne by done. apply Hh; [done|congruence].
  - intros x szx Hx. by rewrite lookup_insert_ne.
Qed.

Lemma xmalloc_spec h B asize :
  heap_ok h B -> 0 <= asize < 2 ^ 41 ->
  exists r h', guk_xmalloc asize h = Ok (r, h') /\ allocated asize h B r h'.
Proof.
  intros Hok Hs. unfold guk_xmalloc. rewrite not_irq by apply Hok. cbn [bug_on mbind res_bind].
  rewrite wrap_small by (unfold HDR; lia). destruct (align_up_spec 3 (asize + HDR)) as [H8 Hup]; [lia|unfold HDR; lia|].
  change (2 ^ 3) with HDR_ALIGN in *. set (sz := align_up _ _) in *. unfold HDR_ALIGN in *.
  assert (forall r h', allocated (sz - HDR) h B r h' -> allocated asize h B r h') as Hweak.
  { intros r h' (? & [?|(a & szx & B' & ? & ? & ? & ? & ? & ?)]); (split; [done|]); [by left|]. right.
    exists a, szx, B'. splits; try done. lia. }
  destruct (Z.leb_spec PAGE_SIZE sz) as [Hbig|Hsmall].
  - destruct (whole_pages_spec h B sz Hok) as (r & h' & -> & ?); [unfold HDR in *; lia|]. eauto.
  - destruct (search_spec h B sz (freelist h) Hok) as (o & -> & Ho); [done|]. cbn [mbind res_bind].
    destruct o as [[i isz]|].
    + destruct Ho as [Hi Hle]. pose proof (take_ok h B i isz Hok Hi) as Hinv.
      pose proof (bk_shape _ _ (hk_blocks _ _ _ Hok) _ _ _ Hi) as Hsh.
      pose proof Hsh as (? & ? & ? & p & [(?&?&?&?&Hr)|(? & _)]); [|done].
      destruct (run_bounds _ _ _ (hk_pages _ _ _ Hok) Hr) as (? & _ & ?).
      destruct (split_ok (del i h) _ i isz sz p Hinv) as (sz' & B' & Hok' & Hb' & Hle' & Hsame & Hby);
        [by rewrite lookup_insert_eq|done|lia|lia|done|done|done| |].
      { intros sz' Hadj. rewrite lookup_insert_ne in Hadj by (unfold HDR in *; lia).
        by eapply (bk_coalesced _ _ (hk_blocks _ _ _ Hok)). }
      rewrite (hdr_addr _ _ _ _ (hk_pages _ _ _ Hok) Hsh).
      eexists _, _. split; [done|]. split; [by rewrite Hby|]. right. exists i, sz', B'.
      splits; try done; [lia|congruence|]. intros x szx Hx. rewrite (Hsame x szx Hx). by rewrite lookup_insert_ne.
    + destruct (new_page_spec h B sz Hok) as (r & h' & -> & ?); [done|lia|]. eauto.
Qed.

End Invariant.
