(* ===== verification/XmallocProps.v ===== *)
(** Freeing and reallocating blocks of the small-object allocator: merging with free
    neighbours, returning whole pages, copying. *)
From S2P Require Import Prelude Xmalloc.

Section Free.
Context {M : Type} `{!PageSource M}.
Implicit Types (h : heap M) (B : blocks).

(** ** Merging *)

(** The free blocks other than those of [l] are not next to the block at [a]. *)
Definition apart (l : list Z) B (a sz : Z) : Prop :=
  forall f szf, B !! f = Some (szf, true) -> f ∉ l ->
    (f + szf = a -> page_boundary a) /\ (a + sz = f -> page_boundary f).

(** The block lies in the page [p]. *)
Definition in_page (m : M) (a sz p : Z) : Prop :=
  PAGE_SIZE * p <= a /\ a + sz <= PAGE_SIZE * (p + 1) /\ 0 < sz /\ 0 < p < 2 ^ 31 /\ page_run m p 1.

Lemma free_in_page h B i si ex :
  heap_inv ex h B -> B !! i = Some (si, true) -> exists q, in_page (pages h) i si q.
Proof.
  intros Hok Hi. destruct (bk_shape _ _ (hk_blocks _ _ _ Hok) _ _ _ Hi) as (_ & _ & ? & q & [(?&?&?&?&Hr)|(? & _)]); [|done].
  destruct (run_bounds _ _ _ (hk_pages _ _ _ Hok) Hr) as (? & _ & ?). exists q. unfold in_page, HDR in *. splits; done || lia.
Qed.

Lemma boundary_not_inside a p : PAGE_SIZE * p < a < PAGE_SIZE * (p + 1) -> ~ page_boundary a.
Proof. unfold PAGE_SIZE. intros Ha [q Hq]. unfold PAGE_SIZE in *. lia. Qed.

(** The used block at [a] and the free block at [b] behind it become one. *)
Lemma merge_ok h B a sa fa b sb fb ex v i :
  heap_inv (Some ex) h B -> B !! a = Some (sa, fa) -> B !! b = Some (sb, fb) -> b = a + sa -> ~ page_boundary b ->
  (ex = a /\ fb = true /\ i = b) \/ (ex = b /\ fa = true /\ i = a) ->
  heap_inv (Some a) (set_hdr a v (del i h)) (<[a := (sa + sb, false)]> (delete b B)).
Proof.
  intros [Hp Hb Hh He Hf Hn] Ha Hbb -> Hnb Hor.
  destruct (blocks_merge _ B a sa fa sb fb Hb Ha Hbb Hnb) as [Hbl _].
  destruct (bk_shape _ _ Hb _ _ _ Ha) as (_ & _ & Hsa & _). unfold HDR in *. split.
  - done.
  - done.
  - intros x szx fx Hx Hne. cbn [hdrs set_hdr del set_freelist]. look Hx; [congruence|]. rewrite lookup_insert_ne by done.
    apply Hh; [done|]. intros [= ->]. naive_solver.
  - intros x [= <-]. exists (sa + sb). by rewrite lookup_insert_eq.
  - intros x. cbn [freelist set_hdr del set_freelist]. rewrite elem_of_del, Hf. destruct (He ex eq_refl) as [se Hex].
    destruct (decide (x = a)) as [->|].
    { rewrite lookup_insert_eq, Ha. naive_solver. }
    rewrite lookup_insert_ne by done. destruct (decide (x = a + sa)) as [->|].
    { rewrite lookup_delete_eq, Hbb. naive_solver. }
    rewrite lookup_delete_ne by done. naive_solver.
  - by apply NoDup_filter.
Qed.

(** What the merges leave: the used block of [sz] bytes at [a] has grown into one
    at [a'] that no free block is next to; the other used blocks are untouched. *)
Definition merged h B (a sz : Z) h' B' (a' : Z) : Prop :=
  exists sz' lk p, a' <= a /\ a + sz <= a' + sz' /\ heap_inv (Some a') h' B' /\ B' !! a' = Some (sz', false) /\ hdrs h' !! a' = Some (Hdr sz' lk) /\
    in_page (pages h') a' sz' p /\ apart [] B' a' sz' /\ pages h' = pages h /\ bytes h' = bytes h /\
    (forall x szx, x <> a -> B !! x = Some (szx, false) -> x <> a' /\ B' !! x = Some (szx, false)) /\
    (forall x szx, x <> a' -> B' !! x = Some (szx, false) -> x <> a /\ B !! x = Some (szx, false)).

Lemma merged_step h B a sz h1 B1 a1 sz1 h' B' a' :
  merged h1 B1 a1 sz1 h' B' a' -> a1 <= a -> a + sz <= a1 + sz1 -> pages h1 = pages h -> bytes h1 = bytes h ->
  (forall x szx, x <> a -> B !! x = Some (szx, false) -> x <> a1 /\ B1 !! x = Some (szx, false)) ->
  (forall x szx, x <> a1 -> B1 !! x = Some (szx, false) -> x <> a /\ B !! x = Some (szx, false)) ->
  merged h B a sz h' B' a'.
Proof.
  intros (sz' & lk & p & ? & ? & ? & ? & ? & ? & ? & ? & ? & A1 & A2) ? ? ? ? A3 A4. exists sz', lk, p. splits; try done; try congruence; try lia.
  - intros x szx Hne Hx. destruct (A3 x szx Hne Hx). by apply A1.
  - intros x szx Hne Hx. destruct (A2 x szx Hne Hx). by apply A4.
Qed.

Lemma merge_loop_spec l h B a sz lk p :
  heap_inv (Some a) h B -> B !! a = Some (sz, false) -> hdrs h !! a = Some (Hdr sz lk) -> in_page (pages h) a sz p ->
  NoDup l -> (forall i, i ∈ l -> i ∈ freelist h) -> apart l B a sz ->
  exists a' h' B', merge_loop l a h = Ok (a', h') /\ merged h B a sz h' B' a'.
Proof.
  revert h B a sz lk. induction l as [|i l IH]; intros h B a sz lk Hinv Ha Hhd Hpg Hnd Hl Hap.
  { exists a, h, B. split; [done|]. exists sz, lk, p. splits; done || lia. }
  apply NoDup_cons in Hnd as [Hil Hnd].
  destruct (proj1 (hk_free _ _ _ Hinv i) (Hl i ltac:(by left))) as [si Hi].
  destruct (free_in_page _ _ _ _ _ Hinv Hi) as [q Hq].
  assert (i <> a) as Hne by congruence.
  cbn [merge_loop]. unfold entry. rewrite (hk_hdrs _ _ _ Hinv i si true Hi) by congruence.
  cbn [access mbind res_bind linked size].
  destruct Hpg as (P1 & P2 & P3 & P4 & P5), Hq as (Q1 & Q2 & Q3 & Q4 & Q5). unfold PAGE_SIZE in *.
  rewrite (same_page_test i a q p) by (unfold PAGE_SIZE; lia).
  assert (forall f, f ∉ l -> f <> i -> f ∉ i :: l) as Hcons by (intros; by apply not_elem_of_cons).
  case_bool_decide as Heq; cbn [negb].
  2:{ apply (IH h B a sz lk); [done|done|done|by splits|done|intros; apply Hl; by right|].
      intros f szf Hf Hfl. destruct (decide (f = i)) as [->|]; [|apply Hap; auto]. simplify_eq.
      split; intros E; [exists (q + 1)|exists q]; unfold PAGE_SIZE; lia. }
  subst q. rewrite (wrap_small 64 (i + si)) by lia. rewrite Hhd. cbn [access mbind res_bind size].
  assert (forall j, j ∈ l -> j ∈ filter (fun x => x <> i) (freelist h)) as Hl'.
  { intros j Hj. apply elem_of_del. split; [apply Hl; by right|]. by intros ->. }
  destruct (Z.eqb_spec (i + si) a) as [E|E]; cbn [mbind res_bind].
  - (* [i] precedes the block *)
    assert (~ page_boundary a) as Hnb by (apply (boundary_not_inside a p); unfold PAGE_SIZE; lia).
    rewrite (wrap_small 64 (si + sz)) by lia.
    cbn [hdrs set_hdr del set_freelist]. rewrite lookup_insert_eq. cbn [access mbind res_bind size linked].
    rewrite wrap_small by lia. rewrite (proj2 (Z.eqb_neq (a + (si + sz)) i)) by lia.
    pose proof (merge_ok h B i si true a sz false a (Hdr (si + sz) true) i Hinv Hi Ha ltac:(lia) Hnb ltac:(tauto)) as Hinv1.
    edestruct (IH _ _ i (si + sz) true Hinv1) as (a' & h' & B' & -> & Hm); try done.
    + by rewrite lookup_insert_eq.
    + cbn. by rewrite lookup_insert_eq.
    + unfold in_page, PAGE_SIZE. cbn. splits; done || lia.
    + intros f szf Hf Hfl. look Hf. destruct (Hap f szf) as [_ H2]; [done|by apply Hcons; congruence|].
      split; [|intros; apply H2; lia]. intros E'. rewrite <- E' in Hi. rewrite <- E'.
      by eapply (bk_coalesced _ _ (hk_blocks _ _ _ Hinv)).
    + exists a', h', B'. split; [done|]. eapply merged_step; [exact Hm|lia|lia|done|done| |].
      * intros x szx Hx Hxb. assert (x <> i) by congruence. split; [done|]. by rewrite lookup_insert_ne, lookup_delete_ne by done.
      * intros x szx Hx Hxb. look Hxb; [done|]. by split.
  - rewrite Hhd. cbn [access mbind res_bind size linked]. rewrite wrap_small by lia.
    destruct (Z.eqb_spec (a + sz) i) as [E'|E'].
    + (* [i] follows the block *)
      rewrite (hk_hdrs _ _ _ Hinv i si true Hi) by congruence. cbn [access mbind res_bind size].
      assert (~ page_boundary i) as Hnb by (apply (boundary_not_inside i p); unfold PAGE_SIZE; lia).
      rewrite (wrap_small 64 (sz + si)) by lia.
      pose proof (merge_ok h B a sz false i si true a (Hdr (sz + si) lk) i Hinv Ha Hi ltac:(lia) Hnb ltac:(tauto)) as Hinv1.
      edestruct (IH _ _ a (sz + si) lk Hinv1) as (a' & h' & B' & Hm1 & Hm); try done.
      * by rewrite lookup_insert_eq.
      * cbn. by rewrite lookup_insert_eq.
      * unfold in_page, PAGE_SIZE. cbn. splits; done || lia.
      * intros f szf Hf Hfl. look Hf. destruct (Hap f szf) as [H2 _]; [done|by apply Hcons; congruence|].
        split; [done|]. intros E2. subst i. replace f with (a + sz + si) in * by lia.
        by eapply (bk_coalesced _ _ (hk_blocks _ _ _ Hinv)).
      * exists a', h', B'. split; [exact Hm1|]. eapply merged_step; [exact Hm|lia|lia|done|done| |].
        -- intros x szx Hx Hxb. assert (x <> i) by congruence. split; [done|]. by rewrite lookup_insert_ne, lookup_delete_ne by done.
        -- intros x szx Hx Hxb. look Hxb; [done|]. by split.
    + apply (IH h B a sz lk); [done|done|done|by splits|done|intros; apply Hl; by right|].
      intros f szf Hf Hfl. destruct (decide (f = i)) as [->|]; [|apply Hap; auto]. simplify_eq. split; intros; lia.
Qed.
(** ** Freeing *)

(** The used blocks without the one at [a]. *)
Definition without (a : Z) B B' : Prop :=
  forall x szx, B' !! x = Some (szx, false) <-> x <> a /\ B !! x = Some (szx, false).

Lemma drop_ok h B ex p n :
  heap_inv ex h B -> (forall x, ex = Some x -> x = PAGE_SIZE * p) -> B !! (PAGE_SIZE * p) = Some (PAGE_SIZE * n, false) ->
  page_run (pages h) p n ->
  exists m, guk_deallocate_pages (PAGE_SIZE * p) n (pages h) = Ok m /\
    heap_ok (set_pages m h) (delete (PAGE_SIZE * p) B) /\ without (PAGE_SIZE * p) B (delete (PAGE_SIZE * p) B).
Proof.
  intros [Hp Hb Hh He Hf Hn] Hex Ha Hr. destruct (run_bounds _ _ _ Hp Hr) as (? & ? & ?).
  destruct (deallocate_law p n (pages h) Hp Hr) as (m & -> & Hm & Hkeep). exists m. splits; [done|split|].
  - done.
  - by eapply blocks_drop.
  - intros x szx fx Hx _. look Hx. apply Hh; [done|]. intros ->. by destruct Hn0; rewrite (Hex x).
  - done.
  - intros x. change (freelist (set_pages m h)) with (freelist h). rewrite Hf. destruct (decide (x = PAGE_SIZE * p)) as [->|].
    + rewrite lookup_delete_eq, Ha. naive_solver.
    + by rewrite lookup_delete_ne.
  - done.
  - intros x szx. rewrite lookup_delete_Some. naive_solver.
Qed.

Lemma put_ok h B a sz p :
  heap_inv (Some a) h B -> B !! a = Some (sz, false) -> in_page (pages h) a sz p -> sz <> PAGE_SIZE -> apart [] B a sz ->
  heap_ok (set_freelist (a :: freelist h) (set_hdr a (Hdr sz true) h)) (<[a := (sz, true)]> B) /\
  without a B (<[a := (sz, true)]> B).
Proof.
  intros [Hp Hb Hh He Hf Hn] Ha (P1 & P2 & P3 & P4 & P5) Hsz Hap. split; [split|].
  - done.
  - apply (blocks_reflag _ B a sz false); [done|done| |].
    + destruct (bk_shape _ _ Hb _ _ _ Ha) as (? & ? & ? & q & Hq). unfold shape, PAGE_SIZE, HDR in *. split_and!; [done..|].
      exists p. left. destruct Hq as [(?&?&?&?&?)|(_ & ? & n & ? & Hr)].
      * assert (q = p) as -> by lia. by split_and!.
      * destruct (run_bounds _ _ _ Hp Hr). lia.
    + intros _. split.
      * intros sz' Hx. by eapply (Hap _ _ Hx (not_elem_of_nil _)).
      * intros b sz' Hx. by eapply (Hap _ _ Hx (not_elem_of_nil _)).
  - intros x szx fx Hx _. cbn [hdrs set_hdr set_freelist]. look Hx; [by rewrite lookup_insert_eq|]. rewrite lookup_insert_ne by done.
    apply Hh; congruence.
  - done.
  - intros x. cbn [freelist set_hdr set_freelist]. rewrite elem_of_cons, Hf. destruct (decide (x = a)) as [->|].
    + rewrite lookup_insert_eq. naive_solver.
    + rewrite lookup_insert_ne by done. naive_solver.
  - cbn [freelist set_hdr set_freelist]. apply NoDup_cons. split; [|done]. rewrite Hf, Ha. naive_solver.
  - intros x szx. rewrite lookup_insert_Some. naive_solver.
Qed.

Lemma header_page h B a sz f :
  heap_ok h B -> B !! a = Some (sz, f) -> 0 < a /\ a + HDR < 2 ^ 43 /\ Z.land (a + HDR) PAGE_MASK = Z.land a PAGE_MASK.
Proof.
  intros Hok Ha. pose proof (bk_shape _ _ (hk_blocks _ _ _ Hok) _ _ _ Ha) as Hs.
  destruct (shape_bounds _ _ _ _ (hk_pages _ _ _ Hok) Hs) as (? & ? & ?). destruct Hs as (_ & _ & ? & q & Hq).
  split; [done|]. split; [lia|]. rewrite !page_mask by (unfold HDR in *; lia). f_equal. unfold PAGE_SIZE, HDR in *.
  destruct Hq as [(?&?&?&?&?)|(_ & ? & n & ? & Hr)]; rewrite (page_of a q), (page_of _ q); unfold PAGE_SIZE; lia.
Qed.

Lemma page_offset p : 0 <= p -> Z.land (PAGE_SIZE * p) (PAGE_SIZE - 1) = 0.
Proof. intros. change (PAGE_SIZE - 1) with (Z.ones 12). rewrite Z.land_ones by lia. unfold PAGE_SIZE. rewrite Z.mul_comm. by apply Z.mod_mul. Qed.

(** No used block but the one at [a] starts in the page [p]. *)
Definition last_of_page (a p : Z) B : Prop :=
  forall x szx, B !! x = Some (szx, false) -> PAGE_SIZE * p <= x < PAGE_SIZE * (p + 1) -> x = a.

(** No block starts in the [n] pages at [p]. *)
Definition no_block (p n : Z) B : Prop := forall x v, B !! x = Some v -> ~ (PAGE_SIZE * p <= x < PAGE_SIZE * (p + n)).

(** Where the [sz] bytes of the block at [a] go: whole pages are handed back to
    the page source, and so is the page of a small block that was the last one
    used there; else the bytes become part of a free block of the page. *)
Definition taken_back h B (a sz : Z) h' B' : Prop :=
  (exists p n, a = PAGE_SIZE * p /\ sz = PAGE_SIZE * n /\ 1 <= n /\
     guk_deallocate_pages (PAGE_SIZE * p) n (pages h) = Ok (pages h') /\ no_block p n B') \/
  (exists p, PAGE_SIZE * p <= a /\ a + sz <= PAGE_SIZE * (p + 1) /\ sz < PAGE_SIZE /\
     ((last_of_page a p B /\ guk_deallocate_pages (PAGE_SIZE * p) 1 (pages h) = Ok (pages h') /\ no_block p 1 B') \/
      (~ last_of_page a p B /\ pages h' = pages h /\
       exists b szb, B' !! b = Some (szb, true) /\ PAGE_SIZE * p <= b <= a /\ a + sz <= b + szb <= PAGE_SIZE * (p + 1)))).

Lemma no_block_drop m B p n :
  blocks_ok m B -> 1 <= n -> B !! (PAGE_SIZE * p) = Some (PAGE_SIZE * n, false) -> no_block p n (delete (PAGE_SIZE * p) B).
Proof.
  intros Hb Hn Ha x [szx fx] Hx. look Hx. pose proof (bk_shape _ _ Hb _ _ _ Hx) as (_ & _ & ? & _).
  destruct (bk_disjoint _ _ Hb _ _ _ _ _ _ Hx Ha); unfold HDR, PAGE_SIZE in *; [congruence|lia|lia].
Qed.

(** A used block of a page that is not the whole page leaves a used neighbour. *)
Lemma neighbour_used m B a sz p :
  pages_ok m -> blocks_ok m B -> B !! a = Some (sz, false) -> in_page m a sz p -> sz < PAGE_SIZE -> apart [] B a sz ->
  exists x szx, x <> a /\ B !! x = Some (szx, false) /\ PAGE_SIZE * p <= x < PAGE_SIZE * (p + 1).
Proof.
  intros Hm Hb Ha (P1 & P2 & P3 & P4 & P5) Hsz Hap. unfold PAGE_SIZE in *.
  destruct (decide (a + sz = 4096 * (p + 1))) as [E|E].
  - assert (~ page_boundary a) as Hnb by (apply (boundary_not_inside a p); unfold PAGE_SIZE; lia).
    destruct (bk_prev _ _ Hb _ _ _ Ha) as [|(b & szb & fb & Hbb & Hbe)]; [done|].
    pose proof (bk_shape _ _ Hb _ _ _ Hbb) as (_ & _ & ? & q & Hq). unfold HDR, PAGE_SIZE in *.
    exists b, szb. destruct fb; [by destruct Hnb; eapply (Hap _ _ Hbb (not_elem_of_nil _))|].
    destruct Hq as [(?&?&?&?&_)|(_ & ? & n & ? & _)]; [|destruct Hnb; exists (q + n); unfold PAGE_SIZE; lia].
    assert (q = p) as -> by lia. splits; [lia|done|lia..].
  - assert (~ page_boundary (a + sz)) as Hnb by (apply (boundary_not_inside _ p); unfold PAGE_SIZE; lia).
    destruct (bk_next _ _ Hb _ _ _ Ha) as [|[[szb fb] Hbb]]; [done|]. exists (a + sz), szb.
    destruct fb; [by destruct Hnb; eapply (Hap _ _ Hbb (not_elem_of_nil _))|]. splits; [lia|done|lia..].
Qed.

Lemma xfree_small h B a sz q :
  heap_ok h B -> B !! a = Some (sz, false) -> sz < PAGE_SIZE -> in_page (pages h) a sz q ->
  exists h' B', ('(hdr, h) ← merge_loop (freelist h) a h;
      v ← access (hdrs h !! hdr);
      if size v =? PAGE_SIZE then
        if negb (Z.land hdr (PAGE_SIZE - 1) =? 0) then Bug BAD_ACCESS
        else m ← guk_deallocate_pages hdr 1 (pages h); Ok (set_pages m h)
      else Ok (set_freelist (hdr :: freelist h) (set_hdr hdr (Hdr (size v) true) h))) = Ok h' /\
    heap_ok h' B' /\ without a B B' /\ bytes h' = bytes h /\ taken_back h B a sz h' B'.
Proof.
  intros Hok Ha Hsz Hin.
  assert (heap_inv (Some a) h B) as Hinv.
  { destruct Hok as [? ? Hhh ? ? ?]. split; try done; [intros; by apply Hhh|intros x [= <-]; eauto]. }
  destruct (merge_loop_spec (freelist h) h B a sz false q) as (a' & h1 & B1 & -> & Hm); try done.
  { by apply Hok. }
  { apply Hok. }
  { intros f szf Hf Hnin. destruct Hnin. apply (hk_free _ _ _ Hok). eauto. }
  destruct Hm as (sz' & lk & p & C1 & C2 & Hinv1 & Ha' & Hh' & Hpg & Hap & Hpp & Hby & U1 & U2).
  cbn [mbind res_bind]. rewrite Hh'. cbn [access mbind res_bind size].
  assert (forall B2, without a' B1 B2 -> without a B B2) as Hw.
  { intros B2 Hw x szx. rewrite (Hw x szx). split; [intros [? ?]; by apply U2|intros [? ?]; by apply U1]. }
  pose proof Hpg as (P1 & P2 & P3 & P4 & P5). destruct Hin as (I1 & I2 & I3 & _).
  assert (q = p) as -> by (unfold PAGE_SIZE in *; lia).
  destruct (Z.eqb_spec sz' PAGE_SIZE) as [->|Hne].
  - assert (a' = PAGE_SIZE * p) as -> by (unfold PAGE_SIZE in *; lia).
    rewrite page_offset by lia. rewrite Z.eqb_refl. cbn [negb].
    assert (B1 !! (PAGE_SIZE * p) = Some (PAGE_SIZE * 1, false)) as Ha1 by (by rewrite Z.mul_1_r).
    destruct (drop_ok h1 B1 (Some (PAGE_SIZE * p)) p 1 Hinv1) as (m & Hd & Hok' & Hw'); [congruence|done|done|].
    rewrite Hd. cbn [mbind res_bind]. eexists _, _. splits; [done|done|by apply Hw|done|]. right. exists p. splits; [done..|].
    left. splits; [|by rewrite <- Hpp|by eapply no_block_drop; [apply Hinv1|lia|]].
    intros x szx Hx Hxp. destruct (decide (x = a)) as [|Hxa]; [done|]. destruct (U1 x szx Hxa Hx) as [Hx' Hx1].
    pose proof (bk_shape _ _ (hk_blocks _ _ _ Hinv1) _ _ _ Hx1) as (_ & _ & ? & _).
    destruct (bk_disjoint _ _ (hk_blocks _ _ _ Hinv1) _ _ _ _ _ _ Hx1 Ha'); [done|unfold HDR, PAGE_SIZE in *; lia..].
  - destruct (put_ok h1 B1 a' sz' p Hinv1 Ha' Hpg Hne Hap) as [Hok' Hw']. eexists _, _. splits; [done|done|by apply Hw|done|].
    right. exists p. splits; [done..|]. right. splits; [|done|].
    + intros Hlast. destruct (neighbour_used (pages h1) B1 a' sz' p) as (x & szx & Hxa & Hx & Hxp); try done; [apply Hinv1|apply Hinv1|unfold PAGE_SIZE in *; lia|].
      destruct (U2 x szx Hxa Hx) as [Hne' Hx0]. by specialize (Hlast x szx Hx0 Hxp).
    + exists a', sz'. rewrite lookup_insert_eq. by splits.
Qed.

Lemma xfree_spec h B a sz :
  heap_ok h B -> B !! a = Some (sz, false) ->
  exists h' B', guk_xfree (a + HDR) h = Ok h' /\ heap_ok h' B' /\ without a B B' /\ bytes h' = bytes h /\ taken_back h B a sz h' B'.
Proof.
  intros Hok Ha. destruct (header_page h B a sz false Hok Ha) as (Ha0 & Ha1 & Hmask).
  unfold guk_xfree. rewrite not_irq by apply Hok. cbn [bug_on mbind res_bind]. unfold HDR in *.
  rewrite (proj2 (Z.eqb_neq (a + 24) 0)) by lia. cbv zeta. replace (a + 24 - 24) with a by lia. rewrite wrap_small by lia.
  rewrite Hmask, Z.eqb_refl. cbn [negb]. pose proof (hk_hdrs _ _ _ Hok a sz false Ha) as Hh. rewrite Hh by done.
  cbn [access mbind res_bind linked size]. pose proof (bk_shape _ _ (hk_blocks _ _ _ Hok) _ _ _ Ha) as (? & ? & ? & q & Hq).
  destruct (Z.leb_spec PAGE_SIZE sz) as [Hbig|Hsmall].
  - destruct Hq as [(?&?&?&?&?)|(_ & -> & n & -> & Hr)]; [lia|]. destruct (run_bounds _ _ _ (hk_pages _ _ _ Hok) Hr) as (? & ? & ?).
    replace (PAGE_SIZE * n / PAGE_SIZE) with n by (rewrite Z.mul_comm; by rewrite Z.div_mul). rewrite sgn_small by lia.
    destruct (drop_ok h B None q n Hok) as (m & Hd & Hok' & Hw); [done..|]. rewrite Hd. cbn [mbind res_bind].
    eexists _, _. splits; [done|done|done|done|]. left. exists q, n. splits; try done. by eapply no_block_drop; [apply Hok|lia|].
  - destruct Hq as [(?&?&?&?&Hr)|(_ & -> & n & -> & Hr)].
    2:{ destruct (run_bounds _ _ _ (hk_pages _ _ _ Hok) Hr). unfold PAGE_SIZE in *. lia. }
    destruct (run_bounds _ _ _ (hk_pages _ _ _ Hok) Hr) as (? & ? & ?).
    apply (xfree_small h B a sz q); [done..|]. unfold in_page, HDR in *. splits; done || lia.
Qed.

(** ** Reallocation *)

Lemma copy_bytes_spec n d s m x :
  d + Z.of_nat n <= s \/ s + Z.of_nat n <= d ->
  copy_bytes n d s m x = if bool_decide (d <= x < d + Z.of_nat n) then m (s + (x - d)) else m x.
Proof.
  revert d s m. induction n as [|n IH]; intros d s m Hd; simpl.
  { by rewrite bool_decide_eq_false_2 by lia. }
  rewrite IH by lia. repeat case_bool_decide; try lia.
  - rewrite (proj2 (Z.eqb_neq _ _)) by lia. f_equal. lia.
  - assert (x = d) as -> by lia. rewrite Z.eqb_refl. f_equal. lia.
  - by rewrite (proj2 (Z.eqb_neq _ _)) by lia.
Qed.

Lemma heap_ok_bytes h B m : heap_ok h B -> heap_ok (set_bytes m h) B.
Proof. intros []. by split. Qed.

Lemma xrealloc_spec h B a sz asize :
  heap_ok h B -> B !! a = Some (sz, false) -> sz < 2 ^ 31 -> 0 <= asize < 2 ^ 41 ->
  (asize <= sz - HDR /\ guk_xrealloc (a + HDR) asize h = Ok (a + HDR, h)) \/
  (sz - HDR < asize /\ exists r h1, guk_xmalloc asize h = Ok (r, h1) /\
   ((r = 0 /\ sz <> HDR /\ guk_xrealloc (a + HDR) asize h = Bug BAD_ACCESS) \/
    (r = 0 /\ sz = HDR /\ exists h' B', guk_xrealloc (a + HDR) asize h = Ok (0, h') /\ heap_ok h' B' /\ without a B B') \/
    exists h' b szb B1 B', r = b + HDR /\ guk_xrealloc (a + HDR) asize h = Ok (b + HDR, h') /\ heap_ok h' B' /\
      B1 !! b = Some (szb, false) /\ HDR + asize <= szb /\ (forall szx, B !! b <> Some (szx, false)) /\
      same_used b B B1 /\ without a B1 B' /\
      (forall k, 0 <= k < sz - HDR -> bytes h' (b + HDR + k) = bytes h (a + HDR + k)) /\
      (forall x, ~ (b <= x < b + szb) -> bytes h' x = bytes h x))).
Proof.
  intros Hok Ha Hsz Has. destruct (header_page h B a sz false Hok Ha) as (Ha0 & Ha1 & _).
  destruct (bk_shape _ _ (hk_blocks _ _ _ Hok) _ _ _ Ha) as (_ & _ & Hs & _).
  unfold guk_xrealloc. rewrite not_irq by apply Hok. cbn [bug_on mbind res_bind].
  rewrite (proj2 (Z.eqb_neq (a + HDR) 0)) by (unfold HDR; lia).
  replace (a + HDR - HDR) with a by lia. rewrite (wrap_small 64 a) by (unfold HDR in *; lia).
  rewrite (hk_hdrs _ _ _ Hok a sz false Ha) by done. cbn [access mbind res_bind size].
  rewrite (sgn_small 32) by (unfold HDR in *; lia). rewrite wrap_small by (unfold HDR in *; lia).
  destruct (Z.leb_spec asize (sz - HDR)) as [Hle|Hgt]; [by left|right]. split; [done|].
  destruct (xmalloc_spec h B asize Hok Has) as (r & h1 & -> & Hby & Hr). exists r, h1. split; [done|]. cbn [mbind res_bind].
  destruct Hr as [[-> Hok1]|(b & szb & B1 & -> & Hok1 & Hb & Hszb & Hnew & Hsame)].
  - destruct (Z.eqb_spec (sz - HDR) 0) as [E|E]; [|left; splits; [done|lia|done]].
    right. left. cbn [andb negb Z.eqb]. split; [done|]. split; [lia|].
    rewrite E. change (copy_bytes (Z.to_nat 0) 0 (a + HDR) (bytes h1)) with (bytes h1).
    destruct (xfree_spec (set_bytes (bytes h1) h1) B a sz (heap_ok_bytes _ _ _ Hok1) Ha) as (h' & B' & -> & Hok' & Hw & _).
    cbn [mbind res_bind]. eauto 10.
  - right. right. destruct (header_page h1 B1 b szb false Hok1 Hb) as (Hb0 & _).
    rewrite (proj2 (Z.eqb_neq (b + HDR) 0)) by (unfold HDR; lia). cbn [andb].
    assert (a <> b) as Hab by (intros <-; by apply (Hnew sz)).
    assert (B1 !! a = Some (sz, false)) as Ha' by (by apply Hsame).
    set (m := copy_bytes _ _ _ _).
    destruct (xfree_spec (set_bytes m h1) B1 a sz (heap_ok_bytes _ _ _ Hok1) Ha') as (h' & B' & -> & Hok' & Hw & Hby' & _).
    cbn [mbind res_bind]. exists h', b, szb, B1, B'. rewrite Hby'. subst m. cbn [bytes set_bytes].
    assert (a + sz <= b \/ b + szb <= a) as Hdis by (by eapply (bk_disjoint _ _ (hk_blocks _ _ _ Hok1))).
    splits; try done.
    + intros k Hk. rewrite copy_bytes_spec by (unfold HDR in *; lia). rewrite bool_decide_eq_true_2 by (unfold HDR in *; lia). rewrite Hby. f_equal. lia.
    + intros x Hx. rewrite copy_bytes_spec by (unfold HDR in *; lia). rewrite bool_decide_eq_false_2; [by rewrite Hby|]. unfold HDR in *. lia.
Qed.
End Free.
