(* ===== verification/XmallocPages.v ===== *)
(** The page pool of mm.c as the source of pages of the small-object allocator,
    and the properties of the allocator. *)
From S2P Require Import Prelude Bitmap PageAlloc PagePool PagePoolProps Xmalloc XmallocProps.

(** ** The page pool keeps its promise *)

Section Instance_.
Context {A : Type} (E : mm_env A) `{!env_ok E}.
Implicit Types s : mm A.

(** The pages [p, p+n) were handed out by the region for [n] pages. *)
Definition pool_run s (p n : Z) : Prop :=
  1 <= n /\ (if is_bulk n then first_bulk_page s else first_alloc_page s) <= p /\ p + n <= end_alloc_page s /\
  forall q, p <= q < p + n -> used q s.

Lemma pool_run_bounds s p n : pool_ok s -> pool_run s p n -> 0 < p /\ 1 <= n /\ p + n < 2 ^ 31.
Proof.
  intros Hok (? & Hp & ? & _). pose proof (ok_bounds s Hok). destruct (is_bulk n); lia.
Qed.

(** What growing the pool and taking pages keep. *)
Definition later s s' : Prop := bounds_kept s s' /\ forall p, used p s -> used p s'.

Lemma later_run s s' p n : later s s' -> pool_run s p n -> pool_run s' p n.
Proof.
  intros [(_ & E1 & E2 & ?) Hu] (? & ? & ? & Hq). unfold pool_run. rewrite E1, E2. splits; [done|done|lia|]. intros q Hq'. apply Hu, Hq. done.
Qed.

Lemma alloc_later_trans s1 s2 s3 : later s1 s2 -> later s2 s3 -> later s1 s3.
Proof.
  intros [(? & ? & ? & ?) U1] [(? & ? & ? & ?) U2]. split; [unfold bounds_kept; splits; congruence || lia|]. auto.
Qed.

Lemma grows_later n s s1 :
  pool_ok s -> 1 <= n < 2 ^ 31 -> rtc (grows (increase_memory_holding_lock E) n) s s1 -> pool_ok s1 /\ later s s1.
Proof using env_ok0.
  intros Hok Hn. induction 1 as [s|s s1 s2 (k & Hk & _) _ IH]; [split; [done|split; [|done]]; unfold bounds_kept; splits; lia|].
  rewrite wrap_small in Hk by lia. destruct (increase_memory_spec E n s) as (k' & s' & Hk' & Hok' & _ & _ & Hb & Hu); [done|lia|].
  rewrite Hk' in Hk. injection Hk as -> ->. destruct (IH Hok') as [? ?]. split; [done|]. by eapply alloc_later_trans; [split|].
Qed.

Lemma taken_later bulk n p s s' :
  pool_ok s -> 0 <= p -> taken bulk n p s s' -> later s s' /\ forall q, p <= q < p + n -> page_bit (alloc_bitmap s') q = true.
Proof.
  intros Hok Hp Htk. destruct (tk_range _ _ _ _ _ Htk) as (_ & _ & Hbit).
  destruct (tk_same _ _ _ _ _ Htk) as (? & ? & ? & ? & Hh & _). split; [split|].
  - unfold bounds_kept. splits; lia.
  - intros q (Hq & Hqb & Hqh). unfold used. rewrite Hh, Hbit by done. splits; [done|by case_bool_decide|done].
  - intros q Hq. rewrite Hbit by lia. by rewrite bool_decide_eq_true_2.
Qed.

(** A run of free pages of the pool is in no hole. *)
Lemma free_no_hole s q :
  pool_ok s -> page_bit (alloc_bitmap s) q = false -> Forall (fun h => ~ (start_pfn h <= q < end_pfn h)) (memory_hole_list s).
Proof.
  intros Hok Hq. eapply Forall_impl; [apply (ok_holes s Hok)|]. cbv beta. intros h (_ & _ & _ & _ & Hb) Hin. by rewrite Hb in Hq.
Qed.

Lemma pool_allocate_law n s :
  pool_ok s -> 1 <= n < 2 ^ 31 ->
  exists r s', PageAlloc.guk_allocate_pages E n s = Ok (r, s') /\ pool_ok s' /\
    (forall q k, pool_run s q k -> pool_run s' q k) /\
    (r = 0 \/ exists p, r = Xmalloc.PAGE_SIZE * p /\ pool_run s' p n /\
       forall q k, pool_run s q k -> q + k <= p \/ p + n <= q).
Proof using env_ok0.
  intros Hok Hn. destruct (allocate_pages_spec E n s Hok Hn) as (r & s' & Hr & Hok' & Ho). exists r, s'. splits; [done|done| |].
  - destruct Ho as [(_ & s1 & Hg & Hi & _)|(b & s1 & p & Hg & _ & _ & Hff & _ & Htk)];
      destruct (grows_later n s s1 Hok Hn Hg) as [Hok1 Hl1]; intros q k Hq; eapply later_run; try exact Hq;
      (eapply alloc_later_trans; [exact Hl1|]).
    + rewrite wrap_small in Hi by lia.
      destruct (increase_memory_spec E n s1) as (k' & s2 & Hk' & _ & _ & _ & Hb & Hu); [done|lia|].
      rewrite Hk' in Hi. injection Hi as -> ->. by split.
    + destruct (region_covered b s1 Hok1) as (Hc1 & _). destruct Hff as (Hlo & _). by apply (taken_later b n p); [|lia|].
  - destruct Ho as [(-> & _)|(b & s1 & p & Hg & -> & _ & (Hlo & Hhi & Hrun & _) & Hb & Htk)]; [by left|right].
    destruct (grows_later n s s1 Hok Hn Hg) as [Hok1 Hl1]. destruct (region_covered b s1 Hok1) as (Hc1 & Hc2 & _).
    destruct (taken_later b n p s1 s' Hok1 ltac:(lia) Htk) as [[(K1 & K2 & K3 & K4) Hu] Hbits].
    destruct (tk_same _ _ _ _ _ Htk) as (_ & _ & _ & _ & Hh & _). exists p. splits; [done| |].
    + unfold pool_run. splits; [lia| |lia|].
      * rewrite K2, K3. pose proof (ok_first_free_bulk s1 Hok1). pose proof (ok_first_free s1 Hok1).
        destruct (is_bulk n) eqn:Hbn; [|lia]. destruct b; [simpl in *; lia|]. destruct (Hb ltac:(done)). done.
      * intros q Hq. unfold used. rewrite Hh. splits; [lia|by apply Hbits|]. apply free_no_hole; [done|by apply Hrun].
    + intros q k Hq. pose proof (later_run _ _ _ _ Hl1 Hq) as (Hk1 & _ & _ & Hused).
      destruct (decide (q + k <= p)); [by left|]. destruct (decide (p + n <= q)); [by right|]. exfalso.
      destruct (Hused (Z.max p q)) as (_ & Hbit & _); [lia|]. rewrite Hrun in Hbit by lia. done.
Qed.

Lemma pool_deallocate_law p n s :
  pool_ok s -> pool_run s p n ->
  exists s', PageAlloc.guk_deallocate_pages E (Xmalloc.PAGE_SIZE * p) n s = Ok s' /\ pool_ok s' /\
    forall q k, pool_run s q k -> q + k <= p \/ p + n <= q -> pool_run s' q k.
Proof using env_ok0.
  intros Hok Hrun. pose proof Hrun as (Hn & Hlo & Hhi & Hu). pose proof (pool_run_bounds s p n Hok Hrun) as (? & _ & ?).
  destruct (deallocate_pages_spec E p n s Hok Hn) as (s' & Hs' & Hrl).
  { unfold in_use. splits; [done|done|intros q Hq; by apply Hu|].
    apply Forall_forall. intros h Hin. destruct (decide (end_pfn h <= p)); [by left|].
    destruct (decide (p + n <= start_pfn h)); [by right; left|]. right. right. destruct (decide (end_pfn h <= start_pfn h)); [done|].
    destruct (Hu (Z.max p (start_pfn h))) as (_ & _ & Hf); [lia|]. rewrite Forall_forall in Hf. specialize (Hf h Hin). lia. }
  exists s'. splits; [done|apply Hrl|]. intros q k Hq Hdis.
  destruct (rl_range _ _ _ _ Hrl) as (_ & _ & Hbit). destruct (rl_same _ _ _ _ Hrl) as (E1 & E2 & _ & E3 & E4 & _).
  destruct Hq as (Hk & Hq1 & Hq2 & Hq3). unfold pool_run. rewrite E1, E2, E3. splits; [done..|].
  intros x Hx. destruct (Hq3 x Hx) as (Hx0 & Hxb & Hxh). unfold used. rewrite E4, Hbit by done. splits; [done| |done].
  by rewrite bool_decide_eq_false_2 by lia.
Qed.

Lemma pool_not_irq s : pool_ok s -> PageAlloc.in_irq E = false.
Proof using env_ok0. intros _. apply not_in_irq. Qed.

Definition pool_source : PageSource (mm A) :=
  Build_PageSource (mm A) (PageAlloc.guk_allocate_pages E) (PageAlloc.guk_deallocate_pages E) (fun _ => PageAlloc.in_irq E)
    pool_ok pool_run pool_run_bounds pool_not_irq pool_allocate_law pool_deallocate_law.
End Instance_.

(** ** A concrete heap *)

#[export] Instance demo_source : PageSource (mm ()) := pool_source demo_env.

Definition demo_heap : heap (mm ()) := Heap ∅ [] demo_pool (fun a => a mod 256).

Lemma demo_heap_ok : heap_ok demo_heap ∅.
Proof.
  split; [exact demo_pool_ok|by split|done|done| |constructor].
  intros a. simpl. rewrite elem_of_nil. split; [done|by intros [? ?]].
Qed.

(** The heap after two allocations. *)
Definition demo_allocs : res (Z * Z * heap (mm ())) :=
  '(p, h) ← guk_xmalloc 100 demo_heap; '(q, h) ← guk_xmalloc 200 h; Ok (p, q, h).

Lemma demo_allocs_value : (x ← demo_allocs; Ok (fst x)) = Ok (4096 * 10 + 24, 4096 * 10 + 128 + 24).
Proof. by vm_compute. Qed.

(** ** Properties *)

(** C6: [guk_xmalloc] either returns 0 and leaves every block as it was, or
    returns the address behind the header of a block that was not in use, with
    room for the requested size; all other used blocks keep their place and
    size.  The heap stays well formed: blocks do not overlap, they tile the pages
    they share, and no two free neighbours remain. *)
Theorem xmalloc_fresh {M} `{!PageSource M} (h : heap M) B asize :
  heap_ok h B -> 0 <= asize < 2 ^ 41 ->
  exists r h', guk_xmalloc asize h = Ok (r, h') /\ allocated asize h B r h'.
Proof. apply xmalloc_spec. Qed.

Lemma xmalloc_fresh_witness :
  exists h', guk_xmalloc 100 demo_heap = Ok (4096 * 10 + 24, h') /\ allocated 100 demo_heap ∅ (4096 * 10 + 24) h'.
Proof.
  destruct (xmalloc_fresh demo_heap ∅ 100 demo_heap_ok ltac:(lia)) as (r & h' & Hr & Ha).
  assert (r = 4096 * 10 + 24) as ->; [|by exists h'].
  assert ((x ← guk_xmalloc 100 demo_heap; Ok (fst x)) = Ok (4096 * 10 + 24)) as H by by vm_compute.
  rewrite Hr in H. by injection H.
Defined.

(** C7: [guk_xfree] of a block in use takes exactly that block out of use.  A
    block of whole pages is handed back to the page source; so is the page of a
    small block that was the only one used in it, and no block is left there;
    else the page source is not changed and the bytes become part of a free
    block of the page, merged with the free neighbours.  The heap stays well
    formed.  Freeing a block that is already free stops on the check of its header. *)
Theorem xfree_exact {M} `{!PageSource M} (h : heap M) B a sz f :
  heap_ok h B -> B !! a = Some (sz, f) ->
  if f : bool then guk_xfree (a + HDR) h = Bug BAD_ACCESS
  else exists h' B', guk_xfree (a + HDR) h = Ok h' /\ heap_ok h' B' /\ without a B B' /\ bytes h' = bytes h /\
    taken_back h B a sz h' B'.
Proof.
  intros Hok Ha. destruct f; [|by eapply xfree_spec].
  destruct (header_page h B a sz true Hok Ha) as (Ha0 & Ha1 & Hmask). unfold guk_xfree.
  rewrite not_irq by apply Hok. cbn [bug_on mbind res_bind]. unfold HDR in *.
  rewrite (proj2 (Z.eqb_neq (a + 24) 0)) by lia. cbv zeta. replace (a + 24 - 24) with a by lia. rewrite wrap_small by lia.
  rewrite Hmask, Z.eqb_refl. cbn [negb]. by rewrite (hk_hdrs _ _ _ Hok a sz true Ha) by done.
Qed.

Lemma xfree_exact_witness :
  exists h h' B', (p ← guk_xmalloc 100 demo_heap; Ok (snd p)) = Ok h /\ guk_xfree (4096 * 10 + 24) h = Ok h' /\ heap_ok h' B' /\
    (forall x szx, B' !! x <> Some (szx, false)) /\ guk_deallocate_pages (4096 * 10) 1 (pages h) = Ok (pages h').
Proof.
  destruct (xmalloc_spec demo_heap ∅ 100 demo_heap_ok ltac:(lia)) as (r & h & Hr & _ & Ha).
  assert (r = 4096 * 10 + 24 /\ hdrs h !! (4096 * 10) = Some (Hdr 128 false)) as [-> Hh].
  { assert ((x ← guk_xmalloc 100 demo_heap; Ok (fst x, hdrs (snd x) !! (4096 * 10))) = Ok (4096 * 10 + 24, Some (Hdr 128 false))) as H by by vm_compute.
    rewrite Hr in H. cbn in H. by injection H as -> ->. }
  destruct Ha as [[? _]|(a & sz & B' & E & Hok & Hb & _ & _ & Hsame)]; [done|].
  assert (a = 4096 * 10) as -> by (unfold HDR in E; lia).
  rewrite (hk_hdrs _ _ _ Hok _ _ _ Hb) in Hh by done. injection Hh as ->.
  destruct (xfree_exact h B' (4096 * 10) 128 false Hok Hb) as (h' & B2 & Hf & Hok2 & Hw & _ & Htb).
  exists h, h', B2. rewrite Hr. splits; [done|done|done| |].
  - intros x szx Hx. apply Hw in Hx as [Hne Hx]. apply Hsame in Hx; [|done]. by rewrite lookup_empty in Hx.
  - destruct Htb as [(p & n & E1 & E2 & ? & Hd & _)|(p & ? & ? & ? & Hor)]; unfold PAGE_SIZE in *; [lia|].
    assert (p = 10) as -> by lia. destruct Hor as [(_ & Hd & _)|(Hl & _)]; [exact Hd|]. destruct Hl. intros x szx Hx _.
    destruct (decide (x = 4096 * 10)); [done|]. apply Hsame in Hx; [|done]. by rewrite lookup_empty in Hx.
Defined.

(** C8: [guk_xrealloc] of a block below 2 GB returns the same pointer, and
    changes nothing, when the block has room; else it allocates with
    [guk_xmalloc].  When that succeeds, its block is returned: it was not in use,
    it has room for the size, its first bytes are the old contents, all bytes
    outside it and all other used blocks are kept, and the old block is freed.
    Only when [guk_xmalloc] returns 0 does the copy go to the null pointer (or,
    for an empty block, is the block lost and 0 returned). *)
Theorem xrealloc_preserves {M} `{!PageSource M} (h : heap M) B a sz asize :
  heap_ok h B -> B !! a = Some (sz, false) -> sz < 2 ^ 31 -> 0 <= asize < 2 ^ 41 ->
  (asize <= sz - HDR /\ guk_xrealloc (a + HDR) asize h = Ok (a + HDR, h)) \/
  (sz - HDR < asize /\ exists r h1, guk_xmalloc asize h = Ok (r, h1) /\
   ((r = 0 /\ sz <> HDR /\ guk_xrealloc (a + HDR) asize h = Bug BAD_ACCESS) \/
    (r = 0 /\ sz = HDR /\ exists h' B', guk_xrealloc (a + HDR) asize h = Ok (0, h') /\ heap_ok h' B' /\ without a B B') \/
    exists h' b szb B1 B', r = b + HDR /\ guk_xrealloc (a + HDR) asize h = Ok (b + HDR, h') /\ heap_ok h' B' /\
      B1 !! b = Some (szb, false) /\ HDR + asize <= szb /\ (forall szx, B !! b <> Some (szx, false)) /\
      same_used b B B1 /\ without a B1 B' /\
      (forall k, 0 <= k < sz - HDR -> bytes h' (b + HDR + k) = bytes h (a + HDR + k)) /\
      (forall x, ~ (b <= x < b + szb) -> bytes h' x = bytes h x))).
Proof. apply xrealloc_spec. Qed.

Lemma xrealloc_preserves_witness :
  exists h h', (p ← guk_xmalloc 100 demo_heap; Ok (snd p)) = Ok h /\
    guk_xrealloc (4096 * 10 + 24) 300 h = Ok (4096 * 10 + 128 + 24, h') /\
    bytes h' (4096 * 10 + 128 + 24 + 7) = bytes h (4096 * 10 + 24 + 7).
Proof.
  destruct (xmalloc_spec demo_heap ∅ 100 demo_heap_ok ltac:(lia)) as (r & h & Hr & _ & Ha).
  assert (r = 4096 * 10 + 24 /\ (hdrs h !! (4096 * 10)) = Some (Hdr 128 false) /\
    (x ← guk_xrealloc (4096 * 10 + 24) 300 h; Ok (fst x)) = Ok (4096 * 10 + 128 + 24)) as (-> & Hh & Hv).
  { assert ((x ← guk_xmalloc 100 demo_heap; y ← guk_xrealloc (4096 * 10 + 24) 300 (snd x);
       Ok (fst x, hdrs (snd x) !! (4096 * 10), fst y)) = Ok (4096 * 10 + 24, Some (Hdr 128 false), 4096 * 10 + 128 + 24)) as H by by vm_compute.
    rewrite Hr in H. cbn [mbind res_bind fst snd] in H.
    destruct (guk_xrealloc (4096 * 10 + 24) 300 h) as [[y ?]| |]; [|done..]. cbn in H |- *. by injection H as -> -> ->. }
  destruct Ha as [[? _]|(a & sz & B' & E & Hok & Hb & _ & _ & _)]; [done|].
  assert (a = 4096 * 10) as -> by (unfold HDR in E; lia).
  rewrite (hk_hdrs _ _ _ Hok _ _ _ Hb) in Hh by done. injection Hh as ->.
  destruct (xrealloc_preserves h B' (4096 * 10) 128 300 Hok Hb ltac:(lia) ltac:(lia))
    as [[? _]|(_ & r1 & h1 & _ & [(_ & _ & H)|[(_ & ? & _)|(h' & b & szb & B1 & B2 & _ & Hx & _ & _ & _ & _ & _ & _ & Hk & _)]])].
  - unfold HDR in *. lia.
  - change (4096 * 10 + HDR) with (4096 * 10 + 24) in H. by rewrite H in Hv.
  - done.
  - exists h, h'. rewrite Hr. change (4096 * 10 + HDR) with (4096 * 10 + 24) in Hx. rewrite Hx in Hv. cbn in Hv. injection Hv as Hb'.
    unfold HDR in *. assert (b = 4096 * 10 + 128) as -> by lia. splits; [done|done|]. apply Hk. lia.
Defined.

(** The size computation of [guk_xmalloc] wraps: a request within 24 bytes
    of the address space is served with a block of at most 24 bytes, its header
    alone, instead of being refused. *)
Lemma xmalloc_size_wraps {M} `{!PageSource M} (h : heap M) B asize i isz l :
  heap_ok h B -> 2 ^ 64 - HDR <= asize < 2 ^ 64 -> freelist h = i :: l -> B !! i = Some (isz, true) -> 3 * HDR <= isz ->
  exists h' sz, guk_xmalloc asize h = Ok (i + HDR, h') /\ hdrs h' !! i = Some (Hdr sz false) /\ sz <= HDR.
Proof.
  intros Hok Has Hl Hi Hisz. unfold guk_xmalloc. rewrite not_irq by apply Hok. cbn [bug_on mbind res_bind].
  assert (wrap64 (asize + HDR) = asize + HDR - 2 ^ 64) as ->.
  { unfold wrap, HDR in *. symmetry. apply (Z.mod_unique _ _ 1); lia. }
  destruct (align_up_spec 3 (asize + HDR - 2 ^ 64)) as [H8 Hup]; [lia|unfold HDR in *; lia|].
  change (2 ^ 3) with HDR_ALIGN in *. set (sz := align_up _ _) in *.
  assert (0 <= sz <= HDR) as Hsz.
  { destruct H8 as [k Hk]. unfold HDR, HDR_ALIGN in *. lia. }
  rewrite (proj2 (Z.leb_gt PAGE_SIZE sz)) by (unfold HDR, PAGE_SIZE in *; lia). rewrite Hl. cbn [search]. unfold entry.
  rewrite (hk_hdrs _ _ _ Hok i isz true Hi) by done. cbn [access mbind res_bind linked size].
  rewrite (proj2 (Z.ltb_ge isz sz)) by (unfold HDR in *; lia). cbn [mbind res_bind].
  pose proof (bk_shape _ _ (hk_blocks _ _ _ Hok) _ _ _ Hi) as Hs.
  destruct (shape_bounds _ _ _ _ (hk_pages _ _ _ Hok) Hs) as (? & ? & ?).
  rewrite (hdr_addr _ _ _ _ (hk_pages _ _ _ Hok) Hs). eexists _, sz. split; [done|]. unfold maybe_split.
  rewrite (wrap_small 64 (isz - sz)) by (unfold HDR in *; lia). rewrite (proj2 (Z.leb_le _ _)) by (unfold HDR in *; lia).
  cbn [hdrs set_hdr]. rewrite lookup_insert_eq. split; [done|lia].
Qed.

Lemma xmalloc_size_wraps_witness :
  exists h h' sz, (p ← guk_xmalloc 100 demo_heap; Ok (snd p)) = Ok h /\
    guk_xmalloc (2 ^ 64 - 20) h = Ok (4096 * 10 + 128 + 24, h') /\ hdrs h' !! (4096 * 10 + 128) = Some (Hdr sz false) /\ sz <= 24.
Proof.
  destruct (xmalloc_spec demo_heap ∅ 100 demo_heap_ok ltac:(lia)) as (r & h & Hr & _ & Ha).
  assert (r <> 0 /\ freelist h = [4096 * 10 + 128] /\ hdrs h !! (4096 * 10 + 128) = Some (Hdr 3968 true)) as (Hr0 & Hf & Hh).
  { assert ((x ← guk_xmalloc 100 demo_heap; Ok (fst x, freelist (snd x), hdrs (snd x) !! (4096 * 10 + 128))) =
      Ok (4096 * 10 + 24, [4096 * 10 + 128], Some (Hdr 3968 true))) as H by by vm_compute.
    rewrite Hr in H. cbn [mbind res_bind fst snd] in H. injection H as -> -> ->. done. }
  destruct Ha as [[? _]|(a & sz & B' & _ & Hok & _)]; [done|].
  destruct (proj1 (hk_free _ _ _ Hok (4096 * 10 + 128))) as [isz Hi]; [rewrite Hf; by left|].
  rewrite (hk_hdrs _ _ _ Hok _ _ _ Hi) in Hh by done. injection Hh as ->.
  destruct (xmalloc_size_wraps h B' (2 ^ 64 - 20) (4096 * 10 + 128) 3968 [] Hok) as (h' & sz' & H1 & H2 & H3);
    [unfold HDR; lia|done|done|unfold HDR; lia|].
  exists h, h', sz'. rewrite Hr. by splits.
Defined.
