(* ===== verification/ByteRing.v ===== *)
(** Rings of bytes that two domains share: the slots between the consumer's and the
    producer's index, which run over all 32-bit numbers, read as a queue.  The size is a power
    of two.  The rings of the store (xenbus/xenbus.c) and of the console
    (console/xencons_ring.c) are such rings. *)
From S2P Require Import Prelude.
From stdpp Require Import options.

Class PowSize (size : Z) : Prop := size_pow : exists k, 0 <= k < 31 /\ size = 2 ^ k.

Section Slots.
Context (size : Z).

Definition slot (buf : list Z) (i : Z) : Z := nth (Z.to_nat (i mod size)) buf 0.

Definition slots (buf : list Z) (p n : Z) : list Z := (fun i => slot buf (p + i)) <$> seqZ 0 n.
End Slots.

Section Spec.
Set Default Proof Using "Type*".
Context {size : Z} `{PS : !PowSize size}.

Local Abbreviation S_ := size.
Local Abbreviation slot := (slot size).
Local Abbreviation slots := (slots size).

Lemma size_bounds : 0 < S_ < 2 ^ 31 /\ (S_ | 2 ^ 32).
Proof.
  destruct size_pow as (k & Hk & ->). split.
  - split; [lia|]. apply Z.pow_lt_mono_r; lia.
  - exists (2 ^ (32 - k)). rewrite <- Z.pow_add_r by lia. f_equal. lia.
Qed.

Lemma mod_size_range i : 0 <= i mod S_ < S_.
Proof. apply Z.mod_pos_bound, size_bounds. Qed.

Lemma wrap32_mod_size i : wrap32 i mod S_ = i mod S_.
Proof. apply wrap_mod; [apply size_bounds|apply size_bounds|lia]. Qed.

Lemma mod_size_add i j : (i mod S_ + j) mod S_ = (i + j) mod S_.
Proof. by rewrite Zplus_mod_idemp_l. Qed.

(** Indices less than the size apart use different slots. *)
Lemma mod_size_inj i j : - S_ < i - j < S_ -> i mod S_ = j mod S_ -> i = j.
Proof. apply mod_inj, size_bounds. Qed.

Lemma slot_congr buf i j : i mod S_ = j mod S_ -> slot buf i = slot buf j.
Proof. unfold ByteRing.slot. by intros ->. Qed.

Lemma slots_congr buf p q n : p mod S_ = q mod S_ -> slots buf p n = slots buf q n.
Proof.
  intros He. apply list_fmap_ext. intros i x _. apply slot_congr.
  by rewrite Zplus_mod, He, <- Zplus_mod.
Qed.

Lemma slots_length buf p n : length (slots buf p n) = Z.to_nat n.
Proof. unfold ByteRing.slots. by rewrite length_fmap, length_seqZ. Qed.

Lemma slots_lookup buf p n j : 0 <= j < n -> slots buf p n !! Z.to_nat j = Some (slot buf (p + j)).
Proof.
  intros. unfold ByteRing.slots. rewrite list_lookup_fmap, lookup_seqZ_lt by lia. simpl. do 2 f_equal. lia.
Qed.

Lemma slots_ext buf buf' p n : (forall i, p <= i < p + n -> slot buf' i = slot buf i) -> slots buf' p n = slots buf p n.
Proof.
  intros He. apply list_fmap_ext. intros i x Hx. apply lookup_seqZ in Hx. apply He. lia.
Qed.

Lemma slots_app buf p n m : 0 <= n -> 0 <= m -> slots buf p (n + m) = slots buf p n ++ slots buf (p + n) m.
Proof.
  intros. unfold ByteRing.slots. rewrite seqZ_app, fmap_app by lia. f_equal.
  replace (0 + n) with (n + 0) by lia. rewrite <- fmap_add_seqZ, <- list_fmap_compose.
  apply list_fmap_ext. intros i x _. simpl. f_equal. lia.
Qed.

(** A part of the ring that does not wrap is a part of the array. *)
Lemma slots_straight buf p n :
  Z.of_nat (length buf) = S_ -> 0 <= n <= S_ - p mod S_ ->
  slots buf p n = take (Z.to_nat n) (drop (Z.to_nat (p mod S_)) buf).
Proof.
  intros Hl Hn. pose proof (mod_size_range p). apply list_eq_same_length with (Z.to_nat n).
  { rewrite length_take, length_drop. lia. }
  { apply slots_length. }
  intros i x y Hi. replace i with (Z.to_nat (Z.of_nat i)) at 1 by lia. rewrite slots_lookup by lia.
  rewrite lookup_take_lt, lookup_drop by lia. unfold ByteRing.slot.
  rewrite <- mod_size_add, Z.mod_small by lia. intros [= <-] Hy.
  apply nth_lookup_Some with (d := 0) in Hy. rewrite <- Hy. f_equal. lia.
Qed.


Lemma slots_nil buf p n : n <= 0 -> slots buf p n = [].
Proof. intros Hn. unfold ByteRing.slots. by rewrite seqZ_nil. Qed.

Lemma slots_one buf p : slots buf p 1 = [slot buf p].
Proof. unfold ByteRing.slots. rewrite seqZ_cons by lia. rewrite seqZ_nil by lia. cbn. by rewrite Z.add_0_r. Qed.

Lemma slot_set buf p i x : Z.of_nat (length buf) = S_ -> - S_ < i - p < S_ ->
  slot (<[Z.to_nat (p mod S_) := x]> buf) i = if decide (i = p) then x else slot buf i.
Proof.
  intros Hl Hi. unfold ByteRing.slot. pose proof (mod_size_range p). pose proof (mod_size_range i). rewrite !nth_lookup. case_decide as E.
  - subst. by rewrite list_lookup_insert_eq by lia.
  - rewrite list_lookup_insert_ne; [done|]. intros Hm. apply E, mod_size_inj; [lia|]. lia.
Qed.

(** A byte put at the producer's index joins the end of the queue. *)
Lemma slots_push buf c n x : Z.of_nat (length buf) = S_ -> 0 <= n < S_ ->
  slots (<[Z.to_nat ((c + n) mod S_) := x]> buf) c (n + 1) = slots buf c n ++ [x].
Proof.
  intros Hl Hn. rewrite slots_app by lia. f_equal.
  - apply slots_ext. intros i Hi. rewrite slot_set by (done || lia). rewrite decide_False; [done | lia].
  - rewrite slots_one, slot_set by (done || lia). by rewrite decide_True.
Qed.

(** The queue after its first [k] bytes were taken. *)
Lemma slots_taken buf c n k : 0 <= k <= n -> slots buf c n = slots buf c k ++ slots buf (wrap32 (c + k)) (n - k).
Proof.
  intros Hk. replace n with (k + (n - k)) at 1 by lia. rewrite slots_app by lia. f_equal.
  apply slots_congr. by rewrite wrap32_mod_size.
Qed.

Lemma wrap32_used c n : 0 <= c < 2 ^ 32 -> 0 <= n <= S_ -> wrap32 (wrap32 (c + n) - c) = n.
Proof.
  intros Hc Hn. pose proof size_bounds as [? _]. unfold wrap. rewrite Zminus_mod_idemp_l. replace (c + n - c) with n by lia.
  apply Z.mod_small. lia.
Qed.
End Spec.
