(* ===== verification/FreeList.v ===== *)
(** Free lists of indices threaded through an array.

    Entry 0 of the array holds the first free index, the entry of a free index the next one,
    and 0 ends the list; index 0 itself is never handed out.  The grant tables, the block
    device and the network front end keep their references and buffers this way. *)
From S2P Require Import Prelude Bitmap.
From stdpp Require Import options.

(** [l[id] = l[0]; l[0] = v]: put [id] back, [v] being [id] at the width of the entries. *)
Definition fl_push (l : list Z) (id v : Z) : res (list Z) :=
  h ← rd l 0; l ← wr l id h; wr l 0 v.

(** [id = l[0]; l[0] = l[id]]: take the first free index, 0 when there is none. *)
Definition fl_pop (l : list Z) : res (Z * list Z) :=
  id ← rd l 0; n ← rd l id; l ← wr l 0 n; Ok (id, l).

(** The array [m] holds the list [l] from index [a] on. *)
Fixpoint chain (m : list Z) (a : Z) (l : list Z) : Prop :=
  match l with
  | [] => rd m a = Ok 0
  | r :: l => rd m a = Ok r /\ chain m r l
  end.

Lemma rd_wr m i v j : 0 <= i < Z.of_nat (length m) -> 0 <= j ->
  exists m', wr m i v = Ok m' /\ length m' = length m /\ rd m' j = (if decide (j = i) then Ok v else rd m j).
Proof.
  intros Hi Hj. rewrite (wr_in m i v Hi). eexists. split; [done|]. rewrite length_insert. split; [done|].
  unfold rd. rewrite (proj2 (Z.leb_le 0 j)) by lia. case_decide as E.
  - subst. by rewrite list_lookup_insert_eq by lia.
  - by rewrite list_lookup_insert_ne by lia.
Qed.

Lemma wr_rd m i v : 0 <= i < Z.of_nat (length m) ->
  exists m', wr m i v = Ok m' /\ length m' = length m /\
    forall j, 0 <= j -> rd m' j = (if decide (j = i) then Ok v else rd m j).
Proof.
  intros Hi. destruct (rd_wr m i v 0 Hi ltac:(lia)) as (m' & Hw & Hl & _). exists m'. splits; [done|done|].
  intros j Hj. destruct (rd_wr m i v j Hi Hj) as (m2 & Hw2 & _ & Hr). congruence.
Qed.

Lemma chain_ext m m' a l : (forall j, j = a \/ j ∈ l -> rd m' j = rd m j) -> chain m a l -> chain m' a l.
Proof.
  revert a. induction l as [|r l IH]; intros a H; simpl.
  - intros <-. apply H. by left.
  - intros [Ha Hc]. split; [rewrite H; [done|by left]|]. apply IH; [|done].
    intros j [-> | Hj]; apply H; right; [by left|by right].
Qed.

Lemma chain_head m a l : chain m a l -> rd m a = Ok (default 0 (head l)).
Proof. destruct l; simpl; [done|]. by intros [? _]. Qed.

(** The array determines the list. *)
Lemma chain_unique m a l l' : Forall (fun r => 0 < r) l -> Forall (fun r => 0 < r) l' -> chain m a l -> chain m a l' -> l = l'.
Proof.
  revert a l'. induction l as [|r l IH]; intros a [|r' l']; simpl; [done| | |].
  - intros _ [Hr _]%Forall_cons H0 [H1 _]. rewrite H0 in H1. injection H1. lia.
  - intros [Hr _]%Forall_cons _ [H1 _] H0. rewrite H0 in H1. injection H1. lia.
  - intros [_ Hl]%Forall_cons [_ Hl']%Forall_cons [H1 Hc] [H2 Hc']. rewrite H1 in H2. injection H2 as <-. f_equal. by apply (IH r).
Qed.

(** The free indices of a list: they are entries of the array other than entry 0. *)
Definition free_list (m : list Z) (l : list Z) : Prop :=
  chain m 0 l /\ NoDup l /\ Forall (fun r => 0 < r < Z.of_nat (length m)) l.

Lemma free_list_unique m l l' : free_list m l -> free_list m l' -> l = l'.
Proof.
  intros (Hc & _ & Hb) (Hc' & _ & Hb'). eapply chain_unique; [| |exact Hc|exact Hc'].
  - eapply Forall_impl; [exact Hb|]. cbv beta. lia.
  - eapply Forall_impl; [exact Hb'|]. cbv beta. lia.
Qed.

Lemma fl_push_spec m l r :
  free_list m l -> 0 < r < Z.of_nat (length m) -> r ∉ l ->
  exists m', fl_push m r r = Ok m' /\ length m' = length m /\ free_list m' (r :: l).
Proof.
  intros (Hc & Hnd & Hb) Hr Hrl. unfold fl_push. rewrite (chain_head _ _ _ Hc). cbn [mbind res_bind].
  destruct (wr_rd m r (default 0 (head l)) ltac:(lia)) as (m1 & -> & Hl1 & Hr1). cbn [mbind res_bind].
  destruct (wr_rd m1 0 r ltac:(lia)) as (m2 & -> & Hl2 & Hr2).
  exists m2. assert (length m2 = length m) as Hl by congruence. splits; [done|done|].
  split; [|split; [by apply NoDup_cons|rewrite Hl; by apply Forall_cons]].
  simpl. split; [by rewrite Hr2, decide_True by done|].
  assert (rd m2 r = Ok (default 0 (head l))) as Hm2r.
  { by rewrite Hr2, decide_False, Hr1, decide_True by lia. }
  destruct l as [|r1 l]; [done|]. destruct Hc as [_ Hc]. split; [done|]. eapply chain_ext; [|exact Hc].
  intros j Hj. assert (j ∈ r1 :: l) as Hj' by set_solver. rewrite Forall_forall in Hb. specialize (Hb j Hj').
  rewrite Hr2, decide_False, Hr1, decide_False; [done| |lia..]. by intros ->.
Qed.

(** Putting any index of the array back only writes to the array. *)
Lemma fl_push_any m id v : 0 <= id < Z.of_nat (length m) -> exists m', fl_push m id v = Ok m' /\ length m' = length m.
Proof.
  intros Hid. unfold fl_push. destruct (rd_in m 0) as (h & -> & _); [lia|]. cbn [mbind res_bind].
  destruct (wr_rd m id h Hid) as (m1 & -> & Hl1 & _). cbn [mbind res_bind].
  destruct (wr_rd m1 0 v ltac:(lia)) as (m2 & -> & Hl2 & _). exists m2. split; [done|congruence].
Qed.

(** Putting an index back twice makes a loop of it: [fl_pop] then gives it for ever. *)
Lemma fl_push_twice m r : 0 < r < Z.of_nat (length m) ->
  exists m1 m2, fl_push m r r = Ok m1 /\ fl_push m1 r r = Ok m2 /\ rd m2 0 = Ok r /\ rd m2 r = Ok r.
Proof.
  intros Hr. unfold fl_push. destruct (rd_in m 0) as (h & -> & _); [lia|]. cbn [mbind res_bind].
  destruct (wr_rd m r h ltac:(lia)) as (ma & -> & Hla & Ha). cbn [mbind res_bind].
  destruct (wr_rd ma 0 r ltac:(lia)) as (m1 & -> & Hl1 & H1). exists m1. rewrite (H1 0), decide_True by lia. cbn [mbind res_bind].
  destruct (wr_rd m1 r r ltac:(lia)) as (mb & -> & Hlb & Hb). cbn [mbind res_bind].
  destruct (wr_rd mb 0 r ltac:(lia)) as (m2 & -> & Hl2 & H2). exists m2. splits; [done|done| |].
  - by rewrite H2, decide_True by lia.
  - by rewrite H2, decide_False, Hb, decide_True by lia.
Qed.

Lemma fl_pop_loop m r : 0 < r < Z.of_nat (length m) -> rd m 0 = Ok r -> rd m r = Ok r ->
  exists m', fl_pop m = Ok (r, m') /\ length m' = length m /\ rd m' 0 = Ok r /\ rd m' r = Ok r.
Proof.
  intros Hr H0 Hrr. unfold fl_pop. rewrite H0. cbn [mbind res_bind]. rewrite Hrr. cbn [mbind res_bind].
  destruct (wr_rd m 0 r ltac:(lia)) as (m' & -> & Hl & H'). exists m'. cbn [mbind res_bind]. splits; [done|done| |].
  - by rewrite H', decide_True by lia.
  - by rewrite H', decide_False by lia.
Qed.

(** Putting index 0 on the list empties it. *)
Lemma fl_push_0 m : (0 < length m)%nat -> exists m', fl_push m 0 0 = Ok m' /\ length m' = length m /\ free_list m' [].
Proof.
  intros Hm. unfold fl_push. destruct (rd_in m 0) as (h & -> & _); [lia|]. cbn [mbind res_bind].
  destruct (wr_rd m 0 h ltac:(lia)) as (m1 & -> & Hl1 & _). cbn [mbind res_bind].
  destruct (wr_rd m1 0 0 ltac:(lia)) as (m2 & -> & Hl2 & Hr2). exists m2. splits; [done|congruence|].
  split; [simpl; by rewrite Hr2|]. split; constructor.
Qed.

Lemma fl_pop_empty m : rd m 0 = Ok 0 -> fl_pop m = Ok (0, m).
Proof.
  intros H0. unfold fl_pop. rewrite H0. cbn [mbind res_bind]. rewrite H0. cbn [mbind res_bind]. unfold rd, wr in *.
  destruct m as [|x m]; [by vm_compute in H0|]. cbn in H0 |- *. by injection H0 as ->.
Qed.

Lemma fl_pop_spec m l :
  free_list m l -> (0 < length m)%nat ->
  exists m', fl_pop m = Ok (default 0 (head l), m') /\ length m' = length m /\ free_list m' (tail l).
Proof.
  intros (Hc & Hnd & Hb) Hm. unfold fl_pop. rewrite (chain_head _ _ _ Hc). cbn [mbind res_bind].
  destruct l as [|r l]; simpl in Hc |- *.
  - rewrite Hc. cbn [mbind res_bind]. destruct (wr_rd m 0 0 ltac:(lia)) as (m1 & -> & Hl1 & Hr1). cbn [mbind res_bind].
    exists m1. splits; [done|done|]. split; [simpl; by rewrite Hr1|]. split; constructor.
  - destruct Hc as [_ Hc]. apply Forall_cons in Hb as [Hrb Hb]. apply NoDup_cons in Hnd as [Hrl Hnd].
    rewrite (chain_head _ _ _ Hc). cbn [mbind res_bind].
    destruct (wr_rd m 0 (default 0 (head l)) ltac:(lia)) as (m1 & -> & Hl1 & Hr1). cbn [mbind res_bind].
    exists m1. splits; [done|done|]. split; [|split; [done|by rewrite Hl1]].
    destruct l as [|r1 l]; simpl in Hc |- *; [by rewrite Hr1|]. destruct Hc as [Hcr Hc].
    split; [by rewrite Hr1|]. eapply chain_ext; [|exact Hc].
    intros j Hj. assert (j ∈ r1 :: l) as Hj' by set_solver. rewrite Forall_forall in Hb. specialize (Hb j Hj').
    by rewrite Hr1, decide_False by lia.
Qed.
