(* ===== verification/Gnttab.v ===== *)
(** Grant tables: gnttab.c.

    The free list of grant references is threaded through [gnttab_list]: entry 0
    holds the first free reference, entry [r] the one after [r], 0 ends it.  The
    grant table is shared with the hypervisor and the other domains; what they do
    to an entry before each of our accesses to it is a list of functions, the
    [remote] argument.  The bits of the flags are those of the Xen interface, a
    parameter. *)
From stdpp Require Import strings.
From S2P Require Import Prelude Bitmap FreeList.

Definition NR_RESERVED_ENTRIES : Z := 8.
Definition NR_GRANT_FRAMES : Z := 4.

(** [sizeof(grant_entry_t)] and the flag values of xen/grant_table.h. *)
Record grant_abi := GrantABI {
  grant_entry_size : Z;
  GTF_permit_access : Z;
  GTF_accept_transfer : Z;
  GTF_readonly : Z;
  GTF_reading : Z;
  GTF_writing : Z;
  GTF_transfer_committed : Z;
  GTF_transfer_completed : Z
}.

Definition NR_GRANT_ENTRIES (abi : grant_abi) : Z := NR_GRANT_FRAMES * 4096 / grant_entry_size abi.

(** [grant_entry_t] *)
Record grant_entry := Grant { ge_flags : Z; ge_domid : Z; ge_frame : Z }.

Record gnttab := Gnttab {
  gnttab_table : list grant_entry;
  gnttab_list : list Z;
  num_free : Z;                 (** [int] *)
  gnttab_suspended : Z;
  mappings : list (Z * Z)       (** the [HYPERVISOR_update_va_mapping] calls: page of the table and frame *)
}.

Definition set_table v g : gnttab := Gnttab v (gnttab_list g) (num_free g) (gnttab_suspended g) (mappings g).
Definition set_list v n g : gnttab := Gnttab (gnttab_table g) v n (gnttab_suspended g) (mappings g).
Definition set_suspended v g : gnttab := Gnttab (gnttab_table g) (gnttab_list g) (num_free g) v (mappings g).
Definition map_frames ms g : gnttab := Gnttab (gnttab_table g) (gnttab_list g) (num_free g) (gnttab_suspended g) (mappings g ++ ms).

Section Code.
Context (abi : grant_abi).

Definition put_free_entry (ref : Z) (g : gnttab) : res gnttab :=
  l ← fl_push (gnttab_list g) ref ref;
  Ok (set_list l (sgn32 (num_free g + 1)) g).

Definition get_free_entry (g : gnttab) : res (Z * gnttab) :=
  '(ref, l) ← fl_pop (gnttab_list g);
  let g := set_list l (sgn32 (num_free g - 1)) g in
  _ ← bug_on (num_free g <? 0);
  Ok (ref, g).

Definition entry (ref : Z) (g : gnttab) : res grant_entry :=
  access (if 0 <=? ref then gnttab_table g !! Z.to_nat ref else None).

Definition set_entry (ref : Z) (e : grant_entry) (g : gnttab) : res gnttab :=
  _ ← entry ref g; Ok (set_table (<[Z.to_nat ref := e]> (gnttab_table g)) g).

Definition gnttab_grant_access (domid frame readonly : Z) (g : gnttab) : res (Z * gnttab) :=
  '(ref, g) ← get_free_entry g;
  g ← set_entry ref (Grant (wrap 16 (Z.lor (GTF_permit_access abi) (readonly * GTF_readonly abi))) domid (wrap32 frame)) g;
  Ok (ref, g).

Definition gnttab_grant_transfer (domid pfn : Z) (g : gnttab) : res (Z * gnttab) :=
  '(ref, g) ← get_free_entry g;
  g ← set_entry ref (Grant (GTF_accept_transfer abi) domid (wrap32 pfn)) g;
  Ok (ref, g).

(** The entry just before the next access: what the others did to it. *)
Definition observe (remote : list (grant_entry -> grant_entry)) (e : grant_entry)
    : grant_entry * list (grant_entry -> grant_entry) :=
  match remote with [] => (e, []) | f :: remote => (f e, remote) end.

Definition in_use (flags : Z) : bool := negb (Z.land flags (Z.lor (GTF_reading abi) (GTF_writing abi)) =? 0).

(** The loop of [gnttab_end_access] around the [cmpxchg]: the result of the
    function and the entry it leaves. *)
Fixpoint end_access_loop (fuel : nat) (remote : list (grant_entry -> grant_entry)) (nflags : Z) (e : grant_entry)
    : res (bool * grant_entry) :=
  match fuel with
  | O => Fuel
  | S fuel =>
      if in_use nflags then Ok (false, e)
      else
        let '(e, remote) := observe remote e in
        if ge_flags e =? nflags then Ok (true, Grant 0 (ge_domid e) (ge_frame e))
        else end_access_loop fuel remote (ge_flags e) e
  end.

Definition gnttab_end_access (remote : list (grant_entry -> grant_entry)) (ref : Z) (g : gnttab) : res (Z * gnttab) :=
  e ← entry ref g;
  let '(e, remote) := observe remote e in
  '(ended, e) ← end_access_loop (2 + length remote) remote (ge_flags e) e;
  g ← set_entry ref e g;
  if (ended : bool) then g ← put_free_entry ref g; Ok (1, g) else Ok (0, g).

(** The first loop of [gnttab_end_transfer]: [None] when it took the entry back,
    the flags read when a transfer was committed. *)
Fixpoint end_transfer_loop (fuel : nat) (remote : list (grant_entry -> grant_entry)) (e : grant_entry)
    : res (option Z * grant_entry * list (grant_entry -> grant_entry)) :=
  match fuel with
  | O => Fuel
  | S fuel =>
      let '(e, remote) := observe remote e in
      let flags := ge_flags e in
      if negb (Z.land flags (GTF_transfer_committed abi) =? 0) then Ok (Some flags, e, remote)
      else
        let '(e, remote) := observe remote e in
        if ge_flags e =? flags then Ok (None, Grant 0 (ge_domid e) (ge_frame e), remote)
        else end_transfer_loop fuel remote e
  end.

(** The wait for the completion; it does not end when the others never complete
    the transfer. *)
Fixpoint wait_completed (fuel : nat) (remote : list (grant_entry -> grant_entry)) (flags : Z) (e : grant_entry)
    : res (grant_entry * list (grant_entry -> grant_entry)) :=
  if negb (Z.land flags (GTF_transfer_completed abi) =? 0) then Ok (e, remote)
  else
    match fuel with
    | O => Fuel
    | S fuel => let '(e, remote) := observe remote e in wait_completed fuel remote (ge_flags e) e
    end.

Definition gnttab_end_transfer (remote : list (grant_entry -> grant_entry)) (ref : Z) (g : gnttab) : res (Z * gnttab) :=
  e ← entry ref g;
  '(committed, e, remote) ← end_transfer_loop (2 + length remote) remote e;
  match committed with
  | None => g ← set_entry ref e g; g ← put_free_entry ref g; Ok (0, g)
  | Some flags =>
      '(e, remote) ← wait_completed (1 + length remote) remote flags e;
      let '(e, _) := observe remote e in
      let frame := ge_frame e in
      g ← set_entry ref e g;
      g ← put_free_entry ref g;
      Ok (frame, g)
  end.

(** [page] is what [alloc_page] returned. *)
Definition gnttab_alloc_and_grant (virt_to_mfn : Z -> Z) (page : Z) (g : gnttab) : res (Z * Z * gnttab) :=
  '(gref, g) ← gnttab_grant_access 0 (virt_to_mfn page) 0 g; Ok (page, gref, g).

(** The texts of [GNTTABOP_error_msgs] are an argument. *)
Definition gnttabop_error (msgs : list string) (status : Z) : string :=
  let status := sgn 16 (- status) in
  if (status <? 0) || (Z.of_nat (length msgs) <=? status) then "bad status"%string
  else nth (Z.to_nat status) msgs EmptyString.

Definition gnttab_suspend (g : gnttab) : gnttab :=
  set_suspended (gnttab_suspended g + 1) (map_frames ((fun i => (i, 0)) <$> seqZ 0 NR_GRANT_FRAMES) g).

(** [for (i = from; i < NR_GRANT_ENTRIES; i++) put_free_entry(i);] *)
Fixpoint put_entries (n : nat) (from : Z) (g : gnttab) : res gnttab :=
  match n with
  | O => Ok g
  | S n => g ← put_free_entry from g; put_entries n (from + 1) g
  end.

(** [frames] are the machine frames the hypervisor stores, and its return code. *)
Definition init_frames (g : gnttab) : res gnttab :=
  put_entries (Z.to_nat (NR_GRANT_ENTRIES abi - NR_RESERVED_ENTRIES)) NR_RESERVED_ENTRIES g.

Definition gnttab_resume (frames : list Z) (g : gnttab) : res gnttab :=
  _ ← bug_on (negb (gnttab_suspended g =? 1));
  g ← init_frames g;
  Ok (set_suspended (gnttab_suspended g - 1) (map_frames (imap (fun i f => (Z.of_nat i, f)) frames) g)).

Definition init_gnttab (frames : list Z) (g : gnttab) : res gnttab :=
  g ← init_frames g;
  Ok (map_frames (imap (fun i f => (Z.of_nat i, f)) frames) g).
End Code.

(** The static variables at boot. *)
Definition boot_gnttab (abi : grant_abi) : gnttab :=
  let n := Z.to_nat (NR_GRANT_ENTRIES abi) in
  Gnttab (replicate n (Grant 0 0 0)) (replicate n 0) 0 0 [].

(** ** The free list *)

(** The free references are [l]. *)
Definition free_refs (abi : grant_abi) (g : gnttab) (l : list Z) : Prop :=
  chain (gnttab_list g) 0 l /\ NoDup l /\ Forall (fun r => NR_RESERVED_ENTRIES <= r < NR_GRANT_ENTRIES abi) l /\
  num_free g = Z.of_nat (length l) /\ Z.of_nat (length l) < 2 ^ 31 - 1 /\
  Z.of_nat (length (gnttab_list g)) = NR_GRANT_ENTRIES abi /\ Z.of_nat (length (gnttab_table g)) = NR_GRANT_ENTRIES abi.

Lemma free_refs_list abi g l : free_refs abi g l -> free_list (gnttab_list g) l.
Proof.
  intros (Hc & Hnd & Hb & _ & _ & Hl & _). split; [done|]. split; [done|]. eapply Forall_impl; [exact Hb|].
  unfold NR_RESERVED_ENTRIES. cbv beta. lia.
Qed.

Lemma put_spec abi g l r :
  0 < NR_GRANT_ENTRIES abi -> free_refs abi g l -> NR_RESERVED_ENTRIES <= r < NR_GRANT_ENTRIES abi -> r ∉ l ->
  Z.of_nat (length l) < 2 ^ 31 - 2 ->
  exists g', put_free_entry r g = Ok g' /\ free_refs abi g' (r :: l) /\ gnttab_table g' = gnttab_table g.
Proof.
  intros Hn Hf Hr Hrl Hlen'. pose proof Hf as (Hc & Hnd & Hb & Hnum & Hlen & Hl & Ht). unfold put_free_entry, NR_RESERVED_ENTRIES in *.
  destruct (fl_push_spec (gnttab_list g) l r (free_refs_list _ _ _ Hf)) as (m & -> & Hm & Hc' & Hnd' & _); [lia|done|].
  cbn [mbind res_bind]. eexists. splits; [done| |done]. unfold free_refs. cbn [gnttab_list set_list num_free gnttab_table].
  splits; [done|done|by apply Forall_cons| |simpl; lia|lia|done].
  rewrite Hnum, sgn_small by lia. simpl. lia.
Qed.

Lemma get_spec abi g l :
  0 < NR_GRANT_ENTRIES abi -> free_refs abi g l ->
  match l with
  | [] => get_free_entry g = Bug BUG_ON
  | r :: l' => exists g', get_free_entry g = Ok (r, g') /\ free_refs abi g' l' /\ gnttab_table g' = gnttab_table g
  end.
Proof.
  intros Hn Hf. pose proof Hf as (Hc & Hnd & Hb & Hnum & Hlen & Hl & Ht). unfold get_free_entry.
  destruct (fl_pop_spec (gnttab_list g) l (free_refs_list _ _ _ Hf)) as (m & -> & Hm & Hc' & Hnd' & _); [lia|].
  destruct l as [|r l]; cbn [default head tail mbind res_bind num_free set_list] in *; [by rewrite Hnum|].
  apply Forall_cons in Hb as [_ Hb]. rewrite Hnum. simpl length in *. rewrite sgn_small by lia.
  rewrite (proj2 (Z.ltb_ge _ _)) by lia. cbn [bug_on mbind res_bind].
  eexists. splits; [done| |done]. unfold free_refs. cbn [gnttab_list set_list num_free gnttab_table].
  splits; try done; lia.
Qed.

Lemma entry_in abi g l r :
  free_refs abi g l -> NR_RESERVED_ENTRIES <= r < NR_GRANT_ENTRIES abi -> exists e, entry r g = Ok e.
Proof.
  intros (_ & _ & _ & _ & _ & _ & Ht) Hr. unfold entry, NR_RESERVED_ENTRIES in *. rewrite (proj2 (Z.leb_le 0 r)) by lia.
  destruct (lookup_lt_is_Some_2 (gnttab_table g) (Z.to_nat r)) as [x ->]; [lia|]. by exists x.
Qed.

Lemma set_entry_spec abi g l r e :
  free_refs abi g l -> NR_RESERVED_ENTRIES <= r < NR_GRANT_ENTRIES abi ->
  exists g', set_entry r e g = Ok g' /\ free_refs abi g' l /\ gnttab_table g' = <[Z.to_nat r := e]> (gnttab_table g) /\
    entry r g' = Ok e.
Proof.
  intros Hf Hr. destruct (entry_in abi g l r Hf Hr) as [x Hx]. unfold set_entry. rewrite Hx. cbn [mbind res_bind].
  eexists. splits; [done| |done|].
  - destruct Hf as (?&?&?&?&?&?&?). unfold free_refs. cbn. rewrite length_insert. by splits.
  - unfold entry in *. unfold NR_RESERVED_ENTRIES in *. rewrite (proj2 (Z.leb_le 0 r)) in * by lia. cbn.
    destruct Hf as (?&?&?&?&?&?&Ht). rewrite list_lookup_insert_eq by lia. done.
Qed.

Lemma init_spec abi n from g l :
  0 < NR_GRANT_ENTRIES abi < 2 ^ 30 -> free_refs abi g l -> Forall (fun r => r < from) l -> NR_RESERVED_ENTRIES <= from ->
  from + Z.of_nat n <= NR_GRANT_ENTRIES abi -> Z.of_nat (length l) <= from ->
  exists g', put_entries n from g = Ok g' /\ free_refs abi g' (rev (seqZ from (Z.of_nat n)) ++ l) /\ gnttab_table g' = gnttab_table g.
Proof.
  intros HN. revert from g l. induction n as [|n IH]; intros from g l Hf Hlt Hfrom Hn Hlen; simpl put_entries.
  - exists g. by splits.
  - destruct (put_spec abi g l from) as (g1 & -> & Hf1 & Ht1); [lia|done|lia| |lia|].
    { intros Hin. rewrite Forall_forall in Hlt. specialize (Hlt from Hin). lia. }
    cbn [mbind res_bind].
    destruct (IH (from + 1) g1 (from :: l)) as (g2 & -> & Hf2 & Ht2); [done| |lia|lia|simpl; lia|].
    { constructor; [lia|]. eapply Forall_impl; [exact Hlt|]. cbv beta. lia. }
    exists g2. splits; [done| |congruence]. replace (seqZ from (Z.of_nat (S n))) with (from :: seqZ (from + 1) (Z.of_nat n)).
    { simpl rev. by rewrite <- app_assoc. }
    rewrite (seqZ_cons from (Z.of_nat (S n))) by lia. repeat f_equal; lia.
Qed.

(** ** Interference *)

(** The entry after the first [k] interventions of the others. *)
Definition evolve (k : nat) (remote : list (grant_entry -> grant_entry)) (e : grant_entry) : grant_entry :=
  foldl (fun e f => f e) e (take k remote).

Lemma observe_evolve remote e :
  exists k, observe remote e = (evolve k remote e, drop k remote) /\ (length (drop k remote) = length remote - 1)%nat.
Proof.
  destruct remote as [|f remote].
  - exists 0%nat. done.
  - exists 1%nat. split; [done|]. rewrite length_drop. simpl. lia.
Qed.

Lemma evolve_drop j k remote e : evolve j (drop k remote) (evolve k remote e) = evolve (k + j) remote e.
Proof. unfold evolve. rewrite <- foldl_app. f_equal. apply take_take_drop. Qed.

Section Ends.
Context (abi : grant_abi).

Lemma end_access_loop_spec fuel remote e :
  (length remote < fuel)%nat ->
  exists k b e', end_access_loop abi fuel remote (ge_flags e) e = Ok (b, e') /\
    if b : bool then in_use abi (ge_flags (evolve k remote e)) = false /\
      e' = Grant 0 (ge_domid (evolve k remote e)) (ge_frame (evolve k remote e))
    else e' = evolve k remote e /\ in_use abi (ge_flags e') = true.
Proof.
  revert remote e. induction fuel as [|fuel IH]; intros remote e Hf; [lia|]. cbn [end_access_loop].
  destruct (in_use abi (ge_flags e)) eqn:Hu; [by exists 0%nat, false, e|].
  destruct (observe_evolve remote e) as (k & -> & Hl). set (e1 := evolve k remote e).
  destruct (Z.eqb_spec (ge_flags e1) (ge_flags e)) as [E|E].
  - exists k, true. eexists. split; [done|]. fold e1. by rewrite E.
  - destruct remote as [|f remote].
    { destruct E. subst e1. unfold evolve. by destruct k. }
    destruct (IH (drop k (f :: remote)) e1) as (j & b & e' & -> & Hb); [simpl in *; lia|].
    exists (k + j)%nat, b, e'. split; [done|]. unfold e1 in Hb. by rewrite evolve_drop in Hb.
Qed.

Lemma end_transfer_loop_spec fuel remote e :
  (length remote < fuel)%nat ->
  exists k o e', end_transfer_loop abi fuel remote e = Ok (o, e', drop k remote) /\
    match o with
    | None => Z.land (ge_flags (evolve k remote e)) (GTF_transfer_committed abi) = 0 /\
        e' = Grant 0 (ge_domid (evolve k remote e)) (ge_frame (evolve k remote e))
    | Some flags => e' = evolve k remote e /\ flags = ge_flags e' /\ Z.land flags (GTF_transfer_committed abi) <> 0
    end.
Proof.
  revert remote e. induction fuel as [|fuel IH]; intros remote e Hf; [lia|]. cbn [end_transfer_loop].
  destruct (observe_evolve remote e) as (k & -> & Hl). set (e1 := evolve k remote e).
  destruct (Z.eqb_spec (Z.land (ge_flags e1) (GTF_transfer_committed abi)) 0) as [E|E]; cbn [negb].
  2:{ exists k. eexists _, _. split; [done|]. by splits. }
  destruct (observe_evolve (drop k remote) e1) as (j & -> & Hl2). set (e2 := evolve j (drop k remote) e1).
  assert (e2 = evolve (k + j) remote e) as He2 by (unfold e2, e1; by rewrite evolve_drop).
  rewrite drop_drop in *. destruct (Z.eqb_spec (ge_flags e2) (ge_flags e1)) as [E2|E2].
  - exists (k + j)%nat. eexists _, _. split; [done|]. cbv beta iota. rewrite <- He2, E2. by split.
  - destruct (decide (length remote = 0)%nat) as [H0|H0].
    { apply nil_length_inv in H0 as ->. destruct E2. subst e2. unfold evolve. rewrite drop_nil. by destruct j. }
    destruct (IH (drop (k + j) remote) e2) as (i & o & e' & -> & Ho); [lia|].
    exists (k + j + i)%nat, o, e'. rewrite drop_drop. split; [done|]. rewrite He2 in Ho. by rewrite evolve_drop in Ho.
Qed.

Lemma wait_completed_spec fuel remote e :
  (length remote < fuel)%nat ->
  (exists k, wait_completed abi fuel remote (ge_flags e) e = Ok (evolve k remote e, drop k remote) /\
     Z.land (ge_flags (evolve k remote e)) (GTF_transfer_completed abi) <> 0) \/
  (wait_completed abi fuel remote (ge_flags e) e = Fuel /\
   forall k, Z.land (ge_flags (evolve k remote e)) (GTF_transfer_completed abi) = 0).
Proof.
  revert remote e. induction fuel as [|fuel IH]; intros remote e Hf; [lia|]. cbn [wait_completed].
  destruct (Z.eqb_spec (Z.land (ge_flags e) (GTF_transfer_completed abi)) 0) as [E|E]; cbn [negb].
  2:{ left. exists 0%nat. by split. }
  destruct remote as [|f remote].
  - right. cbn [observe]. split.
    + clear IH Hf. induction fuel as [|fuel IHf]; cbn [wait_completed]; rewrite E; cbn [Z.eqb negb observe]; done.
    + intros k. unfold evolve. by destruct k.
  - cbn [observe]. destruct (IH remote (f e)) as [(k & -> & Hk)|[-> Hk]]; [simpl in Hf; lia|left|right].
    + exists (S k). by split.
    + split; [done|]. intros [|k]; [done|]. apply (Hk k).
Qed.
End Ends.

(** ** Properties *)

(** [gnttab_grant_access] hands out the first free reference, which is not
    free any more, and makes its entry grant the frame; no other entry changes.
    When no reference is free it stops on the assertion. *)
Lemma grant_access_exclusive abi g l domid frame readonly :
  0 < NR_GRANT_ENTRIES abi -> free_refs abi g l ->
  match l with
  | [] => gnttab_grant_access abi domid frame readonly g = Bug BUG_ON
  | r :: l' => exists g', gnttab_grant_access abi domid frame readonly g = Ok (r, g') /\ free_refs abi g' l' /\ r ∉ l' /\
      entry r g' = Ok (Grant (wrap 16 (Z.lor (GTF_permit_access abi) (readonly * GTF_readonly abi))) domid (wrap32 frame)) /\
      forall x, 0 <= x -> x <> r -> entry x g' = entry x g
  end.
Proof.
  intros Hn Hf. pose proof (get_spec abi g l Hn Hf) as Hget. unfold gnttab_grant_access.
  destruct l as [|r l]; [by rewrite Hget|]. destruct Hget as (g1 & -> & Hf1 & Ht1). cbn [mbind res_bind].
  pose proof Hf as (_ & Hnd & Hb & _). apply NoDup_cons in Hnd as [Hrl _]. apply Forall_cons in Hb as [Hb _].
  destruct (set_entry_spec abi g1 l r (Grant (wrap 16 (Z.lor (GTF_permit_access abi) (readonly * GTF_readonly abi))) domid (wrap32 frame)) Hf1 Hb)
    as (g2 & -> & Hf2 & Ht2 & He2). cbn [mbind res_bind].
  exists g2. splits; try done. intros x Hx Hne. unfold entry. rewrite (proj2 (Z.leb_le 0 x)) by lia.
  unfold NR_RESERVED_ENTRIES in Hb. rewrite Ht2, list_lookup_insert_ne by lia. by rewrite Ht1.
Qed.

(** C40: Whatever the other domains do to the entry meanwhile, [gnttab_end_access]
    returns: 1 after clearing the flags of an entry that was at that moment
    neither read nor written, whose reference is then free; or 0, leaving the
    entry as the others made it, after it was seen in use. *)
Theorem end_access_atomic abi remote r g l e :
  0 < NR_GRANT_ENTRIES abi -> free_refs abi g l -> NR_RESERVED_ENTRIES <= r < NR_GRANT_ENTRIES abi -> r ∉ l ->
  Z.of_nat (length l) < 2 ^ 31 - 2 -> entry r g = Ok e ->
  exists k v g', gnttab_end_access abi remote r g = Ok (v, g') /\
    ((v = 1 /\ in_use abi (ge_flags (evolve k remote e)) = false /\ free_refs abi g' (r :: l) /\
      entry r g' = Ok (Grant 0 (ge_domid (evolve k remote e)) (ge_frame (evolve k remote e)))) \/
     (v = 0 /\ in_use abi (ge_flags (evolve k remote e)) = true /\ free_refs abi g' l /\ entry r g' = Ok (evolve k remote e))).
Proof.
  intros Hn Hf Hr Hrl Hlen He. unfold gnttab_end_access. rewrite He. cbn [mbind res_bind].
  destruct (observe_evolve remote e) as (k & -> & Hl).
  destruct (end_access_loop_spec abi (2 + length (drop k remote)) (drop k remote) (evolve k remote e)) as (j & b & e' & -> & Hb); [lia|].
  rewrite evolve_drop in Hb. cbn [mbind res_bind]. exists (k + j)%nat.
  destruct (set_entry_spec abi g l r e' Hf Hr) as (g1 & -> & Hf1 & Ht1 & He1). cbn [mbind res_bind]. destruct b.
  - destruct (put_spec abi g1 l r Hn Hf1 Hr Hrl Hlen) as (g2 & -> & Hf2 & Ht2). cbn [mbind res_bind].
    destruct Hb as [Hu ->]. exists 1, g2. split; [done|]. left. splits; try done. unfold entry in *. by rewrite Ht2.
  - destruct Hb as [-> Hu]. exists 0, g1. split; [done|]. right. by splits.
Qed.

(** [gnttab_end_transfer] takes the reference back and returns 0 when no
    transfer was committed at the moment of the exchange; when one is committed it
    returns the frame of the entry after the transfer was completed, and it waits
    for as long as the other side does not complete it. *)
Lemma end_transfer_frame abi remote r g l e :
  0 < NR_GRANT_ENTRIES abi -> free_refs abi g l -> NR_RESERVED_ENTRIES <= r < NR_GRANT_ENTRIES abi -> r ∉ l ->
  Z.of_nat (length l) < 2 ^ 31 - 2 -> entry r g = Ok e ->
  (exists k g', gnttab_end_transfer abi remote r g = Ok (0, g') /\ free_refs abi g' (r :: l) /\
     Z.land (ge_flags (evolve k remote e)) (GTF_transfer_committed abi) = 0) \/
  (exists k j i, Z.land (ge_flags (evolve k remote e)) (GTF_transfer_committed abi) <> 0 /\
     Z.land (ge_flags (evolve (k + j) remote e)) (GTF_transfer_completed abi) <> 0 /\
     exists g', gnttab_end_transfer abi remote r g = Ok (ge_frame (evolve (k + j + i) remote e), g') /\ free_refs abi g' (r :: l)) \/
  (gnttab_end_transfer abi remote r g = Fuel /\ exists k, Z.land (ge_flags (evolve k remote e)) (GTF_transfer_committed abi) <> 0 /\
     forall j, Z.land (ge_flags (evolve (k + j) remote e)) (GTF_transfer_completed abi) = 0).
Proof.
  intros Hn Hf Hr Hrl Hlen He. unfold gnttab_end_transfer. rewrite He. cbn [mbind res_bind].
  destruct (end_transfer_loop_spec abi (2 + length remote) remote e) as (k & o & e' & -> & Ho); [lia|]. cbn [mbind res_bind].
  assert (forall x, exists g', (g0 ← set_entry r x g; put_free_entry r g0) = Ok g' /\ free_refs abi g' (r :: l)) as Hput.
  { intros x. destruct (set_entry_spec abi g l r x Hf Hr) as (g1 & -> & Hf1 & _). cbn [mbind res_bind].
    destruct (put_spec abi g1 l r Hn Hf1 Hr Hrl Hlen) as (g2 & -> & Hf2 & _). eauto. }
  destruct o as [flags|].
  - destruct Ho as (-> & -> & Hc).
    destruct (wait_completed_spec abi (1 + length (drop k remote)) (drop k remote) (evolve k remote e)) as [(j & -> & Hj)|[-> Hj]]; [lia|right; left|right; right].
    + cbn [mbind res_bind]. rewrite evolve_drop in Hj |- *. rewrite drop_drop.
      destruct (observe_evolve (drop (k + j) remote) (evolve (k + j) remote e)) as (i & -> & _). rewrite evolve_drop.
      exists k, j, i. splits; [done|done|]. destruct (Hput (evolve (k + j + i) remote e)) as (g2 & Hg2 & Hf2).
      destruct (set_entry r (evolve (k + j + i) remote e) g); cbn [mbind res_bind] in *; try done.
      destruct (put_free_entry r a); cbn [mbind res_bind] in *; try done. simplify_eq. eauto.
    + split; [done|]. exists k. split; [done|]. intros j. specialize (Hj j). by rewrite evolve_drop in Hj.
  - destruct Ho as [Hc ->]. left. destruct (Hput (Grant 0 (ge_domid (evolve k remote e)) (ge_frame (evolve k remote e)))) as (g2 & Hg2 & Hf2).
    destruct (set_entry _ _ g); cbn [mbind res_bind] in *; try done.
    destruct (put_free_entry r a); cbn [mbind res_bind] in *; try done. simplify_eq. eauto 10.
Qed.

(** ** Instances *)

(** The flags of xen/grant_table.h, version 1, with entries so large that the
    table has 16 of them. *)
Definition demo_abi : grant_abi := GrantABI 1024 1 2 4 8 16 4 8.

Lemma boot_free abi : 8 <= NR_GRANT_ENTRIES abi < 2 ^ 30 -> free_refs abi (boot_gnttab abi) [].
Proof.
  intros Hn. unfold free_refs, boot_gnttab. cbn [gnttab_list gnttab_table num_free]. rewrite !length_replicate.
  splits; try done; try lia; [|constructor].
  simpl. unfold rd. cbn. rewrite lookup_replicate_2 by lia. done.
Qed.

(** After initialisation all references but the reserved ones are free. *)
Lemma init_gnttab_spec abi frames :
  8 <= NR_GRANT_ENTRIES abi < 2 ^ 30 ->
  exists g, init_gnttab abi frames (boot_gnttab abi) = Ok g /\
    free_refs abi g (rev (seqZ NR_RESERVED_ENTRIES (NR_GRANT_ENTRIES abi - NR_RESERVED_ENTRIES))).
Proof.
  intros Hn. pose proof (boot_free abi Hn) as Hb. unfold init_gnttab, init_frames, NR_RESERVED_ENTRIES in *.
  destruct (init_spec abi (Z.to_nat (NR_GRANT_ENTRIES abi - 8)) 8 (boot_gnttab abi) []) as (g & -> & Hf & _);
    [lia|done|constructor|unfold NR_RESERVED_ENTRIES; lia|lia|simpl; lia|].
  cbn [mbind res_bind]. eexists. split; [done|]. rewrite app_nil_r, Z2Nat.id in Hf by lia. exact Hf.
Qed.

Definition demo_gnttab : gnttab :=
  match init_gnttab demo_abi [100; 101; 102; 103] (boot_gnttab demo_abi) with Ok g => g | _ => boot_gnttab demo_abi end.

Lemma demo_gnttab_free : free_refs demo_abi demo_gnttab (15 :: rev (seqZ 8 7)).
Proof.
  destruct (init_gnttab_spec demo_abi [100; 101; 102; 103]) as (g & Hg & Hf); [by vm_compute|].
  unfold demo_gnttab. rewrite Hg. exact Hf.
Qed.

Lemma grant_access_exclusive_witness :
  exists g', gnttab_grant_access demo_abi 0 77 1 demo_gnttab = Ok (15, g') /\ entry 15 g' = Ok (Grant 5 0 77).
Proof.
  destruct (grant_access_exclusive demo_abi demo_gnttab (15 :: rev (seqZ 8 7)) 0 77 1) as (g' & H1 & _ & _ & H2 & _);
    [by vm_compute|apply demo_gnttab_free|]. by exists g'.
Defined.

(** Reference 15 granted, so that the one after it is first. *)
Definition demo_granted : gnttab :=
  match gnttab_grant_access demo_abi 0 77 0 demo_gnttab with Ok (_, g) => g | _ => demo_gnttab end.

Lemma demo_granted_free : free_refs demo_abi demo_granted (rev (seqZ 8 7)) /\ entry 15 demo_granted = Ok (Grant 1 0 77).
Proof.
  pose proof (get_spec demo_abi demo_gnttab _ ltac:(by vm_compute) demo_gnttab_free) as (g1 & Hg & Hf & _).
  unfold demo_granted, gnttab_grant_access. rewrite Hg. cbn [mbind res_bind].
  destruct (set_entry_spec demo_abi g1 _ 15 (Grant (wrap 16 (Z.lor (GTF_permit_access demo_abi) (0 * GTF_readonly demo_abi))) 0 (wrap32 77)) Hf)
    as (g2 & -> & Hf2 & _ & He); [by vm_compute|]. by split.
Qed.

Lemma granted_not_free : 15 ∉ rev (seqZ 8 7).
Proof.
  pose proof demo_gnttab_free as (_ & Hnd & _). apply NoDup_cons in Hnd. tauto.
Qed.

(** Another domain starts reading, then stops, just before the two exchanges. *)
Definition reader : list (grant_entry -> grant_entry) :=
  [id; (fun e => Grant (Z.lor (ge_flags e) 8) (ge_domid e) (ge_frame e))].

Lemma end_access_atomic_witness :
  exists g', gnttab_end_access demo_abi reader 15 demo_granted = Ok (0, g') /\ entry 15 g' = Ok (Grant 9 0 77).
Proof.
  destruct demo_granted_free as [Hf He].
  destruct (end_access_atomic demo_abi reader 15 demo_granted _ _ ltac:(by vm_compute) Hf ltac:(by vm_compute)
    granted_not_free ltac:(by vm_compute) He) as (k & v & g' & H & Hor).
  assert ((x ← gnttab_end_access demo_abi reader 15 demo_granted; Ok (fst x, entry 15 (snd x))) = Ok (0, Ok (Grant 9 0 77))) as Hv
    by by vm_compute.
  exists g'. rewrite H in Hv |- *. cbn [mbind res_bind fst snd] in Hv. injection Hv as -> ->. done.
Defined.

(** The other side accepts the transfer after the first read, and completes it. *)
Definition transferer : list (grant_entry -> grant_entry) :=
  [id; (fun e => Grant 6 (ge_domid e) (ge_frame e)); id; (fun e => Grant 14 (ge_domid e) 4242)].

Lemma end_transfer_frame_witness :
  exists g', gnttab_end_transfer demo_abi transferer 15 demo_granted = Ok (4242, g') /\ free_refs demo_abi g' (15 :: rev (seqZ 8 7)).
Proof.
  destruct demo_granted_free as [Hf He].
  destruct (end_transfer_frame demo_abi transferer 15 demo_granted _ _ ltac:(by vm_compute) Hf ltac:(by vm_compute)
    granted_not_free ltac:(by vm_compute) He) as [(k & g' & H & _)|[(k & j & i & _ & _ & g' & H & Hg')|[H _]]];
    assert ((x ← gnttab_end_transfer demo_abi transferer 15 demo_granted; Ok (fst x)) = Ok 4242) as Hv by (by vm_compute);
    rewrite H in Hv; cbn [mbind res_bind fst] in Hv; [done| |done].
  exists g'. injection Hv as Hv. rewrite H, Hv. by split.
Defined.

(** Resuming puts every reference on the free list once more: the reference in
    use is handed out again, and the count is twice the number of references. *)
Lemma gnttab_resume_duplicates :
  (g ← gnttab_resume demo_abi [200; 201; 202; 203] (gnttab_suspend demo_granted);
   x ← gnttab_grant_access demo_abi 3 99 0 g; Ok (num_free g, fst x)) = Ok (7 + 8, 15).
Proof. by vm_compute. Qed.
