(* ===== verification/Grants.v ===== *)
(** What the device drivers rely on of the grant tables, and the proof that gnttab.c keeps
    it whatever the other domains do to the entries. *)
From S2P Require Import Prelude Bitmap FreeList Gnttab.
From stdpp Require Import options.

(** The references that are free, the entries of the table, and the two operations of the
    drivers on them.  Granting enters the domain and the frame for the reference.  Ending an
    access clears the entry and frees the reference; when the other domain still uses the
    entry, it is left and the reference stays in use.  No other entry changes. *)
Class GrantTable (G : Type) := {
  grant_access : Z -> Z -> Z -> G -> res (Z * G);
  end_access : Z -> G -> res (Z * G);
  is_ref : Z -> Prop;
  ref_entry : G -> Z -> option grant_entry;
  permit : Z -> Z;                 (** the flags of a grant, by [readonly] *)
  busy : grant_entry -> bool;      (** is the other domain using it? *)
  free_set : G -> gset Z -> Prop;
  free_unique g F F' : free_set g F -> free_set g F' -> F = F';
  free_is_ref g F r : free_set g F -> r ∈ F -> is_ref r;
  grant_law g F domid frame readonly : free_set g F -> F <> ∅ ->
    exists r g', grant_access domid frame readonly g = Ok (r, g') /\ r ∈ F /\ free_set g' (F ∖ {[r]});
  grant_none g domid frame readonly : free_set g ∅ -> grant_access domid frame readonly g = Bug BUG_ON;
  end_law g F r : free_set g F -> is_ref r -> r ∉ F ->
    exists v g', end_access r g = Ok (v, g') /\ (v = 1 /\ free_set g' ({[r]} ∪ F) \/ v = 0 /\ free_set g' F);
  grant_entry_law g F domid frame readonly r g' : free_set g F -> grant_access domid frame readonly g = Ok (r, g') ->
    ref_entry g' r = Some (Grant (permit readonly) domid (wrap32 frame)) /\ forall x, x <> r -> ref_entry g' x = ref_entry g x;
  end_entry_law g F r v g' : free_set g F -> is_ref r -> r ∉ F -> end_access r g = Ok (v, g') ->
    (forall x, x <> r -> ref_entry g' x = ref_entry g x) /\
    exists e, ref_entry g' r = Some e /\ (if v =? 0 then busy e = true else ge_flags e = 0 /\ free_set g' ({[r]} ∪ F))
}.

Section Table.
Context (abi : grant_abi) (entries_range : 8 <= NR_GRANT_ENTRIES abi < 2 ^ 30).

Lemma grant_free g l domid frame readonly :
  free_refs abi g l ->
  match l with
  | [] => gnttab_grant_access abi domid frame readonly g = Bug BUG_ON
  | r :: l' => exists g', gnttab_grant_access abi domid frame readonly g = Ok (r, g') /\ free_refs abi g' l'
  end.
Proof using entries_range.
  intros Hf. pose proof (get_spec abi g l ltac:(lia) Hf) as Hget. unfold gnttab_grant_access.
  destruct l as [|r l]; [by rewrite Hget|]. destruct Hget as (g1 & -> & Hf1 & _). cbn [mbind res_bind].
  pose proof Hf as (_ & _ & Hb & _). apply Forall_cons in Hb as [Hb _].
  destruct (set_entry_spec abi g1 l r (Grant (wrap 16 (Z.lor (GTF_permit_access abi) (readonly * GTF_readonly abi))) domid (wrap32 frame)) Hf1 Hb)
    as (g2 & -> & Hf2 & _). by exists g2.
Qed.

(** No reference is on the list twice, so the list is shorter than the table. *)
Lemma free_refs_short g l : free_refs abi g l -> Z.of_nat (length l) < 2 ^ 31 - 2.
Proof using entries_range.
  intros (_ & Hnd & Hb & _). unfold NR_RESERVED_ENTRIES in Hb.
  assert (length l <= length (seqZ 8 (NR_GRANT_ENTRIES abi - 8)))%nat as Hl.
  { apply submseteq_length, NoDup_submseteq; [done|]. intros x Hx. rewrite Forall_forall in Hb. specialize (Hb x Hx). apply elem_of_seqZ. lia. }
  rewrite length_seqZ in Hl. lia.
Qed.

Lemma end_free remote g l r :
  free_refs abi g l -> NR_RESERVED_ENTRIES <= r < NR_GRANT_ENTRIES abi -> r ∉ l ->
  exists v g', gnttab_end_access abi remote r g = Ok (v, g') /\
    (v = 1 /\ free_refs abi g' (r :: l) \/ v = 0 /\ free_refs abi g' l).
Proof using entries_range.
  intros Hf Hr Hrl. destruct (entry_in abi g l r Hf Hr) as [e He]. unfold gnttab_end_access. rewrite He. cbn [mbind res_bind].
  destruct (observe_evolve remote e) as (k & -> & Hl).
  destruct (end_access_loop_spec abi (2 + length (drop k remote)) (drop k remote) (evolve k remote e)) as (j & b & e' & -> & _); [lia|].
  cbn [mbind res_bind]. destruct (set_entry_spec abi g l r e' Hf Hr) as (g1 & -> & Hf1 & _). cbn [mbind res_bind]. destruct b.
  - destruct (put_spec abi g1 l r ltac:(lia) Hf1 Hr Hrl) as (g2 & -> & Hf2 & _); [by eapply free_refs_short|].
    exists 1, g2. split; [done|]. by left.
  - exists 0, g1. split; [done|]. by right.
Qed.

(** The entries by reference. *)
Definition table_entry (g : gnttab) (r : Z) : option grant_entry := if 0 <=? r then gnttab_table g !! Z.to_nat r else None.

Lemma table_entry_insert g g' r e :
  0 <= r -> r < Z.of_nat (length (gnttab_table g)) -> gnttab_table g' = <[Z.to_nat r := e]> (gnttab_table g) ->
  table_entry g' r = Some e /\ forall x, x <> r -> table_entry g' x = table_entry g x.
Proof using Type.
  intros H0 Hl Ht. unfold table_entry. rewrite Ht. split.
  - rewrite (proj2 (Z.leb_le 0 r)) by lia. apply list_lookup_insert_eq. lia.
  - intros x Hx. destruct (Z.leb_spec 0 x); [|done]. apply list_lookup_insert_ne. lia.
Qed.

Lemma grant_entries g l domid frame readonly r g' :
  free_refs abi g l -> gnttab_grant_access abi domid frame readonly g = Ok (r, g') ->
  table_entry g' r = Some (Grant (wrap 16 (Z.lor (GTF_permit_access abi) (readonly * GTF_readonly abi))) domid (wrap32 frame)) /\
  forall x, x <> r -> table_entry g' x = table_entry g x.
Proof using entries_range.
  intros Hf Hg. pose proof (get_spec abi g l ltac:(lia) Hf) as Hget. unfold gnttab_grant_access in Hg.
  destruct l as [|r' l]; [by rewrite Hget in Hg|]. destruct Hget as (g1 & E1 & Hf1 & Ht). rewrite E1 in Hg. cbn [mbind res_bind] in Hg.
  pose proof Hf as (_ & _ & Hb & _). apply Forall_cons in Hb as [Hb _]. pose proof Hf1 as (_ & _ & _ & _ & _ & _ & Hl).
  match type of Hg with context [set_entry r' ?e g1] => destruct (set_entry_spec abi g1 l r' e Hf1 Hb) as (g2 & E2 & _ & Ht2 & _) end.
  rewrite E2 in Hg. cbn [mbind res_bind] in Hg. injection Hg as <- <-. unfold NR_RESERVED_ENTRIES in Hb.
  destruct (table_entry_insert g1 g2 r' _ ltac:(lia) ltac:(lia) Ht2) as [He Hx]. split; [exact He|].
  intros x Hne. rewrite Hx by done. unfold table_entry. by rewrite Ht.
Qed.

Lemma end_entries remote g l r v g' :
  free_refs abi g l -> NR_RESERVED_ENTRIES <= r < NR_GRANT_ENTRIES abi -> r ∉ l -> gnttab_end_access abi remote r g = Ok (v, g') ->
  (forall x, x <> r -> table_entry g' x = table_entry g x) /\
  exists e, table_entry g' r = Some e /\
    (if v =? 0 then in_use abi (ge_flags e) = true else ge_flags e = 0 /\ free_refs abi g' (r :: l)).
Proof using entries_range.
  intros Hf Hr Hrl Hg. destruct (entry_in abi g l r Hf Hr) as [e He]. unfold gnttab_end_access in Hg. rewrite He in Hg. cbn [mbind res_bind] in Hg.
  destruct (observe_evolve remote e) as (k & Ho & Hl). rewrite Ho in Hg.
  destruct (end_access_loop_spec abi (2 + length (drop k remote)) (drop k remote) (evolve k remote e)) as (j & b & e' & El & Hb); [lia|].
  rewrite El in Hg. cbn [mbind res_bind] in Hg. destruct (set_entry_spec abi g l r e' Hf Hr) as (g1 & E1 & Hf1 & Ht & _). rewrite E1 in Hg. cbn [mbind res_bind] in Hg.
  pose proof Hf as (_ & _ & _ & _ & _ & _ & Hlen). unfold NR_RESERVED_ENTRIES in Hr.
  destruct (table_entry_insert g g1 r e' ltac:(lia) ltac:(lia) Ht) as [He1 Hx]. destruct b.
  - destruct (put_spec abi g1 l r ltac:(lia) Hf1 Hr Hrl) as (g2 & E2 & Hf2 & Ht2); [by eapply free_refs_short|].
    rewrite E2 in Hg. cbn [mbind res_bind] in Hg. injection Hg as <- <-.
    assert (forall x, table_entry g2 x = table_entry g1 x) as E by (intros x; unfold table_entry; by rewrite Ht2).
    split; [intros x Hne; by rewrite E, Hx|]. exists e'. rewrite E. destruct Hb as [_ ->]. by splits.
  - injection Hg as <- <-. split; [done|]. exists e'. by destruct Hb.
Qed.

(** [remote] is what the other domains do to an entry while its access is ended. *)
Context (remote : Z -> gnttab -> list (grant_entry -> grant_entry)).

Program Definition gnttab_grants : GrantTable gnttab := {|
  grant_access := gnttab_grant_access abi;
  end_access r g := gnttab_end_access abi (remote r g) r g;
  is_ref r := NR_RESERVED_ENTRIES <= r < NR_GRANT_ENTRIES abi;
  ref_entry := table_entry;
  permit readonly := wrap 16 (Z.lor (GTF_permit_access abi) (readonly * GTF_readonly abi));
  busy e := in_use abi (ge_flags e);
  free_set g F := exists l, free_refs abi g l /\ F = list_to_set l
|}.
Next Obligation.
  intros g F F' (l & Hf & ->) (l' & Hf' & ->). f_equal. by apply (free_list_unique (gnttab_list g)); apply (free_refs_list abi).
Qed.
Next Obligation.
  intros g F r (l & Hf & ->) Hr. apply elem_of_list_to_set in Hr. destruct Hf as (_ & _ & Hb & _).
  rewrite Forall_forall in Hb. by apply Hb.
Qed.
Next Obligation.
  intros g F domid frame readonly (l & Hf & ->) HF. pose proof (grant_free g l domid frame readonly Hf) as Hg.
  destruct l as [|r l]; [done|]. destruct Hg as (g' & Hg & Hf'). exists r, g'. split; [done|]. split; [set_solver|].
  exists l. split; [done|]. pose proof Hf as (_ & Hnd & _). apply NoDup_cons in Hnd as [Hr _].
  apply leibniz_equiv. set_solver.
Qed.
Next Obligation.
  intros g domid frame readonly (l & Hf & Hl). pose proof (grant_free g l domid frame readonly Hf) as Hg.
  destruct l as [|r l]; [done|]. exfalso. simpl in Hl. set_solver.
Qed.
Next Obligation.
  intros g F r (l & Hf & ->) Hr Hrl. rewrite elem_of_list_to_set in Hrl.
  destruct (end_free (remote r g) g l r Hf Hr Hrl) as (v & g' & Hg & Hor). exists v, g'. split; [done|].
  destruct Hor as [[? Hf']|[? Hf']]; [left|right]; (split; [done|]); by eexists; split; [exact Hf'|].
Qed.
Next Obligation.
  intros g F domid frame readonly r g' (l & Hf & _) Hg. by eapply grant_entries.
Qed.
Next Obligation.
  intros g F r v g' (l & Hf & ->) Hr Hrl Hg. rewrite elem_of_list_to_set in Hrl.
  destruct (end_entries (remote r g) g l r v g' Hf Hr Hrl Hg) as (Hx & e & He & Hv). split; [exact Hx|]. exists e. split; [exact He|].
  destruct (v =? 0); [done|]. destruct Hv as [? Hf']. split; [done|]. by eexists; split; [exact Hf'|].
Qed.
End Table.

(** Ending the transfer and then the access of a grant puts its reference on the free list
    twice: the list is then a loop, and every later grant gets that reference. *)
Lemma unmap_buffer_twice abi (g : gnttab) l r e :
  free_refs abi g l -> NR_RESERVED_ENTRIES <= r < NR_GRANT_ENTRIES abi -> entry r g = Ok e -> Z.land (ge_flags e) (GTF_transfer_committed abi) = 0 ->
  exists g1 g2, gnttab_end_transfer abi [] r g = Ok (0, g1) /\ gnttab_end_access abi [] r g1 = Ok (1, g2) /\
    rd (gnttab_list g2) 0 = Ok r /\ rd (gnttab_list g2) r = Ok r.
Proof.
  intros Hf Hr He Hc. pose proof Hf as (_ & _ & _ & _ & _ & Hll & _). unfold gnttab_end_transfer. rewrite He.
  cbn [mbind res_bind length Nat.add end_transfer_loop observe]. rewrite Hc. cbn [Z.eqb negb]. rewrite Z.eqb_refl. cbn [mbind res_bind].
  destruct (set_entry_spec abi g l r (Grant 0 (ge_domid e) (ge_frame e)) Hf Hr) as (ga & -> & Hfa & _ & Hea). cbn [mbind res_bind].
  unfold put_free_entry. pose proof Hfa as (_ & _ & _ & _ & _ & Hla & _). unfold NR_RESERVED_ENTRIES in Hr.
  destruct (fl_push_twice (gnttab_list ga) r) as (m1 & m2 & -> & E2 & H0 & H1); [lia|]. cbn [mbind res_bind].
  set (g1 := set_list m1 _ ga). exists g1. unfold gnttab_end_access.
  assert (entry r g1 = Ok (Grant 0 (ge_domid e) (ge_frame e))) as -> by exact Hea.
  cbn [mbind res_bind length Nat.add observe end_access_loop ge_flags ge_domid ge_frame in_use]. unfold in_use. cbn [Z.land Z.eqb negb mbind res_bind].
  unfold set_entry. assert (entry r g1 = Ok (Grant 0 (ge_domid e) (ge_frame e))) as -> by exact Hea. cbn [mbind res_bind].
  unfold put_free_entry. cbn [gnttab_list set_table g1 set_list]. rewrite E2. cbn [mbind res_bind]. eexists. by splits.
Qed.
