(* ===== verification/SharedRing.v ===== *)
(** The request and response rings that the device drivers share with their back ends.

    The macros come from Xen's public header io/ring.h: the class [ring_macros] has the ones
    the drivers use, [ring_macros_ok] what the header documents.  A ring has a number of slots
    that is a power of two; requests and responses use the same slots, and the indices run
    through all 32-bit values.  The second half reads the slots between two indices as a
    sequence. *)
From S2P Require Import Prelude.
From stdpp Require Import options.

(** [struct x_sring]: the shared page. *)
Record sring {A : Type} := SRing {
  req_prod : Z; req_event : Z;
  rsp_prod : Z; rsp_event : Z;
  slots : list A
}.
Arguments sring : clear implicits.
Arguments SRing {A}.

(** [struct x_front_ring] *)
Record front_ring {A : Type} := FRing { req_prod_pvt : Z; rsp_cons : Z; shared : sring A }.
Arguments front_ring : clear implicits.
Arguments FRing {A}.

Definition set_slots {A} (v : list A) (s : sring A) : sring A := SRing (req_prod s) (req_event s) (rsp_prod s) (rsp_event s) v.
Definition set_req_prod {A} (v : Z) (s : sring A) : sring A := SRing v (req_event s) (rsp_prod s) (rsp_event s) (slots s).
Definition set_rsp_prod {A} (v : Z) (s : sring A) : sring A := SRing (req_prod s) (req_event s) v (rsp_event s) (slots s).
Definition set_rsp_event {A} (v : Z) (s : sring A) : sring A := SRing (req_prod s) (req_event s) (rsp_prod s) v (slots s).
Definition set_shared {A} (v : sring A) (r : front_ring A) : front_ring A := FRing (req_prod_pvt r) (rsp_cons r) v.

(** [A] is the type of a slot. *)
Class ring_macros (A : Type) := {
  RING_SIZE : Z;
  RING_SLOT : Z -> Z;                  (** the slot [RING_GET_REQUEST] and [RING_GET_RESPONSE] give for an index *)
  SHARED_RING_INIT : sring A -> sring A;
  FRONT_RING_INIT : sring A -> front_ring A;
  RING_PUSH_REQUESTS_AND_CHECK_NOTIFY : front_ring A -> bool * front_ring A;
  RING_FINAL_CHECK_FOR_RESPONSES : front_ring A -> bool * front_ring A
}.
Global Hint Mode ring_macros ! : typeclass_instances.
Global Arguments RING_SIZE A {_}.
Global Arguments RING_SLOT A {_} _.

Class ring_macros_ok {A} (R : ring_macros A) : Prop := {
  ring_pow : exists k, 0 < k <= 12 /\ RING_SIZE A = 2 ^ k;
  ring_slot i : 0 <= i < 2 ^ 32 -> RING_SLOT A i = i mod RING_SIZE A;
  shared_init (s : sring A) : SHARED_RING_INIT s = SRing 0 1 0 1 (slots s);
  front_init (s : sring A) : FRONT_RING_INIT s = FRing 0 0 s;
  push_law (r : front_ring A) : (RING_PUSH_REQUESTS_AND_CHECK_NOTIFY r).2 = set_shared (set_req_prod (req_prod_pvt r) (shared r)) r;
  final_law (r : front_ring A) : exists e, RING_FINAL_CHECK_FOR_RESPONSES r =
    (negb (rsp_prod (shared r) =? rsp_cons r), set_shared (set_rsp_event e (shared r)) r)
}.

Section Slots.
Context {A : Type} {R : ring_macros A}.

(** The slot of an index, and an assignment to it. *)
Definition ring_get (i : Z) (s : sring A) : res A :=
  access (if 0 <=? RING_SLOT A i then slots s !! Z.to_nat (RING_SLOT A i) else None).

Definition ring_put (i : Z) (x : A) (s : sring A) : res (sring A) :=
  _ ← ring_get i s; Ok (set_slots (<[Z.to_nat (RING_SLOT A i) := x]> (slots s)) s).
End Slots.

Lemma wrap32_inj i j : - 2 ^ 32 < i - j < 2 ^ 32 -> wrap32 i = wrap32 j -> i = j.
Proof. intros Hd He. unfold wrap in He. by apply (mod_inj (2 ^ 32)) in He. Qed.

Section Windows.
Set Default Proof Using "Type*".
Context {A : Type} {R : ring_macros A} {RO : ring_macros_ok R}.

Local Abbreviation N := (RING_SIZE A).

Lemma ring_size_bounds : 2 <= N <= 4096 /\ (N | 2 ^ 32).
Proof.
  destruct ring_pow as (k & Hk & ->). split.
  - pose proof (Z.pow_le_mono_r 2 1 k ltac:(lia) ltac:(lia)). pose proof (Z.pow_le_mono_r 2 k 12 ltac:(lia) ltac:(lia)). lia.
  - exists (2 ^ (32 - k)). rewrite <- Z.pow_add_r by lia. f_equal. lia.
Qed.

(** The slot of the [i]th position of the ring, an index without wrap-around. *)
Definition pos (i : Z) : nat := Z.to_nat (i mod N).

Lemma slot_pos i : Z.to_nat (RING_SLOT A (wrap32 i)) = pos i /\ 0 <= RING_SLOT A (wrap32 i) < N.
Proof.
  pose proof ring_size_bounds as [HN Hd]. pose proof (wrap_range 32 i ltac:(lia)).
  rewrite ring_slot by done. rewrite wrap_mod by (done || lia). split; [done|]. apply Z.mod_pos_bound. lia.
Qed.

Lemma mod_N_range i : 0 <= i mod N < N.
Proof. apply Z.mod_pos_bound. pose proof ring_size_bounds. lia. Qed.

Lemma pos_lt i : (pos i < Z.to_nat N)%nat.
Proof. pose proof (mod_N_range i). unfold pos. lia. Qed.

Lemma pos_inj i j : - N < i - j < N -> pos i = pos j -> i = j.
Proof.
  pose proof ring_size_bounds as [HN _]. pose proof (mod_N_range i). pose proof (mod_N_range j).
  unfold pos. intros. apply (mod_inj N); lia.
Qed.

(** The slots from position [p] on hold the sequence [xs]. *)
Definition window (s : sring A) (p : Z) (xs : list A) : Prop :=
  forall i x, xs !! i = Some x -> slots s !! pos (p + Z.of_nat i) = Some x.

Definition slots_ok (s : sring A) : Prop := length (slots s) = Z.to_nat N.

Lemma ring_get_pos s i : slots_ok s -> ring_get (wrap32 i) s = access (slots s !! pos i).
Proof.
  intros Hs. destruct (slot_pos i) as [Hp Hr]. unfold ring_get. rewrite Hp, (proj2 (Z.leb_le _ _)); [done|lia].
Qed.

Lemma ring_put_pos s i x : slots_ok s -> ring_put (wrap32 i) x s = Ok (set_slots (<[pos i := x]> (slots s)) s).
Proof.
  intros Hs. unfold ring_put. rewrite ring_get_pos by done. destruct (slot_pos i) as [-> _].
  destruct (lookup_lt_is_Some_2 (slots s) (pos i)) as [y ->]; [rewrite Hs; apply pos_lt|]. done.
Qed.

Lemma ring_get_window s p x xs : slots_ok s -> window s p (x :: xs) -> ring_get (wrap32 p) s = Ok x.
Proof.
  intros Hs Hw. rewrite ring_get_pos by done. specialize (Hw 0%nat x eq_refl). rewrite Z.add_0_r in Hw. by rewrite Hw.
Qed.

Lemma window_nil s p : window s p [].
Proof. by intros [] ?. Qed.

Lemma window_slots s s' p xs : slots s' = slots s -> window s p xs -> window s' p xs.
Proof. intros He Hw i x Hx. rewrite He. by apply Hw. Qed.

Lemma window_cons s p x xs : window s p (x :: xs) <-> slots s !! pos p = Some x /\ window s (p + 1) xs.
Proof.
  split.
  - intros Hw. split; [specialize (Hw 0%nat x eq_refl); by rewrite Z.add_0_r in Hw|].
    intros i y Hy. specialize (Hw (S i) y Hy). by replace (p + 1 + Z.of_nat i) with (p + Z.of_nat (S i)) by lia.
  - intros [Hx Hw] [|i] y; simpl; [intros [= <-]; by rewrite Z.add_0_r|].
    intros Hy. specialize (Hw i y Hy). by replace (p + Z.of_nat (S i)) with (p + 1 + Z.of_nat i) by lia.
Qed.

Lemma window_drop s p xs n : window s p xs -> window s (p + Z.of_nat n) (drop n xs).
Proof.
  intros Hw i x Hx. rewrite lookup_drop in Hx. specialize (Hw _ _ Hx).
  by replace (p + Z.of_nat n + Z.of_nat i) with (p + Z.of_nat (n + i)) by lia.
Qed.

(** An assignment to a position outside a window, at most a ring away, leaves it alone. *)
Lemma window_put s p xs q x :
  (forall i, p <= i < p + Z.of_nat (length xs) -> - N < i - q < N /\ i <> q) ->
  window s p xs -> window (set_slots (<[pos q := x]> (slots s)) s) p xs.
Proof.
  intros Hq Hw i y Hy. pose proof (lookup_lt_Some _ _ _ Hy). destruct (Hq (p + Z.of_nat i)) as [Hd Hne]; [lia|].
  simpl. rewrite list_lookup_insert_ne; [by apply Hw|]. intros Heq. apply Hne, pos_inj; [done|congruence].
Qed.

Lemma window_snoc s p xs x :
  slots_ok s -> Z.of_nat (length xs) < N -> window s p xs ->
  window (set_slots (<[pos (p + Z.of_nat (length xs)) := x]> (slots s)) s) p (xs ++ [x]).
Proof.
  intros Hs Hl Hw i y Hy. apply lookup_app_Some in Hy as [Hy|[Hge Hy]].
  - pose proof (lookup_lt_Some _ _ _ Hy). simpl. rewrite list_lookup_insert_ne; [by apply Hw|].
    intros Heq. apply pos_inj in Heq; lia.
  - apply list_lookup_singleton_Some in Hy as [Hi <-]. replace i with (length xs) by lia. simpl.
    apply list_lookup_insert_eq. rewrite Hs. apply pos_lt.
Qed.

Lemma set_slots_ok s i x : slots_ok s -> slots_ok (set_slots (<[i := x]> (slots s)) s).
Proof. unfold slots_ok. simpl. by rewrite length_insert. Qed.

(** ** The back end's side: entries placed at the producer index of the responses *)

Fixpoint deliver (xs : list A) (s : sring A) : sring A :=
  match xs with
  | [] => s
  | x :: xs => deliver xs (set_rsp_prod (wrap32 (rsp_prod s + 1)) (set_slots (<[Z.to_nat (RING_SLOT A (rsp_prod s)) := x]> (slots s)) s))
  end.

Lemma deliver_spec xs s c p ys :
  slots_ok s -> rsp_prod s = wrap32 p -> window s c ys -> p = c + Z.of_nat (length ys) -> Z.of_nat (length (ys ++ xs)) <= N ->
  slots_ok (deliver xs s) /\ rsp_prod (deliver xs s) = wrap32 (p + Z.of_nat (length xs)) /\ window (deliver xs s) c (ys ++ xs) /\
  req_prod (deliver xs s) = req_prod s /\
  forall j, p + Z.of_nat (length xs) <= j < c + N -> slots (deliver xs s) !! pos j = slots s !! pos j.
Proof.
  revert s p ys. induction xs as [|x xs IH]; intros s p ys Hs Hp Hw -> Hn; simpl.
  { rewrite app_nil_r, Z.add_0_r. by splits. }
  rewrite length_app in Hn. simpl in Hn. rewrite Hp. destruct (slot_pos (c + Z.of_nat (length ys))) as [-> _].
  rewrite wrap_add_l. set (s1 := set_rsp_prod _ _).
  destruct (IH s1 (c + Z.of_nat (length ys) + 1) (ys ++ [x])) as (H1 & H2 & H3 & H4 & H5); try done.
  - by apply (set_slots_ok s).
  - apply (window_slots (set_slots (<[pos (c + Z.of_nat (length ys)) := x]> (slots s)) s)); [done|]. by apply window_snoc; [|lia|].
  - rewrite length_app. simpl. lia.
  - rewrite !length_app. simpl. lia.
  - rewrite <- app_assoc in H3. splits; try done; [by rewrite H2; f_equal; lia|].
    intros j Hj. rewrite H5 by lia. simpl. apply list_lookup_insert_ne. intros E. apply pos_inj in E; lia.
Qed.
End Windows.
Global Arguments pos A {_} _.

(** ** Batches of answers

    The batches [bs] are what the back end adds before each access of a handler to its index;
    a handler that looks for more answers after each pass goes round again when a batch came
    during the pass.  The first component is what the passes before the last one handle, the
    second what the last one does. *)
Fixpoint split_passes {A} (carry : list A) (bs : list (list A)) : list A * list A :=
  match bs with
  | [] => ([], carry)
  | [b] => ([], carry ++ b)
  | b0 :: b1 :: bs =>
      match b1 with
      | [] => ([], carry ++ b0)
      | _ => let '(done, last) := split_passes b1 bs in ((carry ++ b0) ++ done, last)
      end
  end.

Lemma split_passes_unfold {A} (carry : list A) bs : split_passes carry bs =
  (let b0 := default [] (head bs) in let b1 := default [] (head (tail bs)) in
   if bool_decide (b1 = []) then ([], carry ++ b0)
   else ((carry ++ b0) ++ (split_passes b1 (tail (tail bs))).1, (split_passes b1 (tail (tail bs))).2)).
Proof.
  destruct bs as [|b0 [|b1 bs]]; cbn [split_passes head tail default]; [by rewrite app_nil_r|done|].
  destruct b1; [done|]. rewrite bool_decide_eq_false_2 by done. cbn [default]. by destruct (split_passes _ bs).
Qed.

Lemma split_passes_carry {A} (carry : list A) bs before last :
  split_passes carry bs = (before, last) -> (length carry <= length (before ++ last))%nat.
Proof.
  destruct bs as [|b0 [|b1 bs]]; cbn [split_passes].
  - intros [= <- <-]. simpl. lia.
  - intros [= <- <-]. simpl. rewrite length_app. lia.
  - destruct b1; [|destruct (split_passes _ bs)]; intros [= <- <-]; rewrite ?length_app; simpl; rewrite ?length_app; lia.
Qed.

(** ** A ring of eight slots with the arithmetic of io/ring.h *)
Definition demo_macros (A : Type) : ring_macros A := {|
  RING_SIZE := 8;
  RING_SLOT i := Z.land i 7;
  SHARED_RING_INIT s := SRing 0 1 0 1 (slots s);
  FRONT_RING_INIT s := FRing 0 0 s;
  RING_PUSH_REQUESTS_AND_CHECK_NOTIFY r :=
    let old := req_prod (shared r) in let new := req_prod_pvt r in
    (wrap32 (new - req_event (shared r)) <? wrap32 (new - old), set_shared (set_req_prod new (shared r)) r);
  RING_FINAL_CHECK_FOR_RESPONSES r :=
    if rsp_prod (shared r) =? rsp_cons r then (false, set_shared (set_rsp_event (wrap32 (rsp_cons r + 1)) (shared r)) r)
    else (true, set_shared (set_rsp_event (rsp_event (shared r)) (shared r)) r)
|}.

Lemma demo_macros_ok A : ring_macros_ok (demo_macros A).
Proof.
  constructor; simpl; try done.
  - exists 3. done.
  - intros i _. change 7 with (Z.ones 3). rewrite Z.land_ones by lia. done.
  - intros r. case_match; eexists; done.
Qed.
