(* ===== verification/BlkFront.v ===== *)
(** The block device front end: blk_front.c, include/guk/blk_front.h.

    All devices share one pool of shadow buffers, whose indices are the identifiers of the
    requests on the rings; the free ones are on a free list.  The requests of the callers are
    a map from their addresses; the grant tables and the ring are used through [GrantTable]
    and [ring_macros].  Callbacks, event notifications and the completion of start-up are
    appended to the trace [log].  What the code does while it holds the lock of a device is
    one definition; a function that waits is split there. *)
From S2P Require Import Prelude FreeList Grants SharedRing.
From stdpp Require Import options.

Definition MAX_DEVICES : Z := 8.
Definition SECTOR_BITS : Z := 9.
Definition SECTOR_SIZE : Z := Z.shiftl 1 SECTOR_BITS.
Definition BLK_PAGE_SIZE : Z := 4096.
Definition SECTORS_PER_PAGE : Z := BLK_PAGE_SIZE / SECTOR_SIZE.
Definition addr_to_sec (addr : Z) : Z := Z.quot addr SECTOR_SIZE.
Definition ENOMEM : Z := 12.

(** ** The interface of Xen's io/blkif.h *)

Record blkif_request_segment := Seg { sg_gref : Z; first_sect : Z; last_sect : Z }.
Record blkif_request := BReq {
  b_operation : Z; nr_segments : Z; handle : Z; b_id : Z; sector_number : Z;
  seg : list blkif_request_segment
}.
Record blkif_response := BRsp { rs_id : Z; rs_status : Z }.

(** A slot of the ring is a union. *)
Inductive blkif_entry := EReq (q : blkif_request) | ERsp (r : blkif_response).

(** The constants, and how the bytes of one member of the union read as the other. *)
Class blkif := {
  BLKIF_MAX_SEGMENTS_PER_REQUEST : Z;
  BLKIF_OP_READ : Z; BLKIF_OP_WRITE : Z;
  BLKIF_RSP_OKAY : Z;
  rsp_as_req : blkif_response -> blkif_request;
  req_as_rsp : blkif_request -> blkif_response
}.

Class blkif_ok (B : blkif) : Prop := {
  max_segments : BLKIF_MAX_SEGMENTS_PER_REQUEST = 11;
  rsp_segments r : length (seg (rsp_as_req r)) = Z.to_nat BLKIF_MAX_SEGMENTS_PER_REQUEST
}.

(** ** The data of blk_front.c *)

Inductive blk_state := BLK_EMPTY | BLK_SUBMITTED | BLK_DONE_SUCCESS | BLK_DONE_ERROR.
Inductive dev_state := ST_UNKNOWN | ST_READY | ST_SUSPENDING | ST_SUSPENDED | ST_RESUMING.

Global Instance blk_state_eq_dec : EqDecision blk_state.
Proof. solve_decision. Defined.
Global Instance dev_state_eq_dec : EqDecision dev_state.
Proof. solve_decision. Defined.

(** [callback] is 0 when there is none. *)
Record blk_request := BlkReq {
  pages : list Z; num_pages : Z; start_sector : Z; end_sector : Z;
  device : Z; address : Z;
  state : blk_state; operation : Z;
  callback : Z; callback_data : Z
}.

Record blk_shadow := Shadow { gref : list Z; num_refs : Z; free : Z; request : Z }.

Record device_info := DevInfo { sector_size : Z; sectors : Z; info : Z; id : Z }.

Record blk_dev := BlkDev {
  ring_ref : Z; d_state : dev_state; evtchn : Z; local_port : Z;
  ring : front_ring blkif_entry; d_device : device_info
}.

Inductive blk_event :=
| Callback (fn a : Z)          (** [io_req->callback(io_req)] *)
| Notify (port : Z)            (** [notify_remote_via_evtchn(port)] *)
| Unbound (port : Z)           (** [unbind_evtchn(port)] *)
| InitReady                    (** [init_completion(&ready_completion)] *)
| RmWatch.                     (** [xenbus_rm_watch("blk-front")] *)

Record blk {G : Type} := Blk {
  blk_devices : list blk_dev;
  freelist : list Z;
  shadows : list blk_shadow;
  requests : gmap Z blk_request;       (** the callers' requests *)
  grants : G;
  log : list blk_event
}.
Arguments blk : clear implicits.
Arguments Blk {G}.

Definition set_state (v : blk_state) (r : blk_request) : blk_request :=
  BlkReq (pages r) (num_pages r) (start_sector r) (end_sector r) (device r) (address r) v (operation r) (callback r) (callback_data r).
Definition set_pages (v : list Z) (r : blk_request) : blk_request :=
  BlkReq v (num_pages r) (start_sector r) (end_sector r) (device r) (address r) (state r) (operation r) (callback r) (callback_data r).
Definition set_d_state (v : dev_state) (d : blk_dev) : blk_dev :=
  BlkDev (ring_ref d) v (evtchn d) (local_port d) (ring d) (d_device d).
Definition set_ring (v : front_ring blkif_entry) (d : blk_dev) : blk_dev :=
  BlkDev (ring_ref d) (d_state d) (evtchn d) (local_port d) v (d_device d).
Definition set_segs (l : list blkif_request_segment) (q : blkif_request) : blkif_request :=
  BReq (b_operation q) (nr_segments q) (handle q) (b_id q) (sector_number q) l.
Definition set_grefs (l : list Z) (sh : blk_shadow) : blk_shadow := Shadow l (num_refs sh) (free sh) (request sh).
Definition set_free (v : Z) (sh : blk_shadow) : blk_shadow := Shadow (gref sh) (num_refs sh) v (request sh).

Section State.
Context {G : Type}.
Implicit Types s : blk G.
Definition set_devices v s : blk G := Blk v (freelist s) (shadows s) (requests s) (grants s) (log s).
Definition set_pool fl sh s : blk G := Blk (blk_devices s) fl sh (requests s) (grants s) (log s).
Definition set_requests v s : blk G := Blk (blk_devices s) (freelist s) (shadows s) v (grants s) (log s).
Definition set_grants v s : blk G := Blk (blk_devices s) (freelist s) (shadows s) (requests s) v (log s).
Definition add_log e s : blk G := Blk (blk_devices s) (freelist s) (shadows s) (requests s) (grants s) (log s ++ [e]).

Definition dev (d : Z) s : res blk_dev := elem (blk_devices s) d.
Definition set_dev (d : Z) (v : blk_dev) s : res (blk G) := l ← set_elem (blk_devices s) d v; Ok (set_devices l s).
Definition set_shadow (i : Z) (v : blk_shadow) s : res (blk G) :=
  l ← set_elem (shadows s) i v; Ok (set_pool (freelist s) l s).
Definition set_request (a : Z) (v : blk_request) s : blk G := set_requests (<[a := v]> (requests s)) s.
End State.

Section Code.
Context {G : Type} `{!GrantTable G} {R : ring_macros blkif_entry} {B : blkif} (virt_to_mfn : Z -> Z).
Implicit Types s : blk G.

Definition as_request (e : blkif_entry) : blkif_request := match e with EReq q => q | ERsp r => rsp_as_req r end.
Definition as_response (e : blkif_entry) : blkif_response := match e with EReq q => req_as_rsp q | ERsp r => r end.

(** ** The pool of shadow buffers *)

Definition get_freelist_id s : res (Z * blk G) :=
  '(i, l) ← fl_pop (freelist s);
  sh ← elem (shadows s) i;
  s ← set_shadow i (set_free 0 sh) (set_pool l (shadows s) s);
  Ok (i, s).

(** The entries are 16-bit. *)
Definition add_id_freelist (i : Z) s : res (blk G) :=
  l ← fl_push (freelist s) i (wrap 16 i);
  sh ← elem (shadows s) i;
  set_shadow i (set_free 1 sh) (set_pool l (shadows s) s).

(** [for(i=from; i<BLK_RING_SIZE; ++i) add_id_freelist(i)] *)
Fixpoint add_ids (n : nat) (from : Z) s : res (blk G) :=
  match n with O => Ok s | S n => s ← add_id_freelist from s; add_ids n (from + 1) s end.

Definition init_buffers s : res (blk G) := add_ids (Z.to_nat (RING_SIZE blkif_entry)) 0 s.

(** ** The interrupt handler *)

(** [for(i = from; i < num_refs; ++i) gnttab_end_access(gref[i])] *)
Fixpoint end_refs (n : nat) (i : Z) (refs : list Z) (g : G) : res G :=
  match n with
  | O => Ok g
  | S n => r ← elem refs i; '(_, g) ← end_access r g; end_refs n (i + 1) refs g
  end.

Definition complete_request (sh : blk_shadow) s : res (blk G) :=
  g ← end_refs (Z.to_nat (num_refs sh)) 0 (gref sh) (grants s); Ok (set_grants g s).

(** The body of the loop over the responses. *)
Definition handle_response (d cons : Z) s : res (blk G) :=
  v ← dev d s;
  e ← ring_get cons (shared (ring v));
  let response := as_response e in
  shadow ← elem (shadows s) (rs_id response);
  bug_on (negb (free shadow =? 0));;
  s ← complete_request shadow s;
  io_req ← access (requests s !! request shadow);
  bug_on (negb (bool_decide (state io_req = BLK_SUBMITTED)));;
  s ← add_id_freelist (wrap32 (rs_id response)) s;
  let io_req := set_state (if rs_status response =? BLKIF_RSP_OKAY then BLK_DONE_SUCCESS else BLK_DONE_ERROR) io_req in
  let s := set_request (request shadow) io_req s in
  Ok (if callback io_req =? 0 then s else add_log (Callback (callback io_req) (request shadow)) s).

Fixpoint handle_responses (n : nat) (d cons : Z) s : res (blk G) :=
  match n with O => Ok s | S n => s ← handle_response d cons s; handle_responses n d (wrap32 (cons + 1)) s end.

(** What follows the loop; the result says whether there is more to do. *)
Definition finish_responses (d cons : Z) s : res (bool * blk G) :=
  v ← dev d s;
  let r := FRing (req_prod_pvt (ring v)) cons (shared (ring v)) in
  let '(more, r) :=
    if cons =? req_prod_pvt r then (false, set_shared (set_rsp_event (wrap32 (cons + 1)) (shared r)) r)
    else RING_FINAL_CHECK_FOR_RESPONSES r in
  s ← set_dev d (set_ring r v) s;
  Ok (more, s).

(** The back end at work before an access to its index. *)
Definition remote_work (w : list (sring blkif_entry -> sring blkif_entry)) (d : Z) s
    : res (list (sring blkif_entry -> sring blkif_entry) * blk G) :=
  v ← dev d s;
  let r := ring v in
  s ← set_dev d (set_ring (set_shared (match w with [] => shared r | f :: _ => f (shared r) end) r) v) s;
  Ok (tail w, s).

Fixpoint blk_front_handler (fuel : nat) (w : list (sring blkif_entry -> sring blkif_entry)) (d : Z) s : res (blk G) :=
  match fuel with
  | O => Fuel
  | S fuel =>
      '(w, s) ← remote_work w d s;
      v ← dev d s;
      let prod := rsp_prod (shared (ring v)) in
      let cons := rsp_cons (ring v) in
      s ← handle_responses (Z.to_nat (wrap32 (prod - cons))) d cons s;
      '(w, s) ← remote_work w d s;
      '(more, s) ← finish_responses d prod s;
      if (more : bool) then blk_front_handler fuel w d s else Ok s
  end.

Definition __blk_front_handler (fuel : nat) w (d : Z) s : res (blk G) :=
  v ← dev d s;
  if bool_decide (d_state v = ST_READY) then blk_front_handler fuel w d s else Ok s.

(** ** Devices *)

(** The number of devices before the first that is not ready. *)
Fixpoint count_ready (l : list blk_dev) : Z :=
  match l with
  | v :: l => if bool_decide (d_state v = ST_READY) then 1 + count_ready l else 0
  | [] => 0
  end.

Definition guk_blk_get_devices s : Z := count_ready (take (Z.to_nat MAX_DEVICES) (blk_devices s)).

Definition guk_blk_get_sectors (d : Z) s : res Z :=
  if MAX_DEVICES <=? d then Ok 0
  else
    v ← dev d s;
    Ok (if bool_decide (d_state v = ST_READY) then sectors (d_device v) else 0).

(** [page] is what [alloc_page] returned, when the device has no ring page yet. *)
Definition blk_init_ring (page : Z) (fresh : sring blkif_entry) (has_ring : bool) (d : Z) s : res (Z * blk G) :=
  if negb has_ring && (page =? 0) then Ok (1, s)
  else
    v ← dev d s;
    let r := FRONT_RING_INIT (SHARED_RING_INIT fresh) in
    '(ref, g) ← grant_access 0 (virt_to_mfn page) 0 (grants s);
    s ← set_dev d (BlkDev ref (d_state v) (evtchn v) (local_port v) r (d_device v)) (set_grants g s);
    Ok (0, s).

(** ** Submitting a request *)

Definition set_seg (i : Z) (f : blkif_request_segment -> blkif_request_segment) (q : blkif_request) : res blkif_request :=
  x ← elem (seg q) i;
  l ← set_elem (seg q) i (f x);
  Ok (set_segs l q).

Definition set_gref (i v : Z) (sh : blk_shadow) : res blk_shadow :=
  l ← set_elem (gref sh) i v; Ok (set_grefs l sh).

(** Grant page [i] and enter it in the request and in the shadow. *)
Definition grant_page (io : blk_request) (i : Z) (q : blkif_request) (sh : blk_shadow) (g : G)
    : res (blkif_request * blk_shadow * G) :=
  page ← elem (pages io) i;
  '(ref, g) ← grant_access 0 (virt_to_mfn page) 0 g;
  q ← set_seg i (fun x => Seg ref (first_sect x) (last_sect x)) q;
  sh ← set_gref i ref sh;
  Ok (q, sh, g).

(** [for(i = from; i < num_pages; ++i)]: the middle segments. *)
Fixpoint middle_segments (n : nat) (io : blk_request) (i : Z) (q : blkif_request) (sh : blk_shadow) (g : G)
    : res (blkif_request * blk_shadow * G) :=
  match n with
  | O => Ok (q, sh, g)
  | S n =>
      '(q, sh, g) ← grant_page io i q sh g;
      q ← set_seg i (fun x => Seg (sg_gref x) 0 (SECTORS_PER_PAGE - 1)) q;
      middle_segments n io (i + 1) q sh g
  end.

(** The segments of a request; [xen_req->seg[i].last_sect] after the loop is entry
    [num_pages], or 1 when there are no pages. *)
Definition fill_segments (io : blk_request) (q : blkif_request) (sh : blk_shadow) (g : G)
    : res (blkif_request * blk_shadow * G) :=
  '(q, sh, g) ← grant_page io 0 q sh g;
  q ← set_seg 0 (fun x => Seg (sg_gref x) (wrap 8 (start_sector io)) (last_sect x)) q;
  if num_pages io =? 1 then
    q ← set_seg 0 (fun x => Seg (sg_gref x) (first_sect x) (wrap 8 (end_sector io))) q;
    Ok (q, sh, g)
  else
    q ← set_seg 0 (fun x => Seg (sg_gref x) (first_sect x) (SECTORS_PER_PAGE - 1)) q;
    '(q, sh, g) ← middle_segments (Z.to_nat (num_pages io - 1)) io 1 q sh g;
    q ← set_seg (Z.max 1 (num_pages io)) (fun x => Seg (sg_gref x) (first_sect x) (wrap 8 (end_sector io))) q;
    Ok (q, sh, g).

(** The assertions on the request. *)
Definition check_request (io : blk_request) s : res blk_dev :=
  bug_on (negb (bool_decide (state io = BLK_EMPTY)));;
  bug_on (MAX_DEVICES <=? device io);;
  v ← dev (device io) s;
  bug_on (negb (bool_decide (d_state v = ST_READY)));;
  bug_on (sectors (d_device v) <? Z.shiftr (address io) SECTOR_BITS + end_sector io);;
  Ok v.

Definition guk_blk_do_io (a : Z) s : res (Z * blk G) :=
  io ← access (requests s !! a);
  v ← check_request io s;
  let prod := req_prod_pvt (ring v) in
  slot ← ring_get prod (shared (ring v));
  '(i, s) ← get_freelist_id s;
  if i =? 0 then Ok (ENOMEM, s)
  else
    sh ← elem (shadows s) i;
    let q := as_request slot in
    let q := BReq (b_operation q) (nr_segments q) (handle q) i (sector_number q) (seg q) in
    '(q, sh, g) ← fill_segments io q (Shadow (gref sh) (num_refs sh) (free sh) a) (grants s);
    let q := BReq (operation io) (wrap 8 (num_pages io)) 18 (b_id q) (wrap64 (addr_to_sec (address io))) (seg q) in
    s ← set_shadow i (Shadow (gref sh) (sgn 16 (num_pages io)) (free sh) a) (set_grants g s);
    let s := set_request a (set_state BLK_SUBMITTED io) s in
    r ← ring_put prod (EReq q) (shared (ring v));
    let '(notify, r) := RING_PUSH_REQUESTS_AND_CHECK_NOTIFY (FRing (wrap32 (prod + 1)) (rsp_cons (ring v)) r) in
    s ← set_dev (device io) (set_ring r v) s;
    Ok (0, if notify then add_log (Notify (evtchn v)) s else s).

(** ** Suspending *)

Definition ring_has_incomp_req (r : front_ring blkif_entry) : bool := negb (req_prod_pvt r =? rsp_prod (shared r)).
Definition ring_has_unprocessed_resp (r : front_ring blkif_entry) : bool := negb (rsp_cons r =? rsp_prod (shared r)).

Definition MAX_POLL : nat := 12.

(** The loop works on device 0, whatever device is passed.  [others] is what the rest of the
    system does during each [sleep], with the lock of the device released; [sleeps] says
    whether the caller may sleep. *)
Fixpoint drain_loop (n : nat) (sleeps : bool) (others : list (blk G -> blk G)) s : res (blk G) :=
  match n with
  | O => Ok s
  | S n =>
      v ← dev 0 s;
      s ← (if ring_has_unprocessed_resp (ring v) then blk_front_handler 2 [] 0 s else Ok s);
      v ← dev 0 s;
      if ring_has_incomp_req (ring v) then
        if sleeps then drain_loop n sleeps (tail others) (match others with [] => s | f :: _ => f s end)
        else drain_loop n sleeps others s
      else Ok s
  end.

Definition drain_io sleeps others (d : Z) s : res (blk G) := drain_loop MAX_POLL sleeps others s.

(** The loop over the devices; [others] has what happens during each call of [drain_io]. *)
Fixpoint suspend_loop (n : nat) (d : Z) (sleeps : bool) (others : list (list (blk G -> blk G))) s : res (blk G) :=
  match n with
  | O => Ok s
  | S n =>
      v ← dev d s;
      let s := add_log (Unbound (evtchn v)) s in
      if bool_decide (d_state v = ST_READY) then
        s ← set_dev d (set_d_state ST_SUSPENDING v) s;
        s ← drain_io sleeps (default [] (head others)) d s;
        suspend_loop n (d + 1) sleeps (tail others) s
      else suspend_loop n (d + 1) sleeps others s
  end.

Definition mark_suspended (v : blk_dev) : blk_dev :=
  if bool_decide (d_state v = ST_SUSPENDING) then set_d_state ST_SUSPENDED v else v.

Definition blk_suspend (sleeps : bool) (others : list (list (blk G -> blk G))) s : res (Z * blk G) :=
  s ← suspend_loop (Z.to_nat MAX_DEVICES) 0 sleeps others s;
  let s := add_log RmWatch (add_log InitReady s) in
  Ok (0, set_devices (mark_suspended <$> blk_devices s) s).
End Code.

(** ** Reading and writing *)

(** [get_order] of include/guk/mm.h. *)
Fixpoint order_loop (fuel : nat) (order size : Z) : res Z :=
  if size =? 0 then Ok order
  else match fuel with O => Fuel | S fuel => order_loop fuel (order + 1) (Z.shiftr size 1) end.
Definition get_order (size : Z) : res Z := order_loop 64 0 (Z.shiftr (wrap64 (size - 1)) 12).

(** [while (size > PAGE_SIZE)]: the pages of a request and the size of the last part. *)
Fixpoint page_loop (fuel : nat) (base i size : Z) (ps : list Z) : res (Z * Z * list Z) :=
  if BLK_PAGE_SIZE <? size then
    match fuel with
    | O => Fuel
    | S fuel => ps ← set_elem ps i (base + i * BLK_PAGE_SIZE); page_loop fuel base (i + 1) (size - BLK_PAGE_SIZE) ps
    end
  else Ok (i, size, ps).

(** The request for [size] bytes at [base]; [req0] is what the stack held before.  The result
    is the request and the value of the variable [size] afterwards. *)
Definition build_request (op dev addr base size : Z) (cb data : Z) (req0 : blk_request) : res (blk_request * Z) :=
  '(i, size, ps) ← page_loop (Z.to_nat size) base 0 size (pages req0);
  ps ← set_elem ps i (base + i * BLK_PAGE_SIZE);
  Ok (BlkReq ps (i + 1) 0 (Z.shiftr size SECTOR_BITS - 1) dev addr BLK_EMPTY op cb data, size).

Definition misaligned (buf size : Z) : bool :=
  negb (Z.land (wrap64 buf) (BLK_PAGE_SIZE - 1) =? 0) || negb (Z.land (wrap64 size) (SECTOR_SIZE - 1) =? 0).

Section ReadWrite.
Context {G : Type} `{!GrantTable G} {R : ring_macros blkif_entry} {B : blkif} (virt_to_mfn : Z -> Z).
Implicit Types s : blk G.

(** The local variables that live across the wait: the number of sectors, the buffer used,
    whether it is to be freed and its order, and the size. *)
Record io_vars := IoVars { v_sectors : Z; v_pages : Z; free_buf : bool; order : Z; v_size : Z }.

(** [guk_blk_write] and [guk_blk_read] up to the wait for the device.  [bounce] is what
    [alloc_pages] returns, [a] the address of the local [req], [cb] that of the callback
    [complete_callback] and [comp] that of the completion. *)
Definition io_begin (op : Z) (writes : bool) (bounce a cb comp : Z) (req0 : blk_request) (dev addr buf size : Z)
    (m : Z -> Z) s : res (io_vars * (Z -> Z) * blk G) :=
  bug_on (negb (Z.land addr (SECTOR_SIZE - 1) =? 0));;
  bug_on (negb (Z.land size (SECTOR_SIZE - 1) =? 0));;
  let mis := misaligned buf size in
  o ← (if mis then get_order size else Ok 0);
  let base := if mis then bounce else buf in
  let m := if mis && writes then copy_mem base buf size m else m in
  '(req, size') ← build_request op dev addr base size cb comp req0;
  Ok (IoVars (Z.shiftr size SECTOR_BITS) base mis o size', m, set_request a req s).

Definition guk_blk_write_begin := io_begin BLKIF_OP_WRITE true.
Definition guk_blk_read_begin := io_begin BLKIF_OP_READ false.

(** With the lock of the ready device: submit.  The result says whether to wait for the
    completion. *)
Definition io_submit (a : Z) s : res (bool * blk G) :=
  '(err, s) ← guk_blk_do_io virt_to_mfn a s; Ok (err =? 0, s).

Definition io_status (a sectors : Z) s : res Z :=
  req ← access (requests s !! a);
  Ok (if bool_decide (state req = BLK_DONE_SUCCESS) then sectors else -1).

(** The end of [guk_blk_write]: the result, and the pages it frees with their order. *)
Definition guk_blk_write_end (submitted : bool) (a : Z) (v : io_vars) s : res (Z * option (Z * Z)) :=
  r ← io_status a (if submitted then v_sectors v else -1) s;
  Ok (r, if free_buf v then Some (v_pages v, order v) else None).

(** The end of [guk_blk_read], which also copies to the caller's buffer. *)
Definition guk_blk_read_end (submitted : bool) (a buf : Z) (v : io_vars) (m : Z -> Z) s : res (Z * option (Z * Z) * (Z -> Z)) :=
  if submitted then
    r ← io_status a (v_sectors v) s;
    if free_buf v then Ok (r, Some (v_pages v, order v), copy_mem buf (v_pages v) (v_size v) m)
    else Ok (r, None, m)
  else Ok (-1, None, m).
End ReadWrite.
