(* ===== verification/BlkProps.v ===== *)
(** What the operations of the block device front end do: the pool of shadow buffers, the
    completion of a request, the segments of a request, and its submission. *)
From S2P Require Import Prelude FreeList Grants SharedRing BlkFront.
From stdpp Require Import options.

Lemma take_insert_S {A} (l : list A) i x : (i < length l)%nat -> take (S i) (<[i := x]> l) = take i l ++ [x].
Proof.
  intros Hi. rewrite (take_S_r _ _ x) by by apply list_lookup_insert_eq. by rewrite take_insert_ge.
Qed.

(** ** Ending the grants of a request *)

Section Ends.
Context {G : Type} `{!GrantTable G}.

Lemma end_refs_spec n i refs (g : G) F :
  free_set g F -> (i + n <= length refs)%nat -> NoDup (take n (drop i refs)) ->
  Forall (fun r => is_ref r /\ r ∉ F) (take n (drop i refs)) ->
  exists g' F', end_refs n (Z.of_nat i) refs g = Ok g' /\ free_set g' F' /\
    F ⊆ F' /\ F' ⊆ F ∪ list_to_set (take n (drop i refs)).
Proof.
  revert i g F. induction n as [|n IH]; intros i g F Hf Hl Hnd Hall.
  { exists g, F. splits; [done|done|done|set_solver]. }
  destruct (lookup_lt_is_Some_2 refs i) as [r Hr]; [lia|].
  rewrite (drop_S refs r i Hr) in Hnd, Hall |- *. simpl in Hnd, Hall |- *.
  apply NoDup_cons in Hnd as [Hrn Hnd]. apply Forall_cons in Hall as [[Href HrF] Hall].
  rewrite (elem_eq refs (Z.of_nat i) r) by (rewrite ?Nat2Z.id; done || lia). cbn [mbind res_bind].
  destruct (end_law g F r Hf Href HrF) as (v & g1 & -> & Hor). cbn [mbind res_bind].
  assert (exists F1, free_set g1 F1 /\ F ⊆ F1 /\ F1 ⊆ {[r]} ∪ F) as (F1 & Hf1 & Hsub1 & Hsub2).
  { destruct Hor as [[_ ?]|[_ ?]]; eexists; (split; [done|]); set_solver. }
  destruct (IH (S i) g1 F1) as (g' & F' & He & Hf' & Hs1 & Hs2); [done|lia|done| |].
  { eapply Forall_impl; [apply Forall_and; split; [exact Hall|apply Forall_forall; intros x Hx; exact Hx]|].
    intros x [[? ?] Hx]. split; [done|]. set_solver. }
  replace (Z.of_nat i + 1) with (Z.of_nat (S i)) by lia. exists g', F'. splits; [done|done|by etrans|]. clear -Hs2 Hsub2. set_solver.
Qed.
End Ends.

Section Spec.
Unset Default Proof Using.
Context {G : Type} `{!GrantTable G} {R : ring_macros blkif_entry} {RO : ring_macros_ok R} {B : blkif} {BO : blkif_ok B}.
Context (virt_to_mfn : Z -> Z).
Implicit Types s : blk G.

Local Abbreviation N := (RING_SIZE blkif_entry).
Local Abbreviation MAX := (Z.to_nat BLKIF_MAX_SEGMENTS_PER_REQUEST).

(** ** The pool *)

(** The free identifiers are [fl]; every array has its size. *)
Record pool_ok s (fl : list Z) : Prop := {
  po_list : free_list (freelist s) fl;
  po_length : length (freelist s) = Z.to_nat N;
  po_shadows : length (shadows s) = Z.to_nat N;
  po_refs i sh : shadows s !! i = Some sh -> length (gref sh) = MAX
}.

Lemma N_bounds : 2 <= N <= 4096.
Proof. apply ring_size_bounds. Qed.

Definition shadow s (i : Z) : blk_shadow := nth (Z.to_nat i) (shadows s) (Shadow [] 0 0 0).

Lemma shadow_lookup s fl i : pool_ok s fl -> 0 <= i < N -> shadows s !! Z.to_nat i = Some (shadow s i).
Proof.
  intros Hp Hi. destruct (lookup_lt_is_Some_2 (shadows s) (Z.to_nat i)) as [x Hx]; [rewrite (po_shadows _ _ Hp); lia|].
  unfold shadow. by rewrite (nth_lookup_Some _ _ _ _ Hx).
Qed.

Lemma shadow_elem s fl i : pool_ok s fl -> 0 <= i < N -> elem (shadows s) i = Ok (shadow s i).
Proof. intros Hp Hi. apply elem_eq; [lia|]. by eapply shadow_lookup. Qed.

(** The state with a new free list and one shadow changed. *)
Definition pool_update s (l : list Z) (i : Z) (sh : blk_shadow) : blk G :=
  set_pool l (<[Z.to_nat i := sh]> (shadows s)) s.

Lemma pool_update_ok s fl fl' l i sh :
  pool_ok s fl -> free_list l fl' -> length l = Z.to_nat N -> length (gref sh) = MAX ->
  pool_ok (pool_update s l i sh) fl'.
Proof.
  intros [_ Hl Hs Hr] Hf Hl' Hg. constructor; simpl; [done|done|by rewrite length_insert|].
  intros j x [(_ & <- & _)|[_ Hx]]%list_lookup_insert_Some; [done|]. by eapply Hr.
Qed.

Lemma shadow_update s fl l i sh j :
  pool_ok s fl -> 0 <= i < N -> 0 <= j -> shadow (pool_update s l i sh) j = if decide (j = i) then sh else shadow s j.
Proof.
  intros Hp Hi Hj. unfold shadow. simpl. rewrite !nth_lookup. case_decide.
  - subst. rewrite list_lookup_insert_eq; [done|]. rewrite (po_shadows _ _ Hp). lia.
  - by rewrite list_lookup_insert_ne by lia.
Qed.

Lemma shadow_refs s fl i : pool_ok s fl -> 0 <= i < N -> length (gref (shadow s i)) = MAX.
Proof. intros Hp Hi. eapply po_refs; [exact Hp|]. by eapply shadow_lookup. Qed.

Lemma pool_ok_same s s' fl : freelist s' = freelist s -> shadows s' = shadows s -> pool_ok s fl -> pool_ok s' fl.
Proof. intros Hf Hs [? ? ? ?]. constructor; rewrite ?Hf, ?Hs; done. Qed.

Lemma get_freelist_id_spec s fl :
  pool_ok s fl ->
  exists l, get_freelist_id s = Ok (default 0 (head fl), pool_update s l (default 0 (head fl)) (set_free 0 (shadow s (default 0 (head fl))))) /\
    free_list l (tail fl) /\ length l = Z.to_nat N.
Proof.
  intros Hp. pose proof N_bounds. unfold get_freelist_id.
  destruct (fl_pop_spec (freelist s) fl (po_list _ _ Hp)) as (l & -> & Hl & Hf); [rewrite (po_length _ _ Hp); lia|].
  cbn [mbind res_bind]. set (i := default 0 (head fl)).
  assert (0 <= i < N) as Hi.
  { subst i. pose proof (po_list _ _ Hp) as (_ & _ & Hb). rewrite (po_length _ _ Hp) in Hb. destruct Hb; simpl; lia. }
  rewrite (shadow_elem s fl) by done. cbn [mbind res_bind]. unfold set_shadow. simpl.
  rewrite set_elem_eq by (rewrite (po_shadows _ _ Hp); lia). exists l. splits; [done|done|].
  by rewrite Hl, (po_length _ _ Hp).
Qed.

Lemma add_id_freelist_spec s fl i :
  pool_ok s fl -> 0 < i < N -> i ∉ fl ->
  exists l, add_id_freelist i s = Ok (pool_update s l i (set_free 1 (shadow s i))) /\
    free_list l (i :: fl) /\ length l = Z.to_nat N.
Proof.
  intros Hp Hi Hfl. pose proof N_bounds. unfold add_id_freelist. rewrite (wrap_small 16 i) by lia.
  destruct (fl_push_spec (freelist s) fl i (po_list _ _ Hp)) as (l & -> & Hl & Hf); [rewrite (po_length _ _ Hp); lia|done|].
  cbn [mbind res_bind]. rewrite (shadow_elem s fl) by (done || lia). cbn [mbind res_bind]. unfold set_shadow. simpl.
  rewrite set_elem_eq by (rewrite (po_shadows _ _ Hp); lia). exists l. splits; [done|done|].
  by rewrite Hl, (po_length _ _ Hp).
Qed.

(** The shadows and the free list as [init_buffers] leaves them. *)
Lemma add_ids_spec n from s fl :
  pool_ok s fl -> 0 < from -> from + Z.of_nat n <= N -> Forall (fun i => i < from) fl ->
  exists s', add_ids n from s = Ok s' /\ pool_ok s' (rev (seqZ from (Z.of_nat n)) ++ fl) /\
    blk_devices s' = blk_devices s /\ grants s' = grants s.
Proof.
  revert from s fl. induction n as [|n IH]; intros from s fl Hp Hf Hn Hlt; [by exists s|]. cbn [add_ids].
  assert (from ∉ fl) as Hnin by (intros Hin; rewrite Forall_forall in Hlt; specialize (Hlt _ Hin); lia).
  destruct (add_id_freelist_spec s fl from Hp ltac:(lia) Hnin) as (l & -> & Hl & Hll). cbn [mbind res_bind].
  destruct (IH (from + 1) (pool_update s l from (set_free 1 (shadow s from))) (from :: fl)) as (s' & -> & Hp' & Hd & Hg); [|lia|lia| |].
  { apply (pool_update_ok s fl); [done|done|done|]. apply (shadow_refs s fl); [done|lia]. }
  { constructor; [lia|]. eapply Forall_impl; [exact Hlt|]. cbv beta. lia. }
  exists s'. splits; [done| |done|done]. rewrite (seqZ_cons from (Z.of_nat (S n))) by lia. simpl rev. rewrite <- app_assoc.
  replace (Z.succ from) with (from + 1) by lia. by replace (Z.pred (Z.of_nat (S n))) with (Z.of_nat n) by lia.
Qed.

Lemma init_buffers_spec s :
  length (freelist s) = Z.to_nat N -> length (shadows s) = Z.to_nat N ->
  (forall i sh, shadows s !! i = Some sh -> length (gref sh) = MAX) ->
  exists s', init_buffers s = Ok s' /\ pool_ok s' (rev (seqZ 1 (N - 1))) /\ blk_devices s' = blk_devices s /\ grants s' = grants s.
Proof.
  intros Hl Hs Hr. pose proof N_bounds. unfold init_buffers. replace (Z.to_nat N) with (S (Z.to_nat (N - 1))) by lia. cbn [add_ids].
  unfold add_id_freelist. change (wrap 16 0) with 0. destruct (fl_push_0 (freelist s)) as (l & -> & Hll & Hfl); [lia|]. cbn [mbind res_bind].
  destruct (lookup_lt_is_Some_2 (shadows s) 0) as [sh Hsh]; [lia|]. rewrite (elem_eq (shadows s) 0 sh) by done. cbn [mbind res_bind].
  unfold set_shadow. simpl shadows. rewrite set_elem_eq by lia. cbn [mbind res_bind].
  set (s1 := set_pool _ _ _). assert (pool_ok s1 []) as Hp1.
  { constructor; simpl; [done|congruence|by rewrite length_insert|].
    intros i x [(_ & <- & _)|[_ Hx]]%list_lookup_insert_Some; [exact (Hr 0%nat sh Hsh)|by eapply Hr]. }
  destruct (add_ids_spec (Z.to_nat (N - 1)) 1 s1 [] Hp1) as (s' & He & Hp' & Hd & Hg); [lia|lia|constructor|].
  exists s'. rewrite app_nil_r, Z2Nat.id in Hp' by lia. done.
Qed.

(** ** Granting the pages of a request *)

Lemma set_seg_eq i f q x :
  seg q !! i = Some x -> set_seg (Z.of_nat i) f q = Ok (set_segs (<[i := f x]> (seg q)) q).
Proof.
  intros Hx. pose proof (lookup_lt_Some _ _ _ Hx). unfold set_seg.
  rewrite (elem_eq (seg q) (Z.of_nat i) x) by (rewrite ?Nat2Z.id; done || lia). cbn [mbind res_bind].
  rewrite set_elem_eq by lia. cbn [mbind res_bind]. by rewrite Nat2Z.id.
Qed.

(** [r] is granted for the frame [f], for reading and writing, to domain 0; no other entry
    changes. *)
Definition entered (g : G) (f r : Z) (g' : G) : Prop :=
  ref_entry g' r = Some (Gnttab.Grant (permit 0) 0 (wrap32 f)) /\ forall x, x <> r -> ref_entry g' x = ref_entry g x.

(** The references [refs] are granted for the frames [fs], in order. *)
Definition entries_for (fs refs : list Z) (g g' : G) : Prop :=
  (forall i r f, refs !! i = Some r -> fs !! i = Some f -> ref_entry g' r = Some (Gnttab.Grant (permit 0) 0 (wrap32 f))) /\
  (forall x, x ∉ refs -> ref_entry g' x = ref_entry g x).

Lemma entries_none fs g : entries_for fs [] g g.
Proof. split; [by intros ? ? ? ?|done]. Qed.

Lemma entries_cons f fs r refs g g1 g' : r ∉ refs -> entered g f r g1 -> entries_for fs refs g1 g' -> entries_for (f :: fs) (r :: refs) g g'.
Proof.
  intros Hr [He Hx] [Hes Hxs]. split.
  - intros [|i] r' f'; simpl; [|by apply Hes]. intros [= <-] [= <-]. by rewrite Hxs.
  - intros x [Hne Hn]%not_elem_of_cons. by rewrite Hxs, Hx.
Qed.

(** The frames of the pages of a request. *)
Definition frames (io : blk_request) : list Z := virt_to_mfn <$> pages io.

Lemma grant_page_spec io i q sh (g : G) F x :
  free_set g F -> (i < length (pages io))%nat -> seg q !! i = Some x -> (i < length (gref sh))%nat ->
  if decide (F = ∅) then grant_page virt_to_mfn io (Z.of_nat i) q sh g = Bug BUG_ON
  else exists r g', grant_page virt_to_mfn io (Z.of_nat i) q sh g =
      Ok (set_segs (<[i := Seg r (first_sect x) (last_sect x)]> (seg q)) q, set_grefs (<[i := r]> (gref sh)) sh, g') /\
    r ∈ F /\ free_set g' (F ∖ {[r]}) /\ exists f, frames io !! i = Some f /\ entered g f r g'.
Proof.
  intros Hf Hp Hx Hg. unfold grant_page. rewrite (elem_nth (pages io) (Z.of_nat i) 0) by lia. cbn [mbind res_bind].
  case_decide as HF; [subst F; by rewrite grant_none|].
  destruct (grant_law g F 0 (virt_to_mfn (nth (Z.to_nat (Z.of_nat i)) (pages io) 0)) 0 Hf HF) as (r & g' & Hgr & Hr & Hf').
  pose proof (grant_entry_law _ _ _ _ _ _ _ Hf Hgr) as Hent. rewrite Hgr.
  cbn [mbind res_bind]. rewrite (set_seg_eq i _ q x Hx). cbn [mbind res_bind]. unfold set_gref.
  rewrite set_elem_eq by lia. cbn [mbind res_bind]. rewrite Nat2Z.id in Hent |- *. exists r, g'. splits; [done|done|done|].
  eexists. split; [|exact Hent]. unfold frames. rewrite list_lookup_fmap. destruct (lookup_lt_is_Some_2 (pages io) i Hp) as [y Hy].
  by rewrite (nth_lookup_Some _ _ _ _ Hy), Hy.
Qed.

(** [n] references out of the free ones. *)
Definition granted (F : gset Z) (n : nat) (refs : list Z) (g' : G) : Prop :=
  length refs = n /\ NoDup refs /\ list_to_set refs ⊆ F /\ free_set g' (F ∖ list_to_set refs).

Lemma granted_cons F n r refs g' : r ∈ F -> granted (F ∖ {[r]}) n refs g' -> granted F (S n) (r :: refs) g'.
Proof.
  intros Hr (Hl & Hnd & Hs & Hf). unfold granted. splits; [simpl; congruence| |set_solver|].
  - apply NoDup_cons. split; [|done]. set_solver.
  - replace (F ∖ list_to_set (r :: refs)) with (F ∖ {[r]} ∖ list_to_set refs); [done|]. apply leibniz_equiv. set_solver.
Qed.

Lemma size_remove (F : gset Z) r n : r ∈ F -> (S n <= size F)%nat <-> (n <= size (F ∖ {[r]}))%nat.
Proof.
  intros Hr. rewrite size_difference by set_solver. rewrite size_singleton.
  assert (size F <> 0%nat) by (rewrite size_non_empty_iff; set_solver). lia.
Qed.

Lemma middle_segments_spec n io i q sh (g : G) F :
  free_set g F -> (i + n <= length (pages io))%nat -> (i + n <= length (seg q))%nat -> (i + n <= length (gref sh))%nat ->
  if decide (n <= size F)%nat then
    exists refs g', middle_segments virt_to_mfn n io (Z.of_nat i) q sh g =
        Ok (set_segs (take i (seg q) ++ ((fun r => Seg r 0 (SECTORS_PER_PAGE - 1)) <$> refs) ++ drop (i + n) (seg q)) q,
            set_grefs (take i (gref sh) ++ refs ++ drop (i + n) (gref sh)) sh, g') /\
      granted F n refs g' /\ entries_for (take n (drop i (frames io))) refs g g'
  else middle_segments virt_to_mfn n io (Z.of_nat i) q sh g = Bug BUG_ON.
Proof.
  revert i q sh g F. induction n as [|n IH]; intros i q sh g F Hf Hp Hq Hg.
  { rewrite decide_True by lia. exists [], g. cbn [middle_segments fmap list_fmap app]. rewrite Nat.add_0_r, !take_drop.
    split; [by destruct q, sh|]. split; [|apply entries_none]. unfold granted. splits; [done|constructor|set_solver|].
    by replace (F ∖ list_to_set []) with F by (apply leibniz_equiv; set_solver). }
  destruct (lookup_lt_is_Some_2 (seg q) i) as [x Hx]; [lia|].
  pose proof (grant_page_spec io i q sh g F x Hf ltac:(lia) Hx ltac:(lia)) as Hgp. cbn [middle_segments].
  destruct (decide (F = ∅)) as [->|HF].
  { rewrite Hgp, size_empty, decide_False by lia. done. }
  destruct Hgp as (r & g1 & -> & Hr & Hf1 & f & Hfr & Hent). cbn [mbind res_bind].
  rewrite (set_seg_eq i _ _ (Seg r (first_sect x) (last_sect x))) by (cbn; by rewrite list_lookup_insert_eq by lia).
  cbn [mbind res_bind seg set_segs sg_gref]. rewrite list_insert_insert_eq.
  replace (Z.of_nat i + 1) with (Z.of_nat (S i)) by lia.
  specialize (IH (S i) (set_segs (<[i := Seg r 0 (SECTORS_PER_PAGE - 1)]> (seg q)) q) (set_grefs (<[i := r]> (gref sh)) sh) g1 (F ∖ {[r]}) Hf1).
  cbn [seg set_segs gref set_grefs] in IH. rewrite !length_insert in IH. specialize (IH ltac:(lia) ltac:(lia) ltac:(lia)).
  rewrite !take_insert_S, !drop_insert_lt in IH by lia. unfold set_segs, set_grefs in *. cbn in *.
  destruct (decide (S n <= size F)%nat) as [Hs|Hs]; apply (size_remove F r n Hr) in Hs || (rewrite (size_remove F r n Hr) in Hs).
  - rewrite decide_True in IH by done. destruct IH as (refs & g' & -> & Hgr & Hes). exists (r :: refs), g'.
    rewrite <- !app_assoc, !Nat.add_succ_r. split; [done|]. split; [by apply granted_cons|].
    rewrite (drop_S _ f i Hfr). cbn [take]. eapply entries_cons; [|exact Hent|exact Hes].
    destruct Hgr as (_ & _ & Hsub & _). intros Hin. assert (r ∈ F ∖ {[r]}) by (apply Hsub; by apply elem_of_list_to_set). set_solver.
  - by rewrite decide_False in IH by done.
Qed.

(** The segments of a request as they come out: the last sector of all but a single page is
    the last of the page. *)
Definition segments_of (io : blk_request) (refs : list Z) : list blkif_request_segment :=
  imap (fun i r => Seg r (if decide (i = 0%nat) then wrap 8 (start_sector io) else 0)
                     (if num_pages io =? 1 then wrap 8 (end_sector io) else SECTORS_PER_PAGE - 1)) refs.

Lemma segments_of_cons io r refs :
  num_pages io <> 1 ->
  segments_of io (r :: refs) = Seg r (wrap 8 (start_sector io)) (SECTORS_PER_PAGE - 1) :: ((fun r => Seg r 0 (SECTORS_PER_PAGE - 1)) <$> refs).
Proof.
  intros Hn. unfold segments_of. rewrite (proj2 (Z.eqb_neq _ _) Hn). simpl. f_equal. by rewrite <- imap_const.
Qed.

(** The segments [l'] and references that [fill_segments] leaves for a request of [n] pages. *)
Definition filled (io : blk_request) (F : gset Z) (n : nat) (refs : list Z) (l' : list blkif_request_segment) (g' : G) : Prop :=
  granted F n refs g' /\ take n l' = segments_of io refs /\ length l' = MAX /\
  (n <> 1%nat -> last_sect <$> l' !! n = Some (wrap 8 (end_sector io))).

Definition has_pages (io : blk_request) (n : nat) : Prop :=
  num_pages io = Z.of_nat n /\ (1 <= n)%nat /\ length (pages io) = MAX.

Lemma fill_first io q sh (g : G) F :
  free_set g F -> length (pages io) = MAX -> length (seg q) = MAX -> length (gref sh) = MAX -> (0 < MAX)%nat ->
  if decide (F = ∅) then grant_page virt_to_mfn io 0 q sh g = Bug BUG_ON
  else exists r g1 x t y u, seg q = x :: t /\ gref sh = y :: u /\ r ∈ F /\ free_set g1 (F ∖ {[r]}) /\ (exists f, frames io !! 0%nat = Some f /\ entered g f r g1) /\
    grant_page virt_to_mfn io 0 q sh g = Ok (set_segs (Seg r (first_sect x) (last_sect x) :: t) q, set_grefs (r :: u) sh, g1).
Proof.
  intros Hf Hp Hq Hg HM. destruct (seg q) as [|x t] eqn:Es; [simpl in Hq; lia|]. destruct (gref sh) as [|y u] eqn:Eg; [simpl in Hg; lia|].
  pose proof (grant_page_spec io 0 q sh g F x Hf ltac:(lia) ltac:(by rewrite Es) ltac:(rewrite Eg; simpl; lia)) as H.
  rewrite Es, Eg in H. case_decide; [exact H|]. destruct H as (r & g1 & ? & ? & ? & ?). by exists r, g1, x, t, y, u.
Qed.

Lemma set_seg_0 f q x t : seg q = x :: t -> set_seg 0 f q = Ok (set_segs (f x :: t) q).
Proof. intros Hs. change 0 with (Z.of_nat 0). rewrite (set_seg_eq 0 f q x); by rewrite Hs. Qed.

Lemma fill_segments_spec io q sh (g : G) F n :
  free_set g F -> has_pages io n -> length (seg q) = MAX -> length (gref sh) = MAX -> (n < MAX)%nat ->
  if decide (n <= size F)%nat then
    exists refs g' l', fill_segments virt_to_mfn io q sh g = Ok (set_segs l' q, set_grefs (refs ++ drop n (gref sh)) sh, g') /\
      filled io F n refs l' g' /\ entries_for (take n (frames io)) refs g g'
  else fill_segments virt_to_mfn io q sh g = Bug BUG_ON.
Proof.
  intros Hf (Hn & Hn1 & Hp) Hq Hg HnM. unfold fill_segments.
  pose proof (fill_first io q sh g F Hf Hp Hq Hg ltac:(lia)) as Hfirst.
  destruct (decide (F = ∅)) as [->|HF]; [rewrite Hfirst, size_empty, decide_False by lia; done|].
  destruct Hfirst as (r & g1 & x & t & y & u & Es & Eg & Hr & Hf1 & (f & Hfr & Hent) & ->). cbn [mbind res_bind].
  rewrite Es in Hq. rewrite Eg in Hg. simpl in Hq, Hg. destruct n as [|n]; [lia|].
  rewrite (set_seg_0 _ _ (Seg r (first_sect x) (last_sect x)) t) by done. cbn [mbind res_bind sg_gref last_sect].
  destruct (Z.eqb_spec (num_pages io) 1) as [H1|H1].
  - assert (n = 0%nat) as -> by lia. rewrite decide_True by (apply (size_remove F r 0 Hr); lia).
    rewrite (set_seg_0 _ _ (Seg r (wrap 8 (start_sector io)) (last_sect x)) t) by done. cbn [mbind res_bind sg_gref first_sect].
    exists [r], g1, (Seg r (wrap 8 (start_sector io)) (wrap 8 (end_sector io)) :: t). rewrite Eg. split; [done|].
    split; [|rewrite (take_S_r _ 0 f) by done; simpl; eapply entries_cons; [by apply not_elem_of_nil|exact Hent|apply entries_none]].
    unfold filled, granted, segments_of. rewrite H1. splits; try done.
    + constructor; [set_solver|constructor].
    + set_solver.
    + by replace (F ∖ list_to_set [r]) with (F ∖ {[r]}) by (apply leibniz_equiv; set_solver).
  - rewrite (set_seg_0 _ _ (Seg r (wrap 8 (start_sector io)) (last_sect x)) t) by done. cbn [mbind res_bind sg_gref first_sect].
    set (q1 := set_segs _ _).
    pose proof (middle_segments_spec n io 1 q1 (set_grefs (r :: u) sh) g1 _ Hf1 ltac:(lia) ltac:(simpl; lia) ltac:(simpl; lia)) as Hm.
    replace (Z.to_nat (num_pages io - 1)) with n by lia. change (Z.of_nat 1) with 1 in Hm.
    destruct (decide (S n <= size F)%nat) as [Hs|Hs]; rewrite (size_remove F r n Hr) in Hs.
    2:{ rewrite decide_False in Hm by done. by rewrite Hm. }
    rewrite decide_True in Hm by done. destruct Hm as (refs & g' & -> & Hgr & Hes). cbn [mbind res_bind].
    destruct (lookup_lt_is_Some_2 t n) as [z Hz]; [lia|].
    set (l0 := take 1 (seg q1) ++ _ ++ _).
    assert (l0 = segments_of io (r :: refs) ++ drop n t) as El0.
    { unfold l0. rewrite segments_of_cons by done. by destruct n. }
    assert (length (segments_of io (r :: refs)) = S n) as Hlen.
    { unfold segments_of. rewrite length_imap. simpl. f_equal. apply Hgr. }
    replace (Z.max 1 (num_pages io)) with (Z.of_nat (S n)) by lia.
    assert (l0 !! S n = Some z) as Hl0.
    { rewrite El0, lookup_app_r by lia. rewrite Hlen, Nat.sub_diag, lookup_drop, Nat.add_0_r. done. }
    rewrite (set_seg_eq (S n) _ (set_segs l0 q1) z) by exact Hl0. cbn [mbind res_bind seg set_segs].
    exists (r :: refs), g'. eexists. rewrite Eg. split; [done|]. split.
    2:{ assert (take (S n) (frames io) = f :: take n (drop 1 (frames io))) as ->.
        { destruct (frames io) as [|f' l']; [done|]. simpl in Hfr. by injection Hfr as ->. }
        eapply entries_cons; [|exact Hent|exact Hes]. destruct Hgr as (_ & _ & Hsub & _). intros Hin.
        assert (r ∈ F ∖ {[r]}) by (apply Hsub; by apply elem_of_list_to_set). set_solver. }
    unfold filled. splits.
    + by apply granted_cons.
    + rewrite take_insert_ge by lia. rewrite El0. by rewrite take_app_length'.
    + rewrite length_insert, El0, length_app, length_drop. lia.
    + intros _. rewrite list_lookup_insert_eq; [done|]. by eapply lookup_lt_Some.
Qed.

(** With all the segments in use, the last assignment is outside the request. *)
Lemma fill_segments_out io q sh (g : G) F :
  free_set g F -> has_pages io MAX -> length (seg q) = MAX -> length (gref sh) = MAX -> (MAX <= size F)%nat ->
  fill_segments virt_to_mfn io q sh g = Bug BAD_ACCESS.
Proof.
  intros Hf (Hn & Hn1 & Hp) Hq Hg HnM. unfold fill_segments.
  pose proof (fill_first io q sh g F Hf Hp Hq Hg ltac:(lia)) as Hfirst.
  rewrite decide_False in Hfirst by (intros ->; rewrite size_empty in HnM; lia).
  destruct Hfirst as (r & g1 & x & t & y & u & Es & Eg & Hr & Hf1 & (f & Hfr & Hent) & ->). cbn [mbind res_bind].
  pose proof max_segments as HM. rewrite Es in Hq. rewrite Eg in Hg. simpl in Hq, Hg.
  rewrite (set_seg_0 _ _ (Seg r (first_sect x) (last_sect x)) t) by done. cbn [mbind res_bind sg_gref last_sect].
  rewrite (proj2 (Z.eqb_neq _ _)) by lia.
  rewrite (set_seg_0 _ _ (Seg r (wrap 8 (start_sector io)) (last_sect x)) t) by done. cbn [mbind res_bind sg_gref first_sect].
  set (q1 := set_segs _ _). set (n := (MAX - 1)%nat).
  pose proof (middle_segments_spec n io 1 q1 (set_grefs (r :: u) sh) g1 _ Hf1 ltac:(lia) ltac:(simpl; lia) ltac:(simpl; lia)) as Hm.
  replace (Z.to_nat (num_pages io - 1)) with n by lia. change (Z.of_nat 1) with 1 in Hm.
  rewrite decide_True in Hm by (apply (size_remove F r n Hr); lia). destruct Hm as (refs & g' & -> & [Hgr _] & _).
  cbn [mbind res_bind]. unfold set_seg, elem. rewrite (proj2 (Z.ltb_ge _ _)) by lia.
  rewrite lookup_ge_None_2; [done|]. cbn [seg set_segs]. rewrite !length_app, length_fmap, Hgr, length_drop. simpl. lia.
Qed.

(** ** Submitting *)

Definition slots_segs (r : sring blkif_entry) : Prop := forall j e, slots r !! j = Some e -> length (seg (as_request e)) = MAX.

(** A request that [guk_blk_do_io] accepts. *)
Record acceptable s (a : Z) (io : blk_request) (v : blk_dev) : Prop := {
  ac_request : requests s !! a = Some io;
  ac_empty : state io = BLK_EMPTY;
  ac_device : 0 <= device io < MAX_DEVICES;
  ac_dev : blk_devices s !! Z.to_nat (device io) = Some v;
  ac_ready : d_state v = ST_READY;
  ac_sectors : Z.shiftr (address io) SECTOR_BITS + end_sector io <= sectors (d_device v)
}.

Definition new_request (io : blk_request) (i : Z) (l : list blkif_request_segment) : blkif_request :=
  BReq (operation io) (wrap 8 (num_pages io)) 18 i (wrap64 (addr_to_sec (address io))) l.

Definition new_shadow s (io : blk_request) (a i : Z) (refs : list Z) : blk_shadow :=
  Shadow (refs ++ drop (length refs) (gref (shadow s i))) (sgn 16 (num_pages io)) 0 a.

(** The ring with [q] at position [p], pushed. *)
Definition pushed (r : front_ring blkif_entry) (p : Z) (q : blkif_request) : front_ring blkif_entry :=
  FRing (wrap32 (p + 1)) (rsp_cons r)
    (set_req_prod (wrap32 (p + 1)) (set_slots (<[pos blkif_entry p := EReq q]> (slots (shared r))) (shared r))).

Definition submitted (a i : Z) (io : blk_request) (v : blk_dev) (p : Z) (refs : list Z) (segs : list blkif_request_segment)
    (l : list Z) (g : G) (events : list blk_event) s : blk G :=
  Blk (<[Z.to_nat (device io) := set_ring (pushed (ring v) p (new_request io i segs)) v]> (blk_devices s))
    l (<[Z.to_nat i := new_shadow s io a i refs]> (shadows s))
    (<[a := set_state BLK_SUBMITTED io]> (requests s)) g (log s ++ events).

Lemma check_request_ok s a io v : acceptable s a io v -> check_request io s = Ok v.
Proof.
  intros [Hr He [Hd0 Hd] Hv Hst Hsec]. unfold check_request. rewrite bool_decide_true by done. cbn [bug_on negb mbind res_bind].
  rewrite (proj2 (Z.leb_gt _ _)) by done. cbn [bug_on mbind res_bind]. unfold dev. rewrite (elem_eq _ _ v) by done. cbn [mbind res_bind].
  rewrite bool_decide_true by done. cbn [bug_on negb mbind res_bind]. rewrite (proj2 (Z.ltb_ge _ _)) by done. done.
Qed.

Lemma ring_slot_request r p : slots_ok r -> slots_segs r -> exists e, ring_get (wrap32 p) r = Ok e /\ length (seg (as_request e)) = MAX.
Proof.
  intros Hs Hseg. rewrite ring_get_pos by done.
  destruct (lookup_lt_is_Some_2 (slots r) (pos blkif_entry p)) as [e He]; [rewrite Hs; apply pos_lt|]. rewrite He. exists e. split; [done|]. by eapply Hseg.
Qed.

Lemma push_ring v p q :
  slots_ok (shared (ring v)) ->
  exists notify, (r ← ring_put (wrap32 p) (EReq q) (shared (ring v));
      Ok (RING_PUSH_REQUESTS_AND_CHECK_NOTIFY (FRing (wrap32 (wrap32 p + 1)) (rsp_cons (ring v)) r))) =
    Ok (notify, pushed (ring v) p q).
Proof.
  intros Hs. rewrite ring_put_pos by done. cbn [mbind res_bind]. rewrite wrap_add_l.
  pose proof (push_law (FRing (wrap32 (p + 1)) (rsp_cons (ring v)) (set_slots (<[pos blkif_entry p :=EReq q]> (slots (shared (ring v)))) (shared (ring v))))) as Hp.
  destruct (RING_PUSH_REQUESTS_AND_CHECK_NOTIFY _) as [notify r]. simpl in Hp. subst r. by exists notify.
Qed.

Lemma guk_blk_do_io_spec s fl F a io v n p :
  pool_ok s fl -> free_set (grants s) F -> acceptable s a io v -> has_pages io n -> (n < MAX)%nat ->
  slots_ok (shared (ring v)) -> slots_segs (shared (ring v)) -> req_prod_pvt (ring v) = wrap32 p ->
  match fl with
  | [] => guk_blk_do_io virt_to_mfn a s = Ok (ENOMEM, pool_update s (freelist s) 0 (set_free 0 (shadow s 0)))
  | i :: fl' =>
      if decide (n <= size F)%nat then
        exists refs segs l g events,
          guk_blk_do_io virt_to_mfn a s = Ok (0, submitted a i io v p refs segs l g events s) /\
          filled io F n refs segs g /\ entries_for (take n (frames io)) refs (grants s) g /\ free_list l fl' /\ length l = Z.to_nat N /\
          (events = [] \/ events = [Notify (evtchn v)])
      else guk_blk_do_io virt_to_mfn a s = Bug BUG_ON
  end.
Proof.
  intros Hp Hf Hac Hpg Hn Hs Hseg Hpvt. pose proof N_bounds. unfold guk_blk_do_io. rewrite (ac_request _ _ _ _ Hac). cbn [access mbind res_bind].
  rewrite (check_request_ok s a io v Hac). cbn [mbind res_bind]. rewrite Hpvt.
  destruct (ring_slot_request (shared (ring v)) p Hs Hseg) as (e & -> & Hel). cbn [mbind res_bind].
  destruct fl as [|i fl].
  { unfold get_freelist_id. destruct (po_list _ _ Hp) as [Hc _]. rewrite fl_pop_empty by exact Hc. cbn [mbind res_bind].
    rewrite (shadow_elem s []) by (done || lia). cbn [mbind res_bind]. unfold set_shadow. simpl.
    by rewrite set_elem_eq by (rewrite (po_shadows _ _ Hp); lia). }
  destruct (get_freelist_id_spec s (i :: fl) Hp) as (l & -> & Hl & Hll). cbn [mbind res_bind]. change (default 0 (head (i :: fl))) with i. simpl tail in Hl.
  pose proof (po_list _ _ Hp) as (_ & Hnd & Hb). apply Forall_cons in Hb as [Hi _]. rewrite (po_length _ _ Hp) in Hi.
  rewrite (proj2 (Z.eqb_neq i 0)) by lia. pose proof (shadow_refs s _ i Hp ltac:(lia)) as Hrefs.
  assert (pool_ok (pool_update s l i (set_free 0 (shadow s i))) fl) as Hp1 by by apply (pool_update_ok s (i :: fl)).
  rewrite (shadow_elem _ fl i Hp1) by lia. rewrite (shadow_update s (i :: fl)) by (done || lia). rewrite (decide_True (P := i = i)) by done.
  cbn [mbind res_bind gref set_free num_refs free grants pool_update set_pool].

  set (q0 := BReq _ _ _ _ _ _). set (sh0 := Shadow _ _ _ _).
  pose proof (fill_segments_spec io q0 sh0 (grants s) F n Hf Hpg Hel Hrefs Hn) as Hfill.
  destruct (decide (n <= size F)%nat); [|by rewrite Hfill]. destruct Hfill as (refs & g & segs & -> & Hfl & Hes).
  cbn [mbind res_bind]. unfold set_shadow. rewrite set_elem_eq by (simpl; rewrite length_insert, (po_shadows _ _ Hp); lia).
  cbn [mbind res_bind]. simpl shadows. rewrite list_insert_insert_eq.
  set (q := BReq _ _ _ _ _ _). destruct (push_ring v p q Hs) as (notify & Hpush).
  destruct (ring_put _ _ _) as [r| |]; cbn [mbind res_bind] in Hpush |- *; [|done..]. injection Hpush as ->.
  destruct Hac as [Hreq _ [Hd0 Hd] Hv _ _]. unfold set_dev. rewrite set_elem_eq by (split; [done|]; apply lookup_lt_Some in Hv; simpl; lia).
  cbn [mbind res_bind]. exists refs, segs, l, g, (if notify then [Notify (evtchn v)] else []). splits; [|done|done|done|done|destruct notify; auto].
  assert (length refs = n) as Hrl by apply Hfl. unfold submitted, new_shadow. rewrite Hrl.
  destruct notify; [done|by rewrite app_nil_r].
Qed.

(** ** Completing *)

Definition live_refs s (i : Z) : list Z := take (Z.to_nat (num_refs (shadow s i))) (gref (shadow s i)).

(** The request that was submitted with the identifier [i]. *)
Record pending s (i : Z) (io : blk_request) : Prop := {
  pe_range : 0 < i < N;
  pe_busy : free (shadow s i) = 0;
  pe_refs : 0 <= num_refs (shadow s i) <= Z.of_nat MAX;
  pe_request : requests s !! request (shadow s i) = Some io;
  pe_state : state io = BLK_SUBMITTED
}.

Definition done_state (r : blkif_response) : blk_state := if rs_status r =? BLKIF_RSP_OKAY then BLK_DONE_SUCCESS else BLK_DONE_ERROR.

Definition callbacks (io : blk_request) (a : Z) : list blk_event := if callback io =? 0 then [] else [Callback (callback io) a].

Definition completed (i : Z) (io : blk_request) (st : blk_state) (l : list Z) (g : G) s : blk G :=
  let a := request (shadow s i) in
  Blk (blk_devices s) l (<[Z.to_nat i := set_free 1 (shadow s i)]> (shadows s))
    (<[a := set_state st io]> (requests s)) g (log s ++ callbacks io a).

Lemma handle_response_spec s fl F d v cons r io :
  pool_ok s fl -> free_set (grants s) F -> dev d s = Ok v -> ring_get cons (shared (ring v)) = Ok (ERsp r) ->
  pending s (rs_id r) io -> rs_id r ∉ fl ->
  NoDup (live_refs s (rs_id r)) -> Forall (fun x => is_ref x /\ x ∉ F) (live_refs s (rs_id r)) ->
  exists l g F', handle_response d cons s = Ok (completed (rs_id r) io (done_state r) l g s) /\
    free_list l (rs_id r :: fl) /\ length l = Z.to_nat N /\
    free_set g F' /\ F ⊆ F' /\ F' ⊆ F ∪ list_to_set (live_refs s (rs_id r)).
Proof.
  intros Hp Hf Hv Hslot [Hi Hb Hn Hreq Hst] Hfl Hnd Hall. pose proof N_bounds.
  unfold handle_response. rewrite Hv. cbn [mbind res_bind]. rewrite Hslot. cbn [mbind res_bind as_response].
  rewrite (shadow_elem s fl) by (done || lia). cbn [mbind res_bind]. rewrite Hb. cbn [Z.eqb negb bug_on mbind res_bind].
  unfold complete_request. unfold live_refs in *.
  destruct (end_refs_spec (Z.to_nat (num_refs (shadow s (rs_id r)))) 0 (gref (shadow s (rs_id r))) (grants s) F) as (g & F' & He & Hf' & Hs1 & Hs2);
    [done|rewrite (shadow_refs s fl) by (done || lia); lia|done|done|].
  change (Z.of_nat 0) with 0 in He. rewrite He. cbn [mbind res_bind requests set_grants]. rewrite Hreq. cbn [access mbind res_bind].
  rewrite bool_decide_true by done. cbn [negb bug_on mbind res_bind]. rewrite (wrap_small 32) by lia.
  assert (pool_ok (set_grants g s) fl) as Hp1 by (destruct Hp; by constructor).
  destruct (add_id_freelist_spec (set_grants g s) fl (rs_id r) Hp1 Hi Hfl) as (l & -> & Hl & Hll). cbn [mbind res_bind].
  exists l, g, F'. splits; try done. unfold completed, done_state, callbacks. simpl. destruct (callback io =? 0); simpl; [|done].
  by rewrite app_nil_r.
Qed.
End Spec.

(** ** An instance: eight slots, the table of 16 grant entries *)

Definition demo_blkif : blkif := {|
  BLKIF_MAX_SEGMENTS_PER_REQUEST := 11; BLKIF_OP_READ := 0; BLKIF_OP_WRITE := 1; BLKIF_RSP_OKAY := 0;
  rsp_as_req r := BReq 0 0 0 (rs_id r) 0 (replicate 11 (Seg 0 0 0));
  req_as_rsp q := BRsp (b_id q) 0
|}.

Lemma demo_blkif_ok : blkif_ok demo_blkif.
Proof. by constructor. Qed.

Lemma demo_entries : 8 <= Gnttab.NR_GRANT_ENTRIES Gnttab.demo_abi < 2 ^ 30.
Proof. by vm_compute. Qed.

Definition demo_grants : GrantTable Gnttab.gnttab := gnttab_grants Gnttab.demo_abi demo_entries (fun _ _ => []).

Definition demo_shared : sring blkif_entry := SRing 0 1 0 1 (replicate 8 (ERsp (BRsp 0 0))).
Definition demo_dev : blk_dev := BlkDev 3 ST_READY 21 4 (FRing 0 0 demo_shared) (DevInfo 512 1000 0 51712).

(** Before [init_buffers]. *)
Definition demo_blk0 : blk Gnttab.gnttab :=
  Blk (replicate 8 demo_dev) (replicate 8 0) (replicate 8 (Shadow (replicate 11 0) 0 0 0)) ∅ Gnttab.demo_gnttab [].

#[export] Existing Instances demo_blkif demo_blkif_ok demo_grants.
#[export] Instance demo_ring : ring_macros blkif_entry := demo_macros blkif_entry.
#[export] Instance demo_ring_ok : ring_macros_ok demo_ring := demo_macros_ok blkif_entry.

Definition demo_blk : blk Gnttab.gnttab := get (init_buffers demo_blk0) demo_blk0.

(** [n] pages at 16384 to sectors from 8 on. *)
Definition demo_io (n : Z) : blk_request :=
  BlkReq ((fun i => 16384 + i * 4096) <$> seqZ 0 11) n 0 3 0 4096 BLK_EMPTY 1 77 99.

Lemma demo_blk_ok : pool_ok demo_blk (rev (seqZ 1 7)) /\ blk_devices demo_blk = replicate 8 demo_dev /\ grants demo_blk = Gnttab.demo_gnttab.
Proof.
  destruct (init_buffers_spec demo_blk0) as (s & Hs & Hp & Hd & Hg); [done|done| |].
  - intros i sh [-> _]%lookup_replicate. done.
  - unfold demo_blk. rewrite Hs. exact (conj Hp (conj Hd Hg)).
Qed.

Lemma demo_free : free_set Gnttab.demo_gnttab (list_to_set (15 :: rev (seqZ 8 7))).
Proof. eexists. split; [apply Gnttab.demo_gnttab_free|done]. Qed.

Lemma demo_dev_ok : slots_ok demo_shared /\ slots_segs demo_shared.
Proof. split; [done|]. intros j e [-> _]%lookup_replicate. done. Qed.

Definition demo_request (n : Z) : blk Gnttab.gnttab := set_request 5000 (demo_io n) demo_blk.
