(* ===== verification/BlkProto.v ===== *)
(** Requests and responses of the block device front end: the submitting threads, the
    interrupt handlers and the back ends as steps, in any order, and the proof that every
    request is completed with the answer to it.

    A step is what the code does between two accesses to a ring index that the back end
    changes; the lock of a device keeps the submissions and the handler of the same device
    apart.  A back end takes the requests of its ring in order and answers each of them once,
    in any order, with the identifier of the request: that is its side of the protocol in
    Xen's io/blkif.h and io/ring.h. *)
From S2P Require Import Prelude FreeList Grants SharedRing BlkFront BlkProps.
From stdpp Require Import options.

(** The consumer index of a back end, and the requests it has taken and not answered. *)
Record backend := Back { b_cons : Z; b_taken : list blkif_request }.

(** Where the handler of a device is: at the read of [rsp_prod], or in the loop. *)
Inductive handler_pc := Start | Loop (cons prod : Z).

(** [b_at] has the devices whose handler runs, [b_answers] the last request each identifier
    was used for and the answer to it. *)
Record bsys {G : Type} := Sys {
  b_blk : blk G;
  b_back : list backend;
  b_at : gmap nat handler_pc;
  b_answers : gmap Z (blkif_request * Z)
}.
Arguments bsys : clear implicits.
Arguments Sys {G}.

Section System.
Unset Default Proof Using.
Context {G : Type} `{!GrantTable G} {R : ring_macros blkif_entry} {RO : ring_macros_ok R} {B : blkif} {BO : blkif_ok B}.
Context (virt_to_mfn : Z -> Z).
Implicit Types s : blk G.

Local Abbreviation N := (RING_SIZE blkif_entry).
Local Abbreviation MAX := (Z.to_nat BLKIF_MAX_SEGMENTS_PER_REQUEST).

Definition with_ring (d : nat) (v : blk_dev) (r : sring blkif_entry) s : blk G :=
  set_devices (<[d := set_ring (set_shared r (ring v)) v]> (blk_devices s)) s.

Inductive bstep : bsys G -> bsys G -> Prop :=
| step_request a io s bs at_ A :
    state io = BLK_EMPTY -> (forall io0, requests s !! a = Some io0 -> state io0 <> BLK_SUBMITTED) ->
    bstep (Sys s bs at_ A) (Sys (set_request a io s) bs at_ A)
| step_submit a io d n e s s' bs at_ A :
    at_ !! d = None -> requests s !! a = Some io -> device io = Z.of_nat d -> has_pages io n -> (n < MAX)%nat ->
    guk_blk_do_io virt_to_mfn a s = Ok (e, s') ->
    bstep (Sys s bs at_ A) (Sys s' bs at_ A)
| step_lock d v s bs at_ A :
    at_ !! d = None -> blk_devices s !! d = Some v -> d_state v = ST_READY ->
    bstep (Sys s bs at_ A) (Sys s bs (<[d := Start]> at_) A)
| step_read d v s bs at_ A :
    at_ !! d = Some Start -> blk_devices s !! d = Some v ->
    bstep (Sys s bs at_ A) (Sys s bs (<[d := Loop (rsp_cons (ring v)) (rsp_prod (shared (ring v)))]> at_) A)
| step_response d c p s s' bs at_ A :
    at_ !! d = Some (Loop c p) -> c <> p -> handle_response (Z.of_nat d) c s = Ok s' ->
    bstep (Sys s bs at_ A) (Sys s' bs (<[d := Loop (wrap32 (c + 1)) p]> at_) A)
| step_finish d c more s s' bs at_ A :
    at_ !! d = Some (Loop c c) -> finish_responses (Z.of_nat d) c s = Ok (more, s') ->
    bstep (Sys s bs at_ A) (Sys s' bs (if more : bool then <[d := Start]> at_ else delete d at_) A)
| step_take d v bk q s bs at_ A :
    blk_devices s !! d = Some v -> bs !! d = Some bk -> b_cons bk <> req_prod (shared (ring v)) ->
    ring_get (b_cons bk) (shared (ring v)) = Ok (EReq q) ->
    bstep (Sys s bs at_ A) (Sys s (<[d := Back (wrap32 (b_cons bk + 1)) (b_taken bk ++ [q])]> bs) at_ A)
| step_answer d v c l1 q l2 st r s bs at_ A :
    blk_devices s !! d = Some v -> bs !! d = Some (Back c (l1 ++ q :: l2)) ->
    ring_put (rsp_prod (shared (ring v))) (ERsp (BRsp (b_id q) st)) (shared (ring v)) = Ok r ->
    bstep (Sys s bs at_ A)
      (Sys (with_ring d v (set_rsp_prod (wrap32 (rsp_prod (shared (ring v)) + 1)) r) s)
         (<[d := Back c (l1 ++ l2)]> bs) at_ (<[b_id q := (q, st)]> A))
| step_event d v e s bs at_ A :
    blk_devices s !! d = Some v ->
    bstep (Sys s bs at_ A)
      (Sys (with_ring d v (let r := shared (ring v) in SRing (req_prod r) e (rsp_prod r) (rsp_event r) (slots r)) s) bs at_ A).

(** ** The ring of a device *)

(** The responses that the handler has not got to, the first at position [dd_pos], and the
    requests that the back end has not taken. *)
Record ddata := DD { dd_pos : Z; dd_rs : list blkif_response; dd_qs : list blkif_request }.

Definition n_rs (dd : ddata) : Z := Z.of_nat (length (dd_rs dd)).
Definition n_taken (bk : backend) : Z := Z.of_nat (length (b_taken bk)).
Definition n_qs (dd : ddata) : Z := Z.of_nat (length (dd_qs dd)).

Record dev_inv (v : blk_dev) (bk : backend) (o : option handler_pc) (dd : ddata) : Prop := {
  di_slots : slots_ok (shared (ring v));
  di_segs : slots_segs (shared (ring v));
  di_cons : match o with
    | Some (Loop c p) => c = wrap32 (dd_pos dd) /\ exists k, 0 <= k <= n_rs dd /\ p = wrap32 (dd_pos dd + k)
    | _ => rsp_cons (ring v) = wrap32 (dd_pos dd)
    end;
  di_rsp : rsp_prod (shared (ring v)) = wrap32 (dd_pos dd + n_rs dd);
  di_bcons : b_cons bk = wrap32 (dd_pos dd + n_rs dd + n_taken bk);
  di_req : req_prod (shared (ring v)) = wrap32 (dd_pos dd + n_rs dd + n_taken bk + n_qs dd);
  di_pvt : req_prod_pvt (ring v) = wrap32 (dd_pos dd + n_rs dd + n_taken bk + n_qs dd);
  di_rs : window (shared (ring v)) (dd_pos dd) (ERsp <$> dd_rs dd);
  di_qs : window (shared (ring v)) (dd_pos dd + n_rs dd + n_taken bk) (EReq <$> dd_qs dd);
  di_room : n_rs dd + n_taken bk + n_qs dd < N
}.

Local Arguments di_slots {_ _ _ _}.
Local Arguments di_segs {_ _ _ _}.
Local Arguments di_cons {_ _ _ _}.
Local Arguments di_rsp {_ _ _ _}.
Local Arguments di_bcons {_ _ _ _}.
Local Arguments di_req {_ _ _ _}.
Local Arguments di_pvt {_ _ _ _}.
Local Arguments di_rs {_ _ _ _}.
Local Arguments di_qs {_ _ _ _}.
Local Arguments di_room {_ _ _ _}.

(** Indices less than the size of the ring apart are equal when they are equal as 32-bit numbers. *)
Lemma wrap32_near x k : 0 <= k < N -> wrap32 (x + k) = wrap32 x -> k = 0.
Proof.
  pose proof N_bounds. intros Hk He. unfold wrap in He. apply (mod_inj (2 ^ 32)) in He; lia.
Qed.

Lemma slots_segs_put r i e : slots_segs r -> length (seg (as_request e)) = MAX -> slots_segs (set_slots (<[i := e]> (slots r)) r).
Proof.
  intros Hs He j x [(_ & <- & _)|[_ Hx]]%list_lookup_insert_Some; [done|]. by eapply Hs.
Qed.

Lemma dev_lock v bk dd : dev_inv v bk None dd -> dev_inv v bk (Some Start) dd.
Proof. intros []. by constructor. Qed.

Lemma dev_read v bk dd :
  dev_inv v bk (Some Start) dd -> dev_inv v bk (Some (Loop (rsp_cons (ring v)) (rsp_prod (shared (ring v))))) dd.
Proof.
  intros Hd. destruct (Hd). constructor; try done. split; [done|]. exists (n_rs dd). unfold n_rs in *. split; [lia|done].
Qed.

(** The next response. *)
Lemma dev_next v bk c p dd :
  dev_inv v bk (Some (Loop c p)) dd -> c <> p ->
  exists r rs, dd_rs dd = r :: rs /\ ring_get c (shared (ring v)) = Ok (ERsp r) /\
    dev_inv v bk (Some (Loop (wrap32 (c + 1)) p)) (DD (dd_pos dd + 1) rs (dd_qs dd)).
Proof.
  intros Hd Hne. destruct (di_cons Hd) as [-> (k & Hk & ->)]. destruct dd as [P [|r rs] qs]; unfold n_rs, n_qs in *; simpl in *.
  { destruct Hne. f_equal. lia. }
  pose proof (di_rs Hd) as Hw. simpl in Hw. exists r, rs. split; [done|]. split; [by eapply ring_get_window, Hw; apply (di_slots Hd)|].
  rewrite wrap_add_l. destruct Hd as [Hs Hseg _ Hr Hb Hq Hp _ Hwq Hroom]. unfold n_rs, n_qs in *. simpl in *.
  apply window_cons in Hw as [_ Hw].
  assert (forall z, P + 1 + z = P + (z + 1)) as E by lia. constructor; unfold n_rs, n_qs; simpl; try done.
  - split; [done|]. exists (k - 1). destruct (decide (k = 0)) as [->|]; [destruct Hne; f_equal; lia|]. split; [lia|f_equal; lia].
  - rewrite Hr. f_equal. lia.
  - rewrite Hb. f_equal. lia.
  - rewrite Hq. f_equal. lia.
  - rewrite Hp. f_equal. lia.
  - by replace (P + 1 + Z.of_nat (length rs) + n_taken bk) with (P + Z.of_nat (S (length rs)) + n_taken bk) by lia.
  - lia.
Qed.

Lemma dev_finish v bk c e more dd :
  dev_inv v bk (Some (Loop c c)) dd ->
  dev_inv (set_ring (FRing (req_prod_pvt (ring v)) c (set_rsp_event e (shared (ring v)))) v) bk (if more : bool then Some Start else None) dd.
Proof.
  intros [Hs Hseg [Hc _] Hr Hb Hq Hp Hw Hwq Hroom]. constructor; try done. by destruct more.
Qed.

Lemma dev_take v bk o dd q :
  dev_inv v bk o dd -> b_cons bk <> req_prod (shared (ring v)) -> ring_get (b_cons bk) (shared (ring v)) = Ok (EReq q) ->
  exists qs, dd_qs dd = q :: qs /\ dev_inv v (Back (wrap32 (b_cons bk + 1)) (b_taken bk ++ [q])) o (DD (dd_pos dd) (dd_rs dd) qs).
Proof.
  intros Hd Hne Hg. rewrite (di_bcons Hd), (di_req Hd) in Hne. rewrite (di_bcons Hd) in Hg. pose proof (di_qs Hd) as Hw.
  destruct Hd as [Hs Hseg Hc Hr Hb Hq Hp Hwr _ Hroom]. destruct dd as [P rs qs]; unfold n_rs, n_qs, n_taken in *; simpl in *.
  destruct qs as [|q' qs]; [destruct Hne; f_equal; simpl; lia|]. simpl in Hw.
  rewrite (ring_get_window _ _ _ _ Hs Hw) in Hg. injection Hg as ->. exists qs. split; [done|]. apply window_cons in Hw as [_ Hw].
  constructor; unfold n_rs, n_qs, n_taken; simpl in *; rewrite ?length_app; simpl; try done.
  - rewrite Hb, wrap_add_l. f_equal. lia.
  - rewrite Hq. f_equal. lia.
  - rewrite Hp. f_equal. lia.
  - by replace (P + Z.of_nat (length rs) + Z.of_nat (length (b_taken bk) + 1))
      with (P + Z.of_nat (length rs) + Z.of_nat (length (b_taken bk)) + 1) by lia.
  - lia.
Qed.

Lemma dev_answer v c l1 q l2 o dd st r :
  dev_inv v (Back c (l1 ++ q :: l2)) o dd ->
  ring_put (rsp_prod (shared (ring v))) (ERsp (BRsp (b_id q) st)) (shared (ring v)) = Ok r ->
  dev_inv (set_ring (set_shared (set_rsp_prod (wrap32 (rsp_prod (shared (ring v)) + 1)) r) (ring v)) v)
    (Back c (l1 ++ l2)) o (DD (dd_pos dd) (dd_rs dd ++ [BRsp (b_id q) st]) (dd_qs dd)).
Proof.
  intros Hd Hput. pose proof (di_rs Hd) as Hwr. pose proof (di_qs Hd) as Hwq. rewrite (di_rsp Hd) in Hput |- *.
  destruct Hd as [Hs Hseg Hc Hr Hb Hq Hp _ _ Hroom]. destruct dd as [P rs qs]; unfold n_rs, n_qs, n_taken in *; simpl in *.
  rewrite ring_put_pos in Hput by done. injection Hput as <-. rewrite wrap_add_l. rewrite length_app in *. simpl in *.
  pose proof N_bounds. constructor; unfold n_rs, n_qs, n_taken; simpl in *; rewrite ?length_app; simpl; try done.
  - by apply set_slots_ok.
  - apply slots_segs_put; [done|]. apply rsp_segments.
  - destruct o as [[|c' p]|]; [done| |done]. destruct Hc as (? & k & ? & ?). split; [done|]. exists k. split; [lia|done].
  - f_equal. lia.
  - rewrite Hb. f_equal. lia.
  - rewrite Hq. f_equal. lia.
  - rewrite Hp. f_equal. lia.
  - rewrite fmap_app. simpl. eapply window_slots; [|pose proof (window_snoc (shared (ring v)) P (ERsp <$> rs) (ERsp (BRsp (b_id q) st)) Hs) as Hsn].
    2:{ rewrite length_fmap in Hsn. apply Hsn; [lia|done]. }
    done.
  - eapply window_slots; [reflexivity|].
    replace (P + Z.of_nat (length rs + 1) + Z.of_nat (length l1 + length l2)) with (P + Z.of_nat (length rs) + Z.of_nat (length l1 + S (length l2))) by lia.
    apply window_put; [|done]. intros j. rewrite length_fmap. lia.
  - lia.
Qed.

Lemma dev_submit v bk dd q :
  dev_inv v bk None dd -> length (seg q) = MAX -> n_rs dd + n_taken bk + n_qs dd + 1 < N ->
  dev_inv (set_ring (pushed (ring v) (dd_pos dd + n_rs dd + n_taken bk + n_qs dd) q) v) bk None (DD (dd_pos dd) (dd_rs dd) (dd_qs dd ++ [q])).
Proof.
  intros Hd Hql Hfit. pose proof (di_rs Hd) as Hwr. pose proof (di_qs Hd) as Hwq.
  destruct Hd as [Hs Hseg Hc Hr Hb Hq Hp _ _ Hroom]. destruct dd as [P rs qs]; unfold n_rs, n_qs, n_taken in *; simpl in *.
  constructor; unfold n_rs, n_qs, n_taken; simpl in *; rewrite ?length_app; simpl; try done.
  - by apply set_slots_ok.
  - by apply slots_segs_put.
  - f_equal. lia.
  - f_equal. lia.
  - eapply window_slots; [reflexivity|]. apply window_put; [|done]. intros j. rewrite length_fmap. lia.
  - rewrite fmap_app. simpl. pose proof (window_snoc (shared (ring v)) _ (EReq <$> qs) (EReq q) Hs ltac:(rewrite length_fmap; lia) Hwq) as Hsn.
    rewrite length_fmap in Hsn. exact Hsn.
  - lia.
Qed.

Lemma dev_event v bk o dd e :
  dev_inv v bk o dd ->
  dev_inv (set_ring (set_shared (let r := shared (ring v) in SRing (req_prod r) e (rsp_prod r) (rsp_event r) (slots r)) (ring v)) v) bk o dd.
Proof. intros []. by constructor. Qed.

(** ** The outstanding requests *)

Definition owner s (i : Z) : Z := request (shadow s i).

(** The identifiers [L] are those of requests under way: each is of one caller's request, and
    no grant reference is used twice or free. *)
Record outs s (F : gset Z) (L : list Z) : Prop := {
  ou_pend i : i ∈ L -> exists io, pending s i io;
  ou_owner : NoDup (owner s <$> L);
  ou_refs : NoDup (L ≫= live_refs s);
  ou_live r : r ∈ (L ≫= live_refs s) -> is_ref r /\ r ∉ F
}.

Global Instance outs_perm s F : Proper ((≡ₚ) ==> iff) (outs s F).
Proof.
  assert (forall L L', L ≡ₚ L' -> outs s F L -> outs s F L') as H.
  { intros L L' HL [Hp Ho Hr Hl]. constructor.
    - intros i. rewrite <- HL. apply Hp.
    - by rewrite <- HL.
    - by rewrite <- HL.
    - intros r. rewrite <- HL. apply Hl. }
  intros L L' HL. split; apply H; [done|by symmetry].
Qed.

(** A state that looks the same to the requests [L]. *)
Definition same_on s s' (L : list Z) : Prop :=
  forall i, i ∈ L -> shadow s' i = shadow s i /\ requests s' !! owner s i = requests s !! owner s i.

Lemma pending_same s s' L i io : same_on s s' L -> i ∈ L -> pending s i io <-> pending s' i io.
Proof.
  intros Hs Hi. destruct (Hs i Hi) as [He Hr]. unfold owner in Hr. split; intros [? ? ? ? ?]; constructor; rewrite ?He in *; congruence.
Qed.

Lemma live_same s s' L i : same_on s s' L -> i ∈ L -> live_refs s' i = live_refs s i.
Proof. intros Hs Hi. unfold live_refs. by destruct (Hs i Hi) as [-> _]. Qed.

Lemma bind_ext_in {X Y} (f g : X -> list Y) L : (forall x, x ∈ L -> f x = g x) -> L ≫= f = L ≫= g.
Proof.
  induction L as [|x L IH]; intros H; [done|]. rewrite !bind_cons. f_equal; [apply H; by left|].
  apply IH. intros. apply H. by right.
Qed.

Lemma live_same_bind s s' L : same_on s s' L -> L ≫= live_refs s' = L ≫= live_refs s.
Proof. intros Hs. apply bind_ext_in. intros. by eapply live_same. Qed.

Lemma outs_same s s' F F' L :
  same_on s s' L -> (forall r, r ∈ F' -> r ∈ F \/ r ∉ (L ≫= live_refs s)) -> outs s F L -> outs s' F' L.
Proof.
  intros Hs HF [Hp Ho Hr Hl].
  pose proof (live_same_bind s s' L Hs) as E.
  constructor; rewrite ?E; try done.
  - intros i Hi. destruct (Hp i Hi) as [io Hio]. exists io. by apply (pending_same s s' L).
  - replace (owner s' <$> L) with (owner s <$> L); [done|]. apply list_fmap_ext. intros k i Hi%list_elem_of_lookup_2.
    unfold owner. by destruct (Hs i Hi) as [-> _].
  - intros r Hr'. destruct (Hl r Hr') as [? HrF]. split; [done|]. intros Hin. destruct (HF r Hin); done.
Qed.

Lemma outs_cons s F i L :
  outs s F (i :: L) <->
  (exists io, pending s i io) /\ (forall j, j ∈ L -> owner s j <> owner s i) /\
  NoDup (live_refs s i) /\ (forall r, r ∈ live_refs s i -> is_ref r /\ r ∉ F /\ r ∉ (L ≫= live_refs s)) /\ outs s F L.
Proof.
  split.
  - intros [Hp Ho Hr Hl]. rewrite fmap_cons, NoDup_cons in Ho. rewrite bind_cons, NoDup_app in Hr.
    destruct Ho as [Ho1 Ho2], Hr as (Hr1 & Hr2 & Hr3). splits; [apply Hp; by left| |done| |].
    + intros j Hj He. apply Ho1. rewrite <- He. by apply list_elem_of_fmap_2.
    + intros r Hi. destruct (Hl r) as [? ?]; [rewrite bind_cons, elem_of_app; by left|]. auto.
    + constructor; [intros; apply Hp; by right|done|done|]. intros r Hi. apply Hl. rewrite bind_cons, elem_of_app. by right.
  - intros (Hp & Ho & Hnd & Hl & [Hp' Ho' Hr' Hl']). constructor.
    + intros j [-> | Hj]%elem_of_cons; [done|by apply Hp'].
    + rewrite fmap_cons, NoDup_cons. split; [|done]. intros (j & He & Hj)%list_elem_of_fmap. by apply (Ho j).
    + rewrite bind_cons, NoDup_app. splits; [done| |done]. intros r Hr. by apply Hl.
    + intros r [Hr|Hr]%elem_of_app; [|by apply Hl']. destruct (Hl r Hr) as (? & ? & _). done.
Qed.

(** The request [q] of the ring is the one [io] made, with the references [refs]. *)
Definition matches (io : blk_request) (refs : list Z) (q : blkif_request) : Prop :=
  b_operation q = operation io /\ sector_number q = wrap64 (addr_to_sec (address io)) /\
  nr_segments q = num_pages io /\ take (Z.to_nat (nr_segments q)) (seg q) = segments_of io refs.

Definition describes s (q : blkif_request) : Prop :=
  forall io, pending s (b_id q) io -> matches io (live_refs s (b_id q)) q.

Lemma describes_same s s' L q : same_on s s' L -> b_id q ∈ L -> describes s q -> describes s' q.
Proof.
  intros Hs Hq Hd io Hio. rewrite (live_same s s' L) by done. apply Hd. by apply (pending_same s s' L).
Qed.

(** The responses and the requests of all devices that are under way. *)
Definition ids (rs : list blkif_response) (qs : list blkif_request) : list Z := (rs_id <$> rs) ++ (b_id <$> qs).

Record glob s (fl : list Z) (F : gset Z) (A : gmap Z (blkif_request * Z)) (rs : list blkif_response) (qs : list blkif_request) : Prop := {
  gl_pool : pool_ok s fl;
  gl_free : free_set (grants s) F;
  gl_ids : fl ++ ids rs qs ≡ₚ seqZ 1 (N - 1);
  gl_outs : outs s F (ids rs qs);
  gl_desc q : q ∈ qs -> describes s q;
  gl_ans r : r ∈ rs -> exists q, A !! rs_id r = Some (q, rs_status r) /\ b_id q = rs_id r /\ describes s q
}.

Lemma glob_perm s fl F A rs qs rs' qs' : rs ≡ₚ rs' -> qs ≡ₚ qs' -> glob s fl F A rs qs -> glob s fl F A rs' qs'.
Proof.
  intros Hr Hq [Hp Hf Hi Ho Hd Ha].
  assert (ids rs qs ≡ₚ ids rs' qs') as E by (unfold ids; by rewrite Hr, Hq).
  constructor; try done.
  - by rewrite <- E.
  - by rewrite <- E.
  - intros q. rewrite <- Hq. apply Hd.
  - intros r. rewrite <- Hr. apply Ha.
Qed.

Lemma glob_nodup s fl F A rs qs : glob s fl F A rs qs -> NoDup (fl ++ ids rs qs).
Proof. intros Hg. rewrite (gl_ids _ _ _ _ _ _ Hg). apply NoDup_seqZ. Qed.

Lemma glob_room s fl F A rs qs : glob s fl F A rs qs -> Z.of_nat (length fl + length rs + length qs) = N - 1.
Proof.
  intros Hg. pose proof N_bounds. pose proof (Permutation_length (gl_ids _ _ _ _ _ _ Hg)) as Hl.
  unfold ids in Hl. rewrite !length_app, !length_fmap, length_seqZ in Hl. lia.
Qed.

(** ** What the steps do to the outstanding requests *)

Lemma glob_same s s' fl fl' F A rs qs :
  glob s fl F A rs qs -> pool_ok s' fl' -> fl' = fl -> grants s' = grants s -> same_on s s' (ids rs qs) -> glob s' fl' F A rs qs.
Proof.
  intros [Hp Hf Hi Ho Hd Ha] Hp' -> Hg Hs. constructor; [done|by rewrite Hg|done| | |].
  - eapply outs_same; [done|by left|done].
  - intros q Hq. eapply describes_same; [done| |by apply Hd]. unfold ids. rewrite elem_of_app. right. by apply list_elem_of_fmap_2.
  - intros r Hr. destruct (Ha r Hr) as (q & ? & Hq & ?). exists q. splits; [done|done|]. eapply describes_same; [done| |done].
    rewrite Hq. unfold ids. rewrite elem_of_app. left. by apply list_elem_of_fmap_2.
Qed.

Lemma glob_devices s v fl F A rs qs : glob s fl F A rs qs -> glob (set_devices v s) fl F A rs qs.
Proof. intros Hg. eapply glob_same; [done|apply (pool_ok_same s); [done|done|apply (gl_pool _ _ _ _ _ _ Hg)]|done|done|]. by intros i Hi. Qed.

Lemma elem_ids_r r rs qs : r ∈ rs -> rs_id r ∈ ids rs qs.
Proof. intros. unfold ids. rewrite elem_of_app. left. by apply list_elem_of_fmap_2. Qed.

Lemma elem_ids_q q rs qs : q ∈ qs -> b_id q ∈ ids rs qs.
Proof. intros. unfold ids. rewrite elem_of_app. right. by apply list_elem_of_fmap_2. Qed.

Lemma ids_cons_q q rs qs : ids rs (q :: qs) ≡ₚ b_id q :: ids rs qs.
Proof. unfold ids. rewrite fmap_cons. by rewrite <- Permutation_middle. Qed.

Lemma glob_answer s fl F A rs q qs st :
  glob s fl F A rs (q :: qs) -> glob s fl F (<[b_id q := (q, st)]> A) (BRsp (b_id q) st :: rs) qs.
Proof.
  intros Hg. pose proof (glob_nodup _ _ _ _ _ _ Hg) as Hnd. destruct Hg as [Hp Hf Hi Ho Hd Ha].
  rewrite ids_cons_q in Hi, Ho, Hnd. apply NoDup_app in Hnd as (_ & _ & [Hn _]%NoDup_cons).
  constructor; try done.
  - intros q' Hq. apply Hd. by right.
  - intros r [-> | Hr]%elem_of_cons; simpl.
    + exists q. rewrite lookup_insert_eq. splits; [done|done|]. apply Hd. by left.
    + rewrite lookup_insert_ne; [by apply Ha|]. intros He. apply Hn. rewrite He. by apply elem_ids_r.
Qed.

Lemma outs_range s F L i : outs s F L -> i ∈ L -> 0 < i < N.
Proof. intros Ho Hi. destruct (ou_pend _ _ _ Ho i Hi) as [io []]. done. Qed.

(** A change of one shadow and one request is not seen by the others. *)
Lemma same_on_update s s' fl F L l i sh a v :
  pool_ok s fl -> outs s F L -> 0 < i < N -> i ∉ L -> (forall j, j ∈ L -> owner s j <> a) ->
  shadows s' = shadows (pool_update s l i sh) -> requests s' = <[a := v]> (requests s) -> same_on s s' L.
Proof.
  intros Hp Ho Hi HiL Ha Hsh Hr j Hj. pose proof (outs_range s F L j Ho Hj). split.
  - transitivity (shadow (pool_update s l i sh) j); [unfold shadow; by rewrite Hsh|].
    rewrite (shadow_update s fl), decide_False; [done| |done|lia|lia]. by intros ->.
  - rewrite Hr, lookup_insert_ne; [done|]. intros He. by apply (Ha j).
Qed.

Lemma glob_complete s fl F A r rs qs io st l g F' :
  glob s fl F A (r :: rs) qs -> pending s (rs_id r) io ->
  free_list l (rs_id r :: fl) -> length l = Z.to_nat N ->
  free_set g F' -> F' ⊆ F ∪ list_to_set (live_refs s (rs_id r)) ->
  glob (completed (rs_id r) io st l g s) (rs_id r :: fl) F' A rs qs.
Proof.
  intros Hg Hpe Hl Hll Hfg HF'. pose proof (glob_nodup _ _ _ _ _ _ Hg) as Hnd. destruct Hg as [Hp Hf Hi Ho Hd Ha].
  change (ids (r :: rs) qs) with (rs_id r :: ids rs qs) in *. apply NoDup_app in Hnd as (_ & _ & [Hn _]%NoDup_cons).
  apply outs_cons in Ho as (_ & Hown & _ & Hlive & Ho). pose proof (pe_range _ _ _ Hpe) as Hr.
  set (s' := completed _ _ _ _ _ _).
  assert (same_on s s' (ids rs qs)) as Hsame.
  { eapply (same_on_update s s' fl F _ l (rs_id r) (set_free 1 (shadow s (rs_id r))) (owner s (rs_id r))); try done. }
  constructor.
  - eapply (pool_ok_same (pool_update s l (rs_id r) (set_free 1 (shadow s (rs_id r))))); [done|done|].
    eapply pool_update_ok; [done|done|done|]. apply (shadow_refs s fl); [done|lia].
  - done.
  - rewrite <- Hi. simpl. by rewrite Permutation_middle.
  - eapply outs_same; [done| |done]. intros x Hx. destruct (decide (x ∈ F)); [by left|right].
    apply Hlive. set_solver.
  - intros q Hq. eapply describes_same; [done|by apply elem_ids_q|by apply Hd].
  - intros r' Hr'. destruct (Ha r') as (q & ? & Hq & ?); [by right|]. exists q. splits; [done|done|].
    eapply describes_same; [done| |done]. rewrite Hq. by apply elem_ids_r.
Qed.

Lemma glob_submit s i fl F A rs qs a io v p n refs segs l g ev :
  glob s (i :: fl) F A rs qs -> requests s !! a = Some io -> state io = BLK_EMPTY -> has_pages io n -> (n < MAX)%nat ->
  filled io F n refs segs g -> free_list l fl -> length l = Z.to_nat N ->
  glob (submitted a i io v p refs segs l g ev s) fl (F ∖ list_to_set refs) A rs (new_request io i segs :: qs).
Proof.
  intros Hg Hreq Hst (Hn & Hn1 & _) HnM ((Hrl & Hrnd & Hrs & Hfg) & Htake & Hsl & _) Hl Hll.
  pose proof (glob_nodup _ _ _ _ _ _ Hg) as Hnd. destruct Hg as [Hp Hf Hi Ho Hd Ha]. simpl in Hnd.
  apply NoDup_cons in Hnd as [HiL _]. rewrite elem_of_app in HiL. pose proof max_segments as HM.
  pose proof (po_list _ _ Hp) as (_ & _ & [Hir _]%Forall_cons). rewrite (po_length _ _ Hp) in Hir.
  set (s' := submitted _ _ _ _ _ _ _ _ _ _ _). set (sh := new_shadow s io a i refs).
  pose proof (shadow_refs s _ i Hp ltac:(lia)) as Hold.
  assert (same_on s s' (ids rs qs)) as Hsame.
  { eapply (same_on_update s s' (i :: fl) F _ l i sh a); [done|done|lia|tauto| |done|done].
    intros j Hj <-. destruct (ou_pend _ _ _ Ho j Hj) as [io' [_ _ _ Hr' Hs']]. unfold owner in *. congruence. }
  assert (shadow s' i = sh) as Hsh.
  { transitivity (shadow (pool_update s l i sh) i); [done|]. by rewrite (shadow_update s (i :: fl)), decide_True by (done || lia). }
  assert (wrap 8 (num_pages io) = num_pages io) as Hw8 by (rewrite wrap_small; lia).
  assert (sgn 16 (num_pages io) = num_pages io) as Hs16 by (rewrite sgn_small; lia).
  assert (live_refs s' i = refs) as Hlive.
  { unfold live_refs. rewrite Hsh. unfold sh, new_shadow. simpl. rewrite Hs16, take_app_length'; [done|lia]. }
  assert (pending s' i (set_state BLK_SUBMITTED io)) as Hpe.
  { constructor; rewrite ?Hsh; unfold sh, new_shadow; simpl; rewrite ?Hs16; try done; [lia|lia|apply lookup_insert_eq]. }
  constructor.
  - eapply (pool_ok_same (pool_update s l i sh)); [done|done|]. eapply pool_update_ok; [done|done|done|].
    unfold sh, new_shadow. simpl. rewrite length_app, length_drop, Hold. lia.
  - done.
  - rewrite ids_cons_q, <- Permutation_middle. exact Hi.
  - rewrite ids_cons_q. simpl b_id. apply outs_cons. rewrite Hlive. splits; [by eexists| |done| |].
    + intros j Hj. unfold owner. destruct (Hsame j Hj) as [-> _]. rewrite Hsh. simpl.
      destruct (ou_pend _ _ _ Ho j Hj) as [io' [_ _ _ Hr' Hs']]. intros He. rewrite He in Hr'. simplify_eq. congruence.
    + intros r Hr. assert (r ∈ F) as HrF by set_solver. splits; [by apply (free_is_ref (grants s) F)|set_solver|].
      rewrite (live_same_bind s s') by done. intros Hin. by apply (ou_live _ _ _ Ho r Hin).
    + eapply outs_same; [done| |done]. set_solver.
  - intros q [-> | Hq]%elem_of_cons; [|eapply describes_same; [done|by apply elem_ids_q|by apply Hd]].
    intros io' Hio'. simpl b_id in *. pose proof (pe_request _ _ _ Hio') as E1. rewrite (pe_request _ _ _ Hpe) in E1.
    injection E1 as <-. rewrite Hlive. unfold matches. simpl. rewrite Hw8. splits; [done|done|done|].
    replace (Z.to_nat (num_pages io)) with n by lia. exact Htake.
  - intros r' Hr'. destruct (Ha r' Hr') as (q & ? & Hq & ?). exists q. splits; [done|done|].
    eapply describes_same; [done| |done]. rewrite Hq. by apply elem_ids_r.
Qed.

(** ** The invariant of the system *)

Definition rs_of (x : backend * ddata) : list blkif_response := dd_rs x.2.
Definition qs_of (x : backend * ddata) : list blkif_request := b_taken x.1 ++ dd_qs x.2.

Record binv (p : bsys G) (fl : list Z) (F : gset Z) (gs : list (backend * ddata)) : Prop := {
  bi_back : b_back p = gs.*1;
  bi_len : length gs = length (blk_devices (b_blk p));
  bi_dev d v bk dd : blk_devices (b_blk p) !! d = Some v -> gs !! d = Some (bk, dd) -> dev_inv v bk (b_at p !! d) dd;
  bi_glob : glob (b_blk p) fl F (b_answers p) (gs ≫= rs_of) (gs ≫= qs_of)
}.

(** The parts of one device in a list over all of them. *)
Lemma bind_update {X Y} (f : X -> list Y) l d x :
  l !! d = Some x -> exists rest, l ≫= f ≡ₚ f x ++ rest /\ forall y, <[d := y]> l ≫= f ≡ₚ f y ++ rest.
Proof.
  intros Hx. exists ((take d l ≫= f) ++ (drop (S d) l ≫= f)). split.
  - rewrite <- (take_drop_middle l d x Hx) at 1. rewrite bind_app, bind_cons. solve_Permutation.
  - intros y. rewrite insert_take_drop by by eapply lookup_lt_Some. rewrite bind_app, bind_cons. solve_Permutation.
Qed.

Lemma binv_at p fl F gs d v : binv p fl F gs -> blk_devices (b_blk p) !! d = Some v ->
  exists bk dd, gs !! d = Some (bk, dd) /\ b_back p !! d = Some bk /\ dev_inv v bk (b_at p !! d) dd.
Proof.
  intros Hb Hv. destruct (lookup_lt_is_Some_2 gs d) as [[bk dd] Hg].
  { rewrite (bi_len _ _ _ _ Hb). by eapply lookup_lt_Some. }
  exists bk, dd. splits; [done| |by eapply (bi_dev _ _ _ _ Hb)]. rewrite (bi_back _ _ _ _ Hb), list_lookup_fmap, Hg. done.
Qed.

(** A step of one device keeps the invariant when it keeps the device's part of it, and the
    rest whatever the other devices have under way. *)
Lemma binv_update s bs at_ A s' at' A' fl F fl' F' gs d v v' bk bk' dd dd' :
  binv (Sys s bs at_ A) fl F gs -> blk_devices s !! d = Some v -> gs !! d = Some (bk, dd) ->
  blk_devices s' = <[d := v']> (blk_devices s) -> (forall d', d' <> d -> at' !! d' = at_ !! d') ->
  (Z.of_nat (length fl) + n_rs dd + n_taken bk + n_qs dd <= N - 1 -> dev_inv v' bk' (at' !! d) dd') ->
  (forall rs qs, glob s fl F A (dd_rs dd ++ rs) (b_taken bk ++ dd_qs dd ++ qs) ->
     glob s' fl' F' A' (dd_rs dd' ++ rs) (b_taken bk' ++ dd_qs dd' ++ qs)) ->
  binv (Sys s' (<[d := bk']> bs) at' A') fl' F' (<[d := (bk', dd')]> gs).
Proof.
  intros [Hbk Hlen Hdev Hgl] Hv Hg Hs' Hat Hd Hglob. simpl in *.
  destruct (bind_update rs_of gs d _ Hg) as (rs & Hrs & Hrs'). destruct (bind_update qs_of gs d _ Hg) as (qs & Hqs & Hqs').
  assert (glob s fl F A (dd_rs dd ++ rs) (b_taken bk ++ dd_qs dd ++ qs)) as Hgl1.
  { eapply glob_perm; [exact Hrs| |exact Hgl]. rewrite Hqs. unfold qs_of. simpl. by rewrite <- app_assoc. }
  constructor; simpl.
  - by rewrite Hbk, list_fmap_insert.
  - by rewrite Hs', !length_insert.
  - intros d' w bk1 dd1. rewrite Hs'. intros [(<- & <- & _)|[Hne Hw]]%list_lookup_insert_Some [(Hd1 & ? & _)|[Hne' Hg1]]%list_lookup_insert_Some; try done; simplify_eq.
    + apply Hd. pose proof (glob_room _ _ _ _ _ _ Hgl1) as Hr. rewrite !length_app in Hr. unfold n_rs, n_taken, n_qs. lia.
    + rewrite Hat by done. by eapply Hdev.
  - eapply glob_perm; [by rewrite Hrs'| |by apply Hglob]. rewrite Hqs'. unfold qs_of. simpl. by rewrite <- app_assoc.
Qed.

Lemma back_id s bs at_ A fl F gs d bk dd :
  binv (Sys s bs at_ A) fl F gs -> gs !! d = Some (bk, dd) -> <[d := bk]> bs = bs.
Proof. intros Hb Hg. apply list_insert_id. by rewrite (bi_back _ _ _ _ Hb : bs = _), list_lookup_fmap, Hg. Qed.

Lemma binv_pc s bs at_ at' A fl F gs d v bk dd :
  binv (Sys s bs at_ A) fl F gs -> blk_devices s !! d = Some v -> gs !! d = Some (bk, dd) ->
  (forall d', d' <> d -> at' !! d' = at_ !! d') -> dev_inv v bk (at' !! d) dd ->
  binv (Sys s bs at' A) fl F gs.
Proof.
  intros Hb Hv Hg Hat Hd.
  rewrite <- (back_id _ _ _ _ _ _ _ _ _ _ Hb Hg).
  replace gs with (<[d := (bk, dd)]> gs) by by apply list_insert_id.
  eapply binv_update; [exact Hb|exact Hv|exact Hg|by rewrite list_insert_id|exact Hat|done|done].
Qed.

(** ** The steps *)

Lemma binv_same s s' bs at_ A fl F gs :
  binv (Sys s bs at_ A) fl F gs -> blk_devices s' = blk_devices s -> pool_ok s' fl -> grants s' = grants s ->
  (forall L, outs s F L -> same_on s s' L) -> binv (Sys s' bs at_ A) fl F gs.
Proof.
  intros [Hbk Hlen Hdev Hgl] Hd Hp Hg Hs. simpl in *. constructor; simpl; [done|by rewrite Hd| |].
  - intros d v bk dd. rewrite Hd. apply Hdev.
  - eapply glob_same; [exact Hgl|exact Hp|done|done|]. apply Hs, Hgl.
Qed.

Lemma blk_request_inv s bs at_ A fl F gs a io :
  binv (Sys s bs at_ A) fl F gs -> (forall io0, requests s !! a = Some io0 -> state io0 <> BLK_SUBMITTED) ->
  binv (Sys (set_request a io s) bs at_ A) fl F gs.
Proof.
  intros Hb Ha. eapply binv_same; [exact Hb|done| |done|].
  - apply (pool_ok_same s); [done|done|]. apply (gl_pool _ _ _ _ _ _ (bi_glob _ _ _ _ Hb)).
  - intros L Ho j Hj. split; [done|]. simpl. rewrite lookup_insert_ne; [done|]. intros ->.
    destruct (ou_pend _ _ _ Ho j Hj) as [io' [_ _ _ Hr Hs]]. by apply (Ha io').
Qed.

Lemma check_request_inv io s v d : check_request io s = Ok v -> device io = Z.of_nat d ->
  state io = BLK_EMPTY /\ device io < MAX_DEVICES /\ blk_devices s !! d = Some v /\ d_state v = ST_READY /\
  Z.shiftr (address io) SECTOR_BITS + end_sector io <= sectors (d_device v).
Proof.
  unfold check_request, dev. intros H Hd. res_inv. bool_hyps. rewrite bool_decide_eq_true in *.
  apply elem_inv in Hr1 as [_ Hv]. rewrite Hd, Nat2Z.id in Hv. done.
Qed.

Lemma blk_submit_inv s bs at_ A fl F gs a io d n e s' :
  binv (Sys s bs at_ A) fl F gs -> at_ !! d = None -> requests s !! a = Some io -> device io = Z.of_nat d ->
  has_pages io n -> (n < MAX)%nat -> guk_blk_do_io virt_to_mfn a s = Ok (e, s') ->
  exists fl' F' gs', binv (Sys s' bs at_ A) fl' F' gs'.
Proof.
  intros Hb Hat Hr Hdev Hpg Hn He.
  assert (exists v, check_request io s = Ok v) as [v Hv].
  { unfold guk_blk_do_io in He. rewrite Hr in He. cbn [access mbind res_bind] in He. res_inv. by eexists. }
  destruct (check_request_inv io s v d Hv Hdev) as (Hst & Hmax & Hvd & Hrdy & Hsec).
  destruct (binv_at _ _ _ _ _ _ Hb Hvd) as (bk & dd & Hg & _ & Hdi). simpl in Hdi. rewrite Hat in Hdi.
  pose proof (bi_glob _ _ _ _ Hb) as Hgl. simpl in Hgl. pose proof (gl_pool _ _ _ _ _ _ Hgl) as Hpool.
  assert (acceptable s a io v) as Hac by (constructor; try done; [lia|by rewrite Hdev, Nat2Z.id]).
  pose proof (guk_blk_do_io_spec virt_to_mfn s fl F a io v n _ Hpool (gl_free _ _ _ _ _ _ Hgl) Hac Hpg Hn
    (di_slots Hdi) (di_segs Hdi) (di_pvt Hdi)) as Hspec. destruct fl as [|i fl].
  - rewrite Hspec in He. injection He as _ <-. exists [], F, gs.
    eapply binv_same; [exact Hb|done| |done|].
    + apply (pool_update_ok s []); [done|apply (po_list _ _ Hpool)|apply (po_length _ _ Hpool)|]. apply (shadow_refs s []); [done|]. pose proof N_bounds. lia.
    + intros L Ho j Hj. pose proof (outs_range _ _ _ _ Ho Hj). pose proof N_bounds. split; [|done].
      by rewrite (shadow_update s []), decide_False by (done || lia).
  - destruct (decide (n <= size F)%nat); [|congruence]. destruct Hspec as (refs & segs & fl0 & g & ev & Hspec & Hfill & _ & Hl & Hll & _).
    rewrite Hspec in He. injection He as <- <-. exists fl, (F ∖ list_to_set refs), (<[d := (bk, DD (dd_pos dd) (dd_rs dd) (dd_qs dd ++ [new_request io i segs]))]> gs).
    rewrite <- (back_id _ _ _ _ _ _ _ _ _ _ Hb Hg).
    eapply binv_update; [exact Hb|exact Hvd|exact Hg| |done| |].
    + simpl. by rewrite Hdev, Nat2Z.id.
    + rewrite Hat. intros Hroom. apply dev_submit; [done|apply Hfill|]. simpl length in Hroom. lia.
    + intros rs qs Hgl'. simpl. eapply glob_perm; [done| |by eapply glob_submit]. solve_Permutation.
Qed.

Lemma blk_lock_inv s bs at_ A fl F gs d v :
  binv (Sys s bs at_ A) fl F gs -> at_ !! d = None -> blk_devices s !! d = Some v ->
  binv (Sys s bs (<[d := Start]> at_) A) fl F gs.
Proof.
  intros Hb Hat Hv. destruct (binv_at _ _ _ _ _ _ Hb Hv) as (bk & dd & Hg & _ & Hdi). simpl in Hdi. rewrite Hat in Hdi.
  eapply binv_pc; [exact Hb|exact Hv|exact Hg| |].
  - intros d' Hd'. by rewrite lookup_insert_ne.
  - rewrite lookup_insert_eq. by apply dev_lock.
Qed.

Lemma blk_read_inv s bs at_ A fl F gs d v :
  binv (Sys s bs at_ A) fl F gs -> at_ !! d = Some Start -> blk_devices s !! d = Some v ->
  binv (Sys s bs (<[d := Loop (rsp_cons (ring v)) (rsp_prod (shared (ring v)))]> at_) A) fl F gs.
Proof.
  intros Hb Hat Hv. destruct (binv_at _ _ _ _ _ _ Hb Hv) as (bk & dd & Hg & _ & Hdi). simpl in Hdi. rewrite Hat in Hdi.
  eapply binv_pc; [exact Hb|exact Hv|exact Hg| |].
  - intros d' Hd'. by rewrite lookup_insert_ne.
  - rewrite lookup_insert_eq. by apply dev_read.
Qed.

Lemma blk_finish_inv s bs at_ A fl F gs d c more s' :
  binv (Sys s bs at_ A) fl F gs -> at_ !! d = Some (Loop c c) -> finish_responses (Z.of_nat d) c s = Ok (more, s') ->
  binv (Sys s' bs (if more : bool then <[d := Start]> at_ else delete d at_) A) fl F gs.
Proof.
  intros Hb Hat Hf. unfold finish_responses, dev in Hf. destruct (elem (blk_devices s) (Z.of_nat d)) as [v| |] eqn:Hv; [|done..].
  apply elem_inv in Hv as [_ Hv]. rewrite Nat2Z.id in Hv. cbn [mbind res_bind] in Hf.
  destruct (binv_at _ _ _ _ _ _ Hb Hv) as (bk & dd & Hg & _ & Hdi). simpl in Hdi. rewrite Hat in Hdi.
  set (r := FRing (req_prod_pvt (ring v)) c (shared (ring v))) in Hf.
  assert (exists e more', (if c =? req_prod_pvt r then (false, set_shared (set_rsp_event (wrap32 (c + 1)) (shared r)) r)
    else RING_FINAL_CHECK_FOR_RESPONSES r) = (more', set_shared (set_rsp_event e (shared r)) r)) as (e & more' & Hr).
  { destruct (c =? req_prod_pvt r); [by eexists _, _|]. destruct (final_law r) as [e He]. by eexists _, _. }
  rewrite Hr in Hf. unfold set_dev in Hf. rewrite set_elem_eq in Hf by (apply lookup_lt_Some in Hv; lia).
  cbn [mbind res_bind] in Hf. injection Hf as -> <-. rewrite Nat2Z.id.
  rewrite <- (back_id _ _ _ _ _ _ _ _ _ _ Hb Hg). replace gs with (<[d := (bk, dd)]> gs) by by apply list_insert_id.
  eapply binv_update; [exact Hb|exact Hv|exact Hg|done| | |].
  - intros d' Hd'. destruct more; [by rewrite lookup_insert_ne|by rewrite lookup_delete_ne].
  - intros _. replace ((if more then _ else _) !! d) with (if more then Some Start else None); [by apply dev_finish|].
    destruct more; [by rewrite lookup_insert_eq|by rewrite lookup_delete_eq].
  - intros rs qs. apply glob_devices.
Qed.

Lemma blk_take_inv s bs at_ A fl F gs d v bk q :
  binv (Sys s bs at_ A) fl F gs -> blk_devices s !! d = Some v -> bs !! d = Some bk ->
  b_cons bk <> req_prod (shared (ring v)) -> ring_get (b_cons bk) (shared (ring v)) = Ok (EReq q) ->
  exists gs', binv (Sys s (<[d := Back (wrap32 (b_cons bk + 1)) (b_taken bk ++ [q])]> bs) at_ A) fl F gs'.
Proof.
  intros Hb Hv Hbk Hne Hget. destruct (binv_at _ _ _ _ _ _ Hb Hv) as (bk' & dd & Hg & Hbk' & Hdi). simpl in *. simplify_eq.
  destruct (dev_take _ _ _ _ _ Hdi Hne Hget) as (qs & Hqs & Hdi'). eexists.
  eapply binv_update; [exact Hb|exact Hv|exact Hg|by rewrite list_insert_id|done|by intros _|].
  intros rs qs' Hgl. simpl. rewrite Hqs in Hgl. eapply glob_perm; [done| |exact Hgl]. solve_Permutation.
Qed.

Lemma blk_answer_inv s bs at_ A fl F gs d v c l1 q l2 st r :
  binv (Sys s bs at_ A) fl F gs -> blk_devices s !! d = Some v -> bs !! d = Some (Back c (l1 ++ q :: l2)) ->
  ring_put (rsp_prod (shared (ring v))) (ERsp (BRsp (b_id q) st)) (shared (ring v)) = Ok r ->
  exists gs', binv (Sys (with_ring d v (set_rsp_prod (wrap32 (rsp_prod (shared (ring v)) + 1)) r) s)
    (<[d := Back c (l1 ++ l2)]> bs) at_ (<[b_id q := (q, st)]> A)) fl F gs'.
Proof.
  intros Hb Hv Hbk Hput. destruct (binv_at _ _ _ _ _ _ Hb Hv) as (bk' & dd & Hg & Hbk' & Hdi). simpl in *. simplify_eq.
  pose proof (dev_answer _ _ _ _ _ _ _ _ _ Hdi Hput) as Hdi'. eexists.
  eapply binv_update; [exact Hb|exact Hv|exact Hg|done|done|by intros _|].
  intros rs qs Hgl. simpl in *. eapply glob_perm; [| |apply glob_devices, (glob_answer _ _ _ _ (dd_rs dd ++ rs) q (l1 ++ l2 ++ dd_qs dd ++ qs) st)].
  - solve_Permutation.
  - solve_Permutation.
  - eapply glob_perm; [done| |exact Hgl]. solve_Permutation.
Qed.

Lemma blk_event_inv s bs at_ A fl F gs d v e :
  binv (Sys s bs at_ A) fl F gs -> blk_devices s !! d = Some v ->
  binv (Sys (with_ring d v (let r := shared (ring v) in SRing (req_prod r) e (rsp_prod r) (rsp_event r) (slots r)) s) bs at_ A) fl F gs.
Proof.
  intros Hb Hv. destruct (binv_at _ _ _ _ _ _ Hb Hv) as (bk & dd & Hg & Hbk & Hdi). simpl in *.
  rewrite <- (back_id _ _ _ _ _ _ _ _ _ _ Hb Hg). replace gs with (<[d := (bk, dd)]> gs) by by apply list_insert_id.
  eapply binv_update; [exact Hb|exact Hv|exact Hg|done|done|intros _; by apply dev_event|].
  intros rs qs. apply glob_devices.
Qed.

(** What the handler finds at its index: a response to a request under way, which it
    completes; nothing stops it. *)
Lemma response_spec s bs at_ A fl F gs d c p :
  binv (Sys s bs at_ A) fl F gs -> at_ !! d = Some (Loop c p) -> c <> p -> (d < length (blk_devices s))%nat ->
  exists v r io q l g fl' F' gs',
    blk_devices s !! d = Some v /\ ring_get c (shared (ring v)) = Ok (ERsp r) /\ pending s (rs_id r) io /\
    A !! rs_id r = Some (q, rs_status r) /\ b_id q = rs_id r /\ matches io (live_refs s (rs_id r)) q /\
    handle_response (Z.of_nat d) c s = Ok (completed (rs_id r) io (done_state r) l g s) /\
    binv (Sys (completed (rs_id r) io (done_state r) l g s) bs (<[d := Loop (wrap32 (c + 1)) p]> at_) A) fl' F' gs'.
Proof.
  intros Hb Hat Hne Hd. destruct (lookup_lt_is_Some_2 _ _ Hd) as [v Hv].
  destruct (binv_at _ _ _ _ _ _ Hb Hv) as (bk & dd & Hg & Hbk & Hdi). simpl in *. rewrite Hat in Hdi.
  destruct (dev_next _ _ _ _ _ Hdi Hne) as (r & rs & Hrs & Hslot & Hdi').
  pose proof (bi_glob _ _ _ _ Hb) as Hgl. simpl in Hgl. pose proof (glob_nodup _ _ _ _ _ _ Hgl) as Hnd.
  assert (r ∈ gs ≫= rs_of) as Hin.
  { apply list_elem_of_bind. exists (bk, dd). split; [unfold rs_of; simpl; rewrite Hrs; by left|by eapply list_elem_of_lookup_2]. }
  pose proof (elem_ids_r r _ (gs ≫= qs_of) Hin) as Hid. pose proof (gl_outs _ _ _ _ _ _ Hgl) as Ho.
  destruct (ou_pend _ _ _ Ho _ Hid) as [io Hpe]. apply NoDup_app in Hnd as (_ & Hdisj & _).
  destruct (gl_ans _ _ _ _ _ _ Hgl r Hin) as (q & HA & Hq & Hdesc). rewrite <- Hq in Hpe. pose proof (Hdesc io Hpe) as Hm. rewrite Hq in Hpe, Hm.
  apply list_elem_of_split in Hid as (L1 & L2 & HL). assert (outs s F (rs_id r :: L1 ++ L2)) as Ho'.
  { rewrite HL in Ho. by rewrite <- Permutation_middle in Ho. }
  apply outs_cons in Ho' as (_ & _ & Hndr & Hlive & _).
  destruct (handle_response_spec s fl F (Z.of_nat d) v c r io) as (l & g & F' & He & Hl & Hll & Hfg & _ & HF');
    [apply Hgl|apply Hgl|unfold dev; apply elem_eq; [lia|by rewrite Nat2Z.id]|done|done| |done| |].
  { intros Hf. apply (Hdisj _ Hf). by eapply elem_ids_r. }
  { apply Forall_forall. intros x Hx. destruct (Hlive x Hx) as (? & ? & _). done. }
  exists v, r, io, q, l, g, (rs_id r :: fl), F', (<[d := (bk, DD (dd_pos dd + 1) rs (dd_qs dd))]> gs). splits; try done.
  rewrite <- (back_id _ _ _ _ _ _ _ _ _ _ Hb Hg).
  eapply binv_update; [exact Hb|exact Hv|exact Hg|by rewrite list_insert_id| | |].
  - intros d' Hd'. by rewrite lookup_insert_ne.
  - intros _. by rewrite lookup_insert_eq.
  - intros rs' qs' Hgl'. rewrite Hrs in Hgl'. simpl in *. by eapply glob_complete.
Qed.

Lemma bstep_inv p p' : bstep p p' -> (exists fl F gs, binv p fl F gs) -> exists fl F gs, binv p' fl F gs.
Proof.
  intros Hst (fl & F & gs & Hb). destruct Hst.
  - exists fl, F, gs. by apply blk_request_inv.
  - by eapply blk_submit_inv.
  - exists fl, F, gs. by eapply blk_lock_inv.
  - exists fl, F, gs. by eapply blk_read_inv.
  - assert (d < length (blk_devices s))%nat as Hd.
    { unfold handle_response, dev in *. destruct (elem (blk_devices s) (Z.of_nat d)) as [v| |] eqn:Hv; [|done..].
      apply elem_inv in Hv as [_ Hv]. rewrite Nat2Z.id in Hv. by eapply lookup_lt_Some. }
    destruct (response_spec _ _ _ _ _ _ _ _ _ _ Hb H H0 Hd) as (v & r & io & q & l & g & fl' & F' & gs' & _ & _ & _ & _ & _ & _ & He & Hb').
    rewrite He in *. simplify_eq. by exists fl', F', gs'.
  - exists fl, F, gs. by eapply blk_finish_inv.
  - exists fl, F. by eapply blk_take_inv.
  - exists fl, F. by eapply blk_answer_inv.
  - exists fl, F, gs. by eapply blk_event_inv.
Qed.

(** ** The handler as a function takes these steps *)

Lemma handle_responses_steps n x d s s' bs at_ A :
  at_ !! d = Some (Loop (wrap32 x) (wrap32 (x + Z.of_nat n))) -> Z.of_nat n < 2 ^ 32 ->
  handle_responses n (Z.of_nat d) (wrap32 x) s = Ok s' ->
  rtc bstep (Sys s bs at_ A) (Sys s' bs (<[d := Loop (wrap32 (x + Z.of_nat n)) (wrap32 (x + Z.of_nat n))]> at_) A).
Proof.
  revert x s at_. induction n as [|n IH]; intros x s at_ Hat Hn Hr.
  { injection Hr as <-. rewrite Z.add_0_r in *. by rewrite insert_id. }
  cbn [handle_responses] in Hr. res_inv. eapply rtc_l.
  { eapply (step_response d _ _ s a); [exact Hat| |done]. intros He. symmetry in He.
    unfold wrap in He. apply (mod_inj (2 ^ 32)) in He; lia. }
  rewrite wrap_add_l in *. replace (x + Z.of_nat (S n)) with (x + 1 + Z.of_nat n) in * by lia.
  pose proof (IH (x + 1) a (<[d := Loop (wrap32 (x + 1)) (wrap32 (x + 1 + Z.of_nat n))]> at_)) as IH1.
  rewrite lookup_insert_eq, insert_insert_eq in IH1. apply IH1; [done|lia|done].
Qed.

Lemma round_steps d v s s' bs at_ A fl F gs :
  binv (Sys s bs at_ A) fl F gs -> at_ !! d = Some Start -> blk_devices s !! d = Some v ->
  handle_responses (Z.to_nat (wrap32 (rsp_prod (shared (ring v)) - rsp_cons (ring v)))) (Z.of_nat d) (rsp_cons (ring v)) s = Ok s' ->
  rtc bstep (Sys s bs at_ A) (Sys s' bs (<[d := Loop (rsp_prod (shared (ring v))) (rsp_prod (shared (ring v)))]> at_) A).
Proof.
  intros Hb Hat Hv Hr. eapply rtc_l; [by apply step_read|].
  destruct (binv_at _ _ _ _ _ _ Hb Hv) as (bk & dd & _ & _ & Hdi). simpl in Hdi. rewrite Hat in Hdi.
  pose proof (di_cons Hdi) as Hc. simpl in Hc. pose proof (di_rsp Hdi) as Hp. pose proof (di_room Hdi). pose proof N_bounds.
  unfold n_rs, n_taken, n_qs in *. rewrite Hc, Hp, wrap_sub, (wrap_small 32) in Hr by lia.
  replace (dd_pos dd + Z.of_nat (length (dd_rs dd)) - dd_pos dd) with (Z.of_nat (length (dd_rs dd))) in Hr by lia.
  rewrite Nat2Z.id in Hr. rewrite Hc, Hp.
  pose proof (handle_responses_steps (length (dd_rs dd)) (dd_pos dd) d s s' bs
    (<[d := Loop (wrap32 (dd_pos dd)) (wrap32 (dd_pos dd + Z.of_nat (length (dd_rs dd))))]> at_) A) as Hst.
  rewrite lookup_insert_eq, insert_insert_eq in Hst. apply Hst; [done|lia|done].
Qed.

Lemma binv_rtc p p' : rtc bstep p p' -> (exists fl F gs, binv p fl F gs) -> exists fl F gs, binv p' fl F gs.
Proof. induction 1; eauto using bstep_inv. Qed.

Lemma dev_is d s v : dev (Z.of_nat d) s = Ok v -> blk_devices s !! d = Some v.
Proof. intros [_ H]%elem_inv. by rewrite Nat2Z.id in H. Qed.

Lemma remote_work_nil d s w s' : remote_work [] (Z.of_nat d) s = Ok (w, s') -> w = [] /\ s' = s.
Proof.
  unfold remote_work. intros H. res_inv. apply dev_is in Hr. unfold set_dev in Hr0. rewrite set_elem_eq in Hr0 by (apply lookup_lt_Some in Hr; lia).
  cbn [mbind res_bind] in Hr0. injection Hr0 as <-. rewrite Nat2Z.id. rewrite list_insert_id; [by destruct s|].
  rewrite Hr. by destruct a as [? ? ? ? [] ?].
Qed.

(** With a back end that does nothing meanwhile. *)
Lemma handler_steps fuel d s s' bs at_ A :
  (exists fl F gs, binv (Sys s bs at_ A) fl F gs) -> at_ !! d = Some Start ->
  blk_front_handler fuel [] (Z.of_nat d) s = Ok s' -> rtc bstep (Sys s bs at_ A) (Sys s' bs (delete d at_) A).
Proof.
  revert s at_. induction fuel as [|fuel IH]; intros s at_ Hinv Hat Hr; [done|]. cbn [blk_front_handler] in Hr.
  destruct (remote_work [] (Z.of_nat d) s) as [[w s0]| |] eqn:Ew; cbn [mbind res_bind] in Hr; [|done..].
  apply remote_work_nil in Ew as [-> ->]. destruct (dev (Z.of_nat d) s) as [v| |] eqn:Hv; cbn [mbind res_bind] in Hr; [|done..].
  destruct (handle_responses _ _ _ s) as [s1| |] eqn:E1; cbn [mbind res_bind] in Hr; [|done..].
  destruct (remote_work [] (Z.of_nat d) s1) as [[w s0]| |] eqn:Ew; cbn [mbind res_bind] in Hr; [|done..].
  apply remote_work_nil in Ew as [-> ->].
  destruct (finish_responses _ _ s1) as [[more s2]| |] eqn:Ef; cbn [mbind res_bind] in Hr; [|done..].
  pose proof Hinv as (fl & F & gs & Hb). pose proof (round_steps d v s s1 bs at_ A fl F gs Hb Hat (dev_is _ _ _ Hv) E1) as Hround.
  set (at1 := <[d := Loop _ _]> at_) in Hround.
  assert (bstep (Sys s1 bs at1 A) (Sys s2 bs (if more : bool then <[d := Start]> at1 else delete d at1) A)) as Hfin.
  { by apply (step_finish d (rsp_prod (shared (ring v)))); [apply lookup_insert_eq|]. }
  etransitivity; [exact Hround|]. eapply rtc_l; [exact Hfin|]. destruct more.
  - pose proof (bstep_inv _ _ Hfin (binv_rtc _ _ Hround Hinv)) as Hinv2.
    pose proof (IH s2 _ Hinv2 (lookup_insert_eq _ _ _) Hr) as Hrest. unfold at1 in *. rewrite insert_insert_eq in Hrest |- *. by rewrite delete_insert_eq in Hrest.
  - injection Hr as <-. unfold at1. by rewrite delete_insert_eq.
Qed.

(** ** Runs *)

(** The state after [init_buffers] and [blk_init_ring]: every identifier but 0 is free, the
    rings are empty, no back end and no handler has begun. *)
Record b_init (p : bsys G) : Prop := {
  bn_pool : pool_ok (b_blk p) (rev (seqZ 1 (N - 1)));
  bn_free : exists F, free_set (grants (b_blk p)) F;
  bn_back : b_back p = replicate (length (blk_devices (b_blk p))) (Back 0 []);
  bn_at : b_at p = ∅;
  bn_ring d v : blk_devices (b_blk p) !! d = Some v ->
    slots_ok (shared (ring v)) /\ slots_segs (shared (ring v)) /\
    req_prod_pvt (ring v) = 0 /\ rsp_cons (ring v) = 0 /\ req_prod (shared (ring v)) = 0 /\ rsp_prod (shared (ring v)) = 0
}.

Lemma b_init_inv p : b_init p -> exists fl F gs, binv p fl F gs.
Proof.
  intros [Hp [F HF] Hb Ha Hr]. pose proof N_bounds. set (n := length (blk_devices (b_blk p))) in *.
  exists (rev (seqZ 1 (N - 1))), F, (replicate n (Back 0 [], DD 0 [] [])).
  assert (forall m, replicate m (Back 0 [], DD 0 [] []) ≫= rs_of = []) as E1 by (induction m; [done|by rewrite replicate_S, bind_cons]).
  assert (forall m, replicate m (Back 0 [], DD 0 [] []) ≫= qs_of = []) as E2 by (induction m; [done|by rewrite replicate_S, bind_cons]).
  constructor.
  - by rewrite Hb, fmap_replicate.
  - by rewrite length_replicate.
  - intros d v bk dd Hv [[= -> ->] _]%lookup_replicate. rewrite Ha, lookup_empty. destruct (Hr d v Hv) as (? & ? & ? & ? & ? & ?).
    constructor; unfold n_rs, n_qs, n_taken; simpl; try done; lia.
  - rewrite E1, E2. constructor; [done|done| | |by intros q Hq%elem_of_nil|by intros r Hq%elem_of_nil].
    + unfold ids. simpl. rewrite app_nil_r. symmetry; apply Permutation_rev.
    + constructor; simpl; [by intros i Hi%elem_of_nil|constructor|constructor|by intros r Hq%elem_of_nil].
Qed.

Lemma b_reachable p0 p : b_init p0 -> rtc bstep p0 p -> exists fl F gs, binv p fl F gs.
Proof. intros Hi%b_init_inv Hr. induction Hr; [done|]. eauto using bstep_inv. Qed.

Lemma taken_submseteq (gs : list (backend * ddata)) : (gs.*1 ≫= b_taken) ⊆+ (gs ≫= qs_of).
Proof.
  induction gs as [|[bk dd] gs IH]; [done|]. rewrite fmap_cons, !bind_cons. unfold qs_of at 1. simpl.
  rewrite <- app_assoc. apply submseteq_app; [done|]. rewrite IH. by apply submseteq_inserts_l.
Qed.

(** C12: submissions, interrupt handlers and back ends of any number of devices in any order:
    the requests that the back ends work on are the ones callers submitted and still wait for,
    unchanged - operation, sectors, pages - and no two are of the same caller's request; when
    the handler of a device reaches a response, it is the answer to one of these, and the
    handler stops on no assertion: it gives exactly that caller's request the status of the
    answer and calls its callback once, ends the grants, and frees the identifier.  No
    request or response is overwritten before it is read. *)
Theorem blk_requests_complete p0 p :
  b_init p0 -> rtc bstep p0 p ->
  NoDup ((fun q => owner (b_blk p) (b_id q)) <$> (b_back p ≫= b_taken)) /\
  (forall q, q ∈ (b_back p ≫= b_taken) ->
     exists io, pending (b_blk p) (b_id q) io /\ matches io (live_refs (b_blk p) (b_id q)) q) /\
  (forall d c prod, b_at p !! d = Some (Loop c prod) -> c <> prod -> (d < length (blk_devices (b_blk p)))%nat ->
     exists v r io q l g,
       blk_devices (b_blk p) !! d = Some v /\ ring_get c (shared (ring v)) = Ok (ERsp r) /\
       b_answers p !! rs_id r = Some (q, rs_status r) /\ b_id q = rs_id r /\
       pending (b_blk p) (rs_id r) io /\ matches io (live_refs (b_blk p) (rs_id r)) q /\
       handle_response (Z.of_nat d) c (b_blk p) = Ok (completed (rs_id r) io (done_state r) l g (b_blk p))).
Proof.
  intros Hi Hr. destruct (b_reachable p0 p Hi Hr) as (fl & F & gs & Hb). destruct p as [s bs at_ A]. simpl.
  pose proof (bi_glob _ _ _ _ Hb) as Hgl. pose proof (bi_back _ _ _ _ Hb) as Hbk. simpl in Hgl, Hbk. subst bs.
  pose proof (taken_submseteq gs) as Hsub. pose proof (gl_outs _ _ _ _ _ _ Hgl) as Ho. splits.
  - pose proof (ou_owner _ _ _ Ho) as Hnd. unfold ids in Hnd. rewrite fmap_app in Hnd. apply NoDup_app in Hnd as (_ & _ & Hnd).
    apply submseteq_Permutation in Hsub as [rest E]. rewrite <- list_fmap_compose, E, fmap_app in Hnd. by apply NoDup_app in Hnd as [? _].
  - intros q Hq. apply (elem_of_submseteq _ _ _ Hq) in Hsub. destruct (ou_pend _ _ _ Ho (b_id q)) as [io Hio]; [by apply elem_ids_q|].
    exists io. split; [done|]. by apply (gl_desc _ _ _ _ _ _ Hgl).
  - intros d c prod Hat Hne Hd. destruct (response_spec _ _ _ _ _ _ _ _ _ _ Hb Hat Hne Hd) as (v & r & io & q & l & g & _ & _ & _ & ? & ? & ? & ? & ? & ? & ? & _).
    by exists v, r, io, q, l, g.
Qed.
End System.

(** ** A run

    The caller's request at 5000 gets identifier 7; the back end of device 0 takes it and
    answers, and the handler starts. *)
Definition run_vtm : Z -> Z := fun va => va / 4096.
Definition run_dev (s : blk Gnttab.gnttab) : blk_dev := get (dev 0 s) demo_dev.
Definition run_q : blkif_request :=
  BReq 1 1 18 7 8 (Seg 15 0 3 :: replicate 10 (Seg 0 0 0)).

Definition blk_run1 : blk Gnttab.gnttab := demo_request 1.
Definition blk_run2 : blk Gnttab.gnttab := (get (guk_blk_do_io run_vtm 5000 blk_run1) (0, blk_run1)).2.
Definition blk_run3 : blk Gnttab.gnttab :=
  let v := run_dev blk_run2 in
  with_ring 0 v (set_rsp_prod 1 (get (ring_put 0 (ERsp (BRsp 7 0)) (shared (ring v))) demo_shared)) blk_run2.

Definition run_init : bsys Gnttab.gnttab := Sys demo_blk (replicate 8 (Back 0 [])) ∅ ∅.
Definition run_end : bsys Gnttab.gnttab :=
  Sys blk_run3 (<[0%nat := Back 1 []]> (<[0%nat := Back 1 [run_q]]> (replicate 8 (Back 0 []))))
    (<[0%nat := Loop 0 1]> (<[0%nat := Start]> ∅)) (<[7 := (run_q, 0)]> ∅).

Lemma run_init_ok : b_init run_init.
Proof.
  destruct demo_blk_ok as (Hp & Hd & Hg). constructor; cbn [b_blk b_back b_at run_init].
  - exact Hp.
  - rewrite Hg. eexists. apply demo_free.
  - by rewrite Hd.
  - reflexivity.
  - intros d v. rewrite Hd. intros [-> _]%lookup_replicate. destruct demo_dev_ok. by splits.
Qed.

Lemma run_lookup : blk_devices blk_run3 !! 0%nat = Some (run_dev blk_run3).
Proof. by vm_compute. Qed.

Lemma blk_run_steps : rtc (bstep run_vtm) run_init run_end.
Proof.
  eapply rtc_l; [apply (step_request _ 5000 (demo_io 1)); [done|]|].
  { intros io0 H. assert (requests demo_blk !! 5000 = None) as E by by vm_compute. rewrite E in H. discriminate H. }
  eapply rtc_l; [apply (step_submit _ 5000 (demo_io 1) 0 1 0 blk_run1 blk_run2)|].
  { by vm_compute. } { by vm_compute. } { by vm_compute. } { split; [by vm_compute|]. split; [lia|by vm_compute]. }
  { vm_compute. lia. } { by vm_compute. }
  eapply rtc_l; [apply (step_take _ 0 (run_dev blk_run2) (Back 0 []) run_q); by vm_compute|].
  eapply rtc_l.
  { eapply (step_answer _ 0 (run_dev blk_run2) 1 [] run_q [] 0
      (get (ring_put 0 (ERsp (BRsp 7 0)) (shared (ring (run_dev blk_run2)))) demo_shared)); by vm_compute. }
  eapply rtc_l; [apply (step_lock _ 0 (run_dev blk_run3)); by vm_compute|].
  eapply rtc_l; [apply (step_read _ 0 (run_dev blk_run3)); by vm_compute|].
  apply reflexive_eq. by vm_compute.
Qed.

Lemma blk_requests_complete_witness :
  exists l g, handle_response 0 0 blk_run3 = Ok (completed 7 (set_state BLK_SUBMITTED (demo_io 1)) BLK_DONE_SUCCESS l g blk_run3) /\
    requests (completed 7 (set_state BLK_SUBMITTED (demo_io 1)) BLK_DONE_SUCCESS l g blk_run3) !! 5000 = Some (set_state BLK_DONE_SUCCESS (demo_io 1)).
Proof.
  destruct (blk_requests_complete run_vtm run_init run_end run_init_ok blk_run_steps) as (_ & _ & H).
  destruct (H 0%nat 0 1 eq_refl ltac:(done) ltac:(vm_compute; lia)) as (v & r & io & q & l & g & Hv & Hr & _ & _ & Hp & _ & He).
  change (b_blk run_end) with blk_run3 in *. rewrite run_lookup in Hv. apply Some_inj in Hv. subst v.
  assert (ring_get 0 (shared (ring (run_dev blk_run3))) = Ok (ERsp (BRsp 7 0))) as Hs by by vm_compute.
  rewrite Hs in Hr. assert (r = BRsp 7 0) as -> by (by injection Hr).
  assert (io = set_state BLK_SUBMITTED (demo_io 1)) as ->.
  { pose proof (pe_request _ _ _ Hp) as Hq. assert (requests blk_run3 !! request (shadow blk_run3 (rs_id (BRsp 7 0))) = Some (set_state BLK_SUBMITTED (demo_io 1))) as Hq' by by vm_compute.
    congruence. }
  exists l, g. split; [exact He|]. assert (request (shadow blk_run3 7) = 5000) as E by by vm_compute.
  unfold completed. cbn [requests]. rewrite E. apply lookup_insert_eq.
Defined.
