(* ===== verification/BlkIO.v ===== *)
(** Submitting and splitting: what [guk_blk_do_io] puts on the ring, the pages of the request
    that [guk_blk_write] and [guk_blk_read] build, and what reading brings back. *)
From S2P Require Import Prelude FreeList Grants SharedRing BlkFront BlkProps.
From stdpp Require Import options.

Section Submit.
Unset Default Proof Using.
Context {G : Type} `{!GrantTable G} {R : ring_macros blkif_entry} {RO : ring_macros_ok R} {B : blkif} {BO : blkif_ok B}.
Context (virt_to_mfn : Z -> Z).
Implicit Types s : blk G.

Local Abbreviation N := (RING_SIZE blkif_entry).
Local Abbreviation MAX := (Z.to_nat BLKIF_MAX_SEGMENTS_PER_REQUEST).

Lemma submitted_pool s i fl a io v p n F refs segs l g ev :
  pool_ok s (i :: fl) -> filled io F n refs segs g -> (n < MAX)%nat -> free_list l fl -> length l = Z.to_nat N ->
  pool_ok (submitted a i io v p refs segs l g ev s) fl.
Proof.
  intros Hp ((Hrl & _) & _) Hn Hl Hll. pose proof (po_list _ _ Hp) as (_ & _ & [Hi _]%Forall_cons). rewrite (po_length _ _ Hp) in Hi.
  pose proof (shadow_refs s _ i Hp ltac:(lia)) as Hold.
  destruct (pool_update_ok s (i :: fl) fl l i (new_shadow s io a i refs) Hp Hl Hll) as [? ? ? ?]; [|by constructor].
  unfold new_shadow. simpl. rewrite length_app, length_drop, Hold. lia.
Qed.

(** C13: [guk_blk_do_io] on a request for a ready device, within the device as far as the code
    tests it: with no identifier free it returns ENOMEM, and no request, ring, grant, shadow
    buffer of a request or free identifier changes (only the mark of the unused shadow 0);
    with fewer free grant references than pages it stops on the assertion of gnttab.c; else it
    returns 0, and the request is submitted: the first free identifier is in use, each page has
    a fresh reference of its own, whose entry in the grant table names the frame of that page,
    the shadow holds the references, the other entries of the table are as before, and the ring
    has one more request, pushed to the back end, with the operation, the first sector and a
    segment per page.  Each segment but a single one ends with the last sector of its page, the
    last segment too: the caller's last sector is stored in the entry after it. *)
Theorem blk_do_io_pushes s fl F a io v n p :
  pool_ok s fl -> free_set (grants s) F -> acceptable s a io v -> has_pages io n -> (n < MAX)%nat ->
  slots_ok (shared (ring v)) -> slots_segs (shared (ring v)) -> req_prod_pvt (ring v) = wrap32 p ->
  match fl with
  | [] => exists s', guk_blk_do_io virt_to_mfn a s = Ok (ENOMEM, s') /\ pool_ok s' [] /\
      freelist s' = freelist s /\ shadows s' = <[0%nat := set_free 0 (shadow s 0)]> (shadows s) /\
      blk_devices s' = blk_devices s /\ requests s' = requests s /\ grants s' = grants s /\ log s' = log s
  | i :: fl' =>
      if decide (n <= size F)%nat then
        exists s' refs q events, guk_blk_do_io virt_to_mfn a s = Ok (0, s') /\
          pool_ok s' fl' /\ requests s' = <[a := set_state BLK_SUBMITTED io]> (requests s) /\
          length refs = n /\ NoDup refs /\ list_to_set refs ⊆ F /\ free_set (grants s') (F ∖ list_to_set refs) /\
          (forall j r pg, refs !! j = Some r -> pages io !! j = Some pg ->
             ref_entry (grants s') r = Some (Gnttab.Grant (permit 0) 0 (wrap32 (virt_to_mfn pg)))) /\
          (forall x, x ∉ refs -> ref_entry (grants s') x = ref_entry (grants s) x) /\
          take n (gref (shadow s' i)) = refs /\ request (shadow s' i) = a /\
          blk_devices s' = <[Z.to_nat (device io) := set_ring (pushed (ring v) p q) v]> (blk_devices s) /\
          b_id q = i /\ b_operation q = operation io /\ sector_number q = wrap64 (Z.quot (address io) 512) /\
          nr_segments q = Z.of_nat n /\ take n (seg q) = segments_of io refs /\
          (n <> 1%nat -> last_sect <$> seg q !! n = Some (wrap 8 (end_sector io))) /\
          log s' = log s ++ events /\ (events = [] \/ events = [Notify (evtchn v)])
      else guk_blk_do_io virt_to_mfn a s = Bug BUG_ON
  end.
Proof.
  intros Hp Hf Hac Hpg Hn Hs Hseg Hpvt. pose proof N_bounds. pose proof max_segments as HM.
  pose proof (guk_blk_do_io_spec virt_to_mfn s fl F a io v n p Hp Hf Hac Hpg Hn Hs Hseg Hpvt) as H1. destruct fl as [|i fl].
  - eexists. split; [exact H1|]. split; [|done].
    apply (pool_update_ok s []); [done|apply (po_list _ _ Hp)|apply (po_length _ _ Hp)|]. apply (shadow_refs s []); [done|lia].
  - case_decide; [|done]. destruct H1 as (refs & segs & l & g & ev & -> & Hfl & [Hes Hxs] & Hl & Hll & Hev).
    pose proof (submitted_pool s i fl a io v p n F refs segs l g ev Hp Hfl Hn Hl Hll) as Hp'.
    pose proof (po_list _ _ Hp) as (_ & _ & [Hi _]%Forall_cons). rewrite (po_length _ _ Hp) in Hi.
    destruct Hfl as ((Hrl & Hnd & Hsub & Hg) & Htake & _ & Hlast). destruct Hpg as (Hnum & _).
    exists (submitted a i io v p refs segs l g ev s), refs, (new_request io i segs), ev.
    assert (shadow (submitted a i io v p refs segs l g ev s) i = new_shadow s io a i refs) as Hsh.
    { change (shadow (submitted a i io v p refs segs l g ev s) i) with (shadow (pool_update s l i (new_shadow s io a i refs)) i).
      rewrite (shadow_update s (i :: fl)) by (done || lia). by rewrite decide_True. }
    unfold new_request. splits; try done.
    + intros j r pg Hr Hpg. apply (Hes j r); [done|]. unfold frames. rewrite lookup_take_lt by (apply lookup_lt_Some in Hr; lia).
      by rewrite list_lookup_fmap, Hpg.
    + rewrite Hsh. simpl. by rewrite <- Hrl, take_app_length.
    + by rewrite Hsh.
    + simpl. rewrite Hnum, wrap_small; lia.
Qed.
End Submit.

(** ** Splitting *)

Lemma set_elem_last {A} (l : list A) i x : i = Z.of_nat (length l) -> set_elem l i x = Bug BAD_ACCESS.
Proof. intros ->. apply set_elem_out. lia. Qed.

(** The pages [page_loop] stores: one for every full page but the last part of the data. *)
Definition full_pages (size : Z) : Z := (size - 1) / BLK_PAGE_SIZE.

Lemma full_pages_more size : BLK_PAGE_SIZE < size -> full_pages size = 1 + full_pages (size - BLK_PAGE_SIZE) /\ 0 <= full_pages (size - BLK_PAGE_SIZE).
Proof.
  unfold full_pages, BLK_PAGE_SIZE. intros Hs. split; [|apply Z.div_pos; lia].
  replace (size - 1) with (size - 4096 - 1 + 1 * 4096) by lia. rewrite Z.div_add by lia. lia.
Qed.

Lemma page_loop_spec fuel base i size ps :
  0 < size -> size <= Z.of_nat fuel -> 0 <= i <= Z.of_nat (length ps) ->
  let n := full_pages size in
  if i + n <=? Z.of_nat (length ps) then
    exists ps', page_loop fuel base i size ps = Ok (i + n, size - n * BLK_PAGE_SIZE, ps') /\ length ps' = length ps /\
      (forall j, i <= j < i + n -> ps' !! Z.to_nat j = Some (base + j * BLK_PAGE_SIZE)) /\
      (forall j, 0 <= j < i -> ps' !! Z.to_nat j = ps !! Z.to_nat j)
  else page_loop fuel base i size ps = Bug BAD_ACCESS.
Proof.
  revert i size ps. induction fuel as [|fuel IH]; intros i size ps Hs Hf Hi n; [lia|].
  cbn [page_loop]. destruct (Z.ltb_spec BLK_PAGE_SIZE size) as [Hlt|Hge].
  2:{ assert (n = 0) as -> by (unfold n, full_pages, BLK_PAGE_SIZE in *; apply Z.div_small; lia).
      rewrite (proj2 (Z.leb_le _ _)) by lia. exists ps. rewrite Z.add_0_r. splits; [do 3 f_equal; lia|done|lia|done]. }
  destruct (full_pages_more size Hlt) as [Hn Hn0]. fold n in Hn. destruct (decide (i = Z.of_nat (length ps))) as [->|Hne].
  { rewrite (proj2 (Z.leb_gt _ _)) by lia. by rewrite set_elem_last. }
  rewrite set_elem_eq by lia. cbn [mbind res_bind].
  specialize (IH (i + 1) (size - BLK_PAGE_SIZE) (<[Z.to_nat i:=base + i * BLK_PAGE_SIZE]> ps) ltac:(lia) ltac:(unfold BLK_PAGE_SIZE in *; lia)).
  rewrite length_insert in IH. specialize (IH ltac:(lia)). cbv zeta in IH.
  replace (i + 1 + full_pages (size - BLK_PAGE_SIZE)) with (i + n) in IH by lia.
  destruct (i + n <=? Z.of_nat (length ps)); [|done]. destruct IH as (ps' & -> & Hl & Hnew & Hold). exists ps'. splits; [|done| |].
  - do 3 f_equal. lia.
  - intros j Hj. destruct (decide (j = i)) as [->|]; [|apply Hnew; lia]. rewrite Hold by lia. apply list_lookup_insert_eq. lia.
  - intros j Hj. rewrite Hold by lia. apply list_lookup_insert_ne. lia.
Qed.

(** The bytes a request is for: all of its pages but the last, and the sectors of the last. *)
Definition request_bytes (io : blk_request) : Z := (num_pages io - 1) * BLK_PAGE_SIZE + (end_sector io + 1) * SECTOR_SIZE.

(** For a size of whole sectors that fits eleven pages, the request built for it has
    consecutive pages from the buffer on, is for exactly [size] bytes and has not been
    submitted; the variable [size] is left as the size of the part in the last page.  For
    more, the page array on the stack is overrun. *)
Lemma blk_request_pages op dev addr base size cb data req0 :
  length (pages req0) = 11%nat -> 0 < size -> Z.land size (SECTOR_SIZE - 1) = 0 ->
  if size <=? 11 * BLK_PAGE_SIZE then
    exists io, build_request op dev addr base size cb data req0 = Ok (io, size - full_pages size * BLK_PAGE_SIZE) /\
      request_bytes io = size /\ 1 <= num_pages io <= 11 /\ length (pages io) = 11%nat /\
      (forall j, 0 <= j < num_pages io -> pages io !! Z.to_nat j = Some (base + j * BLK_PAGE_SIZE)) /\
      start_sector io = 0 /\ 0 <= end_sector io < SECTORS_PER_PAGE /\
      device io = dev /\ address io = addr /\ state io = BLK_EMPTY /\ operation io = op
  else build_request op dev addr base size cb data req0 = Bug BAD_ACCESS.
Proof.
  intros Hl Hs Hal. unfold build_request. set (n := full_pages size).
  pose proof (page_loop_spec (Z.to_nat size) base 0 size (pages req0) Hs ltac:(lia) ltac:(lia)) as Hloop. cbv zeta in Hloop. fold n in Hloop.
  rewrite Hl in Hloop. rewrite !Z.add_0_l in Hloop.
  assert (n * 4096 < size <= (n + 1) * 4096) as Hn by (unfold n, full_pages, BLK_PAGE_SIZE in *; pose proof (Z.div_mod (size - 1) 4096); pose proof (Z.mod_pos_bound (size - 1) 4096); lia).
  unfold BLK_PAGE_SIZE in *.
  assert (size mod 512 = 0) as Hmod by (change (SECTOR_SIZE - 1) with (Z.ones 9) in Hal; by rewrite Z.land_ones in Hal).
  destruct (Z.leb_spec n (Z.of_nat 11)) as [Hle|Hgt].
  2:{ rewrite Hloop. cbn [mbind res_bind]. by rewrite (proj2 (Z.leb_gt _ _)) by lia. }
  destruct Hloop as (ps & -> & Hlp & Hps & _). cbn [mbind res_bind]. destruct (Z.leb_spec size (11 * 4096)) as [Hfit|Hbig].
  2:{ rewrite set_elem_last by lia. done. }
  rewrite set_elem_eq by lia. cbn [mbind res_bind]. eexists. split; [done|].
  unfold request_bytes, SECTORS_PER_PAGE, SECTOR_SIZE, BLK_PAGE_SIZE, SECTOR_BITS. rewrite Z.shiftr_div_pow2, Z.shiftl_mul_pow2 by lia.
  change (2 ^ 9) with 512. change (1 * 512) with 512. change (4096 / 512) with 8. simpl.
  assert (512 * ((size - n * 4096) / 512) = size - n * 4096) as Hdiv.
  { symmetry. apply Z_div_exact_full_2; [done|]. replace (size - n * 4096) with (size + (- n * 8) * 512) by lia. by rewrite Z_mod_plus_full. }
  splits; try done; [lia|lia|lia|by rewrite length_insert| |lia|lia].
  intros j Hj. destruct (decide (j = n)) as [->|]; [apply list_lookup_insert_eq; lia|].
  rewrite list_lookup_insert_ne by lia. apply Hps. lia.
Qed.

(** ** What reading brings back *)

(** The caller's buffer after a read through a bounce buffer: only the part of the data that
    was in the last page of the request is copied, from the start of the bounce buffer. *)
Lemma blk_read_end_copies {G} (s : blk G) a buf v m r f m' :
  free_buf v = true -> guk_blk_read_end true a buf v m s = Ok (r, f, m') ->
  forall x, m' x = if (buf <=? x) && (x <? buf + v_size v) then m (v_pages v + (x - buf)) else m x.
Proof. intros Hv H x. unfold guk_blk_read_end in H. rewrite Hv in H. res_inv. done. Qed.

(** A read of 8192 bytes to an unaligned buffer: the variable [size] is 4096 at the end, so
    half of the buffer is not filled, though the result is 16 sectors. *)
Example blk_read_half :
  match io_begin (G := Gnttab.gnttab) 0 false 65536 5000 77 99 (demo_io 1) 0 4096 16385 8192 (fun x => x) demo_blk0 with
  | Ok (v, _, s) => (v_sectors v, v_pages v, v_size v)
  | _ => (0, 0, 0)
  end = (16, 65536, 4096).
Proof. reflexivity. Qed.

(** A request of two pages from sector 996 on reaches sector 1007 (the last segment goes to the
    end of its page even to 1011) of a device of 1000 sectors, and is accepted: the test adds
    the last sector of the last page to the first sector of the first. *)
Example check_request_past_end :
  check_request (BlkReq (pages (demo_io 2)) 2 0 3 0 (996 * 512) BLK_EMPTY 1 77 99) demo_blk0 = Ok demo_dev.
Proof. reflexivity. Qed.

(** Suspending any device waits for the requests of device 0. *)
Lemma drain_io_any {G} `{!GrantTable G} {R : ring_macros blkif_entry} {B : blkif} sleeps others d (s : blk G) :
  drain_io sleeps others d s = drain_io sleeps others 0 s.
Proof. done. Qed.

(** [get_order]: the least order whose pages hold [size] bytes. *)
Lemma order_loop_spec fuel o x :
  0 <= x < 2 ^ Z.of_nat fuel -> exists k, order_loop fuel o x = Ok (o + k) /\ 0 <= k /\ x < 2 ^ k /\ (k = 0 \/ 2 ^ (k - 1) <= x).
Proof.
  revert o x. induction fuel as [|fuel IH]; intros o x Hx.
  { assert (x = 0) as -> by (simpl in Hx; lia). exists 0. rewrite Z.add_0_r. splits; try done; lia. }
  cbn [order_loop]. destruct (Z.eqb_spec x 0) as [->|Hne]; [exists 0; rewrite Z.add_0_r; splits; try done; lia|].
  rewrite Z.shiftr_div_pow2 by lia. change (2 ^ 1) with 2. pose proof (Z.div_mod x 2 ltac:(lia)). pose proof (Z.mod_pos_bound x 2 ltac:(lia)).
  rewrite Nat2Z.inj_succ, Z.pow_succ_r in Hx by lia.
  destruct (IH (o + 1) (x / 2)) as (k & -> & Hk & Hlt & Hor); [lia|]. exists (k + 1). rewrite Z.pow_add_r by lia.
  splits; [f_equal; lia|lia|lia|right]. replace (k + 1 - 1) with k by lia.
  destruct (decide (k = 0)) as [-> |]; [change (2 ^ 0) with 1; lia|]. destruct Hor as [|Hle]; [lia|].
  replace k with (k - 1 + 1) by lia. rewrite Z.pow_add_r by lia. lia.
Qed.

Lemma get_order_spec size :
  0 < size < 2 ^ 63 -> exists o, get_order size = Ok o /\ 0 <= o /\ size <= BLK_PAGE_SIZE * 2 ^ o /\
    (o = 0 \/ BLK_PAGE_SIZE * 2 ^ (o - 1) < size).
Proof.
  intros Hs. unfold get_order, BLK_PAGE_SIZE. rewrite wrap_small, Z.shiftr_div_pow2 by lia. change (2 ^ 12) with 4096.
  pose proof (Z.div_mod (size - 1) 4096 ltac:(lia)). pose proof (Z.mod_pos_bound (size - 1) 4096 ltac:(lia)).
  destruct (order_loop_spec 64 0 ((size - 1) / 4096)) as (k & -> & Hk & Hlt & Hor); [lia|].
  exists k. splits; [done|done|lia|]. destruct Hor; [by left|right; lia].
Qed.

(** ** Instances *)

Lemma set_request_same {G} {R : ring_macros blkif_entry} {B : blkif} a io (s : blk G) :
  (forall fl, pool_ok s fl -> pool_ok (set_request a io s) fl) /\ grants (set_request a io s) = grants s /\
  blk_devices (set_request a io s) = blk_devices s.
Proof. split; [|done]. intros fl [? ? ? ?]. by constructor. Qed.

Lemma demo_request_ok n :
  pool_ok (demo_request n) (rev (seqZ 1 7)) /\ grants (demo_request n) = Gnttab.demo_gnttab /\
  blk_devices (demo_request n) = replicate 8 demo_dev.
Proof.
  destruct demo_blk_ok as (Hp & Hd & Hg). destruct (set_request_same 5000 (demo_io n) demo_blk) as (H1 & H2 & H3).
  unfold demo_request. rewrite H2, H3. exact (conj (H1 _ Hp) (conj Hg Hd)).
Qed.

Lemma demo_acceptable n : acceptable (demo_request n) 5000 (demo_io n) demo_dev.
Proof.
  constructor; [apply lookup_insert_eq|reflexivity|split; [discriminate|reflexivity]| |reflexivity|discriminate].
  destruct (demo_request_ok n) as (_ & _ & ->). reflexivity.
Qed.

(** Two pages: the segment of the second ends with sector 7, not with sector 3. *)
Lemma blk_do_io_pushes_witness :
  exists s' q r1 r2, ref_entry (grants s') r2 = Some (Gnttab.Grant (permit 0) 0 (wrap32 (nth 1 (pages (demo_io 2)) 0 / 4096))) /\ guk_blk_do_io (fun va => va / 4096) 5000 (demo_request 2) = Ok (0, s') /\ end_sector (demo_io 2) = 3 /\
    take 2 (seg q) = [Seg r1 0 7; Seg r2 0 7] /\ blk_devices s' !! 0%nat = Some (set_ring (pushed (ring demo_dev) 0 q) demo_dev).
Proof.
  destruct demo_dev_ok as [Hs Hseg]. destruct (demo_request_ok 2) as (Hp & Hg & Hdev).
  assert (free_set (grants (demo_request 2)) (list_to_set (15 :: rev (seqZ 8 7)))) as Hf by (rewrite Hg; apply demo_free).
  pose proof (blk_do_io_pushes (fun va => va / 4096) (demo_request 2) _ _ 5000 (demo_io 2) demo_dev 2 0 Hp Hf (demo_acceptable 2) ltac:(split; [reflexivity|split; [lia|reflexivity]]) ltac:(vm_compute; lia)
    Hs Hseg eq_refl) as H.
  change (rev (seqZ 1 7)) with [7; 6; 5; 4; 3; 2; 1] in H. cbv iota beta in H. rewrite decide_True in H by (vm_compute; lia).
  destruct H as (s' & refs & q & ev & He & _ & _ & Hrl & _ & _ & _ & Hent & _ & _ & _ & Hd & _ & _ & _ & _ & Ht & _).
  destruct refs as [|r1 [|r2 [|]]]; try discriminate Hrl. exists s', q, r1, r2.
  split; [apply (Hent 1%nat); reflexivity|]. split; [exact He|]. split; [reflexivity|].
  split; [exact Ht|]. rewrite Hd. apply list_lookup_insert_eq.
  rewrite Hdev. vm_compute. lia.
Defined.

(** 6144 bytes: a full page and four sectors. *)
Lemma blk_request_pages_witness :
  exists io, build_request 1 0 4096 65536 6144 77 99 (demo_io 1) = Ok (io, 2048) /\ num_pages io = 2 /\ end_sector io = 3.
Proof.
  pose proof (blk_request_pages 1 0 4096 65536 6144 77 99 (demo_io 1) eq_refl eq_refl eq_refl) as H.
  destruct H as (io & He & Hb & Hn & _ & _ & _ & Hend & _). exists io. split; [exact He|]. unfold request_bytes in Hb.
  change SECTORS_PER_PAGE with 8 in Hend. change BLK_PAGE_SIZE with 4096 in Hb. change SECTOR_SIZE with 512 in Hb. lia.
Defined.
