(* ===== verification/NetFront.v ===== *)
(** The network front end: netfront.c.

    Two rings with their own buffers: a packet that is sent is copied to the page of a free
    transmit buffer, whose index is the identifier of the request; the receive buffers are
    given to the back end in the order of the slots of the ring.  The back end is the lists of
    functions that [network_tx_buf_gc] and [network_rx] take: what it does to the ring before
    each of their accesses to its index.  The handler and [guk_netfront_xmit] hold one lock,
    so they do not interleave.  The exchange with the store in [init_netfront] and
    [netfront_shutdown] is a trace of events. *)
From S2P Require Import Prelude FreeList Grants SharedRing.
From stdpp Require Import options.

Definition PAGE_SIZE : Z := 4096.

(** ** The interface of Xen's io/netif.h *)

Record netif_tx_request := TxReq { tq_gref : Z; tq_offset : Z; tq_flags : Z; tq_id : Z; tq_size : Z }.
Record netif_tx_response := TxRsp { tr_id : Z; tr_status : Z }.
Record netif_rx_request := RxReq { rq_id : Z; rq_gref : Z }.
Record netif_rx_response := RxRsp { rr_id : Z; rr_offset : Z; rr_flags : Z; rr_status : Z }.

(** The slots are unions. *)
Inductive tx_entry := ETxReq (q : netif_tx_request) | ETxRsp (r : netif_tx_response).
Inductive rx_entry := ERxReq (q : netif_rx_request) | ERxRsp (r : netif_rx_response).

(** The constants, and how the bytes of a request read as a response. *)
Class netif := {
  NETIF_RSP_NULL : Z;
  NETRXF_extra_info : Z;
  tx_req_as_rsp : netif_tx_request -> netif_tx_response;
  rx_req_as_rsp : netif_rx_request -> netif_rx_response
}.

(** ** The data of netfront.c *)

Inductive net_state := NET_UNKNOWN | NET_READY | NET_SUSPENDING | NET_SUSPENDED | NET_RESUMING.
Global Instance net_state_eq_dec : EqDecision net_state.
Proof. solve_decision. Defined.

Definition GRANT_INVALID_REF : Z := 0.

(** [page] is 0 when no page is allocated. *)
Record net_buffer := Buf { page : Z; gref : Z }.

Inductive net_event :=
| NetifRx (data len : Z)           (** [guk_netif_rx(data, len)] *)
| NetNotify (port : Z)             (** [notify_remote_via_evtchn(port)] *)
| NetUnbind (port : Z)             (** [unbind_evtchn(port)] *)
| WriteState (v : Z)               (** [xenbus_printf(..., "state", v)] for the device *)
| WaitBackend (v : Z)              (** [xenbus_wait_for_value] for the state of the back end *)
| RmNetWatch.

Record net {G : Type} := Net {
  tx : front_ring tx_entry;
  rx : front_ring rx_entry;
  tx_ring_ref : Z; rx_ring_ref : Z;
  net_evtchn : Z; net_local_port : Z;
  rings : bool;
  nstate : net_state;
  backend : bool;                    (** is [backend] set? *)
  rx_freelist : list Z; tx_freelist : list Z;
  rx_buffers : list net_buffer; tx_buffers : list net_buffer;
  net_grants : G;
  mem : Z -> Z;                      (** the bytes of the memory *)
  net_log : list net_event
}.
Arguments net : clear implicits.
Arguments Net {G}.

Section Setters.
Context {G : Type}.
Implicit Types s : net G.
Definition set_tx v s : net G := Net v (rx s) (tx_ring_ref s) (rx_ring_ref s) (net_evtchn s) (net_local_port s) (rings s) (nstate s)
  (backend s) (rx_freelist s) (tx_freelist s) (rx_buffers s) (tx_buffers s) (net_grants s) (mem s) (net_log s).
Definition set_rx v s : net G := Net (tx s) v (tx_ring_ref s) (rx_ring_ref s) (net_evtchn s) (net_local_port s) (rings s) (nstate s)
  (backend s) (rx_freelist s) (tx_freelist s) (rx_buffers s) (tx_buffers s) (net_grants s) (mem s) (net_log s).
Definition set_ring_refs t r s : net G := Net (tx s) (rx s) t r (net_evtchn s) (net_local_port s) (rings s) (nstate s)
  (backend s) (rx_freelist s) (tx_freelist s) (rx_buffers s) (tx_buffers s) (net_grants s) (mem s) (net_log s).
Definition set_ports e l s : net G := Net (tx s) (rx s) (tx_ring_ref s) (rx_ring_ref s) e l (rings s) (nstate s)
  (backend s) (rx_freelist s) (tx_freelist s) (rx_buffers s) (tx_buffers s) (net_grants s) (mem s) (net_log s).
Definition set_nstate v s : net G := Net (tx s) (rx s) (tx_ring_ref s) (rx_ring_ref s) (net_evtchn s) (net_local_port s) (rings s) v
  (backend s) (rx_freelist s) (tx_freelist s) (rx_buffers s) (tx_buffers s) (net_grants s) (mem s) (net_log s).
Definition set_rx_pool fl b s : net G := Net (tx s) (rx s) (tx_ring_ref s) (rx_ring_ref s) (net_evtchn s) (net_local_port s) (rings s) (nstate s)
  (backend s) fl (tx_freelist s) b (tx_buffers s) (net_grants s) (mem s) (net_log s).
Definition set_tx_pool fl b s : net G := Net (tx s) (rx s) (tx_ring_ref s) (rx_ring_ref s) (net_evtchn s) (net_local_port s) (rings s) (nstate s)
  (backend s) (rx_freelist s) fl (rx_buffers s) b (net_grants s) (mem s) (net_log s).
Definition set_net_grants v s : net G := Net (tx s) (rx s) (tx_ring_ref s) (rx_ring_ref s) (net_evtchn s) (net_local_port s) (rings s) (nstate s)
  (backend s) (rx_freelist s) (tx_freelist s) (rx_buffers s) (tx_buffers s) v (mem s) (net_log s).
Definition set_mem v s : net G := Net (tx s) (rx s) (tx_ring_ref s) (rx_ring_ref s) (net_evtchn s) (net_local_port s) (rings s) (nstate s)
  (backend s) (rx_freelist s) (tx_freelist s) (rx_buffers s) (tx_buffers s) (net_grants s) v (net_log s).
Definition net_tell e s : net G := Net (tx s) (rx s) (tx_ring_ref s) (rx_ring_ref s) (net_evtchn s) (net_local_port s) (rings s) (nstate s)
  (backend s) (rx_freelist s) (tx_freelist s) (rx_buffers s) (tx_buffers s) (net_grants s) (mem s) (net_log s ++ [e]).

Definition tell_if (b : bool) e s : net G := if b then net_tell e s else s.
End Setters.

Section Code.
Context {G : Type} `{!GrantTable G} {RT : ring_macros tx_entry} {RR : ring_macros rx_entry} {NI : netif} (virt_to_mfn : Z -> Z).
Implicit Types s : net G.

Definition tx_response (e : tx_entry) : netif_tx_response := match e with ETxReq q => tx_req_as_rsp q | ETxRsp r => r end.
Definition rx_response (e : rx_entry) : netif_rx_response := match e with ERxReq q => rx_req_as_rsp q | ERxRsp r => r end.

(** [freelist[id] = freelist[0]; freelist[0] = id], with 16-bit entries *)
Definition add_id_to_freelist (id : Z) (fl : list Z) : res (list Z) := fl_push fl id (wrap 16 id).
Definition get_id_from_freelist (fl : list Z) : res (Z * list Z) := fl_pop fl.

Definition xennet_rxidx (idx : Z) : Z := Z.land idx (RING_SIZE rx_entry - 1).

(** The back end at work before an access to its index. *)
Definition tx_remote (w : list (sring tx_entry -> sring tx_entry)) s : list (sring tx_entry -> sring tx_entry) * net G :=
  match w with [] => ([], s) | f :: w => (w, set_tx (set_shared (f (shared (tx s))) (tx s)) s) end.
Definition rx_remote (w : list (sring rx_entry -> sring rx_entry)) s : list (sring rx_entry -> sring rx_entry) * net G :=
  match w with [] => ([], s) | f :: w => (w, set_rx (set_shared (f (shared (rx s))) (rx s)) s) end.

(** ** Receiving *)

(** [while (cons != rp)]: the number of packets consumed. *)
Fixpoint rx_loop (fuel : nat) (cons rp nr : Z) s : res (Z * net G) :=
  if cons =? rp then Ok (nr, s)
  else
    match fuel with
    | O => Fuel
    | S fuel =>
        e ← ring_get cons (shared (rx s));
        let r := rx_response e in
        if negb (Z.land (rr_flags r) NETRXF_extra_info =? 0) then rx_loop fuel cons rp nr s
        else if rr_status r =? NETIF_RSP_NULL then rx_loop fuel cons rp nr s
        else
          let id := rr_id r in
          buf ← elem (rx_buffers s) id;
          '(_, g) ← end_access (gref buf) (net_grants s);
          let s := set_net_grants g s in
          let s := tell_if (0 <? rr_status r) (NetifRx (page buf + rr_offset r) (rr_status r)) s in
          fl ← add_id_to_freelist id (rx_freelist s);
          rx_loop fuel (wrap32 (cons + 1)) rp (nr + 1) (set_rx_pool fl (rx_buffers s) s)
    end.

(** From the label [moretodo] to the jump back to it: the count starts at 0 each time. *)
Fixpoint rx_passes (fuel : nat) (w : list (sring rx_entry -> sring rx_entry)) s : res (Z * net G) :=
  match fuel with
  | O => Fuel
  | S fuel =>
      let '(w, s) := rx_remote w s in
      let rp := rsp_prod (shared (rx s)) in
      '(nr, s) ← rx_loop (Z.to_nat (RING_SIZE rx_entry)) (rsp_cons (rx s)) rp 0 s;
      let s := set_rx (FRing (req_prod_pvt (rx s)) rp (shared (rx s))) s in
      let '(w, s) := rx_remote w s in
      let '(more, r) := RING_FINAL_CHECK_FOR_RESPONSES (rx s) in
      let s := set_rx r s in
      if (more : bool) then rx_passes fuel w s else Ok (nr, s)
  end.

(** Give buffer [id] to the back end in the request at index [req_prod]. *)
Definition rx_post (id req_prod : Z) s : res (net G) :=
  buf ← elem (rx_buffers s) id;
  '(ref, g) ← grant_access 0 (virt_to_mfn (page buf)) 0 (net_grants s);
  bs ← set_elem (rx_buffers s) id (Buf (page buf) ref);
  r ← ring_put req_prod (ERxReq (RxReq id ref)) (shared (rx s));
  Ok (set_rx (set_shared r (rx s)) (set_rx_pool (rx_freelist s) bs (set_net_grants g s))).

(** [for(i=from; i<nr_consumed; i++)] *)
Fixpoint rx_refill (n : nat) (req_prod i : Z) s : res (net G) :=
  match n with
  | O => Ok s
  | S n => s ← rx_post (xennet_rxidx (wrap32 (req_prod + i))) (wrap32 (req_prod + i)) s; rx_refill n req_prod (i + 1) s
  end.

Definition push_rx s : net G :=
  let '(notify, r) := RING_PUSH_REQUESTS_AND_CHECK_NOTIFY (rx s) in tell_if notify (NetNotify (net_evtchn s)) (set_rx r s).

Definition network_rx (fuel : nat) (w : list (sring rx_entry -> sring rx_entry)) s : res (net G) :=
  if negb (bool_decide (nstate s = NET_READY)) then Ok s
  else
    '(nr, s) ← rx_passes fuel w s;
    let req_prod := req_prod_pvt (rx s) in
    s ← rx_refill (Z.to_nat nr) req_prod 0 s;
    Ok (push_rx (set_rx (FRing (wrap32 (req_prod + nr)) (rsp_cons (rx s)) (shared (rx s))) s)).

(** ** Sending *)

(** The body of the loop over the responses. *)
Definition gc_response (cons : Z) s : res (net G) :=
  e ← ring_get cons (shared (tx s));
  let txrsp := tx_response e in
  if tr_status txrsp =? NETIF_RSP_NULL then Ok s
  else
    let id := tr_id txrsp in
    buf ← elem (tx_buffers s) id;
    '(_, g) ← end_access (gref buf) (net_grants s);
    bs ← set_elem (tx_buffers s) id (Buf (page buf) GRANT_INVALID_REF);
    fl ← add_id_to_freelist id (tx_freelist s);
    Ok (set_tx_pool fl bs (set_net_grants g s)).

Fixpoint gc_loop (n : nat) (cons : Z) s : res (net G) :=
  match n with O => Ok s | S n => s ← gc_response cons s; gc_loop n (wrap32 (cons + 1)) s end.

Fixpoint gc_rounds (fuel : nat) (w : list (sring tx_entry -> sring tx_entry)) s : res (net G) :=
  match fuel with
  | O => Fuel
  | S fuel =>
      let '(w, s) := tx_remote w s in
      let prod := rsp_prod (shared (tx s)) in
      s ← gc_loop (Z.to_nat (wrap32 (prod - rsp_cons (tx s)))) (rsp_cons (tx s)) s;
      let event := wrap32 (prod + Z.shiftr (wrap32 (req_prod (shared (tx s)) - prod)) 1 + 1) in
      let s := set_tx (FRing (req_prod_pvt (tx s)) prod (set_rsp_event event (shared (tx s)))) s in
      let '(w, s) := tx_remote w s in
      if negb (prod =? rsp_prod (shared (tx s))) then gc_rounds fuel w s else Ok s
  end.

Definition network_tx_buf_gc (fuel : nat) (w : list (sring tx_entry -> sring tx_entry)) s : res (net G) :=
  if negb (bool_decide (nstate s = NET_READY)) then Ok s else gc_rounds fuel w s.

Definition netfront_handler (fuel : nat) wt wr s : res (net G) :=
  s ← network_tx_buf_gc fuel wt s; network_rx fuel wr s.

Definition push_tx s : net G :=
  let '(notify, r) := RING_PUSH_REQUESTS_AND_CHECK_NOTIFY (tx s) in tell_if notify (NetNotify (net_evtchn s)) (set_tx r s).

(** The copy is to a buffer of one page; a negative length is a huge [size_t]. *)
Definition guk_netfront_xmit (data len : Z) s : res (net G) :=
  '(id, fl) ← get_id_from_freelist (tx_freelist s);
  let s := set_tx_pool fl (tx_buffers s) s in
  buf ← elem (tx_buffers s) id;
  if negb (bool_decide (nstate s = NET_READY)) then Ok s
  else
    let i := req_prod_pvt (tx s) in
    (if (len <? 0) || (PAGE_SIZE <? len) then Bug BAD_ACCESS else Ok ());;
    let s := set_mem (copy_mem (page buf) data len (mem s)) s in
    '(ref, g) ← grant_access 0 (virt_to_mfn (page buf)) 0 (net_grants s);
    bs ← set_elem (tx_buffers s) id (Buf (page buf) ref);
    r ← ring_put i (ETxReq (TxReq ref 0 0 id (wrap 16 len))) (shared (tx s));
    Ok (push_tx (set_tx (FRing (wrap32 (i + 1)) (rsp_cons (tx s)) r) (set_tx_pool (tx_freelist s) bs (set_net_grants g s)))).

(** ** Start and end *)

(** What [alloc_page] returns, one after the other. *)
Definition alloc_page (fresh : list Z) : Z * list Z := match fresh with [] => (0, []) | p :: fresh => (p, fresh) end.

Definition alloc_buffer (fresh : list Z) (b : net_buffer) : net_buffer * list Z :=
  if page b =? 0 then let '(p, fresh) := alloc_page fresh in (Buf p (gref b), fresh) else (b, fresh).

(** [for(i=from;i<NET_TX_RING_SIZE;i++)]: the free list and the buffers of one direction. *)
Fixpoint alloc_pool (n : nat) (i : Z) (fresh fl : list Z) (bs : list net_buffer) : res (list Z * list Z * list net_buffer) :=
  match n with
  | O => Ok (fresh, fl, bs)
  | S n =>
      fl ← add_id_to_freelist i fl;
      b ← elem bs i;
      let '(b, fresh) := alloc_buffer fresh b in
      bs ← set_elem bs i b;
      alloc_pool n (i + 1) fresh fl bs
  end.

Definition alloc_buffers (fresh : list Z) s : res (list Z * net G) :=
  '(fresh, fl, bs) ← alloc_pool (Z.to_nat (RING_SIZE tx_entry)) 0 fresh (tx_freelist s) (tx_buffers s);
  let s := set_tx_pool fl bs s in
  '(fresh, fl, bs) ← alloc_pool (Z.to_nat (RING_SIZE rx_entry)) 0 fresh (rx_freelist s) (rx_buffers s);
  Ok (fresh, set_rx_pool fl bs s).

(** [txs0] and [rxs0] are the rings that pages of zeros hold. *)
Definition alloc_rings (fresh : list Z) (txs0 : sring tx_entry) (rxs0 : sring rx_entry) s : res (net G) :=
  bug_on (rings s);;
  let '(txs, fresh) := alloc_page fresh in
  let '(rxs, fresh) := alloc_page fresh in
  (if (txs =? 0) || (rxs =? 0) then Bug BAD_ACCESS else Ok ());;
  let s := set_rx (FRONT_RING_INIT (SHARED_RING_INIT rxs0)) (set_tx (FRONT_RING_INIT (SHARED_RING_INIT txs0)) s) in
  '(t, g) ← grant_access 0 (virt_to_mfn txs) 0 (net_grants s);
  '(r, g) ← grant_access 0 (virt_to_mfn rxs) 0 g;
  Ok (set_ring_refs t r (set_net_grants g s)).

(** [for (i = from; i < NET_RX_RING_SIZE; i++)] *)
Fixpoint init_rx_loop (n : nat) (i : Z) s : res (net G) :=
  match n with O => Ok s | S n => s ← rx_post i i s; init_rx_loop n (i + 1) s end.

Definition set_rx_event s : net G := set_rx (set_shared (set_rsp_event (wrap32 (rsp_cons (rx s) + 1)) (shared (rx s))) (rx s)) s.

Definition init_rx_buffers s : res (net G) :=
  s ← init_rx_loop (Z.to_nat (RING_SIZE rx_entry)) 0 s;
  Ok (set_rx_event (push_rx (set_rx (FRing (RING_SIZE rx_entry) (rsp_cons (rx s)) (shared (rx s))) s))).

(** [init_netfront] up to the exchange with the store, and from the connection on: [port] and
    [local] are what [EVTCHNOP_alloc_unbound] and [bind_evtchn] return. *)
Definition init_netfront_begin (fresh : list Z) (txs0 : sring tx_entry) (rxs0 : sring rx_entry) (port local : Z) s : res (net G) :=
  '(fresh, s) ← alloc_buffers fresh s;
  s ← alloc_rings fresh txs0 rxs0 s;
  Ok (set_ports port local s).

Definition init_netfront_connected s : res (net G) :=
  s ← init_rx_buffers s; Ok (set_nstate NET_READY s).

Section Shutdown.
Context (end_transfer : Z -> G -> res (Z * G)).

Definition unmap_buffer (b : net_buffer) (g : G) : res G :=
  '(_, g) ← end_transfer (gref b) g; '(_, g) ← end_access (gref b) g; Ok g.

Fixpoint unmap_loop (n : nat) (i : Z) s : res (net G) :=
  match n with
  | O => Ok s
  | S n => b ← elem (rx_buffers s) i; g ← unmap_buffer b (net_grants s); unmap_loop n (i + 1) (set_net_grants g s)
  end.

Definition netfront_unmap_rx_buffers s : res (net G) :=
  s ← unmap_loop (Z.to_nat (RING_SIZE rx_entry)) 0 s;
  Ok (set_rx_event (push_rx (set_rx (FRing 0 (rsp_cons (rx s)) (shared (rx s))) s))).

Definition netfront_shutdown s : res (Z * net G) :=
  if negb (backend s) || negb (bool_decide (nstate s = NET_READY)) then Ok (1, s)
  else
    let s := set_nstate NET_SUSPENDING (net_tell (NetUnbind (net_local_port s)) s) in
    let s := net_tell (WaitBackend 6) (net_tell (WriteState 6) s) in
    let s := net_tell (WaitBackend 2) (net_tell (WriteState 1) s) in
    s ← netfront_unmap_rx_buffers s;
    Ok (0, set_nstate NET_SUSPENDED (net_tell RmNetWatch s)).

Definition netfront_suspend s : res (Z * net G) := netfront_shutdown s.
End Shutdown.
End Code.
