(* ===== verification/NetProps.v ===== *)
(** What the network front end does: sending a packet, taking back the buffers of the packets
    that were sent, and receiving; what goes wrong at the ends of the free lists. *)
From S2P Require Import Prelude FreeList Grants SharedRing NetFront.
From stdpp Require Import options.

Section Rx.
Unset Default Proof Using.
Context {G : Type} `{!GrantTable G} {RT : ring_macros tx_entry} {RR : ring_macros rx_entry} {RRO : ring_macros_ok RR} {NI : netif}.
Implicit Types s : net G.

Local Abbreviation N := (RING_SIZE rx_entry).
Local Abbreviation slot := (pos rx_entry).

(** The back end holds the receive buffers of the positions [c] to [q] of the ring, and has
    answered those up to [p] with [rs]; [F] are the free grant references and [U] those that
    others use. *)
Record rx_core (s : net G) (c p q : Z) (F U : gset Z) (rs : list netif_rx_response) : Prop := {
  rc_order : c <= p <= q /\ q <= c + N;
  rc_len : p = c + Z.of_nat (length rs);
  rc_slots : slots_ok (shared (rx s));
  rc_bufs : length (rx_buffers s) = Z.to_nat N;
  rc_list : length (rx_freelist s) = Z.to_nat N;
  rc_window : window (shared (rx s)) c (ERxRsp <$> rs);
  rc_grant j : c <= j < q -> exists b, rx_buffers s !! slot j = Some b /\ is_ref (gref b) /\ gref b ∉ F ∪ U;
  rc_distinct j k b b' : c <= j < q -> c <= k < q -> rx_buffers s !! slot j = Some b -> rx_buffers s !! slot k = Some b' ->
    gref b = gref b' -> j = k;
  rc_posted j b : p <= j < q -> rx_buffers s !! slot j = Some b -> slots (shared (rx s)) !! slot j = Some (ERxReq (RxReq (j mod N) (gref b)));
  rc_free : free_set (net_grants s) F;
  rc_others : F ## U
}.

(** What an operation on the receiving side leaves alone. *)
Record rx_frame s s' : Prop := {
  rf_tx : tx s' = tx s;
  rf_port : net_evtchn s' = net_evtchn s;
  rf_state : nstate s' = nstate s;
  rf_list : tx_freelist s' = tx_freelist s;
  rf_tx_bufs : tx_buffers s' = tx_buffers s;
  rf_mem : mem s' = mem s;
  rf_pages : page <$> rx_buffers s' = page <$> rx_buffers s
}.

Global Instance rx_frame_po : PreOrder rx_frame.
Proof. split; [by split|]. intros x y z [] []. split; congruence. Qed.

(** The answers come in the order of the slots, and none is of a kind the loop does not get past. *)
Definition in_order (c : Z) (rs : list netif_rx_response) : Prop :=
  forall i r, rs !! i = Some r -> rr_id r = (c + Z.of_nat i) mod N /\ Z.land (rr_flags r) NETRXF_extra_info = 0 /\ rr_status r <> NETIF_RSP_NULL.

Lemma in_order_cons c r rs : in_order c (r :: rs) ->
  rr_id r = c mod N /\ Z.land (rr_flags r) NETRXF_extra_info = 0 /\ rr_status r <> NETIF_RSP_NULL /\ in_order (c + 1) rs.
Proof.
  intros H. destruct (H 0%nat r eq_refl) as (H1 & H2 & H3). rewrite Z.add_0_r in H1. splits; try done.
  intros i x Hx. destruct (H (S i) x Hx) as (H4 & H5 & H6). splits; [|done|done]. rewrite H4. f_equal. lia.
Qed.

Lemma in_order_app c rs rs' : in_order c (rs ++ rs') <-> in_order c rs /\ in_order (c + Z.of_nat (length rs)) rs'.
Proof.
  split.
  - intros H. split; intros i r Hr.
    + apply H. by apply lookup_app_l_Some.
    + replace (c + Z.of_nat (length rs) + Z.of_nat i) with (c + Z.of_nat (length rs + i)) by lia. apply H.
      rewrite lookup_app_r by lia. by replace (length rs + i - length rs)%nat with i by lia.
  - intros [H1 H2] i r [Hr|[Hi Hr]]%lookup_app_Some; [by apply H1|]. specialize (H2 _ _ Hr).
    by replace (c + Z.of_nat (length rs) + Z.of_nat (i - length rs)) with (c + Z.of_nat i) in H2 by lia.
Qed.

(** The packets given to [guk_netif_rx]. *)
Definition packet (pages : list Z) (r : netif_rx_response) : list net_event :=
  if 0 <? rr_status r then [NetifRx (nth (Z.to_nat (rr_id r)) pages 0 + rr_offset r) (rr_status r)] else [].
Definition packets (pages : list Z) (rs : list netif_rx_response) : list net_event := concat (packet pages <$> rs).

Lemma packets_app pages rs rs' : packets pages (rs ++ rs') = packets pages rs ++ packets pages rs'.
Proof. unfold packets. by rewrite fmap_app, concat_app. Qed.

Lemma N_rx : 2 <= N <= 4096.
Proof. apply ring_size_bounds. Qed.

(** One response: its buffer is the back end's no more. *)
Lemma rx_take s c p q F U r rs fl g :
  rx_core s c p q F U (r :: rs) -> length fl = Z.to_nat N ->
  forall F', free_set g F' -> F ⊆ F' ->
  (forall b, rx_buffers s !! slot c = Some b -> F' ⊆ {[gref b]} ∪ F) ->
  forall s', rx s' = rx s -> rx_buffers s' = rx_buffers s -> net_grants s' = g -> rx_freelist s' = fl ->
  rx_core s' (c + 1) p q F' U rs.
Proof.
  intros [Ho Hl Hs Hb Hfl Hw Hg Hd Hp Hf Hu] Hfl' F' Hf' Hsub1 Hsub2 s' E1 E2 E3 E4. simpl in Hl.
  destruct (Hg c) as (b0 & Hb0 & Hr0 & Hn0); [lia|]. specialize (Hsub2 _ Hb0).
  assert (forall j b, c + 1 <= j < q -> rx_buffers s !! slot j = Some b -> gref b <> gref b0) as Hne.
  { intros j b Hj Hbj He. assert (j = c); [|lia]. eapply Hd; eauto; lia. }
  split; rewrite ?E1, ?E2, ?E3, ?E4; try done; try lia.
  - simpl in Hw. by apply window_cons in Hw as [_ Hw].
  - intros j Hj. destruct (Hg j) as (b & Hbj & Hr & Hn); [lia|]. exists b. splits; [done|done|].
    specialize (Hne j b Hj Hbj). set_solver.
  - intros j k b b' Hj Hk. apply Hd; lia.
  - set_solver.
Qed.

Lemma rx_loop_spec rs : forall fuel s c p q F U nr,
  rx_core s c p q F U rs -> in_order c rs -> (length rs <= fuel)%nat ->
  exists s' F', rx_loop fuel (wrap32 c) (wrap32 p) nr s = Ok (nr + Z.of_nat (length rs), s') /\ rx_core s' p p q F' U [] /\ F ⊆ F' /\
    rx s' = rx s /\ rx_frame s s' /\ net_log s' = net_log s ++ packets (page <$> rx_buffers s) rs.
Proof.
  induction rs as [|r rs IH]; intros fuel s c p q F U nr Hc Ho Hf.
  - assert (p = c) as -> by (rewrite (rc_len _ _ _ _ _ _ _ Hc); simpl; lia). exists s, F. simpl.
    destruct fuel; cbn [rx_loop]; rewrite Z.eqb_refl, Z.add_0_r, app_nil_r; by splits.
  - destruct fuel as [|fuel]; [simpl in Hf; lia|]. cbn [rx_loop]. pose proof N_rx.
    pose proof (rc_order _ _ _ _ _ _ _ Hc) as Hord. pose proof (rc_len _ _ _ _ _ _ _ Hc) as Hlen. simpl in Hlen.
    destruct (Z.eqb_spec (wrap32 c) (wrap32 p)) as [E|_].
    { exfalso. apply mod_inj in E; lia. }
    apply in_order_cons in Ho as (Hid & Hfl & Hst & Ho).
    rewrite (ring_get_window _ _ _ _ (rc_slots _ _ _ _ _ _ _ Hc) (rc_window _ _ _ _ _ _ _ Hc)). cbn [mbind res_bind rx_response].
    rewrite Hfl. cbn [Z.eqb negb]. destruct (Z.eqb_spec (rr_status r) NETIF_RSP_NULL) as [?|_]; [done|].
    destruct (rc_grant _ _ _ _ _ _ _ Hc c) as (b & Hb & Href & Hnf); [lia|].
    pose proof (mod_N_range (A := rx_entry) c) as Hcm.
    rewrite (elem_eq (rx_buffers s) (rr_id r) b); [|lia|rewrite Hid; exact Hb]. cbn [mbind res_bind].
    destruct (end_law _ F (gref b) (rc_free _ _ _ _ _ _ _ Hc) Href ltac:(set_solver)) as (v & g & -> & Hor). cbn [mbind res_bind].
    assert (exists F1, free_set g F1 /\ F ⊆ F1 /\ F1 ⊆ {[gref b]} ∪ F) as (F1 & Hf1 & Hsub1 & Hsub2).
    { destruct Hor as [[_ ?]|[_ ?]]; eexists; (split; [done|]); set_solver. }
    set (s1 := tell_if _ _ _). unfold add_id_to_freelist. rewrite (wrap_small 16) by lia.
    assert (rx_freelist s1 = rx_freelist s) as Els by (unfold s1, tell_if; by case_match).
    destruct (fl_push_any (rx_freelist s1) (rr_id r) (rr_id r)) as (fl & -> & Hfl1).
    { rewrite Els, (rc_list _ _ _ _ _ _ _ Hc). lia. }
    cbn [mbind res_bind]. rewrite wrap_add_l. set (s2 := set_rx_pool _ _ _).
    assert (rx_core s2 (c + 1) p q F1 U rs) as Hc2.
    { eapply (rx_take s c p q F U r rs fl g); try done.
      - by rewrite Hfl1, Els, (rc_list _ _ _ _ _ _ _ Hc).
      - intros b' Hb'. by simplify_eq.
      - unfold s2, s1, tell_if; by case_match.
      - unfold s2, s1, tell_if; by case_match.
      - unfold s2, s1, tell_if; by case_match. }
    destruct (IH fuel s2 (c + 1) p q F1 U (nr + 1) Hc2 Ho ltac:(simpl in Hf; lia)) as (s' & F' & -> & Hc' & Hsub' & Hrx & Hfr & Hlog).
    exists s', F'. splits; [do 2 f_equal; simpl; lia|done|by etrans| | |].
    + rewrite Hrx. unfold s2, s1, tell_if. by case_match.
    + etrans; [|exact Hfr]. unfold s2, s1, tell_if. case_match; by split.
    + rewrite Hlog. assert (page <$> rx_buffers s2 = page <$> rx_buffers s) as -> by (unfold s2, s1, tell_if; by case_match).
      unfold packets. rewrite fmap_cons. simpl. rewrite (assoc_L app). f_equal. unfold s2, s1, tell_if, packet.
      rewrite (nth_lookup_Some _ (Z.to_nat (rr_id r)) 0 (page b)).
      2: { rewrite list_lookup_fmap, Hid. fold (slot c). by rewrite Hb. }
      destruct (0 <? rr_status r); simpl; [done|by rewrite app_nil_r].
Qed.

(** ** Giving the buffers back *)

Context (virt_to_mfn : Z -> Z).

Lemma xennet_rxidx_mod i : xennet_rxidx (wrap32 i) = i mod N.
Proof.
  unfold xennet_rxidx. pose proof (ring_size_bounds (A := rx_entry)) as [_ Hd]. destruct (ring_pow (A := rx_entry)) as (k & Hk & E).
  rewrite E in *. replace (2 ^ k - 1) with (Z.ones k) by (rewrite Z.ones_equiv; lia). rewrite Z.land_ones by lia.
  apply wrap_mod; [apply Z.pow_pos_nonneg; lia|done|lia].
Qed.

Lemma rx_post_spec s c p q F U rs :
  rx_core s c p q F U rs -> q < c + N -> F <> ∅ ->
  exists s' r, rx_post virt_to_mfn (q mod N) (wrap32 q) s = Ok s' /\ r ∈ F /\ rx_core s' c p (q + 1) (F ∖ {[r]}) U rs /\
    rx_frame s s' /\ net_log s' = net_log s /\ rsp_cons (rx s') = rsp_cons (rx s) /\ req_prod_pvt (rx s') = req_prod_pvt (rx s) /\
    rsp_prod (shared (rx s')) = rsp_prod (shared (rx s)).
Proof.
  intros [Ho Hl Hs Hb Hfl Hw Hg Hd Hp Hf Hu] Hq HF. unfold rx_post. pose proof N_rx.
  destruct (lookup_lt_is_Some_2 (rx_buffers s) (slot q)) as [b Hbq]; [rewrite Hb; apply pos_lt|].
  pose proof (mod_N_range (A := rx_entry) q) as Hqm. rewrite (elem_eq _ _ b) by (done || lia). cbn [mbind res_bind].
  destruct (grant_law (net_grants s) F 0 (virt_to_mfn (page b)) 0 Hf HF) as (r & g & -> & Hr & Hf'). cbn [mbind res_bind].
  rewrite set_elem_eq by lia. fold (slot q). cbn [mbind res_bind].
  rewrite (ring_put_pos _ _ _ Hs). cbn [mbind res_bind]. eexists _, r. splits; try done; [|split; simpl; try done].
  2: { rewrite list_fmap_insert. apply list_insert_id. by rewrite list_lookup_fmap, Hbq. }
  assert (forall j, c <= j < q -> slot j <> slot q) as Hne by (intros j Hj E; apply pos_inj in E; lia).
  assert (forall j b', c <= j < q + 1 -> <[slot q := Buf (page b) r]> (rx_buffers s) !! slot j = Some b' ->
    j = q /\ b' = Buf (page b) r \/ c <= j < q /\ rx_buffers s !! slot j = Some b') as Hcase.
  { intros j b' Hj Hbj. destruct (decide (j = q)) as [->|].
    - rewrite list_lookup_insert_eq in Hbj by (rewrite Hb; apply pos_lt). left. by simplify_eq.
    - right. rewrite list_lookup_insert_ne in Hbj by (symmetry; apply Hne; lia). split; [lia|done]. }
  split; simpl; try done; try lia.
  - by apply set_slots_ok.
  - by rewrite length_insert.
  - apply window_put; [|done]. rewrite length_fmap. lia.
  - intros j Hj. destruct (decide (j = q)) as [->|].
    + exists (Buf (page b) r). rewrite list_lookup_insert_eq by (rewrite Hb; apply pos_lt). splits; [done|exact (free_is_ref _ _ _ Hf Hr)|set_solver].
    + destruct (Hg j) as (b' & Hbj & ? & ?); [lia|]. exists b'. rewrite list_lookup_insert_ne by (symmetry; apply Hne; lia). splits; [done|done|set_solver].
  - assert (forall j b', c <= j < q -> rx_buffers s !! slot j = Some b' -> gref b' <> r) as Hnr.
    { intros j b' Hj Hbj E. destruct (Hg j) as (b2 & Hb2 & _ & Hn); [done|]. set_solver. }
    intros j k b1 b2 Hj Hk [[-> ->]|[Hj' Hb1]]%Hcase [[-> ->]|[Hk' Hb2]]%Hcase E; simpl in *; try done; try lia.
    + by destruct (Hnr k b2 Hk' Hb2).
    + by destruct (Hnr j b1 Hj' Hb1).
    + by eapply Hd.
  - intros j b' Hj Hbj. destruct (Hcase j b') as [[-> ->]|[Hj' Hb']]; [lia|done|simpl|].
    + apply list_lookup_insert_eq. rewrite Hs. apply pos_lt.
    + rewrite list_lookup_insert_ne by (symmetry; apply Hne; lia). apply Hp; [lia|done].
  - set_solver.
Qed.

Lemma rx_refill_spec n : forall s c p q F U rs i q0,
  rx_core s c p q F U rs -> q + Z.of_nat n <= c + N -> (n <= size F)%nat -> q = q0 + i ->
  exists s' F', rx_refill virt_to_mfn n (wrap32 q0) i s = Ok s' /\ rx_core s' c p (q + Z.of_nat n) F' U rs /\ F' ⊆ F /\
    rx_frame s s' /\ net_log s' = net_log s /\ rsp_cons (rx s') = rsp_cons (rx s) /\ req_prod_pvt (rx s') = req_prod_pvt (rx s) /\
    rsp_prod (shared (rx s')) = rsp_prod (shared (rx s)).
Proof.
  induction n as [|n IH]; intros s c p q F U rs i q0 Hc Hq HF Hi; cbn [rx_refill].
  { exists s, F. rewrite Z.add_0_r. by splits. }
  rewrite wrap_add_l, <- Hi, xennet_rxidx_mod.
  destruct (rx_post_spec s c p q F U rs Hc) as (s1 & r & -> & Hr & Hc1 & Hfr1 & Hlog1 & H1 & H2 & H3); [lia|intros ->; rewrite size_empty in HF; lia|].
  cbn [mbind res_bind].
  destruct (IH s1 c p (q + 1) (F ∖ {[r]}) U rs (i + 1) q0 Hc1) as (s' & F' & -> & Hc' & HF' & Hfr & Hlog & H4 & H5 & H6); [lia| |lia|].
  { rewrite size_difference by set_solver. rewrite size_singleton. lia. }
  exists s', F'. replace (q + Z.of_nat (S n)) with (q + 1 + Z.of_nat n) by lia. splits; [done|done|set_solver|by etrans|congruence..].
Qed.

(** ** The passes *)

Definition rx_batch (b : list netif_rx_response) : sring rx_entry -> sring rx_entry := deliver (ERxRsp <$> b).

(** The indices of the ring, as seen from the positions. *)
Definition rx_at (s : net G) (c p q : Z) : Prop :=
  rsp_cons (rx s) = wrap32 c /\ rsp_prod (shared (rx s)) = wrap32 p /\ req_prod_pvt (rx s) = wrap32 q.

(** The back end answers positions it holds. *)
Lemma rx_deliver_spec s c p q F U rs b : rx_core s c p q F U rs -> rx_at s c p q -> p + Z.of_nat (length b) <= q ->
  let s' := set_rx (set_shared (rx_batch b (shared (rx s))) (rx s)) s in
  rx_core s' c (p + Z.of_nat (length b)) q F U (rs ++ b) /\ rx_at s' c (p + Z.of_nat (length b)) q.
Proof.
  intros [Ho Hl Hs Hb Hfl Hw Hg Hd Hp Hf Hu] (H1 & H2 & H3) Hn s'.
  destruct (deliver_spec (ERxRsp <$> b) (shared (rx s)) c p (ERxRsp <$> rs)) as (D1 & D2 & D3 & D4 & D5); rewrite ?length_app, ?length_fmap in *; try done; try lia.
  rewrite <- fmap_app in D3. split; [|by split].
  split; simpl; try done; try lia; [rewrite length_app; lia|].
  intros j b' Hj Hb'. unfold rx_batch. rewrite D5 by lia. apply Hp; [lia|done].
Qed.

(** The cursor of the responses moves to [p]. *)
Lemma rx_advance s p q F U r : rx_core s p p q F U [] -> (shared r) = shared (rx s) -> rx_core (set_rx r s) p p q F U [].
Proof. intros [] E. split; simpl; rewrite ?E; done. Qed.

Lemma rx_frame_set_rx r s : rx_frame s (set_rx r s).
Proof. by split. Qed.

Lemma rx_final s p q F U rs : rx_core s p (p + Z.of_nat (length rs)) q F U rs -> rx_at s p (p + Z.of_nat (length rs)) q ->
  exists r, RING_FINAL_CHECK_FOR_RESPONSES (rx s) = (negb (bool_decide (rs = [])), r) /\
    rx_core (set_rx r s) p (p + Z.of_nat (length rs)) q F U rs /\ rx_at (set_rx r s) p (p + Z.of_nat (length rs)) q.
Proof.
  intros Hc (H1 & H2 & H3). destruct (final_law (rx s)) as [e ->]. eexists. split; [f_equal|].
  - rewrite H1, H2. f_equal. pose proof N_rx. pose proof (rc_order _ _ _ _ _ _ _ Hc).
    case_bool_decide as E; [subst; by rewrite Z.add_0_r, Z.eqb_refl|].
    apply Z.eqb_neq. intros Hm. apply E, length_zero_iff_nil. apply mod_inj in Hm; lia.
  - split; [|by split]. destruct Hc. by split.
Qed.

Lemma rx_remote_batch bs s : rx_remote (rx_batch <$> bs) s =
  (rx_batch <$> tail bs, set_rx (set_shared (rx_batch (default [] (head bs)) (shared (rx s))) (rx s)) s).
Proof. destruct bs; [|done]. by destruct s as [? [? ? ?] ? ? ? ? ? ? ? ? ? ? ? ? ? ?]. Qed.

(** One pass, with the batch [b0] before it and [b1] during it. *)
Lemma rx_pass_spec s c p q F U carry b0 b1 w :
  rx_core s c p q F U carry -> rx_at s c p q -> in_order c (carry ++ b0) -> c + Z.of_nat (length (carry ++ b0 ++ b1)) <= q ->
  let c' := c + Z.of_nat (length (carry ++ b0)) in
  exists s2 F', F ⊆ F' /\ rx_core s2 c' (c' + Z.of_nat (length b1)) q F' U b1 /\ rx_at s2 c' (c' + Z.of_nat (length b1)) q /\
    rx_frame s s2 /\ net_log s2 = net_log s ++ packets (page <$> rx_buffers s) (carry ++ b0) /\
    forall fuel, rx_passes (S fuel) (rx_batch b0 :: rx_batch b1 :: w) s =
      (if bool_decide (b1 = []) then Ok (Z.of_nat (length (carry ++ b0)), s2) else rx_passes fuel w s2).
Proof.
  intros Hc Hat Ho Hn c'. rewrite !length_app in Hn. pose proof (rc_len _ _ _ _ _ _ _ Hc) as Hp. pose proof N_rx.
  destruct (rx_deliver_spec s c p q F U carry b0 Hc Hat) as [Hc1 Hat1]; [lia|].
  set (s1 := set_rx _ _) in *. replace (p + Z.of_nat (length b0)) with c' in * by (unfold c'; rewrite length_app; lia).
  destruct (rx_loop_spec (carry ++ b0) (Z.to_nat N) s1 c c' q F U 0 Hc1 Ho) as (s2 & F2 & E2 & Hc2 & HF & Hrx & Hfr2 & Hlog2).
  { pose proof (rc_order _ _ _ _ _ _ _ Hc1). rewrite length_app. lia. }
  set (s3 := set_rx (FRing (req_prod_pvt (rx s2)) (wrap32 c') (shared (rx s2))) s2).
  assert (rx_core s3 c' c' q F2 U []) as Hc3 by (by apply rx_advance).
  assert (rx_at s3 c' c' q) as Hat3 by (destruct Hat1 as (? & ? & ?); unfold rx_at, s3; simpl; rewrite Hrx; by splits).
  destruct (rx_deliver_spec s3 c' c' q F2 U [] b1 Hc3 Hat3) as [Hc4 Hat4]; [unfold c'; rewrite length_app; lia|].
  set (s4 := set_rx _ s3) in *. destruct (rx_final s4 c' q F2 U b1 Hc4 Hat4) as (r & Er & Hc5 & Hat5).
  exists (set_rx r s4), F2. splits; try done.
  - assert (rx_frame s s1) as Hfr1 by by split. rewrite Hfr1, Hfr2. by split.
  - intros fuel. cbn [rx_passes rx_remote]. fold s1. destruct Hat1 as (A1 & A2 & A3).
    rewrite A1, A2, E2. cbn [mbind res_bind]. fold s3. fold s4. rewrite Er.
    by case_bool_decide.
Qed.

Lemma rx_passes_spec fuel : forall bs s c p q F U carry before last,
  rx_core s c p q F U carry -> rx_at s c p q -> split_passes carry bs = (before, last) ->
  in_order c (before ++ last) -> c + Z.of_nat (length (before ++ last)) <= q -> (length bs < fuel)%nat ->
  let c' := c + Z.of_nat (length (before ++ last)) in
  exists s' F', rx_passes fuel (rx_batch <$> bs) s = Ok (Z.of_nat (length last), s') /\ F ⊆ F' /\
    rx_core s' c' c' q F' U [] /\ rx_at s' c' c' q /\ rx_frame s s' /\
    net_log s' = net_log s ++ packets (page <$> rx_buffers s) (before ++ last).
Proof.
  induction fuel as [|fuel IH]; intros bs s c p q F U carry before last Hc Hat Hsp Ho Hn Hf c'; [lia|].
  assert (rx_passes (S fuel) (rx_batch <$> bs) s =
    rx_passes (S fuel) (rx_batch (default [] (head bs)) :: rx_batch (default [] (head (tail bs))) :: (rx_batch <$> tail (tail bs))) s) as ->.
  { cbn [rx_passes]. rewrite rx_remote_batch. cbn [rx_remote]. destruct (rx_loop _ _ _ _ _) as [[nr s1]| |]; [|done..].
    cbn [mbind res_bind]. by rewrite rx_remote_batch. }
  rewrite split_passes_unfold in Hsp. cbv zeta in Hsp. set (b0 := default [] (head bs)) in *. set (b1 := default [] (head (tail bs))) in *.
  destruct (bool_decide (b1 = [])) eqn:Eb.
  - apply bool_decide_eq_true in Eb. injection Hsp as <- <-. cbn [app] in Ho, Hn, c' |- *.
    destruct (rx_pass_spec s c p q F U carry b0 b1 (rx_batch <$> tail (tail bs)) Hc Hat Ho) as (s2 & F' & HF & Hc2 & Hat2 & Hfr & Hlog & E); [by rewrite Eb, app_nil_r|].
    rewrite E, Eb. rewrite Eb, Z.add_0_r in Hc2, Hat2. exists s2, F'. by splits.
  - destruct (split_passes b1 (tail (tail bs))) as [bf ls] eqn:Es. simpl in Hsp. injection Hsp as <- <-.
    assert (length (tail (tail bs)) < fuel)%nat as Hf'.
    { apply bool_decide_eq_false in Eb. destruct bs as [|? [|? ?]]; [by destruct Eb..|]. simpl in *. lia. }
    assert (length b1 <= length (bf ++ ls))%nat as Hb1 by (eapply split_passes_carry; exact Es).
    rewrite <- app_assoc, in_order_app in Ho. destruct Ho as [Ho1 Ho2].
    assert (c' = c + Z.of_nat (length (carry ++ b0)) + Z.of_nat (length (bf ++ ls))) as Hc' by (unfold c'; rewrite !length_app; lia).
    rewrite <- app_assoc, length_app in Hn. clearbody c'.
    destruct (rx_pass_spec s c p q F U carry b0 b1 (rx_batch <$> tail (tail bs)) Hc Hat Ho1) as (s2 & F' & HF & Hc2 & Hat2 & Hfr & Hlog & E).
    { rewrite !length_app in *. lia. }
    rewrite E, Eb. destruct (IH _ _ _ _ _ _ _ _ _ _ Hc2 Hat2 Es Ho2) as (s' & F2 & -> & HF2 & Hcore' & Hat' & Hfr' & Hlog'); [lia|done|].
    exists s', F2. rewrite Hc'.
    splits; [done|by etrans|done|done|by etrans|]. rewrite Hlog', Hlog, <- !app_assoc, (rf_pages _ _ Hfr). f_equal.
    by rewrite <- packets_app, <- app_assoc.
Qed.

Lemma push_rx_spec s p c q F U : rx_core s c p q F U [] -> rx_at s c p q ->
  rx_core (push_rx s) c p q F U [] /\ rx_at (push_rx s) c p q /\ req_prod (shared (rx (push_rx s))) = wrap32 q /\ rx_frame s (push_rx s) /\
  exists note, net_log (push_rx s) = net_log s ++ note /\ (note = [] \/ note = [NetNotify (net_evtchn s)]).
Proof.
  intros Hc (H1 & H2 & H3). unfold push_rx. pose proof (push_law (rx s)) as Hpush.
  destruct (RING_PUSH_REQUESTS_AND_CHECK_NOTIFY (rx s)) as [notify r]. simpl in Hpush. subst r.
  destruct notify; (splits; [destruct Hc; by split|by split|done|by split|]); simpl.
  - eexists. split; [done|by right].
  - exists []. rewrite app_nil_r. split; [done|by left].
Qed.

Lemma network_rx_step fuel bs s c q F U before last :
  rx_core s c c q F U [] -> rx_at s c c q -> nstate s = NET_READY -> (length last <= size F)%nat ->
  split_passes [] bs = (before, last) -> in_order c (before ++ last) -> c + Z.of_nat (length (before ++ last)) <= q -> (length bs < fuel)%nat ->
  let c' := c + Z.of_nat (length (before ++ last)) in
  let q' := q + Z.of_nat (length last) in
  exists s' F' note, network_rx virt_to_mfn fuel (rx_batch <$> bs) s = Ok s' /\
    rx_core s' c' c' q' F' U [] /\ rx_at s' c' c' q' /\ req_prod (shared (rx s')) = wrap32 q' /\
    q' - c' = q - c - Z.of_nat (length before) /\ rx_frame s s' /\
    net_log s' = net_log s ++ packets (page <$> rx_buffers s) (before ++ last) ++ note /\ (note = [] \/ note = [NetNotify (net_evtchn s)]).
Proof.
  intros Hc Hat Hst HF Hsp Ho Hn Hf c' q'. pose proof N_rx. pose proof (rc_order _ _ _ _ _ _ _ Hc) as Hord.
  destruct (rx_passes_spec fuel bs s c c q F U [] before last Hc Hat Hsp Ho Hn Hf) as (s1 & F1 & E1 & HF1 & Hc1 & Hat1 & Hfr1 & Hlog1).
  fold c' in Hc1, Hat1. unfold network_rx. rewrite Hst, bool_decide_eq_true_2 by done. cbn [negb]. rewrite E1. cbn [mbind res_bind].
  destruct Hat1 as (A1 & A2 & A3). rewrite A3, Nat2Z.id.
  rewrite length_app in Hn. assert (c' = c + Z.of_nat (length before) + Z.of_nat (length last)) as Ec by (unfold c'; rewrite length_app; lia).
  destruct (rx_refill_spec (length last) s1 c' c' q F1 U [] 0 q Hc1) as (s2 & F2 & -> & Hc2 & _ & Hfr2 & Hlog2 & B1 & B2 & B3); [lia| |lia|].
  { apply subseteq_size in HF1. lia. }
  cbn [mbind res_bind]. fold q' in Hc2. set (s3 := set_rx _ s2).
  assert (rx_core s3 c' c' q' F2 U []) as Hc3 by (destruct Hc2; by split).
  assert (rx_at s3 c' c' q') as Hat3 by (unfold rx_at, s3; simpl; rewrite wrap_add_l, B1, B3; by splits).
  destruct (push_rx_spec s3 c' c' q' F2 U Hc3 Hat3) as (P1 & P2 & P3 & P4 & note & P5 & P6).
  exists (push_rx s3), F2, note. assert (rx_frame s s3) as Hfr3 by (rewrite Hfr1, Hfr2; by split).
  splits; try done; [unfold q'; lia|by rewrite Hfr3| |].
  - rewrite P5. simpl. by rewrite Hlog2, Hlog1, <- app_assoc.
  - destruct Hfr3 as [_ E _ _ _ _ _]. by rewrite <- E.
Qed.

(** C15: [network_rx] hands every packet the back end delivers to [guk_netif_rx], once and in
    order, ends the grant of its buffer before, and returns however often the back end adds
    packets meanwhile; it gives the back end freshly granted buffers for the packets of its
    last pass, so that the ring lacks from then on those handled before that pass. *)
Theorem network_rx_delivers fuel bs s c q F U before last :
  rx_core s c c q F U [] -> rx_at s c c q -> nstate s = NET_READY -> (length last <= size F)%nat ->
  split_passes [] bs = (before, last) -> in_order c (before ++ last) -> c + Z.of_nat (length (before ++ last)) <= q -> (length bs < fuel)%nat ->
  let c' := c + Z.of_nat (length (before ++ last)) in
  let q' := q + Z.of_nat (length last) in
  exists s' F' note, network_rx virt_to_mfn fuel (rx_batch <$> bs) s = Ok s' /\
    rx_core s' c' c' q' F' U [] /\ rx_at s' c' c' q' /\ req_prod (shared (rx s')) = wrap32 q' /\
    q' - c' = q - c - Z.of_nat (length before) /\ rx_frame s s' /\
    net_log s' = net_log s ++ packets (page <$> rx_buffers s) (before ++ last) ++ note /\ (note = [] \/ note = [NetNotify (net_evtchn s)]).
Proof.
  intros Hc Hat Hst HF Hsp Ho Hn Hf. exact (network_rx_step fuel bs s c q F U before last Hc Hat Hst HF Hsp Ho Hn Hf).
Qed.
End Rx.

Section Tx.
Unset Default Proof Using.
Context {G : Type} `{!GrantTable G} {RT : ring_macros tx_entry} {RTO : ring_macros_ok RT} {RR : ring_macros rx_entry} {NI : netif}.
Implicit Types s : net G.

Local Abbreviation N := (RING_SIZE tx_entry).

Definition tx_buf s (i : Z) : option net_buffer := tx_buffers s !! Z.to_nat i.

(** The identifiers [fl] are free, [L] are those of the positions [c] to [q] of the ring, of
    which the back end has answered those up to [p] with [rs] and has the requests [qs] to
    answer; [F] are the free grant references and [U] those that others use. *)
Record tx_core (s : net G) (c p q : Z) (F U : gset Z) (fl : list Z) (L : gset Z) (rs : list netif_tx_response) (qs : list netif_tx_request) : Prop := {
  tc_rsp : p = c + Z.of_nat (length rs);
  tc_req : q = p + Z.of_nat (length qs);
  tc_size : q - c = Z.of_nat (size L);
  tc_slots : slots_ok (shared (tx s));
  tc_bufs : length (tx_buffers s) = Z.to_nat N;
  tc_list : free_list (tx_freelist s) fl /\ length (tx_freelist s) = Z.to_nat N;
  tc_ids i : i ∈ L -> 0 < i < N /\ i ∉ fl;
  tc_window : window (shared (tx s)) c (ETxRsp <$> rs);
  tc_reqs : window (shared (tx s)) p (ETxReq <$> qs);
  tc_grant i : i ∈ L -> exists b, tx_buf s i = Some b /\ is_ref (gref b) /\ gref b ∉ F ∪ U;
  tc_distinct i j b b' : i ∈ L -> j ∈ L -> tx_buf s i = Some b -> tx_buf s j = Some b' -> gref b = gref b' -> i = j;
  tc_free : free_set (net_grants s) F;
  tc_others : F ## U
}.

Definition tx_at (s : net G) (c p q : Z) : Prop :=
  rsp_cons (tx s) = wrap32 c /\ rsp_prod (shared (tx s)) = wrap32 p /\ req_prod_pvt (tx s) = wrap32 q.

Record tx_frame s s' : Prop := {
  xf_rx : rx s' = rx s;
  xf_port : net_evtchn s' = net_evtchn s;
  xf_state : nstate s' = nstate s;
  xf_list : rx_freelist s' = rx_freelist s;
  xf_rx_bufs : rx_buffers s' = rx_buffers s;
  xf_pages : page <$> tx_buffers s' = page <$> tx_buffers s
}.

Global Instance tx_frame_po : PreOrder tx_frame.
Proof. split; [by split|]. intros x y z [] []. split; congruence. Qed.

Lemma N_tx : 2 <= N <= 4096.
Proof. apply ring_size_bounds. Qed.

(** The ring always has room for the free identifiers. *)
Lemma tx_room s c p q F U i fl L rs qs : tx_core s c p q F U (i :: fl) L rs qs -> 0 < i < N /\ i ∉ L /\ q < c + N.
Proof.
  intros Hc. pose proof N_tx. destruct (tc_list _ _ _ _ _ _ _ _ _ _ Hc) as [(_ & _ & Hb) Hl].
  apply Forall_cons in Hb as [Hb _]. rewrite Hl in Hb. pose proof (tc_size _ _ _ _ _ _ _ _ _ _ Hc) as Hs.
  assert (i ∉ L) as Hi by (intros HiL; destruct (tc_ids _ _ _ _ _ _ _ _ _ _ Hc i HiL); set_solver).
  split; [lia|]. split; [done|]. assert (size ({[i]} ∪ L) <= size (list_to_set (seqZ 1 (N - 1)) : gset Z))%nat as Hsz.
  { apply subseteq_size. intros j Hj. rewrite elem_of_list_to_set, elem_of_seqZ.
    apply elem_of_union in Hj as [->%elem_of_singleton|Hj]; [lia|]. destruct (tc_ids _ _ _ _ _ _ _ _ _ _ Hc j Hj). lia. }
  rewrite size_union, size_singleton, size_list_to_set, length_seqZ in Hsz by (apply NoDup_seqZ || set_solver). lia.
Qed.

Lemma tx_core_eq s c p q F U fl L rs qs qs' : tx_core s c p q F U fl L rs qs -> qs = qs' -> tx_core s c p q F U fl L rs qs'.
Proof. by intros ? <-. Qed.

Lemma tx_full s c p q F U fl L rs qs : tx_core s c p q F U fl L rs qs -> q <= c + N.
Proof.
  intros Hc. pose proof N_tx. pose proof (tc_size _ _ _ _ _ _ _ _ _ _ Hc) as Hs.
  assert (size L <= size (list_to_set (seqZ 1 (N - 1)) : gset Z))%nat as Hsz.
  { apply subseteq_size. intros j Hj. rewrite elem_of_list_to_set, elem_of_seqZ. destruct (tc_ids _ _ _ _ _ _ _ _ _ _ Hc j Hj). lia. }
  rewrite size_list_to_set, length_seqZ in Hsz by apply NoDup_seqZ. lia.
Qed.

Lemma tx_buf_insert s i b j : 0 <= i < N -> 0 <= j -> length (tx_buffers s) = Z.to_nat N ->
  <[Z.to_nat i := b]> (tx_buffers s) !! Z.to_nat j = if decide (j = i) then Some b else tx_buf s j.
Proof.
  intros Hi Hj Hl. case_decide; subst.
  - apply list_lookup_insert_eq. lia.
  - apply list_lookup_insert_ne. lia.
Qed.

Lemma tx_pages_insert s i b b' : tx_buf s i = Some b -> page b' = page b ->
  page <$> <[Z.to_nat i := b']> (tx_buffers s) = page <$> tx_buffers s.
Proof. intros Hb Hp. rewrite list_fmap_insert, Hp. apply list_insert_id. unfold tx_buf in Hb. by rewrite list_lookup_fmap, Hb. Qed.

(** The state after a request in slot [q] for the first free buffer. *)
Lemma tx_core_submit s s' c p q F U i fl L rs qs b r l len :
  tx_core s c p q F U (i :: fl) L rs qs -> tx_buf s i = Some b -> r ∈ F -> free_set (net_grants s') (F ∖ {[r]}) ->
  free_list l fl -> length l = Z.to_nat N -> tx_freelist s' = l -> tx_buffers s' = <[Z.to_nat i := Buf (page b) r]> (tx_buffers s) ->
  slots (shared (tx s')) = <[pos tx_entry q := ETxReq (TxReq r 0 0 i len)]> (slots (shared (tx s))) ->
  tx_core s' c p (q + 1) (F ∖ {[r]}) U fl ({[i]} ∪ L) rs (qs ++ [TxReq r 0 0 i len]).
Proof.
  intros Hc Hbi Hr Hf' Hfl' Hl E1 E2 E3.
  pose proof (E3 : slots (shared (tx s')) = slots (set_slots (<[pos tx_entry q := ETxReq (TxReq r 0 0 i len)]> (slots (shared (tx s)))) (shared (tx s)))) as E3'. pose proof N_tx. destruct (tx_room _ _ _ _ _ _ _ _ _ _ _ Hc) as (Hi & HiL & Hq).
  destruct Hc as [Hrs Hqs Hsz Hs Hb [Hfl Hfll] Hids Hw Hw2 Hg Hd Hf Hu].
  assert (forall j, 0 <= j -> tx_buf s' j = if decide (j = i) then Some (Buf (page b) r) else tx_buf s j) as Hbuf.
  { intros j Hj. unfold tx_buf at 1. rewrite E2. apply tx_buf_insert; [lia|done|done]. }
  assert (forall j, j ∈ {[i]} ∪ L -> 0 < j < N /\ (j = i \/ j <> i /\ j ∈ L)) as Hin.
  { intros j Hj. destruct (decide (j = i)) as [->|]; [split; [done|by left]|]. assert (j ∈ L) as HjL by set_solver.
    destruct (Hids j HjL). split; [done|by right]. }
  assert (forall j b', j ∈ L -> tx_buf s j = Some b' -> gref b' <> r) as Hnr.
  { intros j b' Hj Hbj E. destruct (Hg j Hj) as (b2 & Hb2 & _ & Hn). set_solver. }
  split; rewrite ?E1, ?E2; try done; try lia.
  - rewrite length_app. simpl. lia.
  - rewrite size_union, size_singleton by set_solver. lia.
  - unfold slots_ok. by rewrite E3, length_insert.
  - by rewrite length_insert.
  - intros j Hj. destruct (Hin j Hj) as [Hjr [->|[_ HjL]]]; (split; [done|]).
    + destruct Hfl as (_ & Hnd & _). by apply NoDup_cons in Hnd as [? _].
    + destruct (Hids j HjL). set_solver.
  - eapply (window_slots _ _ _ _ E3'), (window_put (shared (tx s))); [|done]. rewrite length_fmap. lia.
  - rewrite fmap_app. simpl. eapply (window_slots _ _ _ _ E3'). rewrite Hqs, <- (length_fmap ETxReq qs).
    apply window_snoc; [done|rewrite length_fmap; lia|done].
  - intros j Hj. destruct (Hin j Hj) as [Hjr Hor]. rewrite Hbuf by lia. case_decide as E; [|destruct Hor as [?|[_ HjL]]; [done|]].
    + eexists. splits; [done|exact (free_is_ref _ _ _ Hf Hr)|set_solver].
    + destruct (Hg j HjL) as (b' & Hbj & ? & ?). exists b'. splits; [done|done|set_solver].
  - intros j k b1 b2 Hj Hk. destruct (Hin j Hj) as [Hjr Hj'], (Hin k Hk) as [Hkr Hk']. rewrite !Hbuf by lia.
    do 2 case_decide; intros Hb1 Hb2 E; subst; simplify_eq/=; [done| | |].
    + destruct Hk' as [?|[_ HkL]]; [done|]. by destruct (Hnr k b2 HkL Hb2).
    + destruct Hj' as [?|[_ HjL]]; [done|]. by destruct (Hnr j b1 HjL Hb1).
    + destruct Hj' as [?|[_ HjL]]; [done|]. destruct Hk' as [?|[_ HkL]]; [done|]. by eapply Hd.
  - set_solver.
Qed.

Lemma push_tx_spec s c p q F U fl L rs qs : tx_core s c p q F U fl L rs qs -> tx_at s c p q ->
  tx_core (push_tx s) c p q F U fl L rs qs /\ tx_at (push_tx s) c p q /\ req_prod (shared (tx (push_tx s))) = wrap32 q /\
  tx_frame s (push_tx s) /\ tx_buffers (push_tx s) = tx_buffers s /\ mem (push_tx s) = mem s /\
  exists note, net_log (push_tx s) = net_log s ++ note /\ (note = [] \/ note = [NetNotify (net_evtchn s)]).
Proof.
  intros Hc (H1 & H2 & H3). unfold push_tx. pose proof (push_law (tx s)) as Hpush.
  destruct (RING_PUSH_REQUESTS_AND_CHECK_NOTIFY (tx s)) as [notify r]. simpl in Hpush. subst r.
  destruct notify; (splits; [destruct Hc; by split|by split|done|by split|done|done|]); simpl.
  - eexists. split; [done|by right].
  - exists []. rewrite app_nil_r. split; [done|by left].
Qed.

(** ** Taking the buffers back *)

(** The back end answers requests it has, each once. *)
Definition answers (L : gset Z) (rs : list netif_tx_response) : Prop :=
  NoDup (tr_id <$> rs) /\ Forall (fun r => tr_id r ∈ L /\ tr_status r <> NETIF_RSP_NULL) rs.

Lemma answers_cons L r rs : answers L (r :: rs) ->
  tr_id r ∈ L /\ tr_status r <> NETIF_RSP_NULL /\ answers (L ∖ {[tr_id r]}) rs.
Proof.
  intros [Hnd Hall]. rewrite fmap_cons, NoDup_cons in Hnd. destruct Hnd as [Hr Hnd]. apply Forall_cons in Hall as [[? ?] Hall].
  splits; [done|done|split; [done|]]. rewrite Forall_forall in *. intros x Hx. destruct (Hall x Hx). split; [|done].
  apply elem_of_difference. split; [done|]. rewrite elem_of_singleton. intros E. apply Hr. rewrite <- E. by apply list_elem_of_fmap_2.
Qed.

Definition ids (rs : list netif_tx_response) : list Z := tr_id <$> rs.

Lemma answers_app L rs rs' : answers L (rs ++ rs') <-> answers L rs /\ answers (L ∖ list_to_set (ids rs)) rs'.
Proof.
  unfold answers, ids. rewrite fmap_app, NoDup_app, Forall_app, !Forall_forall. split.
  - intros ((H1 & H2 & H3) & H4 & H5). splits; try done. intros x Hx. destruct (H5 x Hx). split; [|done].
    apply elem_of_difference. split; [done|]. rewrite elem_of_list_to_set. intros Hin. apply (H2 _ Hin). by apply list_elem_of_fmap_2.
  - intros ((H1 & H2) & H3 & H4). splits; try done.
    + intros i Hi Hi'. apply list_elem_of_fmap in Hi' as (x & -> & Hx). destruct (H4 x Hx) as [Hd _].
      apply elem_of_difference in Hd as [_ Hd]. apply Hd. by apply elem_of_list_to_set.
    + intros x Hx. destruct (H4 x Hx). set_solver.
Qed.

(** What the garbage collection leaves alone. *)
Record gc_frame s s' : Prop := { gf_frame : tx_frame s s'; gf_mem : mem s' = mem s; gf_log : net_log s' = net_log s }.

Global Instance gc_frame_po : PreOrder gc_frame.
Proof. split; [by split|]. intros x y z [] []. split; [by etrans|congruence..]. Qed.

(** The buffers and the grants after the answers [rs]: the buffer of each answered packet has
    no grant any more, and the entry of its grant is cleared and free again, or the other
    domain is using it; the other buffers and entries are as before. *)
Record taken_back (bs bs' : list net_buffer) (g g' : G) (rs : list netif_tx_response) (F' : gset Z) : Prop := {
  tb_done r b : r ∈ rs -> bs !! Z.to_nat (tr_id r) = Some b ->
    bs' !! Z.to_nat (tr_id r) = Some (Buf (page b) GRANT_INVALID_REF) /\
    exists e, ref_entry g' (gref b) = Some e /\ (Gnttab.ge_flags e = 0 /\ gref b ∈ F' \/ busy e = true);
  tb_others i : 0 <= i -> i ∉ ids rs -> bs' !! Z.to_nat i = bs !! Z.to_nat i;
  tb_entries x : (forall r b, r ∈ rs -> bs !! Z.to_nat (tr_id r) = Some b -> x <> gref b) -> ref_entry g' x = ref_entry g x
}.

Lemma taken_none bs g F : taken_back bs bs g g [] F.
Proof. split; [|done|done]. intros r b Hr. by apply elem_of_nil in Hr. Qed.

(** No two of the identifiers [L] have a grant in common. *)
Definition distinct_grants (bs : list net_buffer) (L : gset Z) : Prop :=
  (forall i, i ∈ L -> 0 <= i) /\
  forall i j b b', i ∈ L -> j ∈ L -> bs !! Z.to_nat i = Some b -> bs !! Z.to_nat j = Some b' -> gref b = gref b' -> i = j.

Lemma core_distinct s c p q F U fl L rs qs : tx_core s c p q F U fl L rs qs -> distinct_grants (tx_buffers s) L.
Proof. intros Hc. split; [|apply (tc_distinct _ _ _ _ _ _ _ _ _ _ Hc)]. intros i Hi. destruct (tc_ids _ _ _ _ _ _ _ _ _ _ Hc i Hi). lia. Qed.

Lemma taken_app bs bs1 bs2 g g1 g2 rs1 rs2 F1 F2 L :
  distinct_grants bs L -> answers L (rs1 ++ rs2) -> taken_back bs bs1 g g1 rs1 F1 -> F1 ⊆ F2 -> taken_back bs1 bs2 g1 g2 rs2 F2 ->
  taken_back bs bs2 g g2 (rs1 ++ rs2) F2.
Proof.
  intros [Hpos Hd] [Hnd Hall] [D1 O1 E1] HF [D2 O2 E2]. rewrite Forall_forall in Hall. rewrite fmap_app, NoDup_app in Hnd.
  destruct Hnd as (_ & Hdis & _).
  assert (forall r, r ∈ rs1 -> 0 <= tr_id r /\ tr_id r ∈ L /\ tr_id r ∉ ids rs2) as H1.
  { intros r Hr. destruct (Hall r) as [HL _]; [set_solver|]. splits; [by apply Hpos|done|]. apply Hdis. by apply list_elem_of_fmap_2. }
  assert (forall r, r ∈ rs2 -> 0 <= tr_id r /\ tr_id r ∈ L /\ tr_id r ∉ ids rs1) as H2.
  { intros r Hr. destruct (Hall r) as [HL _]; [set_solver|]. splits; [by apply Hpos|done|]. intros Hin. eapply Hdis; [exact Hin|]. by apply list_elem_of_fmap_2. }
  assert (forall r, r ∈ rs2 -> bs1 !! Z.to_nat (tr_id r) = bs !! Z.to_nat (tr_id r)) as Hsame.
  { intros r Hr. destruct (H2 r Hr) as (? & _ & ?). by apply O1. }
  split.
  - intros r b Hr Hb. apply elem_of_app in Hr as [Hr|Hr].
    + destruct (H1 r Hr) as (H0 & HL & Hn). destruct (D1 r b Hr Hb) as (Hb1 & e & He & Hor). rewrite O2 by done. split; [done|].
      exists e. rewrite E2; [split; [done|]; destruct Hor as [[? ?]|?]; [left; set_solver|by right]|].
      intros r2 b2 Hr2 Hb2 Heq. destruct (H2 r2 Hr2) as (_ & HL2 & Hn2). rewrite Hsame in Hb2 by done.
      apply Hn2. rewrite <- (Hd (tr_id r) (tr_id r2) b b2 HL HL2 Hb Hb2 Heq). by apply list_elem_of_fmap_2.
    + apply (D2 r b Hr). by rewrite Hsame.
  - intros i Hi Hn. unfold ids in *. rewrite fmap_app, not_elem_of_app in Hn. rewrite O2, O1; tauto.
  - intros x Hx. rewrite E2, E1; [done| |].
    + intros r b Hr. apply Hx. set_solver.
    + intros r b Hr. rewrite Hsame by done. apply Hx. set_solver.
Qed.

Lemma gc_response_spec s c p q F U fl L r rs qs :
  tx_core s c p q F U fl L (r :: rs) qs -> tr_id r ∈ L -> tr_status r <> NETIF_RSP_NULL ->
  exists s' F', gc_response (wrap32 c) s = Ok s' /\ tx s' = tx s /\ F ⊆ F' /\ gc_frame s s' /\
    taken_back (tx_buffers s) (tx_buffers s') (net_grants s) (net_grants s') [r] F' /\
    tx_core s' (c + 1) p q F' U (tr_id r :: fl) (L ∖ {[tr_id r]}) rs qs.
Proof.
  intros Hc Hid Hst. pose proof N_tx. destruct Hc as [Hrs Hqs Hsz Hs Hb [Hfl Hfll] Hids Hw Hw2 Hg Hd Hf Hu].
  destruct (Hids _ Hid) as [Hr Hrf]. destruct (Hg _ Hid) as (b & Hbi & Href & Hnf). unfold gc_response. simpl in Hrs.
  rewrite (ring_get_window _ _ _ _ Hs Hw). cbn [mbind res_bind tx_response]. destruct (Z.eqb_spec (tr_status r) NETIF_RSP_NULL) as [?|_]; [done|].
  rewrite (elem_eq _ (tr_id r) b) by (done || lia). cbn [mbind res_bind].
  destruct (end_law _ F (gref b) Hf Href ltac:(set_solver)) as (v & g & Hend & Hor).
  destruct (end_entry_law _ F (gref b) v g Hf Href ltac:(set_solver) Hend) as (Hoth & e & He & Hev). rewrite Hend. cbn [mbind res_bind].
  assert (exists F1, free_set g F1 /\ F ⊆ F1 /\ F1 ⊆ {[gref b]} ∪ F) as (F1 & Hf1 & Hsub1 & Hsub2).
  { destruct Hor as [[_ ?]|[_ ?]]; eexists; (split; [done|]); set_solver. }
  assert (Gnttab.ge_flags e = 0 /\ gref b ∈ F1 \/ busy e = true) as Hev1.
  { destruct (v =? 0); [by right|left]. destruct Hev as [? Hf2]. split; [done|]. rewrite (free_unique _ _ _ Hf1 Hf2). set_solver. }
  rewrite set_elem_eq by lia. unfold add_id_to_freelist. rewrite (wrap_small 16) by lia.
  destruct (fl_push_spec (tx_freelist s) fl (tr_id r) Hfl) as (l & -> & Hl & Hfl'); [lia|done|]. cbn [mbind res_bind].
  eexists _, F1. splits; [done|done|done|split; [|done|done]; split; try done; simpl; by apply tx_pages_insert with b| |].
  { split; simpl.
    - intros r' b' Hr' Hb'. apply list_elem_of_singleton in Hr' as ->. unfold tx_buf in Hbi. rewrite Hbi in Hb'. injection Hb' as <-.
      split; [apply list_lookup_insert_eq; lia|by exists e].
    - intros i Hi Hn. apply list_lookup_insert_ne. unfold ids in Hn. rewrite list_elem_of_singleton in Hn. lia.
    - intros x Hx. apply Hoth. apply (Hx r b); [by left|done]. }
  assert (forall j, j ∈ L ∖ {[tr_id r]} -> j <> tr_id r /\ j ∈ L /\ 0 < j < N /\ j ∉ fl) as Hin.
  { intros j [Hj Hne]%elem_of_difference. destruct (Hids j Hj). splits; try done; set_solver. }
  assert (forall j b', j ∈ L -> j <> tr_id r -> tx_buf s j = Some b' -> gref b' <> gref b) as Hne.
  { intros j b' Hj Hnj Hbj E. apply Hnj. by eapply Hd. }
  split; simpl; try done; try lia.
  - rewrite size_difference by set_solver. rewrite size_singleton. assert (size L <> 0%nat); [|lia].
    intros E. apply size_empty_inv in E. set_solver.
  - by rewrite length_insert.
  - split; [done|lia].
  - intros j Hj. destruct (Hin j Hj) as (? & ? & ? & ?). split; [done|]. set_solver.
  - apply window_cons in Hw as [_ Hw]. done.
  - intros j Hj. destruct (Hin j Hj) as (Hnj & HjL & Hjr & _). destruct (Hg j HjL) as (b' & Hbj & ? & Hnb). exists b'.
    pose proof (Hne j b' HjL Hnj Hbj) as Hnr. unfold tx_buf. simpl. rewrite list_lookup_insert_ne by lia.
    splits; [done|done|]. clear -Hnb Hnr Hsub2. set_solver.
  - intros j k b1 b2 Hj Hk. destruct (Hin j Hj) as (Hnj & HjL & Hjr & _), (Hin k Hk) as (Hnk & HkL & Hkr & _).
    unfold tx_buf. simpl. rewrite !list_lookup_insert_ne by lia. by apply Hd.
  - clear -Hsub2 Hnf Hu. set_solver.
Qed.

Lemma gc_loop_spec rs : forall s c p q F U fl L qs,
  tx_core s c p q F U fl L rs qs -> answers L rs ->
  exists s' F', gc_loop (length rs) (wrap32 c) s = Ok s' /\ tx s' = tx s /\ F ⊆ F' /\ gc_frame s s' /\
    taken_back (tx_buffers s) (tx_buffers s') (net_grants s) (net_grants s') rs F' /\
    tx_core s' p p q F' U (reverse (ids rs) ++ fl) (L ∖ list_to_set (ids rs)) [] qs.
Proof.
  induction rs as [|r rs IH]; intros s c p q F U fl L qs Hc Ha; cbn [length gc_loop].
  - assert (p = c) as -> by (rewrite (tc_rsp _ _ _ _ _ _ _ _ _ _ Hc); simpl; lia). exists s, F. splits; try done; [apply taken_none|].
    simpl. by replace (L ∖ ∅) with L by set_solver.
  - pose proof Ha as Hall. apply answers_cons in Ha as (Hid & Hst & Ha).
    destruct (gc_response_spec _ _ _ _ _ _ _ _ _ _ _ Hc Hid Hst) as (s1 & F1 & -> & Ht1 & HF1 & Hfr1 & Htb1 & Hc1). cbn [mbind res_bind]. rewrite wrap_add_l.
    destruct (IH _ _ _ _ _ _ _ _ _ Hc1 Ha) as (s' & F' & -> & Ht & HF & Hfr & Htb & Hc').
    exists s', F'. splits; [done|congruence|by etrans|by etrans| |].
    { eapply (taken_app _ _ _ _ _ _ [r] rs); [by eapply core_distinct|exact Hall|exact Htb1|done|exact Htb]. }
    unfold ids. rewrite fmap_cons, reverse_cons, <- app_assoc. cbn [app list_to_set].
    replace (L ∖ ({[tr_id r]} ∪ list_to_set (tr_id <$> rs))) with (L ∖ {[tr_id r]} ∖ list_to_set (ids rs)) by (unfold ids; set_solver). done.
Qed.

Definition tx_batch (b : list netif_tx_response) : sring tx_entry -> sring tx_entry := deliver (ETxRsp <$> b).

Lemma tx_deliver_spec s c p q F U fl L rs qs b : tx_core s c p q F U fl L rs qs -> tx_at s c p q -> (length b <= length qs)%nat ->
  let s' := set_tx (set_shared (tx_batch b (shared (tx s))) (tx s)) s in
  tx_core s' c (p + Z.of_nat (length b)) q F U fl L (rs ++ b) (drop (length b) qs) /\ tx_at s' c (p + Z.of_nat (length b)) q.
Proof.
  intros Hc (H1 & H2 & H3) Hn s'. pose proof (tx_full _ _ _ _ _ _ _ _ _ _ Hc) as Hq. destruct Hc as [Hrs Hqs Hsz Hs Hb Hfl Hids Hw Hw2 Hg Hd Hf Hu].
  destruct (deliver_spec (ETxRsp <$> b) (shared (tx s)) c p (ETxRsp <$> rs)) as (D1 & D2 & D3 & D4 & D5); rewrite ?length_app, ?length_fmap in *; try done; try lia.
  rewrite <- fmap_app in D3. split; [|by split].
  split; simpl; try done; try (rewrite ?length_app, ?length_drop; lia).
  rewrite fmap_drop. intros i x Hx. unfold tx_batch. pose proof (lookup_lt_Some _ _ _ Hx) as Hlt. rewrite length_drop, length_fmap in Hlt.
  rewrite D5 by lia. by apply (window_drop _ _ _ (length b) Hw2).
Qed.

Lemma tx_remote_batch bs s : tx_remote (tx_batch <$> bs) s =
  (tx_batch <$> tail bs, set_tx (set_shared (tx_batch (default [] (head bs)) (shared (tx s))) (tx s)) s).
Proof. destruct bs; [|done]. by destruct s as [[? ? ?] ? ? ? ? ? ? ? ? ? ? ? ? ? ? ?]. Qed.

Lemma gc_frame_set_tx r s : gc_frame s (set_tx r s).
Proof. by split. Qed.

(** The free identifiers and the outstanding ones after the answers [rs]. *)
Abbreviation freed rs fl := (reverse (ids rs) ++ fl).
Abbreviation left_of L rs := (L ∖ list_to_set (ids rs)).

Lemma gc_round_spec s c p q F U fl L rs qs b0 b1 w :
  tx_core s c p q F U fl L rs qs -> tx_at s c p q -> answers L (rs ++ b0) -> (length (b0 ++ b1) <= length qs)%nat ->
  let c' := p + Z.of_nat (length b0) in
  exists s2 F', F ⊆ F' /\ gc_frame s s2 /\
    taken_back (tx_buffers s) (tx_buffers s2) (net_grants s) (net_grants s2) (rs ++ b0) F' /\ tx_at s2 c' (c' + Z.of_nat (length b1)) q /\
    tx_core s2 c' (c' + Z.of_nat (length b1)) q F' U (freed (rs ++ b0) fl) (left_of L (rs ++ b0)) b1 (drop (length b1) (drop (length b0) qs)) /\
    forall fuel, gc_rounds (S fuel) (tx_batch b0 :: tx_batch b1 :: w) s = (if bool_decide (b1 = []) then Ok s2 else gc_rounds fuel w s2).
Proof.
  intros Hc Hat Ha Hn c'. rewrite length_app in Hn. pose proof N_tx.
  destruct (tx_deliver_spec s c p q F U fl L rs qs b0 Hc Hat) as [Hc1 Hat1]; [lia|]. fold c' in Hc1, Hat1. set (s1 := set_tx _ _) in *.
  destruct (gc_loop_spec _ _ _ _ _ _ _ _ _ _ Hc1 Ha) as (s2 & F2 & E2 & Htx & HF & Hfr2 & Htb & Hc2).
  set (s3 := set_tx (FRing (req_prod_pvt (tx s2)) (wrap32 c')
    (set_rsp_event (wrap32 (wrap32 c' + Z.shiftr (wrap32 (req_prod (shared (tx s2)) - wrap32 c')) 1 + 1)) (shared (tx s2)))) s2).
  assert (tx_core s3 c' c' q F2 U (freed (rs ++ b0) fl) (left_of L (rs ++ b0)) [] (drop (length b0) qs)) as Hc3 by (destruct Hc2; by split).
  destruct Hat1 as (A1 & A2 & A3).
  assert (tx_at s3 c' c' q) as Hat3 by (unfold tx_at, s3; simpl; rewrite Htx; by splits).
  destruct (tx_deliver_spec s3 _ _ _ _ _ _ _ _ _ b1 Hc3 Hat3) as [Hc4 Hat4]; [rewrite length_drop; lia|]. set (s4 := set_tx _ s3) in *.
  exists s4, F2. splits; try done.
  { rewrite (gc_frame_set_tx _ s : gc_frame s s1), Hfr2. by split. }
  intros fuel. cbn [gc_rounds tx_remote]. fold s1. pose proof (tc_rsp _ _ _ _ _ _ _ _ _ _ Hc1) as Hl. pose proof (tx_full _ _ _ _ _ _ _ _ _ _ Hc1).
  pose proof (tc_req _ _ _ _ _ _ _ _ _ _ Hc1) as Hq1. rewrite length_drop in Hq1.
  rewrite A1, A2, wrap_sub, (wrap_small 32 (c' - c)) by lia. replace (Z.to_nat (c' - c)) with (length (rs ++ b0)) by lia.
  rewrite E2. cbn [mbind res_bind]. fold s3. fold s4. destruct Hat4 as (_ & -> & _). case_bool_decide as Eb.
  - rewrite Eb, Z.add_0_r, Z.eqb_refl. done.
  - destruct (Z.eqb_spec (wrap32 c') (wrap32 (c' + Z.of_nat (length b1)))) as [E|_]; [|done].
    exfalso. apply Eb, length_zero_iff_nil. apply mod_inj in E; lia.
Qed.

Lemma freed_app rs rs' fl : freed (rs ++ rs') fl = freed rs' (freed rs fl).
Proof. unfold ids. by rewrite fmap_app, reverse_app, app_assoc. Qed.

Lemma left_app (L : gset Z) rs rs' : left_of L (rs ++ rs') = left_of (left_of L rs) rs'.
Proof. unfold ids. rewrite fmap_app, list_to_set_app_L. set_solver. Qed.

Lemma gc_rounds_spec fuel : forall bs s c p q F U fl L rs qs before last,
  tx_core s c p q F U fl L rs qs -> tx_at s c p q -> split_passes rs bs = (before, last) ->
  answers L (before ++ last) -> c + Z.of_nat (length (before ++ last)) <= q -> (length bs < fuel)%nat ->
  let all := before ++ last in let c' := c + Z.of_nat (length all) in
  exists s' F', gc_rounds fuel (tx_batch <$> bs) s = Ok s' /\ F ⊆ F' /\ gc_frame s s' /\
    taken_back (tx_buffers s) (tx_buffers s') (net_grants s) (net_grants s') all F' /\ tx_at s' c' c' q /\
    tx_core s' c' c' q F' U (freed all fl) (left_of L all) [] (drop (length all - length rs) qs).
Proof.
  induction fuel as [|fuel IH]; intros bs s c p q F U fl L rs qs before last Hc Hat Hsp Ha Hn Hf all c'; [lia|].
  assert (gc_rounds (S fuel) (tx_batch <$> bs) s =
    gc_rounds (S fuel) (tx_batch (default [] (head bs)) :: tx_batch (default [] (head (tail bs))) :: (tx_batch <$> tail (tail bs))) s) as ->.
  { cbn [gc_rounds]. rewrite tx_remote_batch. cbn [tx_remote]. destruct (gc_loop _ _ _) as [s1| |]; [|done..].
    cbn [mbind res_bind]. by rewrite tx_remote_batch. }
  pose proof (tc_rsp _ _ _ _ _ _ _ _ _ _ Hc) as Hp. pose proof (tc_req _ _ _ _ _ _ _ _ _ _ Hc) as Hq.
  rewrite split_passes_unfold in Hsp. cbv zeta in Hsp. set (b0 := default [] (head bs)) in *. set (b1 := default [] (head (tail bs))) in *.
  destruct (bool_decide (b1 = [])) eqn:Eb.
  - apply bool_decide_eq_true in Eb. injection Hsp as <- <-. cbn [app] in Ha, Hn, all.
    destruct (gc_round_spec s c p q F U fl L rs qs b0 b1 (tx_batch <$> tail (tail bs)) Hc Hat Ha) as (s2 & F' & HF & Hfr & Htb & Hat2 & Hc2 & E).
    { rewrite Eb, app_nil_r. rewrite length_app in Hn. lia. }
    rewrite E, Eb, bool_decide_eq_true_2 by done. rewrite Eb, Z.add_0_r in Hc2, Hat2.
    assert (c' = p + Z.of_nat (length b0)) as -> by (unfold c', all; rewrite length_app; lia). exists s2, F'. splits; try done.
    unfold all. rewrite length_app. by replace (length rs + length b0 - length rs)%nat with (length b0) by lia.
  - destruct (split_passes b1 (tail (tail bs))) as [bf ls] eqn:Es. simpl in Hsp. injection Hsp as <- <-.
    assert (length (tail (tail bs)) < fuel)%nat as Hf'.
    { apply bool_decide_eq_false in Eb. destruct bs as [|? [|? ?]]; [by destruct Eb..|]. simpl in *. lia. }
    assert (length b1 <= length (bf ++ ls))%nat as Hb1 by (eapply split_passes_carry; exact Es).
    assert (all = (rs ++ b0) ++ (bf ++ ls)) as Eall by (unfold all; by rewrite !app_assoc).
    rewrite <- (app_assoc (rs ++ b0)) in Ha. pose proof Ha as Hall. rewrite answers_app in Ha. destruct Ha as [Ha1 Ha2].
    rewrite <- (app_assoc (rs ++ b0)), !length_app in Hn. rewrite length_app in Hb1.
    destruct (gc_round_spec s c p q F U fl L rs qs b0 b1 (tx_batch <$> tail (tail bs)) Hc Hat Ha1) as (s2 & F' & HF & Hfr & Htb & Hat2 & Hc2 & E).
    { rewrite length_app. lia. }
    rewrite E, Eb. destruct (IH _ _ _ _ _ _ _ _ _ _ _ _ _ Hc2 Hat2 Es Ha2) as (s' & F2 & -> & HF2 & Hfr' & Htb' & Hat' & Hc'); [rewrite length_app; lia|done|].
    exists s', F2. rewrite drop_drop, drop_drop in Hc'.
    assert (c' = p + Z.of_nat (length b0) + Z.of_nat (length (bf ++ ls))) as -> by (unfold c'; rewrite Eall, !length_app; lia).
    splits; [done|by etrans|by etrans| |done|].
    { rewrite Eall. eapply taken_app; [by eapply core_distinct|exact Hall|exact Htb|done|exact Htb']. }
    rewrite Eall, freed_app, left_app. eapply tx_core_eq; [exact Hc'|]. f_equal. rewrite !length_app. lia.
Qed.

(** C16: [network_tx_buf_gc] takes back the buffers of all packets the back end has answered,
    in whatever order and however many arrive while it works: their identifiers are free
    again; the access of each one's grant is ended - its entry in the grant table is cleared
    and the reference free, unless the back end is using the entry - and the reference of the
    buffer reset; the other buffers, entries and packets are untouched.  It returns when an
    answer does not come with each look at the index. *)
Theorem network_tx_gc_completes fuel bs s c q F U fl L qs before last :
  tx_core s c c q F U fl L [] qs -> tx_at s c c q -> nstate s = NET_READY -> split_passes [] bs = (before, last) ->
  answers L (before ++ last) -> (length (before ++ last) <= length qs)%nat -> (length bs < fuel)%nat ->
  let all := before ++ last in let c' := c + Z.of_nat (length all) in
  exists s' F', network_tx_buf_gc fuel (tx_batch <$> bs) s = Ok s' /\ F ⊆ F' /\ gc_frame s s' /\
    taken_back (tx_buffers s) (tx_buffers s') (net_grants s) (net_grants s') all F' /\ tx_at s' c' c' q /\
    tx_core s' c' c' q F' U (reverse (ids all) ++ fl) (L ∖ list_to_set (ids all)) [] (drop (length all) qs).
Proof.
  intros Hc Hat Hst Hsp Ha Hn Hf all c'. unfold network_tx_buf_gc. rewrite Hst, bool_decide_eq_true_2 by done. cbn [negb].
  destruct (gc_rounds_spec fuel bs s c c q F U fl L [] qs before last Hc Hat Hsp Ha) as (s' & F' & E & HF & Hfr & Htb & Hat' & Hc'); [|done|].
  { pose proof (tc_req _ _ _ _ _ _ _ _ _ _ Hc). lia. }
  rewrite Nat.sub_0_r in Hc'. by exists s', F'.
Qed.

(** ** Sending a packet *)

Context (virt_to_mfn : Z -> Z).

(** [r] is granted for the page at [va], for reading and writing, to domain 0; no other entry changes. *)
Definition granted_page (va r : Z) (g g' : G) : Prop :=
  ref_entry g' r = Some (Gnttab.Grant (permit 0) 0 (wrap32 (virt_to_mfn va))) /\ forall x, x <> r -> ref_entry g' x = ref_entry g x.

Lemma push_tx_grants s : net_grants (push_tx s) = net_grants s.
Proof. unfold push_tx. destruct (RING_PUSH_REQUESTS_AND_CHECK_NOTIFY (tx s)) as [notify r]. by destruct notify. Qed.

Lemma netfront_xmit_step data len s c p q F U i fl L rs qs b :
  tx_core s c p q F U (i :: fl) L rs qs -> tx_at s c p q -> nstate s = NET_READY -> 0 <= len <= PAGE_SIZE -> F <> ∅ -> tx_buf s i = Some b ->
  exists s' r, guk_netfront_xmit virt_to_mfn data len s = Ok s' /\ r ∈ F /\ granted_page (page b) r (net_grants s) (net_grants s') /\
    tx_core s' c p (q + 1) (F ∖ {[r]}) U fl ({[i]} ∪ L) rs (qs ++ [TxReq r 0 0 i len]) /\ tx_at s' c p (q + 1) /\ tx_frame s s' /\
    req_prod (shared (tx s')) = wrap32 (q + 1) /\ tx_buf s' i = Some (Buf (page b) r) /\ mem s' = copy_mem (page b) data len (mem s) /\
    exists note, net_log s' = net_log s ++ note /\ (note = [] \/ note = [NetNotify (net_evtchn s)]).
Proof.
  intros Hc (A1 & A2 & A3) Hst Hlen HF Hbi. pose proof N_tx. destruct (tx_room _ _ _ _ _ _ _ _ _ _ _ Hc) as (Hi & _ & Hq).
  pose proof (tc_slots _ _ _ _ _ _ _ _ _ _ Hc) as Hs. pose proof (tc_bufs _ _ _ _ _ _ _ _ _ _ Hc) as Hb.
  destruct (tc_list _ _ _ _ _ _ _ _ _ _ Hc) as [Hfl Hfll]. unfold guk_netfront_xmit, get_id_from_freelist.
  destruct (fl_pop_spec _ _ Hfl) as (l & -> & Hl & Hfl'); [lia|]. cbn [head default from_option id mbind res_bind tail] in *.
  unfold tx_buf in Hbi. rewrite (elem_eq _ i b) by (done || lia). cbn [mbind res_bind nstate set_tx_pool].
  rewrite Hst, bool_decide_eq_true_2 by done. cbn [negb]. unfold PAGE_SIZE in *. destruct (Z.ltb_spec len 0) as [?|_]; [lia|]. destruct (Z.ltb_spec 4096 len) as [?|_]; [lia|]. cbn [orb mbind res_bind net_grants set_mem set_tx_pool].
  destruct (grant_law (net_grants s) F 0 (virt_to_mfn (page b)) 0 (tc_free _ _ _ _ _ _ _ _ _ _ Hc) HF) as (r & g & Hgr & Hr & Hf').
  pose proof (grant_entry_law _ _ _ _ _ _ _ (tc_free _ _ _ _ _ _ _ _ _ _ Hc) Hgr) as Hent. rewrite Hgr.
  cbn [mbind res_bind tx_buffers set_mem set_tx_pool]. rewrite set_elem_eq by lia. cbn [mbind res_bind tx set_mem set_tx_pool].
  rewrite A3, (ring_put_pos _ _ _ Hs), wrap_add_l, (wrap_small 16) by lia. cbn [mbind res_bind]. set (s1 := set_tx _ _).
  assert (tx_core s1 c p (q + 1) (F ∖ {[r]}) U fl ({[i]} ∪ L) rs (qs ++ [TxReq r 0 0 i len])) as Hc1.
  { apply (tx_core_submit s s1 c p q F U i fl L rs qs b r l len Hc); try done. lia. }
  assert (tx_at s1 c p (q + 1)) as Hat1 by (by splits).
  destruct (push_tx_spec s1 _ _ _ _ _ _ _ _ _ Hc1 Hat1) as (P1 & P2 & P3 & P4 & P5 & P6 & note & P7 & P8).
  exists (push_tx s1), r. splits; try done.
  - unfold granted_page. by rewrite push_tx_grants.
  - rewrite <- P4. split; try done. by apply tx_pages_insert with b.
  - unfold tx_buf. rewrite P5. apply list_lookup_insert_eq. lia.
  - by exists note.
Qed.


(** The copy leaves the page, whatever buffer it is. *)
Lemma xmit_overrun data len s c p q F U fl L rs qs :
  tx_core s c p q F U fl L rs qs -> nstate s = NET_READY -> (0 <=? len) && (len <=? PAGE_SIZE) = false ->
  guk_netfront_xmit virt_to_mfn data len s = Bug BAD_ACCESS.
Proof.
  intros Hc Hst Hlen. pose proof N_tx. pose proof (tc_bufs _ _ _ _ _ _ _ _ _ _ Hc) as Hb.
  destruct (tc_list _ _ _ _ _ _ _ _ _ _ Hc) as [Hfl Hfll]. unfold guk_netfront_xmit, get_id_from_freelist.
  destruct (fl_pop_spec _ _ Hfl) as (l & -> & _); [lia|]. cbn [mbind res_bind].
  assert (0 <= default 0 (head fl) < N) as Hi.
  { destruct Hfl as (_ & _ & Hall). destruct fl as [|i fl]; simpl; [lia|]. apply Forall_cons in Hall as [? _]. lia. }
  rewrite (elem_nth (tx_buffers (set_tx_pool _ _ _)) _ (Buf 0 0)) by (simpl; lia). cbn [mbind res_bind nstate set_tx_pool].
  rewrite Hst, bool_decide_eq_true_2 by done. cbn [negb].
  assert ((len <? 0) || (PAGE_SIZE <? len) = true) as ->; [|done].
  destruct (Z.leb_spec 0 len), (Z.leb_spec len PAGE_SIZE), (Z.ltb_spec len 0), (Z.ltb_spec PAGE_SIZE len); try done; lia.
Qed.

(** C17: [guk_netfront_xmit] of at most one page sends the packet when a buffer and a grant are
    free: it copies the packet to the page of the first free buffer, grants that page - the
    entry of the fresh reference in the grant table has its frame, and no other entry changes -
    and hands the back end a request for it, without touching the requests and the answers that
    are on the ring; while a buffer is free the ring is not full.  A packet longer than a page
    (or of negative length) overruns the page of the buffer. *)
Theorem netfront_xmit_sends data len s c p q F U i fl L rs qs b :
  tx_core s c p q F U (i :: fl) L rs qs -> tx_at s c p q -> nstate s = NET_READY -> F <> ∅ -> tx_buf s i = Some b ->
  if (0 <=? len) && (len <=? PAGE_SIZE) then
    exists s' r note, guk_netfront_xmit virt_to_mfn data len s = Ok s' /\ r ∈ F /\ granted_page (page b) r (net_grants s) (net_grants s') /\
      tx_core s' c p (q + 1) (F ∖ {[r]}) U fl ({[i]} ∪ L) rs (qs ++ [TxReq r 0 0 i len]) /\ tx_at s' c p (q + 1) /\
      req_prod (shared (tx s')) = wrap32 (q + 1) /\ tx_frame s s' /\ tx_buf s' i = Some (Buf (page b) r) /\
      (forall k, 0 <= k < len -> mem s' (page b + k) = mem s (data + k)) /\
      (forall a, ~ page b <= a < page b + len -> mem s' a = mem s a) /\
      net_log s' = net_log s ++ note /\ (note = [] \/ note = [NetNotify (net_evtchn s)])
  else guk_netfront_xmit virt_to_mfn data len s = Bug BAD_ACCESS.
Proof.
  intros Hc Hat Hst HF Hb. destruct ((0 <=? len) && (len <=? PAGE_SIZE)) eqn:Hlen.
  - apply andb_prop in Hlen as [H0%Z.leb_le H1%Z.leb_le].
    destruct (netfront_xmit_step data len s c p q F U i fl L rs qs b Hc Hat Hst ltac:(lia) HF Hb) as (s' & r & E & Hr & Hg & Hc' & Hat' & Hfr & Hq & Hb' & Hm & note & Hlog & Hnote).
    exists s', r, note. splits; try done; [intros k Hk; rewrite Hm; by apply copy_mem_in|intros a Ha; rewrite Hm; by apply copy_mem_out].
  - by apply (xmit_overrun data len s c p q F U (i :: fl) L rs qs).
Qed.
End Tx.
