(* ===== verification/NetProto.v ===== *)
(** The network front end as a whole: its start, and what holds after any sequence of packets
    sent and interrupts handled; the ends of its free lists. *)
From S2P Require Import Prelude FreeList Grants SharedRing NetFront NetProps.
From stdpp Require Import options.

Section Start.
Context {G : Type}.

(** A buffer takes at most one page. *)
Lemma alloc_buffer_drop fresh b : exists b' k, alloc_buffer fresh b = (b', drop k fresh) /\ (k <= 1)%nat.
Proof.
  unfold alloc_buffer, alloc_page. destruct (page b =? 0); [|by exists b, 0%nat; split; [|lia]].
  destruct fresh as [|x fresh]; [by exists (Buf 0 (gref b)), 0%nat; split; [|lia]|]. by exists (Buf x (gref b)), 1%nat.
Qed.

Lemma alloc_pool_from n : forall i fresh fl l bs,
  free_list fl l -> Forall (fun j => j < i) l -> 0 < i -> length fl = length bs -> Z.of_nat (length bs) = i + Z.of_nat n -> i + Z.of_nat n <= 2 ^ 16 ->
  exists fresh' fl' bs', alloc_pool n i fresh fl bs = Ok (fresh', fl', bs') /\ free_list fl' (rev (seqZ i (Z.of_nat n)) ++ l) /\
    length fl' = length bs /\ length bs' = length bs /\ exists k, (k <= n)%nat /\ fresh' = drop k fresh.
Proof.
  induction n as [|n IH]; intros i fresh fl l bs Hf Hlt Hi Hl Hb Hw; cbn [alloc_pool]; [exists fresh, fl, bs; splits; try done; by exists 0%nat|].
  unfold add_id_to_freelist. rewrite (wrap_small 16) by lia.
  destruct (fl_push_spec fl l i Hf) as (fl1 & -> & Hl1 & Hf1); [lia| |].
  { intros Hin. rewrite Forall_forall in Hlt. specialize (Hlt _ Hin). lia. }
  cbn [mbind res_bind]. rewrite (elem_nth bs i (Buf 0 0)) by lia. cbn [mbind res_bind].
  destruct (alloc_buffer_drop fresh (nth (Z.to_nat i) bs (Buf 0 0))) as (b & k1 & -> & Hk1). rewrite set_elem_eq by lia. cbn [mbind res_bind].
  destruct (IH (i + 1) (drop k1 fresh) fl1 (i :: l) (<[Z.to_nat i := b]> bs)) as (fresh' & fl' & bs' & -> & Hf' & Hl' & Hb' & k & Hk & ->);
    rewrite ?length_insert in *; [done| |lia|congruence|lia|lia|].
  { constructor; [lia|]. eapply Forall_impl; [exact Hlt|]. cbv beta. lia. }
  rewrite drop_drop. eexists _, fl', bs'. splits; [done| |done|done|by exists (k1 + k)%nat; split; [lia|]]. rewrite (seqZ_cons i (Z.of_nat (S n))) by lia. simpl rev. rewrite <- app_assoc.
  replace (Z.succ i) with (i + 1) by lia. by replace (Z.pred (Z.of_nat (S n))) with (Z.of_nat n) by lia.
Qed.

(** The identifiers from 1 on are free afterwards, whatever the list held. *)
Lemma alloc_pool_spec n fresh fl bs :
  (0 < n)%nat -> length fl = n -> length bs = n -> Z.of_nat n <= 2 ^ 16 ->
  exists fresh' fl' bs', alloc_pool n 0 fresh fl bs = Ok (fresh', fl', bs') /\ free_list fl' (rev (seqZ 1 (Z.of_nat n - 1))) /\
    length fl' = n /\ length bs' = n /\ exists k, (k <= n)%nat /\ fresh' = drop k fresh.
Proof.
  intros Hn Hl Hb Hw. destruct n as [|n]; [lia|]. cbn [alloc_pool]. unfold add_id_to_freelist. change (wrap 16 0) with 0.
  destruct (fl_push_0 fl) as (fl1 & -> & Hl1 & Hf1); [lia|]. cbn [mbind res_bind].
  rewrite (elem_nth bs 0 (Buf 0 0)) by lia. cbn [mbind res_bind]. destruct (alloc_buffer_drop fresh (nth (Z.to_nat 0) bs (Buf 0 0))) as (b & k1 & -> & Hk1).
  rewrite set_elem_eq by lia. cbn [mbind res_bind].
  destruct (alloc_pool_from n (0 + 1) (drop k1 fresh) fl1 [] (<[Z.to_nat 0 := b]> bs)) as (fresh' & fl' & bs' & -> & Hf' & Hl' & Hb' & k & Hk & ->);
    rewrite ?length_insert in *; [done|constructor|lia|congruence|lia|lia|].
  rewrite app_nil_r in Hf'. rewrite drop_drop. eexists _, fl', bs'. splits; [done| |congruence|congruence|by exists (k1 + k)%nat; split; [lia|]].
  by replace (Z.of_nat (S n) - 1) with (Z.of_nat n) by lia.
Qed.
End Start.

Section System.
Unset Default Proof Using.
Context {G : Type} `{!GrantTable G} {RT : ring_macros tx_entry} {RTO : ring_macros_ok RT} {RR : ring_macros rx_entry} {RRO : ring_macros_ok RR} {NI : netif}.
Context (virt_to_mfn : Z -> Z).
Implicit Types s : net G.

(** The references of the packets that are out, and of the receive buffers that are. *)
Definition tx_refs s (L : gset Z) : gset Z := set_map (fun i => gref (nth (Z.to_nat i) (tx_buffers s) (Buf 0 0))) L.
Definition rx_refs s (c q : Z) : gset Z :=
  list_to_set ((fun j => gref (nth (pos rx_entry j) (rx_buffers s) (Buf 0 0))) <$> seqZ c (q - c)).

Lemma elem_of_tx_refs s L r : (forall i, i ∈ L -> exists b, tx_buf s i = Some b) ->
  r ∈ tx_refs s L <-> exists i b, i ∈ L /\ tx_buf s i = Some b /\ gref b = r.
Proof.
  intros HL. unfold tx_refs. rewrite elem_of_map. split.
  - intros (i & -> & Hi). destruct (HL i Hi) as [b Hb]. exists i, b. splits; [done|done|]. f_equal. symmetry. by apply nth_lookup_Some.
  - intros (i & b & Hi & Hb & <-). exists i. split; [|done]. f_equal. symmetry. by apply nth_lookup_Some.
Qed.

Lemma elem_of_rx_refs s c q r : (forall j, c <= j < q -> exists b, rx_buffers s !! pos rx_entry j = Some b) ->
  r ∈ rx_refs s c q <-> exists j b, c <= j < q /\ rx_buffers s !! pos rx_entry j = Some b /\ gref b = r.
Proof.
  intros HL. unfold rx_refs. rewrite elem_of_list_to_set, list_elem_of_fmap. setoid_rewrite elem_of_seqZ. split.
  - intros (j & -> & Hj). destruct (HL j) as [b Hb]; [lia|]. exists j, b. splits; [lia|lia|done|]. f_equal. symmetry. by apply nth_lookup_Some.
  - intros (j & b & Hj & Hb & <-). exists j. split; [|lia]. f_equal. symmetry. by apply nth_lookup_Some.
Qed.

(** Both directions, between two uses of the lock: the receive buffers of the positions [c] to
    [q] and the packets [L], in the positions [c2] to [q2], are the back end's. *)
Record net_ok (s : net G) (c q c2 q2 : Z) (F : gset Z) (fl : list Z) (L : gset Z) (qs : list netif_tx_request) : Prop := {
  no_ready : nstate s = NET_READY;
  no_rx : rx_core s c c q F (tx_refs s L) [];
  no_rx_at : rx_at s c c q;
  no_tx : tx_core s c2 c2 q2 F (rx_refs s c q) fl L [] qs;
  no_tx_at : tx_at s c2 c2 q2;
  no_ids : list_to_set fl ∪ L = (list_to_set (seqZ 1 (RING_SIZE tx_entry - 1)) : gset Z)
}.

(** After an operation on one direction, the other has the new references to avoid. *)
Lemma tx_transfer s s' (c q : Z) c2 q2 c' q' F F' U fl L qs :
  tx_core s c2 c2 q2 F U fl L [] qs -> rx_frame s s' -> rx_core s' c' c' q' F' (tx_refs s L) [] ->
  tx_core s' c2 c2 q2 F' (rx_refs s' c' q') fl L [] qs /\ tx_refs s' L = tx_refs s L.
Proof.
  intros [Hrs Hqs Hsz Hs Hb Hfl Hids Hw Hw2 Hg Hd Hf Hu] [E1 _ _ E2 E3 _ _] Hr.
  assert (forall i, tx_buf s' i = tx_buf s i) as Eb by (intros i; unfold tx_buf; by rewrite E3).
  assert (forall j, c' <= j < q' -> exists b, rx_buffers s' !! pos rx_entry j = Some b) as HX.
  { intros j Hj. destruct (rc_grant _ _ _ _ _ _ _ Hr j Hj) as (b & ? & _). by exists b. }
  split; [|unfold tx_refs; by rewrite E3].
  split; rewrite ?E1, ?E2, ?E3; try done.
  - intros i Hi. rewrite Eb. destruct (Hg i Hi) as (b & Hbi & Href & _). exists b. splits; [done|done|].
    assert (gref b ∈ tx_refs s L) as Hin.
    { apply elem_of_tx_refs; [|by exists i, b]. intros k Hk. destruct (Hg k Hk) as (bk & ? & _). by exists bk. }
    rewrite not_elem_of_union. split; [pose proof (rc_others _ _ _ _ _ _ _ Hr) as Hd'; intros HF'; by apply (Hd' _ HF')|].
    rewrite elem_of_rx_refs by done. intros (j & b2 & Hj & Hb2 & E). destruct (rc_grant _ _ _ _ _ _ _ Hr j Hj) as (b3 & Hb3 & _ & Hn).
    rewrite Hb2 in Hb3. injection Hb3 as <-. apply Hn. rewrite E. by apply elem_of_union_r.
  - intros i j b b'. rewrite !Eb. apply Hd.
  - apply Hr.
  - intros r HrF HrX. apply elem_of_rx_refs in HrX; [|done]. destruct HrX as (j & b2 & Hj & Hb2 & E).
    destruct (rc_grant _ _ _ _ _ _ _ Hr j Hj) as (b3 & Hb3 & _ & Hn).
    rewrite Hb2 in Hb3. injection Hb3 as <-. apply Hn. rewrite E. by apply elem_of_union_l.
Qed.

Lemma rx_transfer s s' c q p2 c2 q2 F F' U fl L rs qs :
  rx_core s c c q F U [] -> tx_frame s s' -> tx_core s' c2 p2 q2 F' (rx_refs s c q) fl L rs qs ->
  rx_core s' c c q F' (tx_refs s' L) [] /\ rx_refs s' c q = rx_refs s c q.
Proof.
  intros [Ho Hl Hs Hb Hfl Hw Hg Hd Hp Hf Hu] [E1 _ _ E2 E3 _] Hr.
  assert (forall i, i ∈ L -> exists b, tx_buf s' i = Some b) as HX.
  { intros i Hi. destruct (tc_grant _ _ _ _ _ _ _ _ _ _ Hr i Hi) as (b & ? & _). by exists b. }
  split; [|unfold rx_refs; by rewrite E3]. split; rewrite ?E1, ?E2, ?E3; try done.
  - intros j Hj. destruct (Hg j Hj) as (b & Hbj & Href & _). exists b. splits; [done|done|].
    assert (gref b ∈ rx_refs s c q) as Hin.
    { apply elem_of_rx_refs; [|by exists j, b]. intros k Hk. destruct (Hg k Hk) as (bk & ? & _). by exists bk. }
    rewrite not_elem_of_union. split; [pose proof (tc_others _ _ _ _ _ _ _ _ _ _ Hr) as Hd'; intros HF'; by apply (Hd' _ HF')|].
    rewrite elem_of_tx_refs by done. intros (i & b2 & Hi & Hb2 & E). destruct (tc_grant _ _ _ _ _ _ _ _ _ _ Hr i Hi) as (b3 & Hb3 & _ & Hn).
    rewrite Hb2 in Hb3. injection Hb3 as <-. apply Hn. rewrite E. by apply elem_of_union_r.
  - apply Hr.
  - intros r HrF HrX. apply elem_of_tx_refs in HrX; [|done]. destruct HrX as (i & b2 & Hi & Hb2 & E).
    destruct (tc_grant _ _ _ _ _ _ _ _ _ _ Hr i Hi) as (b3 & Hb3 & _ & Hn).
    rewrite Hb2 in Hb3. injection Hb3 as <-. apply Hn. rewrite E. by apply elem_of_union_l.
Qed.

(** ** The start *)

Local Abbreviation NT := (RING_SIZE tx_entry).
Local Abbreviation NR := (RING_SIZE rx_entry).

(** The state when the front end starts: the arrays have their sizes, nothing else matters. *)
Record net_boot (s : net G) (fresh : list Z) (F : gset Z) : Prop := {
  nb_rx_list : length (rx_freelist s) = Z.to_nat NR;
  nb_tx_list : length (tx_freelist s) = Z.to_nat NT;
  nb_rx_bufs : length (rx_buffers s) = Z.to_nat NR;
  nb_tx_bufs : length (tx_buffers s) = Z.to_nat NT;
  nb_rings : rings s = false;
  nb_fresh : Forall (fun p => p <> 0) fresh /\ NT + NR + 2 <= Z.of_nat (length fresh);
  nb_free : free_set (net_grants s) F /\ NR + 2 <= Z.of_nat (size F)
}.

Lemma init_rx_loop_spec n : forall s i F,
  rx_core s 0 0 i F ∅ [] -> i + Z.of_nat n <= NR -> (n <= size F)%nat ->
  exists s' F', init_rx_loop virt_to_mfn n i s = Ok s' /\ rx_core s' 0 0 (i + Z.of_nat n) F' ∅ [] /\ rx_frame s s' /\
    rsp_cons (rx s') = rsp_cons (rx s) /\ rsp_prod (shared (rx s')) = rsp_prod (shared (rx s)).
Proof.
  induction n as [|n IH]; intros s i F Hc Hi HF; cbn [init_rx_loop].
  { exists s, F. rewrite Z.add_0_r. by splits. }
  pose proof (ring_size_bounds (A := rx_entry)) as [HN _]. pose proof (rc_order _ _ _ _ _ _ _ Hc).
  destruct (rx_post_spec virt_to_mfn s 0 0 i F ∅ [] Hc) as (s1 & r & E & Hr & Hc1 & Hfr & _ & H1 & _ & H2); [lia|intros ->; rewrite size_empty in HF; lia|].
  rewrite Z.mod_small, wrap_small in E by lia. rewrite E. cbn [mbind res_bind].
  destruct (IH s1 (i + 1) (F ∖ {[r]}) Hc1) as (s' & F' & -> & Hc' & Hfr' & H3 & H4); [lia| |].
  { rewrite size_difference by set_solver. rewrite size_singleton. lia. }
  exists s', F'. replace (i + Z.of_nat (S n)) with (i + 1 + Z.of_nat n) by lia. splits; [done|done|by etrans|congruence|congruence].
Qed.

Lemma alloc_rings_spec fresh (txs0 : sring tx_entry) (rxs0 : sring rx_entry) s F :
  rings s = false -> Forall (fun p => p <> 0) fresh -> (2 <= length fresh)%nat -> free_set (net_grants s) F -> (2 <= size F)%nat ->
  exists s' F', alloc_rings virt_to_mfn fresh txs0 rxs0 s = Ok s' /\ free_set (net_grants s') F' /\ (size F = size F' + 2)%nat /\
    tx s' = FRing 0 0 (SRing 0 1 0 1 (slots txs0)) /\ rx s' = FRing 0 0 (SRing 0 1 0 1 (slots rxs0)) /\
    tx_freelist s' = tx_freelist s /\ tx_buffers s' = tx_buffers s /\ rx_freelist s' = rx_freelist s /\ rx_buffers s' = rx_buffers s.
Proof.
  intros Hr Hall Hl HF Hsz. unfold alloc_rings. rewrite Hr. cbn [bug_on mbind res_bind].
  destruct fresh as [|a [|b fresh]]; [simpl in Hl; lia..|]. cbn [alloc_page].
  apply Forall_cons in Hall as [Ha Hall]. apply Forall_cons in Hall as [Hb _].
  destruct (Z.eqb_spec a 0); [done|]. destruct (Z.eqb_spec b 0); [done|]. cbn [orb mbind res_bind net_grants set_rx set_tx].
  destruct (grant_law (net_grants s) F 0 (virt_to_mfn a) 0 HF) as (t & g & -> & Ht & HF1); [intros ->; rewrite size_empty in Hsz; lia|]. cbn [mbind res_bind].
  assert (size (F ∖ {[t]}) = size F - 1)%nat as Hs1 by (rewrite size_difference, size_singleton by set_solver; done).
  destruct (grant_law g (F ∖ {[t]}) 0 (virt_to_mfn b) 0 HF1) as (u & g' & -> & Hu & HF2); [intros E; rewrite E, size_empty in Hs1; lia|]. cbn [mbind res_bind].
  eexists _, (F ∖ {[t]} ∖ {[u]}). splits; [done|done| | | |done|done|done|done].
  - rewrite (size_difference (F ∖ {[t]})), size_singleton by set_solver. lia.
  - simpl. by rewrite front_init, shared_init.
  - simpl. by rewrite front_init, shared_init.
Qed.

Lemma refs_none_rx s c : rx_refs s c c = ∅.
Proof. unfold rx_refs. by rewrite Z.sub_diag. Qed.

Lemma tx_refs_none s : tx_refs s ∅ = ∅.
Proof. unfold tx_refs. apply set_map_empty. Qed.

(** Nothing is sent yet. *)
Lemma tx_core_start s F fl : slots_ok (shared (tx s)) -> length (tx_buffers s) = Z.to_nat NT -> free_list (tx_freelist s) fl ->
  length (tx_freelist s) = Z.to_nat NT -> free_set (net_grants s) F -> tx_core s 0 0 0 F ∅ fl ∅ [] [].
Proof. intros. by split. Qed.

Lemma rx_core_start s F : slots_ok (shared (rx s)) -> length (rx_buffers s) = Z.to_nat NR -> length (rx_freelist s) = Z.to_nat NR ->
  free_set (net_grants s) F -> rx_core s 0 0 0 F ∅ [].
Proof. pose proof (ring_size_bounds (A := rx_entry)) as [HN _]. intros. split; try done; try lia; intros; lia. Qed.

(** The start ends with the whole receive ring at the back end and all identifiers but 0 free. *)
Lemma init_netfront_ok fresh txs0 rxs0 port local s F :
  net_boot s fresh F -> slots_ok txs0 -> slots_ok rxs0 ->
  exists s1 s2 F', init_netfront_begin virt_to_mfn fresh txs0 rxs0 port local s = Ok s1 /\ init_netfront_connected virt_to_mfn s1 = Ok s2 /\
    net_ok s2 0 NR 0 0 F' (rev (seqZ 1 (NT - 1))) ∅ [].
Proof.
  intros [H1 H2 H3 H4 H5 [H6 H7] [H8 H9]] Htx Hrx. pose proof (ring_size_bounds (A := rx_entry)) as [HNR _]. pose proof (ring_size_bounds (A := tx_entry)) as [HNT _].
  unfold init_netfront_begin, alloc_buffers.
  destruct (alloc_pool_spec (Z.to_nat NT) fresh (tx_freelist s) (tx_buffers s)) as (f1 & fl1 & bs1 & -> & Hf1 & Hl1 & Hb1 & k1 & Hk1 & ->); [lia..|].
  cbn [mbind res_bind rx_freelist rx_buffers set_tx_pool].
  destruct (alloc_pool_spec (Z.to_nat NR) (drop k1 fresh) (rx_freelist s) (rx_buffers s)) as (f2 & fl2 & bs2 & -> & Hf2 & Hl2 & Hb2 & k2 & Hk2 & ->); [lia..|].
  rewrite drop_drop. cbn [mbind res_bind]. set (sa := set_rx_pool _ _ _).
  destruct (alloc_rings_spec (drop (k1 + k2) fresh) txs0 rxs0 sa F H5) as (sb & F1 & -> & HF1 & Hsz & Etx & Erx & E1 & E2 & E3 & E4); [by apply Forall_drop|rewrite length_drop; lia|done|lia|].
  cbn [mbind res_bind]. set (s1 := set_ports port local sb). rewrite Z2Nat.id in Hf1 by lia.
  assert (rx_core s1 0 0 0 F1 ∅ []) as Hc1 by (apply rx_core_start; simpl; rewrite ?Erx, ?E3, ?E4; done).
  assert (tx_core s1 0 0 0 F1 ∅ (rev (seqZ 1 (NT - 1))) ∅ [] []) as Hx1 by (apply tx_core_start; simpl; rewrite ?Etx, ?E1, ?E2; done).
  destruct (init_rx_loop_spec (Z.to_nat NR) s1 0 F1 Hc1) as (s2 & F2 & E5 & Hc2 & Hfr2 & H10 & H11); [lia|lia|].
  rewrite Z.add_0_l, Z2Nat.id in Hc2 by lia. unfold init_netfront_connected, init_rx_buffers. exists s1. rewrite E5. cbn [mbind res_bind].
  set (s3 := set_rx (FRing NR (rsp_cons (rx s2)) (shared (rx s2))) s2).
  assert (rx_core s3 0 0 NR F2 ∅ []) as Hc3 by (destruct Hc2; by split).
  assert (rx_at s3 0 0 NR) as Hat3.
  { unfold rx_at. simpl. rewrite H10, H11. simpl. rewrite Erx. splits; try done. symmetry. apply wrap_small. lia. }
  destruct (push_rx_spec s3 0 0 NR F2 ∅ Hc3 Hat3) as (Hc4 & Hat4 & _ & Hfr4 & _).
  eexists _, F2. split; [done|]. split; [done|]. set (s5 := set_nstate _ _).
  assert (rx_core s5 0 0 NR F2 (tx_refs s1 ∅) []) as Hc5 by (rewrite tx_refs_none; destruct Hc4; by split).
  assert (rx_frame s1 (push_rx s3)) as Hfr by (rewrite Hfr2, <- Hfr4; by split).
  assert (tx_core s5 0 0 0 F2 (rx_refs s5 0 NR) (rev (seqZ 1 (NT - 1))) ∅ [] []) as Hx5.
  { destruct (tx_transfer s1 (push_rx s3) 0 0 0 0 0 NR F1 F2 ∅ (rev (seqZ 1 (NT - 1))) ∅ [] Hx1 Hfr) as [Hx _].
    - rewrite tx_refs_none. done.
    - destruct Hx. by split. }
  split; [done| |destruct Hat4 as (? & ? & ?); by splits|done| |].
  - by rewrite tx_refs_none in Hc5 |- *.
  - unfold tx_at, s5. simpl. rewrite (rf_tx _ _ Hfr). simpl. by rewrite Etx.
  - rewrite (rev_alt _ : rev (seqZ 1 (NT - 1)) = reverse (seqZ 1 (NT - 1))). apply set_eq. intros x.
    by rewrite union_empty_r_L, !elem_of_list_to_set, elem_of_reverse.
Qed.

(** ** Sequences of packets and interrupts

    [ns_out] are the identifiers of the packets that the back end has. *)
Record nsys := NSys { ns : net G; ns_out : gset Z }.

(** What the back end may do: answer packets it has, each once, and give received packets in
    the order of the buffers it has. *)
Definition legal (y : nsys) (bt : list (list netif_tx_response)) (br : list (list netif_rx_response)) : Prop :=
  let '(b1, l1) := split_passes [] bt in let '(b2, l2) := split_passes [] br in
  answers (ns_out y) (b1 ++ l1) /\ in_order (rsp_cons (rx (ns y))) (b2 ++ l2) /\
  Z.of_nat (length (b2 ++ l2)) <= wrap32 (req_prod_pvt (rx (ns y)) - rsp_cons (rx (ns y))).

Definition tx_answers (bt : list (list netif_tx_response)) : list netif_tx_response := (split_passes [] bt).1 ++ (split_passes [] bt).2.
Definition irq_fuel (bt : list (list netif_tx_response)) (br : list (list netif_rx_response)) : nat := S (length bt + length br).

Inductive net_step : nsys -> nsys -> Prop :=
| step_xmit y data len i fl F s' :
    0 <= len <= PAGE_SIZE -> get_id_from_freelist (tx_freelist (ns y)) = Ok (i, fl) -> i <> 0 -> free_set (net_grants (ns y)) F -> F <> ∅ ->
    guk_netfront_xmit virt_to_mfn data len (ns y) = Ok s' -> net_step y (NSys s' ({[i]} ∪ ns_out y))
| step_irq y bt br F s' :
    legal y bt br -> free_set (net_grants (ns y)) F -> (length (split_passes [] br).2 <= size F)%nat ->
    netfront_handler virt_to_mfn (irq_fuel bt br) (tx_batch <$> bt) (rx_batch <$> br) (ns y) = Ok s' ->
    net_step y (NSys s' (ns_out y ∖ list_to_set (ids (tx_answers bt)))).

Definition nsys_ok (y : nsys) (F : gset Z) (fl : list Z) : Prop :=
  exists c q c2 q2 qs, net_ok (ns y) c q c2 q2 F fl (ns_out y) qs.

Lemma xmit_ok y F i fl data len : nsys_ok y F (i :: fl) -> F <> ∅ -> 0 <= len <= PAGE_SIZE ->
  exists s' F', guk_netfront_xmit virt_to_mfn data len (ns y) = Ok s' /\ nsys_ok (NSys s' ({[i]} ∪ ns_out y)) F' fl.
Proof.
  intros (c & q & c2 & q2 & qs & [Hst Hrx Hrat Htx Htat Hids]) HF Hlen.
  destruct (tx_room _ _ _ _ _ _ _ _ _ _ _ Htx) as (Hi & _ & _).
  destruct (lookup_lt_is_Some_2 (tx_buffers (ns y)) (Z.to_nat i)) as [b Hb]; [rewrite (tc_bufs _ _ _ _ _ _ _ _ _ _ Htx); lia|].
  destruct (netfront_xmit_step virt_to_mfn data len _ _ _ _ _ _ _ _ _ _ _ b Htx Htat Hst Hlen HF Hb) as (s' & r & E & Hr & _ & Htx' & Htat' & Hfr & _).
  destruct (rx_transfer _ _ c q _ _ _ _ _ _ _ _ _ _ Hrx Hfr Htx') as [Hrx' Hrefs].
  exists s', (F ∖ {[r]}). split; [done|]. exists c, q, c2, (q2 + 1), (qs ++ [TxReq r 0 0 i len]).
  destruct Hfr as [E1 _ E2 _ _ _]. split; simpl; [by rewrite E2|done|unfold rx_at; by rewrite E1|by rewrite Hrefs|done|].
  rewrite <- Hids. simpl. set_solver.
Qed.

Lemma push_tx_keeps s : tx_buffers (push_tx s) = tx_buffers s /\ tx_freelist (push_tx s) = tx_freelist s /\
  slots (shared (tx (push_tx s))) = slots (shared (tx s)).
Proof.
  unfold push_tx. pose proof (push_law (tx s)) as Hpush. destruct (RING_PUSH_REQUESTS_AND_CHECK_NOTIFY (tx s)) as [notify r]. simpl in Hpush. subst r.
  by destruct notify.
Qed.

(** What a packet does that is sent with no identifier free: it goes out with identifier 0,
    whose buffer gets the grant, whatever packet that buffer already has, and the free list
    stays empty. *)
Record sent_with_0 (s s' : net G) (q r len : Z) : Prop := {
  sz_request : slots (shared (tx s')) !! pos tx_entry q = Some (ETxReq (TxReq r 0 0 0 len));
  sz_buffer b : tx_buf s 0 = Some b -> tx_buf s' 0 = Some (Buf (page b) r);
  sz_list : free_list (tx_freelist s') []
}.

Lemma xmit_exhausted y F data len c q c2 q2 qs : net_ok (ns y) c q c2 q2 F [] (ns_out y) qs -> F <> ∅ -> 0 <= len <= PAGE_SIZE ->
  exists s' r, guk_netfront_xmit virt_to_mfn data len (ns y) = Ok s' /\ r ∈ F /\ sent_with_0 (ns y) s' q2 r len.
Proof.
  intros [Hst _ _ Htx (A1 & A2 & A3) _] HF Hlen. pose proof (ring_size_bounds (A := tx_entry)) as [HN _].
  pose proof (tc_slots _ _ _ _ _ _ _ _ _ _ Htx) as Hs. pose proof (tc_bufs _ _ _ _ _ _ _ _ _ _ Htx) as Hb.
  destruct (tc_list _ _ _ _ _ _ _ _ _ _ Htx) as [Hfl Hfll]. unfold guk_netfront_xmit, get_id_from_freelist.
  destruct (fl_pop_spec _ _ Hfl) as (l & -> & Hl & Hfl'); [lia|]. cbn [head default from_option id mbind res_bind tail] in *.
  rewrite (elem_nth (tx_buffers (set_tx_pool _ _ _)) 0 (Buf 0 0)) by (simpl; lia). cbn [mbind res_bind nstate set_tx_pool tx_buffers].
  rewrite Hst, bool_decide_eq_true_2 by done. cbn [negb]. unfold PAGE_SIZE in *. destruct (Z.ltb_spec len 0) as [?|_]; [lia|]. destruct (Z.ltb_spec 4096 len) as [?|_]; [lia|]. cbn [orb mbind res_bind net_grants set_mem set_tx_pool].
  set (b := nth (Z.to_nat 0) (tx_buffers (ns y)) (Buf 0 0)).
  destruct (grant_law (net_grants (ns y)) F 0 (virt_to_mfn (page b)) 0 (tc_free _ _ _ _ _ _ _ _ _ _ Htx) HF) as (r & g & -> & Hr & _).
  cbn [mbind res_bind tx_buffers set_mem set_tx_pool]. rewrite set_elem_eq by lia. cbn [mbind res_bind tx set_mem set_tx_pool].
  rewrite A3, (ring_put_pos _ _ _ Hs), (wrap_small 16) by lia. cbn [mbind res_bind]. set (s1 := set_tx _ _).
  destruct (push_tx_keeps s1) as (E1 & E2 & E3). exists (push_tx s1), r. splits; [done|done|]. split.
  - rewrite E3. apply list_lookup_insert_eq. rewrite Hs. apply pos_lt.
  - intros b' Hb'. unfold tx_buf in *. rewrite E1. simpl. rewrite list_lookup_insert_eq by lia. unfold b. by rewrite (nth_lookup_Some _ _ _ _ Hb').
  - by rewrite E2.
Qed.

(** No grant is free for the packet: the kernel stops, whether an identifier is free or not. *)
Lemma xmit_no_grant y data len fl c q c2 q2 qs : net_ok (ns y) c q c2 q2 ∅ fl (ns_out y) qs -> 0 <= len <= PAGE_SIZE ->
  guk_netfront_xmit virt_to_mfn data len (ns y) = Bug BUG_ON.
Proof.
  intros [Hst _ _ Htx _ _] Hlen. pose proof (tc_bufs _ _ _ _ _ _ _ _ _ _ Htx) as Hb. pose proof (ring_size_bounds (A := tx_entry)) as [HN _].
  destruct (tc_list _ _ _ _ _ _ _ _ _ _ Htx) as [Hfl Hfll]. unfold guk_netfront_xmit, get_id_from_freelist.
  destruct (fl_pop_spec _ _ Hfl) as (l & -> & _); [lia|]. cbn [mbind res_bind].
  assert (0 <= default 0 (head fl) < NT) as Hi.
  { destruct Hfl as (_ & _ & Hall). destruct fl as [|i fl]; simpl; [lia|]. apply Forall_cons in Hall as [? _]. lia. }
  rewrite (elem_nth (tx_buffers (set_tx_pool _ _ _)) _ (Buf 0 0)) by (simpl; lia). cbn [mbind res_bind nstate set_tx_pool].
  rewrite Hst, bool_decide_eq_true_2 by done. cbn [negb]. unfold PAGE_SIZE in *. destruct (Z.ltb_spec len 0) as [?|_]; [lia|]. destruct (Z.ltb_spec 4096 len) as [?|_]; [lia|]. cbn [orb mbind res_bind net_grants set_mem set_tx_pool].
  by rewrite (grant_none _ _ _ _ (tc_free _ _ _ _ _ _ _ _ _ _ Htx)).
Qed.

Lemma in_order_wrap c rs : in_order (wrap32 c) rs -> in_order c rs.
Proof.
  pose proof (ring_size_bounds (A := rx_entry)) as [HN Hd].
  intros H i r Hr. destruct (H i r Hr) as (E & ? & ?). splits; [|done|done]. rewrite E, Zplus_mod, wrap_mod by (done || lia). by rewrite <- Zplus_mod.
Qed.

Lemma answers_short L rs : answers L rs -> (length rs <= size L)%nat.
Proof.
  intros [Hnd Hall]. rewrite <- (length_fmap tr_id rs), <- (size_list_to_set (C := gset Z)) by done. apply subseteq_size.
  intros x Hx. rewrite elem_of_list_to_set, list_elem_of_fmap in Hx. destruct Hx as (r & -> & Hr). rewrite Forall_forall in Hall. by apply Hall.
Qed.

Lemma handler_ok y F fl bt br : nsys_ok y F fl -> legal y bt br -> (length (split_passes [] br).2 <= size F)%nat ->
  exists s' F' fl', netfront_handler virt_to_mfn (irq_fuel bt br) (tx_batch <$> bt) (rx_batch <$> br) (ns y) = Ok s' /\
    nsys_ok (NSys s' (ns_out y ∖ list_to_set (ids (tx_answers bt)))) F' fl'.
Proof.
  intros (c & q & c2 & q2 & qs & [Hst Hrx Hrat Htx Htat Hids]) Hl HF. unfold legal, tx_answers in *.
  destruct (split_passes [] bt) as [b1 l1] eqn:Et. destruct (split_passes [] br) as [b2 l2] eqn:Er. simpl in HF |- *.
  destruct Hl as (Ha & Ho & Hn). destruct Hrat as (R1 & R2 & R3). rewrite R1 in Ho, Hn. rewrite R3, wrap_sub in Hn. apply in_order_wrap in Ho.
  pose proof (ring_size_bounds (A := rx_entry)) as [HN _]. pose proof (rc_order _ _ _ _ _ _ _ Hrx) as Hord. rewrite (wrap_small 32) in Hn by lia.
  destruct (gc_rounds_spec (irq_fuel bt br) bt (ns y) c2 c2 q2 F _ fl (ns_out y) [] qs b1 l1 Htx Htat Et Ha) as (s1 & F1 & E1 & HF1 & Hfr1 & _ & Htat1 & Htx1).
  { pose proof (answers_short _ _ Ha). pose proof (tc_size _ _ _ _ _ _ _ _ _ _ Htx). lia. }
  { unfold irq_fuel. lia. }
  unfold netfront_handler, network_tx_buf_gc. rewrite Hst, bool_decide_eq_true_2 by done. cbn [negb]. rewrite E1. cbn [mbind res_bind].
  destruct (rx_transfer _ _ c q _ _ _ _ _ _ _ _ _ _ Hrx (gf_frame _ _ Hfr1) Htx1) as [Hrx1 Hrefs1].
  destruct (gf_frame _ _ Hfr1) as [X1 _ X2 _ _ _].
  destruct (network_rx_step virt_to_mfn (irq_fuel bt br) br s1 c q F1 _ b2 l2 Hrx1) as (s' & F2 & note & E2 & Hrx2 & Hrat2 & _ & _ & Hfr2 & _);
    [unfold rx_at; by rewrite X1|by rewrite X2|apply subseteq_size in HF1; lia|done|done|lia|unfold irq_fuel; lia|].
  rewrite E2. rewrite <- Hrefs1 in Htx1. destruct (tx_transfer _ _ c q _ _ _ _ _ _ _ _ _ _ Htx1 Hfr2 Hrx2) as [Htx2 Hrefs2].
  eexists s', F2, _. split; [done|]. eexists _, _, _, q2, _. destruct Hfr2 as [Y1 _ Y2 _ _ _ _].
  split; simpl; [by rewrite Y2, X2|by rewrite Hrefs2|exact Hrat2|exact Htx2|unfold tx_at; by rewrite Y1|].
  rewrite <- Hids. rewrite list_to_set_app_L. destruct Ha as [_ Hall].
  assert (list_to_set (ids (b1 ++ l1)) ⊆ ns_out y) as Hsub.
  { intros x Hx. unfold ids in Hx. rewrite elem_of_list_to_set, list_elem_of_fmap in Hx. destruct Hx as (r & -> & Hr). rewrite Forall_forall in Hall. by apply Hall. }
  assert (list_to_set (reverse (ids (b1 ++ l1))) = (list_to_set (ids (b1 ++ l1)) : gset Z)) as -> by (apply set_eq; intros x; by rewrite !elem_of_list_to_set, elem_of_reverse).
  apply set_eq. intros x. rewrite !elem_of_union, elem_of_difference. destruct (decide (x ∈ (list_to_set (ids (b1 ++ l1)) : gset Z))); naive_solver.
Qed.

Lemma net_step_ok y y' F fl : nsys_ok y F fl -> net_step y y' -> exists F' fl', nsys_ok y' F' fl'.
Proof.
  intros Hy Hstep. pose proof Hy as (c & q & c2 & q2 & qs & [_ _ _ Htx _ _]).
  assert (forall F2, free_set (net_grants (ns y)) F2 -> F2 = F) as HF by (intros F2 H2; eapply free_unique; [exact H2|apply Htx]).
  inversion Hstep as [y0 data len i fl0 F0 s' Hlen Hid Hi Hfree Hne E|y0 bt br F0 s' Hl Hfree Hsz E]; subst; apply HF in Hfree as ->.
  - destruct (tc_list _ _ _ _ _ _ _ _ _ _ Htx) as [Hfl Hll]. pose proof (ring_size_bounds (A := tx_entry)) as [HN _].
    unfold get_id_from_freelist in Hid. destruct (fl_pop_spec _ _ Hfl) as (l & Hpop & _); [lia|]. rewrite Hpop in Hid. injection Hid as Hid _.
    destruct fl as [|i' fl]; simpl in Hid; [done|]. subst i'.
    destruct (xmit_ok y F i fl data len Hy Hne Hlen) as (s2 & F2 & E2 & Hok). rewrite E in E2. injection E2 as <-. by exists F2, fl.
  - destruct (handler_ok y F fl bt br Hy Hl Hsz) as (s2 & F2 & fl2 & E2 & Hok). rewrite E in E2. injection E2 as <-. by exists F2, fl2.
Qed.

(** What [guk_netfront_xmit] of [len] bytes does when the references [F] and the identifiers
    [fl] are free and [q] is the position of the next request. *)
Definition xmit_result (s : net G) (F : gset Z) (fl : list Z) (q data len : Z) : Prop :=
  if negb ((0 <=? len) && (len <=? PAGE_SIZE)) then guk_netfront_xmit virt_to_mfn data len s = Bug BAD_ACCESS
  else if bool_decide (F = ∅) then guk_netfront_xmit virt_to_mfn data len s = Bug BUG_ON
  else exists s' r, guk_netfront_xmit virt_to_mfn data len s = Ok s' /\ r ∈ F /\
    match fl with
    | [] => sent_with_0 s s' q r len
    | i :: _ => slots (shared (tx s')) !! pos tx_entry q = Some (ETxReq (TxReq r 0 0 i len)) /\ exists fl', fl = i :: fl' /\ free_list (tx_freelist s') fl'
    end.

Lemma xmit_result_ok y F fl c q c2 q2 qs data len : net_ok (ns y) c q c2 q2 F fl (ns_out y) qs -> xmit_result (ns y) F fl q2 data len.
Proof.
  intros Hok. unfold xmit_result. destruct ((0 <=? len) && (len <=? PAGE_SIZE)) eqn:Hlen; cbn [negb].
  2: { by eapply xmit_overrun; [apply (no_tx _ _ _ _ _ _ _ _ _ Hok)|apply (no_ready _ _ _ _ _ _ _ _ _ Hok)|]. }
  apply andb_prop in Hlen as [H0%Z.leb_le H1%Z.leb_le]. case_bool_decide as HF; [subst; by eapply xmit_no_grant|].
  destruct fl as [|i fl]; [by eapply xmit_exhausted|].
  destruct Hok as [Hst _ _ Htx Htat _]. destruct (tx_room _ _ _ _ _ _ _ _ _ _ _ Htx) as (Hi & _ & _).
  destruct (lookup_lt_is_Some_2 (tx_buffers (ns y)) (Z.to_nat i)) as [b Hb]; [rewrite (tc_bufs _ _ _ _ _ _ _ _ _ _ Htx); lia|].
  destruct (netfront_xmit_step virt_to_mfn data len _ _ _ _ _ _ _ _ _ _ _ b Htx Htat Hst ltac:(lia) HF Hb) as (s' & r & E & Hr & _ & Htx' & _).
  exists s', r. splits; [done|done| |exists fl; split; [done|by destruct (tc_list _ _ _ _ _ _ _ _ _ _ Htx')]].
  pose proof (tc_reqs _ _ _ _ _ _ _ _ _ _ Htx' (length qs) (ETxReq (TxReq r 0 0 i len))) as Hw.
  rewrite (tc_req _ _ _ _ _ _ _ _ _ _ Htx). apply Hw. rewrite fmap_app, lookup_app_r by (by rewrite length_fmap). by rewrite length_fmap, Nat.sub_diag.
Qed.

(** C14: the network front end is well behaved from its start on, after any sequence of
    interrupts and of packets of at most a page that are sent while an identifier and a grant
    are free: every identifier but 0 is free or out, every buffer that is out has a grant of
    its own which is not free, the rings never overflow, and the handler returns whatever the
    back end answers in the meantime, as long as a grant is free for each received packet of
    the last pass.  In each of these states [guk_netfront_xmit] sends the packet with the first
    free identifier; when no identifier is free it uses identifier 0; with no grant free, or a
    packet longer than a page, the kernel stops or overruns the page. *)
Theorem net_reachable_ok fresh txs0 rxs0 port local s F0 :
  net_boot s fresh F0 -> slots_ok txs0 -> slots_ok rxs0 ->
  exists s1 s2, init_netfront_begin virt_to_mfn fresh txs0 rxs0 port local s = Ok s1 /\ init_netfront_connected virt_to_mfn s1 = Ok s2 /\
    forall y, rtc net_step (NSys s2 ∅) y ->
    exists F fl c q c2 q2 qs, net_ok (ns y) c q c2 q2 F fl (ns_out y) qs /\
      (forall data len, xmit_result (ns y) F fl q2 data len) /\
      (forall bt br, legal y bt br -> (length (split_passes [] br).2 <= size F)%nat ->
        exists s', netfront_handler virt_to_mfn (irq_fuel bt br) (tx_batch <$> bt) (rx_batch <$> br) (ns y) = Ok s').
Proof.
  intros Hb Htx Hrx. destruct (init_netfront_ok fresh txs0 rxs0 port local s F0 Hb Htx Hrx) as (s1 & s2 & F' & E1 & E2 & Hok).
  exists s1, s2. split; [done|]. split; [done|]. intros y Hy.
  assert (exists F fl, nsys_ok y F fl) as (F & fl & Hn).
  { assert (exists F fl, nsys_ok (NSys s2 ∅) F fl) as Hinit by (eexists _, _, _, _, _, _, _; exact Hok).
    clear -Hy Hinit RTO RRO. induction Hy as [|y1 y2 y3 H12 _ IH]; [done|]. apply IH. destruct Hinit as (F & fl & Hn). by eapply net_step_ok. }
  pose proof Hn as (c & q & c2 & q2 & qs & Hok'). exists F, fl, c, q, c2, q2, qs. split; [done|]. split.
  - intros data len. by eapply xmit_result_ok.
  - intros bt br Hl Hsz. destruct (handler_ok y F fl bt br Hn Hl Hsz) as (s' & ? & ? & E & _). by exists s'.
Qed.
End System.

(** ** What goes wrong at the ends *)

Section Ends.
Context {G : Type} `{!GrantTable G} {RT : ring_macros tx_entry} {RR : ring_macros rx_entry} {NI : netif}.

(** A response with extra information, or a null one, is not consumed: the loop never ends. *)
Lemma rx_loop_stuck fuel cons rp nr (s : net G) e :
  cons <> rp -> ring_get cons (shared (rx s)) = Ok e ->
  Z.land (rr_flags (rx_response e)) NETRXF_extra_info <> 0 \/ rr_status (rx_response e) = NETIF_RSP_NULL ->
  rx_loop fuel cons rp nr s = Fuel.
Proof.
  intros Hne He Hor. induction fuel as [|fuel IH]; cbn [rx_loop]; destruct (Z.eqb_spec cons rp); try done.
  rewrite He. cbn [mbind res_bind]. destruct (Z.eqb_spec (Z.land (rr_flags (rx_response e)) NETRXF_extra_info) 0); cbn [negb]; [|done].
  destruct (Z.eqb_spec (rr_status (rx_response e)) NETIF_RSP_NULL); [done|]. naive_solver.
Qed.

(** With no identifier free, [get_id_from_freelist] gives out 0 as often as it is asked. *)
Lemma get_id_exhausted fl : free_list fl [] -> (0 < length fl)%nat ->
  exists fl', get_id_from_freelist fl = Ok (0, fl') /\ free_list fl' [] /\ length fl' = length fl.
Proof. intros Hf Hl. destruct (fl_pop_spec fl [] Hf Hl) as (fl' & E & Hl' & Hf'). by exists fl'. Qed.

(** When the packet of identifier 0 is taken back, all free identifiers are lost. *)
Lemma add_id_0_loses fl l : free_list fl l -> (0 < length fl)%nat ->
  exists fl', add_id_to_freelist 0 fl = Ok fl' /\ free_list fl' [].
Proof. intros _ Hl. destruct (fl_push_0 fl Hl) as (fl' & E & _ & Hf'). by exists fl'. Qed.

(** A packet sent while the front end is not ready takes its identifier with it. *)
Lemma xmit_not_ready_leaks (virt_to_mfn : Z -> Z) data len (s : net G) i fl :
  free_list (tx_freelist s) (i :: fl) -> length (tx_freelist s) = length (tx_buffers s) -> nstate s <> NET_READY ->
  exists s', guk_netfront_xmit virt_to_mfn data len s = Ok s' /\ free_list (tx_freelist s') fl /\ tx_buffers s' = tx_buffers s /\ tx s' = tx s.
Proof.
  intros Hf Hl Hs. pose proof Hf as (_ & _ & Hb). apply Forall_cons in Hb as [Hb _].
  unfold guk_netfront_xmit, get_id_from_freelist. destruct (fl_pop_spec _ _ Hf) as (l & -> & Hl' & Hf'); [lia|].
  cbn [head default from_option id mbind res_bind tail tx_buffers set_tx_pool] in *. rewrite (elem_nth (tx_buffers s) i (Buf 0 0)) by lia. cbn [mbind res_bind nstate set_tx_pool].
  rewrite bool_decide_eq_false_2 by done. cbn [negb]. eexists. by splits.
Qed.
End Ends.
