(* ===== verification/NetDemo.v ===== *)
(** A network front end with rings of eight slots and 24 grants, on concrete packets. *)
From S2P Require Import Prelude FreeList Gnttab Grants SharedRing NetFront NetProps NetProto.
From stdpp Require Import options.
Open Scope Z_scope.

Definition net_abi : grant_abi := GrantABI 512 1 2 4 8 16 4 8.

Lemma net_entries : 8 <= NR_GRANT_ENTRIES net_abi < 2 ^ 30.
Proof. by vm_compute. Qed.

Definition net_gnttab : gnttab := get (init_gnttab net_abi [100; 101; 102; 103] (boot_gnttab net_abi)) (boot_gnttab net_abi).
Definition net_refs : gset Z := list_to_set (rev (seqZ 8 24)).

#[export] Instance net_grants_ok : GrantTable gnttab := gnttab_grants net_abi net_entries (fun _ _ => []).
#[export] Instance net_tx_ring : ring_macros tx_entry := demo_macros tx_entry.
#[export] Instance net_tx_ring_ok : ring_macros_ok net_tx_ring := demo_macros_ok tx_entry.
#[export] Instance net_rx_ring : ring_macros rx_entry := demo_macros rx_entry.
#[export] Instance net_rx_ring_ok : ring_macros_ok net_rx_ring := demo_macros_ok rx_entry.
#[export] Instance net_abi_netif : netif := {|
  NETIF_RSP_NULL := 1; NETRXF_extra_info := 8; tx_req_as_rsp q := TxRsp (tq_gref q) 0; rx_req_as_rsp q := RxRsp (rq_id q) 0 0 0
|}.

Lemma net_gnttab_free : free_set net_gnttab net_refs.
Proof.
  destruct (init_gnttab_spec net_abi [100; 101; 102; 103]) as (g & Hg & Hf); [by vm_compute|].
  eexists. split; [|done]. unfold net_gnttab. rewrite Hg. exact Hf.
Qed.

Definition zero_tx : sring tx_entry := SRing 0 0 0 0 (replicate 8 (ETxReq (TxReq 0 0 0 0 0))).
Definition zero_rx : sring rx_entry := SRing 0 0 0 0 (replicate 8 (ERxReq (RxReq 0 0))).

(** The static variables at boot, with the byte [a mod 256] at address [a]. *)
Definition boot_net : net gnttab :=
  Net (FRing 0 0 zero_tx) (FRing 0 0 zero_rx) 0 0 0 0 false NET_UNKNOWN true (replicate 8 0) (replicate 8 0)
    (replicate 8 (Buf 0 0)) (replicate 8 (Buf 0 0)) net_gnttab (fun a => a mod 256) [].
Definition boot_pages : list Z := (fun i => i * 4096) <$> seqZ 16 20.

Definition mfn_of (va : Z) : Z := va / 4096.
Definition demo_begun : net gnttab := get (init_netfront_begin mfn_of boot_pages zero_tx zero_rx 21 4 boot_net) boot_net.
Definition demo_net : net gnttab := get (init_netfront_connected mfn_of demo_begun) boot_net.

Lemma boot_net_ok : net_boot boot_net boot_pages net_refs.
Proof.
  constructor; [done..| |split; [exact net_gnttab_free|by vm_compute]]. split; [|by vm_compute].
  apply Forall_forall. intros x Hx. apply list_elem_of_fmap in Hx as (i & -> & Hi%elem_of_seqZ). lia.
Qed.

Lemma zero_tx_ok : slots_ok zero_tx.
Proof. done. Qed.
Lemma zero_rx_ok : slots_ok zero_rx.
Proof. done. Qed.

Lemma demo_start : init_netfront_begin mfn_of boot_pages zero_tx zero_rx 21 4 boot_net = Ok demo_begun /\
  init_netfront_connected mfn_of demo_begun = Ok demo_net /\
  exists F, net_ok demo_net 0 8 0 0 F (rev (seqZ 1 7)) ∅ [].
Proof.
  destruct (init_netfront_ok mfn_of boot_pages zero_tx zero_rx 21 4 boot_net net_refs boot_net_ok zero_tx_ok zero_rx_ok) as (s1 & s2 & F & E1 & E2 & Hok).
  assert (demo_begun = s1) as E by (unfold demo_begun; rewrite E1; exact eq_refl).
  assert (demo_net = s2) as E' by (unfold demo_net; rewrite E, E2; exact eq_refl).
  rewrite E', E. split; [exact E1|]. split; [exact E2|]. exists F. exact Hok.
Qed.

(** ** A packet of 60 bytes from address 5000

    It is sent from the page of identifier 7; the back end answers it, together with two
    received packets, the second of which arrives during the handler. *)
Definition demo_sent : net gnttab := get (guk_netfront_xmit mfn_of 5000 60 demo_net) demo_net.
Definition demo_rx : list (list netif_rx_response) := [[RxRsp 0 2 0 60]; [RxRsp 1 2 0 98]].
Definition demo_handled : net gnttab :=
  get (netfront_handler mfn_of 4 (tx_batch <$> [[TxRsp 7 0]]) (rx_batch <$> demo_rx) demo_sent) demo_sent.

(** The second pass posts one buffer for two packets: the back end is left with seven. *)
Example demo_credit : net_log demo_handled = [NetNotify 21; NetNotify 21; NetifRx (24 * 4096 + 2) 60; NetifRx (25 * 4096 + 2) 98] /\
  req_prod_pvt (rx demo_handled) = 9 /\ rsp_cons (rx demo_handled) = 2.
Proof. by vm_compute. Qed.

(** The free references are as many as the table counts. *)
Lemma free_size (g : gnttab) F : free_set g F -> Z.of_nat (size F) = num_free g.
Proof. intros (l & (_ & Hnd & _ & Hn & _) & ->). rewrite size_list_to_set by done. done. Qed.

Lemma demo_net_ok : exists F, net_ok demo_net 0 8 0 0 F (rev (seqZ 1 7)) ∅ [] /\ size F = 14%nat.
Proof.
  destruct demo_start as (_ & _ & F & Hok). exists F. split; [exact Hok|].
  pose proof (free_size _ _ (tc_free _ _ _ _ _ _ _ _ _ _ (no_tx _ _ _ _ _ _ _ _ _ Hok))) as Hs.
  assert (num_free (net_grants demo_net) = 14) as En by (by vm_compute). lia.
Qed.

Lemma size_14 (F : gset Z) : size F = 14%nat -> F <> ∅.
Proof. intros H ->. rewrite size_empty in H. lia. Qed.

Lemma demo_buf7 : tx_buf demo_net 7 = Some (Buf (23 * 4096) 0).
Proof. by vm_compute. Qed.

Lemma demo_sent_ok : guk_netfront_xmit mfn_of 5000 60 demo_net = Ok demo_sent /\ exists F r,
  tx_core demo_sent 0 0 1 F (rx_refs demo_net 0 8) (rev (seqZ 1 6)) ({[7]} ∪ ∅) [] [TxReq r 0 0 7 60] /\ tx_at demo_sent 0 0 1 /\
  nstate demo_sent = NET_READY /\ rx demo_sent = rx demo_net /\ tx_buf demo_sent 7 = Some (Buf (23 * 4096) r).
Proof.
  destruct demo_net_ok as (F & [Hst _ _ Htx Htat _] & HF).
  destruct (netfront_xmit_step mfn_of 5000 60 demo_net 0 0 0 F _ 7 (rev (seqZ 1 6)) ∅ [] [] _ Htx Htat Hst ltac:(by split) (size_14 F HF) demo_buf7)
    as (s' & r & E & _ & _ & Hc & Hat & [E1 _ E2 _ _ _] & _ & Hb & _).
  assert (demo_sent = s') as -> by (unfold demo_sent; rewrite E; exact eq_refl).
  split; [exact E|]. exists (F ∖ {[r]}), r. split; [exact Hc|]. split; [exact Hat|]. split; [rewrite E2; exact Hst|]. split; [exact E1|exact Hb].
Qed.

Lemma netfront_xmit_sends_witness : exists s' r, guk_netfront_xmit mfn_of 5000 60 demo_net = Ok s' /\
  tx_buf s' 7 = Some (Buf (23 * 4096) r) /\ (forall k, 0 <= k < 60 -> mem s' (23 * 4096 + k) = mem demo_net (5000 + k)).
Proof.
  destruct demo_net_ok as (F & [Hst _ _ Htx Htat _] & HF).
  destruct (netfront_xmit_sends mfn_of 5000 60 demo_net 0 0 0 F _ 7 (rev (seqZ 1 6)) ∅ [] [] _ Htx Htat Hst (size_14 F HF) demo_buf7)
    as (s' & r & note & E & _ & _ & _ & _ & _ & _ & Hb & Hm & _).
  exists s', r. split; [exact E|]. split; [exact Hb|]. exact Hm.
Defined.

Lemma demo_answers : answers ({[7]} ∪ ∅) ([] ++ [TxRsp 7 0]).
Proof.
  split; [apply NoDup_singleton|]. constructor; [|constructor]. split; [apply elem_of_union_l, elem_of_singleton; exact eq_refl|discriminate].
Qed.

Lemma network_tx_gc_completes_witness : exists s' F', network_tx_buf_gc 2 (tx_batch <$> [[TxRsp 7 0]]) demo_sent = Ok s' /\
  tx_core s' 1 1 1 F' (rx_refs demo_net 0 8) (7 :: rev (seqZ 1 6)) (({[7]} ∪ ∅) ∖ list_to_set [7]) [] [] /\
  tx_buf s' 7 = Some (Buf (23 * 4096) GRANT_INVALID_REF).
Proof.
  destruct demo_sent_ok as (_ & F & r & Hc & Hat & Hst & _ & Hb).
  destruct (network_tx_gc_completes 2 [[TxRsp 7 0]] demo_sent 0 1 F _ (rev (seqZ 1 6)) ({[7]} ∪ ∅) _ [] [TxRsp 7 0] Hc Hat Hst eq_refl demo_answers)
    as (s' & F' & E & _ & _ & Htb & _ & Hc'); [apply le_n|apply le_n|].
  exists s', F'. split; [exact E|]. split; [exact Hc'|].
  exact (proj1 (tb_done _ _ _ _ _ _ Htb (TxRsp 7 0) _ (list_elem_of_here _ _) Hb)).
Defined.

Lemma demo_in_order : in_order 0 ([RxRsp 0 2 0 60] ++ [RxRsp 1 2 0 98]).
Proof. intros [|[|i]] x; intros [= <-]; (split; [exact eq_refl|]); (split; [exact eq_refl|]); discriminate. Qed.

Lemma network_rx_delivers_witness : exists s' F' note, network_rx mfn_of 3 (rx_batch <$> demo_rx) demo_net = Ok s' /\
  rx_core s' 2 2 9 F' (tx_refs demo_net ∅) [] /\
  net_log s' = net_log demo_net ++ [NetifRx (24 * 4096 + 2) 60; NetifRx (25 * 4096 + 2) 98] ++ note.
Proof.
  destruct demo_net_ok as (F & [Hst Hrx Hrat _ _ _] & HF).
  destruct (network_rx_delivers mfn_of 3 demo_rx demo_net 0 8 F _ [RxRsp 0 2 0 60] [RxRsp 1 2 0 98] Hrx Hrat Hst) as (s' & F' & note & E & Hc & _ & _ & _ & _ & Hlog & _);
    [rewrite HF; simpl; lia|exact eq_refl|exact demo_in_order|by vm_compute|apply le_n|].
  exists s', F', note. split; [exact E|]. split; [exact Hc|]. rewrite Hlog. do 2 f_equal.
Defined.

Definition demo_end : nsys (G := gnttab) := NSys demo_handled (({[7]} ∪ ∅) ∖ list_to_set (ids (tx_answers [[TxRsp 7 0]]))).

Lemma demo_steps : rtc (net_step mfn_of) (NSys demo_net ∅) demo_end.
Proof.
  unfold demo_end.
  destruct demo_net_ok as (F & [_ _ _ Htx _ _] & HF). destruct demo_sent_ok as (E & F1 & r & Hc1 & _ & _ & Hrx1 & _).
  apply (rtc_l _ _ (NSys demo_sent ({[7]} ∪ ∅))); [|apply rtc_once].
  - apply (step_xmit mfn_of (NSys demo_net ∅) 5000 60 7 (get (get_id_from_freelist (tx_freelist demo_net)) (0, [])).2 F demo_sent);
      [by split|by vm_compute|discriminate|apply Htx|by apply size_14|exact E].
  - pose proof (free_size _ _ (tc_free _ _ _ _ _ _ _ _ _ _ Hc1)) as Hs. assert (num_free (net_grants demo_sent) = 13) as En by (by vm_compute).
    pose proof (step_irq mfn_of (NSys demo_sent ({[7]} ∪ ∅)) [[TxRsp 7 0]] demo_rx F1 demo_handled) as H. cbn [ns ns_out] in H.
    apply H; clear H; [|apply Hc1| |].
    + split; [exact demo_answers|]. cbn [ns]. rewrite Hrx1. assert (rsp_cons (rx demo_net) = 0) as -> by (by vm_compute).
      split; [exact demo_in_order|]. assert (req_prod_pvt (rx demo_net) = 8) as -> by (by vm_compute). by vm_compute.
    + change (length (split_passes [] demo_rx).2) with 1%nat. lia.
    + apply ok_get. by vm_compute.
Qed.

Lemma net_reachable_ok_witness : exists F fl c q c2 q2 qs, 
  net_ok (ns demo_end) c q c2 q2 F fl (ns_out demo_end) qs.
Proof.
  destruct (net_reachable_ok mfn_of boot_pages zero_tx zero_rx 21 4 boot_net net_refs boot_net_ok zero_tx_ok zero_rx_ok) as (s1 & s2 & E1 & E2 & H).
  destruct demo_start as (E1' & E2' & _). rewrite E1' in E1. apply Ok_inj in E1. subst s1. rewrite E2' in E2. apply Ok_inj in E2. subst s2.
  destruct (H _ demo_steps) as (F & fl & c & q & c2 & q2 & qs & Hok & _). exists F, fl, c, q, c2, q2, qs.
  exact Hok.
Defined.
