(* ===== verification/FsFront.v ===== *)
(** The file system front end: fs-front.c, include/guk/fs.h.

    A call puts its arguments in the page of a free request, places a request on the ring,
    blocks, and reads the answer from the copy that the interrupt handler has made.  The
    pages are granted to the back end once, when the table of requests is made.  The
    structures of the interface are those of tools/fs-back/fsif.h.

    [schedule] is what happens from a call of schedule() until the thread runs again,
    [others] what the other processors do between two rounds of a loop that waits for them.
    Allocations by malloc and strdup succeed. *)
From Stdlib Require Import String.
From S2P Require Import Prelude CString Printf FreeList Grants SharedRing.
From stdpp Require Import options.
Open Scope Z_scope.
Open Scope list_scope.

(** ** The interface *)

Definition FS_PAGE_SIZE : Z := 4096.

Definition REQ_FILE_OPEN : Z := 1.
Definition REQ_FILE_CLOSE : Z := 2.
Definition REQ_FILE_READ : Z := 3.
Definition REQ_FILE_WRITE : Z := 4.
Definition REQ_FSTAT : Z := 5.
Definition REQ_FILE_TRUNCATE : Z := 6.
Definition REQ_REMOVE : Z := 7.
Definition REQ_RENAME : Z := 8.
Definition REQ_CREATE : Z := 9.
Definition REQ_DIR_LIST : Z := 10.
Definition REQ_CHMOD : Z := 11.
Definition REQ_FS_SPACE : Z := 12.
Definition REQ_FILE_SYNC : Z := 13.
Definition REQ_STAT : Z := 14.

(** The union [u] of a request. *)
Inductive fsif_args :=
| fopen (gref flags : Z)
| fclose (fd : Z)
| fread (fd gref len offset : Z)
| fwrite (fd gref len offset : Z)
| fstat (fd gref : Z)
| ftruncate (fd length : Z)
| fremove (gref : Z)
| frename (old_name_offset new_name_offset gref : Z)
| fcreate (directory mode gref : Z)
| flist (offset gref : Z)
| fchmod (fd mode : Z)
| fspace (gref : Z)
| fsync (fd : Z).

Record fsif_request := FsReq { type : Z; q_id : Z; u : fsif_args }.
Record fsif_response := FsRsp { rs_id : Z; ret_val : Z }.

(** A slot of the ring is a union. *)
Inductive fsif_entry := EReq (q : fsif_request) | ERsp (r : fsif_response).

Definition NR_FILES_MASK : Z := Z.ones 16.
Definition NR_FILES_SHIFT : Z := 0.
Definition HAS_MORE_FLAG : Z := Z.shiftl 1 48.

Record fsif_stat := Stat {
  st_mode : Z; st_size : Z; st_blksize : Z; st_blocks : Z; st_atim : Z; st_mtim : Z; st_ctim : Z
}.

(** A signed field of [n] bytes at offset [o] of a page, least byte first. *)
Definition word_at (o n : nat) (page : list Z) : Z :=
  sgn (8 * Z.of_nat n) (foldr (fun b v => b + 256 * v) 0 (take n (drop o page))).

Definition stat_of (page : list Z) : fsif_stat :=
  Stat (word_at 0 4 page) (word_at 4 4 page) (word_at 8 4 page) (word_at 12 4 page)
    (word_at 16 8 page) (word_at 24 8 page) (word_at 32 8 page).

(** ** The state *)

(** [struct fs_request]; [page] is the address of the page, [contents] its bytes. *)
Record fs_request := Request { page : Z; contents : list Z; gref : Z; thread : Z; shadow_rsp : fsif_response }.

Inductive fs_event :=
| Block (t : Z)           (** [block(t)] *)
| Wake (t : Z)            (** [wake(t)] *)
| Notify (port : Z).      (** [notify_remote_via_evtchn(port)] *)

(** [struct fs_import], with the flag [in_irq] of the handler, the preemption count of the
    thread that runs, and a trace of the calls of other components. *)
Record fs_import := Import {
  dom_id : Z; nr_entries : Z; local_port : Z;
  ring : front_ring fsif_entry;
  requests : list fs_request;
  freelist : list Z;
  in_irq : bool;
  preempt : Z;
  log : list fs_event
}.

Implicit Types s : fs_import.

Definition set_ring v s := Import (dom_id s) (nr_entries s) (local_port s) v (requests s) (freelist s) (in_irq s) (preempt s) (log s).
Definition set_requests v s := Import (dom_id s) (nr_entries s) (local_port s) (ring s) v (freelist s) (in_irq s) (preempt s) (log s).
Definition set_freelist v s := Import (dom_id s) (nr_entries s) (local_port s) (ring s) (requests s) v (in_irq s) (preempt s) (log s).
Definition set_in_irq v s := Import (dom_id s) (nr_entries s) (local_port s) (ring s) (requests s) (freelist s) v (preempt s) (log s).
Definition set_preempt v s := Import (dom_id s) (nr_entries s) (local_port s) (ring s) (requests s) (freelist s) (in_irq s) v (log s).
Definition add_log e s := Import (dom_id s) (nr_entries s) (local_port s) (ring s) (requests s) (freelist s) (in_irq s) (preempt s) (log s ++ [e]).
Definition preempt_inc s := set_preempt (preempt s + 1) s.
Definition preempt_dec s := set_preempt (preempt s - 1) s.

Definition set_page (v : list Z) (r : fs_request) : fs_request := Request (page r) v (gref r) (thread r) (shadow_rsp r).
Definition set_thread (t : Z) (r : fs_request) : fs_request := Request (page r) (contents r) (gref r) t (shadow_rsp r).
Definition set_shadow (v : fsif_response) (r : fs_request) : fs_request := Request (page r) (contents r) (gref r) (thread r) v.

Definition set_request (i : Z) (v : fs_request) s : res fs_import := l ← set_elem (requests s) i v; Ok (set_requests l s).

Section Code.
Context {R : ring_macros fsif_entry} (req_as_rsp : fsif_request -> fsif_response).
Context (schedule : fs_import -> res fs_import) (others : fs_import -> fs_import).

Definition as_response (e : fsif_entry) : fsif_response := match e with EReq q => req_as_rsp q | ERsp r => r end.

(** ** The ring *)

(** Unsigned arithmetic. *)
Definition FS_RING_FREE_REQUESTS (r : front_ring fsif_entry) (idx : Z) : Z :=
  wrap32 (RING_SIZE fsif_entry - wrap32 (idx - rsp_cons r)).

(** The rounds of the loop; nothing happens between the reading of [req_prod_pvt] and the
    exchange (FsProto has the loops of several processors in small steps). *)
Fixpoint reserve_loop (fuel : nat) s : res (Z * fs_import) :=
  let idx := req_prod_pvt (ring s) in
  if FS_RING_FREE_REQUESTS (ring s) idx =? 0 then
    match fuel with
    | O => Fuel
    | S fuel => s ← schedule (preempt_dec s); reserve_loop fuel (preempt_inc s)
    end
  else Ok (idx, set_ring (FRing (wrap32 (idx + 1)) (rsp_cons (ring s)) (shared (ring s))) s).

Definition reserve_fsif_request (fuel : nat) s : res (Z * fs_import) := reserve_loop fuel (preempt_inc s).

Fixpoint commit_loop (fuel : nat) (idx : Z) s : res fs_import :=
  if req_prod (shared (ring s)) =? idx then Ok (set_ring (set_shared (set_req_prod (wrap32 (idx + 1)) (shared (ring s))) (ring s)) s)
  else match fuel with O => Fuel | S fuel => commit_loop fuel idx (others s) end.

Definition commit_fsif_request (fuel : nat) (idx : Z) s : res fs_import :=
  s ← commit_loop fuel idx s;
  Ok (add_log (Notify (local_port s)) (preempt_dec s)).

(** ** The free identifiers; the entries are 16-bit *)

Definition add_id_to_freelist (id : Z) s : res fs_import := l ← fl_push (freelist s) id (wrap 16 id); Ok (set_freelist l s).

Definition get_id_from_freelist s : res (Z * fs_import) := '(id, l) ← fl_pop (freelist s); Ok (id, set_freelist l s).

(** ** What every operation does

    Up to the call of schedule(): [prepare] fills the page, [args] are the fields of the
    request. *)
Definition fs_submit (hold : bool) (fuel : nat) (current ty : Z) (prepare : Z -> list Z -> res (list Z)) (args : Z -> fsif_args) s
    : res (Z * fs_import) :=
  '(priv_req_id, s) ← get_id_from_freelist s;
  fsr ← elem (requests s) priv_req_id;
  c ← prepare (page fsr) (contents fsr);
  s ← set_request priv_req_id (set_page c (set_thread current fsr)) s;
  '(back_req_id, s) ← reserve_fsif_request fuel s;
  sr ← ring_put back_req_id (EReq (FsReq ty priv_req_id (args (gref fsr)))) (shared (ring s));
  let s := set_ring (set_shared sr (ring s)) s in
  let s := add_log (Block current) (if hold then preempt_inc s else s) in
  s ← commit_fsif_request fuel back_req_id s;
  Ok (priv_req_id, if hold then preempt_dec s else s).

(** The answer, after schedule(), and the page. *)
Definition fs_answer (priv_req_id : Z) s : res (Z * list Z) :=
  fsr ← elem (requests s) priv_req_id;
  Ok (ret_val (shadow_rsp fsr), contents fsr).

(** An operation that returns a value of [w] bits. *)
Definition fs_call (hold : bool) (fuel : nat) (w current ty : Z) (prepare : Z -> list Z -> res (list Z)) (args : Z -> fsif_args) s : res (Z * fs_import) :=
  '(i, s) ← fs_submit hold fuel current ty prepare args s;
  s ← schedule s;
  '(v, _) ← fs_answer i s;
  s ← add_id_to_freelist i s;
  Ok (sgn w v, s).

(** [sprintf(fsr->page, fmt, ...)] *)
Definition print_page (fmt : list Z) (args : list arg) (addr : Z) (c : list Z) : res (list Z) :=
  '(_, c, _) ← sprintf addr c fmt args; Ok c.
Definition keep_page (addr : Z) (c : list Z) : res (list Z) := Ok c.
Definition zero_page (addr : Z) (c : list Z) : res (list Z) := Ok (replicate (Z.to_nat FS_PAGE_SIZE) 0).

(** A string argument: its address and its bytes. *)
Definition name_page (file : Z * list Z) := print_page (cstr "%s") [AStr (file.1) (file.2)].

(** ** The operations *)

Definition guk_fs_open fuel current (file : Z * list Z) (flags : Z) s :=
  fs_call false fuel 32 current REQ_FILE_OPEN (name_page file) (fun g => fopen g flags) s.

Definition guk_fs_close fuel current (fd : Z) s :=
  fs_call false fuel 32 current REQ_FILE_CLOSE keep_page (fun _ => fclose fd) s.

Definition guk_fs_truncate fuel current (fd len : Z) s :=
  fs_call true fuel 32 current REQ_FILE_TRUNCATE keep_page (fun _ => ftruncate fd len) s.

Definition guk_fs_remove fuel current (file : Z * list Z) s :=
  fs_call false fuel 32 current REQ_REMOVE (name_page file) (fun g => fremove g) s.

Definition old_header : list Z := cstr "old: ".
Definition new_header : list Z := cstr "new: ".

Definition guk_fs_rename fuel current (old_file_name new_file_name : Z * list Z) s :=
  n ← strlen (old_file_name.2);
  oh ← strlen old_header;
  nh ← strlen new_header;
  fs_call false fuel 32 current REQ_RENAME
    (print_page (cstr "%s%s%c%s%s")
       [AStr 1 old_header; AStr (old_file_name.1) (old_file_name.2); ANum 0; AStr 1 new_header; AStr (new_file_name.1) (new_file_name.2)])
    (fun g => frename (wrap 16 oh) (wrap 16 (oh + n + nh + 1)) g) s.

Definition guk_fs_create fuel current (name : Z * list Z) (directory mode : Z) s :=
  fs_call false fuel 32 current REQ_CREATE (name_page name) (fun g => fcreate directory mode g) s.

Definition guk_fs_fchmod fuel current (fd mode : Z) s :=
  fs_call false fuel 32 current REQ_CHMOD keep_page (fun _ => fchmod fd mode) s.

Definition guk_fs_space fuel current (location : Z * list Z) s :=
  fs_call false fuel 64 current REQ_FS_SPACE (name_page location) (fun g => fspace g) s.

Definition guk_fs_sync fuel current (fd : Z) s :=
  fs_call false fuel 32 current REQ_FILE_SYNC keep_page (fun _ => fsync fd) s.

(** [memcpy(dst + at, src, n)] between the buffer of the caller and the page. *)
Definition copy_to (dst : list Z) (at_ : Z) (src : list Z) (n : Z) : res (list Z) :=
  if (0 <=? at_) && (0 <=? n) && (at_ + n <=? Z.of_nat (length dst)) && (n <=? Z.of_nat (length src)) then
    Ok (take (Z.to_nat at_) dst ++ take (Z.to_nat n) src ++ drop (Z.to_nat (at_ + n)) dst)
  else Bug BAD_ACCESS.

(** The loop of guk_fs_read: the result and the buffer. *)
Fixpoint read_loop (rounds fuel : nat) (current fd len chunk_offset buf_offset ret : Z) (buf : list Z) s : res (Z * list Z * fs_import) :=
  if 0 <? len then
    match rounds with
    | O => Fuel
    | S rounds =>
        let '(chunk, len) := if FS_PAGE_SIZE <? len then (FS_PAGE_SIZE, len - FS_PAGE_SIZE) else (len, 0) in
        '(i, s) ← fs_submit false fuel current REQ_FILE_READ zero_page (fun g => fread fd g chunk chunk_offset) s;
        s ← schedule s;
        '(v, p) ← fs_answer i s;
        let chunk_ret := sgn 64 v in
        let ret := sgn 64 (ret + chunk_ret) in
        buf ← (if 0 <? chunk_ret then copy_to buf buf_offset p chunk_ret else Ok buf);
        s ← add_id_to_freelist i s;
        if chunk_ret <=? 0 then Ok (ret, buf, s)
        else read_loop rounds fuel current fd len (chunk_offset + chunk) (buf_offset + chunk) ret buf s
    end
  else Ok (ret, buf, s).

Definition guk_fs_read (fuel : nat) (current fd : Z) (buf : list Z) (len offset : Z) s : res (Z * list Z * fs_import) :=
  read_loop (Z.to_nat (len / FS_PAGE_SIZE + 1)) fuel current fd len offset 0 0 buf s.

Definition guk_fs_write (fuel : nat) (current fd : Z) (buf : list Z) (len offset : Z) s : res (Z * fs_import) :=
  _ ← bug_on (FS_PAGE_SIZE <? len);
  '(i, s) ← fs_submit false fuel current REQ_FILE_WRITE
    (fun _ c => c ← copy_to c 0 buf len; Ok (take (Z.to_nat len) c ++ replicate (Z.to_nat (FS_PAGE_SIZE - len)) 0))
    (fun g => fwrite fd g len offset) s;
  s ← schedule s;
  '(v, _) ← fs_answer i s;
  s ← add_id_to_freelist i s;
  Ok (sgn 64 v, s).

(** The blocks get the mode. *)
Definition fs_xstat (fuel : nat) (current fd : Z) (file : Z * list Z) (req_type : Z) s : res (Z * fsif_stat * fs_import) :=
  '(i, s) ← fs_submit true fuel current req_type (if req_type =? REQ_FSTAT then zero_page else name_page file) (fun g => fstat fd g) s;
  s ← schedule s;
  '(v, p) ← fs_answer i s;
  let buf := stat_of p in
  let stat_buf := Stat (st_mode buf) (st_size buf) (st_blksize buf) (st_mode buf) (st_atim buf) (st_mtim buf) (st_ctim buf) in
  s ← add_id_to_freelist i s;
  Ok (sgn32 v, stat_buf, s).

Definition guk_fs_fstat fuel current fd s := fs_xstat fuel current fd (0, []) REQ_FSTAT s.
Definition guk_fs_stat fuel current file s := fs_xstat fuel current (-1) file REQ_STAT s.

(** The names in the page, one after the other. *)
Fixpoint list_names (n : nat) (p : list Z) : res (list (list Z)) :=
  match n with
  | O => Ok []
  | S n => k ← strlen p; l ← list_names n (drop (Z.to_nat k + 1) p); Ok (take (Z.to_nat k) p :: l)
  end.

(** The names ([None] for NULL), their number, and [has_more], which is not always set; without
    names the identifier is not put back. *)
Definition guk_fs_list (fuel : nat) (current : Z) (name : Z * list Z) (offset : Z) s
    : res (option (list (list Z)) * Z * option bool * fs_import) :=
  '(i, s) ← fs_submit false fuel current REQ_DIR_LIST (name_page name) (fun g => flist (wrap32 offset) g) s;
  s ← schedule s;
  '(v, p) ← fs_answer i s;
  let nr_files := Z.shiftr (Z.land v NR_FILES_MASK) NR_FILES_SHIFT in
  if nr_files <=? 0 then Ok (None, nr_files, None, s)
  else
    files ← list_names (Z.to_nat nr_files) p;
    s ← add_id_to_freelist i s;
    Ok (Some files, nr_files, Some (Z.land v HAS_MORE_FLAG =? HAS_MORE_FLAG), s).

(** ** The interrupt handler *)

(** The body of the loop. *)
Definition take_response (cons : Z) s : res fs_import :=
  e ← ring_get cons (shared (ring s));
  let rsp := as_response e in
  req ← elem (requests s) (rs_id rsp);
  s ← set_request (rs_id rsp) (set_shadow rsp req) s;
  Ok (add_log (Wake (thread req)) s).

Fixpoint take_responses (n : nat) (cons : Z) s : res fs_import :=
  match n with O => Ok s | S n => s ← take_response cons s; take_responses n (wrap32 (cons + 1)) s end.

(** What others do to the shared page before an access to its indices. *)
Definition remote_work (w : list (sring fsif_entry -> sring fsif_entry)) s : fs_import :=
  match w with [] => s | f :: _ => set_ring (set_shared (f (shared (ring s))) (ring s)) s end.

(** The passes of the handler: up to [req_prod]. *)
Fixpoint handler_passes (fuel : nat) (w : list (sring fsif_entry -> sring fsif_entry)) s : res fs_import :=
  match fuel with
  | O => Fuel
  | S fuel =>
      let s := remote_work w s in
      let rp := req_prod (shared (ring s)) in
      let cons := rsp_cons (ring s) in
      s ← take_responses (Z.to_nat (wrap32 (rp - cons))) cons s;
      let s := remote_work (tail w) (set_ring (FRing (req_prod_pvt (ring s)) rp (shared (ring s))) s) in
      let '(more, r) := RING_FINAL_CHECK_FOR_RESPONSES (ring s) in
      let s := set_ring r s in
      if more then handler_passes fuel (tail (tail w)) s else Ok s
  end.

Definition fsfront_handler (fuel : nat) (w : list (sring fsif_entry -> sring fsif_entry)) s : res fs_import :=
  _ ← bug_on (in_irq s);
  s ← handler_passes fuel w (set_in_irq true s);
  Ok (set_in_irq false s).
End Code.

(** ** The start *)

Section Start.
Context {G : Type} `{!GrantTable G} {R : ring_macros fsif_entry} (virt_to_mfn : Z -> Z).

(** The loop over the requests; [pages] are the pages that alloc_page returns, with what they
    hold, and the fields of the requests that are not set have any value. *)
Fixpoint alloc_loop (pages : list fs_request) (i : Z) (g : G) s : res (G * fs_import) :=
  match pages with
  | [] => Ok (g, s)
  | p :: pages =>
      '(r, g) ← grant_access (dom_id s) (virt_to_mfn (page p)) 0 g;
      s ← add_id_to_freelist i (set_requests (requests s ++ [Request (page p) (contents p) r (thread p) (shadow_rsp p)]) s);
      alloc_loop pages (i + 1) g s
  end.

Definition alloc_request_table (pages : list fs_request) (g : G) s : res (G * fs_import) :=
  _ ← bug_on (nr_entries s <=? 0);
  alloc_loop (take (Z.to_nat (nr_entries s)) pages) 0 g
    (set_requests [] (set_freelist (replicate (Z.to_nat (nr_entries s)) 0) s)).

(** init_fs_import up to the grant of the ring; the page of the ring is cleared, and its slots
    are [zero]. *)
Definition init_fs_import_begin (zero : list fsif_entry) (pages : list fs_request) (ring_page : Z) (g : G) s : res (Z * G * fs_import) :=
  let sring := SHARED_RING_INIT (SRing 0 0 0 0 zero) in
  let s := set_ring (FRONT_RING_INIT sring) s in
  let s := Import (dom_id s) (RING_SIZE fsif_entry) (local_port s) (ring s) (requests s) (freelist s) (in_irq s) (preempt s) (log s) in
  '(g, s) ← alloc_request_table pages g s;
  '(gnt_ref, g) ← grant_access (dom_id s) (virt_to_mfn ring_page) 0 g;
  Ok (gnt_ref, g, s).
End Start.
