(* ===== verification/FsProps.v ===== *)
(** What the file system front end does: a call gives the back end one request and returns its
    answer, the handler delivers answers, and a file is read through any number of pages. *)
From Stdlib Require Import String.
From S2P Require Import Prelude Bitmap CString Printf PrintfProps PrintText FreeList Grants SharedRing FsFront.
From stdpp Require Import options.
Open Scope Z_scope.
Open Scope list_scope.

Section Spec.
Set Default Proof Using "Type*".
Context {R : ring_macros fsif_entry} {RO : ring_macros_ok R} (req_as_rsp : fsif_request -> fsif_response).
Implicit Types s : fs_import.

Local Abbreviation N := (RING_SIZE fsif_entry).

(** No request is under way: the ring is empty at position [p], the free identifiers are [fl]. *)
Record fs_ok s (fl : list Z) (p : Z) : Prop := {
  f_list : free_list (freelist s) fl;
  f_len : length (freelist s) = Z.to_nat N;
  f_reqs : length (requests s) = Z.to_nat N;
  f_slots : slots_ok (shared (ring s));
  f_ring : ring s = FRing (wrap32 p) (wrap32 p) (SRing (wrap32 p) (req_event (shared (ring s))) (wrap32 p) (rsp_event (shared (ring s))) (slots (shared (ring s))));
  f_irq : in_irq s = false
}.

Lemma free_id s fl p i : fs_ok s (i :: fl) p -> 0 < i < N /\ i < 2 ^ 16 /\ is_Some (requests s !! Z.to_nat i).
Proof.
  intros Hs. pose proof (ring_size_bounds (A := fsif_entry)) as [HN _]. destruct (f_list _ _ _ Hs) as (_ & _ & Hb).
  apply Forall_cons in Hb as [Hb _]. rewrite (f_len _ _ _ Hs) in Hb. splits; [lia..|].
  apply lookup_lt_is_Some_2. rewrite (f_reqs _ _ _ Hs). lia.
Qed.

(** ** Submission *)

Lemma submit_spec schedule others hold fuel current ty prepare args s i fl p r c :
  fs_ok s (i :: fl) p -> requests s !! Z.to_nat i = Some r -> prepare (page r) (contents r) = Ok c ->
  exists l, free_list l fl /\ length l = Z.to_nat N /\
    fs_submit schedule others hold fuel current ty prepare args s =
    Ok (i, Import (dom_id s) (nr_entries s) (local_port s)
      (FRing (wrap32 (p + 1)) (wrap32 p) (SRing (wrap32 (p + 1)) (req_event (shared (ring s))) (wrap32 p) (rsp_event (shared (ring s)))
        (<[pos fsif_entry p := EReq (FsReq ty i (args (gref r)))]> (slots (shared (ring s))))))
      (<[Z.to_nat i := Request (page r) c (gref r) current (shadow_rsp r)]> (requests s)) l false (preempt s)
      (log s ++ [Block current; Notify (local_port s)])).
Proof.
  intros Hs Hr Hc. pose proof (ring_size_bounds (A := fsif_entry)) as [HN Hdiv]. destruct (free_id _ _ _ _ Hs) as (Hi & _ & _).
  destruct (fl_pop_spec (freelist s) (i :: fl)) as (l & Hpop & Hl & Hfl); [apply Hs|rewrite (f_len _ _ _ Hs); lia|].
  exists l. split; [done|]. split; [rewrite Hl; apply Hs|].
  unfold fs_submit, get_id_from_freelist. rewrite Hpop. cbn [mbind res_bind head default from_option id].
  cbn [requests set_freelist]. rewrite (elem_eq _ _ r) by (done || lia). cbn [mbind res_bind]. rewrite Hc. cbn [mbind res_bind].
  unfold set_request. cbn [requests set_freelist]. rewrite set_elem_eq by (rewrite (f_reqs _ _ _ Hs); lia). cbn [mbind res_bind].
  assert (forall q, ring_put (wrap32 p) q (shared (ring s)) = Ok (set_slots (<[pos fsif_entry p := q]> (slots (shared (ring s)))) (shared (ring s)))) as Hput
    by (intros q; apply ring_put_pos, Hs).
  pose proof (f_ring _ _ _ Hs) as Hring. rewrite Hring in Hput.
  assert (forall fuel s1, ring s1 = ring s -> reserve_loop schedule fuel s1 = Ok (wrap32 p, set_ring (FRing (wrap32 (p + 1)) (wrap32 p) (shared (ring s))) s1)) as Hres.
  { intros f s1 H1. assert ((FS_RING_FREE_REQUESTS (ring s1) (req_prod_pvt (ring s1)) =? 0) = false) as Hfree.
    { unfold FS_RING_FREE_REQUESTS. rewrite H1, Hring. cbn [req_prod_pvt rsp_cons]. rewrite Z.sub_diag.
      change (wrap32 0) with 0. rewrite Z.sub_0_r, wrap_small by lia. apply Z.eqb_neq. lia. }
    destruct f; cbn [reserve_loop]; rewrite Hfree, H1, Hring; cbn [req_prod_pvt rsp_cons shared]; by rewrite wrap_add_l. }
  unfold reserve_fsif_request. rewrite Hres by done. cbn [mbind res_bind ring set_ring]. cbn [shared]. rewrite Hring. cbn [shared].
  rewrite Hput. cbn [mbind res_bind]. unfold commit_fsif_request.
  assert (forall fuel s1, req_prod (shared (ring s1)) = wrap32 p ->
    commit_loop others fuel (wrap32 p) s1 = Ok (set_ring (set_shared (set_req_prod (wrap32 (p + 1)) (shared (ring s1))) (ring s1)) s1)) as Hcom.
  { intros f s1 H1. destruct f; cbn [commit_loop]; rewrite H1, Z.eqb_refl; by rewrite wrap_add_l. }
  destruct hold; rewrite Hcom by done; cbn [mbind res_bind]; do 2 f_equal; destruct s as [? ? ? ? ? ? irq ? ?];
    pose proof (f_irq _ _ _ Hs) as Hirq; simpl in Hirq |- *; subst irq; unfold add_log, set_preempt, preempt_dec; simpl;
    rewrite <- app_assoc; unfold preempt_dec, preempt_inc, set_preempt; simpl; f_equal; lia.
Qed.

(** ** The handler *)

(** The requests after the answers [rs], and the threads that are woken. *)
Fixpoint answer_all (rs : list fsif_response) (l : list fs_request) : list fs_request :=
  match rs with [] => l | r :: rs => answer_all rs (alter (set_shadow r) (Z.to_nat (rs_id r)) l) end.

Definition woken (rs : list fsif_response) (l : list fs_request) : list fs_event :=
  omap (fun r => q ← l !! Z.to_nat (rs_id r); Some (Wake (thread q))) rs.

Lemma woken_alter r rs i l : woken rs (alter (set_shadow r) i l) = woken rs l.
Proof.
  unfold woken. induction rs as [|r1 rs IH]; [done|]. cbn [omap list_omap]. rewrite IH.
  destruct (decide (i = Z.to_nat (rs_id r1))) as [->|Hi]; [|by rewrite list_lookup_alter_ne].
  rewrite list_lookup_alter_eq. by destruct (l !! _).
Qed.

Lemma take_responses_spec rs : forall p s,
  slots_ok (shared (ring s)) -> window (shared (ring s)) p (ERsp <$> rs) ->
  Forall (fun r => 0 <= rs_id r < Z.of_nat (length (requests s))) rs ->
  take_responses req_as_rsp (length rs) (wrap32 p) s =
  Ok (Import (dom_id s) (nr_entries s) (local_port s) (ring s) (answer_all rs (requests s)) (freelist s) (in_irq s) (preempt s)
        (log s ++ woken rs (requests s))).
Proof.
  induction rs as [|r rs IH]; intros p s Hs Hw Hr; cbn [length take_responses].
  { cbn [answer_all woken omap list_omap]. rewrite app_nil_r. by destruct s. }
  rewrite fmap_cons in Hw. apply Forall_cons in Hr as [Hr Hrs]. unfold take_response.
  rewrite (ring_get_window _ _ _ _ Hs Hw). cbn [mbind res_bind as_response].
  destruct (lookup_lt_is_Some_2 (requests s) (Z.to_nat (rs_id r))) as [q Hq]; [lia|].
  rewrite (elem_eq _ _ q) by (done || lia). cbn [mbind res_bind]. unfold set_request. rewrite set_elem_eq by lia. cbn [mbind res_bind].
  apply window_cons in Hw as [_ Hw]. rewrite wrap_add_l.
  assert (<[Z.to_nat (rs_id r) := set_shadow r q]> (requests s) = alter (set_shadow r) (Z.to_nat (rs_id r)) (requests s)) as ->.
  { apply list_eq. intros j. destruct (decide (j = Z.to_nat (rs_id r))) as [->|Hj].
    - rewrite list_lookup_insert_eq by lia. by rewrite list_lookup_alter_eq, Hq.
    - by rewrite list_lookup_insert_ne, list_lookup_alter_ne by done. }
  rewrite IH; [|done|done|by simpl; rewrite length_alter]. unfold add_log. simpl. rewrite woken_alter, <- app_assoc.
  do 3 f_equal. unfold woken. cbn [omap list_omap]. by rewrite Hq.
Qed.

(** C34: When every request on the ring has been answered, [fsfront_handler] gives each answer
    to the request it names, wakes the threads of these requests in the order of the answers,
    and returns with the ring empty. *)
Theorem fsfront_handler_delivers s p rs fuel :
  in_irq s = false -> slots_ok (shared (ring s)) -> rsp_cons (ring s) = wrap32 p ->
  rsp_prod (shared (ring s)) = wrap32 (p + Z.of_nat (length rs)) -> req_prod (shared (ring s)) = wrap32 (p + Z.of_nat (length rs)) ->
  Z.of_nat (length rs) <= N -> window (shared (ring s)) p (ERsp <$> rs) ->
  Forall (fun r => 0 <= rs_id r < Z.of_nat (length (requests s))) rs ->
  exists e, fsfront_handler req_as_rsp (S fuel) [] s =
    Ok (Import (dom_id s) (nr_entries s) (local_port s)
      (FRing (req_prod_pvt (ring s)) (wrap32 (p + Z.of_nat (length rs))) (set_rsp_event e (shared (ring s))))
      (answer_all rs (requests s)) (freelist s) false (preempt s) (log s ++ woken rs (requests s))).
Proof.
  intros Hirq Hs Hc Hrsp Hreq Hlen Hw Hr. pose proof (ring_size_bounds (A := fsif_entry)) as [HN _].
  unfold fsfront_handler. rewrite Hirq. cbn [bug_on mbind res_bind handler_passes remote_work set_in_irq ring tail].
  rewrite Hreq, Hc, wrap_sub. replace (p + Z.of_nat (length rs) - p) with (Z.of_nat (length rs)) by lia.
  rewrite (wrap_small 32 (Z.of_nat (length rs))), Nat2Z.id by lia. rewrite take_responses_spec by done. cbn [mbind res_bind ring set_ring].
  destruct (final_law (FRing (req_prod_pvt (ring s)) (wrap32 (p + Z.of_nat (length rs))) (shared (ring s)))) as [e He].
  cbn [ring set_in_irq] in He |- *. rewrite He. cbn [rsp_cons shared]. rewrite Hrsp, Z.eqb_refl. cbn [negb mbind res_bind].
  by exists e.
Qed.

(** A request that is not answered yet stops the processor in the handler: it goes up to
    [req_prod], takes the request for an answer, and then finds [rsp_prod] different from its
    own index for as long as the back end is at work. *)
Lemma fsfront_handler_spins s p q fuel :
  in_irq s = false -> slots_ok (shared (ring s)) -> rsp_cons (ring s) = wrap32 p ->
  rsp_prod (shared (ring s)) = wrap32 p -> req_prod (shared (ring s)) = wrap32 (p + 1) ->
  window (shared (ring s)) p [EReq q] -> 0 <= rs_id (req_as_rsp q) < Z.of_nat (length (requests s)) ->
  fsfront_handler req_as_rsp fuel [] s = Fuel.
Proof.
  intros Hirq Hs Hc Hrsp Hreq Hw Hid. unfold fsfront_handler. rewrite Hirq. cbn [bug_on mbind res_bind].
  assert (wrap32 p <> wrap32 (p + 1)) as Hne.
  { intros E. unfold wrap in E. pose proof (mod_inj (2 ^ 32) p (p + 1) ltac:(lia) ltac:(lia) E). lia. }
  assert (forall fuel s1, rsp_cons (ring s1) = wrap32 (p + 1) -> rsp_prod (shared (ring s1)) = wrap32 p ->
    req_prod (shared (ring s1)) = wrap32 (p + 1) -> handler_passes req_as_rsp fuel [] s1 = Fuel) as Hspin.
  { clear fuel. induction fuel as [|fuel IH]; intros s1 H1 H2 H3; [done|]. cbn [handler_passes remote_work tail].
    rewrite H3, H1, Z.sub_diag. change (Z.to_nat (wrap32 0)) with 0%nat. cbn [take_responses mbind res_bind ring set_ring].
    destruct (final_law (FRing (req_prod_pvt (ring s1)) (wrap32 (p + 1)) (shared (ring s1)))) as [e He]. rewrite He.
    cbn [rsp_cons shared]. rewrite H2, (proj2 (Z.eqb_neq _ _)) by done. cbn [negb]. by apply IH. }
  destruct fuel as [|fuel]; [done|]. cbn [handler_passes remote_work set_in_irq ring tail]. rewrite Hreq, Hc, wrap_sub.
  replace (p + 1 - p) with 1 by lia. change (Z.to_nat (wrap32 1)) with 1%nat. cbn [take_responses].
  unfold take_response. change (ring (set_in_irq true s)) with (ring s). change (requests (set_in_irq true s)) with (requests s).
  rewrite (ring_get_window _ _ _ _ Hs Hw). cbn [mbind res_bind as_response].
  destruct (lookup_lt_is_Some_2 (requests s) (Z.to_nat (rs_id (req_as_rsp q)))) as [r Hr]; [lia|].
  rewrite (elem_eq _ _ r) by (done || lia). cbn [mbind res_bind]. unfold set_request. change (requests (set_in_irq true s)) with (requests s).
  rewrite set_elem_eq by lia. cbn [mbind res_bind ring set_ring set_requests add_log].
  destruct (final_law (FRing (req_prod_pvt (ring s)) (wrap32 (p + 1)) (shared (ring s)))) as [e He].
  cbn [ring set_requests set_in_irq] in He |- *. rewrite He. cbn [rsp_cons shared]. rewrite Hrsp, (proj2 (Z.eqb_neq _ _)) by done. cbn [negb].
  by rewrite Hspin.
Qed.

(** ** A call, when the back end answers it

    [serve] is what the back end does: the answer, and the page afterwards.  It takes the next
    request from the ring and puts its answer there; then the interrupt comes. *)
Definition back_end (serve : fsif_request -> list Z -> Z * list Z) s : res fs_import :=
  e ← ring_get (rsp_prod (shared (ring s))) (shared (ring s));
  match e with
  | ERsp _ => Ok s
  | EReq q =>
      r ← elem (requests s) (q_id q);
      let '(v, c) := serve q (contents r) in
      s ← set_request (q_id q) (set_page c r) s;
      Ok (set_ring (set_shared (deliver [ERsp (FsRsp (q_id q) v)] (shared (ring s))) (ring s)) s)
  end.

Definition answered (serve : fsif_request -> list Z -> Z * list Z) s : res fs_import :=
  s ← back_end serve s; fsfront_handler req_as_rsp 1 [] s.

(** After a call the identifier [i] is free again; its request holds the page of the back end
    and the answer, the others are as before. *)
Definition call_result s i r current (v : Z) (c : list Z) s' : Prop :=
  requests s' = <[Z.to_nat i := Request (page r) c (gref r) current (FsRsp i v)]> (requests s) /\
  dom_id s' = dom_id s /\ nr_entries s' = nr_entries s /\ local_port s' = local_port s /\ preempt s' = preempt s /\
  log s' = log s ++ [Block current; Notify (local_port s); Wake current].

(** Putting the identifier back changes nothing else. *)
Lemma add_id_ok s fl p i :
  fs_ok s fl p -> 0 < i < N -> i ∉ fl -> exists l, add_id_to_freelist i s = Ok (set_freelist l s) /\ fs_ok (set_freelist l s) (i :: fl) p.
Proof.
  intros Hs Hi Hni. pose proof (ring_size_bounds (A := fsif_entry)) as [HN _].
  destruct (fl_push_spec (freelist s) fl i) as (l & Hpush & Hl & Hfl); [apply Hs|rewrite (f_len _ _ _ Hs); lia|done|].
  exists l. split; [unfold add_id_to_freelist; rewrite (wrap_small 16) by lia; by rewrite Hpush|].
  split; [done|cbn [freelist set_freelist]; rewrite Hl; apply Hs|apply Hs..].
Qed.

(** The back end answers the request at position [p]. *)
Lemma back_end_spec serve s p q r v c' :
  slots_ok (shared (ring s)) -> rsp_prod (shared (ring s)) = wrap32 p -> slots (shared (ring s)) !! pos fsif_entry p = Some (EReq q) ->
  0 <= q_id q -> requests s !! Z.to_nat (q_id q) = Some r -> serve q (contents r) = (v, c') ->
  back_end serve s = Ok (Import (dom_id s) (nr_entries s) (local_port s)
    (FRing (req_prod_pvt (ring s)) (rsp_cons (ring s)) (SRing (req_prod (shared (ring s))) (req_event (shared (ring s))) (wrap32 (p + 1))
       (rsp_event (shared (ring s))) (<[pos fsif_entry p := ERsp (FsRsp (q_id q) v)]> (slots (shared (ring s))))))
    (<[Z.to_nat (q_id q) := set_page c' r]> (requests s)) (freelist s) (in_irq s) (preempt s) (log s)).
Proof.
  intros Hs Hp Hq Hid Hr Hserve. unfold back_end. rewrite Hp, ring_get_pos, Hq by done. cbn [access mbind res_bind].
  rewrite (elem_eq _ _ r) by done. cbn [mbind res_bind]. rewrite Hserve. unfold set_request. pose proof (lookup_lt_Some _ _ _ Hr).
  rewrite set_elem_eq by lia. cbn [mbind res_bind].
  unfold set_ring, set_requests, set_shared. cbn [deliver ring dom_id nr_entries local_port freelist in_irq preempt log requests].
  unfold set_rsp_prod, set_slots. cbn [rsp_prod slots req_prod req_event rsp_event]. rewrite Hp. destruct (slot_pos (A := fsif_entry) p) as [-> _]. by rewrite wrap_add_l.
Qed.

(** The call up to the moment when the answer is read. *)
Lemma submit_answered serve others hold fuel current ty prepare args s i fl p r c v c' :
  fs_ok s (i :: fl) p -> requests s !! Z.to_nat i = Some r -> prepare (page r) (contents r) = Ok c ->
  serve (FsReq ty i (args (gref r))) c = (v, c') ->
  exists s1 s2, fs_submit (answered serve) others hold fuel current ty prepare args s = Ok (i, s1) /\
    answered serve s1 = Ok s2 /\ fs_answer i s2 = Ok (v, c') /\ fs_ok s2 fl (p + 1) /\ call_result s i r current v c' s2.
Proof.
  intros Hs Hr Hc Hserve. pose proof (ring_size_bounds (A := fsif_entry)) as [HN Hdiv]. destruct (free_id _ _ _ _ Hs) as (Hi & Hi16 & _).
  destruct (submit_spec (answered serve) others hold fuel current ty prepare args s i fl p r c Hs Hr Hc) as (l & Hfl & Hl & ->).
  assert (slots_ok (shared (ring s))) as Hslots by apply Hs. assert (length (requests s) = Z.to_nat N) as Hreqs by apply Hs.
  match goal with |- context [Ok (i, Import ?a ?b ?c ?d ?e ?f ?g ?h ?k) = _] => set (s1 := Import a b c d e f g h k) end.
  pose proof (back_end_spec serve s1 p (FsReq ty i (args (gref r))) (Request (page r) c (gref r) current (shadow_rsp r)) v c') as Hback.
  cbn [q_id] in Hback.
  match type of Hback with context [back_end serve s1 = Ok ?t] => set (s2 := t) in Hback end.
  destruct (fsfront_handler_delivers s2 p [FsRsp i v] 0) as [e Hh]; [done| |done..|simpl; lia| | |].
  { unfold slots_ok. simpl. rewrite !length_insert. done. }
  { cbn [fmap list_fmap]. apply window_cons. split; [|apply window_nil]. subst s2. cbn [ring shared slots].
    apply list_lookup_insert_eq. unfold s1. cbn [ring shared slots]. rewrite length_insert, Hslots. apply pos_lt. }
  { apply Forall_singleton. subst s2 s1. cbn [rs_id requests]. rewrite !length_insert. lia. }
  match type of Hh with _ = Ok ?t => set (s3 := t) in Hh end.
  assert (requests s3 = <[Z.to_nat i := Request (page r) c' (gref r) current (FsRsp i v)]> (requests s)) as Hq3.
  { subst s3 s2 s1. cbn [requests answer_all rs_id]. rewrite list_insert_insert_eq.
    apply list_eq. intros j. destruct (decide (j = Z.to_nat i)) as [->|Hj].
    - by rewrite list_lookup_alter_eq, !list_lookup_insert_eq by lia.
    - by rewrite list_lookup_alter_ne, !list_lookup_insert_ne by done. }
  exists s1, s3. split; [done|]. splits.
  - unfold answered. rewrite Hback; [exact Hh|by apply (set_slots_ok (shared (ring s)))|done| |simpl; lia| |done].
    + apply list_lookup_insert_eq. rewrite Hslots. apply pos_lt.
    + apply list_lookup_insert_eq. lia.
  - unfold fs_answer. rewrite Hq3. rewrite (elem_eq _ _ (Request (page r) c' (gref r) current (FsRsp i v))) by (lia || (apply list_lookup_insert_eq; lia)). done.
  - split; [done|done|by rewrite Hq3, length_insert| |done|done].
    unfold slots_ok. simpl. by rewrite !length_insert.
  - unfold call_result. rewrite Hq3. splits; try done. subst s3 s2 s1. cbn [log].
    rewrite <- app_assoc. unfold woken. cbn [omap list_omap rs_id requests]. by rewrite list_lookup_insert_eq by (rewrite length_insert; lia).
Qed.

Lemma free_tail s i fl p : fs_ok s (i :: fl) p -> i ∉ fl.
Proof. intros Hs. destruct (f_list _ _ _ Hs) as (_ & Hnd & _). by apply NoDup_cons in Hnd as [? _]. Qed.


(** ** Names in the page *)




(** The page of [guk_fs_rename]. *)
Definition rename_text (t1 t2 : list Z) : list Z := str "old: " ++ t1 ++ [0] ++ str "new: " ++ t2.


(** At the two offsets of the request the page holds the two names as terminated strings. *)
Lemma rename_names t1 t2 old new rest : c_string t1 (old : list Z) -> c_string t2 (new : list Z) ->
  c_string t1 (drop 5 (rename_text t1 t2 ++ 0 :: rest)) /\ c_string t2 (drop (11 + length t1) (rename_text t1 t2 ++ 0 :: rest)).
Proof.
  intros (_ & _ & Hz1 & Hl1) (_ & _ & Hz2 & Hl2). unfold rename_text. split.
  - exists (str "new: " ++ t2 ++ 0 :: rest). splits; [|done..]. by rewrite <- !app_assoc.
  - exists rest. splits; [|done..]. replace (11 + length t1)%nat with (length (str "old: " ++ t1 ++ [0] ++ str "new: ")) by (rewrite !length_app; simpl; lia).
    replace ((str "old: " ++ t1 ++ [0] ++ str "new: " ++ t2) ++ 0 :: rest) with ((str "old: " ++ t1 ++ [0] ++ str "new: ") ++ t2 ++ 0 :: rest) by (by rewrite <- !app_assoc).
    by rewrite drop_app_length.
Qed.

(** ** Reading a file *)

(** A back end that serves a file with these bytes. *)
Definition serve_file (file : list Z) (q : fsif_request) (c : list Z) : Z * list Z :=
  match u q with
  | fread _ _ len offset =>
      let d := take (Z.to_nat len) (drop (Z.to_nat offset) file) in (Z.of_nat (length d), d ++ drop (length d) c)
  | _ => (0, c)
  end.

Lemma copy_to_spec dst n src k d :
  0 <= n -> k = Z.of_nat (length d) -> n + k <= Z.of_nat (length dst) ->
  copy_to dst n (d ++ src) k = Ok (take (Z.to_nat n) dst ++ d ++ drop (Z.to_nat n + length d) dst).
Proof.
  intros Hn -> Hl. unfold copy_to. rewrite length_app, !(proj2 (Z.leb_le _ _)) by lia. cbn [andb].
  rewrite Nat2Z.id, take_app_length. by replace (Z.to_nat (n + Z.of_nat (length d))) with (Z.to_nat n + length d)%nat by lia.
Qed.

Lemma read_loop_spec others fuel current fd file i fl rounds : forall len off boff ret buf s p d,
  fs_ok s (i :: fl) p -> 0 <= off -> 0 <= len -> 0 <= boff -> boff + len <= Z.of_nat (length buf) ->
  len <= FS_PAGE_SIZE * Z.of_nat rounds -> 0 <= ret -> ret + len < 2 ^ 63 ->
  d = take (Z.to_nat len) (drop (Z.to_nat off) file) ->
  exists s' p', read_loop (answered (serve_file file)) others rounds fuel current fd len off boff ret buf s =
      Ok (ret + Z.of_nat (length d), take (Z.to_nat boff) buf ++ d ++ drop (Z.to_nat boff + length d) buf, s') /\ fs_ok s' (i :: fl) p'.
Proof.
  unfold FS_PAGE_SIZE. induction rounds as [|rounds IH]; intros len off boff ret buf s p d Hs Hoff Hlen Hboff Hbuf Hr Hret Hmax Hdef;
    cbn [read_loop]; destruct (Z.ltb_spec 0 len) as [Hpos|Hz]; [lia| | |].
  1, 3: exists s, p; replace len with 0 in Hdef by lia; subst d; change (Z.to_nat 0) with 0%nat; rewrite take_0; cbn [app length]; rewrite Z.add_0_r, Nat.add_0_r, take_drop; done.
  unfold FS_PAGE_SIZE. set (chunk := Z.min len 4096).
  assert ((if 4096 <? len then (4096, len - 4096) else (len, 0)) = (chunk, len - chunk)) as ->.
  { subst chunk. destruct (Z.ltb_spec 4096 len); f_equal; lia. }
  set (dc := take (Z.to_nat chunk) (drop (Z.to_nat off) file)).
  assert (length dc <= Z.to_nat chunk)%nat as Hdc by (subst dc; rewrite length_take; lia).
  destruct (free_id _ _ _ _ Hs) as (_ & _ & [r Hri]).
  destruct (submit_answered (serve_file file) others false fuel current REQ_FILE_READ zero_page (fun g => fread fd g chunk off) s i fl p r
    (replicate (Z.to_nat FS_PAGE_SIZE) 0) (Z.of_nat (length dc)) (dc ++ drop (length dc) (replicate (Z.to_nat FS_PAGE_SIZE) 0)) Hs Hri eq_refl eq_refl)
    as (s1 & s2 & -> & Hans & Ha & Hok2 & _).
  destruct (add_id_ok s2 fl (p + 1) i Hok2) as (l3 & Hadd & Hok); [apply (free_id s fl p), Hs|by eapply free_tail|]. set (s3 := set_freelist l3 s2) in *.
  cbn [mbind res_bind]. rewrite Hans. cbn [mbind res_bind]. rewrite Ha. cbn [mbind res_bind].
  rewrite (sgn_small 64 (Z.of_nat (length dc))) by lia. rewrite (sgn_small 64 (ret + _)) by lia.
  destruct (Z.ltb_spec 0 (Z.of_nat (length dc))) as [Hdp|Hd0].
  - rewrite copy_to_spec by lia. cbn [mbind res_bind]. rewrite Hadd. cbn [mbind res_bind].
    rewrite (proj2 (Z.leb_gt _ _)) by lia. set (buf1 := take _ buf ++ _).
    assert (length buf1 = length buf) as Hb1 by (subst buf1; rewrite !length_app, length_take, length_drop; lia).
    set (d2 := take (Z.to_nat (len - chunk)) (drop (Z.to_nat (off + chunk)) file)).
    destruct (IH (len - chunk) (off + chunk) (boff + chunk) (ret + Z.of_nat (length dc)) buf1 s3 (p + 1) d2) as (s' & p' & Hl & Hok');
      [done|lia..|done|]. rewrite Hl. exists s', p'. split; [|done].
    assert (d = dc ++ d2 /\ (length dc = Z.to_nat chunk \/ d2 = [])) as [Hd Hcase].
    { subst d d2 dc. destruct (decide (length (drop (Z.to_nat off) file) < Z.to_nat chunk)%nat) as [Hsh|Hsh].
      - rewrite (drop_ge file (Z.to_nat (off + chunk))) by (rewrite length_drop in Hsh; lia). rewrite take_nil, app_nil_r, !take_ge by lia. by split; [|right].
      - split; [|left; rewrite length_take; lia]. rewrite (Z2Nat.inj_add off chunk), <- drop_drop by lia.
        replace (Z.to_nat len) with (Z.to_nat chunk + Z.to_nat (len - chunk))%nat by lia. by rewrite take_take_drop. }
    rewrite Hd, length_app. do 2 f_equal; [f_equal; [lia|]]. subst buf1.
    assert (length (take (Z.to_nat boff) buf) = Z.to_nat boff) as Htb by (rewrite length_take; lia).
    destruct Hcase as [Hc|Hd2].
    + replace (Z.to_nat (boff + chunk)) with (length (take (Z.to_nat boff) buf ++ dc)) by (rewrite length_app; lia).
      rewrite (app_assoc _ dc (drop _ buf)), take_app_length, <- drop_drop, drop_app_length, drop_drop, <- !app_assoc.
      do 4 f_equal. lia.
    + rewrite Hd2. cbn [app length]. rewrite Nat.add_0_r, take_drop, app_nil_r. f_equal. by rewrite Nat.add_0_r.
  - cbn [mbind res_bind]. rewrite Hadd. cbn [mbind res_bind]. rewrite (proj2 (Z.leb_le _ _)) by lia. exists s3, (p + 1). split; [|done].
    assert (dc = []) as Hnil by (apply nil_length_inv; lia).
    assert (d = []) as ->.
    { subst d. assert (drop (Z.to_nat off) file = []) as ->; [|by rewrite take_nil]. subst dc. destruct (drop (Z.to_nat off) file); [done|].
      destruct (Z.to_nat chunk) eqn:E; [lia|done]. }
    rewrite Hnil. cbn [length app]. by rewrite Nat.add_0_r, take_drop.
Qed.

(** C29: [guk_fs_read] reads a file: with a back end that serves the file it returns the number of
    bytes between [offset] and the end of the file, at most [len], and puts exactly these bytes
    at the start of the buffer, for any number of pages; it ends, and all identifiers are free
    again. *)
Theorem guk_fs_read_reads others fuel current fd file buf len offset s i fl p :
  fs_ok s (i :: fl) p -> 0 <= offset -> 0 <= len < 2 ^ 63 -> len <= Z.of_nat (length buf) ->
  let d := take (Z.to_nat len) (drop (Z.to_nat offset) file) in
  exists s' p', guk_fs_read (answered (serve_file file)) others fuel current fd buf len offset s =
      Ok (Z.of_nat (length d), d ++ drop (length d) buf, s') /\ fs_ok s' (i :: fl) p'.
Proof.
  intros Hs Hoff Hlen Hbuf d. unfold guk_fs_read.
  destruct (read_loop_spec others fuel current fd file i fl (Z.to_nat (len / FS_PAGE_SIZE + 1)) len offset 0 0 buf s p d) as (s' & p' & Hl & Hok); [done|lia|lia|lia|lia| |lia|lia|done|].
  { unfold FS_PAGE_SIZE. pose proof (Z.div_mod len 4096 ltac:(lia)). pose proof (Z.mod_pos_bound len 4096 ltac:(lia)).
    pose proof (Z.div_pos len 4096). lia. }
  exists s', p'. split; [|done]. rewrite Hl. done.
Qed.

(** ** Writing and listing *)




(** ** The operations that are one request *)














(** Names one after the other. *)
Definition name_list (names : list (list Z)) : list Z := concat ((fun n => n ++ [0]) <$> names).

Lemma list_names_spec names rest :
  Forall (fun n => Forall (fun c => c <> 0) n /\ Z.of_nat (length n) < 2 ^ 31) names ->
  list_names (length names) (name_list names ++ rest) = Ok names.
Proof.
  unfold name_list. induction 1 as [|n names [Hz Hl] _ IH]; [done|]. cbn [length list_names]. rewrite fmap_cons. cbn [concat].
  assert (c_string n (((n ++ [0]) ++ concat ((fun n => n ++ [0]) <$> names)) ++ rest)) as Hn.
  { exists (concat ((fun n => n ++ [0]) <$> names) ++ rest). by rewrite <- !app_assoc. }
  rewrite (strlen_text n) by done. cbn [mbind res_bind]. rewrite Nat2Z.id, <- !app_assoc.
  replace (length n + 1)%nat with (length (n ++ [0])) by (rewrite length_app; simpl; lia). rewrite (app_assoc n [0]), drop_app_length, IH. cbn [mbind res_bind].
  by rewrite <- app_assoc, take_app_length.
Qed.

(** [guk_fs_list] returns the names that the back end has put in the page, their number and
    the flag that says whether there are more; when there is no name it returns NULL, and the
    identifier of the request is never free again. *)
Lemma guk_fs_list_names serve others fuel current name offset s i fl p r c v names rest :
  fs_ok s (i :: fl) p -> requests s !! Z.to_nat i = Some r -> name_page name (page r) (contents r) = Ok c ->
  serve (FsReq REQ_DIR_LIST i (flist (wrap32 offset) (gref r))) c = (v, name_list names ++ rest) ->
  Z.land v NR_FILES_MASK = Z.of_nat (length names) ->
  Forall (fun n => Forall (fun c => c <> 0) n /\ Z.of_nat (length n) < 2 ^ 31) names ->
  exists s', guk_fs_list (answered serve) others fuel current name offset s =
      Ok (if decide (names = []) then (None, 0, None, s') else (Some names, Z.of_nat (length names), Some (Z.testbit v 48), s')) /\
    fs_ok s' (if decide (names = []) then fl else i :: fl) (p + 1) /\ call_result s i r current v (name_list names ++ rest) s'.
Proof.
  intros Hs Hr Hc Hserve Hv Hn. unfold guk_fs_list.
  destruct (submit_answered serve others false fuel current REQ_DIR_LIST (name_page name) (fun g => flist (wrap32 offset) g) s i fl p r c v _ Hs Hr Hc Hserve)
    as (s1 & s2 & -> & H2 & H3 & Hok & Hres).
  cbn [mbind res_bind]. rewrite H2. cbn [mbind res_bind]. rewrite H3. cbn [mbind res_bind]. unfold NR_FILES_SHIFT. rewrite Z.shiftr_0_r, Hv.
  destruct (decide (names = [])) as [->|Hne]; [by exists s2|].
  assert (length names <> 0)%nat by (by destruct names). rewrite (proj2 (Z.leb_gt _ _)) by lia. rewrite Nat2Z.id, list_names_spec by done.
  cbn [mbind res_bind]. destruct (add_id_ok s2 fl (p + 1) i Hok) as (l & -> & Hok'); [apply (free_id s fl p), Hs|by eapply free_tail|].
  cbn [mbind res_bind]. exists (set_freelist l s2). splits; [|done..]. do 4 f_equal. unfold HAS_MORE_FLAG. apply eq_bool_prop_intro.
  rewrite Z.shiftl_1_l. destruct (Z.testbit v 48) eqn:Hb; rewrite Is_true_true, Z.eqb_eq.
  - split; [done|]. intros _. apply Z.bits_inj'. intros k Hk. rewrite Z.land_spec, Z.pow2_bits_eqb by lia. destruct (Z.eqb_spec 48 k) as [<-|]; [by rewrite Hb|apply andb_false_r].
  - split; [|done]. intros He. apply (f_equal (fun x => Z.testbit x 48)) in He. by rewrite Z.land_spec, Hb in He.
Qed.
End Spec.

(** ** The start *)

Section Start.
Set Default Proof Using "Type*".
Context {G : Type} `{!GrantTable G} (virt_to_mfn : Z -> Z).
Implicit Types s : fs_import.

Lemma alloc_loop_spec pages : forall i fl g F s,
  free_list (freelist s) fl -> Forall (fun r => r < i) fl -> 0 < i -> i + Z.of_nat (length pages) <= Z.of_nat (length (freelist s)) ->
  Z.of_nat (length (freelist s)) <= 2 ^ 16 -> free_set g F -> (length pages <= size F)%nat ->
  exists g' l new, alloc_loop virt_to_mfn pages i g s = Ok (g', set_freelist l (set_requests (requests s ++ new) s)) /\
    free_list l (rev (seqZ i (Z.of_nat (length pages))) ++ fl) /\ length l = length (freelist s) /\
    page <$> new = page <$> pages /\ NoDup (gref <$> new) /\ Forall (fun r => r ∈ F) (gref <$> new) /\
    free_set g' (F ∖ list_to_set (gref <$> new)).
Proof.
  induction pages as [|q pages IH]; intros i fl g F s Hfl Hb Hi Hlen H16 HF Hsize; cbn [alloc_loop length].
  { exists g, (freelist s), []. rewrite app_nil_r. splits; [by destruct s|done|done|done|apply NoDup_nil_2|apply Forall_nil_2|].
    change (free_set g (F ∖ ∅)). by rewrite difference_empty_L. }
  cbn [length] in *. assert (F <> ∅) as Hne by (intros ->; rewrite size_empty in Hsize; lia).
  destruct (grant_law g F (dom_id s) (virt_to_mfn (page q)) 0 HF Hne) as (r & g1 & -> & Hr & HF1). cbn [mbind res_bind].
  destruct (fl_push_spec (freelist s) fl i) as (l & Hpush & Hl & Hfl'); [done|lia| |].
  { rewrite Forall_forall in Hb. intros Hin. specialize (Hb _ Hin). lia. }
  unfold add_id_to_freelist. rewrite (wrap_small 16) by lia. cbn [freelist set_requests]. rewrite Hpush. cbn [mbind res_bind].
  match goal with |- context [alloc_loop _ pages (i + 1) g1 ?t] => set (s1 := t) end.
  destruct (IH (i + 1) (i :: fl) g1 (F ∖ {[r]}) s1) as (g' & l' & new & Hrun & Hfl2 & Hl2 & Hpg & Hnd & Hin & HF').
  - done.
  - apply Forall_cons. split; [lia|]. eapply Forall_impl; [exact Hb|]. cbv beta. lia.
  - lia.
  - subst s1. cbn [freelist set_freelist]. rewrite Hl. lia.
  - subst s1. cbn [freelist set_freelist]. rewrite Hl. lia.
  - done.
  - rewrite size_difference by set_solver. rewrite size_singleton. lia.
  - exists g', l', (Request (page q) (contents q) r (thread q) (shadow_rsp q) :: new). rewrite Hrun. splits.
    + subst s1. cbn [requests set_requests set_freelist]. by rewrite <- app_assoc.
    + rewrite Nat2Z.inj_succ, seqZ_cons by lia. cbn [rev]. rewrite <- app_assoc. cbn [app].
      by rewrite Z.pred_succ.
    + rewrite Hl2. done.
    + rewrite !fmap_cons. by rewrite Hpg.
    + rewrite fmap_cons. apply NoDup_cons. split; [|done]. rewrite Forall_forall in Hin. intros Hr'. specialize (Hin _ Hr'). set_solver.
    + rewrite fmap_cons. apply Forall_cons. split; [done|]. eapply Forall_impl; [exact Hin|]. set_solver.
    + rewrite fmap_cons. cbn [list_to_set gref]. by rewrite <- difference_difference_l_L.
Qed.

Context {R : ring_macros fsif_entry} {RO : ring_macros_ok R}.
Local Abbreviation N := (RING_SIZE fsif_entry).

(** After the start no request is under way, every identifier but 0 is free, and every request
    has a page and a grant of its own. *)
Lemma fs_start_ok zero pages ring_page g F s :
  length zero = Z.to_nat N -> (Z.to_nat N <= length pages)%nat -> in_irq s = false -> free_set g F -> (Z.to_nat N < size F)%nat ->
  exists gnt_ref g' s', init_fs_import_begin virt_to_mfn zero pages ring_page g s = Ok (gnt_ref, g', s') /\
    fs_ok s' (rev (seqZ 1 (N - 1))) 0 /\ page <$> requests s' = page <$> take (Z.to_nat N) pages /\
    NoDup (gnt_ref :: (gref <$> requests s')).
Proof.
  intros Hz Hpages Hirq HF Hsize. pose proof (ring_size_bounds (A := fsif_entry)) as [HN _].
  unfold init_fs_import_begin, alloc_request_table. rewrite shared_init, front_init. cbn [slots].
  cbn [nr_entries]. rewrite (proj2 (Z.leb_gt _ _)) by lia. cbn [bug_on mbind res_bind].
  destruct (take (Z.to_nat N) pages) as [|q rest] eqn:Etake; [apply (f_equal length) in Etake; rewrite length_take in Etake; simpl in Etake; lia|].
  assert (S (length rest) = Z.to_nat N) as Hrest by (apply (f_equal length) in Etake; rewrite length_take in Etake; simpl in Etake; lia).
  cbn [alloc_loop]. assert (F <> ∅) as Hne by (intros ->; rewrite size_empty in Hsize; lia).
  cbn [dom_id set_requests set_freelist set_ring].
  destruct (grant_law g F (dom_id s) (virt_to_mfn (page q)) 0 HF Hne) as (r & g1 & -> & Hr & HF1). cbn [mbind res_bind].
  unfold add_id_to_freelist. change (wrap 16 0) with 0. cbn [freelist set_requests set_freelist].
  destruct (fl_push_0 (replicate (Z.to_nat N) 0)) as (l & -> & Hl & Hfl); [rewrite length_replicate; lia|]. cbn [mbind res_bind].
  rewrite length_replicate in Hl. change (0 + 1) with 1.
  match goal with |- context [alloc_loop _ rest 1 g1 ?t] => set (s1 := t) end.
  destruct (alloc_loop_spec rest 1 [] g1 (F ∖ {[r]}) s1) as (g2 & l2 & new & Hrun & Hfl2 & Hl2 & Hpg & Hnd & Hin & HF2);
    [done|apply Forall_nil_2|lia|subst s1; simpl; lia|subst s1; simpl; lia|done| |].
  { rewrite size_difference by set_solver. rewrite size_singleton. lia. }
  rewrite Hrun. cbn [mbind res_bind dom_id set_requests set_freelist]. rewrite app_nil_r in Hfl2.
  set (F2 := F ∖ {[r]} ∖ list_to_set (gref <$> new)) in HF2.
  assert (length new = length rest) as Hlnew by (rewrite <- (length_fmap page new), Hpg, length_fmap; done).
  assert (size (list_to_set (gref <$> new) : gset Z) = length rest) as Hsnew by (rewrite size_list_to_set, length_fmap by done; done).
  assert (list_to_set (gref <$> new) ⊆ F ∖ {[r]}) as Hsub.
  { rewrite Forall_forall in Hin. intros x Hx. apply elem_of_list_to_set in Hx. by apply Hin. }
  assert (F2 <> ∅) as Hne2.
  { intros E. assert (size F2 = 0%nat) as Hz2 by (by rewrite E). subst F2. rewrite size_difference, size_difference, size_singleton in Hz2 by set_solver. lia. }
  destruct (grant_law g2 F2 (dom_id s1) (virt_to_mfn ring_page) 0 HF2 Hne2) as (gr & g3 & Hg & Hgr & _). subst F2.
  change (dom_id s1) with (dom_id s) in Hg. change (dom_id s1) with (dom_id s). rewrite Hg. cbn [mbind res_bind].
  eexists gr, g3, _. split; [done|].
  replace (Z.of_nat (length rest)) with (N - 1) in Hfl2 by lia.
  split; [|split].
  - split; cbn [freelist requests ring in_irq set_freelist set_requests set_ring]; [done|subst s1; cbn in Hl2; lia| | |done|done].
    + subst s1. cbn. lia.
    + unfold slots_ok. cbn [shared slots]. done.
  - subst s1. cbn [requests set_freelist set_requests app]. rewrite !fmap_cons, Hpg. done.
  - subst s1. cbn [requests set_freelist set_requests app]. rewrite !fmap_cons. cbn [gref].
    rewrite Forall_forall in Hin. apply NoDup_cons. split; [|apply NoDup_cons; split; [|done]].
    + intros [->|Hx]%elem_of_cons; set_solver.
    + intros Hx. specialize (Hin _ Hx). set_solver.
Qed.
End Start.

(** The number of blocks that guk_fs_stat and guk_fs_fstat return is the mode of the file. *)
Lemma stat_blocks_mode {R : ring_macros fsif_entry} schedule others fuel current fd file ty s v st s' :
  fs_xstat schedule others fuel current fd file ty s = Ok (v, st, s') -> st_blocks st = st_mode st.
Proof.
  unfold fs_xstat. intros H. res_inv. destruct a as [i s1]. res_inv. destruct a0 as [w pg]. res_inv. done.
Qed.

(** ** A concrete file system: a ring of eight requests, a file of 4200 bytes *)

Global Instance fs_demo_macros : ring_macros fsif_entry := demo_macros fsif_entry.
Global Instance fs_demo_macros_ok : ring_macros_ok fs_demo_macros := demo_macros_ok fsif_entry.

(** The bytes of a request read as a response: the type is in the place of the identifier. *)
Definition demo_rsp (q : fsif_request) : fsif_response := FsRsp (type q) 0.

Definition fs_demo : fs_import :=
  Import 0 8 5 (FRing 0 0 (SRing 0 1 0 1 (replicate 8 (ERsp (FsRsp 0 0)))))
    ((fun k => Request (4096 * Z.of_nat (S k)) (replicate 4096 0) (100 + Z.of_nat k) 0 (FsRsp 0 0)) <$> seq 0 8)
    [1; 2; 3; 4; 5; 6; 7; 0] false 0 [].

Definition fs_demo_file : list Z := (fun k => Z.of_nat k mod 251) <$> seq 0 4200.

Lemma fs_demo_ok : fs_ok fs_demo [1; 2; 3; 4; 5; 6; 7] 0.
Proof.
  split; try done. split; [by vm_compute|]. split; [by apply (bool_decide_unpack _)|].
  by repeat (apply Forall_cons; split; [vm_compute; by split|]).
Qed.



Lemma guk_fs_read_reads_witness :
  exists s' p', guk_fs_read (answered demo_rsp (serve_file fs_demo_file)) id 0 1 7 (replicate 4500 9) 4400 100 fs_demo =
      Ok (4100, drop 100 fs_demo_file ++ replicate 400 9, s') /\ fs_ok s' [1; 2; 3; 4; 5; 6; 7] p'.
Proof.
  destruct (guk_fs_read_reads demo_rsp id 0 1 7 fs_demo_file (replicate 4500 9) 4400 100 fs_demo 1 [2; 3; 4; 5; 6; 7] 0 fs_demo_ok) as (s' & p' & H & Hok);
    [lia|lia|by vm_compute|].
  exists s', p'. split; [|exact Hok]. rewrite H.
  assert (length (take (Z.to_nat 4400) (drop (Z.to_nat 100) fs_demo_file)) = 4100%nat) as -> by (by vm_compute).
  assert (take (Z.to_nat 4400) (drop (Z.to_nat 100) fs_demo_file) = drop 100 fs_demo_file) as -> by (by vm_compute).
  assert (drop 4100 (replicate 4500 9) = replicate 400 9) as -> by (by vm_compute). reflexivity.
Defined.

(** Two requests, answered in the other order. *)
Definition fs_demo_two : fs_import :=
  set_ring (FRing 2 0 (SRing 2 1 2 1 (ERsp (FsRsp 2 22) :: ERsp (FsRsp 1 11) :: replicate 6 (ERsp (FsRsp 0 0))))) fs_demo.

Lemma fsfront_handler_delivers_witness : exists e,
  fsfront_handler demo_rsp 1 [] fs_demo_two = Ok (Import 0 8 5
    (FRing 2 2 (set_rsp_event e (shared (ring fs_demo_two)))) (answer_all [FsRsp 2 22; FsRsp 1 11] (requests fs_demo_two))
    (freelist fs_demo_two) false 0 (log fs_demo_two ++ woken [FsRsp 2 22; FsRsp 1 11] (requests fs_demo_two))).
Proof.
  apply (fsfront_handler_delivers demo_rsp fs_demo_two 0 [FsRsp 2 22; FsRsp 1 11] 0); [done|done|done|done|done|by vm_compute| |].
  - intros [|[|k]] x Hx; [by injection Hx as <-|by injection Hx as <-|done].
  - repeat (apply Forall_cons; split; [vm_compute; by split|]). apply Forall_nil_2.
Defined.

(** An error after some pages is added to the number of bytes read: 4096 - 5. *)
Example fs_read_error_hidden :
  (fun '(v, _, _) => v) <$> [get (guk_fs_read (answered demo_rsp (fun q c => match u q with fread _ _ len 0 => (len, c) | _ => (2 ^ 64 - 5, c) end)) id 0 1 7
    (replicate 4500 0) 4500 0 fs_demo) (0, [], fs_demo)] = [4091].
Proof. vm_compute. reflexivity. Qed.

(** Request 2 is answered, request 1 is not: the handler
    delivers the answer, then takes request 1, of type 3, for the answer to request 3, and spins. *)
Example fs_handler_misreads :
  let s := set_ring (FRing 2 0 (SRing 2 1 1 1 (ERsp (FsRsp 2 22) :: EReq (FsReq REQ_FILE_READ 1 (fclose 0)) :: replicate 6 (ERsp (FsRsp 0 0))))) fs_demo in
  fsfront_handler demo_rsp 100 [] s = Fuel /\
  fsfront_handler demo_rsp 100 [id; set_rsp_prod 2] s = Ok (get (fsfront_handler demo_rsp 100 [id; set_rsp_prod 2] s) s) /\
  log (get (fsfront_handler demo_rsp 100 [id; set_rsp_prod 2] s) s) = [Wake 0; Wake 0] /\
  (shadow_rsp <$> (requests (get (fsfront_handler demo_rsp 100 [id; set_rsp_prod 2] s) s))) !! 3%nat = Some (FsRsp REQ_FILE_READ 0).
Proof. vm_compute. by splits. Qed.
