(* ===== verification/FsProto.v ===== *)
(** Several processors submit file requests at the same time: the loops of reserve_fsif_request
    and commit_fsif_request, the passes of fsfront_handler over the ring, and the free list of
    identifiers, in steps of one access to memory.

    The indices of the ring are counted without wrap-around here; the variables of the code hold
    them modulo 2^32, and the code sees no more of them than that.  A thread that sleeps between
    reading [req_prod_pvt] and the exchange while 2^32 requests are made is excluded. *)
From S2P Require Import Prelude Bitmap FreeList SharedRing FsFront.
From stdpp Require Import options.

(** Where a thread is with the request [x]; [idx] is its local variable. *)
Inductive phase :=
| P_idle
| P_again (x : fsif_entry)               (** at the label [again] *)
| P_check (x : fsif_entry) (idx : Z)     (** has read [req_prod_pvt] *)
| P_cas (x : fsif_entry) (idx : Z)       (** has seen that a request is free *)
| P_fill (x : fsif_entry) (idx : Z)      (** has reserved the index *)
| P_commit (x : fsif_entry) (idx : Z).   (** has written the request *)

(** The ring, the requests that the back end has been shown, and the threads; [irq_rp] is the
    local variable [rp] while fsfront_handler is in a pass.  [early] notes whether the handler
    has ever read the index while a request was not answered. *)
Record fring := FRg { fr : front_ring fsif_entry; sent : list fsif_entry; threads : list phase; irq_rp : option Z; early : bool }.

Section Ring.
Set Default Proof Using "Type*".
Context {R : ring_macros fsif_entry} {RO : ring_macros_ok R}.
Local Abbreviation N := (RING_SIZE fsif_entry).

Definition fs_thread_step (ph : phase) (r : front_ring fsif_entry) (out : list fsif_entry)
    : res (phase * front_ring fsif_entry * list fsif_entry) :=
  match ph with
  | P_idle => Ok (P_idle, r, out)
  | P_again x => Ok (P_check x (req_prod_pvt r), r, out)
  | P_check x idx =>
      if wrap32 (N - wrap32 (wrap32 idx - wrap32 (rsp_cons r))) =? 0 then Ok (P_again x, r, out) else Ok (P_cas x idx, r, out)
  | P_cas x idx =>
      if wrap32 (req_prod_pvt r) =? wrap32 idx then Ok (P_fill x idx, FRing (req_prod_pvt r + 1) (rsp_cons r) (shared r), out)
      else Ok (P_again x, r, out)
  | P_fill x idx => sr ← ring_put (wrap32 idx) x (shared r); Ok (P_commit x idx, set_shared sr r, out)
  | P_commit x idx =>
      if wrap32 (req_prod (shared r)) =? wrap32 idx then
        Ok (P_idle, set_shared (set_req_prod (req_prod (shared r) + 1) (shared r)) r, out ++ [x])
      else Ok (P_commit x idx, r, out)
  end.

(** A thread that has read an index is not left behind by 2^32 requests. *)
Definition timely (s : fring) : Prop :=
  forall t x idx, threads s !! t = Some (P_check x idx) \/ threads s !! t = Some (P_cas x idx) -> req_prod_pvt (fr s) - idx < 2 ^ 32.

(** A thread starts a request or takes a step; the back end answers the next request; the
    handler starts a pass by reading [req_prod] - not [rsp_prod] -, and ends it by storing that
    index in [rsp_cons].  What it does between the two does not touch the ring, and the next
    pass, when there are more answers, is the next [F_irq]. *)
Inductive fs_step : fring -> fring -> Prop :=
| F_start s t x :
    threads s !! t = Some P_idle -> fs_step s (FRg (fr s) (sent s) (<[t := P_again x]> (threads s)) (irq_rp s) (early s))
| F_run s t ph ph' r' out' :
    threads s !! t = Some ph -> fs_thread_step ph (fr s) (sent s) = Ok (ph', r', out') ->
    let s' := FRg r' out' (<[t := ph']> (threads s)) (irq_rp s) (early s) in timely s' -> fs_step s s'
| F_answer s y sr :
    rsp_prod (shared (fr s)) < req_prod (shared (fr s)) -> ring_put (wrap32 (rsp_prod (shared (fr s)))) y (shared (fr s)) = Ok sr ->
    fs_step s (FRg (set_shared (set_rsp_prod (rsp_prod sr + 1) sr) (fr s)) (sent s) (threads s) (irq_rp s) (early s))
| F_irq s :
    irq_rp s = None ->
    let rp := req_prod (shared (fr s)) in
    fs_step s (FRg (fr s) (sent s) (threads s) (Some rp) (early s || negb (rsp_prod (shared (fr s)) =? rp)))
| F_irq_end s rp :
    irq_rp s = Some rp ->
    fs_step s (FRg (FRing (req_prod_pvt (fr s)) rp (shared (fr s))) (sent s) (threads s) None (early s)).

Definition held (s : fring) (t : nat) (j : Z) : Prop :=
  exists x, threads s !! t = Some (P_fill x j) \/ threads s !! t = Some (P_commit x j).

(** What holds whatever the handler does. *)
Definition phase_ok (s : fring) (ph : phase) : Prop :=
  match ph with
  | P_idle | P_again _ => True
  | P_check _ idx => 0 <= idx <= req_prod_pvt (fr s)
  | P_cas _ idx => 0 <= idx <= req_prod_pvt (fr s) /\ idx < rsp_cons (fr s) + N
  | P_fill _ idx | P_commit _ idx => req_prod (shared (fr s)) <= idx < req_prod_pvt (fr s)
  end.

Record fring_ok (s : fring) : Prop := {
  r_order : 0 <= rsp_prod (shared (fr s)) <= req_prod (shared (fr s)) /\ 0 <= rsp_cons (fr s) <= req_prod (shared (fr s)) /\
    req_prod (shared (fr s)) <= req_prod_pvt (fr s) <= rsp_cons (fr s) + N;
  r_handler rp : irq_rp s = Some rp -> rsp_cons (fr s) <= rp <= req_prod (shared (fr s));
  r_slots : slots_ok (shared (fr s));
  r_sent : Z.of_nat (length (sent s)) = req_prod (shared (fr s));
  r_phases t ph : threads s !! t = Some ph -> phase_ok s ph;
  r_unique t t' j : held s t j -> held s t' j -> t = t';
  r_held j : req_prod (shared (fr s)) <= j < req_prod_pvt (fr s) -> exists t, held s t j
}.

(** What holds as long as the handler runs only when all requests are answered: it stays behind
    the answers, and no request is overwritten. *)
Record kept (s : fring) : Prop := {
  k_order : rsp_cons (fr s) <= rsp_prod (shared (fr s));
  k_handler rp : irq_rp s = Some rp -> rp <= rsp_prod (shared (fr s));
  k_window k x : rsp_prod (shared (fr s)) <= Z.of_nat k -> sent s !! k = Some x -> slots (shared (fr s)) !! pos fsif_entry (Z.of_nat k) = Some x;
  k_commit t x j : threads s !! t = Some (P_commit x j) -> slots (shared (fr s)) !! pos fsif_entry j = Some x
}.

(** A step of a thread that holds no index before and after keeps who holds what. *)
Definition holds (ph : phase) (j : Z) : Prop := exists x, ph = P_fill x j \/ ph = P_commit x j.

Lemma held_set r out ts h e t ph t' j : (t < length ts)%nat ->
  held (FRg r out (<[t := ph]> ts) h e) t' j <-> (if decide (t' = t) then holds ph j else held (FRg r out ts h e) t' j).
Proof.
  intros Ht. unfold held, holds. cbn [threads]. destruct (decide (t' = t)) as [->|Hne].
  - rewrite list_lookup_insert_eq by done. naive_solver.
  - by rewrite list_lookup_insert_ne.
Qed.

Lemma held_look s t ph j : threads s !! t = Some ph -> held s t j <-> holds ph j.
Proof. unfold held, holds. intros ->. naive_solver. Qed.

Lemma fring_ok_thread s t ph ph' :
  fring_ok s -> threads s !! t = Some ph -> phase_ok s ph' -> (forall j, holds ph j <-> holds ph' j) ->
  fring_ok (FRg (fr s) (sent s) (<[t := ph']> (threads s)) (irq_rp s) (early s)).
Proof.
  intros Hs Ht Hph Hh. pose proof (lookup_lt_Some _ _ _ Ht) as Hlt.
  assert (forall t' j, held (FRg (fr s) (sent s) (<[t := ph']> (threads s)) (irq_rp s) (early s)) t' j <-> held s t' j) as Hheld.
  { intros t' j. rewrite held_set by done. destruct (decide (t' = t)) as [->|]; [|by destruct s]. by rewrite (held_look s t ph), Hh. }
  destruct Hs as [H1 H2 H3 H4 H5 H6 H7]. split; [done..| | |].
  - intros t' ph1 H. cbn [threads] in H. apply list_lookup_insert_Some in H as [(-> & -> & _)|(_ & H)]; [done|]. by apply (H5 t').
  - intros t1 t2 j. rewrite !Hheld. apply H6.
  - intros j Hj. destruct (H7 j Hj) as [t' Ht']. exists t'. by apply Hheld.
Qed.

(** An index that is reserved is within the ring of every position in use. *)
Lemma reserve_ok s t x idx :
  fring_ok s -> timely s -> threads s !! t = Some (P_cas x idx) -> wrap32 (req_prod_pvt (fr s)) = wrap32 idx ->
  fring_ok (FRg (FRing (req_prod_pvt (fr s) + 1) (rsp_cons (fr s)) (shared (fr s))) (sent s) (<[t := P_fill x idx]> (threads s)) (irq_rp s) (early s)).
Proof.
  intros Hs Htime Ht He. pose proof (r_phases _ Hs _ _ Ht) as [Hidx Hfree]. specialize (Htime t x idx (or_intror Ht)).
  apply wrap32_inj in He; [|lia]. subst idx. pose proof (lookup_lt_Some _ _ _ Ht) as Hlt.
  set (s' := FRg _ _ _ _ _). destruct Hs as [H1 H2 H3 H4 H5 H6 H7].
  assert (forall t' j, held s' t' j <-> (if decide (t' = t) then j = req_prod_pvt (fr s) else held s t' j)) as Hheld.
  { intros t' j. unfold s'. rewrite held_set by done. destruct (decide _); [|done]. unfold holds. naive_solver. }
  assert (forall j, ~ held s t j) as Hno.
  { intros j Hj. apply (held_look _ _ _ _ Ht) in Hj as (y & [E|E]); discriminate E. }
  assert (forall t' j, held s t' j -> j < req_prod_pvt (fr s)) as Hlow.
  { intros t' j (y & [Hy|Hy]); specialize (H5 _ _ Hy); simpl in H5; lia. }
  split; [unfold s'; cbn [fr sent threads req_prod_pvt rsp_cons shared]; lia|done|done|done| | |].
  - intros t' ph H. unfold s' in H. cbn [threads] in H. apply list_lookup_insert_Some in H as [(-> & <- & _)|(_ & H)]; [unfold phase_ok, s'; cbn [fr req_prod_pvt rsp_cons shared]; lia|].
    specialize (H5 _ _ H). unfold phase_ok, s'; cbn [fr req_prod_pvt rsp_cons shared]. destruct ph; cbn [phase_ok] in H5; first [done|lia].
  - intros t1 t2 j. rewrite !Hheld. destruct (decide (t1 = t)), (decide (t2 = t)); [congruence| | |apply H6].
    + intros -> Hj. apply Hlow in Hj. lia.
    + intros Hj ->. apply Hlow in Hj. lia.
  - unfold s'; cbn [fr req_prod_pvt shared]. intros j Hj. destruct (decide (j = req_prod_pvt (fr s))) as [->|].
    + exists t. apply Hheld. by rewrite decide_True.
    + destruct (H7 j) as [t' Ht']; [lia|]. exists t'. apply Hheld. destruct (decide (t' = t)) as [->|]; [|done]. by apply Hno in Ht'.
Qed.

(** A write to a slot leaves those of the other indices of one round of the ring. *)
Lemma put_slots s idx y : fring_ok s ->
  let sr := set_slots (<[pos fsif_entry idx := y]> (slots (shared (fr s)))) (shared (fr s)) in
  ring_put (wrap32 idx) y (shared (fr s)) = Ok sr /\ slots_ok sr /\ slots sr !! pos fsif_entry idx = Some y /\
  forall j, - N < j - idx < N -> j <> idx -> slots sr !! pos fsif_entry j = slots (shared (fr s)) !! pos fsif_entry j.
Proof.
  intros Hs sr. pose proof (r_slots _ Hs) as Hsl. rewrite ring_put_pos by done. splits; [done|by apply set_slots_ok| |].
  - cbn [slots set_slots]. apply list_lookup_insert_eq. rewrite Hsl. apply pos_lt.
  - intros j Hj Hne. cbn [slots set_slots]. apply list_lookup_insert_ne. intros E. apply Hne. symmetry. apply pos_inj; [lia|done].
Qed.

(** Writing the request, and publishing it. *)
Lemma fill_ok s t x idx sl :
  fring_ok s -> threads s !! t = Some (P_fill x idx) -> slots_ok (set_slots sl (shared (fr s))) ->
  fring_ok (FRg (set_shared (set_slots sl (shared (fr s))) (fr s)) (sent s) (<[t := P_commit x idx]> (threads s)) (irq_rp s) (early s)).
Proof.
  intros Hs Ht Hsl. pose proof (r_phases _ Hs _ _ Ht) as Hidx. pose proof (lookup_lt_Some _ _ _ Ht) as Hlt. set (s' := FRg _ _ _ _ _).
  assert (forall t' j, held s' t' j <-> held s t' j) as Hheld.
  { intros t' j. unfold s'. rewrite held_set by done. destruct (decide (t' = t)) as [->|]; [|done]. rewrite (held_look s t _ j Ht). unfold holds. naive_solver. }
  destruct Hs as [H1 H2 H3 H4 H5 H6 H7]. split; [done..| | |].
  - intros t' ph H. unfold s' in H. cbn [threads] in H. apply list_lookup_insert_Some in H as [(-> & <- & _)|(Hne & H)]; [exact Hidx|exact (H5 _ _ H)].
  - intros t1 t2 j. rewrite !Hheld. apply H6.
  - intros j Hj. destruct (H7 j Hj) as [t' Ht']. exists t'. by apply Hheld.
Qed.

Lemma commit_ok s t x idx :
  fring_ok s -> threads s !! t = Some (P_commit x idx) -> req_prod (shared (fr s)) = idx ->
  fring_ok (FRg (set_shared (set_req_prod (req_prod (shared (fr s)) + 1) (shared (fr s))) (fr s)) (sent s ++ [x]) (<[t := P_idle]> (threads s)) (irq_rp s) (early s)).
Proof.
  intros Hs Ht He. pose proof (r_phases _ Hs _ _ Ht) as Hidx. cbn [phase_ok] in Hidx. pose proof (lookup_lt_Some _ _ _ Ht) as Hlt. set (s' := FRg _ _ _ _ _).
  assert (held s t idx) as Hmine by (by exists x; right).
  assert (forall t' j, held s' t' j <-> (t' <> t /\ held s t' j)) as Hheld.
  { intros t' j. unfold s'. rewrite held_set by done. destruct (decide (t' = t)) as [->|]; [|naive_solver]. unfold holds. naive_solver. }
  destruct Hs as [H1 H2 H3 H4 H5 H6 H7].
  split; [unfold s'; cbn [fr sent threads req_prod_pvt rsp_cons shared set_shared req_prod rsp_prod set_req_prod]; lia| |done| | | |].
  - unfold s'; cbn [fr irq_rp rsp_cons shared set_shared req_prod set_req_prod]. intros rp Hrp. specialize (H2 rp Hrp). lia.
  - unfold s'; cbn [fr sent shared set_shared req_prod set_req_prod]. rewrite length_app. simpl. lia.
  - intros t' ph H. unfold s' in H. cbn [threads] in H. apply list_lookup_insert_Some in H as [(-> & <- & _)|(Hne & H)]; [done|]. pose proof (H5 _ _ H) as Hph.
    unfold phase_ok, s'. cbn [fr req_prod_pvt rsp_cons shared set_shared req_prod slots set_req_prod].
    destruct ph as [| | | |y j|y j]; cbn [phase_ok] in Hph; try done.
    + assert (j <> idx); [|lia]. intros ->. apply Hne. symmetry. apply (H6 _ _ idx); [by eexists; left|done].
    + assert (j <> idx); [|lia]. intros ->. apply Hne. symmetry. apply (H6 _ _ idx); [by eexists; right|done].
  - intros t1 t2 j [_ Ha]%Hheld [_ Hb]%Hheld. by apply (H6 _ _ j).
  - unfold s'; cbn [fr req_prod_pvt shared set_shared req_prod set_req_prod]. intros j Hj. destruct (H7 j) as [t' Ht']; [lia|]. exists t'. apply Hheld. split; [|done]. intros ->.
    apply (held_look _ _ _ _ Ht) in Ht' as (y & [E|E]); [done|]. injection E. lia.
Qed.

(** The 32-bit test for room in the ring. *)
Lemma check_room idx c : c - 2 ^ 32 < idx <= c + N -> 0 <= idx -> 0 <= c -> wrap32 (N - wrap32 (wrap32 idx - wrap32 c)) <> 0 -> idx < c + N.
Proof.
  pose proof (ring_size_bounds (A := fsif_entry)) as [HN _]. intros Hi H0 Hc Hw. rewrite wrap_sub in Hw. destruct (decide (idx = c + N)) as [->|]; [|lia].
  replace (c + N - c) with N in Hw by lia. rewrite (wrap_small 32 N), Z.sub_diag in Hw by lia. done.
Qed.

(** A step of a thread, with what it writes. *)
Lemma thread_step_ok s t ph ph' r' out' : timely s -> fring_ok s -> threads s !! t = Some ph ->
  fs_thread_step ph (fr s) (sent s) = Ok (ph', r', out') -> fring_ok (FRg r' out' (<[t := ph']> (threads s)) (irq_rp s) (early s)).
Proof.
  intros Htime Hs Ht Hrun. pose proof (r_order _ Hs) as Ho. pose proof (ring_size_bounds (A := fsif_entry)) as [HN _].
  pose proof (r_phases _ Hs _ _ Ht) as Hidx.
  destruct ph as [|x|x idx|x idx|x idx|x idx]; cbn [fs_thread_step phase_ok] in Hrun, Hidx.
  - injection Hrun as <- <- <-. by apply (fring_ok_thread s t P_idle).
  - injection Hrun as <- <- <-. apply (fring_ok_thread s t (P_again x)); [done|done|simpl; lia|]. unfold holds. naive_solver.
  - pose proof (Htime t x idx (or_introl Ht)) as Hage.
    destruct (Z.eqb_spec (wrap32 (N - wrap32 (wrap32 idx - wrap32 (rsp_cons (fr s))))) 0) as [Hz|Hnz]; injection Hrun as <- <- <-.
    + apply (fring_ok_thread s t (P_check x idx)); [done|done|done|]. unfold holds. naive_solver.
    + apply check_room in Hnz; [|lia..]. apply (fring_ok_thread s t (P_check x idx)); [done|done|simpl; lia|]. unfold holds. naive_solver.
  - destruct (Z.eqb_spec (wrap32 (req_prod_pvt (fr s))) (wrap32 idx)) as [He|_]; injection Hrun as <- <- <-.
    + by apply (reserve_ok s t x idx).
    + apply (fring_ok_thread s t (P_cas x idx)); [done|done|done|]. unfold holds. naive_solver.
  - destruct (put_slots s idx x Hs) as (Hput & Hsl & _). rewrite Hput in Hrun. cbn [mbind res_bind] in Hrun. injection Hrun as <- <- <-. by apply fill_ok.
  - destruct (Z.eqb_spec (wrap32 (req_prod (shared (fr s)))) (wrap32 idx)) as [He|_]; injection Hrun as <- <- <-.
    + apply (commit_ok s t x idx); [done|done|]. apply wrap32_inj in He; lia.
    + by apply (fring_ok_thread s t (P_commit x idx)).
Qed.

Lemma fs_step_ok s s' : fs_step s s' -> timely s -> fring_ok s -> fring_ok s'.
Proof.
  intros Hstep Htime Hs. pose proof (r_order _ Hs) as Ho. destruct Hstep as [s t x Ht|s t ph ph' r' out' Ht Hrun s1 _|s y sr Hlt Hput|s Hh rp|s rp Hh].
  - apply (fring_ok_thread s t P_idle); [done..|]. unfold holds. naive_solver.
  - by apply (thread_step_ok s t ph).
  - destruct (put_slots s (rsp_prod (shared (fr s))) y Hs) as (Hput' & Hsl & _). rewrite Hput in Hput'. injection Hput' as ->.
    destruct Hs as [H1 H2 H3 H4 H5 H6 H7]. split; cbn [fr sent threads irq_rp req_prod_pvt rsp_cons shared set_shared req_prod rsp_prod set_rsp_prod set_slots]; [lia|done..].
  - destruct Hs as [H1 H2 H3 H4 H5 H6 H7]. split; cbn [fr sent threads irq_rp req_prod_pvt rsp_cons shared]; [done| |done..]. intros rp' [= <-]. unfold rp. lia.
  - destruct Hs as [H1 H2 H3 H4 H5 H6 H7]. specialize (H2 rp Hh). split; cbn [fr sent threads irq_rp req_prod_pvt rsp_cons shared]; [lia|done..| |done|done].
    intros t ph Ht. pose proof (H5 _ _ Ht) as Hph. unfold phase_ok. cbn [fr req_prod_pvt rsp_cons shared]. destruct ph; cbn [phase_ok] in Hph; first [done|lia].
Qed.

(** ** No request is overwritten before the answer *)

(** A step that writes no slot, with a thread that has not just written one. *)
Lemma kept_thread s t ph r' out' : kept s -> slots (shared r') = slots (shared (fr s)) -> rsp_cons r' = rsp_cons (fr s) ->
  rsp_prod (shared r') = rsp_prod (shared (fr s)) ->
  (forall k x, rsp_prod (shared (fr s)) <= Z.of_nat k -> out' !! k = Some x -> slots (shared (fr s)) !! pos fsif_entry (Z.of_nat k) = Some x) ->
  (forall x j, ph = P_commit x j -> slots (shared (fr s)) !! pos fsif_entry j = Some x) ->
  kept (FRg r' out' (<[t := ph]> (threads s)) (irq_rp s) (early s)).
Proof.
  intros [H1 H2 H3 H4] E1 E2 E3 Hw Hph. split; cbn [fr sent threads irq_rp]; rewrite ?E1, ?E2, ?E3; try done.
  intros t' x j H. apply list_lookup_insert_Some in H as [(-> & -> & _)|(_ & H)]; [by apply Hph|by apply (H4 t')].
Qed.

Lemma kept_run s t ph ph' r' out' : timely s -> fring_ok s -> kept s -> threads s !! t = Some ph ->
  fs_thread_step ph (fr s) (sent s) = Ok (ph', r', out') -> kept (FRg r' out' (<[t := ph']> (threads s)) (irq_rp s) (early s)).
Proof.
  intros Htime Hs Hk Ht Hrun. pose proof (r_order _ Hs) as Ho. pose proof (k_order _ Hk) as Hko. pose proof (r_phases _ Hs _ _ Ht) as Hidx.
  destruct ph as [|x|x idx|x idx|x idx|x idx]; cbn [fs_thread_step phase_ok] in Hrun, Hidx.
  - injection Hrun as <- <- <-. by apply kept_thread; [done..|apply Hk|].
  - injection Hrun as <- <- <-. by apply kept_thread; [done..|apply Hk|].
  - destruct (_ =? 0); injection Hrun as <- <- <-; by apply kept_thread; [done..|apply Hk|].
  - destruct (_ =? _); injection Hrun as <- <- <-; by apply kept_thread; [done..|apply Hk|].
  - destruct (put_slots s idx x Hs) as (Hput & _ & Hself & Hother). rewrite Hput in Hrun. cbn [mbind res_bind] in Hrun. injection Hrun as <- <- <-. set (sr := set_slots _ _) in *.
    split; cbn [fr sent threads irq_rp rsp_cons shared set_shared]; change (rsp_prod sr) with (rsp_prod (shared (fr s))); [done|apply Hk| |].
    + intros k y Hk1 Hy. pose proof (lookup_lt_Some _ _ _ Hy). pose proof (r_sent _ Hs). rewrite Hother by lia. by apply Hk.
    + intros t' y j H. apply list_lookup_insert_Some in H as [(-> & [= -> ->] & _)|(Hne & H)]; [done|].
      pose proof (r_phases _ Hs _ _ H) as Hj. cbn [phase_ok] in Hj. rewrite Hother; [by apply (k_commit _ Hk t')|lia|].
      intros ->. apply Hne. apply (r_unique _ Hs _ _ idx); [by eexists; left|by eexists; right].
  - destruct (Z.eqb_spec (wrap32 (req_prod (shared (fr s)))) (wrap32 idx)) as [He|_]; injection Hrun as <- <- <-.
    + apply kept_thread; [done..| |done]. intros k y Hk1 Hy. apply lookup_app_Some in Hy as [Hy|[Hge Hy]]; [by apply Hk|].
      apply list_lookup_singleton_Some in Hy as [Hk0 <-]. pose proof (r_sent _ Hs).
      pose proof (ring_size_bounds (A := fsif_entry)) as [HN _]. apply wrap32_inj in He; [|lia].
      replace (Z.of_nat k) with idx by lia. by apply (k_commit _ Hk t).
    + apply kept_thread; [done..|apply Hk|]. intros y j [= -> ->]. by apply (k_commit _ Hk t).
Qed.

Lemma kept_step s s' : fs_step s s' -> timely s -> fring_ok s -> (early s = false -> kept s) -> early s' = false -> kept s'.
Proof.
  intros Hstep Htime Hs Hk He. pose proof (r_order _ Hs) as Ho. pose proof (ring_size_bounds (A := fsif_entry)) as [HN _].
  destruct Hstep as [s t x Ht|s t ph ph' r' out' Ht Hrun s1 _|s y sr Hlt Hput|s Hh rp|s rp Hh]; cbn [early] in He.
  - specialize (Hk He). by apply kept_thread; [done..|apply Hk|].
  - specialize (Hk He). by apply (kept_run s t ph).
  - specialize (Hk He). destruct (put_slots s (rsp_prod (shared (fr s))) y Hs) as (Hput' & _ & _ & Hother). rewrite Hput in Hput'. injection Hput' as ->.
    pose proof (k_order _ Hk). pose proof (r_sent _ Hs). set (sr := set_slots _ _) in *.
    split; cbn [fr sent threads irq_rp rsp_cons shared set_shared set_rsp_prod rsp_prod slots].
    + change (rsp_prod sr) with (rsp_prod (shared (fr s))). lia.
    + intros rp Hrp. pose proof (k_handler _ Hk rp Hrp). change (rsp_prod sr) with (rsp_prod (shared (fr s))). lia.
    + change (rsp_prod sr) with (rsp_prod (shared (fr s))). intros k x Hk1 Hx. pose proof (lookup_lt_Some _ _ _ Hx). rewrite Hother by lia. apply Hk; [lia|done].
    + intros t x j Ht. pose proof (r_phases _ Hs _ _ Ht) as Hj. cbn [phase_ok] in Hj. rewrite Hother by lia. by apply (k_commit _ Hk t).
  - apply orb_false_iff in He as [He Hr]. apply negb_false_iff, Z.eqb_eq in Hr. specialize (Hk He). destruct Hk as [H1 H2 H3 H4].
    split; cbn [fr sent threads irq_rp rsp_cons shared]; try done. intros rp' [= <-]. lia.
  - specialize (Hk He). destruct Hk as [H1 H2 H3 H4]. split; cbn [fr sent threads irq_rp rsp_cons shared]; [by apply H2|done..].
Qed.

Lemma timely_step s s' : fs_step s s' -> timely s -> timely s'.
Proof.
  intros Hstep Htime. destruct Hstep as [s t x Ht| |s y sr Hlt Hput|s Hh rp|s rp Hh]; [|done|exact Htime|exact Htime|exact Htime].
  intros t' x' idx H. cbn [threads fr] in H |- *. pose proof (lookup_lt_Some _ _ _ Ht). destruct (decide (t' = t)) as [->|].
  - rewrite list_lookup_insert_eq in H by done. destruct H as [H|H]; discriminate H.
  - rewrite list_lookup_insert_ne in H by done. by apply (Htime t' x').
Qed.

(** The ring is empty, no thread is in a call. *)
Definition fs_start (n : nat) (zero : list fsif_entry) : fring := FRg (FRing 0 0 (SRing 0 1 0 1 zero)) [] (replicate n P_idle) None false.

Lemma reach_ok n zero s : length zero = Z.to_nat N -> rtc fs_step (fs_start n zero) s -> (fring_ok s /\ timely s) /\ (early s = false -> kept s).
Proof.
  intros Hz Hr. pose proof (ring_size_bounds (A := fsif_entry)) as [HN _].
  apply (rtc_ind_r (fun s => (fring_ok s /\ timely s) /\ (early s = false -> kept s)) (fs_start n zero)) in Hr; [done| |].
  - split; [split|]; [| |intros _].
    + split; simpl; [lia|done|done|done| | |intros j Hj; lia].
      * intros t ph H. apply lookup_replicate in H as [-> _]. done.
      * intros t t' j (x & [H|H]); cbn [threads fs_start] in H; apply lookup_replicate in H as [H _]; discriminate H.
    + intros t x idx [H|H]; cbn [threads fs_start] in H; apply lookup_replicate in H as [H _]; discriminate H.
    + split; simpl; [lia|done|done|]. intros t x j H. apply lookup_replicate in H as [H _]. discriminate H.
  - intros y z _ Hstep [[Hok Ht] Hk]. split; [split; [by apply (fs_step_ok y)|by apply (timely_step y)]|by apply (kept_step y)].
Qed.

(** The thread that holds the next index publishes its request by its own steps. *)
Fixpoint solo (n : nat) (t : nat) (s : fring) : option fring :=
  match n with
  | O => Some s
  | S n =>
      ph ← threads s !! t;
      match fs_thread_step ph (fr s) (sent s) with
      | Ok (ph', r', out') => solo n t (FRg r' out' (<[t := ph']> (threads s)) (irq_rp s) (early s))
      | _ => None
      end
  end.

Lemma publishes s t : fring_ok s -> held s t (req_prod (shared (fr s))) ->
  exists n x s', (n <= 2)%nat /\ solo n t s = Some s' /\ sent s' = sent s ++ [x].
Proof.
  intros Hs (x & [Ht|Ht]).
  - destruct (put_slots s (req_prod (shared (fr s))) x Hs) as (Hput & _). pose proof (lookup_lt_Some _ _ _ Ht).
    exists 2%nat, x. eexists. split; [lia|]. cbn [solo]. rewrite Ht. cbn [mbind option_bind fs_thread_step]. rewrite Hput.
    cbn [mbind res_bind threads fr sent]. rewrite list_lookup_insert_eq by done. cbn [mbind option_bind fs_thread_step shared set_shared req_prod set_slots].
    by rewrite Z.eqb_refl.
  - exists 1%nat, x. eexists. split; [lia|]. cbn [solo]. rewrite Ht. cbn [mbind option_bind fs_thread_step]. rewrite Z.eqb_refl. done.
Qed.

(** C28: With any number of threads on any number of processors submitting requests, no index of
    the ring is reserved twice, no step stops, and the loop of commit_fsif_request waits for
    nobody but threads that publish their requests by at most two steps of their own.  As long
    as the interrupt handler has read [req_prod] only when every request was answered, the back
    end sees every request exactly as its thread has written it, in the order of the indices,
    and none is overwritten before it is answered: the entries between the answers and
    [req_prod] are the requests that were published there, and the ring holds no more requests
    than it has slots.  (A handler that reads the index before lets a later request overwrite
    one that is not answered: [early_handler_overwrites].) *)
Theorem fs_ring_protocol n zero s :
  length zero = Z.to_nat N -> rtc fs_step (fs_start n zero) s ->
  (early s = false ->
     (forall k, rsp_prod (shared (fr s)) <= k < req_prod (shared (fr s)) ->
        exists x, sent s !! Z.to_nat k = Some x /\ ring_get (wrap32 k) (shared (fr s)) = Ok x) /\
     (forall t x j, threads s !! t = Some (P_commit x j) -> ring_get (wrap32 j) (shared (fr s)) = Ok x) /\
     req_prod_pvt (fr s) <= rsp_prod (shared (fr s)) + N) /\
  (forall t t' j, held s t j -> held s t' j -> t = t') /\
  (forall t ph, threads s !! t = Some ph -> is_ok (fs_thread_step ph (fr s) (sent s)) = true) /\
  (req_prod (shared (fr s)) < req_prod_pvt (fr s) ->
     exists t n x s', held s t (req_prod (shared (fr s))) /\ (n <= 2)%nat /\ solo n t s = Some s' /\ sent s' = sent s ++ [x]).
Proof.
  intros Hz Hr. destruct (reach_ok n zero s Hz Hr) as [[Hs _] Hk]. pose proof (r_order _ Hs) as Ho. split; [|splits].
  - intros He. specialize (Hk He). splits; [| |pose proof (k_order _ Hk); lia].
    + intros k Hkr. destruct (lookup_lt_is_Some_2 (sent s) (Z.to_nat k)) as [x Hx]; [pose proof (r_sent _ Hs); lia|].
      exists x. split; [done|]. rewrite ring_get_pos by apply Hs. pose proof (k_window _ Hk (Z.to_nat k) x ltac:(lia) Hx) as Hw.
      rewrite Z2Nat.id in Hw by lia. by rewrite Hw.
    + intros t x j Ht. rewrite ring_get_pos by apply Hs. by rewrite (k_commit _ Hk t x j Ht).
  - apply Hs.
  - intros t ph Ht. destruct ph; cbn [fs_thread_step]; try done; [by case_match..| |by case_match].
    by destruct (put_slots s idx x Hs) as (-> & _).
  - intros Hlt. destruct (r_held _ Hs (req_prod (shared (fr s)))) as [t Ht]; [lia|]. destruct (publishes s t Hs Ht) as (m & x & s' & H1 & H2 & H3). eauto 10.
Qed.
End Ring.

(** ** The free list

    The loops of get_id_from_freelist and add_id_to_freelist. *)
Inductive id_phase :=
| I_idle
| I_get                      (** get: at [again] *)
| I_next (old : Z)           (** has read [freelist[0]] *)
| I_gcas (old new : Z)       (** has read [freelist[old_id]] *)
| I_got (id : Z)             (** has the identifier *)
| I_put (id : Z)             (** add: at [again] *)
| I_store (id old : Z)       (** has read [freelist[0]] *)
| I_pcas (id old : Z).       (** has written [freelist[id]] *)

Definition id_step (ph : id_phase) (l : list Z) : res (id_phase * list Z) :=
  match ph with
  | I_idle => Ok (I_get, l)
  | I_get => old ← rd l 0; Ok (I_next old, l)
  | I_next old => new ← rd l old; Ok (I_gcas old new, l)
  | I_gcas old new => h ← rd l 0; if h =? old then l ← wr l 0 new; Ok (I_got (wrap 16 old), l) else Ok (I_get, l)
  | I_got id => Ok (I_put id, l)
  | I_put id => old ← rd l 0; Ok (I_store id old, l)
  | I_store id old => l ← wr l id old; Ok (I_pcas id old, l)
  | I_pcas id old => h ← rd l 0; if h =? old then l ← wr l 0 id; Ok (I_idle, l) else Ok (I_put id, l)
  end.

(** Threads take steps in the order of the list. *)
Fixpoint id_run (order : list nat) (ts : list id_phase) (l : list Z) : res (list id_phase * list Z) :=
  match order with
  | [] => Ok (ts, l)
  | t :: order => ph ← access (ts !! t); '(ph, l) ← id_step ph l; id_run order (<[t := ph]> ts) l
  end.

(** A thread that is not disturbed does what [fl_pop] and [fl_push] say. *)
Lemma id_get_alone l id l' : fl_pop l = Ok (id, l') -> 0 <= id < 2 ^ 16 -> id_run [0; 0; 0; 0]%nat [I_idle] l = Ok ([I_got id], l').
Proof.
  unfold fl_pop. intros H Hid. res_inv. cbn [id_run access lookup list_lookup mbind res_bind id_step insert list_insert].
  rewrite Hr. cbn [mbind res_bind lookup list_lookup access id_step insert list_insert]. rewrite Hr0.
  cbn [mbind res_bind lookup list_lookup access id_step insert list_insert]. rewrite Hr. cbn [mbind res_bind]. rewrite Z.eqb_refl, Hr1.
  cbn [mbind res_bind insert list_insert]. by rewrite wrap_small.
Qed.

(** The comparison of get_id_from_freelist does not notice that the list has changed when its
    first identifier is the same again: thread 0 stops before the exchange; 1 and 2 take
    identifiers 1 and 2, 1 puts 1 back; the exchange of 0 then puts identifier 2 at the head,
    and thread 1 gets it while thread 2 uses it. *)
Example freelist_aba :
  (fun '(ts, _) => ts) <$> [get (id_run ([0; 0; 0] ++ [1; 1; 1; 1] ++ [2; 2; 2; 2] ++ [1; 1; 1; 1] ++ [0] ++ [1; 1; 1; 1])%nat [I_idle; I_idle; I_idle] [1; 2; 3; 0]) ([], [])] =
  [[I_got 1; I_got 2; I_got 2]].
Proof. vm_compute. reflexivity. Qed.

(** ** A concrete run: two threads, the second publishes after the first *)
Definition demo_entry (k : Z) : fsif_entry := EReq (FsReq REQ_FILE_CLOSE k (fclose k)).

Definition demo_fring : fring :=
  FRg (FRing 2 0 (SRing 1 1 0 1 (demo_entry 1 :: demo_entry 2 :: replicate 6 (demo_entry 0)))) [demo_entry 1] [P_idle; P_commit (demo_entry 2) 1] None false.

Ltac demo_timely := intros [|[|?]] ? ? [H|H]; try discriminate H; vm_compute in H; injection H as <- <-; vm_compute; reflexivity.
Ltac fs_norm := match goal with |- rtc _ ?s _ => let s' := eval vm_compute in s in change s with s' end.
Ltac fs_run t := eapply rtc_l; [eapply (F_run (R := demo_macros fsif_entry) _ t); [reflexivity|vm_compute; reflexivity|demo_timely]|]; fs_norm.
Ltac fs_begin t x := eapply rtc_l; [apply (F_start (R := demo_macros fsif_entry) _ t x); reflexivity|]; fs_norm.
Ltac fs_submit t x := fs_begin t x; do 5 fs_run t.

Lemma demo_fring_reach : rtc (fs_step (R := demo_macros fsif_entry)) (fs_start 2 (replicate 8 (demo_entry 0))) demo_fring.
Proof.
  fs_begin 0%nat (demo_entry 1). fs_begin 1%nat (demo_entry 2). do 5 fs_run 0%nat. do 4 fs_run 1%nat. apply rtc_refl.
Qed.

Lemma fs_ring_protocol_witness :
  ring_get (R := demo_macros fsif_entry) 0 (shared (fr demo_fring)) = Ok (demo_entry 1) /\
  exists t n x s', held demo_fring t 1 /\ (n <= 2)%nat /\ solo (R := demo_macros fsif_entry) n t demo_fring = Some s' /\ sent s' = sent demo_fring ++ [x].
Proof.
  destruct (fs_ring_protocol (RO := demo_macros_ok fsif_entry) 2 (replicate 8 (demo_entry 0)) demo_fring eq_refl demo_fring_reach) as (H1 & _ & _ & H5).
  split; [|apply H5; by vm_compute].
  destruct (H1 eq_refl) as (H2 & _). destruct (H2 0) as (x & Hx & Hg); [by vm_compute|]. injection Hx as <-. exact Hg.
Defined.

(** Eight requests fill the ring, the handler runs without an answer, and the ninth request takes
    the slot of the first: the back end finds the ninth twice. *)
Lemma early_handler_overwrites : exists s, rtc (fs_step (R := demo_macros fsif_entry)) (fs_start 1 (replicate 8 (demo_entry 0))) s /\
  rsp_prod (shared (fr s)) = 0 /\ sent s !! 0%nat = Some (demo_entry 1) /\ ring_get (R := demo_macros fsif_entry) 0 (shared (fr s)) = Ok (demo_entry 9).
Proof.
  eexists. split.
  - fs_submit 0%nat (demo_entry 1). fs_submit 0%nat (demo_entry 2). fs_submit 0%nat (demo_entry 3). fs_submit 0%nat (demo_entry 4).
    fs_submit 0%nat (demo_entry 5). fs_submit 0%nat (demo_entry 6). fs_submit 0%nat (demo_entry 7). fs_submit 0%nat (demo_entry 8).
    eapply rtc_l; [apply (F_irq (R := demo_macros fsif_entry)); reflexivity|]. fs_norm.
    eapply rtc_l; [eapply (F_irq_end (R := demo_macros fsif_entry)); reflexivity|]. fs_norm.
    fs_submit 0%nat (demo_entry 9). apply rtc_refl.
  - by vm_compute.
Qed.
