(* ===== verification/DbBack.v ===== *)
(** The debugger back end: db-back.c.

    A thread of the kernel serves the requests of a debugger in another domain: it reads and
    writes the memory of the debugged program through a shared page, suspends, steps and resumes
    its threads, and keeps watchpoints, whose pages are unmapped so that an access faults.  The
    threads are those of [Sched].  The structures of the interface are those of
    tools/db-front/dbif.h; a response goes to the slot of a request, whose fields are read before
    the fields in their place are written.

    The locks around the walks of the thread list are left out, and the floating point
    registers that the page fault handler saves.

    [mem] are the mapped bytes of the memory, [unmapped] the pages that the watchpoints have
    unmapped.  An access by the debugger that faults returns a second time from
    set_db_back_handler (traps.c), here the [None] of [load].  [relax] is what others do
    during a nanosleep. *)
From S2P Require Import Prelude Sched SharedRing.
From stdpp Require Import options.

(** ** The interface *)

Definition REQ_READ_U64 : Z := 1.
Definition REQ_WRITE_U64 : Z := 2.
Definition REQ_GATHER_THREAD : Z := 3.
Definition REQ_SUSPEND_THREAD : Z := 4.
Definition REQ_RESUME_THREAD : Z := 5.
Definition REQ_SINGLE_STEP_THREAD : Z := 6.
Definition REQ_GET_REGS : Z := 7.
Definition REQ_SET_IP : Z := 8.
Definition REQ_GET_THREAD_STACK : Z := 9.
Definition REQ_APP_SPECIFIC1 : Z := 10.
Definition REQ_READBYTES : Z := 11.
Definition REQ_WRITEBYTES : Z := 12.
Definition REQ_DB_DEBUG : Z := 13.
Definition REQ_SIGNOFF : Z := 14.
Definition REQ_SUSPEND_ALL : Z := 15.
Definition REQ_RESUME_ALL : Z := 16.
Definition REQ_ACTIVATE_WP : Z := 17.
Definition REQ_DEACTIVATE_WP : Z := 18.
Definition REQ_WP_INFO : Z := 19.

(** A request; the members of its union lie at two words, and the [kind] of a watchpoint in a
    third: [u0] is an address, a thread, a level; [u1] a value, a number, an instruction
    pointer, a size. *)
Record dbif_request := DbReq { type : Z; q_id : Z; u0 : Z; u1 : Z; kind : Z }.

(** The saved registers that are read or written here. *)
Record pt_regs := Regs {
  r15 : Z; r14 : Z; r13 : Z; r12 : Z; rbp : Z; rbx : Z; r11 : Z; r10 : Z; r9 : Z; r8 : Z;
  rax : Z; rcx : Z; rdx : Z; rsi : Z; rdi : Z; rip : Z; eflags : Z; rsp : Z
}.
Record db_regs := DbRegs { xmm : list Z; gp : pt_regs }.
Definition zero_regs (ip sp : Z) : db_regs := DbRegs (replicate 16 0) (Regs 0 0 0 0 0 0 0 0 0 0 0 0 0 0 0 ip 0 sp).

Record dbif_response := DbRsp { r_id : Z; ret_val : Z; ret_val2 : Z; r_regs : db_regs }.
Inductive dbif_entry := EReq (q : dbif_request) | ERsp (r : dbif_response).

(** [struct x_back_ring] and its macros. *)
Record back_ring := BRing { rsp_prod_pvt : Z; req_cons : Z; b_shared : sring dbif_entry }.

Class back_macros := {
  RING_PUSH_RESPONSES_AND_CHECK_NOTIFY : back_ring -> bool * back_ring;
  RING_FINAL_CHECK_FOR_REQUESTS : back_ring -> bool * back_ring
}.
Class back_macros_ok (B : back_macros) : Prop := {
  push_rsp_law (r : back_ring) : (RING_PUSH_RESPONSES_AND_CHECK_NOTIFY r).2 = BRing (rsp_prod_pvt r) (req_cons r) (set_rsp_prod (rsp_prod_pvt r) (b_shared r));
  final_req_law (r : back_ring) : exists e, RING_FINAL_CHECK_FOR_REQUESTS r =
    (negb (req_prod (b_shared r) =? req_cons r),
     BRing (rsp_prod_pvt r) (req_cons r) (SRing (req_prod (b_shared r)) e (rsp_prod (b_shared r)) (rsp_event (b_shared r)) (slots (b_shared r))))
}.

(** ** The state *)

Record db_watchpoint := WP { w_address : Z; w_page_address : Z; w_size : Z; w_kind : Z; w_pfn : Z }.

Global Instance db_watchpoint_eq_dec : EqDecision db_watchpoint.
Proof. solve_decision. Defined.

(** What the debugger uses of a thread beyond [Sched.thread]; [maxine] says that this is its name. *)
Record thread_info := Info {
  stack : Z; stack_size : Z; maxine : bool; t_ip : Z; t_sp : Z; fpregs : list Z; db_data : option db_watchpoint
}.

Definition DB_EXIT_UNSET : Z := 0.
Definition DB_EXIT_SET : Z := 1.
Definition DB_EXIT_DONE : Z := 2.
Definition DB_EXIT_FIN : Z := 3.

Record db := Db {
  sch : sched;
  info : gmap Z thread_info;
  saved : gmap Z pt_regs;               (** the saved registers by their addresses *)
  mem : gmap Z Z;
  unmapped : gset Z;
  data_page : list Z;
  watchpoints_list : list db_watchpoint;
  db_support : gmap Z db_watchpoint;    (** by the CPU *)
  db_back_access : bool;
  db_back_addr : Z;
  db_exit : Z;
  db_debug_level : Z;
  ring : back_ring
}.

Implicit Types d : db.

Definition set_sch v d := Db v (info d) (saved d) (mem d) (unmapped d) (data_page d) (watchpoints_list d) (db_support d) (db_back_access d) (db_back_addr d) (db_exit d) (db_debug_level d) (ring d).
Definition set_info v d := Db (sch d) v (saved d) (mem d) (unmapped d) (data_page d) (watchpoints_list d) (db_support d) (db_back_access d) (db_back_addr d) (db_exit d) (db_debug_level d) (ring d).
Definition set_saved v d := Db (sch d) (info d) v (mem d) (unmapped d) (data_page d) (watchpoints_list d) (db_support d) (db_back_access d) (db_back_addr d) (db_exit d) (db_debug_level d) (ring d).
Definition set_mem v d := Db (sch d) (info d) (saved d) v (unmapped d) (data_page d) (watchpoints_list d) (db_support d) (db_back_access d) (db_back_addr d) (db_exit d) (db_debug_level d) (ring d).
Definition set_unmapped v d := Db (sch d) (info d) (saved d) (mem d) v (data_page d) (watchpoints_list d) (db_support d) (db_back_access d) (db_back_addr d) (db_exit d) (db_debug_level d) (ring d).
Definition set_data v d := Db (sch d) (info d) (saved d) (mem d) (unmapped d) v (watchpoints_list d) (db_support d) (db_back_access d) (db_back_addr d) (db_exit d) (db_debug_level d) (ring d).
Definition set_wps v d := Db (sch d) (info d) (saved d) (mem d) (unmapped d) (data_page d) v (db_support d) (db_back_access d) (db_back_addr d) (db_exit d) (db_debug_level d) (ring d).
Definition set_support v d := Db (sch d) (info d) (saved d) (mem d) (unmapped d) (data_page d) (watchpoints_list d) v (db_back_access d) (db_back_addr d) (db_exit d) (db_debug_level d) (ring d).
Definition set_access b a d := Db (sch d) (info d) (saved d) (mem d) (unmapped d) (data_page d) (watchpoints_list d) (db_support d) b a (db_exit d) (db_debug_level d) (ring d).
Definition set_exit v d := Db (sch d) (info d) (saved d) (mem d) (unmapped d) (data_page d) (watchpoints_list d) (db_support d) (db_back_access d) (db_back_addr d) v (db_debug_level d) (ring d).
Definition set_level v d := Db (sch d) (info d) (saved d) (mem d) (unmapped d) (data_page d) (watchpoints_list d) (db_support d) (db_back_access d) (db_back_addr d) (db_exit d) v (ring d).
Definition set_ring v d := Db (sch d) (info d) (saved d) (mem d) (unmapped d) (data_page d) (watchpoints_list d) (db_support d) (db_back_access d) (db_back_addr d) (db_exit d) (db_debug_level d) v.

(** A thread of the scheduler. *)
Definition d_thr (t : Z) d : res thread := thr (sch d) t.
Definition d_upd (t : Z) (f : thread -> thread) d : res db := s ← upd t f (sch d); Ok (set_sch s d).

Abbreviation is_watchpoint := (is_flag WATCH_FLAG).

Definition minus (n : Z) : Z := wrap64 (- n).

Definition round_pgdown (a : Z) : Z := Z.land a (Z.lnot 4095).

(** A byte of the memory; [None] is a page fault. *)
Definition load (a : Z) d : option Z := if bool_decide (round_pgdown a ∈ unmapped d) then None else mem d !! a.
Definition store (a v : Z) d : option db := _ ← load a d; Some (set_mem (<[a := v]> (mem d)) d).

Section Code.
Context (E : sched_env) (cpu : Z) {R : ring_macros dbif_entry} {B : back_macros}.
Context (as_rsp : dbif_entry -> dbif_response) (relax : db -> db) (fuel : nat).
(** guk_not11_virt_to_pfn, and the hook of the application. *)
Context (not11_virt_to_pfn : Z -> Z) (app_specific1 : dbif_request -> dbif_response -> db -> dbif_response * db).

(** ** Responses *)

Definition get_response d : Z * db :=
  let r := ring d in (rsp_prod_pvt r, set_ring (BRing (wrap32 (rsp_prod_pvt r + 1)) (req_cons r) (b_shared r)) d).

(** The assignments to a response. *)
Definition fill (idx : Z) (f : dbif_response -> dbif_response) d : res db :=
  e ← ring_get idx (b_shared (ring d));
  sr ← ring_put idx (ERsp (f (as_rsp e))) (b_shared (ring d));
  Ok (set_ring (BRing (rsp_prod_pvt (ring d)) (req_cons (ring d)) sr) d).

Definition set_ret (id v : Z) (r : dbif_response) : dbif_response := DbRsp id v (ret_val2 r) (r_regs r).
Definition set_ret2 (id v v2 : Z) (r : dbif_response) : dbif_response := DbRsp id v v2 (r_regs r).
Definition set_ret_regs (id v : Z) (x : db_regs) (r : dbif_response) : dbif_response := DbRsp id v (ret_val2 r) x.

Definition respond (f : dbif_response -> dbif_response) d : res db := let '(idx, d) := get_response d in fill idx f d.

(** ** Memory *)

Fixpoint load_word (n : nat) (a : Z) d : option Z :=
  match n with O => Some 0 | S n => b ← load a d; v ← load_word n (a + 1) d; Some (b + 256 * v) end.

Fixpoint store_word (n : nat) (a v : Z) d : option db :=
  match n with O => Some d | S n => d ← store a (v mod 256) d; store_word n (a + 1) (v / 256) d end.

Definition dispatch_read_u64 (q : dbif_request) d : res db :=
  v ← access (load_word 8 (u0 q) d); respond (set_ret (q_id q) v) d.

Definition dispatch_write_u64 (q : dbif_request) d : res db :=
  d ← access (store_word 8 (u0 q) (u1 q) d); respond (set_ret (q_id q) 0) d.

(** The loops: whether they ended without a fault. *)
Fixpoint readbytes_loop (n : nat) (i pointer : Z) d : res (bool * db) :=
  match n with
  | O => Ok (true, d)
  | S n =>
      let d := set_access true pointer d in
      match load pointer d with
      | Some b => l ← set_elem (data_page d) i b; readbytes_loop n (i + 1) (wrap64 (pointer + 1)) (set_data l d)
      | None => Ok (false, d)
      end
  end.

Definition dispatch_readbytes (q : dbif_request) d : res db :=
  let n := wrap 16 (u1 q) in
  let '(idx, d) := get_response d in
  '(done, d) ← readbytes_loop (Z.to_nat n) 0 (u0 q) d;
  fill idx (set_ret (q_id q) (if done : bool then n else 0)) (set_access false (db_back_addr d) d).

Fixpoint writebytes_loop (n : nat) (i pointer : Z) d : res (bool * db) :=
  match n with
  | O => Ok (true, d)
  | S n =>
      let d := set_access true pointer d in
      b ← elem (data_page d) i;
      match store pointer b d with
      | Some d => writebytes_loop n (i + 1) (wrap64 (pointer + 1)) d
      | None => Ok (false, d)
      end
  end.

Definition dispatch_writebytes (q : dbif_request) d : res db :=
  let n := wrap 16 (u1 q) in
  let '(idx, d) := get_response d in
  '(done, d) ← writebytes_loop (Z.to_nat n) 0 (u0 q) d;
  fill idx (set_ret (q_id q) (if done : bool then n else 0)) d.

(** ** Threads *)

Definition is_app_thread (t : Z) d : res bool :=
  th ← d_thr t d; i ← access (info d !! t); Ok (negb (is_ukernel th) || maxine i).

Definition find_thread (i : Z) d : res (option Z) := get_thread_by_id i (sch d).

(** The bytes of a number, least first, at offset [o] of the shared page. *)
Fixpoint put_word (n : nat) (o v : Z) (l : list Z) : res (list Z) :=
  match n with O => Ok l | S n => l ← set_elem l o (v mod 256); put_word n (o + 1) (v / 256) l end.

(** [struct db_thread]: 24 bytes. *)
Fixpoint gather_loop (ts : list Z) (n : Z) d : res (Z * db) :=
  match ts with
  | [] => Ok (n, d)
  | t :: ts =>
      app ← is_app_thread t d;
      if app : bool then
        th ← d_thr t d;
        i ← access (info d !! t);
        l ← put_word 2 (24 * n) (id th) (data_page d);
        l ← put_word 4 (24 * n + 4) (flags th) l;
        l ← put_word 8 (24 * n + 8) (stack i) l;
        l ← put_word 8 (24 * n + 16) (stack_size i) l;
        gather_loop ts (n + 1) (set_data l d)
      else gather_loop ts n d
  end.

Definition dispatch_gather_threads (q : dbif_request) d : res db :=
  '(numThreads, d) ← gather_loop (thread_list (sch d)) 0 d;
  if db_exit d =? DB_EXIT_SET then d ← respond (set_ret (q_id q) (minus 1)) d; Ok (set_exit DB_EXIT_DONE d)
  else respond (set_ret (q_id q) numThreads) d.

Fixpoint clear_req_loop (ts : list Z) d : res db :=
  match ts with
  | [] => Ok d
  | t :: ts =>
      th ← d_thr t d;
      d ← (if is_req_debug_suspend th then d_upd t (clear_flag REQ_DEBUG_SUSPEND_FLAG) d else Ok d);
      clear_req_loop ts d
  end.

Definition clear_all_req_debug_suspend d : res db := clear_req_loop (thread_list (sch d)) d.

(** [while(is_runnable(thread) || is_running(thread)) nanosleep(RELAX_NS)] *)
Fixpoint wait_stopped (n : nat) (t : Z) d : res db :=
  th ← d_thr t d;
  if is_runnable th || is_running th then match n with O => Fuel | S n => wait_stopped n t (relax d) end else Ok d.

(** The first thread of the list with a property. *)
Fixpoint first_thread (p : thread -> bool) (ts : list Z) d : res (option Z) :=
  match ts with
  | [] => Ok None
  | t :: ts => app ← is_app_thread t d; th ← d_thr t d; if app && p th then Ok (Some t) else first_thread p ts d
  end.

Definition suspend_thread (t : Z) d : res db :=
  th ← d_thr t d;
  if negb (is_runnable th) then
    if negb (is_debug_suspend th) then d_upd t (fun x => set_flag RESCHED_FLAG (set_flag REQ_DEBUG_SUSPEND_FLAG x)) d else Ok d
  else
    d ← d_upd t (fun x => set_flag RESCHED_FLAG (set_flag REQ_DEBUG_SUSPEND_FLAG x)) d;
    d ← wait_stopped fuel t d;
    th ← d_thr t d;
    _ ← bug_on (negb (preempt_count th =? 1));
    Ok d.

Definition d_wake (t : Z) d : res db := s ← db_wake E cpu t (sch d); Ok (set_sch s d).

Definition set_trap_flag (r : pt_regs) : pt_regs :=
  Regs (r15 r) (r14 r) (r13 r) (r12 r) (rbp r) (rbx r) (r11 r) (r10 r) (r9 r) (r8 r) (rax r) (rcx r) (rdx r) (rsi r) (rdi r) (rip r) (Z.lor (eflags r) 0x100) (rsp r).
Definition clear_trap_flag (r : pt_regs) : pt_regs :=
  Regs (r15 r) (r14 r) (r13 r) (r12 r) (rbp r) (rbx r) (r11 r) (r10 r) (r9 r) (r8 r) (rax r) (rcx r) (rdx r) (rsi r) (rdi r) (rip r) (Z.land (eflags r) (Z.lnot 0x100)) (rsp r).
Definition set_rip (ip : Z) (r : pt_regs) : pt_regs :=
  Regs (r15 r) (r14 r) (r13 r) (r12 r) (rbp r) (rbx r) (r11 r) (r10 r) (r9 r) (r8 r) (rax r) (rcx r) (rdx r) (rsi r) (rdi r) ip (eflags r) (rsp r).

Definition upd_regs (a : Z) (f : pt_regs -> pt_regs) d : res db := r ← access (saved d !! a); Ok (set_saved (<[a := f r]> (saved d)) d).

Definition single_step_thread (t : Z) d : res db :=
  d ← d_upd t (set_flag STEPPING_FLAG) d;
  th ← d_thr t d;
  _ ← bug_on (negb (preempt_count th =? 1));
  _ ← bug_on (regs th =? 0);
  d ← upd_regs (regs th) set_trap_flag d;
  d ← d_wake t d;
  d ← wait_stopped fuel t d;
  d_upd t (clear_flag STEPPING_FLAG) d.

Definition dispatch_suspend_thread (q : dbif_request) d : res db :=
  o ← find_thread (wrap 16 (u0 q)) d;
  let '(idx, d) := get_response d in
  match o with
  | None => fill idx (set_ret (q_id q) (minus 1)) d
  | Some t => d ← suspend_thread t d; fill idx (set_ret (q_id q) 0) d
  end.

Definition dispatch_single_step_thread (q : dbif_request) d : res db :=
  o ← find_thread (wrap 16 (u0 q)) d;
  let '(idx, d) := get_response d in
  match o with
  | None => fill idx (set_ret (q_id q) (minus 1)) d
  | Some t =>
      th ← d_thr t d;
      if negb (is_debug_suspend th) || is_runnable th || is_running th then fill idx (set_ret (q_id q) (minus 2)) d
      else d ← single_step_thread t d; fill idx (set_ret (q_id q) 0) d
  end.

(** A thread that is not found is looked at all the same. *)
Definition dispatch_resume_thread (q : dbif_request) d : res db :=
  d ← clear_all_req_debug_suspend d;
  o ← find_thread (wrap 16 (u0 q)) d;
  let '(idx, d) := get_response d in
  d ← (match o with None => fill idx (set_ret (q_id q) (minus 1)) d | Some _ => Ok d end);
  t ← access o;
  th ← d_thr t d;
  if negb (is_debug_suspend th) || is_runnable th || is_running th then fill idx (set_ret (q_id q) (minus 2)) d
  else
    d ← d_upd t (clear_flag DEBUG_SUSPEND_FLAG) d;
    d ← d_wake t d;
    fill idx (set_ret (q_id q) 0) d.

Definition dispatch_get_regs (q : dbif_request) d : res db :=
  o ← find_thread (wrap 16 (u0 q)) d;
  let '(idx, d) := get_response d in
  match o with
  | None => fill idx (set_ret (q_id q) (minus 1)) d
  | Some t =>
      th ← d_thr t d;
      if is_runnable th || is_running th then fill idx (set_ret (q_id q) (minus 2)) d
      else
        i ← access (info d !! t);
        if regs th =? 0 then fill idx (set_ret_regs (q_id q) 0 (zero_regs (t_ip i) (t_sp i))) d
        else r ← access (saved d !! regs th); fill idx (set_ret_regs (q_id q) 0 (DbRegs (fpregs i) r)) d
  end.

Definition dispatch_set_ip (q : dbif_request) d : res db :=
  o ← find_thread (wrap 16 (u0 q)) d;
  let '(idx, d) := get_response d in
  match o with
  | None => fill idx (set_ret (q_id q) (minus 1)) d
  | Some t =>
      th ← d_thr t d;
      if is_runnable th || is_running th then fill idx (set_ret (q_id q) (minus 2)) d
      else if regs th =? 0 then fill idx (set_ret (q_id q) (minus 3)) d
      else d ← fill idx (set_ret (q_id q) 0) d; upd_regs (regs th) (set_rip (u1 q)) d
  end.

(** The second assignment for a thread that is not found is to the same field. *)
Definition dispatch_get_thread_stack (q : dbif_request) d : res db :=
  o ← find_thread (wrap 16 (u0 q)) d;
  match o with
  | Some t => i ← access (info d !! t); respond (set_ret2 (q_id q) (stack i) (stack_size i)) d
  | None => respond (fun r => set_ret (q_id q) 0 (set_ret (q_id q) (minus 1) r)) d
  end.

Definition dispatch_app_specific1 (q : dbif_request) d : res db :=
  let '(idx, d) := get_response d in
  e ← ring_get idx (b_shared (ring d));
  let '(r, d) := app_specific1 q (as_rsp e) d in
  fill idx (fun _ => DbRsp (q_id q) (ret_val r) (ret_val2 r) (r_regs r)) d.

Definition dispatch_db_debug (q : dbif_request) d : res db :=
  let new_level := sgn32 (u0 q) in
  d ← respond (set_ret (q_id q) (wrap64 (db_debug_level d))) d; Ok (set_level new_level d).

Definition dispatch_db_signoff (q : dbif_request) d : res db := Ok (set_exit DB_EXIT_FIN d).

(** ** Watchpoints *)

(** The loop: an exact match, else the last one on the page. *)
Fixpoint watchpoint_loop (address : Z) (l : list db_watchpoint) (result : option db_watchpoint) : option db_watchpoint :=
  match l with
  | [] => result
  | wp :: l =>
      if w_address wp =? address then Some wp
      else watchpoint_loop address l (if w_page_address wp =? round_pgdown address then Some wp else result)
  end.

Definition get_watchpoint (address : Z) d : option db_watchpoint := watchpoint_loop address (watchpoints_list d) None.

(** guk_unmap_page_pfn and guk_remap_page_pfn of the page. *)
Definition activate_watchpoint (wp : db_watchpoint) d : db := set_unmapped ({[w_page_address wp]} ∪ unmapped d) d.
Definition deactivate_watchpoint (wp : db_watchpoint) d : db := set_unmapped (unmapped d ∖ {[w_page_address wp]}) d.

Definition activate_watchpoints d : db := foldl (fun d wp => activate_watchpoint wp d) d (watchpoints_list d).
Definition deactivate_watchpoints d : db := foldl (fun d wp => deactivate_watchpoint wp d) d (watchpoints_list d).

(** The debugger reads the address once to see that it faults. *)
Definition validate_watchpoint (address : Z) d : db := set_access false address d.

Definition dispatch_db_activate_watchpoint (q : dbif_request) d : res db :=
  let '(idx, d) := get_response d in
  let wp := WP (u0 q) (round_pgdown (u0 q)) (u1 q) (kind q) (not11_virt_to_pfn (u0 q)) in
  let d := activate_watchpoint wp (set_wps (watchpoints_list d ++ [wp]) d) in
  let d := if 2 <=? db_debug_level d then validate_watchpoint (w_address wp) d else d in
  fill idx (set_ret (q_id q) 1) d.

(** [list_del] of an entry. *)
Fixpoint remove_wp (wp : db_watchpoint) (l : list db_watchpoint) : list db_watchpoint :=
  match l with [] => [] | x :: l => if decide (x = wp) then l else x :: remove_wp wp l end.

Definition dispatch_db_deactivate_watchpoint (q : dbif_request) d : res db :=
  let '(idx, d) := get_response d in
  match get_watchpoint (u0 q) d with
  | Some wp =>
      if w_address wp =? u0 q then
        let d := set_wps (remove_wp wp (watchpoints_list d)) d in
        let d := match get_watchpoint (u0 q) d with None => deactivate_watchpoint wp d | Some _ => d end in
        fill idx (set_ret (q_id q) 1) d
      else fill idx (set_ret (q_id q) 0) d
  | None => fill idx (set_ret (q_id q) 0) d
  end.

Definition dispatch_db_watchpoint_info (q : dbif_request) d : res db :=
  let '(idx, d) := get_response d in
  o ← find_thread (wrap 16 (u0 q)) d;
  match o with
  | None => fill idx (set_ret (q_id q) (minus 1)) d
  | Some t =>
      th ← d_thr t d;
      if negb (is_watchpoint th) then fill idx (set_ret (q_id q) (minus 1)) d
      else
        i ← access (info d !! t);
        wp ← access (db_data i);
        fill idx (set_ret2 (q_id q) (w_address wp) (w_kind wp)) d
  end.

(** The page fault handler, with the address of the registers, and the trap after one
    instruction. *)
Definition db_is_watchpoint (address fault_regs : Z) d : res (bool * db) :=
  t ← current (sch d) cpu;
  match get_watchpoint address d with
  | None => Ok (false, d)
  | Some wp =>
      if w_address wp =? address then
        th ← d_thr t d;
        _ ← bug_on (negb (is_preemptible th));
        i ← access (info d !! t);
        let d := set_info (<[t := Info (stack i) (stack_size i) (maxine i) (t_ip i) (t_sp i) (fpregs i) (Some wp)]> (info d)) d in
        d ← d_upd t (fun x => set_flag RESCHED_FLAG (set_flag REQ_DEBUG_SUSPEND_FLAG (set_flag WATCH_FLAG x))) d;
        Ok (true, d)
      else
        let d := deactivate_watchpoint wp d in
        d ← upd_regs fault_regs set_trap_flag (set_support (<[cpu := wp]> (db_support d)) d);
        Ok (true, d)
  end.

Definition db_watchpoint_step (fault_regs : Z) d : res (bool * db) :=
  match db_support d !! cpu with
  | None => Ok (false, d)
  | Some wp =>
      d ← upd_regs fault_regs clear_trap_flag (activate_watchpoint wp d);
      Ok (true, set_support (delete cpu (db_support d)) d)
  end.

(** ** All threads *)

Fixpoint step_watched (n : nat) d : res db :=
  o ← first_thread is_watchpoint (thread_list (sch d)) d;
  match o with
  | None => Ok d
  | Some t =>
      match n with
      | O => Fuel
      | S n =>
          d ← single_step_thread t d;
          d ← d_upd t (clear_flag WATCH_FLAG) d;
          d ← d_upd t (clear_flag REQ_DEBUG_SUSPEND_FLAG) d;
          step_watched n d
      end
  end.

Fixpoint wake_suspended (ts : list Z) d : res db :=
  match ts with
  | [] => Ok d
  | t :: ts =>
      app ← is_app_thread t d;
      th ← d_thr t d;
      d ← (if app && is_debug_suspend th then d ← d_upd t (clear_flag DEBUG_SUSPEND_FLAG) d; d_wake t d else Ok d);
      wake_suspended ts d
  end.

Definition dispatch_resume_all (q : dbif_request) d : res db :=
  d ← respond (set_ret (q_id q) 0) d;
  d ← clear_all_req_debug_suspend d;
  d ← step_watched fuel d;
  let d := activate_watchpoints d in
  wake_suspended (thread_list (sch d)) d.

Fixpoint suspend_all_loop (n : nat) d : res db :=
  o ← first_thread (fun th => negb (is_debug_suspend th || is_req_debug_suspend th)) (thread_list (sch d)) d;
  match o with
  | None => Ok d
  | Some t => match n with O => Fuel | S n => d ← suspend_thread t d; suspend_all_loop n d end
  end.

Definition dispatch_suspend_all (q : dbif_request) d : res db :=
  d ← respond (set_ret (q_id q) 0) d;
  d ← suspend_all_loop fuel d;
  Ok (deactivate_watchpoints d).

(** ** The thread that serves the ring *)

Definition dispatch_request (q : dbif_request) d : res db :=
  if type q =? REQ_READ_U64 then dispatch_read_u64 q d
  else if type q =? REQ_WRITE_U64 then dispatch_write_u64 q d
  else if type q =? REQ_READBYTES then dispatch_readbytes q d
  else if type q =? REQ_WRITEBYTES then dispatch_writebytes q d
  else if type q =? REQ_GATHER_THREAD then dispatch_gather_threads q d
  else if type q =? REQ_SUSPEND_THREAD then dispatch_suspend_thread q d
  else if type q =? REQ_RESUME_THREAD then dispatch_resume_thread q d
  else if type q =? REQ_SUSPEND_ALL then dispatch_suspend_all q d
  else if type q =? REQ_RESUME_ALL then dispatch_resume_all q d
  else if type q =? REQ_SINGLE_STEP_THREAD then dispatch_single_step_thread q d
  else if type q =? REQ_GET_REGS then dispatch_get_regs q d
  else if type q =? REQ_GET_THREAD_STACK then dispatch_get_thread_stack q d
  else if type q =? REQ_SET_IP then dispatch_set_ip q d
  else if type q =? REQ_APP_SPECIFIC1 then dispatch_app_specific1 q d
  else if type q =? REQ_DB_DEBUG then dispatch_db_debug q d
  else if type q =? REQ_SIGNOFF then dispatch_db_signoff q d
  else if type q =? REQ_ACTIVATE_WP then dispatch_db_activate_watchpoint q d
  else if type q =? REQ_DEACTIVATE_WP then dispatch_db_deactivate_watchpoint q d
  else if type q =? REQ_WP_INFO then dispatch_db_watchpoint_info q d
  else Bug BUG_ON.

Context (rsp_as_req : dbif_response -> dbif_request).
Definition as_req (e : dbif_entry) : dbif_request := match e with EReq q => q | ERsp r => rsp_as_req r end.

(** The loop over the requests. *)
Fixpoint serve_requests (n : nat) (rp : Z) d : res db :=
  let cons := req_cons (ring d) in
  if cons =? rp then Ok d
  else
    match n with
    | O => Fuel
    | S n =>
        e ← ring_get cons (b_shared (ring d));
        d ← dispatch_request (as_req e) d;
        serve_requests n rp (set_ring (BRing (rsp_prod_pvt (ring d)) (wrap32 (req_cons (ring d) + 1)) (b_shared (ring d))) d)
    end.

(** One pass, from [moretodo] to the next test of [more], without the notification: the result
    says whether there is more to do; otherwise the thread calls schedule(), blocked.
    preempt_enable is here without its check for rescheduling, as in [Sched].  [others] is what
    the front end does between the push and the test. *)
Definition ring_pass (this_thread : Z) (others : db -> db) d : res (bool * db) :=
  let rp := req_prod (b_shared (ring d)) in
  d ← serve_requests (Z.to_nat (wrap32 (rp - req_cons (ring d)))) rp d;
  let '(notify, r) := RING_PUSH_RESPONSES_AND_CHECK_NOTIFY (ring d) in
  let d := set_ring r d in
  s ← preempt_disable cpu (sch d);
  s ← guk_block cpu this_thread s;
  let d := others (set_sch s d) in
  let '(more, r) := RING_FINAL_CHECK_FOR_REQUESTS (ring d) in
  let d := set_ring r d in
  d ← (if more : bool then d_wake this_thread d else Ok d);
  s ← preempt_enable_no_resched cpu (sch d);
  Ok (more, set_sch s d).

Definition db_evt_handler (thread : Z) d : res db := d_wake thread d.

(** ** The end of the application *)

(** [relax] is what the others do during schedule(). *)
Fixpoint wait_signoff (n : nat) d : res db :=
  if db_exit d =? DB_EXIT_FIN then Ok d else match n with O => Fuel | S n => wait_signoff n (relax d) end.

Definition guk_db_exit_notify_and_wait (db_in_use : bool) d : res db :=
  if db_in_use then wait_signoff fuel (if db_exit d =? DB_EXIT_UNSET then set_exit DB_EXIT_SET d else d) else Ok d.
End Code.

Definition guk_crash_to_debugger (cpu : Z) d : res db :=
  t ← current (sch d) cpu;
  d_upd t (fun x => Thread 0 (flags x) (regs x) (id x) (appsched_id x) (guk_stack_allocated x) (t_timeslice x)
    (resched_running_time x) (start_running_time x) (cum_running_time x) (t_cpu x) 0 (started x) (joiners x)) d.
