(* ===== verification/DbProps.v ===== *)
(** What the debugger back end does: the transfer of memory through the shared page, the
    watchpoints, and the requests about single threads. *)
From S2P Require Import Prelude Sched SchedReach SharedRing DbBack.
From stdpp Require Import options.

Section Watch.
Implicit Types d : db.

(** ** Watchpoints *)

Definition on_page (p : Z) (l : list db_watchpoint) : Prop := exists wp, wp ∈ l /\ w_page_address wp = p.

(** Every watchpoint knows its page. *)
Definition pages_ok (l : list db_watchpoint) : Prop := Forall (fun wp => w_page_address wp = round_pgdown (w_address wp)) l.

(** The pages that fault are pages of watchpoints; every page of a watchpoint faults. *)
Definition guarded d : Prop := forall p, p ∈ unmapped d -> on_page p (watchpoints_list d).
Definition armed d : Prop := forall p, on_page p (watchpoints_list d) -> p ∈ unmapped d.

Lemma watchpoint_loop_spec a l : forall o,
  match watchpoint_loop a l o with
  | Some wp => wp ∈ l /\ (w_address wp = a \/ w_page_address wp = round_pgdown a /\ Forall (fun x => w_address x <> a) l) \/
      o = Some wp /\ Forall (fun x => w_address x <> a /\ w_page_address x <> round_pgdown a) l
  | None => o = None /\ Forall (fun x => w_address x <> a /\ w_page_address x <> round_pgdown a) l
  end.
Proof.
  induction l as [|x l IH]; intros o; cbn [watchpoint_loop].
  { destruct o; [right|]; done. }
  destruct (Z.eqb_spec (w_address x) a) as [Hx|Hx]; [left; split; [by left|by left]|].
  specialize (IH (if w_page_address x =? round_pgdown a then Some x else o)). destruct (watchpoint_loop a l _) as [wp|].
  - destruct IH as [[Hin Hcase]|[Ho Hall]].
    + left. split; [by right|]. destruct Hcase as [?|[? ?]]; [by left|right]. split; [done|by apply Forall_cons].
    + destruct (Z.eqb_spec (w_page_address x) (round_pgdown a)) as [Hp|Hp].
      * injection Ho as <-. left. split; [by left|]. right. split; [done|]. apply Forall_cons. split; [done|]. eapply Forall_impl; [exact Hall|]. naive_solver.
      * right. split; [done|]. by apply Forall_cons.
  - destruct IH as [Ho Hall]. destruct (Z.eqb_spec (w_page_address x) (round_pgdown a)) as [Hp|Hp]; [discriminate Ho|]. split; [done|]. by apply Forall_cons.
Qed.

Lemma get_watchpoint_spec a d : pages_ok (watchpoints_list d) ->
  match get_watchpoint a d with
  | Some wp => wp ∈ watchpoints_list d /\ w_page_address wp = round_pgdown a /\
      (w_address wp = a \/ Forall (fun x => w_address x <> a) (watchpoints_list d))
  | None => ~ on_page (round_pgdown a) (watchpoints_list d)
  end.
Proof.
  intros Hok. unfold get_watchpoint. pose proof (watchpoint_loop_spec a (watchpoints_list d) None) as H. unfold pages_ok in Hok. rewrite Forall_forall in Hok.
  destruct (watchpoint_loop a (watchpoints_list d) None) as [wp|].
  - destruct H as [[Hin Hcase]|[H _]]; [|discriminate H]. split; [done|]. destruct Hcase as [Ha|[Hp Hall]]; [|by split; [|right]].
    split; [rewrite (Hok wp Hin); by rewrite Ha|by left].
  - destruct H as [_ Hall]. intros (wp & Hin & Hp). rewrite Forall_forall in Hall. by apply (Hall wp Hin).
Qed.

Lemma foldl_activate l : forall d, foldl (fun d wp => activate_watchpoint wp d) d l = set_unmapped (list_to_set (w_page_address <$> l) ∪ unmapped d) d.
Proof.
  induction l as [|wp l IH]; intros d; cbn [foldl fmap list_fmap list_to_set].
  { rewrite (left_id_L ∅ (∪)). by destruct d. }
  rewrite IH. unfold activate_watchpoint, set_unmapped. cbn. f_equal. set_solver.
Qed.

Lemma foldl_deactivate l : forall d, foldl (fun d wp => deactivate_watchpoint wp d) d l = set_unmapped (unmapped d ∖ list_to_set (w_page_address <$> l)) d.
Proof.
  induction l as [|wp l IH]; intros d; cbn [foldl fmap list_fmap list_to_set].
  { rewrite difference_empty_L. by destruct d. }
  rewrite IH. unfold deactivate_watchpoint, set_unmapped. cbn. f_equal. set_solver.
Qed.

(** When the program goes on, exactly the pages of the watchpoints fault; when it is stopped, none does. *)
Lemma resume_arms d : guarded d -> guarded (activate_watchpoints d) /\ armed (activate_watchpoints d).
Proof.
  intros Hg. unfold activate_watchpoints, guarded, armed. rewrite foldl_activate. cbn [unmapped watchpoints_list set_unmapped].
  setoid_rewrite elem_of_union. setoid_rewrite elem_of_list_to_set. setoid_rewrite list_elem_of_fmap. split.
  - intros p [(wp & -> & Hin)|Hp]; [by exists wp|by apply Hg].
  - intros p (wp & Hin & <-). left. by exists wp.
Qed.

Lemma suspend_disarms d : guarded d -> unmapped (deactivate_watchpoints d) = ∅.
Proof.
  intros Hg. unfold deactivate_watchpoints. rewrite foldl_deactivate. cbn [unmapped set_unmapped]. apply set_eq. intros p.
  rewrite elem_of_difference, elem_of_list_to_set, list_elem_of_fmap. split; [|set_solver].
  intros [Hp Hn]. exfalso. apply Hn. destruct (Hg p Hp) as (wp & Hin & <-). by exists wp.
Qed.

Lemma remove_wp_on_page p wp l : on_page p (remove_wp wp l) -> on_page p l.
Proof.
  intros (x & Hx & Hp). exists x. split; [|done]. clear Hp. induction l as [|y l IH]; [done|]. cbn [remove_wp] in Hx.
  destruct (decide (y = wp)); [by right|]. apply elem_of_cons in Hx as [->|Hx]; [by left|right; by apply IH].
Qed.

Lemma on_page_removed p wp l : on_page p l -> w_page_address wp <> p -> on_page p (remove_wp wp l).
Proof.
  intros (x & Hx & Hp) Hw. exists x. split; [|done]. induction l as [|y l IH]; [done|]. cbn [remove_wp]. apply elem_of_cons in Hx as [->|Hx].
  - destruct (decide (y = wp)) as [->|]; [done|by left].
  - destruct (decide (y = wp)); [done|right; by apply IH].
Qed.

Lemma pages_ok_removed wp l : pages_ok l -> pages_ok (remove_wp wp l).
Proof.
  unfold pages_ok. induction 1 as [|y l Hy Hl IH]; cbn [remove_wp]; [done|]. destruct (decide (y = wp)); [done|by apply Forall_cons].
Qed.

(** A watchpoint more, and one less. *)
Lemma watch_added wp l d d' : watchpoints_list d = l -> watchpoints_list d' = l ++ [wp] -> unmapped d' = {[w_page_address wp]} ∪ unmapped d ->
  guarded d -> guarded d' /\ (armed d -> armed d').
Proof.
  intros <- Hl Hu Hg. unfold guarded, armed, on_page in *. rewrite Hl, Hu. setoid_rewrite elem_of_app. setoid_rewrite list_elem_of_singleton.
  setoid_rewrite elem_of_union. setoid_rewrite elem_of_singleton. naive_solver.
Qed.

Lemma watch_removed wp d : pages_ok (watchpoints_list d) -> w_page_address wp = round_pgdown (w_address wp) -> guarded d ->
  let d1 := set_wps (remove_wp wp (watchpoints_list d)) d in
  let d2 := match get_watchpoint (w_address wp) d1 with None => deactivate_watchpoint wp d1 | Some _ => d1 end in
  guarded d2 /\ (armed d -> armed d2).
Proof.
  intros Hok Hp Hg. cbv zeta. set (d1 := set_wps _ d).
  pose proof (get_watchpoint_spec (w_address wp) d1 (pages_ok_removed wp _ Hok)) as Hget. change (watchpoints_list d1) with (remove_wp wp (watchpoints_list d)) in Hget.
  destruct (get_watchpoint (w_address wp) d1) as [wp1|].
  - destruct Hget as (Hin1 & Hp1 & _). split.
    + intros p Hu. destruct (decide (w_page_address wp = p)) as [<-|]; [exists wp1; split; [done|congruence]|]. apply on_page_removed; [by apply Hg|done].
    + intros Ha p Hon. by apply (Ha p), (remove_wp_on_page p wp).
  - split.
    + intros p Hu. cbn [deactivate_watchpoint unmapped set_unmapped] in Hu. rewrite elem_of_difference, elem_of_singleton in Hu. destruct Hu as [Hu Hne].
      apply on_page_removed; [by apply Hg|congruence].
    + intros Ha p Hon. cbn [deactivate_watchpoint unmapped set_unmapped]. rewrite elem_of_difference, elem_of_singleton. split; [by apply (Ha p), (remove_wp_on_page p wp)|].
      intros ->. by rewrite Hp in Hon.
Qed.

(** An access to another address of a watched page goes on: the page is mapped for one
    instruction, and protected again by the trap after it. *)
Lemma watched_page_step cpu address rg d t wp regs0 :
  current (sch d) cpu = Ok t -> get_watchpoint address d = Some wp -> w_address wp <> address -> pages_ok (watchpoints_list d) -> armed d ->
  saved d !! rg = Some regs0 ->
  exists d1, db_is_watchpoint cpu address rg d = Ok (true, d1) /\ load address d1 = mem d !! address /\ mem d1 = mem d /\
    exists d2, db_watchpoint_step cpu rg d1 = Ok (true, d2) /\ unmapped d2 = unmapped d /\ mem d2 = mem d /\
      saved d2 = <[rg := clear_trap_flag (set_trap_flag regs0)]> (<[rg := set_trap_flag regs0]> (saved d)).
Proof.
  intros Hcur Hget Hne Hok Ha Hrg. pose proof (get_watchpoint_spec address d Hok) as Hspec. rewrite Hget in Hspec. destruct Hspec as (Hin & Hp & _).
  unfold db_is_watchpoint. rewrite Hcur. cbn [mbind res_bind]. rewrite Hget. rewrite (proj2 (Z.eqb_neq _ _)) by done.
  unfold upd_regs. cbn [saved set_support deactivate_watchpoint set_unmapped]. rewrite Hrg. cbn [access mbind res_bind]. eexists. split; [done|].
  split; [|split; [done|]].
  - unfold load. cbn [unmapped set_saved set_support deactivate_watchpoint set_unmapped mem]. rewrite bool_decide_eq_false_2; [done|]. rewrite Hp. set_solver.
  - unfold db_watchpoint_step. cbn [db_support set_saved set_support]. rewrite lookup_insert_eq. unfold upd_regs. cbn [saved set_saved set_support activate_watchpoint set_unmapped].
    rewrite lookup_insert_eq. cbn [access mbind res_bind]. eexists. split; [done|]. split; [|done].
    cbn [unmapped set_support set_saved activate_watchpoint deactivate_watchpoint set_unmapped]. assert (w_page_address wp ∈ unmapped d) by (apply Ha; by exists wp).
    apply set_eq. intros p. rewrite elem_of_union, elem_of_difference, elem_of_singleton. destruct (decide (p = w_page_address wp)) as [->|]; naive_solver.
Qed.
End Watch.

Section Spec.
Set Default Proof Using "Type*".
Context (E : sched_env) (cpu : Z) {R : ring_macros dbif_entry} {RO : ring_macros_ok R}.
Context (as_rsp : dbif_entry -> dbif_response) (not11_virt_to_pfn : Z -> Z).
Implicit Types d : db.

(** The back end has the slot of response [i] at hand. *)
Definition rsp_at d (i : Z) : Prop := slots_ok (b_shared (ring d)) /\ rsp_prod_pvt (ring d) = wrap32 i.

(** After a request, response [i] has this identifier and value; no other slot has changed. *)
Definition answered_with d d' (i id v : Z) : Prop :=
  (exists r, slots (b_shared (ring d')) = <[pos dbif_entry i := ERsp r]> (slots (b_shared (ring d))) /\ r_id r = id /\ ret_val r = v) /\
  rsp_at d' (i + 1) /\ req_cons (ring d') = req_cons (ring d).

Lemma get_response_spec d i : rsp_at d i ->
  get_response d = (wrap32 i, set_ring (BRing (wrap32 (i + 1)) (req_cons (ring d)) (b_shared (ring d))) d).
Proof. intros [_ Hi]. unfold get_response. by rewrite Hi, wrap_add_l. Qed.

Lemma fill_slot_spec d i f : slots_ok (b_shared (ring d)) ->
  exists e, slots (b_shared (ring d)) !! pos dbif_entry i = Some e /\
    fill as_rsp (wrap32 i) f d =
    Ok (set_ring (BRing (rsp_prod_pvt (ring d)) (req_cons (ring d))
          (set_slots (<[pos dbif_entry i := ERsp (f (as_rsp e))]> (slots (b_shared (ring d)))) (b_shared (ring d)))) d).
Proof.
  intros Hs. destruct (lookup_lt_is_Some_2 (slots (b_shared (ring d))) (pos dbif_entry i)) as [e He]; [rewrite Hs; apply pos_lt|].
  exists e. split; [done|]. unfold fill. rewrite ring_get_pos, He by done. cbn [access mbind res_bind].
  by rewrite ring_put_pos.
Qed.

(** [get_response] and the assignments to it, whatever happens to the rest of the state in between. *)
Lemma respond_spec d d1 i f id v :
  rsp_at d i -> ring d1 = BRing (wrap32 (i + 1)) (req_cons (ring d)) (b_shared (ring d)) ->
  (forall r, r_id (f r) = id /\ ret_val (f r) = v) ->
  exists rg, fill as_rsp (wrap32 i) f d1 = Ok (set_ring rg d1) /\ answered_with d (set_ring rg d1) i id v.
Proof.
  intros [Hs Hi] Hr Hf. destruct (fill_slot_spec d1 i f) as (e & He & Hfill); [by rewrite Hr|].
  rewrite Hr in Hfill. cbn [b_shared rsp_prod_pvt req_cons] in Hfill. eexists. split; [exact Hfill|].
  destruct (Hf (as_rsp e)) as [H1 H2]. split; [|split].
  - exists (f (as_rsp e)). done.
  - split; cbn [ring set_ring b_shared]; [by apply set_slots_ok|done].
  - done.
Qed.

(** ** Memory *)

(** The bytes that can be read from [a] on. *)
Definition readable d (a : Z) (bs : list Z) : Prop := forall i b, bs !! i = Some b -> load (a + Z.of_nat i) d = Some b.

Lemma readable_cons d a b bs : readable d a (b :: bs) -> load a d = Some b /\ readable d (a + 1) bs.
Proof.
  intros H. split; [specialize (H 0%nat b eq_refl); by rewrite Z.add_0_r in H|].
  intros i x Hx. specialize (H (S i) x Hx). by replace (a + 1 + Z.of_nat i) with (a + Z.of_nat (S i)) by lia.
Qed.

Lemma load_data x l d : load x (set_data l d) = load x d.
Proof. done. Qed.

Lemma load_access x b a d : load x (set_access b a d) = load x d.
Proof. done. Qed.

(** The state after the transfer: the page, and the address of the last access. *)
Definition transferred d (l : list Z) (b : bool) (a : Z) : db := set_access b a (set_data l d).

Lemma db_read_loop_spec bs : forall n i a d,
  (length bs <= n)%nat -> 0 <= i -> i + Z.of_nat (length bs) <= Z.of_nat (length (data_page d)) ->
  ((length bs < n)%nat -> load (a + Z.of_nat (length bs)) d = None) ->
  0 <= a -> a + Z.of_nat n < 2 ^ 64 -> readable d a bs ->
  exists b x, readbytes_loop n i a d =
    Ok (bool_decide (length bs = n),
        transferred d (take (Z.to_nat i) (data_page d) ++ bs ++ drop (Z.to_nat i + length bs) (data_page d)) b x).
Proof.
  induction bs as [|y bs IH]; intros [|n] i a d Hn Hi Hl Hf Ha Ha2 Hr; cbn [readbytes_loop length] in *; try lia.
  - exists (db_back_access d), (db_back_addr d). cbn [app]. rewrite Nat.add_0_r, take_drop. by destruct d.
  - rewrite load_access. rewrite Z.add_0_r in Hf. rewrite Hf by lia. exists true, a. cbn [app]. by rewrite Nat.add_0_r, take_drop.
  - apply readable_cons in Hr as [Hy Hr]. rewrite load_access, Hy. cbn [data_page set_access]. rewrite set_elem_eq by lia. cbn [mbind res_bind].
    rewrite wrap_small by lia. destruct (IH n (i + 1) (a + 1) (set_data (<[Z.to_nat i := y]> (data_page d)) (set_access true a d))) as (b & x & He);
      [lia|lia|cbn [data_page set_data]; rewrite length_insert; lia| |lia|lia|exact Hr|].
    { intros Hlt. rewrite load_data, load_access. replace (a + 1 + Z.of_nat (length bs)) with (a + Z.of_nat (S (length bs))) by lia. apply Hf. lia. }
    exists b, x. rewrite He. f_equal. f_equal.
    + apply bool_decide_ext. lia.
    + unfold transferred. cbn [data_page set_data]. unfold set_access, set_data. cbn. f_equal.
      replace (Z.to_nat (i + 1)) with (S (Z.to_nat i)) by lia.
      rewrite (take_S_r _ _ y) by (apply list_lookup_insert_eq; lia). rewrite take_insert_ge by lia. rewrite <- app_assoc. cbn [app].
      rewrite drop_insert_lt by lia. by replace (S (Z.to_nat i) + length bs)%nat with (Z.to_nat i + S (length bs))%nat by lia.
Qed.

(** C33: [dispatch_readbytes] puts the bytes of the memory in the shared page up to the first one
    that faults, and answers the number of bytes, or 0 when one has faulted; the program's
    memory is as before, and a later fault is not taken for one of the debugger. *)
Theorem dispatch_readbytes_spec q d i bs :
  rsp_at d i -> u1 q = wrap 16 (u1 q) -> Z.of_nat (length bs) <= u1 q -> u1 q <= Z.of_nat (length (data_page d)) ->
  0 <= u0 q -> u0 q + u1 q < 2 ^ 64 -> readable d (u0 q) bs -> (Z.of_nat (length bs) < u1 q -> load (u0 q + Z.of_nat (length bs)) d = None) ->
  exists d', dispatch_readbytes as_rsp q d = Ok d' /\
    answered_with d d' i (q_id q) (if decide (Z.of_nat (length bs) = u1 q) then u1 q else 0) /\
    data_page d' = bs ++ drop (length bs) (data_page d) /\ mem d' = mem d /\ db_back_access d' = false /\ sch d' = sch d.
Proof.
  intros Hrsp Hn Hlen Hpage Ha Ha2 Hr Hf. unfold dispatch_readbytes. rewrite <- Hn, (get_response_spec d i Hrsp).
  set (d0 := set_ring _ d).
  destruct (db_read_loop_spec bs (Z.to_nat (u1 q)) 0 (u0 q) d0) as (b & x & He);
    [lia|lia|exact (ltac:(cbn; lia) : 0 + Z.of_nat (length bs) <= Z.of_nat (length (data_page d)))| |lia|lia|exact Hr|].
  { intros Hlt. apply Hf. lia. }
  rewrite He. cbn [mbind res_bind]. set (d1 := set_access false _ _).
  destruct (respond_spec d d1 i (set_ret (q_id q) (if bool_decide (length bs = Z.to_nat (u1 q)) then u1 q else 0)) (q_id q)
    (if decide (Z.of_nat (length bs) = u1 q) then u1 q else 0) Hrsp) as (rg & Hfill & Hans); [done| |].
  { intros r. split; [done|]. cbn [ret_val set_ret]. destruct (decide _), (bool_decide_reflect (length bs = Z.to_nat (u1 q))); lia. }
  exists (set_ring rg d1). splits; [done|done|done|done|done|done].
Qed.

(** Bytes written from [a] on. *)
Fixpoint mem_write (a : Z) (bs : list Z) (m : gmap Z Z) : gmap Z Z :=
  match bs with [] => m | b :: bs => mem_write (a + 1) bs (<[a := b]> m) end.

Lemma mem_write_lookup bs : forall a m x,
  mem_write a bs m !! x = if decide (a <= x < a + Z.of_nat (length bs)) then bs !! Z.to_nat (x - a) else m !! x.
Proof.
  induction bs as [|b bs IH]; intros a m x; cbn [mem_write length].
  - by rewrite decide_False by lia.
  - rewrite IH. destruct (decide (x = a)) as [->|Hx].
    + rewrite decide_False, lookup_insert_eq, decide_True, Z.sub_diag by lia. done.
    + rewrite lookup_insert_ne by done. destruct (decide (a + 1 <= x < a + 1 + Z.of_nat (length bs))).
      * rewrite decide_True by lia. replace (Z.to_nat (x - a)) with (S (Z.to_nat (x - (a + 1)))) by lia. done.
      * by rewrite decide_False by lia.
Qed.

Lemma store_some a v d : is_Some (load a d) -> store a v d = Some (set_mem (<[a := v]> (mem d)) d).
Proof. intros [b Hb]. unfold store. by rewrite Hb. Qed.

Lemma load_stored a v x d : x <> a -> load x (set_mem (<[a := v]> (mem d)) d) = load x d.
Proof. intros Hx. unfold load. cbn [unmapped mem set_mem]. by rewrite lookup_insert_ne. Qed.

Lemma db_write_loop_spec bs : forall n i a d,
  (length bs <= n)%nat -> 0 <= i -> take (length bs) (drop (Z.to_nat i) (data_page d)) = bs ->
  ((length bs < n)%nat -> i + Z.of_nat (length bs) < Z.of_nat (length (data_page d)) /\ load (a + Z.of_nat (length bs)) d = None) ->
  0 <= a -> a + Z.of_nat n < 2 ^ 64 -> (forall j, (j < length bs)%nat -> is_Some (load (a + Z.of_nat j) d)) ->
  exists b x, writebytes_loop n i a d = Ok (bool_decide (length bs = n), set_access b x (set_mem (mem_write a bs (mem d)) d)) /\
    (0 < n -> b = true)%nat.
Proof.
  induction bs as [|y bs IH]; intros [|n] i a d Hn Hi Hbs Hf Ha Ha2 Hr; cbn [writebytes_loop length] in *; try lia.
  - exists (db_back_access d), (db_back_addr d). split; [by destruct d|lia].
  - rewrite !Z.add_0_r in Hf. destruct Hf as [Hlt Hf]; [lia|]. cbn [data_page set_access].
    rewrite (elem_nth _ i 0) by lia. cbn [mbind res_bind]. unfold store. rewrite load_access, Hf. exists true, a. cbn [mem_write]. split; [by destruct d|done].
  - assert (drop (Z.to_nat i) (data_page d) !! 0%nat = Some y) as Hy by (rewrite <- (lookup_take_lt _ (S (length bs))), Hbs by lia; done).
    rewrite lookup_drop, Nat.add_0_r in Hy. pose proof (lookup_lt_Some _ _ _ Hy) as Hlt.
    cbn [data_page set_access]. rewrite (elem_eq _ i y) by done. cbn [mbind res_bind].
    rewrite store_some by (rewrite load_access; specialize (Hr 0%nat ltac:(lia)); by rewrite Z.add_0_r in Hr).
    rewrite wrap_small by lia. rewrite (drop_S _ y) in Hbs by done. cbn [take] in Hbs. injection Hbs as Hbs.
    set (d1 := set_mem _ _). destruct (IH n (i + 1) (a + 1) d1) as (b & x & He & Hb).
    + lia.
    + lia.
    + replace (Z.to_nat (i + 1)) with (S (Z.to_nat i)) by lia. exact Hbs.
    + intros Hlt'. subst d1. cbn [data_page set_mem set_access]. destruct Hf as [H1 H2]; [lia|]. split; [lia|].
      change (mem (set_access true a d)) with (mem d).
      replace (a + 1 + Z.of_nat (length bs)) with (a + Z.of_nat (S (length bs))) by lia.
      unfold load in H2 |- *. cbn [unmapped mem set_mem set_access]. by rewrite lookup_insert_ne by lia.
    + lia.
    + lia.
    + intros j Hj. specialize (Hr (S j) ltac:(lia)). replace (a + 1 + Z.of_nat j) with (a + Z.of_nat (S j)) by lia.
      subst d1. unfold load in Hr |- *. cbn [unmapped mem set_mem set_access] in Hr |- *. by rewrite lookup_insert_ne by lia.
    + destruct n as [|n].
      * destruct bs; [|cbn [length] in Hn; lia]. exists true, a. split; [|done]. subst d1. by destruct d.
      * rewrite He. exists b, x. split; [|intros; apply Hb; lia]. f_equal. f_equal. apply bool_decide_ext. lia.
Qed.

(** [dispatch_writebytes] writes the bytes of the shared page to the memory of the program up
    to the first address that faults, changes no other byte, and answers the number of bytes,
    or 0 when an access has faulted.  It leaves [db_back_access] set: every later general
    protection fault is taken for one of the debugger. *)
Lemma dispatch_writebytes_spec q d i bs :
  rsp_at d i -> u1 q = wrap 16 (u1 q) -> 0 < u1 q -> Z.of_nat (length bs) <= u1 q -> u1 q <= Z.of_nat (length (data_page d)) ->
  take (length bs) (data_page d) = bs -> 0 <= u0 q -> u0 q + u1 q < 2 ^ 64 ->
  (forall j, (j < length bs)%nat -> is_Some (load (u0 q + Z.of_nat j) d)) ->
  (Z.of_nat (length bs) < u1 q -> load (u0 q + Z.of_nat (length bs)) d = None) ->
  exists d', dispatch_writebytes as_rsp q d = Ok d' /\
    answered_with d d' i (q_id q) (if decide (Z.of_nat (length bs) = u1 q) then u1 q else 0) /\
    mem d' = mem_write (u0 q) bs (mem d) /\ data_page d' = data_page d /\ db_back_access d' = true /\ sch d' = sch d.
Proof.
  intros Hrsp Hn Hpos Hlen Hpage Hbs Ha Ha2 Hr Hf. unfold dispatch_writebytes. rewrite <- Hn, (get_response_spec d i Hrsp).
  set (d0 := set_ring _ d).
  destruct (db_write_loop_spec bs (Z.to_nat (u1 q)) 0 (u0 q) d0) as (b & x & He & Hb);
    [lia|lia|exact Hbs| |lia|lia|exact Hr|].
  { intros Hlt. split; [change (data_page d0) with (data_page d); lia|]. apply Hf. lia. }
  rewrite He. cbn [mbind res_bind]. set (d1 := set_access b x _).
  destruct (respond_spec d d1 i (set_ret (q_id q) (if bool_decide (length bs = Z.to_nat (u1 q)) then u1 q else 0)) (q_id q)
    (if decide (Z.of_nat (length bs) = u1 q) then u1 q else 0) Hrsp) as (rg & Hfill & Hans); [done| |].
  { intros r. split; [done|]. cbn [ret_val set_ret]. destruct (decide _), (bool_decide_reflect (length bs = Z.to_nat (u1 q))); lia. }
  exists (set_ring rg d1). splits; [done|done|done|done|apply Hb; lia|done].
Qed.

(** More bytes than the shared page has are written past its end. *)
Lemma dispatch_readbytes_overrun q d i bs :
  rsp_at d i -> length bs = length (data_page d) -> Z.of_nat (length bs) < wrap 16 (u1 q) -> 0 <= u0 q -> u0 q + 2 ^ 16 < 2 ^ 64 ->
  readable d (u0 q) bs -> is_Some (load (u0 q + Z.of_nat (length bs)) d) -> dispatch_readbytes as_rsp q d = Bug BAD_ACCESS.
Proof.
  intros Hrsp Hbs Hn Ha Ha2 Hr Hnext. unfold dispatch_readbytes. rewrite (get_response_spec d i Hrsp). set (d0 := set_ring _ d).
  pose proof (wrap_range 16 (u1 q) ltac:(lia)).
  assert (forall bs n i a d, (length bs < n)%nat -> 0 <= i -> i + Z.of_nat (length bs) = Z.of_nat (length (data_page d)) -> 0 <= a -> a + Z.of_nat (length bs) + 1 < 2 ^ 64 ->
    readable d a bs -> is_Some (load (a + Z.of_nat (length bs)) d) -> readbytes_loop n i a d = Bug BAD_ACCESS) as Hloop.
  { clear. intros bs. induction bs as [|y bs IH]; intros [|n] i a d Hn Hi Hl Ha Ha2 Hr [z Hz]; cbn [readbytes_loop length] in *; try lia.
    - rewrite Z.add_0_r in Hz. rewrite load_access, Hz. cbn [data_page set_access]. by rewrite set_elem_out by lia.
    - apply readable_cons in Hr as [Hy Hr]. rewrite load_access, Hy. cbn [data_page set_access]. rewrite set_elem_eq by lia. cbn [mbind res_bind].
      rewrite wrap_small by lia. apply IH; [lia|lia|cbn [data_page set_data]; rewrite length_insert; lia|lia|lia|exact Hr|].
      exists z. rewrite load_data, load_access. by replace (a + 1 + Z.of_nat (length bs)) with (a + Z.of_nat (S (length bs))) by lia. }
  rewrite (Hloop bs); [done|lia|lia|exact (eq_trans (Z.add_0_l _) (f_equal Z.of_nat Hbs))|lia|lia|exact Hr|exact Hnext].
Qed.

(** ** The requests about watchpoints *)

(** C32: The requests about watchpoints leave no page unmapped without a watchpoint on it, and
    every watched page protected if it was (while the program runs): a new watchpoint protects
    its page at once; a watchpoint is removed if there is one at the address, and its page is
    mapped again only when no other watchpoint lies on it. *)
Theorem watchpoint_requests_armed q d i :
  rsp_at d i -> pages_ok (watchpoints_list d) -> guarded d ->
  (exists d', dispatch_db_activate_watchpoint as_rsp not11_virt_to_pfn q d = Ok d' /\ guarded d' /\ (armed d -> armed d') /\ pages_ok (watchpoints_list d') /\
     answered_with d d' i (q_id q) 1 /\ load (u0 q) d' = None /\
     exists wp, watchpoints_list d' = watchpoints_list d ++ [wp] /\ w_address wp = u0 q) /\
  (exists d', dispatch_db_deactivate_watchpoint as_rsp q d = Ok d' /\ guarded d' /\ (armed d -> armed d') /\ pages_ok (watchpoints_list d') /\
     if decide (Exists (fun wp => w_address wp = u0 q) (watchpoints_list d))
     then answered_with d d' i (q_id q) 1 /\ exists wp, wp ∈ watchpoints_list d /\ w_address wp = u0 q /\ watchpoints_list d' = remove_wp wp (watchpoints_list d)
     else answered_with d d' i (q_id q) 0 /\ watchpoints_list d' = watchpoints_list d).
Proof.
  intros Hrsp Hok Hg. split.
  - unfold dispatch_db_activate_watchpoint. rewrite (get_response_spec d i Hrsp). set (d0 := set_ring _ d). set (wp := WP _ _ _ _ _).
    set (d1 := activate_watchpoint wp _). set (d2 := if 2 <=? db_debug_level d1 then _ else _).
    assert (ring d2 = BRing (wrap32 (i + 1)) (req_cons (ring d)) (b_shared (ring d)) /\ watchpoints_list d2 = watchpoints_list d ++ [wp] /\
      unmapped d2 = {[w_page_address wp]} ∪ unmapped d) as (Hr2 & Hw2 & Hu2) by (subst d2; destruct (2 <=? _); done).
    destruct (respond_spec d d2 i (set_ret (q_id q) 1) (q_id q) 1 Hrsp Hr2) as (rg & -> & Hans); [done|].
    eexists. split; [done|]. destruct (watch_added wp _ d (set_ring rg d2) eq_refl Hw2 Hu2 Hg) as [Hg' Harm].
    splits; [done|done| |done| |exists wp; by split].
    + cbn [watchpoints_list set_ring]. rewrite Hw2. unfold pages_ok. apply Forall_app. split; [done|]. by apply Forall_singleton.
    + unfold load. rewrite bool_decide_eq_true_2; [done|]. cbn [unmapped set_ring]. rewrite Hu2. apply elem_of_union. left. by apply elem_of_singleton.
  - unfold dispatch_db_deactivate_watchpoint. rewrite (get_response_spec d i Hrsp). set (d0 := set_ring _ d).
    pose proof (get_watchpoint_spec (u0 q) d Hok) as Hget. change (get_watchpoint (u0 q) d0) with (get_watchpoint (u0 q) d).
    destruct (get_watchpoint (u0 q) d) as [wp|].
    + destruct Hget as (Hin & Hp & Hcase). destruct (Z.eqb_spec (w_address wp) (u0 q)) as [He|He].
      * assert (w_page_address wp = round_pgdown (w_address wp)) as Hpw by (rewrite He; done).
        destruct (watch_removed wp d Hok Hpw Hg) as [Hg' Harm]. rewrite He in Hg', Harm.
        set (d2 := match get_watchpoint (u0 q) (set_wps _ d0) with None => _ | Some _ => _ end).
        set (d2' := match get_watchpoint (u0 q) (set_wps _ d) with None => _ | Some _ => _ end) in Hg', Harm.
        assert (ring d2 = BRing (wrap32 (i + 1)) (req_cons (ring d)) (b_shared (ring d)) /\ d2 = set_ring (ring d2) d2' /\
          watchpoints_list d2 = remove_wp wp (watchpoints_list d)) as (Hr2 & Hd2 & Hw2).
        { subst d2 d2'. change (watchpoints_list d0) with (watchpoints_list d). change (get_watchpoint (u0 q) (set_wps ?l d0)) with (get_watchpoint (u0 q) (set_wps l d)).
          destruct (get_watchpoint (u0 q) (set_wps (remove_wp wp (watchpoints_list d)) d)); done. }
        destruct (respond_spec d d2 i (set_ret (q_id q) 1) (q_id q) 1 Hrsp Hr2) as (rg & -> & Hans); [done|].
        eexists. split; [done|]. rewrite Hd2. split; [exact Hg'|split; [exact Harm|split]].
        -- rewrite <- Hd2. cbn [watchpoints_list set_ring]. rewrite Hw2. by apply pages_ok_removed.
        -- rewrite decide_True; [|apply Exists_exists; by exists wp]. rewrite <- Hd2. split; [done|]. by exists wp.
      * destruct (respond_spec d d0 i (set_ret (q_id q) 0) (q_id q) 0 Hrsp) as (rg & -> & Hans); [done|done|].
        eexists. split; [done|]. split; [done|split; [done|split; [done|]]]. rewrite decide_False; [by split|]. intros Hex.
        destruct Hcase as [|Hall]; [done|]. apply Exists_exists in Hex as (x & Hx & Hxa). rewrite Forall_forall in Hall. by apply (Hall x Hx).
    + destruct (respond_spec d d0 i (set_ret (q_id q) 0) (q_id q) 0 Hrsp) as (rg & -> & Hans); [done|done|].
      eexists. split; [done|]. split; [done|split; [done|split; [done|]]]. rewrite decide_False; [by split|]. intros Hex. apply Exists_exists in Hex as (x & Hx & Hxa).
      apply Hget. exists x. split; [done|]. unfold pages_ok in Hok. rewrite Forall_forall in Hok. by rewrite (Hok x Hx), Hxa.
Qed.

End Spec.

(** A resumed thread that does not exist is looked at all the same; its missing stack is reported
    as 0 instead of an error. *)
Section Unknown.
Context (E : sched_env) (cpu : Z) {R : ring_macros dbif_entry} {RO : ring_macros_ok R} (as_rsp : dbif_entry -> dbif_response).
Implicit Types d : db.

Lemma dispatch_resume_unknown q d d1 i :
  rsp_at d1 i -> clear_all_req_debug_suspend d = Ok d1 -> find_thread (wrap 16 (u0 q)) d1 = Ok None ->
  dispatch_resume_thread E cpu as_rsp q d = Bug BAD_ACCESS.
Proof using RO.
  intros Hd Hc Hf. unfold dispatch_resume_thread. rewrite Hc. cbn [mbind res_bind]. rewrite Hf. cbn [mbind res_bind]. rewrite (get_response_spec d1 i Hd).
  set (d2 := set_ring _ d1). destruct (fill_slot_spec as_rsp d2 i (set_ret (q_id q) (minus 1)) (proj1 Hd)) as (e & _ & ->). done.
Qed.

Lemma get_thread_stack_unknown q d i :
  rsp_at d i -> find_thread (wrap 16 (u0 q)) d = Ok None ->
  exists d', dispatch_get_thread_stack as_rsp q d = Ok d' /\ answered_with d d' i (q_id q) 0.
Proof using RO.
  intros Hd Hf. unfold dispatch_get_thread_stack. rewrite Hf. cbn [mbind res_bind]. unfold respond. rewrite (get_response_spec d i Hd).
  set (d1 := set_ring _ d). destruct (respond_spec as_rsp d d1 i (fun r => set_ret (q_id q) 0 (set_ret (q_id q) (minus 1) r)) (q_id q) 0 Hd) as (rg & -> & Ha); [done|done|].
  by eexists.
Qed.
End Unknown.

(** ** Examples *)

Global Instance db_macros : ring_macros dbif_entry := demo_macros dbif_entry.
Global Instance db_macros_ok : ring_macros_ok db_macros := demo_macros_ok dbif_entry.

Definition no_regs : db_regs := zero_regs 0 0.
Definition demo_as_rsp (e : dbif_entry) : dbif_response := match e with ERsp r => r | EReq q => DbRsp (type q) (u0 q) (u1 q) no_regs end.

(** Two bytes of memory, and a watchpoint on another page. *)
Definition demo_wp : db_watchpoint := WP 20488 20480 8 1 5.
Definition demo_db (s : sched) (qs : list dbif_request) : db :=
  Db s ∅ ∅ {[4096 := 72; 4097 := 105]} {[20480]} (replicate (Z.to_nat 4096) 0) [demo_wp] ∅ false 0 DB_EXIT_UNSET 0
    (BRing 0 0 (SRing (Z.of_nat (length qs)) 1 0 1 ((EReq <$> qs) ++ replicate (8 - length qs) (EReq (DbReq 0 0 0 0 0))))).

Lemma demo_rsp_at s qs : (length qs <= 8)%nat -> rsp_at (demo_db s qs) 0.
Proof. intros H. split; [|done]. unfold slots_ok. cbn [demo_db ring b_shared slots]. rewrite length_app, length_fmap, length_replicate. change (RING_SIZE dbif_entry) with 8. lia. Qed.

Definition demo_read : dbif_request := DbReq REQ_READBYTES 9 4096 2 0.
Definition demo_write : dbif_request := DbReq REQ_WRITEBYTES 10 4097 2 0.
Definition demo_watch : dbif_request := DbReq REQ_ACTIVATE_WP 11 20488 8 1.

Lemma dispatch_readbytes_spec_witness :
  exists d', dispatch_readbytes demo_as_rsp demo_read (demo_db (demo []) [demo_read]) = Ok d' /\
    answered_with (demo_db (demo []) [demo_read]) d' 0 9 2 /\ take 2 (data_page d') = [72; 105].
Proof.
  destruct (dispatch_readbytes_spec demo_as_rsp demo_read (demo_db (demo []) [demo_read]) 0 [72; 105]) as (d' & H & Ha & Hp & _).
  - apply demo_rsp_at. cbn. lia.
  - done.
  - done.
  - cbn [demo_db data_page]. rewrite length_replicate. done.
  - done.
  - done.
  - intros [|[|?]] b [= <-]; by vm_compute.
  - done.
  - exists d'. split; [exact H|split; [exact Ha|]]. by rewrite Hp.
Defined.

Lemma dispatch_writebytes_spec_witness :
  exists d', dispatch_writebytes demo_as_rsp demo_write (demo_db (demo []) [demo_write]) = Ok d' /\
    answered_with (demo_db (demo []) [demo_write]) d' 0 10 0 /\ mem d' !! 4097 = Some 0 /\ mem d' !! 4098 = None /\ db_back_access d' = true.
Proof.
  destruct (dispatch_writebytes_spec demo_as_rsp demo_write (demo_db (demo []) [demo_write]) 0 [0]) as (d' & H & Ha & Hm & _ & Hb & _).
  - apply demo_rsp_at. cbn. lia.
  - done.
  - done.
  - done.
  - cbn [demo_db data_page]. rewrite length_replicate. done.
  - by vm_compute.
  - done.
  - done.
  - intros [|?] Hj; [by exists 105; vm_compute|cbn in Hj; lia].
  - by vm_compute.
  - exists d'. split; [exact H|split; [exact Ha|]]. rewrite Hm, Hb. done.
Defined.

Lemma watchpoint_requests_armed_witness :
  exists d', dispatch_db_activate_watchpoint demo_as_rsp (fun a => a / 4096) demo_watch (demo_db (demo []) [demo_watch]) = Ok d' /\
    armed d' /\ load 20488 d' = None.
Proof.
  destruct (watchpoint_requests_armed demo_as_rsp (fun a => a / 4096) demo_watch (demo_db (demo []) [demo_watch]) 0) as [(d' & H & _ & Ha & _ & _ & Hl & _) _].
  - apply demo_rsp_at. cbn. lia.
  - apply Forall_singleton. by vm_compute.
  - intros p Hp. exists demo_wp. split; [by left|]. cbn [demo_db unmapped] in Hp. by apply elem_of_singleton in Hp as ->.
  - exists d'. split; [exact H|split; [|exact Hl]]. apply Ha. intros p (wp & Hin & <-). apply list_elem_of_singleton in Hin as ->. cbn [demo_db unmapped]. by apply elem_of_singleton.
Defined.
