(* ===== verification/DbServe.v ===== *)
(** The loop of the debugger back end: every request on the ring is dispatched once, in order and
    as it was sent, and answered by one response, signing off apart. *)
From S2P Require Import Prelude Sched SchedReach SharedRing DbBack DbProps.
From stdpp Require Import options.

(** ** What does not touch the ring *)
Implicit Types d : db.

(** A run that keeps the ring. *)
Definition quiet d (m : res db) : Prop := forall d', m = Ok d' -> ring d' = ring d.

Lemma quiet_ok d d' : ring d' = ring d -> quiet d (Ok d').
Proof. by intros H ? [= <-]. Qed.

Lemma quiet_bind d m f : quiet d m -> (forall d1, ring d1 = ring d -> quiet d1 (f d1)) -> quiet d (m ≫= f).
Proof. intros Hm Hf d' H. apply res_bind_ok in H as (d1 & H1 & H). rewrite <- (Hm d1 H1). by apply (Hf d1 (Hm d1 H1)). Qed.

Lemma quiet_val {X} d (m : res X) f : (forall x, quiet d (f x)) -> quiet d (m ≫= f).
Proof. intros Hf d' H. apply res_bind_ok in H as (x & _ & H). by apply (Hf x). Qed.

Ltac quiet_run := repeat first
  [ solve [eauto] | by apply quiet_ok
  | match goal with
    | |- quiet _ (if _ then _ else _) => case_match
    | |- quiet ?d (?m ≫= _) => lazymatch type of m with res db => apply quiet_bind; [|intros ? _] | _ => apply quiet_val; intros ? end
    end ].

Section Quiet.
Context (E : sched_env) (cpu : Z) (relax : db -> db) (fuel : nat).
Context (relax_ring : forall d, ring (relax d) = ring d).

Lemma quiet_upd t f d : quiet d (d_upd t f d).
Proof. apply quiet_val. intros s. by apply quiet_ok. Qed.

Lemma quiet_regs a f d : quiet d (upd_regs a f d).
Proof. apply quiet_val. intros r. by apply quiet_ok. Qed.

Lemma quiet_wake t d : quiet d (d_wake E cpu t d).
Proof. apply quiet_val. intros s. by apply quiet_ok. Qed.

Lemma quiet_wait t n : forall d, quiet d (wait_stopped relax n t d).
Proof using relax_ring.
  induction n as [|n IH]; intros d; cbn [wait_stopped]; apply quiet_val; intros th; (case_match; [|by apply quiet_ok]).
  - by intros d'.
  - intros d' H'. rewrite (IH _ d' H'). apply relax_ring.
Qed.

Hint Resolve quiet_upd quiet_regs quiet_wake quiet_wait : core.
Lemma quiet_clear ts : forall d, quiet d (clear_req_loop ts d).
Proof. induction ts as [|t ts IH]; intros d; cbn [clear_req_loop]; quiet_run. Qed.

Lemma quiet_clear_all d : quiet d (clear_all_req_debug_suspend d).
Proof. apply quiet_clear. Qed.

Lemma quiet_suspend t d : quiet d (suspend_thread relax fuel t d).
Proof using relax_ring. unfold suspend_thread. quiet_run. Qed.

Lemma quiet_step t d : quiet d (single_step_thread E cpu relax fuel t d).
Proof using relax_ring. unfold single_step_thread. quiet_run. Qed.

Hint Resolve quiet_clear quiet_suspend quiet_step : core.

Lemma quiet_watched n : forall d, quiet d (step_watched E cpu relax fuel n d).
Proof using relax_ring. induction n as [|n IH]; intros d; cbn [step_watched]; (apply quiet_val; intros [t|]; [|by apply quiet_ok]); [by intros d'|quiet_run]. Qed.

Lemma quiet_wake_all ts : forall d, quiet d (wake_suspended E cpu ts d).
Proof. induction ts as [|t ts IH]; intros d; cbn [wake_suspended]; quiet_run. Qed.

Lemma quiet_disarm d : quiet d (Ok (deactivate_watchpoints d)).
Proof. apply quiet_ok. unfold deactivate_watchpoints. by rewrite foldl_deactivate. Qed.

Lemma quiet_arm_wake d : quiet d (wake_suspended E cpu (thread_list (sch (activate_watchpoints d))) (activate_watchpoints d)).
Proof. intros d' H. apply quiet_wake_all in H as ->. unfold activate_watchpoints. by rewrite foldl_activate. Qed.

Lemma quiet_suspend_all n : forall d, quiet d (suspend_all_loop relax fuel n d).
Proof using relax_ring. induction n as [|n IH]; intros d; cbn [suspend_all_loop]; (apply quiet_val; intros [t|]; [|by apply quiet_ok]); [by intros d'|quiet_run]. Qed.

Lemma quiet_gather ts : forall n d k d', gather_loop ts n d = Ok (k, d') -> ring d' = ring d.
Proof.
  induction ts as [|t ts IH]; intros n d k d' H; cbn [gather_loop] in H; [by injection H as _ <-|].
  apply res_bind_ok in H as ([] & _ & H); [|by apply IH in H]. res_inv. by apply IH in H.
Qed.

Lemma quiet_read n : forall i p d b d', readbytes_loop n i p d = Ok (b, d') -> ring d' = ring d.
Proof.
  induction n as [|n IH]; intros i p d b d' H; cbn [readbytes_loop] in H; [by injection H as _ <-|].
  case_match; [|by injection H as _ <-]. apply res_bind_ok in H as (l & _ & H). by apply IH in H.
Qed.

Lemma quiet_write n : forall i p d b d', writebytes_loop n i p d = Ok (b, d') -> ring d' = ring d.
Proof.
  induction n as [|n IH]; intros i p d b d' H; cbn [writebytes_loop] in H; [by injection H as _ <-|].
  apply res_bind_ok in H as (x & _ & H). unfold store in H. destruct (load p _); cbn [mbind option_bind] in H; [by apply IH in H|by injection H as _ <-].
Qed.

Lemma quiet_store_word n : forall a v d d', store_word n a v d = Some d' -> ring d' = ring d.
Proof.
  induction n as [|n IH]; intros a v d d' H; cbn [store_word] in H; [by injection H as <-|].
  unfold store in H. destruct (load a d); cbn [mbind option_bind] in H; [by apply IH in H|done].
Qed.
End Quiet.

(** ** One request *)
Section Serve.
Set Default Proof Using "Type*".
Context (E : sched_env) (cpu : Z) {R : ring_macros dbif_entry} {RO : ring_macros_ok R}.
Context (as_rsp : dbif_entry -> dbif_response) (relax : db -> db) (fuel : nat) (not11_virt_to_pfn : Z -> Z)
  (app_specific1 : dbif_request -> dbif_response -> db -> dbif_response * db) (rsp_as_req : dbif_response -> dbif_request).
Context (relax_ring : forall d, ring (relax d) = ring d) (app_ring : forall q r d, ring (app_specific1 q r d).2 = ring d).
Local Abbreviation dispatch := (DbBack.dispatch_request E cpu as_rsp relax fuel not11_virt_to_pfn app_specific1).
Local Abbreviation serve := (serve_requests E cpu as_rsp relax fuel not11_virt_to_pfn app_specific1 rsp_as_req).

(** Response [i] answers request [id]. *)
Definition answers (i id : Z) d d' : Prop := exists v, answered_with d d' i id v.

Lemma answers_ring i id d1 d2 d3 d4 : ring d1 = ring d3 -> ring d2 = ring d4 -> answers i id d1 d2 -> answers i id d3 d4.
Proof using. intros H1 H2. unfold answers, answered_with, rsp_at. by rewrite H1, H2. Qed.

Lemma fill_answers d d1 d2 i f id :
  rsp_at d i -> ring d1 = BRing (wrap32 (i + 1)) (req_cons (ring d)) (b_shared (ring d)) ->
  (forall r, r_id (f r) = id) -> fill as_rsp (wrap32 i) f d1 = Ok d2 -> answers i id d d2.
Proof.
  intros [Hs Hi] Hr Hf H. destruct (fill_slot_spec as_rsp d1 i f) as (e & He & Hfill); [by rewrite Hr|].
  rewrite H in Hfill. injection Hfill as ->. rewrite Hr in He |- *. exists (ret_val (f (as_rsp e))). split; [|split].
  - exists (f (as_rsp e)). split; [done|]. by split.
  - split; cbn [ring set_ring b_shared]; [by apply set_slots_ok|done].
  - done.
Qed.

(** A run that gives the request its response; [r0] is the ring at the start. *)
Definition answering (i id : Z) (r0 : back_ring) (m : res db) : Prop :=
  forall d d', r0 = ring d -> rsp_at d i -> m = Ok d' -> answers i id d d'.

(** The ring after [get_response]. *)
Definition taken (i : Z) (r0 : back_ring) d : Prop := ring d = BRing (wrap32 (i + 1)) (req_cons r0) (b_shared r0).

Lemma answering_get i id r0 d k : ring d = r0 -> (forall d1, taken i r0 d1 -> answering i id r0 (k (wrap32 i) d1)) ->
  answering i id r0 (let '(idx, d1) := get_response d in k idx d1).
Proof.
  intros <- H d0 d' Hr Hd Hk. rewrite (get_response_spec d i) in Hk by (unfold rsp_at in *; by rewrite Hr).
  eapply H; [|exact Hr|exact Hd|exact Hk]. done.
Qed.

Lemma answering_fill i id d r0 f : taken i r0 d -> (forall r, r_id (f r) = id) -> answering i id r0 (fill as_rsp (wrap32 i) f d).
Proof. intros Hr Hf d0 d' -> Hd H. by eapply fill_answers. Qed.

Lemma answering_respond i id r0 d f : ring d = r0 -> (forall r, r_id (f r) = id) -> answering i id r0 (respond as_rsp f d).
Proof. intros Hd Hf. unfold respond. apply answering_get; [done|]. intros d1 Hr. by apply answering_fill. Qed.

Lemma answering_val {X} i id r0 (m : res X) f : (forall x, m = Ok x -> answering i id r0 (f x)) -> answering i id r0 (m ≫= f).
Proof. intros Hf d d' H0 Hd H. apply res_bind_ok in H as (x & Hx & H). by eapply Hf. Qed.

Lemma answering_quiet i id r0 d m f : quiet d m -> (forall d1, ring d1 = ring d -> answering i id r0 (f d1)) -> answering i id r0 (m ≫= f).
Proof. intros Hm Hf. apply answering_val. intros d1 H1. by apply Hf, Hm. Qed.

Lemma answering_then i id r0 m f : answering i id r0 m -> (forall d1, quiet d1 (f d1)) -> answering i id r0 (m ≫= f).
Proof.
  intros Hm Hf d0 d' H0 Hd H. apply res_bind_ok in H as (d1 & H1 & H). eapply answers_ring; [done| |by eapply Hm]. symmetry. by apply Hf.
Qed.

Lemma answering_bug i id r0 b : answering i id r0 (Bug b).
Proof using. by intros d d' _ _. Qed.

Lemma answering_none i id r0 m (f : db -> Z -> res db) : answering i id r0 (m ≫= fun d => access None ≫= f d).
Proof using. intros d d' _ _ H. by res_inv. Qed.

Lemma taken_ring i r0 d d1 : taken i r0 d -> ring d1 = ring d -> taken i r0 d1.
Proof using. unfold taken. congruence. Qed.
Hint Resolve quiet_upd quiet_regs quiet_wake quiet_wait quiet_clear_all quiet_suspend quiet_step quiet_watched quiet_wake_all quiet_disarm quiet_arm_wake quiet_suspend_all : core.
Ltac answer := repeat first
  [ solve [apply answering_fill; [by eauto using taken_ring|done]]
  | solve [apply answering_respond; [congruence|done]]
  | apply answering_bug
  | match goal with
    | |- answering _ _ _ (if _ then _ else _) => case_match
    | |- answering _ _ _ (match ?o with Some _ => _ | None => _ end) => destruct o
    | |- answering _ _ _ (let '(_, _) := get_response _ in _) => apply answering_get; [congruence|intros ? ?]
    | o : option Z |- answering _ _ _ (match ?o with Some _ => _ | None => _ end ≫= _) => destruct o; [cbn [mbind res_bind]|]
    | |- answering _ _ _ (fill _ _ _ _ ≫= (fun _ => access None ≫= _)) => apply answering_none
    | |- answering _ _ _ (fill _ _ _ _ ≫= _) => apply answering_then; [|intros ?; solve [quiet_run]]
    | |- answering _ _ _ (respond _ _ _ ≫= _) => apply answering_then; [|intros ?; solve [quiet_run]]
    | |- answering _ _ _ (?m ≫= _) =>
        lazymatch type of m with
        | res db => eapply answering_quiet; [by eauto|intros ? ?]
        | _ => apply answering_val; intros ? _
        end
    end ].


(** The handlers of the threads. *)
Lemma thread_requests_answer q d i :
  answering i (q_id q) (ring d) (dispatch_suspend_thread as_rsp relax fuel q d) /\
  answering i (q_id q) (ring d) (dispatch_resume_thread E cpu as_rsp q d) /\
  answering i (q_id q) (ring d) (dispatch_single_step_thread E cpu as_rsp relax fuel q d) /\
  answering i (q_id q) (ring d) (dispatch_get_regs as_rsp q d) /\
  answering i (q_id q) (ring d) (dispatch_set_ip as_rsp q d) /\
  answering i (q_id q) (ring d) (dispatch_get_thread_stack as_rsp q d) /\
  answering i (q_id q) (ring d) (dispatch_db_watchpoint_info as_rsp q d).
Proof.
  splits; unfold dispatch_suspend_thread, dispatch_resume_thread, dispatch_single_step_thread, dispatch_get_regs, dispatch_set_ip,
    dispatch_get_thread_stack, dispatch_db_watchpoint_info; answer.
Qed.
(** The others. *)
Lemma gather_answers q d i : answering i (q_id q) (ring d) (dispatch_gather_threads as_rsp q d).
Proof.
  unfold dispatch_gather_threads. apply answering_val. intros [k d1] H. apply quiet_gather in H. answer.
Qed.

Lemma memory_requests_answer q d i :
  answering i (q_id q) (ring d) (dispatch_read_u64 as_rsp q d) /\
  answering i (q_id q) (ring d) (dispatch_write_u64 as_rsp q d) /\
  answering i (q_id q) (ring d) (dispatch_readbytes as_rsp q d) /\
  answering i (q_id q) (ring d) (dispatch_writebytes as_rsp q d).
Proof.
  splits.
  - unfold dispatch_read_u64. answer.
  - unfold dispatch_write_u64. apply answering_val. intros d1 H. apply access_ok, quiet_store_word in H. answer.
  - unfold dispatch_readbytes. apply answering_get; [done|]. intros d1 Ht. apply answering_val. intros [b d2] H. apply quiet_read in H.
    apply answering_fill; [|done]. exact (taken_ring _ _ _ d2 Ht H).
  - unfold dispatch_writebytes. apply answering_get; [done|]. intros d1 Ht. apply answering_val. intros [b d2] H. apply quiet_write in H.
    apply answering_fill; [|done]. exact (taken_ring _ _ _ d2 Ht H).
Qed.

Lemma other_requests_answer q d i :
  answering i (q_id q) (ring d) (dispatch_suspend_all as_rsp relax fuel q d) /\
  answering i (q_id q) (ring d) (dispatch_resume_all E cpu as_rsp relax fuel q d) /\
  answering i (q_id q) (ring d) (dispatch_app_specific1 as_rsp app_specific1 q d) /\
  answering i (q_id q) (ring d) (dispatch_db_debug as_rsp q d) /\
  answering i (q_id q) (ring d) (dispatch_db_activate_watchpoint as_rsp not11_virt_to_pfn q d) /\
  answering i (q_id q) (ring d) (dispatch_db_deactivate_watchpoint as_rsp q d).
Proof.
  splits.
  - unfold dispatch_suspend_all. answer.
  - unfold dispatch_resume_all. answer.
  - unfold dispatch_app_specific1. answer. destruct (app_specific1 _ _ _) as [r d2] eqn:Ha. apply answering_fill; [|done].
    eapply taken_ring; [done|]. pose proof (app_ring q (as_rsp x) d1) as Hr. by rewrite Ha in Hr.
  - unfold dispatch_db_debug. answer.
  - unfold dispatch_db_activate_watchpoint. answer. apply answering_fill; [|done]. by destruct (2 <=? _).
  - unfold dispatch_db_deactivate_watchpoint. answer. apply answering_fill; [|done]. by destruct (get_watchpoint _ _).
Qed.

(** Every request but the one to sign off is answered in the next slot. *)
Lemma dispatch_answers q d d' i : rsp_at d i -> dispatch q d = Ok d' ->
  if type q =? REQ_SIGNOFF then ring d' = ring d else answers i (q_id q) d d'.
Proof.
  intros Hd H. destruct (type q =? REQ_SIGNOFF) eqn:Hs.
  - apply Z.eqb_eq in Hs. unfold DbBack.dispatch_request in H. rewrite Hs in H. by injection H as <-.
  - assert (answering i (q_id q) (ring d) (dispatch q d)) as Ha by
      (destruct (thread_requests_answer q d i) as (? & ? & ? & ? & ? & ? & ?), (memory_requests_answer q d i) as (? & ? & ? & ?),
        (other_requests_answer q d i) as (? & ? & ? & ? & ? & ?); pose proof (gather_answers q d i);
       unfold DbBack.dispatch_request; rewrite Hs; repeat (case_match; [done|]); apply answering_bug).
    by eapply Ha.
Qed.

(** Requests that are always answered: the transfers that fit in the shared page, setting and
    clearing watchpoints, the debug level, signing off. *)
Definition plain (q : dbif_request) : Prop :=
  (type q = REQ_READBYTES \/ type q = REQ_WRITEBYTES) /\ wrap 16 (u1 q) <= 4096 \/
  type q = REQ_DB_DEBUG \/ type q = REQ_SIGNOFF \/ type q = REQ_ACTIVATE_WP \/ type q = REQ_DEACTIVATE_WP.

Lemma read_loop_total n : forall i p d, 0 <= i -> i + Z.of_nat n <= Z.of_nat (length (data_page d)) ->
  exists b d', readbytes_loop n i p d = Ok (b, d') /\ length (data_page d') = length (data_page d).
Proof using.
  induction n as [|n IH]; intros i p d Hi Hl; cbn [readbytes_loop]; [by exists true, d|].
  destruct (load p _) as [x|]; [|by eexists false, _]. cbn [data_page set_access]. rewrite set_elem_eq by lia. cbn [mbind res_bind].
  destruct (IH (i + 1) (wrap64 (p + 1)) (set_data (<[Z.to_nat i := x]> (data_page d)) (set_access true p d))) as (b & d' & H & Hl').
  - lia.
  - cbn [data_page set_data]. rewrite length_insert. lia.
  - exists b, d'. split; [done|]. rewrite Hl'. cbn [data_page set_data]. by rewrite length_insert.
Qed.

Lemma write_loop_total n : forall i p d, 0 <= i -> i + Z.of_nat n <= Z.of_nat (length (data_page d)) ->
  exists b d', writebytes_loop n i p d = Ok (b, d') /\ data_page d' = data_page d.
Proof using.
  induction n as [|n IH]; intros i p d Hi Hl; cbn [writebytes_loop]; [by exists true, d|].
  cbn [data_page set_access]. rewrite (elem_nth _ i 0) by lia. cbn [mbind res_bind]. unfold store.
  destruct (load p _); cbn [mbind option_bind]; [|by eexists false, _].
  set (d1 := set_mem _ _). destruct (IH (i + 1) (wrap64 (p + 1)) d1) as (b & d' & H & Hl'); [lia|change (data_page d1) with (data_page d); lia|]. by exists b, d'.
Qed.

Lemma fill_total i r0 d f : taken i r0 d -> slots_ok (b_shared r0) -> exists d', fill as_rsp (wrap32 i) f d = Ok d' /\ data_page d' = data_page d.
Proof. intros Ht Hs. destruct (fill_slot_spec as_rsp d i f) as (e & _ & ->); [by rewrite Ht|]. by eexists. Qed.

Lemma plain_total q d i : rsp_at d i -> length (data_page d) = Z.to_nat 4096 -> plain q ->
  exists d', dispatch q d = Ok d' /\ length (data_page d') = Z.to_nat 4096.
Proof.
  intros Hd Hl Hp. pose proof (wrap_range 16 (u1 q) ltac:(lia)) as Hn.
  assert (forall d1 f, taken i (ring d) d1 -> length (data_page d1) = Z.to_nat 4096 ->
    exists d', fill as_rsp (wrap32 i) f d1 = Ok d' /\ length (data_page d') = Z.to_nat 4096) as Hfill.
  { intros d1 f Ht Hl1. destruct (fill_total i (ring d) d1 f Ht) as (d' & H & Hl'); [apply Hd|]. exists d'. split; [done|]. by rewrite Hl'. }
  destruct Hp as [[[Ht|Ht] Hu]|[Ht|[Ht|[Ht|Ht]]]]; unfold DbBack.dispatch_request; rewrite Ht.
  - change (exists d', dispatch_readbytes as_rsp q d = Ok d' /\ length (data_page d') = Z.to_nat 4096).
    unfold dispatch_readbytes. rewrite (get_response_spec d i Hd). set (d0 := set_ring _ d).
    destruct (read_loop_total (Z.to_nat (wrap 16 (u1 q))) 0 (u0 q) d0) as (b & d1 & H & Hl1); [lia|change (data_page d0) with (data_page d); lia|].
    rewrite H. cbn [mbind res_bind]. apply Hfill; [|by change (length (data_page d1) = Z.to_nat 4096); rewrite Hl1].
    unfold taken. cbn [ring set_access]. by rewrite (quiet_read _ _ _ _ _ _ H).
  - change (exists d', dispatch_writebytes as_rsp q d = Ok d' /\ length (data_page d') = Z.to_nat 4096).
    unfold dispatch_writebytes. rewrite (get_response_spec d i Hd). set (d0 := set_ring _ d).
    destruct (write_loop_total (Z.to_nat (wrap 16 (u1 q))) 0 (u0 q) d0) as (b & d1 & H & Hl1); [lia|change (data_page d0) with (data_page d); lia|].
    rewrite H. cbn [mbind res_bind]. apply Hfill; [|by rewrite Hl1]. unfold taken. by rewrite (quiet_write _ _ _ _ _ _ H).
  - change (exists d', dispatch_db_debug as_rsp q d = Ok d' /\ length (data_page d') = Z.to_nat 4096).
    unfold dispatch_db_debug, respond. rewrite (get_response_spec d i Hd). set (d0 := set_ring _ d).
    destruct (Hfill d0 (set_ret (q_id q) (wrap64 (db_debug_level d)))) as (d' & H & Hl'); [done|done|]. cbn. rewrite H. by eexists.
  - by eexists.
  - change (exists d', dispatch_db_activate_watchpoint as_rsp not11_virt_to_pfn q d = Ok d' /\ length (data_page d') = Z.to_nat 4096).
    unfold dispatch_db_activate_watchpoint. rewrite (get_response_spec d i Hd). apply Hfill; by destruct (2 <=? _).
  - change (exists d', dispatch_db_deactivate_watchpoint as_rsp q d = Ok d' /\ length (data_page d') = Z.to_nat 4096).
    unfold dispatch_db_deactivate_watchpoint. rewrite (get_response_spec d i Hd). destruct (get_watchpoint _ _) as [wp|]; [|by apply Hfill].
    destruct (_ =? _); [|by apply Hfill]. apply Hfill; by destruct (get_watchpoint _ _).
Qed.
(** ** The loop *)

Definition step_cons d : db := set_ring (BRing (rsp_prod_pvt (ring d)) (wrap32 (req_cons (ring d) + 1)) (b_shared (ring d))) d.

(** The handler of each type of request of the interface. *)
Definition handler_of (ty : Z) : option (dbif_request -> db -> res db) :=
  match ty with
  | 1 => Some (dispatch_read_u64 as_rsp)
  | 2 => Some (dispatch_write_u64 as_rsp)
  | 3 => Some (dispatch_gather_threads as_rsp)
  | 4 => Some (dispatch_suspend_thread as_rsp relax fuel)
  | 5 => Some (dispatch_resume_thread E cpu as_rsp)
  | 6 => Some (dispatch_single_step_thread E cpu as_rsp relax fuel)
  | 7 => Some (dispatch_get_regs as_rsp)
  | 8 => Some (dispatch_set_ip as_rsp)
  | 9 => Some (dispatch_get_thread_stack as_rsp)
  | 10 => Some (dispatch_app_specific1 as_rsp app_specific1)
  | 11 => Some (dispatch_readbytes as_rsp)
  | 12 => Some (dispatch_writebytes as_rsp)
  | 13 => Some (dispatch_db_debug as_rsp)
  | 14 => Some dispatch_db_signoff
  | 15 => Some (dispatch_suspend_all as_rsp relax fuel)
  | 16 => Some (dispatch_resume_all E cpu as_rsp relax fuel)
  | 17 => Some (dispatch_db_activate_watchpoint as_rsp not11_virt_to_pfn)
  | 18 => Some (dispatch_db_deactivate_watchpoint as_rsp)
  | 19 => Some (dispatch_db_watchpoint_info as_rsp)
  | _ => None
  end.

(** [dispatch_request] calls it, and stops on any other type. *)
Lemma dispatch_handler q d : dispatch q d = match handler_of (type q) with Some h => h q d | None => Bug BUG_ON end.
Proof using Type.
  unfold DbBack.dispatch_request, handler_of. destruct (type q) as [|n|n]; [done| |done].
  do 5 (destruct n as [n|n|]; try reflexivity).
Qed.

(** The requests given to the handlers of their types one after the other. *)
Inductive served : list dbif_request -> db -> db -> Prop :=
| served_nil d : served [] d d
| served_cons q h qs d d1 d2 : handler_of (type q) = Some h -> h q d = Ok d1 -> served qs (step_cons d1) d2 -> served (q :: qs) d d2.

(** The identifiers the responses carry. *)
Definition to_answer (qs : list dbif_request) : list Z := q_id <$> filter (fun q => type q <> REQ_SIGNOFF) qs.

(** The ring in the middle of the loop: the responses [rs] since position [p], the requests [qs]
    from [c] on. *)
Record serving (p c : Z) (rs : list dbif_response) (qs : list dbif_request) d : Prop := {
  sv_ok : slots_ok (b_shared (ring d));
  sv_prod : rsp_prod_pvt (ring d) = wrap32 (p + Z.of_nat (length rs));
  sv_cons : req_cons (ring d) = wrap32 c;
  sv_order : p + Z.of_nat (length rs) <= c;
  sv_fit : c + Z.of_nat (length qs) - p <= RING_SIZE dbif_entry;
  sv_rsp : window (b_shared (ring d)) p (ERsp <$> rs);
  sv_req : window (b_shared (ring d)) c (EReq <$> qs)
}.

Lemma serving_step p c rs q qs d d1 : serving p c rs (q :: qs) d -> dispatch q d = Ok d1 ->
  exists rs', serving p (c + 1) (rs ++ rs') qs (step_cons d1) /\ r_id <$> rs' = to_answer [q].
Proof.
  intros [Hok Hprod Hcons Hord Hfit Hrsp Hreq] H. cbn [length] in Hfit. rewrite fmap_cons in Hreq. apply window_cons in Hreq as [_ Hreq].
  pose proof (dispatch_answers q d d1 _ (conj Hok Hprod) H) as Ha. destruct (type q =? REQ_SIGNOFF) eqn:Hs; bool_hyps.
  - exists []. rewrite app_nil_r. split; [|unfold to_answer; rewrite filter_cons_False by (by intros ?); done].
    split; cbn [step_cons ring set_ring b_shared rsp_prod_pvt req_cons]; rewrite ?Ha; try done; [by rewrite Hcons, wrap_add_l|lia|lia].
  - destruct Ha as (v & (r & Hsl & Hid & _) & (Hok1 & Hprod1) & Hc1). exists [r].
    split; [|unfold to_answer; rewrite filter_cons_True by done; cbn; by rewrite Hid].
    split; cbn [step_cons ring set_ring b_shared rsp_prod_pvt req_cons]; rewrite ?length_app; cbn [length].
    + done.
    + rewrite Hprod1. f_equal. lia.
    + by rewrite Hc1, Hcons, wrap_add_l.
    + lia.
    + lia.
    + rewrite fmap_app. eapply window_slots; [|apply (window_snoc (b_shared (ring d)) p (ERsp <$> rs) (ERsp r) Hok); [rewrite length_fmap; lia|exact Hrsp]].
      cbn [slots set_slots]. by rewrite length_fmap.
    + eapply window_slots; [|eapply (window_put (b_shared (ring d))); [|exact Hreq]]; [exact Hsl|]. intros j Hj. rewrite length_fmap in Hj. lia.
Qed.

(** C31: The loop of the debugger's ring thread. [qs] are the requests between the consumer index
    and the producer index the front end has published; earlier responses may lag behind (each
    signing off leaves one out).  If the loop ends, every request has been handed to the handler
    of its type exactly once, in order and as it was sent although responses go to slots of
    requests; the consumer index is at [rp]; the responses from [p] on carry the identifiers of
    the requests other than signing off, in order.  The loop does end when the requests are
    transfers of at most the 4096 bytes of the shared page, set or clear watchpoints, set the
    debug level or sign off ([plain]).  A request of an unknown type stops the kernel. *)
Theorem serve_requests_answers p c qs d :
  serving p c [] qs d ->
  (Forall plain qs -> length (data_page d) = Z.to_nat 4096 -> exists d', serve (length qs) (wrap32 (c + Z.of_nat (length qs))) d = Ok d') /\
  (forall d', serve (length qs) (wrap32 (c + Z.of_nat (length qs))) d = Ok d' ->
    served qs d d' /\ exists rs, serving p (c + Z.of_nat (length qs)) rs [] d' /\ r_id <$> rs = to_answer qs) /\
  (forall q d, handler_of (type q) = None -> dispatch q d = Bug BUG_ON).
Proof.
  intros H. apply (proj1 (Logic.and_assoc _ _ _)). split; [|intros q0 d0 Hh; by rewrite dispatch_handler, Hh].
  change (@nil dbif_response) with (@nil dbif_response ++ []) in H.
  enough (forall qs c rs d, serving p c rs qs d ->
    (Forall plain qs -> length (data_page d) = Z.to_nat 4096 -> exists d', serve (length qs) (wrap32 (c + Z.of_nat (length qs))) d = Ok d') /\
    (forall d', serve (length qs) (wrap32 (c + Z.of_nat (length qs))) d = Ok d' ->
      served qs d d' /\ exists rs', serving p (c + Z.of_nat (length qs)) (rs ++ rs') [] d' /\ r_id <$> rs' = to_answer qs)) as Hgen by (by apply (Hgen qs c [])).
  clear - RO relax_ring app_ring. intros qs. induction qs as [|q qs IH]; intros c rs d Hs.
  - cbn [length serve_requests Z.of_nat]. rewrite Z.add_0_r, (sv_cons _ _ _ _ _ Hs), Z.eqb_refl. split; [by eexists|].
    intros d' [= <-]. split; [constructor|]. exists []. by rewrite app_nil_r.
  - pose proof ring_size_bounds as [HN _]. pose proof (sv_fit _ _ _ _ _ Hs) as Hfit. pose proof (sv_order _ _ _ _ _ Hs) as Hord. cbn [length] in Hfit |- *.
    cbn [serve_requests]. rewrite (sv_cons _ _ _ _ _ Hs), (proj2 (Z.eqb_neq _ _)).
    2:{ intros Heq. apply wrap32_inj in Heq; lia. }
    rewrite (ring_get_window _ c (EReq q) (EReq <$> qs)) by apply Hs. cbn [mbind res_bind as_req].
    replace (c + Z.of_nat (S (length qs))) with (c + 1 + Z.of_nat (length qs)) by lia. split.
    + intros Hp Hl. apply Forall_cons in Hp as [Hq Hp].
      destruct (plain_total q d _ (conj (sv_ok _ _ _ _ _ Hs) (sv_prod _ _ _ _ _ Hs)) Hl Hq) as (d1 & H1 & Hl1). rewrite H1. cbn [mbind res_bind].
      destruct (serving_step p c rs q qs d d1 Hs H1) as (rs' & Hs1 & _). by apply (IH _ _ _ Hs1).
    + intros d' H. apply res_bind_ok in H as (d1 & H1 & H). destruct (serving_step p c rs q qs d d1 Hs H1) as (rs1 & Hs1 & Hid1).
      destruct (IH _ _ _ Hs1) as [_ IH1]. destruct (IH1 d' H) as (Hserved & rs2 & Hs2 & Hid2). split.
      { rewrite dispatch_handler in H1. destruct (handler_of (type q)) as [h|] eqn:Hh; [|done]. by econstructor. }
      exists (rs1 ++ rs2). rewrite app_assoc, fmap_app, Hid1, Hid2. split; [done|]. unfold to_answer. by rewrite <- fmap_app, <- filter_app.
Qed.
End Serve.

(** ** Example: a read, a watchpoint, and signing off, which has no response. *)

Definition demo_requests : list dbif_request := [demo_read; DbReq REQ_SIGNOFF 12 0 0 0; demo_watch].

Definition demo_serve : db -> res db :=
  serve_requests demo_env 0 demo_as_rsp (fun d => d) 0 (fun a => a / 4096) (fun _ r d => (r, d)) (fun r => DbReq (r_id r) 0 0 0 0) 3 3.

Lemma serve_requests_answers_witness :
  exists d' rs, demo_serve (demo_db (demo []) demo_requests) = Ok d' /\ serving 0 3 rs [] d' /\ r_id <$> rs = [9; 11].
Proof.
  destruct (serve_requests_answers demo_env 0 demo_as_rsp (fun d => d) 0 (fun a => a / 4096) (fun _ r d => (r, d)) (fun r => DbReq (r_id r) 0 0 0 0)
    (fun _ => eq_refl) (fun _ _ _ => eq_refl) 0 0 demo_requests (demo_db (demo []) demo_requests)) as (Hok & Hans & _).
  - destruct (demo_rsp_at (demo []) demo_requests) as [Hs Hp]; [cbn; lia|].
    split; [exact Hs|exact Hp|done|done|done|apply window_nil|].
    intros [|[|[|?]]] x [= <-]; done.
  - destruct Hok as [d' Hd'].
    + unfold demo_requests. apply Forall_cons. split; [left; split; [by left|by vm_compute]|].
      apply Forall_cons. split; [right; right; left; done|]. apply Forall_singleton. right; right; right; left; done.
    + cbn [demo_db data_page]. apply length_replicate.
    + destruct (Hans d' Hd') as (_ & rs & H1 & H2). exists d', rs. split; [exact Hd'|split; [exact H1|exact H2]].
Defined.
