(* ===== verification/Events.v ===== *)
(** Event channels: events.c and hypervisor.c.

    The words Xen shares with the guest ([evtchn_pending], [evtchn_mask] and the
    per-cpu [vcpu_info]) are arrays of 64-bit words, [unsigned long] on x86_64, the
    tables of events.c are lists, and the handlers and the hypercalls are
    parameters.  What the code prints is left out.  [ev_log] is a trace of the
    handler calls and hypercalls. *)
From S2P Require Import Prelude Bitmap.
From stdpp Require Import options.

(** ** The data *)

Definition NR_EVS : Z := 1024.
Definition ANY_CPU : Z := -1.
Definition IRQ_ACTIVE : Z := 1048576.
Definition VIRQ_TIMER : Z := 0.

(** [evtchn_handler_t]: no handler, [default_handler] or a function of the guest. *)
Inductive handler := H_NULL | default_handler | H_fn (f : Z).

Global Instance handler_eq_dec : EqDecision handler.
Proof. solve_decision. Defined.

(** [ev_action_t] (without [EVTCHN_DEBUG]) *)
Record ev_action := EvAction { ea_cpu : Z; ea_handler : handler; ea_data : Z; ea_count : Z }.

(** The fields of [vcpu_info_t] that the guest uses. *)
Record vcpu_info := Vcpu {
  evtchn_upcall_pending : Z;
  evtchn_upcall_mask : Z;
  evtchn_pending_sel : Z
}.

(** The commands of [HYPERVISOR_event_channel_op], and [force_evtchn_callback]. *)
Inductive evop :=
| EVTCHNOP_close (port : Z)
| EVTCHNOP_bind_virq (virq vcpu : Z)
| EVTCHNOP_alloc_unbound (remote_dom : Z)
| EVTCHNOP_bind_interdomain (remote_dom remote_port : Z)
| EVTCHNOP_bind_ipi (vcpu : Z)
| EVTCHNOP_bind_vcpu (port vcpu : Z)
| xen_version.

Inductive ev_note :=
| N_call (h : handler) (port data : Z)
| N_op (o : evop).

(** The state of both files, the preemption count of the current thread and the
    rest of the system, [ev_world]. *)
Record evst (W : Type) := Ev {
  ev_actions : list ev_action;
  bound_ports : list Z;
  virq_used : list Z;
  evtchn_pending : list Z;
  evtchn_mask : list Z;
  vcpu : list vcpu_info;
  upcall_count : list Z;
  irq_count : Z;                   (** [current->preempt_count] *)
  ev_log : list ev_note;
  ev_world : W
}.
Arguments Ev {W}.
Arguments ev_actions {W}.
Arguments bound_ports {W}.
Arguments virq_used {W}.
Arguments evtchn_pending {W}.
Arguments evtchn_mask {W}.
Arguments vcpu {W}.
Arguments upcall_count {W}.
Arguments irq_count {W}.
Arguments ev_log {W}.
Arguments ev_world {W}.

Section Setters.
Context {W : Type}.
Implicit Types s : evst W.

Definition set_actions v s := Ev v (bound_ports s) (virq_used s) (evtchn_pending s) (evtchn_mask s) (vcpu s) (upcall_count s) (irq_count s) (ev_log s) (ev_world s).
Definition set_bound v s := Ev (ev_actions s) v (virq_used s) (evtchn_pending s) (evtchn_mask s) (vcpu s) (upcall_count s) (irq_count s) (ev_log s) (ev_world s).
Definition set_virq v s := Ev (ev_actions s) (bound_ports s) v (evtchn_pending s) (evtchn_mask s) (vcpu s) (upcall_count s) (irq_count s) (ev_log s) (ev_world s).
Definition set_pending v s := Ev (ev_actions s) (bound_ports s) (virq_used s) v (evtchn_mask s) (vcpu s) (upcall_count s) (irq_count s) (ev_log s) (ev_world s).
Definition set_mask v s := Ev (ev_actions s) (bound_ports s) (virq_used s) (evtchn_pending s) v (vcpu s) (upcall_count s) (irq_count s) (ev_log s) (ev_world s).
Definition set_vcpu v s := Ev (ev_actions s) (bound_ports s) (virq_used s) (evtchn_pending s) (evtchn_mask s) v (upcall_count s) (irq_count s) (ev_log s) (ev_world s).
Definition set_upcall v s := Ev (ev_actions s) (bound_ports s) (virq_used s) (evtchn_pending s) (evtchn_mask s) (vcpu s) v (irq_count s) (ev_log s) (ev_world s).
Definition set_irq v s := Ev (ev_actions s) (bound_ports s) (virq_used s) (evtchn_pending s) (evtchn_mask s) (vcpu s) (upcall_count s) v (ev_log s) (ev_world s).
Definition ev_tell n s := Ev (ev_actions s) (bound_ports s) (virq_used s) (evtchn_pending s) (evtchn_mask s) (vcpu s) (upcall_count s) (irq_count s) (ev_log s ++ [n]) (ev_world s).
Definition set_world (w : W) s := Ev (ev_actions s) (bound_ports s) (virq_used s) (evtchn_pending s) (evtchn_mask s) (vcpu s) (upcall_count s) (irq_count s) (ev_log s) w.
End Setters.

(** What the guest's handlers do, and what Xen answers to a hypercall: its return
    value, the port it writes into the argument, the state after it. *)
Class EventEnv (W : Type) := {
  run_handler : Z -> Z -> Z -> evst W -> res (evst W);
  hypercall : evop -> evst W -> Z * Z * evst W
}.

Definition event_channel_op {W} `{!EventEnv W} (o : evop) (s : evst W) : Z * Z * evst W :=
  hypercall o (ev_tell (N_op o) s).

(** ** hypervisor.c and events.c *)

(** [__ffs]: the lowest bit that is set, searched from bit [i]. *)
Fixpoint ffs_from (n : nat) (w i : Z) : Z :=
  match n with
  | O => i
  | S n => if Z.testbit w i then i else ffs_from n w (i + 1)
  end.

Definition __ffs (w : Z) : Z := ffs_from 64 w 0.

Section Code.
Context {W : Type} `{!EventEnv W}.
Implicit Types s : evst W.

Definition mask_evtchn (port : Z) s : res (evst W) :=
  m ← set_map (evtchn_mask s) port; Ok (set_mask m s).

Definition clear_evtchn (port : Z) s : res (evst W) :=
  m ← clear_map (evtchn_pending s) port; Ok (set_pending m s).

Definition force_evtchn_callback s : evst W := snd (event_channel_op xen_version s).

Definition unmask_evtchn (cpu port : Z) s : res (evst W) :=
  m ← clear_map (evtchn_mask s) port;
  let s := set_mask m s in
  pend ← allocated_in_map (evtchn_pending s) port;
  if (pend : bool) then
    v ← access (vcpu s !! Z.to_nat cpu);
    let sel := [evtchn_pending_sel v] in
    was ← allocated_in_map sel (Z.shiftr port 5);
    sel ← set_map sel (Z.shiftr port 5);
    sel0 ← rd sel 0;
    if negb (was : bool) then
      let s := set_vcpu (<[Z.to_nat cpu := Vcpu 1 (evtchn_upcall_mask v) sel0]> (vcpu s)) s in
      if evtchn_upcall_mask v =? 0 then Ok (force_evtchn_callback s) else Ok s
    else Ok s
  else Ok s.

(** [add_preempt_count(current, val)] *)
Definition add_irq (val : Z) s : res (evst W) :=
  let n := sgn32 (irq_count s + val) in
  _ ← bug_on (n <? 0);
  Ok (set_irq n s).

(** [action->handler(port, action->data)]; [default_handler] only prints. *)
Definition call_handler (h : handler) (port data : Z) s : res (evst W) :=
  match h with
  | H_NULL => Ok s
  | default_handler => Ok (ev_tell (N_call h port data) s)
  | H_fn f => run_handler f port data (ev_tell (N_call h port data) s)
  end.

(** [do_event] between clearing the port and the label [out]. *)
Definition dispatch (cpu port : Z) s : res (evst W) :=
  if NR_EVS <=? port then Ok s else
  a ← access (ev_actions s !! Z.to_nat port);
  let s := set_actions (<[Z.to_nat port := EvAction (ea_cpu a) (ea_handler a) (ea_data a) (wrap32 (ea_count a + 1))]> (ev_actions s)) s in
  if negb (ea_cpu a =? ANY_CPU) && negb (ea_cpu a =? cpu) then Ok s
  else call_handler (ea_handler a) port (ea_data a) s.

Definition do_event (cpu port : Z) s : res (evst W) :=
  s ← add_irq IRQ_ACTIVE s;
  s ← mask_evtchn port s;
  s ← clear_evtchn port s;
  s ← dispatch cpu port s;
  s ← unmask_evtchn cpu port s;
  add_irq (- IRQ_ACTIVE) s.

Definition active_evtchns (idx : Z) s : res Z :=
  p ← rd (evtchn_pending s) idx;
  m ← rd (evtchn_mask s) idx;
  Ok (Z.land p (wrap64 (Z.lnot m))).

(** [while ((l2 = active_evtchns(l1i)) != 0)]: [l2] is a [u32]. *)
Fixpoint event_word (fuel : nat) (cpu l1i : Z) s : res (evst W) :=
  match fuel with
  | O => Fuel
  | S fuel =>
      a ← active_evtchns l1i s;
      let l2 := wrap32 a in
      if l2 =? 0 then Ok s else
      let l2i := __ffs l2 in
      s ← do_event cpu (wrap32 (wrap32 (Z.shiftl l1i 5) + l2i)) s;
      event_word fuel cpu l1i s
  end.

(** [while (l1 != 0)]: [l1] is a [u32]. *)
Fixpoint event_selector (fuel : nat) (cpu l1 : Z) s : res (evst W) :=
  match fuel with
  | O => Fuel
  | S fuel' =>
      if l1 =? 0 then Ok s else
      let l1i := __ffs l1 in
      s ← event_word fuel cpu l1i s;
      event_selector fuel' cpu (Z.land l1 (wrap32 (Z.lnot (Z.shiftl 1 l1i)))) s
  end.

Fixpoint do_hypervisor_callback (fuel : nat) (cpu : Z) s : res (evst W) :=
  match fuel with
  | O => Fuel
  | S fuel' =>
      v ← access (vcpu s !! Z.to_nat cpu);
      let s := set_vcpu (<[Z.to_nat cpu := Vcpu 0 (evtchn_upcall_mask v) (evtchn_pending_sel v)]> (vcpu s)) s in
      n ← rd (upcall_count s) cpu;
      u ← wr (upcall_count s) cpu (sgn32 (n + 1));
      let s := set_upcall u s in
      if negb (n =? 0) then Ok s else
      v ← access (vcpu s !! Z.to_nat cpu);
      let s := set_vcpu (<[Z.to_nat cpu := Vcpu (evtchn_upcall_pending v) (evtchn_upcall_mask v) 0]> (vcpu s)) s in
      s ← event_selector fuel cpu (wrap32 (evtchn_pending_sel v)) s;
      count ← rd (upcall_count s) cpu;
      u ← wr (upcall_count s) cpu 0;
      let s := set_upcall u s in
      if count =? 1 then Ok s else do_hypervisor_callback fuel' cpu s
  end.

Definition bind_evtchn (this_cpu port cpu : Z) (h : handler) (data : Z) s : res (evst W) :=
  _ ← access (ev_actions s !! Z.to_nat port);
  let s := set_actions (<[Z.to_nat port := EvAction cpu h data 0]> (ev_actions s)) s in
  unmask_evtchn this_cpu port s.

Definition unbind_evtchn (port : Z) s : res (evst W) :=
  a ← access (ev_actions s !! Z.to_nat port);
  Ok (set_actions (<[Z.to_nat port := EvAction (ea_cpu a) default_handler 0 (ea_count a)]> (ev_actions s)) s).

(** [set_bit(port, bound_ports)] *)
Definition set_bound_port (port : Z) s : res (evst W) :=
  b ← set_map (bound_ports s) port; Ok (set_bound b s).

Definition bind_virq (this_cpu virq cpu : Z) (h : handler) (data : Z) s : res (evst W) :=
  let '(err, port, s) := event_channel_op (EVTCHNOP_bind_virq virq this_cpu) s in
  _ ← bug_on (negb (err =? 0));
  s ← set_bound_port port s;
  bind_evtchn this_cpu port cpu h data s.

Definition evtchn_alloc_unbound (this_cpu pal : Z) (h : handler) (cpu data : Z) s : res (Z * option Z * evst W) :=
  let '(err, port, s) := event_channel_op (EVTCHNOP_alloc_unbound pal) s in
  if negb (err =? 0) then Ok (err, None, s) else
  s ← bind_evtchn this_cpu port cpu h data s;
  Ok (err, Some port, s).

Definition evtchn_bind_interdomain (this_cpu pal remote_port : Z) (h : handler) (cpu data : Z) s : res (Z * option Z * evst W) :=
  let '(err, port, s) := event_channel_op (EVTCHNOP_bind_interdomain pal remote_port) s in
  if negb (err =? 0) then Ok (err, None, s) else
  s ← set_bound_port port s;
  s ← clear_evtchn port s;
  s ← bind_evtchn this_cpu port cpu h data s;
  Ok (err, Some port, s).

Definition evtchn_alloc_ipi (this_cpu : Z) (h : handler) (cpu data : Z) s : res (Z * evst W) :=
  let '(err, port, s) := event_channel_op (EVTCHNOP_bind_ipi cpu) s in
  _ ← bug_on (negb (err =? 0));
  s ← set_bound_port port s;
  s ← bind_evtchn this_cpu port cpu h data s;
  Ok (port, s).

(** The message about an error is printed whatever the hypercall returns. *)
Definition evtchn_bind_to_cpu (port cpu : Z) s : evst W :=
  snd (event_channel_op (EVTCHNOP_bind_vcpu port cpu) s).

(** The body of [unbind_all_ports] for port [i], and its loop over [n] ports. *)
Definition unbind_port (i : Z) s : res (evst W) :=
  b ← allocated_in_map (bound_ports s) i;
  m ← clear_map (bound_ports s) i;
  let s := set_bound m s in
  if (b : bool) then
    s ← mask_evtchn i s;
    unbind_evtchn i (snd (event_channel_op (EVTCHNOP_close i) s))
  else Ok s.

Fixpoint unbind_ports (n : nat) (i : Z) s : res (evst W) :=
  match n with
  | O => Ok s
  | S n => s ← unbind_port i s; unbind_ports n (i + 1) s
  end.

Definition unbind_all_ports s : res (evst W) := unbind_ports (Z.to_nat NR_EVS) 0 s.

(** [timer_handler] is a function of arch/x86/time.c. *)
Definition evtchn_resume (timer_handler : Z) (this_cpu : Z) s : res (evst W) :=
  bind_virq this_cpu VIRQ_TIMER this_cpu (H_fn timer_handler) 0 s.

Definition evtchn_suspend s : res (evst W) := unbind_all_ports s.

Fixpoint init_actions (n : nat) (i : Z) s : res (evst W) :=
  match n with
  | O => Ok s
  | S n =>
      a ← access (ev_actions s !! Z.to_nat i);
      s ← mask_evtchn i (set_actions (<[Z.to_nat i := EvAction (ea_cpu a) default_handler (ea_data a) (ea_count a)]> (ev_actions s)) s);
      init_actions n (i + 1) s
  end.

Definition init_events s : res (evst W) :=
  s ← init_actions (Z.to_nat NR_EVS) 0 s;
  Ok (set_virq (map (fun _ => 0) (virq_used s)) s).
End Code.

(** ** What the words mean *)

Section Spec.
Context {W : Type} `{!EventEnv W}.
Implicit Types s : evst W.

(** Port [p] is pending and not masked. *)
Definition active s (p : Z) : bool := page_bit (evtchn_pending s) p && negb (page_bit (evtchn_mask s) p).

(** What an event on port [p] makes cpu [cpu] call. *)
Definition delivered (cpu : Z) (acts : list ev_action) (p : Z) : list ev_note :=
  match acts !! Z.to_nat p with
  | Some a =>
      if negb (ea_cpu a =? ANY_CPU) && negb (ea_cpu a =? cpu) then []
      else match ea_handler a with H_NULL => [] | h => [N_call h p (ea_data a)] end
  | None => []
  end.

(** The calls owed for the [n] ports from [k] on, in the order of the ports. *)
Fixpoint due (cpu : Z) s (k : Z) (n : nat) : list ev_note :=
  match n with
  | O => []
  | S n => (if active s k then delivered cpu (ev_actions s) k else []) ++ due cpu s (k + 1) n
  end.

(** The static tables and the shared words have their C dimensions. *)
Record ev_ok s : Prop := EvOk {
  ok_actions : length (ev_actions s) = Z.to_nat NR_EVS;
  ok_bound : length (bound_ports s) = 16%nat /\ words_ok (bound_ports s);
  ok_pending : length (evtchn_pending s) = 64%nat /\ words_ok (evtchn_pending s);
  ok_mask : length (evtchn_mask s) = 64%nat /\ words_ok (evtchn_mask s);
  ok_irq : 0 <= irq_count s < 2 ^ 31 - IRQ_ACTIVE
}.

(** A handler of the guest returns and leaves the event channels alone. *)
Definition quiet : Prop :=
  forall f port data s, exists w, run_handler f port data s = Ok (set_world w s).

(** A hypercall changes the pending bits and the rest of the system. *)
Definition hv_frame : Prop :=
  forall o s, exists err port m w, hypercall o s = (err, port, set_world w (set_pending m s)) /\
    length m = length (evtchn_pending s) /\ (words_ok (evtchn_pending s) -> words_ok m).

(** What handling one event leaves alone: everything but the two words, the
    count of the action, the trace and the rest of the system. *)
Record ev_frame s s' : Prop := EvFrame {
  fr_ok : ev_ok s -> ev_ok s';
  fr_bound : bound_ports s' = bound_ports s;
  fr_vcpu : vcpu s' = vcpu s;
  fr_upcall : upcall_count s' = upcall_count s;
  fr_irq : irq_count s' = irq_count s;
  fr_delivered : forall cpu p, delivered cpu (ev_actions s') p = delivered cpu (ev_actions s) p
}.

Lemma ev_frame_refl s : ev_frame s s.
Proof. done. Qed.

Lemma ev_frame_trans s1 s2 s3 : ev_frame s1 s2 -> ev_frame s2 s3 -> ev_frame s1 s3.
Proof.
  intros [] []. constructor; [auto|congruence..|]. intros. by rewrite fr_delivered1.
Qed.

(** ** Bits *)

Lemma ffs_from_spec n w i k :
  i <= k < i + Z.of_nat n -> Z.testbit w k = true -> (forall j, i <= j < k -> Z.testbit w j = false) ->
  ffs_from n w i = k.
Proof.
  revert i. induction n as [|n IH]; intros i Hk Hb Hlow; [lia|]. cbn [ffs_from].
  destruct (decide (i = k)) as [->|]; [by rewrite Hb|].
  rewrite Hlow by lia. apply IH; [lia|done|]. intros j Hj. apply Hlow. lia.
Qed.

Lemma ffs_spec w k :
  0 <= k < 64 -> Z.testbit w k = true -> (forall j, 0 <= j < k -> Z.testbit w j = false) -> __ffs w = k.
Proof. intros. apply ffs_from_spec; [lia|done..]. Qed.

(** The word read by the inner loop: the active ports of the low half of word [i]. *)
Lemma active_word i s :
  ev_ok s -> 0 <= i < 64 ->
  exists a, active_evtchns i s = Ok a /\
    forall j, Z.testbit (wrap32 a) j = bool_decide (0 <= j < 32) && active s (64 * i + j).
Proof.
  intros Hok Hi. destruct (ok_pending s Hok) as [Hlp Hwp], (ok_mask s Hok) as [Hlm Hwm].
  unfold active_evtchns. destruct (rd_in (evtchn_pending s) i) as (p & -> & Hp); [lia|].
  destruct (rd_in (evtchn_mask s) i) as (m & -> & Hm); [lia|]. cbn [mbind res_bind].
  eexists. split; [done|]. intros j. rewrite wrap_testbit by lia.
  destruct (decide (0 <= j)); [|rewrite Z.testbit_neg_r by lia; rewrite (bool_decide_eq_false_2 (0 <= j < 32)) by lia; by rewrite andb_false_r].
  destruct (decide (j < 32)); [|by rewrite !bool_decide_eq_false_2 by lia].
  rewrite !bool_decide_eq_true_2 by lia. cbn [andb].
  rewrite Z.land_spec, wrap_testbit, Z.lnot_spec by lia. rewrite bool_decide_eq_true_2 by lia. cbn [andb].
  unfold active, page_bit. destruct (page_split i j) as [-> ->]; [lia|]. by rewrite Hp, Hm.
Qed.

(** Setting and clearing one bit of a word array of the shared page. *)
Lemma set_bit_at m p :
  words_ok m -> 0 <= p < 64 * Z.of_nat (length m) -> exists m', set_map m p = Ok m' /\ length m' = length m /\ words_ok m' /\
    forall q, 0 <= q -> page_bit m' q = bool_decide (q = p) || page_bit m q.
Proof.
  intros Hm Hp. destruct (set_map_spec m p Hm) as (m' & -> & Hl & Hw & Hb).
  { split; [lia|]. apply Z.div_lt_upper_bound; lia. }
  exists m'. splits; try done. intros q Hq. rewrite Hb by done. repeat case_bool_decide; try lia; done.
Qed.

Lemma clear_bit_at m p :
  words_ok m -> 0 <= p < 64 * Z.of_nat (length m) -> exists m', clear_map m p = Ok m' /\ length m' = length m /\ words_ok m' /\
    forall q, 0 <= q -> page_bit m' q = negb (bool_decide (q = p)) && page_bit m q.
Proof.
  intros Hm Hp. destruct (clear_map_spec m p Hm) as (m' & -> & Hl & Hw & Hb).
  { split; [lia|]. apply Z.div_lt_upper_bound; lia. }
  exists m'. splits; try done. intros q Hq. rewrite Hb by done. repeat case_bool_decide; try lia; done.
Qed.

Lemma test_bit_at m p :
  words_ok m -> 0 <= p < 64 * Z.of_nat (length m) -> allocated_in_map m p = Ok (page_bit m p).
Proof. intros Hm Hp. apply allocated_in_map_spec; [done|]. split; [lia|]. apply Z.div_lt_upper_bound; lia. Qed.

(** ** One event *)

Lemma add_irq_on s : ev_ok s -> add_irq IRQ_ACTIVE s = Ok (set_irq (irq_count s + IRQ_ACTIVE) s).
Proof.
  intros Hok. pose proof (ok_irq s Hok). unfold add_irq, IRQ_ACTIVE in *. rewrite sgn_small by lia.
  by rewrite (proj2 (Z.ltb_ge _ _)) by lia.
Qed.

Lemma add_irq_off s n :
  0 <= n < 2 ^ 31 - IRQ_ACTIVE -> irq_count s = n + IRQ_ACTIVE -> add_irq (- IRQ_ACTIVE) s = Ok (set_irq n s).
Proof.
  intros Hn E. unfold add_irq, IRQ_ACTIVE in *. rewrite E.
  replace (n + 1048576 + - (1048576)) with n by lia. rewrite sgn_small by lia. by rewrite (proj2 (Z.ltb_ge _ _)) by lia.
Qed.

Lemma delivered_count cpu acts p p' a c :
  acts !! Z.to_nat p = Some a ->
  delivered cpu (<[Z.to_nat p := EvAction (ea_cpu a) (ea_handler a) (ea_data a) c]> acts) p' = delivered cpu acts p'.
Proof.
  intros Ha. unfold delivered. destruct (decide (Z.to_nat p = Z.to_nat p')) as [E|].
  - rewrite <- E, list_lookup_insert_eq by (by eapply lookup_lt_Some). by rewrite Ha.
  - by rewrite list_lookup_insert_ne.
Qed.

(** Dispatching counts the event and calls the handler of its action. *)
Lemma dispatch_spec cpu p s :
  quiet -> length (ev_actions s) = Z.to_nat NR_EVS -> 0 <= p < NR_EVS ->
  exists acts w, dispatch cpu p s = Ok (Ev acts (bound_ports s) (virq_used s) (evtchn_pending s) (evtchn_mask s)
      (vcpu s) (upcall_count s) (irq_count s) (ev_log s ++ delivered cpu (ev_actions s) p) w) /\
    length acts = Z.to_nat NR_EVS /\
    forall cpu' q, delivered cpu' acts q = delivered cpu' (ev_actions s) q.
Proof.
  intros Hq Hl Hp. unfold dispatch. rewrite (proj2 (Z.leb_gt _ _)) by lia.
  destruct (lookup_lt_is_Some_2 (ev_actions s) (Z.to_nat p)) as [a Ha]; [lia|].
  rewrite Ha. cbn [access mbind res_bind].
  assert (forall l (w : W), l = delivered cpu (ev_actions s) p ->
    exists acts (w' : W), Ok (Ev (<[Z.to_nat p := EvAction (ea_cpu a) (ea_handler a) (ea_data a) (wrap32 (ea_count a + 1))]> (ev_actions s))
      (bound_ports s) (virq_used s) (evtchn_pending s) (evtchn_mask s) (vcpu s) (upcall_count s) (irq_count s) (ev_log s ++ l) w) =
    Ok (Ev acts (bound_ports s) (virq_used s) (evtchn_pending s) (evtchn_mask s)
      (vcpu s) (upcall_count s) (irq_count s) (ev_log s ++ delivered cpu (ev_actions s) p) w') /\
    length acts = Z.to_nat NR_EVS /\ forall cpu' q, delivered cpu' acts q = delivered cpu' (ev_actions s) q) as Hgo.
  { intros l w ->. eexists _, w. splits; [done|by rewrite length_insert|]. intros. by apply delivered_count. }
  unfold delivered in Hgo at 1. rewrite Ha in Hgo.
  destruct (_ && _).
  - unfold set_actions. destruct (Hgo [] (ev_world s) eq_refl) as (acts & w & E & H). rewrite app_nil_r in E.
    exists acts, w. by rewrite E.
  - destruct (ea_handler a) as [| |f] eqn:Hh; cbn [call_handler]; rewrite <- ?Hh in *.
    + destruct (Hgo [] (ev_world s) eq_refl) as (acts & w & E & H). rewrite app_nil_r in E. exists acts, w. by rewrite <- E.
    + destruct (Hgo _ (ev_world s) eq_refl) as (acts & w & E & H). exists acts, w. by rewrite <- E.
    + match goal with |- context [run_handler f ?x ?y ?z] => destruct (Hq f x y z) as [w0 ->] end.
      destruct (Hgo _ w0 eq_refl) as (acts & w & E & H). exists acts, w. by rewrite <- E.
Qed.

(** Masking, clearing, dispatching and unmasking a port: the handler is called
    if the action is for this cpu, and the port is neither pending nor masked. *)
Lemma do_event_spec cpu p s :
  quiet -> ev_ok s -> 0 <= p < NR_EVS ->
  exists s', do_event cpu p s = Ok s' /\ ev_frame s s' /\
    ev_log s' = ev_log s ++ delivered cpu (ev_actions s) p /\
    (forall q, 0 <= q -> page_bit (evtchn_pending s') q = negb (bool_decide (q = p)) && page_bit (evtchn_pending s) q) /\
    (forall q, 0 <= q -> page_bit (evtchn_mask s') q = negb (bool_decide (q = p)) && page_bit (evtchn_mask s) q).
Proof.
  intros Hq Hok Hp. unfold do_event. rewrite add_irq_on by done. cbn [mbind res_bind].
  destruct (ok_pending s Hok) as [Hlp Hwp], (ok_mask s Hok) as [Hlm Hwm]. unfold NR_EVS in Hp.
  unfold mask_evtchn. destruct (set_bit_at (evtchn_mask s) p Hwm) as (m1 & Hm1 & Hl1 & Hw1 & Hb1); [lia|].
  cbn [evtchn_mask set_irq]. rewrite Hm1. cbn [mbind res_bind].
  unfold clear_evtchn. destruct (clear_bit_at (evtchn_pending s) p Hwp) as (m2 & Hm2 & Hl2 & Hw2 & Hb2); [lia|].
  cbn [evtchn_pending set_mask set_irq]. rewrite Hm2. cbn [mbind res_bind].
  edestruct (dispatch_spec cpu p) as (acts & w & -> & Hla & Hdel); [done| |done|]; [by cbn; apply ok_actions|].
  cbn [mbind res_bind ev_actions bound_ports virq_used evtchn_pending evtchn_mask vcpu upcall_count irq_count ev_log set_pending set_mask set_irq] in *.
  unfold unmask_evtchn. cbn [evtchn_mask evtchn_pending].
  destruct (clear_bit_at m1 p Hw1) as (m3 & -> & Hl3 & Hw3 & Hb3); [lia|]. cbn [mbind res_bind evtchn_pending set_mask].
  rewrite test_bit_at, Hb2 by (done || lia). rewrite bool_decide_eq_true_2 by done. cbn [negb andb mbind res_bind].
  rewrite (add_irq_off _ (irq_count s)) by first [apply (ok_irq s Hok)|done].
  eexists. split; [done|]. cbn [ev_log evtchn_pending evtchn_mask set_irq]. splits; [|done|done|].
  - constructor; cbn; try done. intros _. constructor; cbn; [done|apply Hok|split; [congruence|done]|split; [congruence|done]|apply Hok].
  - intros q Hq0. rewrite Hb3, Hb1 by done. by case_bool_decide.
Qed.

(** ** The callback *)

Lemma due_ext cpu s s' k n :
  (forall p, k <= p -> active s' p = active s p) ->
  (forall p, delivered cpu (ev_actions s') p = delivered cpu (ev_actions s) p) ->
  due cpu s' k n = due cpu s k n.
Proof.
  intros Ha Hd. revert k Ha. induction n as [|n IH]; intros k Ha; [done|]. cbn [due].
  rewrite Ha, Hd, IH by (intros; try apply Ha; lia). done.
Qed.

(** The words after the active ports below [n] of the state [s] were handled. *)
Definition handled (n : Z) s s' : Prop :=
  (forall p, 0 <= p -> page_bit (evtchn_pending s') p = page_bit (evtchn_pending s) p && negb (active s p && bool_decide (p < n))) /\
  (forall p, 0 <= p -> page_bit (evtchn_mask s') p = page_bit (evtchn_mask s) p).

(** The active word is zero, or its lowest bit is the first active port. *)
Lemma low_word_zero s a :
  (forall j, Z.testbit a j = bool_decide (0 <= j < 32) && active s (64 * 0 + j)) ->
  (forall j, 0 <= j < 32 -> active s j = false) -> a = 0.
Proof.
  intros Ha Hn. apply Z.bits_inj'. intros j Hj. rewrite Ha, Z.testbit_0_l. case_bool_decide; [|done].
  cbn [andb]. by apply Hn.
Qed.

Lemma event_word_spec cpu s n k fuel :
  quiet -> ev_ok s -> k + Z.of_nat n = 32 -> 0 <= k -> (forall j, 0 <= j < k -> active s j = false) -> (n < fuel)%nat ->
  exists s', event_word fuel cpu 0 s = Ok s' /\ ev_frame s s' /\ ev_log s' = ev_log s ++ due cpu s k n /\ handled 32 s s'.
Proof.
  intros Hq. revert s k fuel. induction n as [|n IH]; intros s k fuel Hok Hkn Hk Hlow Hf.
  - destruct fuel as [|fuel]; [lia|]. cbn [event_word]. destruct (active_word 0 s Hok) as (a & -> & Ha); [lia|].
    cbn [mbind res_bind]. rewrite (low_word_zero s (wrap32 a)) by (done || (intros; apply Hlow; lia)). cbn [Z.eqb].
    exists s. cbn [due]. rewrite app_nil_r. splits; [done|done|done|]. split; [|done]. intros p Hp.
    case_bool_decide; [rewrite Hlow by lia|]; by rewrite ?andb_false_r, andb_true_r.
  - destruct (active s k) eqn:Hact.
    2:{ destruct (IH s (k + 1) fuel) as (s' & Hrun & Hfr & Hlog & Hh); try lia; [done| |].
        { intros j Hj. destruct (decide (j = k)) as [->|]; [done|]. apply Hlow. lia. }
        exists s'. cbn [due]. by rewrite Hact. }
    destruct fuel as [|fuel]; [lia|]. cbn [event_word]. destruct (active_word 0 s Hok) as (a & -> & Ha); [lia|].
    cbn [mbind res_bind].
    assert (Z.testbit (wrap32 a) k = true) as Hbk.
    { rewrite Ha, bool_decide_eq_true_2 by lia. by replace (64 * 0 + k) with k by lia. }
    destruct (Z.eqb_spec (wrap32 a) 0) as [E|_]; [by rewrite E, Z.testbit_0_l in Hbk|].
    rewrite (ffs_spec _ k); [|lia|done|].
    2:{ intros j Hj. rewrite Ha, bool_decide_eq_true_2 by lia. cbn [andb]. apply Hlow. lia. }
    replace (wrap32 (wrap32 (Z.shiftl 0 5) + k)) with k by (rewrite Z.shiftl_0_l, !wrap_small by (try rewrite wrap_small by lia; lia); lia).
    destruct (do_event_spec cpu k s Hq Hok) as (s1 & -> & Hfr & Hlog & Hpe & Hma); [unfold NR_EVS; lia|]. cbn [mbind res_bind].
    assert (forall p, 0 <= p -> active s1 p = negb (bool_decide (p = k)) && active s p) as Ha1.
    { intros p Hp. unfold active in *. rewrite Hpe, Hma by done. case_bool_decide; by rewrite ?andb_false_l. }
    destruct (IH s1 (k + 1) fuel) as (s' & Hrun & Hfr' & Hlog' & [Hp' Hm']); try lia; [by apply Hfr| |].
    { intros j Hj. rewrite Ha1 by lia. case_bool_decide; [done|]. apply Hlow. lia. }
    exists s'. splits; [done|by eapply ev_frame_trans| |].
    + rewrite Hlog', Hlog, (due_ext cpu s s1), <- app_assoc; [cbn [due]; by rewrite Hact| |apply Hfr].
      intros p Hp. rewrite Ha1 by lia. by rewrite bool_decide_eq_false_2 by lia.
    + assert (page_bit (evtchn_mask s) k = false) as Hmk.
      { unfold active in Hact. apply andb_true_iff in Hact as [_ ?]. by apply negb_true_iff. }
      split; intros p Hp.
      * rewrite Hp', Ha1, Hpe by done. destruct (decide (p = k)) as [->|].
        -- rewrite Hact, !bool_decide_eq_true_2 by lia. by rewrite andb_false_r.
        -- by rewrite (bool_decide_eq_false_2 (p = k)) by done.
      * rewrite Hm', Hma by done. case_bool_decide; [subst p; by rewrite Hmk|done].
Qed.

(** Handling an event never empties another word: the port computed for an
    active bit of the word [i], [i > 0], lies in the word [i / 2]. *)
Lemma event_word_stuck cpu i fuel s p :
  quiet -> ev_ok s -> 1 <= i < 32 -> 64 * i <= p < 64 * i + 32 -> active s p = true ->
  event_word fuel cpu i s = Fuel.
Proof.
  intros Hq. revert s. induction fuel as [|fuel IH]; intros s Hok Hi Hp Hact; [done|]. cbn [event_word].
  destruct (active_word i s Hok) as (a & -> & Ha); [lia|]. cbn [mbind res_bind].
  assert (Z.testbit (wrap32 a) (p - 64 * i) = true) as Hb.
  { rewrite Ha, bool_decide_eq_true_2 by lia. by replace (64 * i + (p - 64 * i)) with p by lia. }
  destruct (Z.eqb_spec (wrap32 a) 0) as [E|Hz]; [by rewrite E, Z.testbit_0_l in Hb|].
  assert (0 <= __ffs (wrap32 a) < 32) as Hffs.
  { assert (forall n j, 0 <= j <= 31 -> j + Z.of_nat n > 31 -> (forall l, 0 <= l < j -> Z.testbit (wrap32 a) l = false) -> 0 <= ffs_from n (wrap32 a) j < 32) as H.
    { induction n as [|n IHn]; intros j Hj Hn Hl; [lia|]. cbn [ffs_from]. destruct (Z.testbit (wrap32 a) j) eqn:Hbj; [lia|].
      destruct (decide (j = 31)) as [->|]; [|apply IHn; [lia..|]; intros l Hl2; destruct (decide (l = j)) as [->|]; [done|apply Hl; lia]].
      exfalso. apply Hz. apply Z.bits_inj'. intros l Hl2. rewrite Z.testbit_0_l. destruct (decide (l < 31)); [apply Hl; lia|].
      destruct (decide (l = 31)) as [->|]; [done|]. rewrite Ha, bool_decide_eq_false_2 by lia. done. }
    apply H; [lia|lia|intros; lia]. }
  rewrite Z.shiftl_mul_pow2, (wrap_small 32 (i * 2 ^ 5)), wrap_small by lia.
  destruct (do_event_spec cpu (i * 2 ^ 5 + __ffs (wrap32 a)) s Hq Hok) as (s1 & -> & Hfr & _ & Hpe & Hma); [unfold NR_EVS; lia|].
  cbn [mbind res_bind]. apply IH; [by apply Hfr|done|done|]. unfold active in *.
  by rewrite Hpe, Hma, bool_decide_eq_false_2 by lia.
Qed.

(** ** Closing the ports of the guest *)

(** The closing hypercalls for the bound ports among the [n] from [k] on. *)
Fixpoint closing (b : list Z) (k : Z) (n : nat) : list ev_note :=
  match n with
  | O => []
  | S n => (if page_bit b k then [N_op (EVTCHNOP_close k)] else []) ++ closing b (k + 1) n
  end.

(** The action of a port after [unbind_evtchn]. *)
Definition unbound (a : ev_action) : ev_action := EvAction (ea_cpu a) default_handler 0 (ea_count a).

(** From [s] to [s'] the bound ports below [n] from [k] on were closed. *)
Record closed (k : Z) (n : nat) s s' : Prop := Closed {
  cl_ok : ev_ok s';
  cl_log : ev_log s' = ev_log s ++ closing (bound_ports s) k n;
  cl_bound : forall p, 0 <= p -> page_bit (bound_ports s') p = page_bit (bound_ports s) p && negb (bool_decide (k <= p < k + Z.of_nat n));
  cl_mask : forall p, 0 <= p -> page_bit (evtchn_mask s') p =
    page_bit (evtchn_mask s) p || (page_bit (bound_ports s) p && bool_decide (k <= p < k + Z.of_nat n));
  cl_actions : forall p, 0 <= p -> ev_actions s' !! Z.to_nat p =
    if page_bit (bound_ports s) p && bool_decide (k <= p < k + Z.of_nat n)
    then unbound <$> ev_actions s !! Z.to_nat p else ev_actions s !! Z.to_nat p
}.

Lemma unbind_port_spec i s :
  hv_frame -> ev_ok s -> 0 <= i < NR_EVS -> exists s', unbind_port i s = Ok s' /\ closed i 1 s s'.
Proof.
  intros Hv Hok Hi. unfold unbind_port. destruct (ok_bound s Hok) as [Hlb Hwb], (ok_mask s Hok) as [Hlm Hwm]. unfold NR_EVS in Hi.
  rewrite test_bit_at by (done || lia). cbn [mbind res_bind].
  destruct (clear_bit_at (bound_ports s) i Hwb) as (b & -> & Hlb' & Hwb' & Hb); [lia|]. cbn [mbind res_bind].
  assert (forall p, 0 <= p -> page_bit b p = page_bit (bound_ports s) p && negb (bool_decide (i <= p < i + Z.of_nat 1))) as Hbb.
  { intros p Hp. rewrite Hb by done. repeat case_bool_decide; try lia; by rewrite ?andb_true_r, ?andb_false_r. }
  destruct (page_bit (bound_ports s) i) eqn:Hbit.
  - unfold mask_evtchn. cbn [evtchn_mask set_bound].
    destruct (set_bit_at (evtchn_mask s) i Hwm) as (m & -> & Hlm' & Hwm' & Hm); [lia|]. cbn [mbind res_bind].
    unfold event_channel_op. match goal with |- context [hypercall ?o ?x] => destruct (Hv o x) as (err & port & pe & w & -> & Hlp & Hwp) end.
    cbn [snd]. unfold unbind_evtchn. cbn [ev_actions set_world set_pending ev_tell set_mask set_bound] in *.
    destruct (lookup_lt_is_Some_2 (ev_actions s) (Z.to_nat i)) as [a Ha]; [rewrite (ok_actions s Hok); unfold NR_EVS; lia|].
    rewrite Ha. cbn [access mbind res_bind]. eexists. split; [done|]. destruct (ok_pending s Hok).
    constructor; cbn -[closing].
    + constructor; cbn in *; [rewrite length_insert; apply Hok|split; [lia|done]|split; [lia|auto]|split; [lia|done]|apply Hok].
    + cbn. by rewrite Hbit.
    + done.
    + intros p Hp. rewrite Hm by done. destruct (decide (p = i)) as [->|].
      * rewrite Hbit, !bool_decide_eq_true_2 by lia. by rewrite orb_true_r.
      * rewrite !bool_decide_eq_false_2 by lia. by rewrite andb_false_r, orb_false_r.
    + intros p Hp. destruct (decide (p = i)) as [->|].
      * rewrite Hbit, bool_decide_eq_true_2, list_lookup_insert_eq, Ha by (lia || by eapply lookup_lt_Some). done.
      * rewrite list_lookup_insert_ne by lia. by rewrite bool_decide_eq_false_2, andb_false_r by lia.
  - eexists. split; [done|]. constructor; cbn -[closing].
    + constructor; cbn; [apply Hok|split; [congruence|done]|apply Hok..].
    + cbn. by rewrite Hbit, app_nil_r.
    + done.
    + intros p Hp. case_bool_decide; [replace p with i by lia; by rewrite Hbit, orb_false_r|by rewrite andb_false_r, orb_false_r].
    + intros p Hp. case_bool_decide; [replace p with i by lia; by rewrite Hbit|by rewrite andb_false_r].
Qed.

Lemma closing_ext b b' k n :
  (forall p, k <= p -> page_bit b' p = page_bit b p) -> closing b' k n = closing b k n.
Proof.
  revert k. induction n as [|n IH]; intros k H; [done|]. cbn [closing]. rewrite H, IH by (intros; try apply H; lia). done.
Qed.

Lemma closed_trans k n s1 s2 s3 : 0 <= k -> closed k 1 s1 s2 -> closed (k + 1) n s2 s3 -> closed k (S n) s1 s3.
Proof.
  intros Hk [Hok1 Hl1 Hb1 Hm1 Ha1] [Hok2 Hl2 Hb2 Hm2 Ha2]. constructor; [done|..].
  - rewrite Hl2, Hl1, <- app_assoc. cbn [closing]. rewrite app_nil_r. do 2 f_equal.
    apply closing_ext. intros p Hp. rewrite Hb1 by lia. rewrite bool_decide_eq_false_2 by lia. by rewrite andb_true_r.
  - intros p Hp. rewrite Hb2, Hb1 by done. repeat case_bool_decide; try lia; by destruct (page_bit (bound_ports s1) p).
  - intros p Hp. rewrite Hm2, Hm1, Hb1 by done.
    repeat case_bool_decide; try lia; by destruct (page_bit (bound_ports s1) p), (page_bit (evtchn_mask s1) p).
  - intros p Hp. rewrite Ha2, Ha1, Hb1 by done.
    repeat case_bool_decide; try lia; by destruct (page_bit (bound_ports s1) p), (ev_actions s1 !! Z.to_nat p).
Qed.

Lemma unbind_ports_spec n k s :
  hv_frame -> ev_ok s -> 0 <= k -> k + Z.of_nat n <= NR_EVS -> exists s', unbind_ports n k s = Ok s' /\ closed k n s s'.
Proof.
  intros Hv. revert k s. induction n as [|n IH]; intros k s Hok Hk Hn.
  - exists s. split; [done|]. constructor; cbn [closing]; [done|by rewrite app_nil_r|..];
      intros p Hp; rewrite bool_decide_eq_false_2 by lia; by rewrite ?andb_true_r, ?andb_false_r, ?orb_false_r.
  - cbn [unbind_ports]. destruct (unbind_port_spec k s Hv Hok) as (s1 & -> & H1); [lia|]. cbn [mbind res_bind].
    destruct (IH (k + 1) s1) as (s2 & -> & H2); [apply H1|lia..|]. exists s2. split; [done|]. by eapply closed_trans.
Qed.

(** ** Properties *)

(** C20: A callback on a cpu whose selector names the first word calls the
    handler of every pending and unmasked port from 0 to 31, each once, in the
    order of the ports, clears exactly those ports, leaves every other pending
    port pending and every mask bit as it was, and returns with the selector and
    the upcall flag clear and the nesting and preemption counts restored. *)
Theorem callback_delivers cpu s um pe fuel :
  quiet -> ev_ok s -> 0 <= cpu -> vcpu s !! Z.to_nat cpu = Some (Vcpu pe um 1) ->
  upcall_count s !! Z.to_nat cpu = Some 0 -> (34 <= fuel)%nat ->
  exists s', do_hypervisor_callback fuel cpu s = Ok s' /\ ev_ok s' /\
    ev_log s' = ev_log s ++ due cpu s 0 32 /\ handled 32 s s' /\
    vcpu s' = <[Z.to_nat cpu := Vcpu 0 um 0]> (vcpu s) /\
    upcall_count s' = upcall_count s /\ irq_count s' = irq_count s /\ bound_ports s' = bound_ports s.
Proof.
  intros Hq Hok Hc Hv Hu Hf. destruct fuel as [|fuel]; [lia|]. cbn [do_hypervisor_callback].
  rewrite Hv. cbn [access mbind res_bind evtchn_upcall_mask evtchn_pending_sel upcall_count set_vcpu].
  pose proof (lookup_lt_Some _ _ _ Hu). pose proof (lookup_lt_Some _ _ _ Hv).
  rewrite (proj2 (rd_ok _ cpu 0)) by done. cbn [mbind res_bind]. rewrite wr_in by lia. cbn [mbind res_bind vcpu set_vcpu set_upcall negb Z.eqb].
  rewrite list_lookup_insert_eq by done. cbn [access mbind res_bind evtchn_upcall_mask evtchn_upcall_pending evtchn_pending_sel].
  rewrite list_insert_insert_eq. set (s0 := set_vcpu _ _).
  change (wrap32 1) with 1. change (sgn32 (0 + 1)) with 1 in *.
  assert (ev_ok s0) as Hok0 by (constructor; apply Hok).
  cbn [event_selector]. change (1 =? 0) with false. change (__ffs 1) with 0. cbn iota.
  destruct (event_word_spec cpu s0 32 0 (S fuel)) as (s1 & -> & Hfr & Hlog & Hh); [done|done|lia|lia|intros; lia|lia|].
  cbn [mbind res_bind]. change (Z.land 1 (wrap32 (Z.lnot (Z.shiftl 1 0)))) with 0.
  destruct fuel as [|fuel]; [lia|]. cbn [event_selector Z.eqb mbind res_bind].
  assert (upcall_count s1 = <[Z.to_nat cpu := 1]> (upcall_count s)) as Hu1 by apply Hfr.
  rewrite Hu1, (proj2 (rd_ok _ cpu 1)) by (split; [lia|by apply list_lookup_insert_eq]).
  rewrite wr_in by (rewrite length_insert; lia). cbn [mbind res_bind Z.eqb Pos.eqb].
  rewrite list_insert_insert_eq, list_insert_id by done.
  eexists. split; [done|]. splits; [|done|done|exact (fr_vcpu _ _ Hfr)|done|apply Hfr..].
  destruct (fr_ok _ _ Hfr Hok0). by constructor.
Qed.

(** A pending and unmasked port in the low half of a word other than the
    first, [64 <= p], stops the cpu: the selector loop of the callback never
    returns, whatever number of iterations it is given, because the port it
    computes is not the port that is pending. *)
Lemma callback_second_word_diverges cpu s um pe i p fuel :
  quiet -> ev_ok s -> 0 <= cpu -> vcpu s !! Z.to_nat cpu = Some (Vcpu pe um (2 ^ i)) ->
  upcall_count s !! Z.to_nat cpu = Some 0 -> 1 <= i < 32 -> 64 * i <= p < 64 * i + 32 -> active s p = true ->
  do_hypervisor_callback fuel cpu s = Fuel.
Proof.
  intros Hq Hok Hc Hv Hu Hi Hp Ha. destruct fuel as [|fuel]; [done|]. cbn [do_hypervisor_callback].
  rewrite Hv. cbn [access mbind res_bind evtchn_upcall_mask evtchn_pending_sel upcall_count set_vcpu].
  pose proof (lookup_lt_Some _ _ _ Hu). pose proof (lookup_lt_Some _ _ _ Hv).
  rewrite (proj2 (rd_ok _ cpu 0)) by done. cbn [mbind res_bind]. rewrite wr_in by lia. cbn [mbind res_bind vcpu set_vcpu set_upcall negb Z.eqb].
  rewrite list_lookup_insert_eq by done. cbn [access mbind res_bind evtchn_upcall_mask evtchn_upcall_pending evtchn_pending_sel].
  set (s0 := set_vcpu _ _). assert (ev_ok s0) as Hok0 by (constructor; apply Hok).
  pose proof (Z.pow_lt_mono_r 2 i 32). pose proof (Z.pow_pos_nonneg 2 i). rewrite (wrap_small 32 (2 ^ i)) by lia.
  cbn [event_selector]. destruct (Z.eqb_spec (2 ^ i) 0) as [|_]; [lia|].
  rewrite (ffs_spec (2 ^ i) i) by (first [lia|by apply Z.pow2_bits_true; lia|intros; apply Z.pow2_bits_false; lia]).
  by rewrite (event_word_stuck cpu i (S fuel) s0 p).
Qed.

(** Suspending closes exactly the ports in [bound_ports], in the order of
    the ports, masks each of them and gives it back the default handler; the
    other ports keep their handler, data and mask, and no port stays bound. *)
Lemma suspend_unbinds s :
  hv_frame -> ev_ok s ->
  exists s', evtchn_suspend s = Ok s' /\ closed 0 (Z.to_nat NR_EVS) s s'.
Proof. intros Hv Hok. apply unbind_ports_spec; [done|done|done|unfold NR_EVS; lia]. Qed.

(** Unmasking a port touches neither the actions nor [bound_ports]. *)
Lemma unmask_keeps cpu port s s' :
  hv_frame -> unmask_evtchn cpu port s = Ok s' -> bound_ports s' = bound_ports s /\ ev_actions s' = ev_actions s.
Proof.
  intros Hv. unfold unmask_evtchn. destruct (clear_map _ _) as [m| |]; [|done..]. cbn [mbind res_bind].
  destruct (allocated_in_map _ _) as [[]| |]; [| |done..]; cbn [mbind res_bind]; [|by intros [= <-]].
  destruct (access _) as [v| |]; [|done..]. cbn [mbind res_bind]. destruct (allocated_in_map _ _) as [was| |]; [|done..].
  cbn [mbind res_bind]. destruct (set_map _ _) as [sel| |]; [|done..]. cbn [mbind res_bind].
  destruct (rd _ _) as [sel0| |]; [|done..]. cbn [mbind res_bind]. destruct was; cbn [negb]; [by intros [= <-]|].
  destruct (_ =? 0); [|by intros [= <-]]. unfold force_evtchn_callback, event_channel_op.
  match goal with |- context [hypercall ?o ?x] => destruct (Hv o x) as (err & pt & pe & w & -> & _ & _) end. by intros [= <-].
Qed.

(** A port allocated for a remote domain is not recorded: its handler is
    installed, and suspending leaves both in place. *)
Lemma alloc_unbound_unrecorded this_cpu pal h cpu data s r port s' :
  hv_frame -> evtchn_alloc_unbound this_cpu pal h cpu data s = Ok (r, Some port, s') ->
  bound_ports s' = bound_ports s /\ ev_actions s' = <[Z.to_nat port := EvAction cpu h data 0]> (ev_actions s).
Proof.
  intros Hv. unfold evtchn_alloc_unbound, event_channel_op.
  match goal with |- context [hypercall ?o ?x] => destruct (Hv o x) as (err & pt & pe & w & -> & _ & _) end.
  destruct (negb _); [done|]. unfold bind_evtchn. destruct (access _); [|done..]. cbn [mbind res_bind].
  destruct (unmask_evtchn _ _ _) as [s1| |] eqn:Hun; [|done..]. intros [= <- <- <-].
  by apply unmask_keeps in Hun.
Qed.
End Spec.

(** ** Witnesses *)

(** A guest whose handlers count their calls in the rest of the system, on a Xen
    that closes ports silently. *)
Global Instance demo_env : EventEnv Z := {
  run_handler _ _ _ s := Ok (set_world (ev_world s + 1) s);
  hypercall _ s := (0, 0, s)
}.

Lemma demo_handlers_quiet : quiet (W := Z).
Proof. intros f port data s. by eexists. Qed.

Lemma demo_hv_frame : hv_frame (W := Z).
Proof.
  intros o s. exists 0, 0, (evtchn_pending s), (ev_world s). splits; [by destruct s|done|done].
Qed.

(** Port 3 is for any cpu, port 7 for cpu 1, port 20 has the default handler. *)
Definition demo_events (pending sel : Z) : evst Z :=
  Ev (<[7%nat := EvAction 1 (H_fn 2) 0 0]> (<[3%nat := EvAction ANY_CPU (H_fn 1) 5 0]>
       (replicate (Z.to_nat NR_EVS) (EvAction ANY_CPU default_handler 0 0))))
     (<[0%nat := 136]> (replicate 16 0)) [0] (<[0%nat := pending]> (<[1%nat := pending]> (replicate 64 0))) (replicate 64 0)
     [Vcpu 1 1 sel] [0] 0 [] 0.

Lemma demo_events_ok pending sel : 0 <= pending < 2 ^ 64 -> ev_ok (demo_events pending sel).
Proof.
  intros Hp. constructor; cbn [demo_events ev_actions bound_ports evtchn_pending evtchn_mask irq_count].
  - by rewrite !length_insert, length_replicate.
  - split; [done|]. apply words_ok_insert; [|lia]. apply Forall_replicate. lia.
  - split; [done|]. do 2 (apply words_ok_insert; [|done]). apply Forall_replicate. lia.
  - split; [done|]. apply Forall_replicate. lia.
  - done.
Qed.

Lemma callback_delivers_witness :
  exists s', do_hypervisor_callback 34 0 (demo_events (2 ^ 3 + 2 ^ 7 + 2 ^ 20) 1) = Ok s' /\
    ev_log s' = [N_call (H_fn 1) 3 5; N_call default_handler 20 0] /\ page_bit (evtchn_pending s') 7 = false.
Proof.
  destruct (callback_delivers 0 (demo_events (2 ^ 3 + 2 ^ 7 + 2 ^ 20) 1) 1 1 34) as (s' & Hr & _ & Hl & [Hp _] & _);
    [apply demo_handlers_quiet|by apply demo_events_ok|done|done|done|lia|].
  exists s'. splits; [done|rewrite Hl; by vm_compute|]. rewrite Hp by done. by vm_compute.
Defined.

Lemma callback_second_word_diverges_witness :
  do_hypervisor_callback 1000 0 (demo_events (2 ^ 3) 2) = Fuel.
Proof.
  apply (callback_second_word_diverges 0 (demo_events (2 ^ 3) 2) 1 1 1 67 1000);
    [apply demo_handlers_quiet|by apply demo_events_ok|done|done|done|lia|lia|by vm_compute].
Defined.

Lemma suspend_unbinds_witness :
  exists s', evtchn_suspend (demo_events 0 0) = Ok s' /\
    ev_log s' = [N_op (EVTCHNOP_close 3); N_op (EVTCHNOP_close 7)] /\
    ev_actions s' !! 3%nat = Some (EvAction ANY_CPU default_handler 0 0).
Proof.
  destruct (suspend_unbinds (demo_events 0 0) demo_hv_frame) as (s' & Hr & Hc); [by apply demo_events_ok|].
  exists s'. splits; [done|rewrite (cl_log _ _ _ _ Hc); by vm_compute|].
  change 3%nat with (Z.to_nat 3). rewrite (cl_actions _ _ _ _ Hc 3) by done. by vm_compute.
Defined.
