(* ===== verification/ArchMM.v ===== *)
(** Page tables: arch/x86/mm.c, with the translation macros of
    include/x86/arch_mm.h for x86_64.

    Machine memory is a function from a frame number and an index of a 64-bit
    entry; the guest reads its page tables through the 1-1 mapping, so an access at
    a virtual address is an access to the machine frame of its page.  The
    hypercalls are parameters: Xen accepts or refuses them. *)
From S2P Require Import Prelude Bitmap Xmalloc.
From stdpp Require Import options.

(** ** arch_mm.h *)

Definition L1_FRAME : Z := 1.
Definition L2_FRAME : Z := 2.
Definition L3_FRAME : Z := 3.
Definition L1_PAGETABLE_SHIFT : Z := 12.
Definition L2_PAGETABLE_SHIFT : Z := 21.
Definition L3_PAGETABLE_SHIFT : Z := 30.
Definition L4_PAGETABLE_SHIFT : Z := 39.
Definition L1_PAGETABLE_ENTRIES : Z := 512.
Definition NOT_L1_FRAMES : Z := 3.
Definition PADDR_MASK : Z := Z.ones 52.
Definition PAGE_SHIFT : Z := 12.
Definition PAGE_BYTES : Z := 4096.
Definition PAGE_MASK : Z := wrap64 (- PAGE_BYTES).
Definition _PAGE_PRESENT : Z := 1.
Definition _PAGE_RW : Z := 2.
Definition _PAGE_USER : Z := 4.
Definition _PAGE_ACCESSED : Z := 32.
Definition _PAGE_DIRTY : Z := 64.
Definition _PAGE_PSE : Z := 128.
Definition L1_PROT : Z := Z.lor (Z.lor (Z.lor _PAGE_PRESENT _PAGE_RW) _PAGE_ACCESSED) _PAGE_USER.
Definition L2_PROT : Z := Z.lor (Z.lor (Z.lor (Z.lor _PAGE_PRESENT _PAGE_RW) _PAGE_ACCESSED) _PAGE_DIRTY) _PAGE_USER.
Definition L3_PROT : Z := L2_PROT.
Definition L4_PROT : Z := L2_PROT.

(** [lN_table_offset(a)] *)
Definition l1_table_offset (a : Z) : Z := Z.land (Z.shiftr a L1_PAGETABLE_SHIFT) (L1_PAGETABLE_ENTRIES - 1).
Definition l2_table_offset (a : Z) : Z := Z.land (Z.shiftr a L2_PAGETABLE_SHIFT) (L1_PAGETABLE_ENTRIES - 1).
Definition l3_table_offset (a : Z) : Z := Z.land (Z.shiftr a L3_PAGETABLE_SHIFT) (L1_PAGETABLE_ENTRIES - 1).
Definition l4_table_offset (a : Z) : Z := Z.land (Z.shiftr a L4_PAGETABLE_SHIFT) (L1_PAGETABLE_ENTRIES - 1).

Definition PFN_UP (x : Z) : Z := Z.shiftr (wrap64 (x + PAGE_BYTES - 1)) L1_PAGETABLE_SHIFT.
Definition PFN_DOWN (x : Z) : Z := Z.shiftr x L1_PAGETABLE_SHIFT.
Definition PAGE_ALIGN (a : Z) : Z := Z.land (wrap64 (a + PAGE_BYTES - 1)) PAGE_MASK.
Definition pte_to_mfn (pte : Z) : Z := Z.shiftr (Z.land pte (Z.land PADDR_MASK PAGE_MASK)) L1_PAGETABLE_SHIFT.
Definition present (pte : Z) : bool := negb (Z.land pte _PAGE_PRESENT =? 0).

(** ** The state *)

(** Entries of a multicall and the hypercalls made so far. *)
Record mc_entry := Mc { mc_op : Z; mc_args : list Z }.

Inductive mm_op :=
| M_multicall (l : list mc_entry)
| M_update_va_mapping (va val flags : Z).

Record mmst {M : Type} := Mmst {
  p2m : list Z;                     (** [phys_to_machine_mapping] *)
  frames : Z -> Z -> Z;             (** machine memory, by frame and entry *)
  pool : M;                         (** the page allocator of mm.c *)
  mm_log : list mm_op
}.
Arguments mmst : clear implicits.
Arguments Mmst {M}.

(** [pfn_alloc_env_t]: which allocator, and its [pfn]. *)
Inductive pfn_alloc_fn := guk_pfn_linear_alloc | guk_pfn_alloc_alloc.
Record pfn_alloc_env := Env { pfn_alloc : pfn_alloc_fn; env_pfn : Z }.

(** What the linker, the domain builder and Xen provide. *)
Class Machine (M : Type) := {
  VIRT_START : Z;                               (** the address of [_text] *)
  pt_base : Z;                                  (** [start_info.pt_base] *)
  nr_pt_frames : Z;                             (** [start_info.nr_pt_frames] *)
  nr_pages : Z;                                 (** [start_info.nr_pages] *)
  machine_to_phys_mapping : Z -> Z;
  UVMF_ALL_INVLPG : Z;                          (** [UVMF_ALL | UVMF_INVLPG] *)
  __HYPERVISOR_update_va_mapping : Z;
  (** the calls return [None] where Xen returns an error *)
  HYPERVISOR_mmu_update : list (Z * Z) -> mmst M -> option (mmst M);
  HYPERVISOR_pin_table : Z -> Z -> mmst M -> option (mmst M);     (** level, frame *)
  HYPERVISOR_multicall : list mc_entry -> mmst M -> option (mmst M);
  HYPERVISOR_update_va_mapping : Z -> Z -> Z -> mmst M -> Z * mmst M
}.

Section Code.
Context {M : Type} `{!PageSource M} `{!Machine M}.
Implicit Types s : mmst M.

Definition set_frames (f : Z -> Z -> Z) s : mmst M := Mmst (p2m s) f (pool s) (mm_log s).
Definition set_pool (m : M) s : mmst M := Mmst (p2m s) (frames s) m (mm_log s).
Definition mm_tell (o : mm_op) s : mmst M := Mmst (p2m s) (frames s) (pool s) (mm_log s ++ [o]).

Definition pfn_to_mfn (pfn : Z) s : res Z := rd (p2m s) pfn.
Definition mfn_to_pfn (mfn : Z) : Z := machine_to_phys_mapping mfn.
Definition virt_to_pfn (va : Z) : Z := PFN_DOWN (wrap64 (va - VIRT_START)).
Definition pfn_to_virt (pfn : Z) : Z := wrap64 (wrap64 (Z.shiftl pfn PAGE_SHIFT) + VIRT_START).

(** [tab[off]] for a table at the virtual address [tab]. *)
Definition tab_entry (tab off : Z) s : res Z :=
  let va := wrap64 (tab + 8 * off) in
  mfn ← pfn_to_mfn (virt_to_pfn va) s;
  Ok (frames s mfn (Z.shiftr (Z.land (wrap64 (va - VIRT_START)) (PAGE_BYTES - 1)) 3)).

(** [pte_to_virt(pte)] *)
Definition pte_to_virt (pte : Z) : Z := pfn_to_virt (mfn_to_pfn (pte_to_mfn pte)).

(** [memset(p, 0, PAGE_SIZE)] on the page [p]. *)
Definition clear_page (p : Z) s : res (mmst M) :=
  mfn ← pfn_to_mfn (virt_to_pfn p) s;
  Ok (set_frames (fun m o => if m =? mfn then 0 else frames s m o) s).

(** ** mm.c *)

(** [env->pfn_alloc(env, addr)], a [long]. *)
Definition run_pfn_alloc (e : pfn_alloc_env) s : res (Z * pfn_alloc_env * mmst M) :=
  match pfn_alloc e with
  | guk_pfn_linear_alloc =>
      mfn ← pfn_to_mfn (env_pfn e) s;
      Ok (sgn 64 mfn, Env (pfn_alloc e) (wrap64 (env_pfn e + 1)), s)
  | guk_pfn_alloc_alloc =>
      '(va, m) ← guk_allocate_pages 1 (pool s);
      let s := set_pool m s in
      if va =? 0 then Ok (-1, e, s) else
      mfn ← pfn_to_mfn (virt_to_pfn va) s;
      Ok (sgn 64 mfn, e, s)
  end.

(** A hypercall whose failure is a [crash_exit]. *)
Definition must {A} (o : option A) : res A := match o with Some a => Ok a | None => Bug CRASH_EXIT end.

(** The protections of a frame of the level: of its own mapping and of the entry
    that points to it. *)
Definition level_prots (level : Z) : res (Z * Z) :=
  if level =? L1_FRAME then Ok (L1_PROT, L2_PROT)
  else if level =? L2_FRAME then Ok (L2_PROT, L3_PROT)
  else if level =? L3_FRAME then Ok (L3_PROT, L4_PROT)
  else Bug CRASH_EXIT.

Definition new_pt_frame (pt_mfn_for_pfn prev_l_mfn offset level : Z) s : res (mmst M) :=
  let pt_pfn := mfn_to_pfn pt_mfn_for_pfn in
  let pt_page := pfn_to_virt pt_pfn in
  s ← clear_page (pfn_to_virt pt_pfn) s;
  '(prot_e, prot_t) ← level_prots level;
  e4 ← tab_entry pt_base (l4_table_offset pt_page) s;
  e3 ← tab_entry (pte_to_virt e4) (l3_table_offset pt_page) s;
  e2 ← tab_entry (pte_to_virt e3) (l2_table_offset pt_page) s;
  mfn ← pfn_to_mfn pt_pfn s;
  s ← must (HYPERVISOR_mmu_update
    [(wrap64 (Z.land e2 PAGE_MASK + 8 * l1_table_offset pt_page),
      Z.lor (wrap64 (Z.shiftl mfn PAGE_SHIFT)) (Z.land prot_e (wrap64 (Z.lnot _PAGE_RW))))] s);
  mfn ← pfn_to_mfn pt_pfn s;
  s ← must (HYPERVISOR_pin_table level mfn s);
  mfn ← pfn_to_mfn pt_pfn s;
  must (HYPERVISOR_mmu_update
    [(wrap64 (wrap64 (Z.shiftl prev_l_mfn PAGE_SHIFT) + 8 * offset),
      Z.lor (wrap64 (Z.shiftl mfn PAGE_SHIFT)) prot_t)] s).

(** One level of [build_pagetable_vs]: a new frame of level [level] where the
    entry at [offset] is not present, then [page = tab[offset]; mfn =
    pte_to_mfn(page);].  [None] is [return 0]. *)
Definition descend (level tab mfn offset : Z) (npf : pfn_alloc_env) s
  : res (option Z * pfn_alloc_env * mmst M) :=
  e ← tab_entry tab offset s;
  '(ok, npf, s) ← (if present e then Ok (true, npf, s) else
    '(npf_pfn, npf, s) ← run_pfn_alloc npf s;
    if npf_pfn <? 0 then Ok (false, npf, s) else
    s ← new_pt_frame npf_pfn mfn offset level s;
    Ok (true, npf, s));
  if ok : bool then
    page ← tab_entry tab offset s;
    Ok (Some (pte_to_mfn page), npf, s)
  else Ok (None, npf, s).

(** [to_virt(mfn_to_pfn(mfn) << PAGE_SHIFT)] *)
Definition table_at (mfn : Z) : Z := pfn_to_virt (mfn_to_pfn mfn).

(** The tables of one iteration: the frame and the offset of the entry to write. *)
Definition locate (start_address page_size : Z) (npf : pfn_alloc_env) s
  : res (option (Z * Z) * pfn_alloc_env * mmst M) :=
  mfn ← pfn_to_mfn (virt_to_pfn pt_base) s;
  '(o, npf, s) ← descend L3_FRAME pt_base mfn (l4_table_offset start_address) npf s;
  match o with
  | None => Ok (None, npf, s)
  | Some mfn =>
      '(o, npf, s) ← descend L2_FRAME (table_at mfn) mfn (l3_table_offset start_address) npf s;
      match o with
      | None => Ok (None, npf, s)
      | Some mfn =>
          if page_size =? PAGE_BYTES then
            '(o, npf, s) ← descend L1_FRAME (table_at mfn) mfn (l2_table_offset start_address) npf s;
            match o with
            | None => Ok (None, npf, s)
            | Some mfn => Ok (Some (mfn, l1_table_offset start_address), npf, s)
            end
          else Ok (Some (mfn, l2_table_offset start_address), npf, s)
      end
  end.

(** The loop of [build_pagetable_vs]; [ups] is the array [mmu_updates] up to
    [count]. *)
Fixpoint build_loop (fuel : nat) (start_address end_address page_size : Z) (ups : list (Z * Z))
    (env npf : pfn_alloc_env) s : res (Z * pfn_alloc_env * pfn_alloc_env * mmst M) :=
  match fuel with
  | O => Fuel
  | S fuel =>
      if start_address <? end_address then
        '(o, npf, s) ← locate start_address page_size npf s;
        match o with
        | None => Ok (0, env, npf, s)
        | Some (mfn, offset) =>
            '(mfn_for_pfn, env, s) ← run_pfn_alloc env s;
            if mfn_for_pfn <? 0 then Ok (0, env, npf, s) else
            let ups := if 0 <? mfn_for_pfn then
                ups ++ [(wrap64 (wrap64 (Z.shiftl mfn PAGE_SHIFT) + 8 * offset),
                  if page_size =? PAGE_BYTES
                  then Z.lor (wrap64 (Z.shiftl mfn_for_pfn L1_PAGETABLE_SHIFT)) L1_PROT
                  else Z.lor (Z.lor (wrap64 (Z.shiftl mfn_for_pfn L2_PAGETABLE_SHIFT)) L1_PROT) _PAGE_PSE)]
              else ups in
            let start_address := wrap64 (start_address + page_size) in
            if (Z.of_nat (length ups) =? L1_PAGETABLE_ENTRIES) || (start_address =? end_address) then
              s ← must (HYPERVISOR_mmu_update ups s);
              build_loop fuel start_address end_address page_size [] env npf s
            else build_loop fuel start_address end_address page_size ups env npf s
        end
      else Ok (1, env, npf, s)
  end.

Definition build_pagetable_vs (fuel : nat) (start_address end_address page_size : Z) (env npf : pfn_alloc_env) s :=
  build_loop fuel start_address end_address page_size [] env npf s.

Definition guk_build_pagetable (fuel : nat) (start_address end_address : Z) (env npf : pfn_alloc_env) s :=
  build_pagetable_vs fuel start_address end_address PAGE_BYTES env npf s.

Definition guk_build_pagetable_2mb (fuel : nat) (start_address end_address : Z) (env npf : pfn_alloc_env) s :=
  build_pagetable_vs fuel start_address end_address (PAGE_BYTES * 512) env npf s.

(** [guk_not11_virt_to_pfn]: the frame number and the entry, or -1 and the
    variable of the caller unwritten. *)
Fixpoint not11_loop (level : nat) (addr tab pfn pte : Z) s : res (Z * option Z) :=
  match level with
  | O => Ok (pfn, Some pte)
  | S level' =>
      let offset :=
        if (level =? 4)%nat then l4_table_offset addr else if (level =? 3)%nat then l3_table_offset addr
        else if (level =? 2)%nat then l2_table_offset addr else l1_table_offset addr in
      pte ← tab_entry tab offset s;
      if (1 <? level)%nat && negb (present pte) then Ok (-1, None) else
      let pfn := mfn_to_pfn (pte_to_mfn pte) in
      not11_loop level' addr (pfn_to_virt pfn) pfn pte s
  end.

Definition guk_not11_virt_to_pfn (addr : Z) s : res (Z * option Z) := not11_loop 4 addr pt_base 0 0 s.

Definition guk_validate (addr : Z) s : res Z :=
  '(r, pte) ← guk_not11_virt_to_pfn addr s;
  if 0 <? r then pte ← access pte; Ok (if present pte then 1 else 0) else Ok 0.

(** The loop of [demolish_pagetable_vs] and of [write_protect_vs]: [call] is the
    array of 1024 entries, [args] the arguments for a page. *)
Fixpoint multicall_loop (fuel : nat) (args : Z -> mmst M -> res (list Z)) (call : list mc_entry) (i : Z)
    (start_address end_address page_size : Z) s : res (mmst M) :=
  match fuel with
  | O => Fuel
  | S fuel =>
      if start_address <? end_address then
        a ← args start_address s;
        _ ← access (call !! Z.to_nat i);
        let call := <[Z.to_nat i := Mc __HYPERVISOR_update_va_mapping a]> call in
        let start_address := wrap64 (start_address + page_size) in
        if (i =? 1023) || (start_address =? end_address) then
          s ← must (HYPERVISOR_multicall (take (Z.to_nat i) call) s);
          multicall_loop fuel args call (0 + 1) start_address end_address page_size s
        else multicall_loop fuel args call (i + 1) start_address end_address page_size s
      else Ok s
  end.

(** [call0] is what the stack held where the array lies. *)
Definition demolish_pagetable_vs (fuel : nat) (call0 : list mc_entry) (start_address end_address page_size : Z) s :=
  multicall_loop fuel (fun va _ => Ok [va; 0; UVMF_ALL_INVLPG]) call0 0 start_address end_address page_size s.

Definition guk_demolish_pagetable (fuel : nat) (call0 : list mc_entry) (start_address end_address : Z) s :=
  demolish_pagetable_vs fuel call0 start_address end_address PAGE_BYTES s.

Definition guk_demolish_pagetable_2mb (fuel : nat) (call0 : list mc_entry) (start_address end_address : Z) s :=
  demolish_pagetable_vs fuel call0 start_address end_address (PAGE_BYTES * 512) s.

Definition write_protect_args (va : Z) s : res (list Z) :=
  '(_, pte) ← guk_not11_virt_to_pfn va s;
  pte ← access pte;
  Ok [va; Z.land pte (wrap64 (Z.lnot _PAGE_RW)); 0].

Definition write_protect_vs (fuel : nat) (call0 : list mc_entry) (start_address end_address page_size : Z) s :=
  multicall_loop fuel write_protect_args call0 0 start_address end_address page_size s.

Definition guk_write_protect (fuel : nat) (call0 : list mc_entry) (start_address end_address : Z) s :=
  write_protect_vs fuel call0 start_address end_address PAGE_BYTES s.

Definition guk_write_protect_2mb (fuel : nat) (call0 : list mc_entry) (start_address end_address : Z) s :=
  write_protect_vs fuel call0 start_address end_address (PAGE_BYTES * 512) s.

(** [arch_init_mm(&free_pfn, &max_pfn)]: the two values it returns. *)
Definition arch_init_mm (fuel : nat) s : res (Z * Z * mmst M) :=
  let free_pfn := wrap64 (PFN_UP (wrap64 (pt_base - VIRT_START)) + nr_pt_frames + 3) in
  let max_pfn := nr_pages in
  let start_pfn := wrap64 ((nr_pt_frames - NOT_L1_FRAMES) * L1_PAGETABLE_ENTRIES) in
  '(_, _, npf, s) ← guk_build_pagetable fuel (pfn_to_virt start_pfn) (pfn_to_virt max_pfn)
    (Env guk_pfn_linear_alloc start_pfn) (Env guk_pfn_linear_alloc free_pfn) s;
  Ok (env_pfn npf, max_pfn, s).

Definition guk_unmap_page_pfn (addr pfn : Z) s : res (Z * mmst M) :=
  mfn ← pfn_to_mfn pfn s;
  Ok (HYPERVISOR_update_va_mapping (PAGE_ALIGN addr) (wrap64 (Z.shiftl mfn PAGE_SHIFT)) UVMF_ALL_INVLPG s).

Definition guk_unmap_page (addr : Z) s : res (Z * mmst M) := guk_unmap_page_pfn addr (virt_to_pfn addr) s.

Definition guk_clear_pte (addr : Z) s : Z * mmst M :=
  HYPERVISOR_update_va_mapping (PAGE_ALIGN addr) 0 UVMF_ALL_INVLPG s.

Definition guk_remap_page_pfn (addr pfn : Z) s : res (Z * mmst M) :=
  mfn ← pfn_to_mfn pfn s;
  Ok (HYPERVISOR_update_va_mapping (PAGE_ALIGN addr) (Z.lor (wrap64 (Z.shiftl mfn PAGE_SHIFT)) L1_PROT) UVMF_ALL_INVLPG s).

Definition guk_remap_page (addr : Z) s : res (Z * mmst M) := guk_remap_page_pfn addr (virt_to_pfn addr) s.
End Code.
