(* ===== verification/PageTables.v ===== *)
(** Building page tables: the refinement of a walk of the tables by a translation
    function, and the proof that [guk_build_pagetable] maps the pages of its range
    in order and keeps every other translation. *)
From S2P Require Import Prelude Bitmap Xmalloc ArchMM.
From stdpp Require Import options.

(** ** Arithmetic of addresses and entries *)

Lemma land_511 x : Z.land x 511 = x mod 512.
Proof. change 511 with (Z.ones 9). by rewrite Z.land_ones. Qed.

Lemma land_4095 x : Z.land x 4095 = x mod 4096.
Proof. change 4095 with (Z.ones 12). by rewrite Z.land_ones. Qed.

(** A table index and the indices above it make the address prefix. *)
Lemma prefix_step va k : 0 <= k -> Z.shiftr va (k + 9) * 512 + Z.land (Z.shiftr va k) 511 = Z.shiftr va k.
Proof.
  intros Hk. rewrite land_511, <- Z.shiftr_shiftr, (Z.shiftr_div_pow2 _ 9) by lia. change (2 ^ 9) with 512.
  pose proof (Z.div_mod (Z.shiftr va k) 512). lia.
Qed.

Lemma offset_range x : 0 <= Z.land x 511 < 512.
Proof. rewrite land_511. apply Z.mod_pos_bound. lia. Qed.

(** An entry made of a frame number and flags below the page size. *)
Lemma entry_lor m prot : 0 <= m < 2 ^ 40 -> 0 <= prot < 4096 -> Z.lor (wrap64 (Z.shiftl m 12)) prot = m * 4096 + prot.
Proof.
  intros Hm Hp. rewrite Z.shiftl_mul_pow2, wrap_small by lia. change (2 ^ 12) with 4096.
  rewrite <- Z.add_lor_land. enough (Z.land (m * 4096) prot = 0) by lia. apply Z.bits_inj'. intros i Hi.
  rewrite Z.land_spec, Z.testbit_0_l. change 4096 with (2 ^ 12). destruct (decide (i < 12)).
  - by rewrite Z.mul_pow2_bits_low by lia.
  - rewrite <- (Z.mod_small prot (2 ^ 12)), (Z.mod_pow2_bits_high prot) by lia. by rewrite andb_false_r.
Qed.

Lemma mask_eq : Z.land PADDR_MASK PAGE_MASK = Z.shiftl (Z.ones 40) 12.
Proof. by vm_compute. Qed.

Lemma pte_to_mfn_eq e : pte_to_mfn e = (e / 4096) mod 2 ^ 40.
Proof.
  unfold pte_to_mfn. rewrite mask_eq. change L1_PAGETABLE_SHIFT with 12.
  rewrite Z.shiftr_land, Z.shiftr_shiftl_l by lia. change (12 - 12) with 0. rewrite Z.shiftl_0_r, Z.land_ones by lia.
  by rewrite Z.shiftr_div_pow2.
Qed.

Lemma pte_to_mfn_entry m prot : 0 <= m < 2 ^ 40 -> 0 <= prot < 4096 -> pte_to_mfn (m * 4096 + prot) = m.
Proof. intros Hm Hp. rewrite pte_to_mfn_eq, Z.div_add_l, (Z.div_small prot), Z.add_0_r by lia. by apply Z.mod_small. Qed.

Lemma present_odd e : present e = Z.odd e.
Proof.
  unfold present, _PAGE_PRESENT. change 1 with (Z.ones 1) at 1. rewrite Z.land_ones, Zmod_odd by lia. by destruct (Z.odd e).
Qed.

Lemma present_entry m prot : present (m * 4096 + prot) = present prot.
Proof. rewrite !present_odd, Z.add_comm. replace (m * 4096) with (2 * (m * 2048)) by lia. apply Z.odd_add_mul_2. Qed.

(** The machine address of entry [o] of frame [m]. *)
Definition slot_ptr (m o : Z) : Z := m * 4096 + 8 * o.

Lemma slot_ptr_eq m o : 0 <= m < 2 ^ 40 -> 0 <= o < 512 -> wrap64 (wrap64 (Z.shiftl m 12) + 8 * o) = slot_ptr m o.
Proof.
  intros Hm Ho. rewrite Z.shiftl_mul_pow2, (wrap_small 64 (m * _)), wrap_small by (change (2 ^ 12) with 4096; lia). done.
Qed.

(** ** Xen's updates *)

(** [mmu_update]: the entry at the machine address [u.1] becomes [u.2]. *)
Definition apply_update (u : Z * Z) (f : Z -> Z -> Z) : Z -> Z -> Z := fun m o =>
  if (m =? Z.shiftr u.1 12) && (o =? Z.shiftr (Z.land u.1 4095) 3) then u.2 else f m o.

Fixpoint apply_updates (ups : list (Z * Z)) (f : Z -> Z -> Z) : Z -> Z -> Z :=
  match ups with
  | [] => f
  | u :: ups => apply_updates ups (apply_update u f)
  end.

Lemma apply_slot m o v f m' o' :
  0 <= m -> 0 <= o < 512 -> apply_update (slot_ptr m o, v) f m' o' = if bool_decide (m' = m /\ o' = o) then v else f m' o'.
Proof.
  intros Hm Ho. unfold apply_update, slot_ptr. cbn [fst snd]. rewrite land_4095, !Z.shiftr_div_pow2 by lia.
  change (2 ^ 12) with 4096. change (2 ^ 3) with 8.
  rewrite Z.div_add_l, (Z.div_small (8 * o)), Z.add_0_r by lia. rewrite (Z.add_comm (m * _)), Z.mod_add, Z.mod_small by lia.
  rewrite (Z.mul_comm 8 o), Z.div_mul by lia.
  destruct (Z.eqb_spec m' m), (Z.eqb_spec o' o); case_bool_decide; cbn; tauto.
Qed.

Lemma apply_updates_ext ups f g m o : f m o = g m o -> apply_updates ups f m o = apply_updates ups g m o.
Proof.
  revert f g. induction ups as [|u ups IH]; intros f g E; [done|]. cbn. apply IH. unfold apply_update. by rewrite E.
Qed.

Lemma apply_updates_snoc ups u f : apply_updates (ups ++ [u]) f = apply_update u (apply_updates ups f).
Proof. revert f. induction ups as [|v ups IH]; intros f; [done|]. cbn. apply IH. Qed.

Lemma apply_updates_other ups f m o :
  (forall u, u ∈ ups -> exists m' o', u.1 = slot_ptr m' o' /\ 0 <= m' /\ 0 <= o' < 512 /\ m' <> m) ->
  apply_updates ups f m o = f m o.
Proof.
  revert f. induction ups as [|[x v] ups IH]; intros f H; [done|]. cbn. rewrite IH by (intros; apply H; by right).
  destruct (H (x, v)) as (m' & o' & E & Hm & Ho & Hne); [by left|]. cbn in E. rewrite E, apply_slot by done.
  rewrite bool_decide_eq_false_2; [done|]. intros [? _]. congruence.
Qed.

Section Tables.
Context {M : Type} `{!PageSource M} `{!Machine M}.
Implicit Types s : mmst M.

(** Xen accepts every update and every pin request. *)
Definition update_law : Prop :=
  forall ups s, HYPERVISOR_mmu_update ups s = Some (set_frames (apply_updates ups (frames s)) s).
Definition pin_law : Prop := forall level mfn s, HYPERVISOR_pin_table level mfn s = Some s.

(** ** The tables *)

(** A machine frame that the guest owns and sees at its 1-1 address. *)
Record frame_ok s (m : Z) : Prop := FrameOk {
  fo_mfn : 0 <= m < 2 ^ 40;
  fo_pfn : 0 <= machine_to_phys_mapping m < 2 ^ 52;
  fo_p2m : rd (p2m s) (machine_to_phys_mapping m) = Ok m
}.

(** [T] gives the level and the address prefix of every page table frame; [root]
    is the frame of [pt_base]. *)
Record pt_ok (root : Z) (T : gmap Z (Z * Z)) s : Prop := PtOk {
  pt_root : T !! root = Some (4, 0);
  pt_base_ok : pt_base = table_at root;
  pt_frame : forall m l p, T !! m = Some (l, p) -> frame_ok s m;
  pt_child : forall m l p o, T !! m = Some (l, p) -> 1 < l -> 0 <= o < 512 -> present (frames s m o) = true ->
    frames s m o < 2 ^ 52 /\ 0 <= frames s m o /\ T !! pte_to_mfn (frames s m o) = Some (l - 1, p * 512 + o)
}.

(** One level of a walk, the L1 table of an address, its entry. *)
Definition step s (m o : Z) : option Z := if present (frames s m o) then Some (pte_to_mfn (frames s m o)) else None.

Definition l1_table (root : Z) s (va : Z) : option Z :=
  m ← step s root (l4_table_offset va); m ← step s m (l3_table_offset va); step s m (l2_table_offset va).

Definition translation (root : Z) s (va : Z) : option Z :=
  (fun m => frames s m (l1_table_offset va)) <$> l1_table root s va.

(** The page number of an address. *)
Definition vpn (va : Z) : Z := Z.shiftr va 12.

Lemma virt_of_table s m o :
  frame_ok s m -> 0 <= o < 512 ->
  wrap64 (wrap64 (table_at m + 8 * o) - VIRT_START) = machine_to_phys_mapping m * 4096 + 8 * o.
Proof.
  intros [Hm Hp _] Ho. unfold table_at, pfn_to_virt, mfn_to_pfn, PAGE_SHIFT. set (p := machine_to_phys_mapping m) in *.
  rewrite Z.shiftl_mul_pow2 by lia. change (2 ^ 12) with 4096. rewrite (wrap_small 64 (p * 4096)) by lia.
  unfold wrap. rewrite Zplus_mod_idemp_l, Zminus_mod_idemp_l.
  replace (p * 4096 + VIRT_START + 8 * o - VIRT_START) with (p * 4096 + 8 * o) by lia. apply Z.mod_small. lia.
Qed.

Lemma virt_of_page s m : frame_ok s m -> virt_to_pfn (table_at m) = machine_to_phys_mapping m.
Proof.
  intros Hm. pose proof (virt_of_table s m 0 Hm) as H. pose proof (fo_pfn _ _ Hm).
  replace (wrap64 (table_at m + 8 * 0)) with (table_at m) in H.
  2:{ rewrite Z.add_0_r. unfold table_at, pfn_to_virt, wrap. by rewrite Zmod_mod. }
  unfold virt_to_pfn, PFN_DOWN, L1_PAGETABLE_SHIFT. rewrite H by lia. rewrite Z.shiftr_div_pow2 by lia. change (2 ^ 12) with 4096.
  rewrite Z.div_add_l by lia. change (8 * 0 / 4096) with 0. lia.
Qed.

(** Reading a table through the 1-1 mapping reads its machine frame. *)
Lemma tab_entry_at s m o : frame_ok s m -> 0 <= o < 512 -> tab_entry (table_at m) o s = Ok (frames s m o).
Proof.
  intros Hm Ho. unfold tab_entry. unfold virt_to_pfn, PFN_DOWN, pfn_to_mfn.
  rewrite (virt_of_table s m o Hm Ho). set (p := machine_to_phys_mapping m).
  change (PAGE_BYTES - 1) with 4095. rewrite land_4095, !Z.shiftr_div_pow2 by done. change (2 ^ L1_PAGETABLE_SHIFT) with 4096. change (2 ^ 3) with 8.
  rewrite Z.div_add_l, (Z.div_small (8 * o)), Z.add_0_r by lia.
  rewrite (fo_p2m _ _ Hm : rd (p2m s) p = Ok m). cbn [mbind res_bind]. rewrite (Z.add_comm (p * _)), Z.mod_add, Z.mod_small by lia.
  by rewrite (Z.mul_comm 8 o), Z.div_mul by lia.
Qed.

(** ** Walks *)

Lemma step_table root T s m l p o m' :
  pt_ok root T s -> T !! m = Some (l, p) -> 1 < l -> 0 <= o < 512 -> step s m o = Some m' ->
  T !! m' = Some (l - 1, p * 512 + o).
Proof.
  intros Hok Hm Hl Ho. unfold step. destruct (present _) eqn:Hp; [|done]. intros [= <-].
  by apply (pt_child _ _ _ Hok).
Qed.

Lemma offsets va :
  0 <= l1_table_offset va < 512 /\ 0 <= l2_table_offset va < 512 /\ 0 <= l3_table_offset va < 512 /\ 0 <= l4_table_offset va < 512.
Proof. splits; apply offset_range. Qed.

(** The address prefixes that the walk of [va] goes through. *)
Lemma prefixes va :
  0 <= va < 2 ^ 48 ->
  0 * 512 + l4_table_offset va = Z.shiftr va 39 /\
  Z.shiftr va 39 * 512 + l3_table_offset va = Z.shiftr va 30 /\
  Z.shiftr va 30 * 512 + l2_table_offset va = Z.shiftr va 21 /\
  Z.shiftr va 21 * 512 + l1_table_offset va = vpn va.
Proof.
  intros Hva. splits; [|exact (prefix_step va 30 ltac:(lia))|exact (prefix_step va 21 ltac:(lia))|exact (prefix_step va 12 ltac:(lia))].
  unfold l4_table_offset. change (L1_PAGETABLE_ENTRIES - 1) with 511. change L4_PAGETABLE_SHIFT with 39.
  rewrite land_511, Z.mod_small; [lia|]. rewrite Z.shiftr_div_pow2 by lia. split; [apply Z.div_pos; lia|]. apply Z.div_lt_upper_bound; lia.
Qed.

Lemma l1_table_prefix root T s va m :
  pt_ok root T s -> 0 <= va < 2 ^ 48 -> l1_table root s va = Some m -> T !! m = Some (1, Z.shiftr va 21).
Proof.
  intros Hok Hva. destruct (offsets va) as (O1 & O2 & O3 & O4), (prefixes va Hva) as (P4 & P3 & P2 & _). unfold l1_table.
  destruct (step s root _) as [m3|] eqn:S4; [|done]. cbn [mbind option_bind].
  destruct (step s m3 _) as [m2|] eqn:S3; [|done]. cbn [mbind option_bind]. intros S2.
  pose proof (step_table _ _ _ _ _ _ _ _ Hok (pt_root _ _ _ Hok) ltac:(lia) O4 S4) as H3. rewrite P4 in H3.
  pose proof (step_table _ _ _ _ _ _ _ _ Hok H3 ltac:(lia) O3 S3) as H2. rewrite P3 in H2.
  pose proof (step_table _ _ _ _ _ _ _ _ Hok H2 ltac:(lia) O2 S2) as H1. by rewrite P2 in H1.
Qed.

(** [guk_not11_virt_to_pfn] is the walk. *)
Lemma not11_spec root T s va :
  pt_ok root T s -> 0 <= va < 2 ^ 48 ->
  guk_not11_virt_to_pfn va s =
    match translation root s va with
    | Some pte => Ok (machine_to_phys_mapping (pte_to_mfn pte), Some pte)
    | None => Ok (-1, None)
    end.
Proof.
  intros Hok Hva. destruct (offsets va) as (O1 & O2 & O3 & O4). unfold guk_not11_virt_to_pfn, translation, l1_table.
  assert (forall m l p o m', T !! m = Some (l, p) -> 1 < l -> 0 <= o < 512 -> step s m o = Some m' -> exists l' p', l' = l - 1 /\ T !! m' = Some (l', p')) as Hstep.
  { intros m l p o m' Hm Hl Ho Hs. eexists _, _. split; [done|]. by apply (step_table root T s m l p o m'). }
  assert (forall m l p o, T !! m = Some (l, p) -> 0 <= o < 512 -> tab_entry (table_at m) o s = Ok (frames s m o)) as Htab.
  { intros m l p o Hm Ho. apply tab_entry_at; [by eapply pt_frame|done]. }
  pose proof (pt_root _ _ _ Hok) as H4. rewrite (pt_base_ok _ _ _ Hok). change (pfn_to_virt (mfn_to_pfn ?m)) with (table_at m).
  cbn [not11_loop Nat.eqb Nat.ltb Nat.leb andb]. rewrite (Htab root 4 0) by done. cbn [mbind res_bind].
  pose proof (Hstep root 4 0 (l4_table_offset va)) as K4. unfold step in K4 |- *. destruct (present (frames s root _)); [|done].
  destruct (K4 _ H4 ltac:(lia) O4 eq_refl) as (l3 & p3 & -> & H3). cbn [negb mbind option_bind]. set (m3 := pte_to_mfn (frames s root (l4_table_offset va))) in *. fold (table_at m3).
  rewrite (Htab m3 _ _ _ H3 O3). cbn [mbind res_bind].
  pose proof (Hstep m3 _ _ (l3_table_offset va) (pte_to_mfn (frames s m3 (l3_table_offset va))) H3) as K3. unfold step in K3. destruct (present (frames s m3 _)); [|done].
  destruct (K3 ltac:(lia) O3 eq_refl) as (l2 & p2 & -> & H2). cbn [negb mbind option_bind]. set (m2 := pte_to_mfn (frames s m3 (l3_table_offset va))) in *. fold (table_at m2).
  rewrite (Htab m2 _ _ _ H2 O2). cbn [mbind res_bind].
  pose proof (Hstep m2 _ _ (l2_table_offset va) (pte_to_mfn (frames s m2 (l2_table_offset va))) H2) as K2. unfold step in K2. destruct (present (frames s m2 _)); [|done].
  destruct (K2 ltac:(lia) O2 eq_refl) as (l1 & p1 & -> & H1). cbn [negb mbind option_bind fmap option_map]. set (m1 := pte_to_mfn (frames s m2 (l2_table_offset va))) in *. fold (table_at m1).
  by rewrite (Htab m1 _ _ _ H1 O1).
Qed.

(** Writing L1 entries only changes no walk. *)
Lemma upper_same root T s s' :
  pt_ok root T s -> p2m s' = p2m s ->
  (forall m l p o, T !! m = Some (l, p) -> 1 < l -> 0 <= o < 512 -> frames s' m o = frames s m o) ->
  pt_ok root T s' /\ forall va, l1_table root s' va = l1_table root s va.
Proof.
  intros Hok Hp Hf. split.
  - constructor; [apply Hok|apply Hok| |].
    + intros m l p Hm. destruct (pt_frame _ _ _ Hok m l p Hm). constructor; [done|done|by rewrite Hp].
    + intros m l p o Hm Hl Ho. rewrite (Hf m l p o) by done. by apply (pt_child _ _ _ Hok).
  - intros va. destruct (offsets va) as (_ & O2 & O3 & O4). unfold l1_table.
    assert (forall m l p o, T !! m = Some (l, p) -> 1 < l -> 0 <= o < 512 -> step s' m o = step s m o) as Hst.
    { intros m l p o Hm Hl Ho. unfold step. by rewrite (Hf m l p o). }
    rewrite (Hst root 4 0) by (apply Hok || done). destruct (step s root _) as [m3|] eqn:S4; [|done]. cbn [mbind option_bind].
    pose proof (step_table _ _ _ _ _ _ _ _ Hok (pt_root _ _ _ Hok) ltac:(lia) O4 S4) as H3.
    rewrite (Hst m3 _ _ _ H3) by lia. destruct (step s m3 _) as [m2|] eqn:S3; [|done]. cbn [mbind option_bind].
    pose proof (step_table _ _ _ _ _ _ _ _ Hok H3 ltac:(lia) O3 S3) as H2. by rewrite (Hst m2 _ _ _ H2) by lia.
Qed.

(** ** New tables *)

(** The page number at which the guest sees frame [pfn]. *)
Definition own_vpn (pfn : Z) : Z := vpn (pfn_to_virt pfn).

(** The frames [c .. hi - 1] of the guest are free for page tables: owned by the
    guest, not tables yet, and mapped at their 1-1 address. *)
Definition supply (root : Z) (T : gmap Z (Z * Z)) (c hi : Z) s : Prop :=
  forall pfn, c <= pfn < hi -> exists f, frame_ok s f /\ machine_to_phys_mapping f = pfn /\ T !! f = None /\
    0 <= pfn_to_virt pfn < 2 ^ 48 /\ is_Some (l1_table root s (pfn_to_virt pfn)).

(** The tables grew, using the frames [c .. c' - 1]: no entry that was present at
    an upper level changed, and an L1 entry changed only if it maps a new table. *)
Record grows (root c c' : Z) (T T' : gmap Z (Z * Z)) s s' : Prop := Grows {
  gr_mem : p2m s' = p2m s /\ pool s' = pool s /\ mm_log s' = mm_log s;
  gr_tables : T ⊆ T';
  gr_ok : pt_ok root T' s';
  gr_upper : forall m l p o, T !! m = Some (l, p) -> 1 < l -> 0 <= o < 512 -> present (frames s m o) = true ->
    frames s' m o = frames s m o;
  gr_l1 : forall m p o, T !! m = Some (1, p) -> 0 <= o < 512 ->
    (forall pfn, c <= pfn < c' -> own_vpn pfn <> p * 512 + o) -> frames s' m o = frames s m o;
  gr_new : forall m, T' !! m <> None -> T !! m = None -> c <= machine_to_phys_mapping m < c'
}.

Lemma grows_refl root c T s : pt_ok root T s -> grows root c c T T s s.
Proof. intros H. by constructor. Qed.

Lemma grows_trans root c1 c2 c3 T1 T2 T3 s1 s2 s3 :
  c1 <= c2 <= c3 -> grows root c1 c2 T1 T2 s1 s2 -> grows root c2 c3 T2 T3 s2 s3 -> grows root c1 c3 T1 T3 s1 s3.
Proof.
  intros Hc [(E1 & E2 & E3) Ht Hok Hu Hl Hn] [(E1' & E2' & E3') Ht' Hok' Hu' Hl' Hn'].
  assert (forall m x, T1 !! m = Some x -> T2 !! m = Some x) as Hsub by (intros m x Hx; by eapply lookup_weaken).
  constructor; [splits; congruence|by etrans|done| | |].
  - intros m l p o Hm Hl1 Ho Hp. rewrite (Hu' m l p o); [by apply (Hu m l p o)|by apply Hsub|done|done|]. by rewrite (Hu m l p o).
  - intros m p o Hm Ho Hf. rewrite (Hl' m p o), (Hl m p o); [done|done|done| |by apply Hsub|done|]; intros pfn Hp; apply Hf; lia.
  - intros m H3 H1. destruct (T2 !! m) eqn:H2; [|specialize (Hn' m H3 H2); lia]. specialize (Hn m). rewrite H2 in Hn. specialize (Hn ltac:(done) H1). lia.
Qed.

Lemma frame_ok_same s s' m : p2m s' = p2m s -> frame_ok s m -> frame_ok s' m.
Proof. intros E []. constructor; [done|done|by rewrite E]. Qed.

Lemma table_level root T s m l p : pt_ok root T s -> T !! m = Some (l, p) -> 0 <= m < 2 ^ 40.
Proof. intros Hok Hm. by destruct (pt_frame _ _ _ Hok m l p Hm). Qed.

(** A walk depends on the present upper entries only. *)
Lemma l1_table_grows root c c' T T' s s' va m :
  pt_ok root T s -> 0 <= va < 2 ^ 48 -> grows root c c' T T' s s' -> l1_table root s va = Some m -> l1_table root s' va = Some m.
Proof.
  intros Hok Hva G. destruct (offsets va) as (O1 & O2 & O3 & O4). unfold l1_table.
  assert (forall m l p o m', T !! m = Some (l, p) -> 1 < l -> 0 <= o < 512 -> step s m o = Some m' -> step s' m o = Some m' /\ exists p', T !! m' = Some (l - 1, p')) as Hs.
  { intros x l p o m' Hx Hl Ho Hs. pose proof (step_table _ _ _ _ _ _ _ _ Hok Hx Hl Ho Hs). split; [|eauto].
    unfold step in *. destruct (present (frames s x o)) eqn:Hp; [|done]. by rewrite (gr_upper _ _ _ _ _ _ _ G x l p o), Hp. }
  destruct (step s root _) as [m3|] eqn:S4; [|done]. cbn [mbind option_bind].
  destruct (step s m3 _) as [m2|] eqn:S3; [|done]. cbn [mbind option_bind]. intros S2.
  destruct (Hs _ _ _ _ _ (pt_root _ _ _ Hok) ltac:(lia) O4 S4) as [-> [p3 H3]]. cbn [mbind option_bind].
  destruct (Hs _ _ _ _ _ H3 ltac:(lia) O3 S3) as [-> [p2 H2]]. cbn [mbind option_bind].
  by destruct (Hs _ _ _ _ _ H2 ltac:(lia) O2 S2) as [-> _].
Qed.

Lemma supply_grows root c c' hi T T' s s' :
  pt_ok root T s -> c <= c' -> grows root c c' T T' s s' -> supply root T c hi s -> supply root T' c' hi s'.
Proof.
  intros Hok Hc G Hs pfn Hpfn. destruct (Hs pfn) as (f & Hf & Hp & HT & Hv & [m Hm]); [lia|].
  exists f. splits; [eapply frame_ok_same; [apply (gr_mem _ _ _ _ _ _ _ G)|done]|done| |lia|lia|].
  - destruct (T' !! f) eqn:H; [|done]. pose proof (gr_new _ _ _ _ _ _ _ G f ltac:(by rewrite H) HT). lia.
  - exists m. by apply (l1_table_grows root c c' T T' s s').
Qed.

(** The tables that the walk of an address goes through. *)
Lemma walk_tables root T s va m1 :
  pt_ok root T s -> 0 <= va < 2 ^ 48 -> l1_table root s va = Some m1 ->
  exists m3 p3 m2 p2, T !! m3 = Some (3, p3) /\ T !! m2 = Some (2, p2) /\
    pte_to_mfn (frames s root (l4_table_offset va)) = m3 /\ pte_to_mfn (frames s m3 (l3_table_offset va)) = m2 /\
    pte_to_mfn (frames s m2 (l2_table_offset va)) = m1 /\ 0 <= frames s m2 (l2_table_offset va) < 2 ^ 52.
Proof.
  intros Hok Hva. destruct (offsets va) as (O1 & O2 & O3 & O4). unfold l1_table.
  destruct (step s root _) as [m3|] eqn:S4; [|done]. cbn [mbind option_bind].
  destruct (step s m3 _) as [m2|] eqn:S3; [|done]. cbn [mbind option_bind]. intros S2.
  pose proof (step_table _ _ _ _ _ _ _ _ Hok (pt_root _ _ _ Hok) ltac:(lia) O4 S4) as H3.
  pose proof (step_table _ _ _ _ _ _ _ _ Hok H3 ltac:(lia) O3 S3) as H2.
  unfold step in S4, S3, S2. destruct (present (frames s root _)); [|done]. destruct (present (frames s m3 _)); [|done].
  destruct (present (frames s m2 _)) eqn:Hp; [|done]. injection S4 as S4. injection S3 as S3. injection S2 as S2.
  destruct (pt_child _ _ _ Hok m2 _ _ _ H2 ltac:(lia) O2 Hp) as (? & ? & _).
  eexists m3, _, m2, _. splits; try done; lia.
Qed.

Lemma page_mask_entry e : 0 <= e < 2 ^ 52 -> Z.land e PAGE_MASK = pte_to_mfn e * 4096.
Proof.
  intros He. rewrite pte_to_mfn_eq, Z.mod_small.
  2:{ split; [apply Z.div_pos; lia|]. apply Z.div_lt_upper_bound; lia. }
  change 4096 with (2 ^ 12). rewrite <- Z.shiftr_div_pow2, <- Z.shiftl_mul_pow2 by lia.
  apply Z.bits_inj'. intros i Hi. rewrite Z.land_spec. unfold PAGE_MASK. change PAGE_BYTES with (Z.shiftl 1 12).
  rewrite mask_high by lia. destruct (decide (i < 12)).
  - rewrite Z.shiftl_spec_low by lia. rewrite bool_decide_eq_false_2 by lia. apply andb_false_r.
  - rewrite Z.shiftl_spec_high, Z.shiftr_spec by lia. replace (i - 12 + 12) with i by lia.
    case_bool_decide; [apply andb_true_r|]. rewrite word_testbit_high by lia. done.
Qed.

Lemma level_prots_ok l : 1 <= l <= 3 ->
  exists pe pt, level_prots l = Ok (pe, pt) /\ 0 <= Z.land pe (wrap64 (Z.lnot _PAGE_RW)) < 4096 /\ 0 <= pt < 4096 /\ present pt = true.
Proof.
  intros Hl. assert (l = 1 \/ l = 2 \/ l = 3) as [-> | [-> | ->]] by lia; eexists _, _; (split; [reflexivity|]); by vm_compute.
Qed.

Section New.
Context (Hupd : update_law) (Hpin : pin_law).

(** The memory after [new_pt_frame]: the frame is cleared, its own mapping made
    read-only, and the entry of the parent points to it. *)
Definition linked_frames (f parent off m1 o1 v1 v2 : Z) s : Z -> Z -> Z :=
  apply_update (slot_ptr parent off, v2) (apply_update (slot_ptr m1 o1, v1) (fun m o => if m =? f then 0 else frames s m o)).

Lemma new_pt_frame_runs root T s parent l p off f m1 :
  pt_ok root T s -> 1 <= l <= 3 -> T !! parent = Some (l + 1, p) -> 0 <= off < 512 ->
  frame_ok s f -> T !! f = None -> 0 <= table_at f < 2 ^ 48 -> l1_table root s (table_at f) = Some m1 ->
  exists v1 pt, new_pt_frame f parent off l s =
      Ok (set_frames (linked_frames f parent off m1 (l1_table_offset (table_at f)) v1 (f * 4096 + pt) s) s) /\
    0 <= pt < 4096 /\ present pt = true.
Proof using Hupd Hpin.
  intros Hok Hl Hpar Hoff Hf HTf Hv Hm1. destruct (offsets (table_at f)) as (O1 & O2 & O3 & O4).
  destruct (walk_tables _ _ _ _ _ Hok Hv Hm1) as (m3 & p3 & m2 & p2 & H3 & H2 & E4 & E3 & E2 & He2).
  destruct (level_prots_ok l Hl) as (pe & pt & Hlp & Hpe & Hpt & Hpp).
  unfold new_pt_frame. change (pfn_to_virt (mfn_to_pfn f)) with (table_at f). unfold clear_page, pfn_to_mfn.
  rewrite (virt_of_page s f Hf). rewrite (fo_p2m _ _ Hf). cbn [mbind res_bind]. rewrite Hlp. cbn [mbind res_bind].
  set (s1 := set_frames _ s).
  assert (forall m l' p', T !! m = Some (l', p') -> (forall o, frames s1 m o = frames s m o) /\ frame_ok s1 m) as Hs1.
  { intros m l' p' Hm. split; [|apply (frame_ok_same s); [done|by eapply pt_frame]]. intros o. subst s1. cbn [set_frames frames].
    destruct (Z.eqb_spec m f) as [->|]; [by rewrite HTf in Hm|done]. }
  assert (forall m l' p' o, T !! m = Some (l', p') -> 0 <= o < 512 -> tab_entry (table_at m) o s1 = Ok (frames s m o)) as Htab.
  { intros m l' p' o Hm Ho. destruct (Hs1 m l' p' Hm) as [<- ?]. by apply tab_entry_at. }
  rewrite (pt_base_ok _ _ _ Hok), (Htab root 4 0) by (apply (pt_root _ _ _ Hok) || done). cbn [mbind res_bind].
  unfold pte_to_virt. change (pfn_to_virt (mfn_to_pfn ?m)) with (table_at m).
  rewrite E4, (Htab m3 _ _ _ H3 O3). cbn [mbind res_bind]. rewrite E3, (Htab m2 _ _ _ H2 O2). cbn [mbind res_bind].
  change (p2m s1) with (p2m s). unfold mfn_to_pfn. rewrite (fo_p2m _ _ Hf). cbn [mbind res_bind].
  rewrite Hupd. cbn [must mbind res_bind apply_updates]. change (p2m (set_frames ?x s1)) with (p2m s).
  rewrite (fo_p2m _ _ Hf). cbn [mbind res_bind]. rewrite Hpin. cbn [must mbind res_bind].
  change (p2m (set_frames ?x s1)) with (p2m s). rewrite (fo_p2m _ _ Hf). cbn [mbind res_bind].
  rewrite Hupd. cbn [must apply_updates]. pose proof (fo_mfn _ _ Hf). change PAGE_SHIFT with 12.
  rewrite page_mask_entry, E2, !entry_lor, slot_ptr_eq by (done || lia || by eapply table_level).
  pose proof (l1_table_prefix _ _ _ _ _ Hok Hv Hm1) as H1. pose proof (table_level _ _ _ _ _ _ Hok H1).
  rewrite (wrap_small 64 (m1 * 4096 + _)) by lia. eexists _, pt. splits; [reflexivity|lia|lia|done].
Qed.

Lemma linked_frames_at f parent off m1 o1 v1 v2 s m o :
  0 <= parent -> 0 <= off < 512 -> 0 <= m1 -> 0 <= o1 < 512 ->
  linked_frames f parent off m1 o1 v1 v2 s m o =
    if bool_decide (m = parent /\ o = off) then v2 else if bool_decide (m = m1 /\ o = o1) then v1
    else if m =? f then 0 else frames s m o.
Proof. intros. unfold linked_frames. by rewrite !apply_slot. Qed.

Lemma new_pt_frame_spec root T s parent l p off f :
  pt_ok root T s -> 1 <= l <= 3 -> T !! parent = Some (l + 1, p) -> 0 <= off < 512 -> present (frames s parent off) = false ->
  frame_ok s f -> T !! f = None -> 0 <= table_at f < 2 ^ 48 -> is_Some (l1_table root s (table_at f)) ->
  exists s', new_pt_frame f parent off l s = Ok s' /\ step s' parent off = Some f /\
    grows root (machine_to_phys_mapping f) (machine_to_phys_mapping f + 1) T (<[f := (l, p * 512 + off)]> T) s s'.
Proof using Hupd Hpin.
  intros Hok Hl Hpar Hoff Hnp Hf HTf Hv [m1 Hm1]. destruct (offsets (table_at f)) as (O1 & _).
  destruct (new_pt_frame_runs root T s parent l p off f m1) as (v1 & pt & -> & Hpt & Hpp); try done.
  pose proof (l1_table_prefix _ _ _ _ _ Hok Hv Hm1) as H1. destruct (prefixes (table_at f) Hv) as (_ & _ & _ & Hpre).
  pose proof (fo_mfn _ _ Hf). pose proof (table_level _ _ _ _ _ _ Hok H1). pose proof (table_level _ _ _ _ _ _ Hok Hpar).
  eexists. split; [done|]. set (s' := set_frames _ s).
  assert (forall m o, frames s' m o = if bool_decide (m = parent /\ o = off) then f * 4096 + pt
    else if bool_decide (m = m1 /\ o = l1_table_offset (table_at f)) then v1 else if m =? f then 0 else frames s m o) as Hs'.
  { intros m o. subst s'. cbn [set_frames frames]. apply linked_frames_at; (done || lia). }
  assert (p2m s' = p2m s /\ pool s' = pool s /\ mm_log s' = mm_log s) as Hmem by done. clearbody s'. clear Hm1.
  assert (forall m l' p' o, T !! m = Some (l', p') -> ~ (m = parent /\ o = off) -> ~ (m = m1 /\ o = l1_table_offset (table_at f)) -> frames s' m o = frames s m o) as Hold.
  { intros m l' p' o Hm Hn1 Hn2. rewrite Hs', !bool_decide_eq_false_2 by done. destruct (Z.eqb_spec m f) as [->|]; [by rewrite HTf in Hm|done]. }
  assert (frames s' parent off = f * 4096 + pt) as Hlink by (rewrite Hs'; by rewrite bool_decide_eq_true_2).
  split; [unfold step; by rewrite Hlink, present_entry, Hpp, pte_to_mfn_entry by lia|].
  assert (forall x, T !! f <> Some x) as HTf' by (intros; by rewrite HTf).
  constructor; [done|by apply insert_subseteq| | | |].
  - constructor; [rewrite lookup_insert_ne by (intros ->; by eapply HTf', pt_root); apply Hok|apply Hok| |].
    + intros m l' p' Hm. apply (frame_ok_same s); [apply Hmem|]. look Hm; [done|by eapply pt_frame].
    + intros m l' p' o Hm Hl' Ho Hp'. look Hm.
      * exfalso. rewrite Hs', !bool_decide_eq_false_2, Z.eqb_refl in Hp'; [done| |]; intros [-> ->]; by eapply HTf'.
      * destruct (decide (m = parent /\ o = off)) as [[-> ->]|Hne].
        -- rewrite Hlink in *. rewrite Hpar in Hm. injection Hm as <- <-. rewrite pte_to_mfn_entry, lookup_insert_eq by lia.
           splits; [lia|lia|]. do 2 f_equal. lia.
        -- rewrite (Hold m l' p' o) in * by (done || (intros [-> ->]; rewrite H1 in Hm; injection Hm as <- <-; lia)).
           destruct (pt_child _ _ _ Hok m l' p' o Hm Hl' Ho Hp') as (? & ? & Hc). splits; [done..|].
           rewrite lookup_insert_ne; [done|]. intros E. rewrite <- E in Hc. by eapply HTf'.
  - intros m l' p' o Hm Hl' Ho Hp'. apply (Hold m l' p'); [done|intros [-> ->]; by rewrite Hnp in Hp'|].
    intros [-> ->]. rewrite H1 in Hm. injection Hm as <- <-. lia.
  - intros m p' o Hm Ho Hown. apply (Hold m 1 p'); [done| |].
    + intros [-> ->]. rewrite Hpar in Hm. injection Hm as E _. lia.
    + intros [-> ->]. rewrite H1 in Hm. injection Hm as <-. apply (Hown (machine_to_phys_mapping f)); [lia|]. by rewrite Hpre.
  - intros m Hm HTm. destruct (decide (m = f)) as [->|]; [lia|]. by rewrite lookup_insert_ne in Hm.
Qed.

(** ** One page *)

Lemma descend_spec root T s m l p off c hi :
  pt_ok root T s -> 1 <= l <= 3 -> T !! m = Some (l + 1, p) -> 0 <= off < 512 -> supply root T c hi s -> c < hi ->
  exists m' c' s' T', descend l (table_at m) m off (Env guk_pfn_linear_alloc c) s = Ok (Some m', Env guk_pfn_linear_alloc c', s') /\
    c <= c' <= c + 1 /\ grows root c c' T T' s s' /\ T' !! m' = Some (l, p * 512 + off) /\ step s' m off = Some m'.
Proof using Hupd Hpin.
  intros Hok Hl Hm Hoff Hs Hc. unfold descend. rewrite tab_entry_at by (done || by eapply pt_frame). cbn [mbind res_bind].
  destruct (present (frames s m off)) eqn:Hp; cbn [mbind res_bind].
  - rewrite tab_entry_at by (done || by eapply pt_frame). cbn [mbind res_bind]. eexists _, c, s, T.
    splits; [done|lia|lia|by apply grows_refl| |unfold step; by rewrite Hp].
    destruct (pt_child _ _ _ Hok m _ _ off Hm ltac:(lia) Hoff Hp) as (_ & _ & Hch). rewrite Hch. do 2 f_equal. lia.
  - destruct (Hs c) as (f & Hf & Hfp & HTf & Hv & Hw); [lia|]. pose proof (fo_mfn _ _ Hf). pose proof (fo_pfn _ _ Hf).
    unfold run_pfn_alloc, pfn_to_mfn. cbn [pfn_alloc env_pfn]. rewrite <- Hfp, (fo_p2m _ _ Hf). cbn [mbind res_bind].
    rewrite sgn_small by lia. rewrite (proj2 (Z.ltb_ge _ _)) by lia. rewrite wrap_small by lia.
    rewrite <- Hfp in Hv, Hw. change (pfn_to_virt (machine_to_phys_mapping f)) with (table_at f) in Hv, Hw.
    destruct (new_pt_frame_spec root T s m l p off f) as (s' & -> & Hst & Hg); try done. cbn [mbind res_bind].
    assert (frame_ok s' m) as Hfm.
    { apply (frame_ok_same s); [apply (gr_mem _ _ _ _ _ _ _ Hg)|by eapply pt_frame]. }
    rewrite tab_entry_at by done. cbn [mbind res_bind]. eexists _, _, s', _.
    splits; [done|lia|lia|exact Hg| |]; unfold step in Hst |- *; destruct (present (frames s' m off)); try done.
    injection Hst as ->. apply lookup_insert_eq.
Qed.

Lemma locate_spec root T s va c hi :
  pt_ok root T s -> 0 <= va < 2 ^ 48 -> supply root T c hi s -> c + 3 <= hi ->
  exists m c' s' T', locate va PAGE_BYTES (Env guk_pfn_linear_alloc c) s =
      Ok (Some (m, l1_table_offset va), Env guk_pfn_linear_alloc c', s') /\
    c <= c' <= c + 3 /\ grows root c c' T T' s s' /\ supply root T' c' hi s' /\ l1_table root s' va = Some m.
Proof using Hupd Hpin.
  intros Hok Hva Hs Hc. destruct (offsets va) as (O1 & O2 & O3 & O4). unfold locate.
  pose proof (pt_root _ _ _ Hok) as H4. pose proof (pt_frame _ _ _ Hok _ _ _ H4) as F4.
  rewrite (pt_base_ok _ _ _ Hok). unfold pfn_to_mfn. rewrite (virt_of_page s root F4), (fo_p2m _ _ F4). cbn [mbind res_bind]. change L3_FRAME with 3; change L2_FRAME with 2; change L1_FRAME with 1.
  destruct (descend_spec root T s root 3 0 (l4_table_offset va) c hi) as (m3 & c3 & s3 & T3 & -> & C3 & G3 & H3 & S3); try done; [lia|].
  cbn [mbind res_bind]. pose proof (supply_grows _ _ _ _ _ _ _ _ Hok (proj1 C3) G3 Hs) as Hs3.
  destruct (descend_spec root T3 s3 m3 2 (0 * 512 + l4_table_offset va) (l3_table_offset va) c3 hi) as (m2 & c2 & s2 & T2 & -> & C2 & G2 & H2 & S2);
    try done; [apply G3|lia|].
  cbn [mbind res_bind]. pose proof (supply_grows _ _ _ _ _ _ _ _ (gr_ok _ _ _ _ _ _ _ G3) (proj1 C2) G2 Hs3) as Hs2.
  change (PAGE_BYTES =? PAGE_BYTES) with true. cbn iota.
  destruct (descend_spec root T2 s2 m2 1 ((0 * 512 + l4_table_offset va) * 512 + l3_table_offset va) (l2_table_offset va) c2 hi)
    as (m1 & c1 & s1 & T1 & -> & C1 & G1 & H1 & S1); try done; [apply G2|lia|].
  cbn [mbind res_bind]. pose proof (supply_grows _ _ _ _ _ _ _ _ (gr_ok _ _ _ _ _ _ _ G2) (proj1 C1) G1 Hs2) as Hs1.
  assert (forall T T' s s' m l p o c c' m', pt_ok root T s -> grows root c c' T T' s s' -> T !! m = Some (l, p) -> 1 < l -> 0 <= o < 512 ->
    step s m o = Some m' -> step s' m o = Some m') as Hkeep.
  { intros Ta Tb sa sb m l p o ca cb m' Hoka G Hm Hl Ho. unfold step. destruct (present (frames sa m o)) eqn:Hp; [|done].
    by rewrite (gr_upper _ _ _ _ _ _ _ G m l p o), Hp. }
  pose proof (pt_root _ _ _ (gr_ok _ _ _ _ _ _ _ G3)) as H4'.
  pose proof (pt_root _ _ _ (gr_ok _ _ _ _ _ _ _ G2)) as H4''.
  exists m1, c1, s1, T1. splits; [done|lia|lia| |done|].
  - eapply grows_trans; [|exact G3|eapply grows_trans; [|exact G2|exact G1]]; lia.
  - unfold l1_table.
    rewrite (Hkeep T2 T1 s2 s1 root 4 0 _ c2 c1 m3 (gr_ok _ _ _ _ _ _ _ G2) G1 H4'' ltac:(lia) O4
      (Hkeep T3 T2 s3 s2 root 4 0 _ c3 c2 m3 (gr_ok _ _ _ _ _ _ _ G3) G2 H4' ltac:(lia) O4 S3)). cbn [mbind option_bind].
    assert (T2 !! m3 = Some (3, 0 * 512 + l4_table_offset va)) as H3' by (eapply lookup_weaken; [exact H3|apply G2]).
    by rewrite (Hkeep T2 T1 s2 s1 m3 3 _ _ c2 c1 m2 (gr_ok _ _ _ _ _ _ _ G2) G1 H3' ltac:(lia) O3 S2).
Qed.

(** ** The range *)

Section Range.
Context (root a n c0 v0 : Z) (T0 : gmap Z (Z * Z)) (s0 : mmst M) (g : Z -> Z).
Context (Hok0 : pt_ok root T0 s0) (Hsup0 : supply root T0 c0 (c0 + 3 * n) s0).
Context (Ha : 0 <= a) (Hal : a mod 4096 = 0) (Hend : a + 4096 * n <= 2 ^ 48).
Context (Hv0 : 0 <= v0) (Hvn : v0 + n < 2 ^ 64).
Context (Hg : forall k, 0 <= k < n -> rd (p2m s0) (v0 + k) = Ok (g k) /\ 0 <= g k < 2 ^ 40).
Context (Hdisj : forall pfn k, c0 <= pfn < c0 + 3 * n -> 0 <= k < n -> own_vpn pfn <> vpn a + k).

Let va (k : Z) : Z := a + 4096 * k.
Let val (k : Z) : Z := g k * 4096 + L1_PROT.

Lemma va_range k : 0 <= k < n -> 0 <= va k < 2 ^ 48.
Proof using Ha Hend. subst va. cbn. lia. Qed.

Lemma vpn_va k : vpn (va k) = vpn a + k.
Proof using. subst va. unfold vpn. cbn. rewrite !Z.shiftr_div_pow2 by lia. change (2 ^ 12) with 4096.
  replace (a + 4096 * k) with (a + k * 4096) by lia. by rewrite Z.div_add by lia. Qed.

Lemma vpn_slot k : 0 <= k < n -> Z.shiftr (va k) 21 * 512 + l1_table_offset (va k) = vpn a + k.
Proof using Ha Hend. intros Hk. destruct (prefixes (va k) (va_range k Hk)) as (_ & _ & _ & ->). apply vpn_va. Qed.

(** The state of the loop before page [k]: the updates that were not sent yet
    included, the pages before [k] are mapped and the rest is as it was. *)
Record built (k c : Z) (ups : list (Z * Z)) (T : gmap Z (Z * Z)) s : Prop := Built {
  bu_ok : pt_ok root T s;
  bu_tables : T0 ⊆ T;
  bu_mem : p2m s = p2m s0 /\ pool s = pool s0 /\ mm_log s = mm_log s0;
  bu_c : c0 <= c <= c0 + 3 * k;
  bu_supply : supply root T c (c0 + 3 * n) s;
  bu_ups : forall u, u ∈ ups -> exists j m, 0 <= j < k /\ u = (slot_ptr m (l1_table_offset (va j)), val j) /\
    l1_table root s (va j) = Some m;
  bu_done : forall j, 0 <= j < k -> exists m, l1_table root s (va j) = Some m /\
    (0 < g j -> apply_updates ups (frames s) m (l1_table_offset (va j)) = val j);
  bu_walk : forall x m, 0 <= x < 2 ^ 48 -> l1_table root s0 x = Some m -> l1_table root s x = Some m;
  bu_keep : forall m p q, T0 !! m = Some (1, p) -> 0 <= q < 512 ->
    (forall j, 0 <= j < n -> vpn a + j <> p * 512 + q) ->
    (forall pfn, c0 <= pfn < c0 + 3 * n -> own_vpn pfn <> p * 512 + q) ->
    apply_updates ups (frames s) m q = frames s0 m q
}.

(** Two slots of the range at the same place are those of the same page. *)
Lemma same_slot T s i j m :
  pt_ok root T s -> 0 <= i < n -> 0 <= j < n -> l1_table root s (va i) = Some m -> l1_table root s (va j) = Some m ->
  l1_table_offset (va i) = l1_table_offset (va j) -> i = j.
Proof using Ha Hend.
  intros Hok Hi Hj Hmi Hmj E. pose proof (l1_table_prefix _ _ _ _ _ Hok (va_range i Hi) Hmi) as Hpi.
  rewrite (l1_table_prefix _ _ _ _ _ Hok (va_range j Hj) Hmj) in Hpi. injection Hpi as Hpi.
  pose proof (vpn_slot i Hi). pose proof (vpn_slot j Hj). rewrite Hpi, E in *. lia.
Qed.

(** Locating a page keeps what was built. *)
Lemma built_grows k c c' ups T T' s s' :
  0 <= k < n -> built k c ups T s -> c <= c' <= c + 3 -> grows root c c' T T' s s' -> supply root T' c' (c0 + 3 * n) s' ->
  forall m p q, T !! m = Some (1, p) -> 0 <= q < 512 -> (forall pfn, c0 <= pfn < c0 + 3 * n -> own_vpn pfn <> p * 512 + q) ->
  apply_updates ups (frames s') m q = apply_updates ups (frames s) m q.
Proof using.
  intros Hk B Hc G Hs m p q Hm Hq Hown. apply apply_updates_ext. apply (gr_l1 _ _ _ _ _ _ _ G m p q Hm Hq).
  intros pfn Hpfn. apply Hown. pose proof (bu_c _ _ _ _ _ B). lia.
Qed.

Lemma built_step k c c' ups T T' s s' m :
  0 <= k < n -> built k c ups T s -> c <= c' <= c + 3 -> grows root c c' T T' s s' -> supply root T' c' (c0 + 3 * n) s' ->
  l1_table root s' (va k) = Some m ->
  built (k + 1) c' (if 0 <? g k then ups ++ [(slot_ptr m (l1_table_offset (va k)), val k)] else ups) T' s'.
Proof using Ha Hend Hok0 Hdisj.
  intros Hk B Hc G Hs Hm. pose proof (bu_c _ _ _ _ _ B) as Hbc. pose proof (gr_ok _ _ _ _ _ _ _ G) as Hok'.
  pose proof (l1_table_prefix _ _ _ _ _ Hok' (va_range k Hk) Hm) as Hmk. pose proof (table_level _ _ _ _ _ _ Hok' Hmk) as Hmr.
  pose proof (fun j => proj1 (offsets (va j))) as Hoff.
  assert (forall j mj, 0 <= j < n -> l1_table root s (va j) = Some mj -> l1_table root s' (va j) = Some mj) as Hwalk.
  { intros j mj Hj. apply (l1_table_grows root c c' T T'); [apply B|by apply va_range|done]. }
  set (ups' := if 0 <? g k then _ else ups).
  (* the new update leaves the other slots alone *)
  assert (forall x q, 0 <= q < 512 -> ~ (x = m /\ q = l1_table_offset (va k)) -> apply_updates ups' (frames s') x q = apply_updates ups (frames s') x q) as Hnew.
  { intros x q Hq Hne. subst ups'. destruct (0 <? g k); [|done]. rewrite apply_updates_snoc, apply_slot by (done || lia).
    by rewrite bool_decide_eq_false_2. }
  constructor; [done|etrans; [apply B|apply G]| |lia|done| | | |].
  - destruct (bu_mem _ _ _ _ _ B) as (? & ? & ?), (gr_mem _ _ _ _ _ _ _ G) as (? & ? & ?). splits; congruence.
  - intros u Hu. assert (u ∈ ups \/ u = (slot_ptr m (l1_table_offset (va k)), val k)) as [Hu' | ->].
    { subst ups'. destruct (0 <? g k); [|by left]. apply elem_of_app in Hu as [?|?%list_elem_of_singleton]; auto. }
    + destruct (bu_ups _ _ _ _ _ B u Hu') as (j & mj & Hj & -> & Hmj). exists j, mj. splits; [lia|lia|done|]. apply Hwalk; [lia|done].
    + exists k, m. splits; [lia|lia|done|done].
  - intros j Hj. destruct (decide (j = k)) as [->|].
    + exists m. split; [done|]. intros Hgk. subst ups'. rewrite (proj2 (Z.ltb_lt _ _)) by done.
      rewrite apply_updates_snoc, apply_slot by (done || lia). by rewrite bool_decide_eq_true_2.
    + destruct (bu_done _ _ _ _ _ B j) as (mj & Hmj & Hd); [lia|]. exists mj. split; [apply Hwalk; [lia|done]|]. intros Hgj.
      rewrite Hnew; [|done|intros [-> E]; assert (j = k); [apply (same_slot T' s' j k m); [done|lia|lia|apply Hwalk; [lia|done]|done|done]|lia]]. rewrite <- Hd by done.
      pose proof (l1_table_prefix _ _ _ _ _ (bu_ok _ _ _ _ _ B) (va_range j ltac:(lia)) Hmj) as Hpj.
      apply (built_grows k c c' ups T T' s s' Hk B Hc G Hs _ _ _ Hpj (Hoff j)).
      intros pfn Hpfn. rewrite vpn_slot by lia. apply Hdisj; [done|lia].
  - intros x mx Hx Hmx. apply (l1_table_grows root c c' T T' s s'); [apply B|done|done|]. by apply (bu_walk _ _ _ _ _ B).
  - intros x p q Hx Hq Hr Hpt. assert (T !! x = Some (1, p)) as HTx by (eapply lookup_weaken; [done|apply B]).
    rewrite Hnew by first [done|intros [-> ->]; assert (T' !! m = Some (1, p)) as HT' by (eapply lookup_weaken; [done|apply G]);
      rewrite Hmk in HT'; injection HT' as <-; apply (Hr k); [lia|symmetry; by apply vpn_slot]].
    rewrite (built_grows k c c' ups T T' s s' Hk B Hc G Hs x p q HTx Hq Hpt). by apply (bu_keep _ _ _ _ _ B) with (p := p).
Qed.

Lemma built_flush k c ups T s :
  0 <= k <= n -> built k c ups T s -> built k c [] T (set_frames (apply_updates ups (frames s)) s).
Proof using Ha Hend.
  intros Hk B. pose proof (bu_ok _ _ _ _ _ B) as Hok.
  destruct (upper_same root T s (set_frames (apply_updates ups (frames s)) s) Hok eq_refl) as [Hok' Hwalk].
  { intros m l p o Hm Hl Ho. cbn [set_frames frames].
    assert (forall u, u ∈ ups -> exists m' o', u.1 = slot_ptr m' o' /\ 0 <= m' /\ 0 <= o' < 512 /\ m' <> m) as Hups.
    { intros u Hu. destruct (bu_ups _ _ _ _ _ B u Hu) as (j & mj & Hj & -> & Hmj).
      pose proof (l1_table_prefix _ _ _ _ _ Hok (va_range j ltac:(lia)) Hmj) as Hpj. pose proof (table_level _ _ _ _ _ _ Hok Hpj).
      destruct (offsets (va j)) as ([Ho1 Ho2] & _). eexists mj, _. splits; [done|lia|exact Ho1|exact Ho2|]. intros ->. rewrite Hpj in Hm. injection Hm as <- <-. lia. }
    by apply apply_updates_other. }
  constructor; [done|apply B|exact (bu_mem _ _ _ _ _ B)|apply B| |by intros u ?%elem_of_nil| | |].
  - intros pfn Hp. destruct (bu_supply _ _ _ _ _ B pfn Hp) as (f & ? & ? & ? & ? & ?). exists f. rewrite Hwalk. splits; [by apply (frame_ok_same s)|done|done|lia|lia|done].
  - intros j Hj. rewrite Hwalk. by apply (bu_done _ _ _ _ _ B).
  - intros x m Hx. rewrite Hwalk. by apply (bu_walk _ _ _ _ _ B).
  - intros m p q Hm Hq Hr Hpt. by apply (bu_keep _ _ _ _ _ B) with (p := p).
Qed.

Lemma build_loop_spec fuel k c ups T s :
  0 <= k < n -> (Z.to_nat (n - k) < fuel)%nat -> built k c ups T s -> (length ups < 512)%nat ->
  exists c' T' s', build_loop fuel (va k) (a + 4096 * n) PAGE_BYTES ups (Env guk_pfn_linear_alloc (v0 + k)) (Env guk_pfn_linear_alloc c) s =
      Ok (1, Env guk_pfn_linear_alloc (v0 + n), Env guk_pfn_linear_alloc c', s') /\ built n c' [] T' s'.
Proof using Hupd Hpin Hok0 Ha Hend Hv0 Hvn Hg Hdisj.
  revert k c ups T s. induction fuel as [|fuel IH]; intros k c ups T s Hk Hf B Hlen; [lia|]. cbn [build_loop].
  pose proof (va_range k Hk) as Hva. rewrite (proj2 (Z.ltb_lt (va k) _)) by (unfold va; lia).
  pose proof (bu_c _ _ _ _ _ B) as Hbc.
  destruct (locate_spec root T s (va k) c (c0 + 3 * n) (bu_ok _ _ _ _ _ B) Hva (bu_supply _ _ _ _ _ B))
    as (m & c1 & s1 & T1 & -> & Hc1 & G & Hs1 & Hm); [lia|]. cbn [mbind res_bind].
  pose proof (built_step k c c1 ups T T1 s s1 m Hk B Hc1 G Hs1 Hm) as B1.
  destruct (Hg k Hk) as [Hgk Hgr]. unfold run_pfn_alloc, pfn_to_mfn. cbn [pfn_alloc env_pfn].
  destruct (bu_mem _ _ _ _ _ B1) as (-> & _). rewrite Hgk. cbn [mbind res_bind].
  rewrite sgn_small by lia. rewrite (proj2 (Z.ltb_ge (g k) 0)) by lia. rewrite (wrap_small 64 (v0 + k + 1)) by lia.
  pose proof (l1_table_prefix _ _ _ _ _ (bu_ok _ _ _ _ _ B1) Hva Hm) as Hmk. pose proof (table_level _ _ _ _ _ _ (bu_ok _ _ _ _ _ B1) Hmk).
  change (PAGE_BYTES =? PAGE_BYTES) with true. cbn iota. change PAGE_SHIFT with 12. change L1_PAGETABLE_SHIFT with 12.
  pose proof (proj1 (offsets (va k))) as Hof. rewrite slot_ptr_eq, entry_lor by (done || lia). fold (val k).
  rewrite (wrap_small 64 (va k + PAGE_BYTES)) by (unfold PAGE_BYTES; lia).
  replace (va k + PAGE_BYTES) with (va (k + 1)) by (unfold va, PAGE_BYTES; lia). replace (v0 + k + 1) with (v0 + (k + 1)) by lia.
  set (ups1 := if 0 <? g k then _ else ups) in *.
  assert (length ups1 <= 512)%nat as Hl1 by (subst ups1; destruct (0 <? g k); rewrite ?length_app; cbn [length]; lia).
  destruct (decide (k + 1 = n)) as [E|NE].
  - replace (va (k + 1)) with (a + 4096 * n) by (unfold va; lia). rewrite Z.eqb_refl, orb_true_r, Hupd. cbn [must mbind res_bind].
    destruct fuel as [|fuel]; [lia|]. cbn [build_loop]. rewrite Z.ltb_irrefl. eexists c1, T1, _. rewrite E. split; [done|].
    apply built_flush; [lia|]. by rewrite <- E.
  - destruct (Z.eqb_spec (va (k + 1)) (a + 4096 * n)); [unfold va in *; lia|]. rewrite orb_false_r.
    destruct (Z.eqb_spec (Z.of_nat (length ups1)) L1_PAGETABLE_ENTRIES) as [|Hne].
    + rewrite Hupd. cbn [must mbind res_bind]. apply (IH (k + 1) c1 [] T1); [lia|lia|apply built_flush; [lia|done]|cbn; lia].
    + apply (IH (k + 1) c1 ups1 T1); [lia|lia|done|unfold L1_PAGETABLE_ENTRIES in *; lia].
Qed.
End Range.
End New.
End Tables.

(** ** Properties *)

(** When the [n] pages from [start] on can be mapped to the frames the linear
    allocator reads from [v0] on, [g 0], [g 1], ..., with page table frames taken
    from the guest frames [c0 .. c0 + 3 n - 1]: the tables are well formed, the
    range is aligned and does not contain the 1-1 addresses of those frames. *)
Record build_ready {M} `{!Machine M} (root start n c0 v0 : Z) (T : gmap Z (Z * Z)) (g : Z -> Z) (s : mmst M) : Prop := BuildReady {
  br_ok : pt_ok root T s;
  br_supply : supply root T c0 (c0 + 3 * n) s;
  br_n : 1 <= n;
  br_start : 0 <= start /\ start mod 4096 = 0 /\ start + 4096 * n <= 2 ^ 48;
  br_v0 : 0 <= v0 /\ v0 + n < 2 ^ 64;
  br_g : forall k, 0 <= k < n -> rd (p2m s) (v0 + k) = Ok (g k) /\ 0 <= g k < 2 ^ 40;
  br_disjoint : forall pfn k, c0 <= pfn < c0 + 3 * n -> 0 <= k < n -> own_vpn pfn <> vpn start + k
}.

(** C19: [guk_build_pagetable] succeeds, and afterwards a walk of the tables from
    the root translates page [k] of the range to the [k]-th frame of the allocator
    with the protection [L1_PROT] (a frame 0, a hole, is skipped); every address
    outside the range that had a translation keeps it, except those at which the
    guest sees the frames that became page tables. *)
Theorem build_pagetable_maps {M} `{!PageSource M} `{!Machine M} root start n c0 v0 T g (s : mmst M) fuel :
  update_law -> pin_law -> build_ready root start n c0 v0 T g s -> (Z.to_nat n < fuel)%nat ->
  exists c' T' s',
    guk_build_pagetable fuel start (start + 4096 * n) (Env guk_pfn_linear_alloc v0) (Env guk_pfn_linear_alloc c0) s =
      Ok (1, Env guk_pfn_linear_alloc (v0 + n), Env guk_pfn_linear_alloc c', s') /\
    c0 <= c' <= c0 + 3 * n /\ pt_ok root T' s' /\
    (forall k, 0 <= k < n -> 0 < g k ->
      guk_not11_virt_to_pfn (start + 4096 * k) s' = Ok (machine_to_phys_mapping (g k), Some (g k * 4096 + L1_PROT))) /\
    (forall va pte, 0 <= va < 2 ^ 48 -> translation root s va = Some pte ->
      (forall k, 0 <= k < n -> vpn start + k <> vpn va) -> (forall pfn, c0 <= pfn < c0 + 3 * n -> own_vpn pfn <> vpn va) ->
      guk_not11_virt_to_pfn va s' = Ok (machine_to_phys_mapping (pte_to_mfn pte), Some pte)).
Proof.
  intros Hupd Hpin [Hok Hsup Hn (Ha & Hal & Hend) [Hv0 Hvn] Hg Hdisj] Hf.
  assert (built root start n c0 T s g 0 c0 [] T s) as B0.
  { constructor; try done; [lia|by intros u ?%elem_of_nil|intros; lia]. }
  destruct (build_loop_spec Hupd Hpin root start n c0 v0 T s g Hok Ha Hend Hv0 Hvn Hg Hdisj fuel 0 c0 [] T s)
    as (c' & T' & s' & Hrun & B); [lia|lia|done|cbn; lia|].
  exists c', T', s'. pose proof (bu_ok _ _ _ _ _ _ _ _ _ _ _ _ B) as Hok'. splits; [|apply B|apply B|done| |].
  - unfold guk_build_pagetable, build_pagetable_vs. rewrite Z.mul_0_r, !Z.add_0_r in Hrun. exact Hrun.
  - intros k Hk Hgk. rewrite (not11_spec root T' s') by (done || lia).
    destruct (bu_done _ _ _ _ _ _ _ _ _ _ _ _ B k Hk) as (m & Hm & Hd). unfold translation. rewrite Hm. cbn [fmap option_fmap option_map].
    cbn [apply_updates] in Hd. rewrite Hd by done. destruct (Hg k Hk) as [_ ?]. by rewrite pte_to_mfn_entry.
  - intros va pte Hva. unfold translation. destruct (l1_table root s va) as [m|] eqn:Hm; [|done]. intros [= <-] Hr Hpt.
    rewrite (not11_spec root T' s') by done. unfold translation. rewrite (bu_walk _ _ _ _ _ _ _ _ _ _ _ _ B va m Hva Hm).
    cbn [fmap option_fmap option_map]. destruct (prefixes va Hva) as (_ & _ & _ & Hpre).
    pose proof (bu_keep _ _ _ _ _ _ _ _ _ _ _ _ B m _ (l1_table_offset va) (l1_table_prefix _ _ _ _ _ Hok Hva Hm)) as Hk.
    rewrite Hpre in Hk. cbn [apply_updates] in Hk. rewrite Hk; [done|exact (proj1 (offsets va))|done|done].
Qed.

(** ** Witness *)

(** A guest without an allocator of pages, whose frames have their own numbers,
    on a Xen that accepts everything.  Frame 1 is the root, frames 2, 3 and 4 the
    tables for the first two megabytes, which are mapped 1-1. *)
#[refine, global] Instance no_pages : PageSource () := {
  guk_allocate_pages _ m := Ok (0, m);
  guk_deallocate_pages _ _ m := Ok m;
  in_irq _ := false;
  pages_ok _ := True;
  page_run _ _ _ := False
}.
Proof. all: try done. intros n m _ _. exists 0, m. splits; auto. Defined.

Global Instance demo_machine : Machine () := {
  VIRT_START := 0;
  pt_base := 4096;
  nr_pt_frames := 4;
  nr_pages := 1024;
  machine_to_phys_mapping m := m;
  UVMF_ALL_INVLPG := 3;
  __HYPERVISOR_update_va_mapping := 14;
  HYPERVISOR_mmu_update ups s := Some (set_frames (apply_updates ups (frames s)) s);
  HYPERVISOR_pin_table _ _ s := Some s;
  HYPERVISOR_multicall l s := Some (mm_tell (M_multicall l) s);
  HYPERVISOR_update_va_mapping va val flags s := (0, mm_tell (M_update_va_mapping va val flags) s)
}.

Definition demo_tables : gmap Z (Z * Z) := <[1 := (4, 0)]> (<[2 := (3, 0)]> (<[3 := (2, 0)]> {[4 := (1, 0)]})).

Definition demo_mm : mmst () :=
  Mmst (seqZ 0 64)
    (fun m o => if m =? 4 then o * 4096 + L1_PROT else if (1 <=? m) && (m <=? 3) && (o =? 0) then (m + 1) * 4096 + L2_PROT else 0) () [].

Lemma demo_rd k : 0 <= k < 64 -> rd (p2m demo_mm) k = Ok k.
Proof. intros Hk. apply rd_ok. split; [lia|]. cbn [p2m demo_mm]. apply lookup_seqZ. lia. Qed.

Lemma demo_table m l p : demo_tables !! m = Some (l, p) -> p = 0 /\ m = 5 - l /\ 1 <= l <= 4.
Proof. unfold demo_tables. intros H. look H; try lia. apply lookup_singleton_Some in H as [<- [= <- <-]]. lia. Qed.

Lemma demo_pt_ok : pt_ok 1 demo_tables demo_mm.
Proof.
  constructor; [done|by vm_compute| |].
  - intros m l p H. apply demo_table in H. constructor; cbn; [lia|lia|]. apply demo_rd. lia.
  - intros m l p o H Hl Ho. apply demo_table in H as (-> & -> & ?). unfold demo_mm. cbn [frames].
    rewrite (proj2 (Z.eqb_neq _ 4)), (proj2 (Z.leb_le _ _)), (proj2 (Z.leb_le _ 3)) by lia. cbn [andb].
    destruct (Z.eqb_spec o 0) as [->|]; [|done]. intros _. change L2_PROT with 103. rewrite pte_to_mfn_entry by lia.
    assert (l = 2 \/ l = 3 \/ l = 4) as [-> | [-> | ->]] by lia; by vm_compute.
Qed.

Lemma demo_ready : build_ready 1 (2 ^ 21) 2 10 20 demo_tables (fun k => 20 + k) demo_mm.
Proof.
  constructor; [apply demo_pt_ok| |done|done|done| |].
  - intros pfn Hp. exists pfn. assert (pfn = 10 \/ pfn = 11 \/ pfn = 12 \/ pfn = 13 \/ pfn = 14 \/ pfn = 15) as H by lia.
    splits; [constructor; cbn; [lia|lia|apply demo_rd; lia]|done|..]; destruct H as [-> | [-> | [-> | [-> | [-> | ->]]]]]; try done; eexists; by vm_compute.
  - intros k Hk. split; [apply demo_rd; lia|lia].
  - intros pfn k Hp Hk. assert (own_vpn pfn = pfn) as ->.
    { assert (pfn = 10 \/ pfn = 11 \/ pfn = 12 \/ pfn = 13 \/ pfn = 14 \/ pfn = 15) as H by lia.
      destruct H as [-> | [-> | [-> | [-> | [-> | ->]]]]]; by vm_compute. }
    change (vpn (2 ^ 21)) with 512. lia.
Qed.

Lemma build_pagetable_maps_witness :
  exists c' s', guk_build_pagetable 3 (2 ^ 21) (2 ^ 21 + 4096 * 2) (Env guk_pfn_linear_alloc 20) (Env guk_pfn_linear_alloc 10) demo_mm =
      Ok (1, Env guk_pfn_linear_alloc 22, Env guk_pfn_linear_alloc c', s') /\
    guk_not11_virt_to_pfn (2 ^ 21 + 4096 * 1) s' = Ok (21, Some (21 * 4096 + L1_PROT)).
Proof.
  destruct (build_pagetable_maps 1 (2 ^ 21) 2 10 20 demo_tables (fun k => 20 + k) demo_mm 3)
    as (c' & T' & s' & Hr & _ & _ & Hm & _); [done|done|apply demo_ready|lia|].
  exists c', s'. split; [exact Hr|]. apply (Hm 1); lia.
Defined.
