(* ===== verification/Unmap.v ===== *)
(** Unmapping and write-protecting a range: which pages of the range the
    multicalls of arch/x86/mm.c cover. *)
From S2P Require Import Prelude Bitmap Xmalloc ArchMM PageTables.
From stdpp Require Import options.

Section Multicall.
Context {M : Type} `{!PageSource M} `{!Machine M}.
Implicit Types s : mmst M.

(** Xen runs the entries of a multicall and reports no error. *)
Definition multicall_law : Prop := forall l s, HYPERVISOR_multicall l s = Some (mm_tell (M_multicall l) s).

Definition with_log (l : list mm_op) s : mmst M := Mmst (p2m s) (frames s) (pool s) l.

Context (Hmc : multicall_law).
Context (args : Z -> mmst M -> res (list Z)) (arg : Z -> list Z) (a ps n : Z) (s0 : mmst M).
Context (Hps : 0 < ps) (Ha : 0 <= a) (Hend : a + n * ps < 2 ^ 64).
Context (Hargs : forall k l, 0 <= k < n -> args (a + k * ps) (with_log l s0) = Ok (arg k)).

Let entry (k : Z) : mc_entry := Mc __HYPERVISOR_update_va_mapping (arg k).

(** The array when page [k] is next and its entry goes to index [i]: entry 0 is
    that of page 0 from then on, the others belong to the current batch. *)
Record batch (k q i : Z) (call : list mc_entry) : Prop := Batch {
  b_pos : k = 1023 * q + i;
  b_q : 0 <= q;
  b_i : 1 <= i <= 1023;
  b_len : length call = Z.to_nat 1024;
  b_zero : call !! 0%nat = Some (entry 0);
  b_rest : forall j, 1 <= j < i -> call !! Z.to_nat j = Some (entry (1023 * q + j))
}.

(** The entries a multicall of [i] of them runs. *)
Lemma batch_take k q i call e :
  batch k q i call ->
  e ∈ take (Z.to_nat i) call <-> exists p, e = entry p /\ (p = 0 \/ 1023 * q < p < k).
Proof.
  intros [-> Hq Hi Hl H0 Hr]. rewrite list_elem_of_lookup. split.
  - intros [j Hj]. apply lookup_take_Some in Hj as [Hj Hji].
    destruct j as [|j]; [rewrite H0 in Hj; injection Hj as <-; exists 0; split; [done|by left]|].
    rewrite <- (Nat2Z.id (S j)), Hr in Hj by lia. injection Hj as <-. eexists. split; [done|]. right. lia.
  - intros (p & -> & [->|Hp]).
    + exists 0%nat. rewrite lookup_take_lt by lia. done.
    + exists (Z.to_nat (p - 1023 * q)). rewrite lookup_take_lt, Hr by lia. do 2 f_equal. lia.
Qed.

Lemma batch_next k q i call :
  batch k q i call -> i < 1023 -> batch (k + 1) q (i + 1) (<[Z.to_nat i := entry k]> call).
Proof.
  intros [-> Hq Hi Hl H0 Hr] Hlt. constructor; [lia|done|lia|by rewrite length_insert| |].
  - rewrite list_lookup_insert_ne by lia. done.
  - intros j Hj. destruct (decide (j = i)) as [->|]; [by rewrite list_lookup_insert_eq by lia|].
    rewrite list_lookup_insert_ne by lia. apply Hr. lia.
Qed.

Lemma batch_wrap k q call : batch k q 1023 call -> batch (k + 1) (q + 1) 1 (<[Z.to_nat 1023 := entry k]> call).
Proof.
  intros [-> Hq Hi Hl H0 Hr]. constructor; [lia|lia|lia|by rewrite length_insert| |intros; lia].
  by rewrite list_lookup_insert_ne.
Qed.

(** The pages whose entries are run from page [k] of batch [q] on. *)
Definition covered (q : Z) (p : Z) : Prop := p = 0 \/ (1023 * q < p < n - 1 /\ ~ (1023 | p)).

Lemma in_batch_no_mult q p : 1023 * q < p < 1023 * (q + 1) -> ~ (1023 | p).
Proof. intros Hp [c ->]. lia. Qed.

Lemma multicall_loop_spec fuel k q i call l :
  batch k q i call -> k < n -> (Z.to_nat (n - k) < fuel)%nat ->
  exists ls, multicall_loop fuel args call i (a + k * ps) (a + n * ps) ps (with_log l s0) =
      Ok (with_log (l ++ map M_multicall ls) s0) /\
    forall e, e ∈ concat ls <-> exists p, e = entry p /\ covered q p.
Proof using Ha Hargs Hend Hmc Hps.
  revert k q i call l. induction fuel as [|fuel IH]; intros k q i call l Hb Hk Hf; [lia|]. cbn [multicall_loop].
  pose proof (b_pos _ _ _ _ Hb). pose proof (b_q _ _ _ _ Hb). pose proof (b_i _ _ _ _ Hb). pose proof (b_len _ _ _ _ Hb).
  rewrite (proj2 (Z.ltb_lt _ _)) by nia. rewrite Hargs by lia. cbn [mbind res_bind].
  destruct (lookup_lt_is_Some_2 call (Z.to_nat i)) as [x Hx]; [lia|]. rewrite Hx. cbn [access mbind res_bind].
  rewrite (wrap_small 64 (a + k * ps + ps)) by nia. replace (a + k * ps + ps) with (a + (k + 1) * ps) by lia.
  assert (forall m, take (Z.to_nat i) (<[Z.to_nat i := m]> call) = take (Z.to_nat i) call) as Htk by (intros; apply take_insert_ge; lia).
  destruct (Z.eqb_spec (a + (k + 1) * ps) (a + n * ps)) as [E|NE].
  - assert (k = n - 1) as -> by nia. rewrite orb_true_r, Hmc, Htk. cbn [must mbind res_bind].
    destruct fuel as [|fuel]; [lia|]. cbn [multicall_loop]. rewrite (proj2 (Z.ltb_ge _ _)) by lia.
    exists [take (Z.to_nat i) call]. split; [done|]. intros e. cbn [concat]. rewrite app_nil_r, (batch_take _ _ _ _ _ Hb).
    split; intros (p & -> & Hp); exists p; (split; [done|]); [|unfold covered in Hp; naive_solver lia].
    destruct Hp as [->|Hp]; [by left|]. right. split; [lia|]. apply (in_batch_no_mult q). lia.
  - assert (k + 1 < n) by nia. rewrite orb_false_r. destruct (Z.eqb_spec i 1023) as [->|Hi].
    + rewrite Hmc, Htk. cbn [must mbind res_bind].
      destruct (IH (k + 1) (q + 1) (0 + 1) (<[Z.to_nat 1023 := entry k]> call) (l ++ [M_multicall (take (Z.to_nat 1023) call)]))
        as (ls & Hrun & Hin); [by apply batch_wrap|lia|lia|].
      exists (take (Z.to_nat 1023) call :: ls). split; [etrans; [exact Hrun|by rewrite <- app_assoc]|].
      intros e. cbn [concat]. rewrite elem_of_app, Hin, (batch_take _ _ _ _ _ Hb). split.
      * intros [(p & -> & Hp)|(p & -> & Hp)]; exists p; (split; [done|]); unfold covered in *; [|naive_solver lia].
        destruct Hp as [->|Hp]; [by left|]. right. split; [lia|]. apply (in_batch_no_mult q). lia.
      * intros (p & -> & [->|[Hp Hnd]]); [left; exists 0; split; [done|by left]|].
        destruct (decide (p < k)); [left; exists p; split; [done|right; lia]|].
        right. exists p. split; [done|]. right. split; [|done]. destruct (decide (p = 1023 * (q + 1))) as [->|]; [|lia].
        exfalso. apply Hnd. by exists (q + 1); lia.
    + apply (IH (k + 1) q (i + 1)); [by apply batch_next; [|lia]|lia|lia].
Qed.

(** A run over [n] pages: page [k] is handed to Xen unless it is the last of the
    range or the last of a batch. *)
Lemma multicall_pages call fuel l :
  length call = Z.to_nat 1024 -> 1 <= n -> (Z.to_nat n < fuel)%nat ->
  exists ls, multicall_loop fuel args call 0 a (a + n * ps) ps (with_log l s0) =
      Ok (with_log (l ++ map M_multicall ls) s0) /\
    forall e, e ∈ concat ls <-> exists p, e = entry p /\ 0 <= p < n - 1 /\ (p = 0 \/ ~ (1023 | p)).
Proof using Ha Hargs Hend Hmc Hps.
  intros Hl Hn Hf. destruct fuel as [|fuel]; [lia|]. cbn [multicall_loop].
  rewrite (proj2 (Z.ltb_lt _ _)) by nia. pose proof (Hargs 0 l) as H0. replace (a + 0 * ps) with a in H0 by lia.
  rewrite H0 by lia. cbn [mbind res_bind]. destruct (lookup_lt_is_Some_2 call (Z.to_nat 0)) as [x Hx]; [lia|].
  rewrite Hx. cbn [access mbind res_bind Z.eqb orb]. rewrite (wrap_small 64 (a + ps)) by nia.
  destruct (Z.eqb_spec (a + ps) (a + n * ps)) as [E|NE].
  - assert (n = 1) as Hn1 by nia. rewrite Hmc. cbn [must mbind res_bind take Z.to_nat].
    destruct fuel as [|fuel]; [lia|]. cbn [multicall_loop]. rewrite (proj2 (Z.ltb_ge _ _)) by lia.
    exists [[]]. split; [done|]. intros e. cbn [concat app]. split; [by intros ?%elem_of_nil|intros (p & _ & ? & _); lia].
  - assert (1 < n) by nia.
    destruct (multicall_loop_spec fuel 1 0 1 (<[Z.to_nat 0 := entry 0]> call) l) as (ls & Hrun & Hin); [|lia|lia|].
    { constructor; [lia..|by rewrite length_insert|by rewrite list_lookup_insert_eq by lia|intros; lia]. }
    exists ls. replace (a + 1 * ps) with (a + ps) in Hrun by lia. split; [done|].
    intros e. rewrite Hin. unfold covered. split; intros (p & -> & Hp); exists p; (split; [done|]).
    + destruct Hp as [->|[? ?]]; [split; [lia|by left]|split; [lia|by right]].
    + destruct Hp as [? [->|Hnd]]; [by left|]. destruct (decide (p = 0)); [by left|]. right. split; [lia|done].
Qed.
End Multicall.

(** [guk_demolish_pagetable] over [n] pages unmaps page [k] of the range
    exactly when [k] is neither the last page of the range nor, from the second
    batch on, the last page of a batch of 1023: every multicall is issued with one
    entry less than were filled in. *)
Lemma demolish_covers {M} `{!PageSource M} `{!Machine M} (s : mmst M) call0 start n fuel :
  multicall_law -> length call0 = Z.to_nat 1024 -> 0 <= start -> 1 <= n -> start + n * PAGE_BYTES < 2 ^ 64 ->
  (Z.to_nat n < fuel)%nat ->
  exists ls, guk_demolish_pagetable fuel call0 start (start + n * PAGE_BYTES) s =
      Ok (with_log (mm_log s ++ map M_multicall ls) s) /\
    forall e, e ∈ concat ls <->
      exists k, e = Mc __HYPERVISOR_update_va_mapping [start + k * PAGE_BYTES; 0; UVMF_ALL_INVLPG] /\
        0 <= k < n - 1 /\ (k = 0 \/ ~ (1023 | k)).
Proof.
  intros Hmc Hl Hs Hn He Hf. unfold guk_demolish_pagetable, demolish_pagetable_vs.
  destruct (multicall_pages Hmc (fun va _ => Ok [va; 0; UVMF_ALL_INVLPG])
    (fun k => [start + k * PAGE_BYTES; 0; UVMF_ALL_INVLPG]) start PAGE_BYTES n s) with (call := call0) (fuel := fuel) (l := mm_log s)
    as (ls & Hrun & Hin); try done; [].
  exists ls. split; [|exact Hin]. by destruct s.
Qed.

Lemma demolish_covers_witness :
  exists ls, guk_demolish_pagetable 4 (replicate (Z.to_nat 1024) (Mc 0 [])) 8192 (8192 + 3 * PAGE_BYTES) demo_mm =
      Ok (with_log (map M_multicall ls) demo_mm) /\
    Mc 14 [12288; 0; 3] ∈ concat ls /\ Mc 14 [16384; 0; 3] ∉ concat ls.
Proof.
  destruct (demolish_covers demo_mm (replicate (Z.to_nat 1024) (Mc 0 [])) 8192 3 4) as (ls & Hr & Hin);
    [done|apply length_replicate|lia|lia|unfold PAGE_BYTES; lia|lia|].
  exists ls. splits; [exact Hr| |].
  - apply Hin. exists 1. splits; [done|lia|lia|]. right. intros [c Hc]. lia.
  - intros (k & E & Hk & _)%Hin. injection E as E. unfold PAGE_BYTES in E. lia.
Defined.

(** The batches of [guk_write_protect] are those of [guk_demolish_pagetable]: the
    last page of the range stays writable. *)
Lemma write_protect_covers {M} `{!PageSource M} `{!Machine M} root T (s : mmst M) call0 start n fuel :
  multicall_law -> (forall l, pt_ok root T (with_log l s)) -> length call0 = Z.to_nat 1024 ->
  0 <= start -> 1 <= n -> start + n * PAGE_BYTES <= 2 ^ 48 ->
  (forall k, 0 <= k < n -> is_Some (translation root s (start + k * PAGE_BYTES))) -> (Z.to_nat n < fuel)%nat ->
  exists ls, guk_write_protect fuel call0 start (start + n * PAGE_BYTES) s =
      Ok (with_log (mm_log s ++ map M_multicall ls) s) /\
    forall e, e ∈ concat ls <->
      exists k, e = Mc __HYPERVISOR_update_va_mapping
          [start + k * PAGE_BYTES; Z.land (default 0 (translation root s (start + k * PAGE_BYTES))) (wrap64 (Z.lnot _PAGE_RW)); 0] /\
        0 <= k < n - 1 /\ (k = 0 \/ ~ (1023 | k)).
Proof.
  intros Hmc Hok Hl Hs Hn He Htr Hf. unfold guk_write_protect, write_protect_vs.
  destruct (multicall_pages Hmc write_protect_args
    (fun k => [start + k * PAGE_BYTES; Z.land (default 0 (translation root s (start + k * PAGE_BYTES))) (wrap64 (Z.lnot _PAGE_RW)); 0])
    start PAGE_BYTES n s) with (call := call0) (fuel := fuel) (l := mm_log s) as (ls & Hrun & Hin); try done; [unfold PAGE_BYTES in *; lia| |].
  - intros k l Hk. unfold write_protect_args. rewrite (not11_spec root T) by (done || (unfold PAGE_BYTES in *; lia)).
    change (translation root (with_log l s)) with (translation root s). destruct (Htr k Hk) as [pte ->]. done.
  - exists ls. split; [|exact Hin]. by destruct s.
Qed.
