(* ===== verification/Console.v ===== *)
(** The console: console/xencons_ring.c (the rings shared with the console daemon) and
    console/console.c (printing with line ends converted, reading).

    The layout of the shared page comes from Xen's public header io/console.h: the class
    [xencons] has the sizes of its two rings and the macro for their slots.  The daemon takes
    bytes from the output ring while the kernel prints: a list says how many it has taken
    before each call of the send function.  Locks around the functions are not modelled. *)
From Stdlib Require Import String.
From S2P Require Import Prelude CString Printf PrintfProps ByteRing.
From stdpp Require Import options.
Open Scope Z_scope.
Open Scope list_scope.

Class xencons := {
  IN_SIZE : Z;
  OUT_SIZE : Z;
  MASK_XENCONS_IDX : Z -> Z -> Z
}.

(** The rings are powers of two, and an index is masked with the size of its ring. *)
Class xencons_ok (X : xencons) : Prop := {
  in_pow : PowSize IN_SIZE;
  out_pow : PowSize OUT_SIZE;
  mask_idx i size : 0 <= i -> PowSize size -> MASK_XENCONS_IDX i size = i mod size
}.
#[export] Existing Instance in_pow.
#[export] Existing Instance out_pow.

(** [struct xencons_interface] *)
Record xencons_interface := Intf {
  c_in : list Z; c_out : list Z;
  in_cons : Z; in_prod : Z; out_cons : Z; out_prod : Z
}.

(** The shared page, the bytes the daemon has taken, the number of events sent to it, what was
    printed to the console of the hypervisor, and the variables of console.c. *)
Record console := Console {
  intf : xencons_interface;
  taken : list Z;
  notified : Z;
  hyp_out : list Z;
  console_initialised : bool;
  console_dying : bool;
  send_notifies : bool     (** xencons_ring_send_fn is xencons_ring_send *)
}.

Definition set_intf (r : xencons_interface) (s : console) : console :=
  Console r (taken s) (notified s) (hyp_out s) (console_initialised s) (console_dying s) (send_notifies s).
Definition xencons_notify_daemon (s : console) : console :=
  Console (intf s) (taken s) (notified s + 1) (hyp_out s) (console_initialised s) (console_dying s) (send_notifies s).
Definition set_dying (s : console) : console :=
  Console (intf s) (taken s) (notified s) (hyp_out s) (console_initialised s) true (send_notifies s).
Definition HYPERVISOR_console_io (data : list Z) (s : console) : console :=
  Console (intf s) (taken s) (notified s) (hyp_out s ++ data) (console_initialised s) (console_dying s) (send_notifies s).

Section Code.
Context {X : xencons}.

(** ** xencons_ring.c *)

Definition out_used (r : xencons_interface) : Z := wrap32 (out_prod r - out_cons r).
Definition in_used (r : xencons_interface) : Z := wrap32 (in_prod r - in_cons r).

(** What the daemon does: it takes at most [k] bytes. *)
Definition daemon (k : Z) (s : console) : console :=
  let r := intf s in
  let n := Z.min k (out_used r) in
  Console (Intf (c_in r) (c_out r) (in_cons r) (in_prod r) (wrap32 (out_cons r + n)) (out_prod r))
    (taken s ++ slots OUT_SIZE (c_out r) (out_cons r) n) (notified s) (hyp_out s) (console_initialised s) (console_dying s) (send_notifies s).

Definition xencons_ring_avail (r : xencons_interface) : res Z :=
  _ ← bug_on (IN_SIZE <? in_used r);
  Ok (sgn32 (in_prod r - in_cons r)).

Fixpoint send_loop (fuel : nat) (data : list Z) (len sent cons prod : Z) (out : list Z) : res (Z * Z * list Z) :=
  if (sent <? len) && (wrap32 (prod - cons) <? OUT_SIZE) then
    match fuel with
    | O => Fuel
    | S fuel =>
        c ← elem data sent;
        out ← set_elem out (MASK_XENCONS_IDX prod OUT_SIZE) c;
        send_loop fuel data len (sent + 1) cons (wrap32 (prod + 1)) out
    end
  else Ok (sent, prod, out).

Definition xencons_ring_send_no_notify (data : list Z) (len : Z) (s : console) : res (Z * console) :=
  let r := intf s in
  _ ← bug_on (OUT_SIZE <? out_used r);
  '(sent, prod, out) ← send_loop (Z.to_nat len) data len 0 (out_cons r) (out_prod r) (c_out r);
  Ok (sent, set_intf (Intf (c_in r) out (in_cons r) (in_prod r) (out_cons r) prod) s).

Definition xencons_ring_send (data : list Z) (len : Z) (s : console) : res (Z * console) :=
  '(sent, s) ← xencons_ring_send_no_notify data len s;
  Ok (sent, xencons_notify_daemon s).

Definition xencons_ring_send_fn (data : list Z) (len : Z) (s : console) : res (Z * console) :=
  if send_notifies s then xencons_ring_send data len s else xencons_ring_send_no_notify data len s.

Fixpoint recv_loop (fuel : nat) (r : xencons_interface) (len filled : Z) (data : list Z) : res (Z * list Z) :=
  if (filled <? len) && negb (wrap32 (in_cons r + filled) =? in_prod r) then
    match fuel with
    | O => Fuel
    | S fuel =>
        c ← elem (c_in r) (MASK_XENCONS_IDX (wrap32 (in_cons r + filled)) IN_SIZE);
        data ← set_elem data filled c;
        recv_loop fuel r len (filled + 1) data
    end
  else Ok (filled, data).

(** The number of bytes and the buffer. *)
Definition xencons_ring_recv (data : list Z) (len : Z) (s : console) : res (Z * list Z * console) :=
  let r := intf s in
  _ ← bug_on (IN_SIZE <? in_used r);
  '(filled, data) ← recv_loop (Z.to_nat len) r len 0 data;
  let r := Intf (c_in r) (c_out r) (wrap32 (in_cons r + filled)) (in_prod r) (out_cons r) (out_prod r) in
  Ok (filled, data, xencons_notify_daemon (set_intf r s)).

(** ** console.c *)

Definition init_overflow : list Z := str "[BUG: too much printout before console is initialised!]"%string ++ [13; 10].

(** [ds]: how much the daemon takes before each call. *)
Fixpoint checked_print (ds : list Z) (data : list Z) (length : Z) (s : console) : res (console * list Z) :=
  if 0 <? length then
    match ds with
    | [] => Fuel
    | d :: ds =>
        '(printed, s) ← xencons_ring_send_fn data length (daemon d s);
        checked_print ds (drop (Z.to_nat printed) data) (length - printed) s
    end
  else Ok (s, ds).

(** The loop over the characters but the last; the memory is that of the caller. *)
Fixpoint print_loop (fuel : nat) (curr data length : Z) (mem ds : list Z) (s : console) : res (Z * Z * list Z * list Z * console) :=
  if curr <? data + length - 1 then
    match fuel with
    | O => Fuel
    | S fuel =>
        c ← elem mem curr;
        if c =? 10 then
          saved ← elem mem (curr + 1);
          mem ← set_elem mem curr 13;
          mem ← set_elem mem (curr + 1) 10;
          let part_len := curr - data + 2 in
          '(s, ds) ← checked_print ds (drop (Z.to_nat data) mem) part_len s;
          mem ← set_elem mem (curr + 1) saved;
          mem ← set_elem mem curr 10;
          print_loop fuel (curr + 1) (curr + 1) (length - (part_len - 1)) mem ds s
        else print_loop fuel (curr + 1) data length mem ds s
    end
  else Ok (data, length, mem, ds, s).

(** The buffer starts at index 0 of the memory.  The comparison with [strlen(init_overflow)]
    is one of 64-bit unsigned numbers. *)
Definition console_print (mem : list Z) (len : Z) (ds : list Z) (s : console) : res (list Z * list Z * console) :=
  if console_dying s then Ok (mem, ds, s)
  else
    avail ← (if console_initialised s then Ok 0 else xencons_ring_avail (intf s));
    if negb (console_initialised s) && (wrap64 (sgn32 (avail - len)) <? Z.of_nat (List.length init_overflow)) then
      let s := HYPERVISOR_console_io init_overflow (set_dying s) in
      '(_, s) ← xencons_ring_send init_overflow (Z.of_nat (List.length init_overflow)) s;
      Bug BUG_ON
    else
      '(data, len, mem, ds, s) ← print_loop (Z.to_nat len) 0 0 len mem ds s;
      c ← elem mem (data + len - 1);
      if c =? 10 then
        '(s, ds) ← checked_print ds (drop (Z.to_nat data) mem) (len - 1) s;
        '(s, ds) ← checked_print ds [13; 10] 2 s;
        Ok (mem, ds, s)
      else
        '(s, ds) ← checked_print ds (drop (Z.to_nat data) mem) len s;
        Ok (mem, ds, s).

Definition guk_printbytes (mem : list Z) (len : Z) (ds : list Z) (s : console) : res (list Z * list Z * console) :=
  console_print mem len ds s.

(** [buf] and [contents]: the address and the contents of the static buffer. *)
Definition guk_cprintk (buf : Z) (tohyp : bool) (fmt : list Z) (args : list arg) (contents ds : list Z) (s : console)
    : res (list Z * list Z * console) :=
  '(_, contents, _) ← vsnprintf buf contents 1024 fmt args;
  n ← strlen contents;
  if tohyp then Ok (contents, ds, HYPERVISOR_console_io (take (Z.to_nat n) contents) s)
  else console_print contents n ds s.

Definition guk_printk (buf : Z) (fmt : list Z) (args : list arg) := guk_cprintk buf false fmt args.
Definition guk_xprintk (buf : Z) (fmt : list Z) (args : list arg) := guk_cprintk buf true fmt args.

(** What the daemon puts on the input ring while the kernel does not look. *)
Fixpoint put_input (bs : list Z) (r : xencons_interface) : xencons_interface :=
  match bs with
  | [] => r
  | b :: bs =>
      put_input bs (Intf (<[Z.to_nat (in_prod r mod IN_SIZE) := b]> (c_in r)) (c_out r) (in_cons r) (wrap32 (in_prod r + 1)) (out_cons r) (out_prod r))
  end.

(** The loop of guk_console_readbytes: [arrivals] is what arrives while the thread is not
    running, before each of its turns. *)
Fixpoint wait_input (arrivals : list (list Z)) (buf : list Z) (len : Z) (s : console) : res (Z * list Z * console) :=
  match arrivals with
  | [] => Fuel
  | bs :: arrivals =>
      '(result, buf, s) ← xencons_ring_recv buf len (set_intf (put_input bs (intf s)) s);
      if result =? 0 then wait_input arrivals buf len s else Ok (result, buf, s)
  end.

Definition guk_console_readbytes (arrivals : list (list Z)) (buf : list Z) (len : Z) (s : console) : res (Z * list Z * console) :=
  avail ← xencons_ring_avail (intf s);
  if negb (avail =? 0) then xencons_ring_recv buf len s else wait_input arrivals buf len s.

(** [evtchn]: the port of the console in the start information; [err]: what bind_evtchn
    returns for it. *)
Definition xencons_ring_init (evtchn err : Z) (s : console) : Z * console :=
  if evtchn =? 0 then (0, s) else if err <=? 0 then (err, s) else (0, xencons_notify_daemon s).

Definition init_console (evtchn err : Z) (s : console) : console :=
  let '(_, s) := xencons_ring_init evtchn err s in
  Console (intf s) (taken s) (notified s) (hyp_out s) true (console_dying s) true.
End Code.

(** ** The output ring *)
Section Spec.
Context {X : xencons} {XO : xencons_ok X}.

Record intf_ok (r : xencons_interface) : Prop := {
  ok_in : Z.of_nat (List.length (c_in r)) = IN_SIZE;
  ok_out : Z.of_nat (List.length (c_out r)) = OUT_SIZE;
  ok_in_cons : 0 <= in_cons r < 2 ^ 32; ok_in_prod : 0 <= in_prod r < 2 ^ 32;
  ok_out_cons : 0 <= out_cons r < 2 ^ 32; ok_out_prod : 0 <= out_prod r < 2 ^ 32;
  ok_in_used : in_used r <= IN_SIZE; ok_out_used : out_used r <= OUT_SIZE
}.

(** What the daemon has taken and will take: everything that was sent. *)
Definition sent_bytes (s : console) : list Z := taken s ++ slots OUT_SIZE (c_out (intf s)) (out_cons (intf s)) (out_used (intf s)).

(** The bytes that wait to be read. *)
Definition input_bytes (r : xencons_interface) : list Z := slots IN_SIZE (c_in r) (in_cons r) (in_used r).

Lemma out_used_range r : 0 <= out_used r.
Proof using. apply wrap_range. lia. Qed.

Lemma daemon_spec k s : intf_ok (intf s) -> 0 <= k ->
  intf_ok (intf (daemon k s)) /\ sent_bytes (daemon k s) = sent_bytes s
  /\ out_used (intf (daemon k s)) = out_used (intf s) - Z.min k (out_used (intf s))
  /\ input_bytes (intf (daemon k s)) = input_bytes (intf s).
Proof using XO.
  intros [H1 H2 H3 H4 H5 H6 H7 H8] Hk. pose proof (out_used_range (intf s)) as Hu. set (n := Z.min k (out_used (intf s))).
  pose proof (size_bounds (size := OUT_SIZE)) as [Hs _].
  assert (out_used (intf (daemon k s)) = out_used (intf s) - n) as Eu.
  { unfold out_used. cbn. fold n. unfold wrap. rewrite Zminus_mod_idemp_r.
    replace (out_prod (intf s) - (out_cons (intf s) + n)) with ((out_prod (intf s) - out_cons (intf s)) - n) by lia.
    rewrite Zminus_mod. fold (out_used (intf s)). change ((out_prod (intf s) - out_cons (intf s)) mod 2 ^ 32) with (out_used (intf s)).
    rewrite (Z.mod_small n) by lia. apply Z.mod_small. lia. }
  split_and!; [split; try done | | done | done].
  - cbn. apply wrap_range. lia.
  - rewrite Eu. lia.
  - unfold sent_bytes. rewrite Eu. cbn. fold n. rewrite (slots_taken _ _ (out_used (intf s)) n) by lia. by rewrite app_assoc.
Qed.

Lemma send_loop_spec data len c fuel : forall sent used out,
  0 <= c < 2 ^ 32 -> 0 <= used <= OUT_SIZE -> Z.of_nat (List.length out) = OUT_SIZE -> 0 <= sent <= len -> len <= Z.of_nat (List.length data) ->
  len - sent <= Z.of_nat fuel ->
  let n := Z.min (len - sent) (OUT_SIZE - used) in
  exists out', send_loop fuel data len sent c (wrap32 (c + used)) out = Ok (sent + n, wrap32 (c + used + n), out')
    /\ Z.of_nat (List.length out') = OUT_SIZE
    /\ slots OUT_SIZE out' c (used + n) = slots OUT_SIZE out c used ++ take (Z.to_nat n) (drop (Z.to_nat sent) data).
Proof using XO.
  induction fuel as [|f IH]; intros sent used out Hc Hu Hl Hsent Hlen Hf n; cbn [send_loop];
    rewrite (wrap32_used (size := OUT_SIZE)) by done.
  - assert (sent = len) as -> by lia. rewrite Z.ltb_irrefl. cbn [andb]. exists out. assert (n = 0) as -> by lia.
    rewrite !Z.add_0_r, app_nil_r. done.
  - destruct (Z.ltb_spec sent len) as [Hlt | Hge]; cbn [andb].
    2:{ exists out. assert (n = 0) as -> by lia. rewrite !Z.add_0_r, app_nil_r. done. }
    destruct (Z.ltb_spec used OUT_SIZE) as [Hlu | Hgu].
    2:{ exists out. assert (n = 0) as -> by lia. rewrite !Z.add_0_r, app_nil_r. done. }
    rewrite (elem_nth data sent 0) by lia. cbn [mbind res_bind].
    rewrite mask_idx, (wrap32_mod_size (size := OUT_SIZE)) by (apply _ || apply wrap_range; lia).
    pose proof (mod_size_range (size := OUT_SIZE) (c + used)) as Hm. rewrite set_elem_eq by lia. cbn [mbind res_bind].
    rewrite wrap_add_l. replace (c + used + 1) with (c + (used + 1)) by lia.
    destruct (IH (sent + 1) (used + 1) (<[Z.to_nat ((c + used) mod OUT_SIZE) := nth (Z.to_nat sent) data 0]> out)) as (out' & E & Hl' & Es);
      [done | lia | by rewrite length_insert | lia | done | lia |].
    exists out'. rewrite E. set (n' := Z.min (len - (sent + 1)) (OUT_SIZE - (used + 1))) in *. assert (n = 1 + n') as -> by lia.
    split; [replace (sent + (1 + n')) with (sent + 1 + n') by lia; by replace (c + used + (1 + n')) with (c + (used + 1) + n') by lia|]. split; [done|].
    replace (used + (1 + n')) with (used + 1 + n') by lia. rewrite Es, slots_push by lia. rewrite <- app_assoc. f_equal. cbn.
    replace (Z.to_nat (1 + n')) with (S (Z.to_nat n')) by lia. replace (Z.to_nat (sent + 1)) with (S (Z.to_nat sent)) by lia.
    destruct (lookup_lt_is_Some_2 data (Z.to_nat sent)) as [x Hx]; [lia|]. rewrite (drop_S _ _ _ Hx). cbn. f_equal.
    by apply nth_lookup_Some.
Qed.

Lemma send_spec data len s : intf_ok (intf s) -> 0 <= len <= Z.of_nat (List.length data) ->
  let n := Z.min len (OUT_SIZE - out_used (intf s)) in
  exists s', xencons_ring_send_fn data len s = Ok (n, s') /\ intf_ok (intf s')
    /\ sent_bytes s' = sent_bytes s ++ take (Z.to_nat n) data
    /\ send_notifies s' = send_notifies s /\ hyp_out s' = hyp_out s /\ input_bytes (intf s') = input_bytes (intf s).
Proof using XO.
  intros Hok Hlen n. pose proof Hok as [H1 H2 H3 H4 H5 H6 H7 H8]. pose proof (out_used_range (intf s)) as Hu.
  pose proof (size_bounds (size := OUT_SIZE)) as [Hs _].
  assert (out_prod (intf s) = wrap32 (out_cons (intf s) + out_used (intf s))) as Ep.
  { unfold out_used, wrap. rewrite Zplus_mod_idemp_r. replace (_ + (_ - _)) with (out_prod (intf s)) by lia. symmetry. by apply Z.mod_small. }
  destruct (send_loop_spec data len (out_cons (intf s)) (Z.to_nat len) 0 (out_used (intf s)) (c_out (intf s))) as (out & E & Hl & Es); [done | lia | done | lia | lia | lia |].
  rewrite Z.sub_0_r in E, Es. fold n in E, Es. rewrite <- Ep in E.
  set (r := Intf (c_in (intf s)) out (in_cons (intf s)) (in_prod (intf s)) (out_cons (intf s)) (wrap32 (out_cons (intf s) + out_used (intf s) + n))).
  assert (out_used r = out_used (intf s) + n) as Eu.
  { unfold out_used at 1. cbn. rewrite <- Z.add_assoc. apply (wrap32_used (size := OUT_SIZE)); lia. }
  assert (intf_ok r) as Hr by (split; try done; [apply wrap_range; lia | rewrite Eu; lia]).
  assert (xencons_ring_send_no_notify data len s = Ok (n, set_intf r s)) as E1.
  { unfold xencons_ring_send_no_notify. rewrite (proj2 (Z.ltb_ge _ _)) by lia. cbn [bug_on mbind res_bind]. by rewrite E. }
  assert (sent_bytes (set_intf r s) = sent_bytes s ++ take (Z.to_nat n) data) as Eb.
  { unfold sent_bytes. cbn [intf set_intf taken]. rewrite Eu. cbn [c_out out_cons r]. by rewrite Es, drop_0, app_assoc. }
  unfold xencons_ring_send_fn, xencons_ring_send. rewrite E1. destruct (send_notifies s) eqn:En; (eexists; split; [done|]); (split; [done|]); (split; [done|]); done.
Qed.

(** What printing to the ring does not touch. *)
Definition prints (s s' : console) (bs : list Z) : Prop :=
  intf_ok (intf s') /\ sent_bytes s' = sent_bytes s ++ bs /\ send_notifies s' = send_notifies s
  /\ hyp_out s' = hyp_out s /\ input_bytes (intf s') = input_bytes (intf s).

Lemma prints_nil s : intf_ok (intf s) -> prints s s [].
Proof using. intros H. split; [done|]. by rewrite app_nil_r. Qed.

Lemma prints_trans s1 s2 s3 a c : prints s1 s2 a -> prints s2 s3 c -> prints s1 s3 (a ++ c).
Proof using. intros (_ & A2 & A3 & A4 & A5) (B1 & B2 & B3 & B4 & B5). split; [done|]. rewrite B2, A2, app_assoc. split; [done|]. split_and!; congruence. Qed.

(** The daemon takes at least one byte between two calls, and long enough. *)
Definition drains (ds : list Z) (n : Z) : Prop := Forall (fun d => 1 <= d) ds /\ n <= Z.of_nat (List.length ds).

Lemma checked_print_spec ds : forall data len n s, intf_ok (intf s) -> 0 <= n -> drains ds (Z.max 0 len + n) -> len <= Z.of_nat (List.length data) ->
  exists s' ds', checked_print ds data len s = Ok (s', ds') /\ drains ds' n /\ prints s s' (take (Z.to_nat len) data).
Proof using XO.
  induction ds as [|d ds IH]; intros data len n s Hok Hn0 [Hd Hn] Hlen; cbn [checked_print]; (destruct (Z.ltb_spec 0 len) as [Hl | Hl];
    [|eexists _, _; split; [done|]; split; [split; [done | lia]|]; replace (Z.to_nat len) with O by lia; by apply prints_nil]).
  - cbn in Hn. lia.
  - apply Forall_cons in Hd as [Hd0 Hd]. cbn [List.length] in Hn.
    destruct (daemon_spec d s Hok) as (Hok1 & E1 & Eu & Ei); [lia|]. pose proof (out_used_range (intf s)) as Hu. pose proof (ok_out_used _ Hok) as Hu2.
    pose proof (size_bounds (size := OUT_SIZE)) as [Hs _].
    destruct (send_spec data len (daemon d s) Hok1) as (s1 & -> & Hok2 & E2 & En & Eh & Ei2); [lia|]. cbn [mbind res_bind].
    set (k := Z.min len (OUT_SIZE - out_used (intf (daemon d s)))) in *. assert (1 <= k <= len) as Hk by lia.
    destruct (IH (drop (Z.to_nat k) data) (len - k) n s1) as (s2 & ds' & -> & Hds & Hp); [done | done | split; [done | lia] | rewrite length_drop; lia |].
    exists s2, ds'. split; [done|]. split; [done|].
    replace (take (Z.to_nat len) data) with (take (Z.to_nat k) data ++ take (Z.to_nat (len - k)) (drop (Z.to_nat k) data)).
    + eapply prints_trans; [|exact Hp]. split; [done|]. rewrite E2, E1. split; [done|]. split_and!; [by rewrite En | by rewrite Eh | by rewrite Ei2, Ei].
    + rewrite take_take_drop. f_equal. lia.
Qed.

(** ** Line ends *)

(** The bytes printed for a text. *)
Fixpoint crlf (l : list Z) : list Z :=
  match l with
  | [] => []
  | c :: l => if c =? 10 then 13 :: 10 :: crlf l else c :: crlf l
  end.

Lemma crlf_app a c : crlf (a ++ c) = crlf a ++ crlf c.
Proof using. induction a as [|x a IH]; [done|]. cbn. rewrite IH. by destruct (x =? 10). Qed.

Lemma crlf_plain a : Forall (fun c => c <> 10) a -> crlf a = a.
Proof using. induction 1 as [|x a Hx _ IH]; [done|]. cbn. by rewrite (proj2 (Z.eqb_neq x 10) Hx), IH. Qed.

Lemma crlf_length a : (List.length a <= List.length (crlf a))%nat.
Proof using. induction a as [|x a IH]; [done|]. cbn. destruct (x =? 10); cbn; lia. Qed.

(** [mem[i..j)] *)
Definition slice (mem : list Z) (i j : Z) : list Z := take (Z.to_nat (j - i)) (drop (Z.to_nat i) mem).

Lemma slice_app mem i j k : 0 <= i <= j -> j <= k -> slice mem i k = slice mem i j ++ slice mem j k.
Proof using.
  intros Hi Hk. unfold slice. replace (Z.to_nat j) with (Z.to_nat i + Z.to_nat (j - i))%nat by lia. rewrite <- drop_drop, take_take_drop. f_equal. lia.
Qed.

Lemma slice_one mem i x : 0 <= i -> mem !! Z.to_nat i = Some x -> slice mem i (i + 1) = [x].
Proof using. intros Hi Hx. unfold slice. rewrite (drop_S _ _ _ Hx). by replace (Z.to_nat (i + 1 - i)) with 1%nat by lia. Qed.

Lemma slice_nil mem i : slice mem i i = [].
Proof using. unfold slice. by rewrite Z.sub_diag. Qed.

(** The two characters that the loop puts into the buffer before it prints a line. *)
Lemma line_slice mem i j x y : 0 <= i <= j -> mem !! Z.to_nat j = Some x -> mem !! Z.to_nat (j + 1) = Some y ->
  take (Z.to_nat (j - i + 2)) (drop (Z.to_nat i) (<[Z.to_nat (j + 1) := 10]> (<[Z.to_nat j := 13]> mem))) = slice mem i j ++ [13; 10].
Proof using.
  intros Hi Hx Hy. pose proof (lookup_lt_Some _ _ _ Hy) as Hl. set (m := <[_ := 10]> _).
  assert (forall k, Z.of_nat k < j -> m !! k = mem !! k) as Hm by (intros k Hk; subst m; rewrite !list_lookup_insert_ne by lia; done).
  fold (slice m i (j + 2)). replace (j - i + 2) with (j + 2 - i) by lia. fold (slice m i (j + 2)).
  rewrite (slice_app m i j (j + 2)), (slice_app m j (j + 1) (j + 2)) by lia. f_equal.
  - unfold slice. apply list_eq. intros k. destruct (decide (k < Z.to_nat (j - i))%nat) as [Hk | Hk].
    + rewrite !lookup_take_lt, !lookup_drop by lia. apply Hm. lia.
    + rewrite !lookup_take_ge by lia. done.
  - rewrite (slice_one m j 13) by (lia || subst m; rewrite list_lookup_insert_ne, list_lookup_insert_eq by lia; done).
    replace (j + 2) with (j + 1 + 1) by lia. rewrite (slice_one m (j + 1) 10); [done | lia|]. subst m. apply list_lookup_insert_eq. rewrite length_insert. lia.
Qed.

(** The buffer gets its characters back. *)
Lemma line_restored (mem : list Z) j y : 0 <= j -> mem !! Z.to_nat j = Some 10 -> mem !! Z.to_nat (j + 1) = Some y ->
  <[Z.to_nat j := 10]> (<[Z.to_nat (j + 1) := y]> (<[Z.to_nat (j + 1) := 10]> (<[Z.to_nat j := 13]> mem))) = mem.
Proof using.
  intros Hj Hx Hy. rewrite list_insert_insert_eq, (list_insert_insert_ne _ (Z.to_nat j) (Z.to_nat (j + 1))) by lia.
  rewrite list_insert_insert_eq, (list_insert_id mem _ 10) by done. by apply list_insert_id.
Qed.

(** The loop: [data] is where the current line starts; what is before it has been printed. *)
Lemma print_loop_spec mem e n fuel : forall curr data len ds s, intf_ok (intf s) -> 0 <= n ->
  0 <= data <= curr -> data + len = e -> curr < e -> e <= Z.of_nat (List.length mem) -> e - 1 - curr <= Z.of_nat fuel ->
  Forall (fun c => c <> 10) (slice mem data curr) ->
  drains ds (Z.of_nat (List.length (crlf (slice mem data (e - 1)))) + n) ->
  exists data' len' ds' s' bs, print_loop fuel curr data len mem ds s = Ok (data', len', mem, ds', s')
    /\ data' + len' = e /\ data <= data' < e /\ Forall (fun c => c <> 10) (slice mem data' (e - 1))
    /\ prints s s' bs /\ bs ++ slice mem data' (e - 1) = crlf (slice mem data (e - 1))
    /\ drains ds' (e - 1 - data' + n).
Proof using XO.
  induction fuel as [|f IH]; intros curr data len ds s Hok Hn Hd He Hc Hm Hf Hplain Hdr; cbn [print_loop];
    (destruct (Z.ltb_spec curr (data + len - 1)) as [Hl | Hl];
      [|assert (curr = e - 1) as -> by lia; exists data, len, ds, s, []; rewrite (crlf_plain _ Hplain) in Hdr |- *;
        split; [done|]; split; [lia|]; split; [lia|]; split; [done|]; split; [by apply prints_nil|]; split; [done|];
        replace (e - 1 - data) with (Z.of_nat (List.length (slice mem data (e - 1)))); [done|];
        unfold slice; rewrite length_take, length_drop; lia]).
  - lia.
  - destruct (lookup_lt_is_Some_2 mem (Z.to_nat curr)) as [x Hx]; [lia|].
    rewrite (elem_eq mem curr x) by (done || lia). cbn [mbind res_bind].
    pose proof (slice_app mem data curr (curr + 1)) as E1. rewrite (slice_one mem curr x) in E1 by (done || lia).
    destruct (Z.eqb_spec x 10) as [-> | Hne].
    + destruct (lookup_lt_is_Some_2 mem (Z.to_nat (curr + 1))) as [y Hy]; [lia|].
      rewrite (elem_eq mem (curr + 1) y) by (done || lia). cbn [mbind res_bind].
      do 2 (rewrite set_elem_eq by (rewrite ?length_insert; lia); cbn [mbind res_bind]).
      assert (crlf (slice mem data (e - 1)) = slice mem data curr ++ [13; 10] ++ crlf (slice mem (curr + 1) (e - 1))) as Ec.
      { rewrite (slice_app mem data (curr + 1) (e - 1)), E1, !crlf_app, (crlf_plain _ Hplain) by lia. by rewrite <- app_assoc. }
      rewrite Ec, !length_app in Hdr. cbn [List.length] in Hdr.
      assert (Z.of_nat (List.length (slice mem data curr)) = curr - data) as El by (unfold slice; rewrite length_take, length_drop; lia).
      set (rest := Z.of_nat (List.length (crlf (slice mem (curr + 1) (e - 1)))) + n) in *.
      destruct (checked_print_spec ds (drop (Z.to_nat data) (<[Z.to_nat (curr + 1) := 10]> (<[Z.to_nat curr := 13]> mem))) (curr - data + 2) rest s)
        as (s1 & ds1 & -> & Hdr1 & Hp1); [done | lia | destruct Hdr; split; [done | lia] | rewrite length_drop, !length_insert; lia |].
      cbn [mbind res_bind]. do 2 (rewrite set_elem_eq by (rewrite ?length_insert; lia); cbn [mbind res_bind]).
      rewrite (line_slice mem data curr 10 y), line_restored in * by (done || lia). replace (len - (curr - data + 2 - 1)) with (len - (curr - data + 1)) by lia.
      destruct (IH (curr + 1) (curr + 1) (len - (curr - data + 1)) ds1 s1) as (data' & len' & ds2 & s2 & bs & -> & H1 & H2 & H3 & H4 & H5 & H6);
        [by destruct Hp1 | done | lia | lia | lia | done | lia | rewrite slice_nil; constructor | done |].
      exists data', len', ds2, s2, ((slice mem data curr ++ [13; 10]) ++ bs). split; [done|]. split; [done|]. split; [lia|]. split; [done|].
      split; [by eapply prints_trans|]. split; [|done]. by rewrite Ec, <- !app_assoc, H5.
    + apply IH; [done | done | lia | done | lia | done | lia | | done]. rewrite E1 by lia. apply Forall_app. split; [done|]. by constructor.
Qed.

Lemma checked_print_part mem data len e n ds s : intf_ok (intf s) -> 0 <= n -> 0 <= data -> data + len = e -> 0 <= len -> e <= Z.of_nat (List.length mem) ->
  drains ds (len + n) ->
  exists s' ds', checked_print ds (drop (Z.to_nat data) mem) len s = Ok (s', ds') /\ drains ds' n /\ prints s s' (slice mem data e).
Proof using XO.
  intros Hok Hn Hd He Hlen Hm Hdr. destruct (checked_print_spec ds (drop (Z.to_nat data) mem) len n s) as (s' & ds' & E & Hdr' & Hp);
    [done | done | by rewrite Z.max_r | rewrite length_drop; lia |].
  exists s', ds'. split; [done|]. split; [done|]. unfold slice. by replace (e - data) with len by lia.
Qed.

(** ** Input *)

Lemma in_used_range r : 0 <= in_used r.
Proof using. apply wrap_range. lia. Qed.

(** The indices are equal when everything was read. *)
Lemma read_all r k : intf_ok r -> 0 <= k <= in_used r -> (wrap32 (in_cons r + k) =? in_prod r) = (k =? in_used r).
Proof using XO.
  intros [H1 H2 H3 H4 H5 H6 H7 H8] Hk. pose proof (size_bounds (size := IN_SIZE)) as [Hs _].
  assert (in_prod r = wrap32 (in_cons r + in_used r)) as ->.
  { unfold in_used, wrap. rewrite Zplus_mod_idemp_r. replace (_ + (_ - _)) with (in_prod r) by lia. symmetry. by apply Z.mod_small. }
  destruct (Z.eqb_spec k (in_used r)) as [-> | Hne]; [by rewrite Z.eqb_refl|]. apply Z.eqb_neq. intros E. apply Hne.
  assert (in_cons r + k = in_cons r + in_used r); [|lia]. apply (mod_inj (2 ^ 32)); [lia | lia | exact E].
Qed.

Lemma recv_loop_spec r len fuel : forall filled data, intf_ok r -> 0 <= filled <= len -> filled <= in_used r -> len <= Z.of_nat (List.length data) ->
  len - filled <= Z.of_nat fuel ->
  let n := Z.min len (in_used r) in
  recv_loop fuel r len filled data = Ok (n, take (Z.to_nat filled) data ++ drop (Z.to_nat filled) (slots IN_SIZE (c_in r) (in_cons r) n) ++ drop (Z.to_nat n) data).
Proof using XO.
  induction fuel as [|f IH]; intros filled data Hok Hfl Hfu Hlen Hf n.
  all: assert (filled = n -> Ok (filled, data) = Ok (n, take (Z.to_nat filled) data ++ drop (Z.to_nat filled) (slots IN_SIZE (c_in r) (in_cons r) n) ++ drop (Z.to_nat n) data)) as Hend
    by (intros ->; rewrite (drop_ge (slots _ _ _ _)) by (rewrite slots_length; lia); by rewrite app_nil_l, take_drop).
  all: cbn [recv_loop]; rewrite read_all by (done || lia); destruct (Z.ltb_spec filled len) as [Hl | Hl]; cbn [andb]; [|apply Hend; lia].
  { lia. }
  destruct (Z.eqb_spec filled (in_used r)) as [-> | Hne]; cbn [negb]; [apply Hend; lia|].
  pose proof (ok_in r Hok) as Hin. pose proof (mod_size_range (size := IN_SIZE) (in_cons r + filled)) as Hm.
  rewrite mask_idx, (wrap32_mod_size (size := IN_SIZE)) by (apply _ || apply wrap_range; lia). rewrite (elem_nth _ _ 0) by lia. cbn [mbind res_bind].
  rewrite set_elem_eq by lia. cbn [mbind res_bind]. fold (slot IN_SIZE (c_in r) (in_cons r + filled)).
  rewrite IH by (done || rewrite ?length_insert; lia). fold n. do 2 f_equal. replace (Z.to_nat (filled + 1)) with (S (Z.to_nat filled)) by lia.
  rewrite (take_S_r _ _ (slot IN_SIZE (c_in r) (in_cons r + filled))) by (apply list_lookup_insert_eq; lia).
  rewrite (take_insert_ge data), (drop_insert_lt data) by lia.
  rewrite (drop_S (slots _ _ _ _) (slot IN_SIZE (c_in r) (in_cons r + filled)) (Z.to_nat filled)) by (apply slots_lookup; lia).
  by rewrite <- app_assoc.
Qed.

(** Reading takes the first bytes of the queue, in order. *)
Lemma recv_spec buf len s : intf_ok (intf s) -> 0 <= len <= Z.of_nat (List.length buf) ->
  let k := Z.min len (in_used (intf s)) in
  exists s', xencons_ring_recv buf len s = Ok (k, take (Z.to_nat k) (input_bytes (intf s)) ++ drop (Z.to_nat k) buf, s')
    /\ intf_ok (intf s') /\ input_bytes (intf s') = drop (Z.to_nat k) (input_bytes (intf s)) /\ sent_bytes s' = sent_bytes s.
Proof using XO.
  intros Hok Hlen k. pose proof (in_used_range (intf s)) as Hu. pose proof Hok as [H1 H2 H3 H4 H5 H6 H7 H8].
  pose proof (size_bounds (size := IN_SIZE)) as [Hs _]. unfold xencons_ring_recv. rewrite (proj2 (Z.ltb_ge _ _)) by lia. cbn [bug_on mbind res_bind].
  rewrite recv_loop_spec by (done || lia). fold k. cbn [mbind res_bind]. rewrite drop_0.
  assert (slots IN_SIZE (c_in (intf s)) (in_cons (intf s)) k = take (Z.to_nat k) (input_bytes (intf s))) as Ek.
  { unfold input_bytes. rewrite (slots_taken _ _ (in_used (intf s)) k) by lia. by rewrite take_app_length' by (rewrite slots_length; lia). }
  rewrite Ek. eexists. split; [done|]. set (r := Intf _ _ _ _ _ _).
  assert (in_used r = in_used (intf s) - k) as Eu.
  { unfold in_used at 1. cbn. unfold wrap. rewrite Zminus_mod_idemp_r.
    replace (in_prod (intf s) - (in_cons (intf s) + k)) with ((in_prod (intf s) - in_cons (intf s)) - k) by lia.
    rewrite Zminus_mod. change ((in_prod (intf s) - in_cons (intf s)) mod 2 ^ 32) with (in_used (intf s)).
    rewrite (Z.mod_small k) by lia. apply Z.mod_small. lia. }
  split; [split; try done; [apply wrap_range; lia | cbn [intf xencons_notify_daemon set_intf]; rewrite Eu; lia]|]. split; [|done].
  unfold input_bytes. cbn [intf xencons_notify_daemon set_intf]. rewrite Eu. rewrite (slots_taken (c_in (intf s)) _ (in_used (intf s)) k) by lia.
  by rewrite drop_app_length' by (rewrite slots_length; lia).
Qed.

Lemma put_input_spec bs : forall r, intf_ok r -> in_used r + Z.of_nat (List.length bs) <= IN_SIZE ->
  intf_ok (put_input bs r) /\ input_bytes (put_input bs r) = input_bytes r ++ bs
  /\ in_used (put_input bs r) = in_used r + Z.of_nat (List.length bs).
Proof using XO.
  induction bs as [|b bs IH]; intros r Hok Hl; cbn [put_input List.length] in *; [by rewrite app_nil_r, Z.add_0_r|].
  pose proof Hok as [H1 H2 H3 H4 H5 H6 H7 H8]. pose proof (in_used_range r) as Hu. pose proof (size_bounds (size := IN_SIZE)) as [Hs _].
  assert (in_prod r = wrap32 (in_cons r + in_used r)) as Ep.
  { unfold in_used, wrap. rewrite Zplus_mod_idemp_r. replace (_ + (_ - _)) with (in_prod r) by lia. symmetry. by apply Z.mod_small. }
  set (r1 := Intf _ _ _ _ _ _). assert (in_used r1 = in_used r + 1) as Eu.
  { unfold in_used at 1. cbn. rewrite Ep, wrap_add_l, <- Z.add_assoc. apply (wrap32_used (size := IN_SIZE)); lia. }
  assert (intf_ok r1) as Hr1 by (split; try done; [cbn; by rewrite length_insert | apply wrap_range; lia | rewrite Eu; lia]).
  destruct (IH r1 Hr1) as (Hok' & Eb & Eu'); [rewrite Eu; lia|]. split; [done|]. rewrite Eb, Eu', Eu. split; [|lia].
  unfold input_bytes at 1. rewrite Eu. cbn [c_in in_cons r1]. rewrite Ep, (wrap32_mod_size (size := IN_SIZE)), slots_push by lia. by rewrite <- app_assoc.
Qed.

Lemma input_length r : List.length (input_bytes r) = Z.to_nat (in_used r).
Proof using. unfold input_bytes, slots. by rewrite length_fmap, length_seqZ. Qed.

Lemma wait_input_spec q rest buf len m : q <> [] -> Z.of_nat (List.length q) <= IN_SIZE -> 0 < len <= Z.of_nat (List.length buf) ->
  forall s, intf_ok (intf s) -> in_used (intf s) = 0 ->
  let k := Z.min len (Z.of_nat (List.length q)) in
  exists s', wait_input (replicate m [] ++ q :: rest) buf len s = Ok (k, take (Z.to_nat k) q ++ drop (Z.to_nat k) buf, s')
    /\ intf_ok (intf s') /\ input_bytes (intf s') = drop (Z.to_nat k) q /\ sent_bytes s' = sent_bytes s.
Proof using XO.
  intros Hq Hql Hlen. assert (0 < Z.of_nat (List.length q)) as Hq0 by (destruct q; [done | cbn; lia]).
  induction m as [|m IH]; intros s Hok H0 k; cbn [replicate app wait_input].
  - destruct (put_input_spec q (intf s) Hok) as (Hok1 & E1 & Eu1); [lia|].
    assert (input_bytes (intf s) = []) as E0 by (apply length_zero_iff_nil; rewrite input_length, H0; done). rewrite E0 in E1. cbn in E1.
    destruct (recv_spec buf len (set_intf (put_input q (intf s)) s)) as (s' & -> & Hok2 & E2 & E3); [done | lia|]. cbn [mbind res_bind].
    change (intf (set_intf (put_input q (intf s)) s)) with (put_input q (intf s)) in *. rewrite Eu1, H0, Z.add_0_l in *. fold k in E2 |- *. rewrite E1 in *.
    rewrite (proj2 (Z.eqb_neq k 0)) by lia. exists s'. split_and!; try done. rewrite E3. unfold sent_bytes. cbn. clear.
    generalize (intf s). induction q as [|c q IH]; intros r; [done|]. cbn [put_input]. apply (IH (Intf _ _ _ _ _ _)).
  - cbn [put_input]. destruct (recv_spec buf len (set_intf (intf s) s)) as (s' & -> & Hok2 & E2 & E3); [done | lia|]. cbn [mbind res_bind].
    change (intf (set_intf (intf s) s)) with (intf s) in *. rewrite H0, Z.min_r in * by lia. change (Z.to_nat 0) with O in *.
    rewrite drop_0 in E2. rewrite Z.eqb_refl, take_0, drop_0, app_nil_l.
    destruct (IH s' Hok2) as (s2 & E & H). { pose proof (input_length (intf s')) as El. rewrite E2, input_length, H0 in El. pose proof (in_used_range (intf s')). lia. }
    exists s2. split; [exact E|]. destruct H as (? & ? & ->). split; [done|]. split; [done|]. done.
Qed.
End Spec.

(** C35: Printing on the console: after [init_console], every text of at least one character is
    sent to the daemon completely and in order with each line end converted to carriage return
    and line feed, whatever the ring holds and however little the daemon takes at a time (at
    least one byte between two calls), and the caller's buffer, into which the conversion
    writes, has its contents back. *)
Theorem console_print_sends {X : xencons} {XO : xencons_ok X} mem len ds s :
  intf_ok (intf s) -> console_initialised s = true -> console_dying s = false ->
  0 < len <= Z.of_nat (List.length mem) -> drains ds (Z.of_nat (List.length (crlf (take (Z.to_nat len) mem)))) ->
  exists ds' s', console_print mem len ds s = Ok (mem, ds', s') /\ intf_ok (intf s')
    /\ sent_bytes s' = sent_bytes s ++ crlf (take (Z.to_nat len) mem)
    /\ hyp_out s' = hyp_out s /\ input_bytes (intf s') = input_bytes (intf s).
Proof.
  intros Hok Hi Hd Hlen Hdr. unfold console_print. rewrite Hd, Hi. cbn [mbind res_bind negb andb].
  destruct (lookup_lt_is_Some_2 mem (Z.to_nat (len - 1))) as [x Hx]; [lia|].
  assert (take (Z.to_nat len) mem = slice mem 0 (len - 1) ++ [x]) as El.
  { rewrite <- (slice_one mem (len - 1) x) by (done || lia). replace (len - 1 + 1) with len by lia. rewrite <- slice_app by lia. unfold slice. by rewrite drop_0, Z.sub_0_r. }
  rewrite El, crlf_app in Hdr |- *. rewrite length_app, Nat2Z.inj_add in Hdr.
  destruct (print_loop_spec mem len (Z.of_nat (List.length (crlf [x]))) (Z.to_nat len) 0 0 len ds s) as (data & n & ds1 & s1 & bs & -> & Hn & Hdata & _ & Hp & Eb & Hdr1);
    [done | lia | lia | lia | lia | lia | lia | rewrite slice_nil; constructor | done |].
  cbn [mbind res_bind]. rewrite Hn, (elem_eq mem (len - 1) x) by (done || lia). cbn [mbind res_bind].
  assert (forall (s2 : console) (ds2 last : list Z), prints s1 s2 (slice mem data (len - 1) ++ last) -> last = crlf [x] ->
    exists ds' s', Ok (mem, ds2, s2) = Ok (mem, ds', s') /\ intf_ok (intf s') /\ sent_bytes s' = sent_bytes s ++ crlf (slice mem 0 (len - 1)) ++ crlf [x]
    /\ hyp_out s' = hyp_out s /\ input_bytes (intf s') = input_bytes (intf s)) as Hend.
  { intros s2 ds2 last H2 ->. exists ds2, s2. split; [done|]. destruct (prints_trans _ _ _ _ _ Hp H2) as (A1 & A2 & A3 & A4 & A5).
    split_and!; try done. by rewrite A2, <- Eb, <- app_assoc. }
  cbn in Hdr1. cbn [crlf] in Hend |- *. destruct (Z.eqb_spec x 10) as [-> | Hne]; cbn [List.length] in Hdr1.
  - destruct (checked_print_part mem data (n - 1) (len - 1) 2 ds1 s1) as (s2 & ds2 & -> & Hdr2 & Hp2); [by destruct Hp | lia | lia | lia | lia | lia | by replace (n - 1 + 2) with (len - 1 - data + 2) by lia |].
    cbn [mbind res_bind]. destruct (checked_print_spec ds2 [13; 10] 2 0 s2) as (s3 & ds3 & -> & _ & Hp3); [by destruct Hp2 | lia | done | done |].
    cbn [mbind res_bind]. apply (Hend s3 ds3 [13; 10]); [by eapply prints_trans | done].
  - destruct (checked_print_part mem data n len 0 ds1 s1) as (s2 & ds2 & -> & _ & Hp2); [by destruct Hp | lia | lia | lia | lia | lia | by replace (n + 0) with (len - 1 - data + 1) by lia |].
    cbn [mbind res_bind]. apply (Hend s2 ds2 [x]); [|done]. rewrite <- (slice_one mem (len - 1) x) by (done || lia). replace (len - 1 + 1) with len by lia.
    by rewrite <- slice_app by lia.
Qed.

(** Formatted printing on the console: what [printk] sends for any format and arguments is
    the first 1023 characters of the text that [vsnprintf] makes of them, with line ends
    converted; an empty text reads the byte before the buffer. *)
Lemma guk_printk_sends {X : xencons} {XO : xencons_ok X} buf fmt args contents ds s out stores :
  vsnprintf buf contents 1024 fmt args = Ok (sgn32 (Z.of_nat (List.length out)), printed contents 1024 out, stores) -> nonzero out ->
  1024 <= Z.of_nat (List.length contents) ->
  intf_ok (intf s) -> console_initialised s = true -> console_dying s = false ->
  let text := take 1023 out in
  drains ds (Z.of_nat (List.length (crlf text))) ->
  if decide (out = []) then guk_printk buf fmt args contents ds s = Bug BAD_ACCESS
  else exists contents' ds' s', guk_printk buf fmt args contents ds s = Ok (contents', ds', s') /\ intf_ok (intf s')
    /\ sent_bytes s' = sent_bytes s ++ crlf text.
Proof.
  intros Hv Hz Hc Hok Hi Hd text Hdr. unfold guk_printk, guk_cprintk. rewrite Hv. cbn [mbind res_bind].
  assert (exists rest, printed contents 1024 out = text ++ 0 :: rest) as [rest Ep].
  { unfold printed. cbn [Z.eqb]. set (k := Z.to_nat _). exists (drop (S k) contents). f_equal. unfold text.
    destruct (decide (List.length out <= 1023)%nat); [by rewrite !take_ge by lia|]. f_equal. lia. }
  rewrite Ep, strlen_spec by (by apply Forall_take). cbn [mbind res_bind].
  case_decide as Eo.
  - subst out. unfold console_print. rewrite Hd, Hi. done.
  - destruct (console_print_sends (text ++ 0 :: rest) (Z.of_nat (List.length text)) ds s) as (ds' & s' & -> & Hok' & Es & _); try done.
    + rewrite length_app. cbn. assert (0 < List.length text)%nat by (unfold text; rewrite length_take; destruct out; [done | cbn; lia]). lia.
    + by rewrite Nat2Z.id, take_app_length.
    + exists (text ++ 0 :: rest), ds', s'. split; [done|]. split; [done|]. by rewrite Es, Nat2Z.id, take_app_length.
Qed.

(** Reading from the console returns, in order and without loss, the first bytes of what is
    in the input ring, or, when it is empty, of what arrives first, after any number of
    wake-ups without input. *)
Lemma console_readbytes_reads {X : xencons} {XO : xencons_ok X} m q rest buf len s :
  intf_ok (intf s) -> 0 < len <= Z.of_nat (List.length buf) -> q <> [] -> Z.of_nat (List.length q) <= IN_SIZE ->
  let bytes := if decide (input_bytes (intf s) = []) then q else input_bytes (intf s) in
  let k := Z.min len (Z.of_nat (List.length bytes)) in
  exists s', guk_console_readbytes (replicate m [] ++ q :: rest) buf len s = Ok (k, take (Z.to_nat k) bytes ++ drop (Z.to_nat k) buf, s')
    /\ intf_ok (intf s') /\ input_bytes (intf s') = drop (Z.to_nat k) bytes /\ sent_bytes s' = sent_bytes s.
Proof.
  intros Hok Hlen Hq Hql bytes k. pose proof (in_used_range (intf s)) as Hu. pose proof (ok_in_used _ Hok). pose proof (input_length (intf s)) as Hil.
  pose proof (size_bounds (size := IN_SIZE)) as [Hs _].
  assert (sgn32 (in_prod (intf s) - in_cons (intf s)) = in_used (intf s)) as Ea.
  { rewrite <- sgn_wrap. apply sgn_small; [lia|]. change (0 <= in_used (intf s) < 2 ^ 31). lia. }
  unfold guk_console_readbytes, xencons_ring_avail. rewrite (proj2 (Z.ltb_ge _ _)) by lia. cbn [bug_on mbind res_bind]. rewrite Ea.
  subst bytes k. case_decide as E.
  - rewrite E in Hil. assert (in_used (intf s) = 0) as E0 by (cbn in Hil; lia). rewrite E0. by apply wait_input_spec.
  - assert (in_used (intf s) <> 0) as Hne by (intros E0; apply E, length_zero_iff_nil; rewrite Hil, E0; done).
    rewrite (proj2 (Z.eqb_neq _ _) Hne). destruct (recv_spec buf len s Hok) as (s' & Er & H1 & H2 & H3); [lia|]. rewrite Hil, Z2Nat.id by lia. by exists s'.
Qed.

(** ** Before the console is initialised, and empty texts *)

(** The test for a full output ring looks at the input ring: with exactly as many bytes of input
    as are to be printed the kernel stops, whatever room there is for output. *)
Lemma early_print_stops {X : xencons} {XO : xencons_ok X} mem ds s :
  intf_ok (intf s) -> console_initialised s = false -> console_dying s = false ->
  console_print mem (in_used (intf s)) ds s = Bug BUG_ON.
Proof.
  intros Hok Hi Hd. unfold console_print, xencons_ring_avail. rewrite Hd, Hi. pose proof (in_used_range (intf s)) as Hu. pose proof (ok_in_used _ Hok).
  pose proof (size_bounds (size := IN_SIZE)) as [Hs _]. rewrite (proj2 (Z.ltb_ge _ _)) by lia. cbn [bug_on mbind res_bind negb andb].
  assert (sgn32 (in_prod (intf s) - in_cons (intf s)) = in_used (intf s)) as ->.
  { rewrite <- sgn_wrap. apply sgn_small; [lia|]. change (0 <= in_used (intf s) < 2 ^ 31). lia. }
  rewrite Z.sub_diag. change (wrap64 (sgn32 0) <? _) with true. cbn iota.
  set (s1 := HYPERVISOR_console_io init_overflow (set_dying s)). unfold xencons_ring_send, xencons_ring_send_no_notify.
  pose proof (send_spec init_overflow (Z.of_nat (List.length init_overflow)) (Console (intf s1) [] 0 [] true true false)) as (s2 & E & _); [done | lia|].
  unfold xencons_ring_send_fn, xencons_ring_send_no_notify in E. cbn [send_notifies intf] in E.
  destruct (bug_on _) as [[]| |]; try done. cbn [mbind res_bind] in E |- *. destruct (send_loop _ _ _ _ _ _ _) as [[[n p] o]| |]; done.
Qed.

(** With no input the test never stops the kernel, even when the output ring is full. *)
Lemma early_test_passes len : 0 < len < 2 ^ 31 -> (wrap64 (sgn32 (0 - len)) <? Z.of_nat (List.length init_overflow)) = false.
Proof.
  intros Hlen. change (Z.of_nat (List.length init_overflow)) with 57. rewrite sgn_id by lia. apply Z.ltb_ge.
  unfold wrap. rewrite <- (Z.mod_unique (0 - len) (2 ^ 64) (-1) (2 ^ 64 - len)); lia.
Qed.

(** An empty text reads the byte before the buffer. *)
Lemma console_print_empty {X : xencons} mem ds s : console_initialised s = true -> console_dying s = false ->
  guk_printbytes mem 0 ds s = Bug BAD_ACCESS.
Proof. intros Hi Hd. unfold guk_printbytes, console_print. by rewrite Hd, Hi. Qed.

(** ** A concrete console *)

#[local] Instance demo_xencons : xencons := {| IN_SIZE := 4; OUT_SIZE := 8; MASK_XENCONS_IDX i size := i mod size |}.
#[local] Instance demo_xencons_ok : xencons_ok demo_xencons.
Proof. split; [by exists 2 | by exists 3 | done]. Qed.

Definition demo_intf : xencons_interface := Intf [0; 65; 66; 0] (replicate 8 0) 1 3 (2 ^ 32 - 3) (2 ^ 32 - 3).
Definition demo_console : console := Console demo_intf [] 0 [] true false true.
Definition idle_console : console := Console (Intf [0; 0; 0; 0] (replicate 8 0) 1 1 5 5) [] 0 [] true false true.

Lemma demo_intf_ok : intf_ok demo_intf.
Proof. by split; vm_compute. Qed.
Lemma idle_intf_ok : intf_ok (intf idle_console).
Proof. by split; vm_compute. Qed.

Lemma ones_drain n k : k <= Z.of_nat n -> drains (replicate n 1) k.
Proof. intros Hk. split; [by apply Forall_replicate | by rewrite length_replicate]. Qed.

Lemma console_print_sends_witness : exists ds' s',
  console_print (str "one
two
") 8 (replicate 20 1) demo_console = Ok (str "one
two
", ds', s') /\ sent_bytes s' = [111; 110; 101; 13; 10; 116; 119; 111; 13; 10].
Proof.
  destruct (console_print_sends (str "one
two
") 8 (replicate 20 1) demo_console) as (ds' & s' & E & _ & Es & _);
    [exact demo_intf_ok | done | done | by vm_compute | apply ones_drain; by vm_compute |].
  exists ds', s'. split; [exact E|]. rewrite Es. by vm_compute.
Defined.

Lemma guk_printk_sends_witness : exists contents' ds' s',
  guk_printk 4096 (cstr "cpu %d
") [ANum 3] (replicate 1024 0) (replicate 20 1) demo_console = Ok (contents', ds', s') /\ sent_bytes s' = [99; 112; 117; 32; 51; 13; 10].
Proof.
  pose proof (guk_printk_sends 4096 (cstr "cpu %d
") [ANum 3] (replicate 1024 0) (replicate 20 1) demo_console (str "cpu 3
") [] ltac:(by vm_compute) ltac:(by apply (bool_decide_unpack _); vm_compute) ltac:(by vm_compute) demo_intf_ok eq_refl eq_refl
    ltac:(apply ones_drain; by vm_compute)) as H. rewrite decide_False in H by done. destruct H as (c & ds' & s' & E & _ & Es).
  exists c, ds', s'. split; [exact E|]. rewrite Es. by vm_compute.
Defined.

Lemma console_readbytes_reads_witness : exists s',
  guk_console_readbytes (replicate 2 [] ++ [[88; 89; 90]]) [0; 0] 2 idle_console = Ok (2, [88; 89], s') /\ input_bytes (intf s') = [90].
Proof.
  destruct (console_readbytes_reads 2 [88; 89; 90] [] [0; 0] 2 idle_console) as (s' & E & _ & Ei & _);
    [exact idle_intf_ok | by vm_compute | done | by vm_compute |].
  exists s'. split; [exact E | exact Ei].
Defined.
