(* ===== verification/P2m.v ===== *)
(** The table of the frames that hold the physical-to-machine map: arch/x86/p2m.c.  Xen reads
    it when the domain is saved and restored.

    The table has two levels of pages of 512 entries: an entry of the root is the machine frame
    of a second-level page, an entry of that the machine frame of a page of the map.  A page is
    the list of its entries; [virt_to_mfn], which changes when the domain is restored, and the
    pages that [alloc_page] returns are arguments. *)
From S2P Require Import Prelude.
From stdpp Require Import options.

Definition MAX_L2_PAGES : Z := 32.
Definition ENTRIES_PER_L2_PAGE : Z := 512.

(** The pages by their addresses, the variables of the file, and the two fields of the shared
    info page. *)
Record p2m := P2M {
  pages : gmap Z (list Z);
  pfn_to_mfn_table : Z;
  l2_list_pages : list Z;
  num_l2_pages : Z;
  max_pfn_table : Z;
  maxmem_pfn_table : Z;
  frame_list_list : Z;
  arch_max_pfn : Z
}.

Definition set_pages (m : gmap Z (list Z)) (s : p2m) : p2m :=
  P2M m (pfn_to_mfn_table s) (l2_list_pages s) (num_l2_pages s) (max_pfn_table s) (maxmem_pfn_table s) (frame_list_list s) (arch_max_pfn s).
Definition set_l2_list (l : list Z) (s : p2m) : p2m :=
  P2M (pages s) (pfn_to_mfn_table s) l (num_l2_pages s) (max_pfn_table s) (maxmem_pfn_table s) (frame_list_list s) (arch_max_pfn s).
Definition set_num_l2 (n : Z) (s : p2m) : p2m :=
  P2M (pages s) (pfn_to_mfn_table s) (l2_list_pages s) n (max_pfn_table s) (maxmem_pfn_table s) (frame_list_list s) (arch_max_pfn s).
Definition set_max_pfn (n : Z) (s : p2m) : p2m :=
  P2M (pages s) (pfn_to_mfn_table s) (l2_list_pages s) (num_l2_pages s) n (maxmem_pfn_table s) (frame_list_list s) (arch_max_pfn s).
Definition publish_max_pfn (s : p2m) : p2m :=
  P2M (pages s) (pfn_to_mfn_table s) (l2_list_pages s) (num_l2_pages s) (max_pfn_table s) (maxmem_pfn_table s) (frame_list_list s) (max_pfn_table s).
Definition publish_root (mfn : Z) (s : p2m) : p2m :=
  P2M (pages s) (pfn_to_mfn_table s) (l2_list_pages s) (num_l2_pages s) (max_pfn_table s) (maxmem_pfn_table s) mfn (arch_max_pfn s).

(** [page[i] = v] *)
Definition store (page i v : Z) (s : p2m) : res p2m :=
  l ← access (pages s !! page);
  l ← set_elem l i v;
  Ok (set_pages (<[page := l]> (pages s)) s).

Section Code.
(** The address of [phys_to_machine_mapping], whose entries have 8 bytes, and the map from
    addresses to machine frames. *)
Context (phys_to_machine_mapping : Z) (virt_to_mfn : Z -> Z).

Definition map_entry (pfn : Z) : Z := phys_to_machine_mapping + 8 * pfn.

(** The loop of arch_rebuild_p2m; [l2_list] is the page that is being filled. *)
Fixpoint rebuild_loop (fuel : nat) (l1_offset l2_offset l3_offset i l2_list : Z) (s : p2m) : res p2m :=
  if l1_offset <? maxmem_pfn_table s then
    match fuel with
    | O => Fuel
    | S fuel =>
        '(l3_offset, i, l2_list, s) ←
          (if l2_offset mod ENTRIES_PER_L2_PAGE =? 0 then
             l2_list ← elem (l2_list_pages s) i;
             let i := i + 1 in
             _ ← bug_on (num_l2_pages s <? i);
             s ← store (pfn_to_mfn_table s) l3_offset (virt_to_mfn l2_list) s;
             Ok (l3_offset + 1, i, l2_list, s)
           else Ok (l3_offset, i, l2_list, s));
        s ← store l2_list (l2_offset mod ENTRIES_PER_L2_PAGE) (virt_to_mfn (map_entry l1_offset)) s;
        rebuild_loop fuel (l1_offset + ENTRIES_PER_L2_PAGE) (l2_offset + 1) l3_offset i l2_list s
    end
  else Ok s.

(** The number of rounds: the pages of the map. *)
Definition map_pages (n : Z) : nat := Z.to_nat (n / ENTRIES_PER_L2_PAGE + 1).

Definition arch_rebuild_p2m (s : p2m) : res p2m :=
  s ← rebuild_loop (map_pages (maxmem_pfn_table s)) 0 0 0 0 0 s;
  Ok (publish_max_pfn (publish_root (virt_to_mfn (pfn_to_mfn_table s)) s)).

(** The loop of arch_update_p2m; [fresh] are the pages that alloc_page returns. *)
Fixpoint add_loop (fuel : nat) (end_pfn l1_offset l2_offset l3_offset i l2_list : Z) (fresh : list Z) (s : p2m) : res (Z * p2m) :=
  if l1_offset <? end_pfn then
    match fuel with
    | O => Fuel
    | S fuel =>
        '(l3_offset, i, l2_list, fresh, s) ←
          (if l2_offset mod ENTRIES_PER_L2_PAGE =? 0 then
             _ ← bug_on (MAX_L2_PAGES <=? num_l2_pages s + i);
             l2_list ← access (head fresh);
             l ← set_elem (l2_list_pages s) (num_l2_pages s + i) l2_list;
             s ← store (pfn_to_mfn_table s) (num_l2_pages s + l3_offset) (virt_to_mfn l2_list) (set_l2_list l s);
             Ok (l3_offset + 1, i + 1, l2_list, tail fresh, s)
           else Ok (l3_offset, i, l2_list, fresh, s));
        s ← store l2_list (l2_offset mod ENTRIES_PER_L2_PAGE) (virt_to_mfn (map_entry l1_offset)) s;
        add_loop fuel end_pfn (l1_offset + ENTRIES_PER_L2_PAGE) (l2_offset + 1) l3_offset i l2_list fresh s
    end
  else Ok (i, s).

Definition arch_update_p2m (start_pfn end_pfn : Z) (adding : bool) (fresh : list Z) (s : p2m) : res p2m :=
  s ← (if adding then
         s ← (if start_pfn =? 0 then
                '(i, s) ← add_loop (map_pages end_pfn) end_pfn start_pfn (start_pfn / ENTRIES_PER_L2_PAGE) 0 0 0 fresh s;
                Ok (set_num_l2 (num_l2_pages s + i) s)
              else Ok s);
         Ok (if max_pfn_table s <? end_pfn then set_max_pfn end_pfn s else s)
       else Ok (if end_pfn =? max_pfn_table s then set_max_pfn start_pfn s else s));
  Ok (publish_max_pfn s).

(** [root] is the first page that alloc_page returns. *)
Definition arch_init_p2m (max_pfn maxmem_pfn root : Z) (fresh : list Z) (s : p2m) : res p2m :=
  let s := P2M (pages s) root (l2_list_pages s) 0 0 maxmem_pfn (virt_to_mfn root) (arch_max_pfn s) in
  s ← arch_update_p2m 0 maxmem_pfn true fresh s;
  Ok (publish_max_pfn (set_max_pfn max_pfn s)).
End Code.

(** ** What Xen finds

    Entry [i] of the page at [page]. *)
Definition entry (s : p2m) (page i : Z) : option Z := l ← pages s !! page; l !! Z.to_nat i.

(** Under [v2m], with the pages [l2] of the second level, the entries of the first [k] pages of
    the map are in place. *)
Definition filled (pmap : Z) (v2m : Z -> Z) (l2 : list Z) (k : Z) (s : p2m) : Prop :=
  forall j, 0 <= j < k -> exists p, l2 !! Z.to_nat (j / 512) = Some p /\
    entry s (pfn_to_mfn_table s) (j / 512) = Some (v2m p) /\
    entry s p (j mod 512) = Some (v2m (map_entry pmap (512 * j))).

(** The pages [l2] of the second level are other pages than the root and each other; all are
    allocated. *)
Definition placed (l2 : list Z) (s : p2m) : Prop :=
  NoDup (pfn_to_mfn_table s :: l2) /\
  Forall (fun p => exists l, pages s !! p = Some l /\ length l = 512%nat) (pfn_to_mfn_table s :: l2).

Lemma entry_store page i v s :
  0 <= i < 512 -> (exists l, pages s !! page = Some l /\ length l = 512%nat) ->
  exists m, store page i v s = Ok (set_pages m s) /\
    (forall p j, 0 <= j -> entry (set_pages m s) p j = if decide (p = page /\ j = i) then Some v else entry s p j) /\
    (forall p, (exists l, pages s !! p = Some l /\ length l = 512%nat) ->
       exists l, m !! p = Some l /\ length l = 512%nat).
Proof.
  intros Hi (l & Hl & Hlen). exists (<[page := <[Z.to_nat i := v]> l]> (pages s)). splits.
  - unfold store. rewrite Hl. simpl. rewrite set_elem_eq by lia. done.
  - intros p j Hj. unfold entry. simpl. destruct (decide (p = page)) as [->|Hp].
    + rewrite lookup_insert_eq, Hl. simpl. destruct (decide (j = i)) as [->|Hji].
      * rewrite decide_True by done. apply list_lookup_insert_eq. lia.
      * rewrite decide_False by tauto. apply list_lookup_insert_ne. lia.
    + rewrite decide_False by tauto. by rewrite lookup_insert_ne.
  - intros p (l' & Hl' & Hlen'). destruct (decide (p = page)) as [->|Hp].
    + rewrite lookup_insert_eq. eexists. split; [done|]. by rewrite length_insert.
    + rewrite lookup_insert_ne by done. eauto.
Qed.

Lemma placed_page l2 s p : placed l2 s -> p ∈ pfn_to_mfn_table s :: l2 -> exists l, pages s !! p = Some l /\ length l = 512%nat.
Proof. intros [_ Hf] Hp. rewrite Forall_forall in Hf. by apply Hf. Qed.

(** Storing keeps the pages. *)
Lemma placed_set l2 m s :
  placed l2 s -> (forall p, (exists l, pages s !! p = Some l /\ length l = 512%nat) -> exists l, m !! p = Some l /\ length l = 512%nat) ->
  placed l2 (set_pages m s).
Proof. intros [Hn Hf] Hm. split; [done|]. simpl. eapply Forall_impl; [exact Hf|]. intros p. apply Hm. Qed.

(** A new entry of the root starts a page of the second level. *)
Lemma start_spec pmap v2m l2 k p s :
  0 <= k -> k / 512 < 512 -> k mod 512 = 0 -> placed l2 s -> filled pmap v2m l2 k s -> l2 !! Z.to_nat (k / 512) = Some p ->
  exists m, store (pfn_to_mfn_table s) (k / 512) (v2m p) s = Ok (set_pages m s) /\
    placed l2 (set_pages m s) /\ filled pmap v2m l2 k (set_pages m s) /\
    entry (set_pages m s) (pfn_to_mfn_table s) (k / 512) = Some (v2m p).
Proof.
  intros Hk Hq Hm Hp Hf Hl2.
  destruct (entry_store (pfn_to_mfn_table s) (k / 512) (v2m p) s) as (m & Hs & He & Hpg).
  { pose proof (Z.div_pos k 512). lia. }
  { apply (placed_page l2); [done|left]. }
  assert (0 <= k / 512) as H0 by (apply Z.div_pos; lia).
  exists m. splits; [done|by apply placed_set| |by rewrite He, decide_True by (done || lia)].
  intros j Hj. destruct (Hf j Hj) as (q & Hq1 & Hr & Hq2). exists q. splits; [done| |]; simpl.
  - rewrite He, decide_False; [done| |apply Z.div_pos; lia]. intros [_ Hjk].
    pose proof (Z.div_mod k 512 ltac:(lia)). pose proof (Z.div_mod j 512 ltac:(lia)). pose proof (Z.mod_pos_bound j 512 ltac:(lia)). lia.
  - rewrite He, decide_False; [done| |apply Z.mod_pos_bound; lia]. intros [-> _].
    destruct Hp as [Hn _]. apply NoDup_cons in Hn as [Hn _]. apply Hn. by eapply list_elem_of_lookup_2.
Qed.

(** The entry of the next page of the map. *)
Lemma fill_spec pmap v2m l2 k p s :
  0 <= k -> placed l2 s -> filled pmap v2m l2 k s -> l2 !! Z.to_nat (k / 512) = Some p ->
  entry s (pfn_to_mfn_table s) (k / 512) = Some (v2m p) ->
  exists m, store p (k mod 512) (v2m (map_entry pmap (512 * k))) s = Ok (set_pages m s) /\
    placed l2 (set_pages m s) /\ filled pmap v2m l2 (k + 1) (set_pages m s).
Proof.
  intros Hk Hp Hf Hl2 Hr. pose proof (Z.mod_pos_bound k 512 ltac:(lia)) as Hmod.
  assert (p ∈ l2) as Hin by (by eapply list_elem_of_lookup_2).
  assert (p <> pfn_to_mfn_table s) as Hpr.
  { intros ->. destruct Hp as [Hn _]. apply NoDup_cons in Hn as [Hn _]. by apply Hn. }
  destruct (entry_store p (k mod 512) (v2m (map_entry pmap (512 * k))) s) as (m & Hs & He & Hpg); [lia| |].
  { apply (placed_page l2); [done|by right]. }
  exists m. splits; [done|by apply placed_set|]. intros j Hj. simpl.
  pose proof (Z.mod_pos_bound j 512 ltac:(lia)) as Hjm. pose proof (Z.div_pos j 512 ltac:(lia) ltac:(lia)) as Hjd.
  destruct (decide (j = k)) as [->|Hjk].
  - exists p. splits; [done| |].
    + rewrite He, decide_False; [done|intros [? _]; by subst|lia].
    + by rewrite He, decide_True by (done || lia).
  - destruct (Hf j ltac:(lia)) as (q & Hq1 & Hq2 & Hq3). exists q. splits; [done| |].
    + rewrite He, decide_False; [done|intros [? _]; by subst|lia].
    + rewrite He, decide_False; [done| |lia]. intros [-> Hjk'].
      destruct Hp as [Hn _]. apply NoDup_cons in Hn as [_ Hn].
      pose proof (NoDup_lookup _ _ _ _ Hn Hq1 Hl2) as Hd. apply Hjk.
      rewrite (Z.div_mod j 512), (Z.div_mod k 512) by lia.
      assert (j / 512 = k / 512) as -> by (apply Z2Nat.inj; [done|apply Z.div_pos; lia|done]). lia.
Qed.

(** The pages of a map of [n] entries, and the pages of the second level for [k] entries. *)
Definition map_count (n : Z) : Z := (n + 511) / 512.

Lemma map_count_lt n k : 0 <= n -> (512 * k <? n) = (k <? map_count n).
Proof.
  intros Hn. unfold map_count. pose proof (Z.div_mod (n + 511) 512 ltac:(lia)). pose proof (Z.mod_pos_bound (n + 511) 512 ltac:(lia)).
  destruct (Z.ltb_spec (512 * k) n), (Z.ltb_spec k ((n + 511) / 512)); lia.
Qed.

Lemma map_count_fuel n : 0 <= n -> 0 <= map_count n <= Z.of_nat (map_pages n).
Proof.
  intros Hn. unfold map_count, map_pages, ENTRIES_PER_L2_PAGE.
  pose proof (Z.div_mod (n + 511) 512 ltac:(lia)). pose proof (Z.mod_pos_bound (n + 511) 512 ltac:(lia)).
  pose proof (Z.div_mod n 512 ltac:(lia)). pose proof (Z.mod_pos_bound n 512 ltac:(lia)). lia.
Qed.

Lemma count_first k : 0 <= k -> k mod 512 = 0 -> map_count k = k / 512 /\ map_count (k + 1) = k / 512 + 1.
Proof.
  intros Hk Hm. unfold map_count. pose proof (Z.div_mod k 512 ltac:(lia)) as Hd. rewrite Hm in Hd.
  rewrite Hd at 1 3. split.
  - rewrite (Z.add_comm _ 511), Z.add_0_r, (Z.mul_comm 512), Z.div_add by lia. done.
  - replace (512 * (k / 512) + 0 + 1 + 511) with ((k / 512 + 1) * 512) by lia. by apply Z.div_mul.
Qed.

Lemma count_later k : 0 <= k -> k mod 512 <> 0 -> map_count k = k / 512 + 1 /\ map_count (k + 1) = k / 512 + 1.
Proof.
  intros Hk Hm. unfold map_count. pose proof (Z.div_mod k 512 ltac:(lia)) as Hd. pose proof (Z.mod_pos_bound k 512 ltac:(lia)).
  split; symmetry; [apply (Z.div_unique_pos _ _ _ (k mod 512 - 1))|apply (Z.div_unique_pos _ _ _ (k mod 512))]; lia.
Qed.

(** After a page that is not the first of its second-level page that page continues. *)
Lemma same_l2 k : 0 <= k -> (k + 1) mod 512 <> 0 -> (k + 1) / 512 = k / 512.
Proof.
  intros Hk Hm. pose proof (Z.div_mod (k + 1) 512 ltac:(lia)) as Hd. pose proof (Z.mod_pos_bound (k + 1) 512 ltac:(lia)).
  apply (Z.div_unique_pos _ _ _ ((k + 1) mod 512 - 1)); lia.
Qed.

Lemma rebuild_loop_spec pmap v2m l2 fuel : forall k cur s,
  0 <= k <= map_count (maxmem_pfn_table s) -> map_count (maxmem_pfn_table s) - k <= Z.of_nat fuel -> 0 <= maxmem_pfn_table s ->
  map_count (maxmem_pfn_table s) <= 512 * Z.of_nat (length l2) -> (length l2 <= 512)%nat -> num_l2_pages s = Z.of_nat (length l2) ->
  take (length l2) (l2_list_pages s) = l2 -> placed l2 s -> filled pmap v2m l2 k s ->
  (k mod 512 <> 0 -> l2 !! Z.to_nat (k / 512) = Some cur) ->
  exists m, rebuild_loop pmap v2m fuel (512 * k) k (map_count k) (map_count k) cur s = Ok (set_pages m s) /\
    placed l2 (set_pages m s) /\ filled pmap v2m l2 (map_count (maxmem_pfn_table s)) (set_pages m s).
Proof.
  induction fuel as [|fuel IH]; intros k cur s Hk Hfuel Hn Hlen H512 Hnum Htake Hp Hf Hcur;
    cbn [rebuild_loop]; rewrite map_count_lt by done; destruct (Z.ltb_spec k (map_count (maxmem_pfn_table s))) as [Hlt|Hge].
  1: lia. 1, 3: exists (pages s); replace (map_count (maxmem_pfn_table s)) with k by lia; by destruct s.
  assert (0 <= k / 512 < Z.of_nat (length l2)) as Hq by (split; [apply Z.div_pos|apply Z.div_lt_upper_bound]; lia).
  assert (exists p m, l2 !! Z.to_nat (k / 512) = Some p /\ placed l2 (set_pages m s) /\ filled pmap v2m l2 k (set_pages m s) /\
    entry (set_pages m s) (pfn_to_mfn_table s) (k / 512) = Some (v2m p) /\
    (if k mod ENTRIES_PER_L2_PAGE =? 0 then
       l2_list ← elem (l2_list_pages s) (map_count k); _ ← bug_on (num_l2_pages s <? map_count k + 1);
       s ← store (pfn_to_mfn_table s) (map_count k) (v2m l2_list) s; Ok (map_count k + 1, map_count k + 1, l2_list, s)
     else Ok (map_count k, map_count k, cur, s)) = Ok (map_count (k + 1), map_count (k + 1), p, set_pages m s))
    as (p & m & Hl2 & Hp1 & Hf1 & Hr & ->).
  { unfold ENTRIES_PER_L2_PAGE. destruct (Z.eqb_spec (k mod 512) 0) as [H0|H0].
    - destruct (count_first k) as [-> ->]; [lia|done|].
      destruct (lookup_lt_is_Some_2 l2 (Z.to_nat (k / 512))) as [p Hl2]; [lia|].
      destruct (start_spec pmap v2m l2 k p s) as (m & Hs & Hp1 & Hf1 & Hr); [lia|lia|done..|].
      exists p, m. splits; [done..|]. rewrite (elem_eq _ _ p) by (lia || by rewrite <- (lookup_take_lt _ (length l2)), Htake by lia).
      simpl. rewrite (proj2 (Z.ltb_ge _ _)) by lia. simpl. by rewrite Hs.
    - destruct (count_later k) as [-> ->]; [lia|done|]. exists cur, (pages s).
      assert (k <> 0) as Hk0 by (by intros ->).
      destruct (Hf (k - 1) ltac:(lia)) as (p & Hl2 & Hr & _).
      pose proof (same_l2 (k - 1)) as Hs. rewrite Z.sub_add in Hs. rewrite <- Hs in Hl2, Hr by (lia || done).
      specialize (Hcur H0). rewrite Hcur in Hl2. injection Hl2 as <-. destruct s. done. }
  cbn [mbind res_bind]. unfold ENTRIES_PER_L2_PAGE.
  destruct (fill_spec pmap v2m l2 k p (set_pages m s)) as (m' & -> & Hp2 & Hf2); [lia|done..|].
  cbn [mbind res_bind]. replace (512 * k + 512) with (512 * (k + 1)) by lia.
  destruct (IH (k + 1) p (set_pages m' s)) as (m2 & Hl & Hp3 & Hf3); [simpl; lia|simpl; lia|done..| |].
  { intros Hm. by rewrite same_l2 by (lia || done). }
  exists m2. splits; done.
Qed.

Lemma add_loop_spec pmap v2m l2 n fuel : forall k cur rest s,
  0 <= n -> 0 <= k <= map_count n -> map_count n - k <= Z.of_nat fuel ->
  map_count n <= 512 * Z.of_nat (length l2) -> (length l2 <= 32)%nat -> num_l2_pages s = 0 ->
  length (l2_list_pages s) = 32%nat -> take (Z.to_nat (map_count k)) (l2_list_pages s) = take (Z.to_nat (map_count k)) l2 ->
  placed l2 s -> filled pmap v2m l2 k s -> (k mod 512 <> 0 -> l2 !! Z.to_nat (k / 512) = Some cur) ->
  exists m L, add_loop pmap v2m fuel n (512 * k) k (map_count k) (map_count k) cur (drop (Z.to_nat (map_count k)) l2 ++ rest) s =
      Ok (map_count (map_count n), set_pages m (set_l2_list L s)) /\
    length L = 32%nat /\ take (Z.to_nat (map_count (map_count n))) L = take (Z.to_nat (map_count (map_count n))) l2 /\
    placed l2 (set_pages m s) /\ filled pmap v2m l2 (map_count n) (set_pages m s).
Proof.
  induction fuel as [|fuel IH]; intros k cur rest s Hn Hk Hfuel Hlen H32 Hnum HL Htake Hp Hf Hcur;
    cbn [add_loop]; rewrite map_count_lt by done; destruct (Z.ltb_spec k (map_count n)) as [Hlt|Hge].
  1: lia. 1, 3: exists (pages s), (l2_list_pages s); replace (map_count n) with k by lia; by destruct s.
  assert (0 <= k / 512 < Z.of_nat (length l2)) as Hq by (split; [apply Z.div_pos|apply Z.div_lt_upper_bound]; lia).
  rewrite Hnum, !Z.add_0_l.
  assert (exists p m L, l2 !! Z.to_nat (k / 512) = Some p /\ placed l2 (set_pages m s) /\ filled pmap v2m l2 k (set_pages m s) /\
    entry (set_pages m s) (pfn_to_mfn_table s) (k / 512) = Some (v2m p) /\
    length L = 32%nat /\ take (Z.to_nat (map_count (k + 1))) L = take (Z.to_nat (map_count (k + 1))) l2 /\
    (if k mod ENTRIES_PER_L2_PAGE =? 0 then
       _ ← bug_on (MAX_L2_PAGES <=? map_count k);
       l2_list ← access (head (drop (Z.to_nat (map_count k)) l2 ++ rest));
       l ← set_elem (l2_list_pages s) (map_count k) l2_list;
       s ← store (pfn_to_mfn_table s) (map_count k) (v2m l2_list) (set_l2_list l s);
       Ok (map_count k + 1, map_count k + 1, l2_list, tail (drop (Z.to_nat (map_count k)) l2 ++ rest), s)
     else Ok (map_count k, map_count k, cur, drop (Z.to_nat (map_count k)) l2 ++ rest, s)) =
    Ok (map_count (k + 1), map_count (k + 1), p, drop (Z.to_nat (map_count (k + 1))) l2 ++ rest, set_pages m (set_l2_list L s)))
    as (p & m & L & Hl2 & Hp1 & Hf1 & Hr & HL1 & Htake1 & ->).
  { unfold ENTRIES_PER_L2_PAGE, MAX_L2_PAGES. destruct (Z.eqb_spec (k mod 512) 0) as [H0|H0].
    - destruct (count_first k) as [Hc ->]; [lia|done|]. rewrite Hc in Htake |- *.
      destruct (lookup_lt_is_Some_2 l2 (Z.to_nat (k / 512))) as [p Hl2]; [lia|].
      destruct (start_spec pmap v2m l2 k p s) as (m & Hs & Hp1 & Hf1 & Hr); [lia|lia|done..|].
      exists p, m, (<[Z.to_nat (k / 512) := p]> (l2_list_pages s)).
      rewrite Z2Nat.inj_add, Nat.add_1_r by lia. splits; [done..|by rewrite length_insert| |].
      + rewrite (take_S_r _ _ p), (take_S_r l2 _ p), take_insert_ge, Htake by (done || lia || (apply list_lookup_insert_eq; lia)). done.
      + rewrite (proj2 (Z.leb_gt _ _)) by lia. cbn [bug_on mbind res_bind].
        rewrite (drop_S l2 p) by done. cbn [head app access mbind res_bind tail]. rewrite set_elem_eq by lia. cbn [mbind res_bind].
        unfold store in Hs |- *. cbn [pages set_l2_list]. destruct (access (pages s !! _)) as [l| |]; [|done..]. cbn [mbind res_bind] in Hs |- *.
        destruct (set_elem l (k / 512) (v2m p)); [|done..]. cbn [mbind res_bind] in Hs |- *. injection Hs as <-. done.
    - destruct (count_later k) as [Hc Hc1]; [lia|done|]. rewrite Hc1, <- Hc. exists cur, (pages s), (l2_list_pages s).
      assert (k <> 0) as Hk0 by (by intros ->).
      destruct (Hf (k - 1) ltac:(lia)) as (p & Hl2 & Hr & _).
      pose proof (same_l2 (k - 1)) as Hs. rewrite Z.sub_add in Hs. rewrite <- Hs in Hl2, Hr by (lia || done).
      specialize (Hcur H0). rewrite Hcur in Hl2. injection Hl2 as <-. by destruct s. }
  cbn [mbind res_bind]. unfold ENTRIES_PER_L2_PAGE.
  destruct (fill_spec pmap v2m l2 k p (set_pages m (set_l2_list L s))) as (m' & -> & Hp2 & Hf2); [lia|done..|].
  cbn [mbind res_bind]. replace (512 * k + 512) with (512 * (k + 1)) by lia.
  destruct (IH (k + 1) p rest (set_pages m' (set_l2_list L s))) as (m2 & L2 & Hl & HL3 & Ht3 & Hp3 & Hf3); [done|lia|lia|done..| |].
  { intros Hm. by rewrite same_l2 by (lia || done). }
  exists m2, L2. splits; done.
Qed.

(** What the kernel keeps to build the table again. *)
Definition l2_pages (s : p2m) : list Z := take (Z.to_nat (num_l2_pages s)) (l2_list_pages s).

Record table_ok (s : p2m) : Prop := {
  t_max : 0 <= maxmem_pfn_table s <= 32 * 512 * 512;
  t_num : num_l2_pages s = map_count (map_count (maxmem_pfn_table s));
  t_list : length (l2_list_pages s) = 32%nat;
  t_placed : placed (l2_pages s) s
}.

(** Xen starts at [pfn_to_mfn_frame_list_list] and follows machine frames: what it takes for the
    frame of page [j] of the map.  [page_of] is the memory behind a machine frame. *)
Definition xen_reads (page_of : Z -> option Z) (s : p2m) (j : Z) : option Z :=
  root ← page_of (frame_list_list s);
  l2_frame ← entry s root (j / ENTRIES_PER_L2_PAGE);
  l2_page ← page_of l2_frame;
  entry s l2_page (j mod ENTRIES_PER_L2_PAGE).

(** Xen finds the whole map, and the limit of the domain. *)
Definition xen_finds (pmap : Z) (v2m : Z -> Z) (page_of : Z -> option Z) (s : p2m) : Prop :=
  (forall j, 0 <= j < map_count (maxmem_pfn_table s) -> xen_reads page_of s j = Some (v2m (map_entry pmap (512 * j)))) /\
  arch_max_pfn s = max_pfn_table s.

Lemma filled_found pmap v2m page_of l2 s :
  (forall p, page_of (v2m p) = Some p) -> filled pmap v2m l2 (map_count (maxmem_pfn_table s)) s ->
  frame_list_list s = v2m (pfn_to_mfn_table s) -> arch_max_pfn s = max_pfn_table s -> xen_finds pmap v2m page_of s.
Proof.
  intros Hpo Hf Hroot Hmax. split; [|done]. intros j Hj. destruct (Hf j Hj) as (p & _ & Hr & He).
  unfold xen_reads, ENTRIES_PER_L2_PAGE. rewrite Hroot, Hpo. simpl. rewrite Hr. simpl. by rewrite Hpo.
Qed.

Lemma count_bound n : 0 <= n <= 32 * 512 * 512 ->
  0 <= map_count (map_count n) <= 32 /\ 0 <= map_count n <= 512 * map_count (map_count n).
Proof.
  intros Hn. unfold map_count.
  assert (0 <= (n + 511) / 512 <= 32 * 512) as Hm.
  { split; [apply Z.div_pos; lia|]. apply Z.lt_succ_r, Z.div_lt_upper_bound; lia. }
  set (m := (n + 511) / 512) in *. pose proof (Z.div_mod (m + 511) 512 ltac:(lia)). pose proof (Z.mod_pos_bound (m + 511) 512 ltac:(lia)). lia.
Qed.

(** [arch_init_p2m] builds the whole table: for every size of up to 32 GB, when the first
    pages that [alloc_page] returns are distinct pages, it returns, Xen finds every page of the
    map through the table, and the limit it sees is the current number of pages. *)
Lemma arch_init_p2m_built pmap v2m page_of max_pfn maxmem root fresh s :
  (forall p, page_of (v2m p) = Some p) -> 0 <= maxmem <= 32 * 512 * 512 -> length (l2_list_pages s) = 32%nat ->
  map_count (map_count maxmem) <= Z.of_nat (length fresh) -> NoDup (root :: fresh) ->
  Forall (fun p => exists l, pages s !! p = Some l /\ length l = 512%nat) (root :: fresh) ->
  exists s', arch_init_p2m pmap v2m max_pfn maxmem root fresh s = Ok s' /\ table_ok s' /\ xen_finds pmap v2m page_of s' /\
    arch_max_pfn s' = max_pfn /\ maxmem_pfn_table s' = maxmem.
Proof.
  intros Hpo Hmax HL Hfresh Hnd Hpg. destruct (count_bound maxmem Hmax) as [Hc2 Hc1].
  set (c := Z.to_nat (map_count (map_count maxmem))). set (l2 := take c fresh).
  set (s0 := P2M (pages s) root (l2_list_pages s) 0 0 maxmem (v2m root) (arch_max_pfn s)).
  assert (length l2 = c) as Hlen by (subst l2; rewrite length_take; lia).
  assert (placed l2 s0) as Hp0.
  { rewrite <- (take_drop c fresh) in Hnd, Hpg. rewrite app_comm_cons in Hnd, Hpg.
    apply NoDup_app in Hnd as [Hnd _]. apply Forall_app in Hpg as [Hpg _]. done. }
  destruct (add_loop_spec pmap v2m l2 maxmem (map_pages maxmem) 0 0 (drop c fresh) s0) as (m & L & Hl & HL1 & Htake & Hp & Hf);
    [lia|lia|pose proof (map_count_fuel maxmem); lia|lia|lia|done..|intros j Hj; lia|done|].
  change (drop (Z.to_nat (map_count 0)) l2 ++ drop c fresh) with (take c fresh ++ drop c fresh) in Hl.
  rewrite take_drop in Hl. change (map_count 0) with 0 in Hl. subst l2.
  unfold arch_init_p2m, arch_update_p2m. fold s0. cbn [Z.eqb]. change (512 * 0) with 0 in Hl. change (0 / ENTRIES_PER_L2_PAGE) with 0.
  rewrite Hl. cbn [mbind res_bind]. eexists. split; [done|].
  change (num_l2_pages (set_pages m (set_l2_list L s0))) with 0. rewrite Z.add_0_l.
  assert (take c L = take c fresh) as HtL by (unfold c; rewrite Htake; unfold c; by rewrite take_take, Nat.min_id).
  case_match; (splits; [split; [done..|]; unfold l2_pages; simpl; fold c; by rewrite HtL| |done|done]);
    by apply (filled_found _ _ _ (take c fresh)).
Qed.

(** [arch_rebuild_p2m] repairs the table after a restore: whatever the table held, and
    however the machine frames of the domain have changed, it returns, and Xen finds every page
    of the map at its new frame; the pages of the table are used again, none is allocated. *)
Lemma arch_rebuild_p2m_restores pmap v2m s : table_ok s ->
  exists s', arch_rebuild_p2m pmap v2m s = Ok s' /\ table_ok s' /\
    (forall page_of, (forall p, page_of (v2m p) = Some p) -> xen_finds pmap v2m page_of s') /\
    max_pfn_table s' = max_pfn_table s /\ maxmem_pfn_table s' = maxmem_pfn_table s /\ l2_pages s' = l2_pages s.
Proof.
  intros [Hmax Hnum HL Hp]. destruct (count_bound _ Hmax) as [Hc2 Hc1].
  assert (length (l2_pages s) = Z.to_nat (num_l2_pages s)) as Hlen by (unfold l2_pages; rewrite length_take; lia).
  destruct (rebuild_loop_spec pmap v2m (l2_pages s) (map_pages (maxmem_pfn_table s)) 0 0 s) as (m & Hl & Hp1 & Hf);
    [lia|pose proof (map_count_fuel (maxmem_pfn_table s)); lia|lia..|by rewrite Hlen|done|intros j Hj; lia|done|].
  change (map_count 0) with 0 in Hl. change (512 * 0) with 0 in Hl. unfold arch_rebuild_p2m. rewrite Hl. cbn [mbind res_bind].
  eexists. split; [done|]. splits; [by split| |done..]. intros page_of Hpo. by apply (filled_found _ _ _ (l2_pages s)).
Qed.

(** Growing and shrinking the domain moves the limit and leaves the table. *)
Lemma update_limit pmap v2m start_pfn end_pfn adding fresh s :
  start_pfn <> 0 -> exists n, arch_update_p2m pmap v2m start_pfn end_pfn adding fresh s =
    Ok (publish_max_pfn (set_max_pfn n s)) /\
    n = (if adding then Z.max (max_pfn_table s) end_pfn else if decide (end_pfn = max_pfn_table s) then start_pfn else max_pfn_table s).
Proof.
  intros H0. unfold arch_update_p2m. rewrite (proj2 (Z.eqb_neq _ _)) by done. cbn [mbind res_bind]. eexists. split; [|done].
  f_equal. f_equal. destruct adding.
  - destruct (Z.ltb_spec (max_pfn_table s) end_pfn); [by rewrite Z.max_r by lia|rewrite Z.max_l by lia; by destruct s].
  - destruct (Z.eqb_spec end_pfn (max_pfn_table s)); [by rewrite decide_True|]. rewrite decide_False by done. by destruct s.
Qed.

(** ** A concrete domain: 300 * 1024 pages, two pages of the second level *)

Definition p2m_demo (num : Z) (l2 : list Z) : p2m :=
  let page := replicate 512 0 in
  P2M (<[100 := page]> (<[200 := page]> (<[300 := page]> ∅))) 100 (l2 ++ replicate (32 - length l2) 0) num 0 (300 * 1024) 0 0.
Definition demo_frame (base p : Z) : Z := base + p.
Definition demo_page_of (base f : Z) : option Z := Some (f - base).

Lemma demo_page_of_ok base p : demo_page_of base (demo_frame base p) = Some p.
Proof. unfold demo_page_of, demo_frame. f_equal. lia. Qed.

Lemma demo_pages num l2 : Forall (fun p => exists l, pages (p2m_demo num l2) !! p = Some l /\ length l = 512%nat) [100; 200; 300].
Proof. by repeat (apply Forall_cons; split; [eexists; split; [vm_compute; reflexivity|reflexivity]|]). Qed.

Lemma demo_pages_nodup : NoDup [100; 200; 300].
Proof. by apply (bool_decide_unpack _). Qed.

Lemma demo_table_ok : table_ok (p2m_demo 2 [200; 300]).
Proof. split; [vm_compute; by split|reflexivity|reflexivity|]. split; [apply demo_pages_nodup|apply demo_pages]. Qed.

Lemma arch_init_p2m_built_witness :
  exists s', arch_init_p2m 8192 (demo_frame 5000) 4096 (300 * 1024) 100 [200; 300] (p2m_demo 0 []) = Ok s' /\
    table_ok s' /\ xen_finds 8192 (demo_frame 5000) (demo_page_of 5000) s' /\ arch_max_pfn s' = 4096 /\ maxmem_pfn_table s' = 300 * 1024.
Proof.
  apply arch_init_p2m_built; [apply demo_page_of_ok|lia|reflexivity|by vm_compute|apply demo_pages_nodup|apply demo_pages].
Defined.

Lemma arch_rebuild_p2m_restores_witness :
  exists s', arch_rebuild_p2m 8192 (demo_frame 9000) (p2m_demo 2 [200; 300]) = Ok s' /\
    table_ok s' /\ xen_finds 8192 (demo_frame 9000) (demo_page_of 9000) s' /\
    max_pfn_table s' = 0 /\ maxmem_pfn_table s' = 300 * 1024 /\ l2_pages s' = [200; 300].
Proof.
  destruct (arch_rebuild_p2m_restores 8192 (demo_frame 9000) (p2m_demo 2 [200; 300])) as (s' & H & Hok & Hf & Hrest); [apply demo_table_ok|].
  exists s'. split; [exact H|split; [exact Hok|split; [apply Hf, demo_page_of_ok|exact Hrest]]].
Defined.

(** More than 32 GB stop the kernel. *)
Example p2m_too_large : arch_init_p2m 8192 (demo_frame 5000) 4096 (32 * 512 * 512 + 1) 100 (replicate 33 200) (p2m_demo 0 []) = Bug BUG_ON.
Proof. vm_compute. reflexivity. Qed.
