(* ===== verification/Seqlock.v ===== *)
(** Reading a record that the hypervisor updates at any time.

    Xen raises the version of a record before and after it changes the fields, so that it is
    odd during an update.  A reader of arch/x86/time.c reads the version, the fields, and the
    version again, and starts over while it sees an update.  What Xen does is the sequence of
    the records that the successive accesses of the reader see. *)
From S2P Require Import Prelude.
From stdpp Require Import options.

Section Seqlock.
Context {A : Type} (version : A -> Z) (fields : list (A -> Z)).

(** One access: the record as it is now, and what it will be. *)
Definition see (cur : A) (later : list A) : A * list A := match later with [] => (cur, []) | x :: l => (x, l) end.

(** Read the fields one after the other. *)
Fixpoint read_fields (fs : list (A -> Z)) (cur : A) (later : list A) : list Z * A * list A :=
  match fs with
  | [] => ([], cur, later)
  | f :: fs =>
      let '(cur, later) := see cur later in
      let '(vs, cur', later) := read_fields fs cur later in
      (f cur :: vs, cur', later)
  end.

(** [do v = src->version; ... while ((src->version & 1) | (v ^ src->version))]: the version
    and the fields read, and the record afterwards. *)
Fixpoint read_record (fuel : nat) (cur : A) (later : list A) : res (Z * list Z * A * list A) :=
  match fuel with
  | O => Fuel
  | S fuel =>
      let '(cur, later) := see cur later in
      let v := version cur in
      let '(vs, cur, later) := read_fields fields cur later in
      let '(c1, later) := see cur later in
      let '(c2, later) := see c1 later in
      if Z.lor (Z.land (version c1) 1) (Z.lxor v (version c2)) =? 0 then Ok (v, vs, c2, later)
      else read_record fuel c2 later
  end.

(** ** Xen's side

    The version counts without wrap-around in the model; the record shows its low 32 bits. *)
Definition same_fields (x y : A) : Prop := forall f : A -> Z, f ∈ fields -> f x = f y.

Inductive xen_step : Z * A -> Z * A -> Prop :=
| xen_begin V x x' : Z.Even V -> version x' = wrap32 (V + 1) -> same_fields x x' -> xen_step (V, x) (V + 1, x')
| xen_write V x x' : Z.Odd V -> version x' = wrap32 V -> xen_step (V, x) (V, x')
| xen_end V x x' : Z.Odd V -> version x' = wrap32 (V + 1) -> same_fields x x' -> xen_step (V, x) (V + 1, x').

Lemma same_fields_fmap x y : same_fields x y -> (fun f => f x) <$> fields = (fun f => f y) <$> fields.
Proof. intros H. apply list_fmap_ext. intros i f Hf. by apply H, (list_elem_of_lookup_2 _ i). Qed.

(** While the version is the same and even, the fields are. *)
Lemma xen_steps p q : rtc xen_step p q ->
  p.1 <= q.1 /\ (version p.2 = wrap32 p.1 -> version q.2 = wrap32 q.1) /\ (p.1 = q.1 -> Z.Even p.1 -> same_fields p.2 q.2).
Proof.
  induction 1 as [|p q r Hpq Hqr (IH1 & IH2 & IH3)]; [by splits|].
  assert (p.1 <= q.1 /\ version q.2 = wrap32 q.1 /\ (p.1 = q.1 -> Z.Odd p.1)) as (H1 & H2 & H3).
  { destruct Hpq; simpl; splits; try done; lia. }
  splits; [lia|auto|]. intros He Hev. exfalso. destruct (Z.Even_Odd_False p.1); [done|]. apply H3. lia.
Qed.

(** The records the reader sees, from [p] on, each reached by steps of Xen from the one before. *)
Fixpoint xen_run (p : Z * A) (l : list (Z * A)) : Prop :=
  match l with [] => True | q :: l => rtc xen_step p q /\ xen_run q l end.

(** What is left to be seen ends with the same record. *)
Lemma suffix_last (p q : Z * A) l k : q :: k `suffix_of` p :: l -> last (p :: l) = last (q :: k).
Proof. intros [pre ->]. by rewrite last_app_cons. Qed.

Lemma xen_run_see p l : xen_run p l ->
  exists q k, see p.2 l.*2 = (q.2, k.*2) /\ rtc xen_step p q /\ xen_run q k /\ (length k <= length l)%nat /\
    q :: k `suffix_of` p :: l /\ ((length k < length l)%nat \/ l = [] /\ k = []).
Proof.
  destruct l as [|q l]; simpl.
  - intros _. exists p, []. splits; try done. by right.
  - intros [Hq Hl]. exists q, l. splits; try done; [lia|by exists [p]|left; lia].
Qed.

Lemma xen_run_last p l : xen_run p l -> exists q, last (p :: l) = Some q /\ rtc xen_step p q.
Proof.
  revert p. induction l as [|r l IH]; intros p; [by exists p|].
  intros [Hr Hl]. destruct (IH r Hl) as (q & Hq & Hrq). exists q. split; [done|by etrans].
Qed.

Lemma read_fields_spec fs p l : fs ⊆ fields -> xen_run p l -> version p.2 = wrap32 p.1 ->
  exists vs q k, read_fields fs p.2 l.*2 = (vs, q.2, k.*2) /\ rtc xen_step p q /\ xen_run q k /\ (length k <= length l)%nat /\
    q :: k `suffix_of` p :: l /\
    (p.1 = q.1 -> Z.Even p.1 -> vs = (fun f => f q.2) <$> fs).
Proof.
  revert p l. induction fs as [|f fs IH]; intros p l Hfs Hl Hv.
  { exists [], p, l. by splits. }
  cbn [read_fields]. destruct (xen_run_see p l Hl) as (q & k & -> & Hpq & Hk & Hlen & Hlast & _).
  pose proof (xen_steps _ _ Hpq) as (H1 & H2 & H3).
  destruct (IH q k) as (vs & r & m & -> & Hqr & Hm & Hlen2 & Hlast2 & Hvs); [set_solver|done|auto|].
  pose proof (xen_steps _ _ Hqr) as (H4 & H5 & H6).
  exists (f q.2 :: vs), r, m. splits; [done|by etrans|done|lia|by etrans|]. intros He Hev. rewrite fmap_cons.
  assert (p.1 = q.1) as E1 by lia. assert (q.1 = r.1) as E2 by lia. f_equal; [|apply Hvs; congruence].
  apply H6; [done|congruence|set_solver].
Qed.

Lemma xor_eq_0 x y : Z.lxor x y = 0 <-> x = y.
Proof. split; [apply Z.lxor_eq|intros ->; apply Z.lxor_nilpotent]. Qed.

Lemma check_spec v c1 c2 : (Z.lor (Z.land c1 1) (Z.lxor v c2) =? 0) = true <-> Z.Even c1 /\ v = c2.
Proof.
  rewrite Z.eqb_eq, Z.lor_eq_0_iff, xor_eq_0. change 1 with (Z.ones 1). rewrite Z.land_ones by lia. change (2 ^ 1) with 2.
  rewrite (Zmod_even c1), <- Z.even_spec. destruct (Z.even c1); naive_solver.
Qed.

Lemma Zeven_mod_2 V : Z.Even V <-> V mod 2 = 0.
Proof. rewrite <- Z.even_spec, Zmod_even. by destruct (Z.even V). Qed.

Lemma wrap32_even V : Z.Even (wrap32 V) <-> Z.Even V.
Proof. rewrite !Zeven_mod_2. unfold wrap. by rewrite <- (Znumtheory.Zmod_div_mod 2 (2 ^ 32)) by (try done; by exists (2 ^ 31)). Qed.

(** The reader returns once Xen is quiet between two updates: with one round more than the
    records it sees, and what it returns is one whole record of Xen, the one there is at the
    end.  The version is a 32-bit count: Xen must not go through all its values meanwhile. *)
Lemma read_record_spec fuel p l : xen_run p l -> version p.2 = wrap32 p.1 ->
  (length l < fuel)%nat -> (forall q, last (p :: l) = Some q -> Z.Even q.1 /\ q.1 < p.1 + 2 ^ 32) ->
  exists q k, read_record fuel p.2 l.*2 = Ok (version q.2, (fun f => f q.2) <$> fields, q.2, k.*2) /\
    rtc xen_step p q /\ xen_run q k /\ Z.Even q.1 /\ version q.2 = wrap32 q.1 /\ q :: k `suffix_of` p :: l /\
    (length k <= length l)%nat.
Proof.
  revert p l. induction fuel as [|fuel IH]; [lia|]. intros p l Hl Hv Hfuel Hlast.
  cbn [read_record]. destruct (xen_run_see p l Hl) as (a & l1 & -> & Hpa & Hl1 & Hn1 & Ha & Hdec).
  destruct (xen_steps _ _ Hpa) as (Hpa1 & Hpa2 & _). specialize (Hpa2 Hv).
  destruct (read_fields_spec fields a l1) as (vs & b & l2 & -> & Hab & Hl2 & Hn2 & Hb & Hvs); [done..|].
  destruct (xen_steps _ _ Hab) as (Hab1 & Hab2 & _). specialize (Hab2 Hpa2).
  destruct (xen_run_see b l2 Hl2) as (c1 & l3 & -> & Hbc & Hl3 & Hn3 & Hc & _).
  destruct (xen_steps _ _ Hbc) as (Hbc1 & Hbc2 & Hbc3). specialize (Hbc2 Hab2).
  destruct (xen_run_see c1 l3 Hl3) as (c2 & l4 & -> & Hcd & Hl4 & Hn4 & Hd & _).
  destruct (xen_steps _ _ Hcd) as (Hcd1 & Hcd2 & Hcd3). specialize (Hcd2 Hbc2).
  assert (rtc xen_step p c2) as Hpc by (do 3 (etrans; [eassumption|]); done).
  assert (c2 :: l4 `suffix_of` p :: l) as Hsuf by (do 3 (etrans; [eassumption|]); done).
  pose proof (suffix_last _ _ _ _ Hsuf) as Hpl.
  pose proof (xen_run_last c2 l4 Hl4) as (z & Hz & Hcz). destruct (xen_steps _ _ Hcz) as (Hcz1 & _ & _).
  destruct (Hlast z) as [Hev Hbound]; [congruence|].
  destruct (Z.lor _ _ =? 0) eqn:Et.
  - apply check_spec in Et as [Ec Eac]. rewrite Hbc2, wrap32_even in Ec.
    assert (a.1 = c2.1) as Ea.
    { apply (mod_inj (2 ^ 32)); [lia|lia|]. unfold wrap32 in *. congruence. }
    assert (same_fields b.2 c2.2) as Hbc'.
    { intros f Hf. etrans; [apply Hbc3|apply Hcd3]; try done; try lia; by replace b.1 with c1.1 by lia. }
    exists c2, l4. splits; try done; [|by replace c2.1 with c1.1 by lia|lia].
    rewrite Hvs, Eac, (same_fields_fmap _ _ Hbc'); [done|lia|by replace a.1 with c1.1 by lia].
  - assert ((length l1 < length l)%nat) as Hlt.
    { destruct Hdec as [?|[-> ->]]; [done|]. exfalso. apply suffix_last in Ha, Hb, Hc, Hd. simpl in *.
      destruct l2; [|simpl in *; lia]. destruct l3; [|simpl in *; lia]. destruct l4; [|simpl in *; lia]. simplify_eq/=.
      apply not_true_iff_false in Et. apply Et, check_spec. split; [|done].
      rewrite Hcd2, wrap32_even. done. }
    destruct (IH c2 l4) as (q & k & -> & Hq); [done|done|lia| |].
    { intros z' Hz'. assert (z' = z) as -> by congruence. split; [done|lia]. }
    exists q, k. destruct Hq as (H1 & H2 & H3 & H4 & H5 & H6). splits; try done; [by etrans|by etrans|lia].
Qed.
End Seqlock.
