(* ===== verification/Time.v ===== *)
(** Clocks and timers: arch/x86/time.c and include/guk/time.h.

    The time stamp counter and the records Xen keeps in the shared page are what the
    environment shows: the present one and those that the next accesses will see
    ([Seqlock.see]).  The state is that of one CPU; [check_need_resched] works on the
    scheduler of [Sched].  An interrupt handler that runs in the middle of these functions is
    not modelled, except during [SCHEDOP_block]. *)
From S2P Require Import Prelude Sched Seqlock.
From stdpp Require Import options.

(** [struct vcpu_time_info] of the shared page, as far as it is read, and the wall clock. *)
Record vcpu_time_info := VTime { vt_version : Z; vt_tsc_timestamp : Z; system_time : Z; tsc_to_system_mul : Z; vt_tsc_shift : Z }.
Record wallclock := Wc { wc_version : Z; wc_sec : Z; wc_nsec : Z }.

Record shadow_time_info := Shadow {
  tsc_timestamp : Z; system_timestamp : Z; tsc_to_nsec_mul : Z; tsc_to_usec_mul : Z; tsc_shift : Z; version : Z }.

Record time_st := TimeSt {
  shadow_time : shadow_time_info;       (** of this CPU *)
  ts_sec : Z; ts_nsec : Z;              (** [shadow_ts] *)
  shadow_ts_version : Z;
  suspend_time : Z;
  suspended : Z;
  time_addend : Z;
  cpu_state : Z;
  irqs_disabled : bool;
  timer_ops : list Z;                   (** the arguments of [HYPERVISOR_set_timer_op] so far *)
  (* outside *)
  tsc : Z; tsc_later : list Z;
  xen_time : vcpu_time_info; xen_later : list vcpu_time_info;
  xen_wc : wallclock; wc_later : list wallclock
}.

Definition set_shadow v s := TimeSt v (ts_sec s) (ts_nsec s) (shadow_ts_version s) (suspend_time s) (suspended s) (time_addend s)
  (cpu_state s) (irqs_disabled s) (timer_ops s) (tsc s) (tsc_later s) (xen_time s) (xen_later s) (xen_wc s) (wc_later s).
Definition set_shadow_ts sec nsec ver s := TimeSt (shadow_time s) sec nsec ver (suspend_time s) (suspended s) (time_addend s)
  (cpu_state s) (irqs_disabled s) (timer_ops s) (tsc s) (tsc_later s) (xen_time s) (xen_later s) (xen_wc s) (wc_later s).
Definition set_suspend t n s := TimeSt (shadow_time s) (ts_sec s) (ts_nsec s) (shadow_ts_version s) t n (time_addend s)
  (cpu_state s) (irqs_disabled s) (timer_ops s) (tsc s) (tsc_later s) (xen_time s) (xen_later s) (xen_wc s) (wc_later s).
Definition set_addend v s := TimeSt (shadow_time s) (ts_sec s) (ts_nsec s) (shadow_ts_version s) (suspend_time s) (suspended s) v
  (cpu_state s) (irqs_disabled s) (timer_ops s) (tsc s) (tsc_later s) (xen_time s) (xen_later s) (xen_wc s) (wc_later s).
Definition set_cpu c i s := TimeSt (shadow_time s) (ts_sec s) (ts_nsec s) (shadow_ts_version s) (suspend_time s) (suspended s) (time_addend s)
  c i (timer_ops s) (tsc s) (tsc_later s) (xen_time s) (xen_later s) (xen_wc s) (wc_later s).
Definition add_timer_op v s := TimeSt (shadow_time s) (ts_sec s) (ts_nsec s) (shadow_ts_version s) (suspend_time s) (suspended s) (time_addend s)
  (cpu_state s) (irqs_disabled s) (timer_ops s ++ [v]) (tsc s) (tsc_later s) (xen_time s) (xen_later s) (xen_wc s) (wc_later s).
Definition set_tsc c l s := TimeSt (shadow_time s) (ts_sec s) (ts_nsec s) (shadow_ts_version s) (suspend_time s) (suspended s) (time_addend s)
  (cpu_state s) (irqs_disabled s) (timer_ops s) c l (xen_time s) (xen_later s) (xen_wc s) (wc_later s).
Definition set_xen c l s := TimeSt (shadow_time s) (ts_sec s) (ts_nsec s) (shadow_ts_version s) (suspend_time s) (suspended s) (time_addend s)
  (cpu_state s) (irqs_disabled s) (timer_ops s) (tsc s) (tsc_later s) c l (xen_wc s) (wc_later s).
Definition set_wc c l s := TimeSt (shadow_time s) (ts_sec s) (ts_nsec s) (shadow_ts_version s) (suspend_time s) (suspended s) (time_addend s)
  (cpu_state s) (irqs_disabled s) (timer_ops s) (tsc s) (tsc_later s) (xen_time s) (xen_later s) c l.

Definition CPU_UP : Z := 1.
Definition CPU_SLEEPING : Z := 4.

(** What Xen answers: the result of [HYPERVISOR_set_timer_op], what [SCHEDOP_block] and the
    handlers that run during it do, and [VCPUOP_get_runstate_info]. *)
Record time_env := TimeEnv {
  set_timer_op : Z -> Z;
  schedop_block : time_st -> time_st;
  runstate_running : Z -> Z * Z
}.

(** ** Arithmetic *)

(** [shrd $32] of the 128-bit product leaves its bits 32 to 95. *)
Definition scale_delta (delta mul_frac shift : Z) : Z :=
  let delta := if shift <? 0 then Z.shiftr delta (- shift) else wrap64 (Z.shiftl delta shift) in
  wrap64 (Z.shiftr (delta * mul_frac) 32).

Definition NSEC_TO_SEC (n : Z) : Z := n / 1000000000.
Definition NSEC_TO_USEC (n : Z) : Z := n / 1000.

(** ** Reading the clocks *)

Definition rdtscll (s : time_st) : Z * time_st :=
  let '(t, l) := see (tsc s) (tsc_later s) in (t, set_tsc t l s).

Definition get_nsec_offset (s : time_st) : Z * time_st :=
  let '(now, s) := rdtscll s in
  let delta := wrap64 (now - tsc_timestamp (shadow_time s)) in
  (scale_delta delta (tsc_to_nsec_mul (shadow_time s)) (tsc_shift (shadow_time s)), s).

Definition time_values_up_to_date (s : time_st) : bool * time_st :=
  let '(x, l) := see (xen_time s) (xen_later s) in
  (version (shadow_time s) =? vt_version x, set_xen x l s).

Definition time_fields : list (vcpu_time_info -> Z) := [vt_tsc_timestamp; system_time; tsc_to_system_mul; vt_tsc_shift].

Definition get_time_values_from_xen (s : time_st) : res time_st :=
  '(v, vs, x, l) ← read_record vt_version time_fields (S (length (xen_later s))) (xen_time s) (xen_later s);
  match vs with
  | [t; sys; mul; sh] => Ok (set_shadow (Shadow t sys mul (mul / 1000) sh v) (set_xen x l s))
  | _ => Bug BAD_ACCESS
  end.

(** The loop of [guk_monotonic_clock]. *)
Fixpoint monotonic_loop (fuel : nat) (s : time_st) : res (Z * time_st) :=
  match fuel with
  | O => Fuel
  | S fuel =>
      let local_time_version := version (shadow_time s) in
      let '(off, s) := get_nsec_offset s in
      let time := wrap64 (system_timestamp (shadow_time s) + off) in
      let '(ok, s) := time_values_up_to_date s in
      s ← (if ok then Ok s else get_time_values_from_xen s);
      if local_time_version =? version (shadow_time s) then Ok (time, s) else monotonic_loop fuel s
  end.

Definition guk_monotonic_clock (s : time_st) : res (Z * time_st) := monotonic_loop (S (S (length (xen_later s)))) s.

(** [NOW()] *)
Definition now (s : time_st) : res (Z * time_st) :=
  '(t, s) ← guk_monotonic_clock s; Ok (sgn 64 (sgn 64 t + time_addend s), s).

(** ** The wall clock *)

Definition wc_fields : list (wallclock -> Z) := [wc_sec; wc_nsec].

Definition update_wallclock (in_irq smp_init_completed : bool) (s : time_st) : res time_st :=
  _ ← bug_on (negb in_irq && smp_init_completed && (suspended s =? 0));
  '(v, vs, x, l) ← read_record wc_version wc_fields (S (length (wc_later s))) (xen_wc s) (wc_later s);
  match vs with
  | [sec; nsec] => Ok (set_shadow_ts sec nsec v (set_wc x l s))
  | _ => Bug BAD_ACCESS
  end.

(** The fields of the [struct timeval]. *)
Definition guk_gettimeofday (s : time_st) : res (Z * Z * time_st) :=
  '(nsec, s) ← guk_monotonic_clock s;
  let nsec := wrap64 (nsec + ts_nsec s) in
  _ ← bug_on (shadow_ts_version s =? 0);
  Ok (sgn 64 (ts_sec s + NSEC_TO_SEC nsec), NSEC_TO_USEC (nsec mod 1000000000), s).

(** ** Timers and preemption *)

Section Code.
Context (E : time_env).

Definition do_set_timer_op (t : Z) (s : time_st) : Z * time_st := (set_timer_op E t, add_timer_op t s).

Definition set_timer_interrupt (delta : Z) (s : time_st) : res time_st :=
  let delta := if delta <? MILLISECS 1 then MILLISECS 1 else delta in
  '(t, s) ← guk_monotonic_clock s;
  let '(ret, s) := do_set_timer_op (wrap64 (t + delta)) s in
  _ ← bug_on (negb (ret =? 0));
  Ok s.

Definition block_domain (until : Z) (s : time_st) : res time_st :=
  '(t, s) ← now s;
  let s :=
    if t <? until then
      let '(_, s) := do_set_timer_op (wrap64 (until - time_addend s)) s in
      let s := schedop_block E (set_cpu CPU_SLEEPING (irqs_disabled s) s) in
      set_cpu CPU_UP (irqs_disabled s) s
    else set_cpu (cpu_state s) false s in
  _ ← bug_on (irqs_disabled s);
  Ok s.

Definition guk_get_cpu_running_time (smp_init_completed : bool) (cpu : Z) : res Z :=
  if negb smp_init_completed then Ok 0 else
  let '(ret, t) := runstate_running E cpu in
  _ ← bug_on (negb (ret =? 0));
  Ok t.

Definition set_need_resched (t : Z) (s : sched) : res sched := upd t (set_flag RESCHED_FLAG) s.

Definition check_need_resched (smp_init_completed : bool) (cpu : Z) (sc : sched) (s : time_st) : res (sched * time_st) :=
  o ← guk_not_idle_or_stepped cpu sc;
  match o with
  | None => Ok (sc, s)
  | Some cur =>
      th ← thr sc cur;
      let resched_time := resched_running_time th in
      if resched_time =? 0 then Ok (sc, s) else
      running_time ← guk_get_cpu_running_time smp_init_completed cpu;
      if resched_time <=? running_time then sc ← set_need_resched cur sc; Ok (sc, s)
      else s ← set_timer_interrupt (wrap64 (resched_time - running_time)) s; Ok (sc, s)
  end.

Definition timer_handler (in_irq smp_init_completed : bool) (cpu : Z) (sc : sched) (s : time_st) : res (sched * time_st) :=
  s ← get_time_values_from_xen s;
  s ← update_wallclock in_irq smp_init_completed s;
  check_need_resched smp_init_completed cpu sc s.
End Code.

(** ** Start, suspension and resumption *)

Definition init_time (in_irq smp_init_completed : bool) (s : time_st) : res time_st :=
  update_wallclock in_irq smp_init_completed (set_shadow_ts 0 0 0 (set_addend 0 s)).

Definition time_suspend (s : time_st) : res time_st :=
  '(t, s) ← guk_monotonic_clock s;
  Ok (set_suspend t (sgn32 (suspended s + 1)) s).

Definition time_resume (in_irq smp_init_completed : bool) (s : time_st) : res time_st :=
  s ← get_time_values_from_xen s;
  s ← update_wallclock in_irq smp_init_completed s;
  '(t, s) ← guk_monotonic_clock s;
  let delta := sgn 64 (t - suspend_time s) in
  let s := if delta <? 0 then set_addend (sgn 64 (time_addend s - delta)) s else s in
  Ok (set_suspend (suspend_time s) (sgn32 (suspended s - 1)) s).

(** ** What the clocks show

    [copy_of x] is the shadow of the record [x], [clock_of x t] the system time that the
    record gives for the counter value [t]. *)
Definition copy_of (x : vcpu_time_info) : shadow_time_info :=
  Shadow (vt_tsc_timestamp x) (system_time x) (tsc_to_system_mul x) (tsc_to_system_mul x / 1000) (vt_tsc_shift x) (vt_version x).

Definition clock_sh (c : shadow_time_info) (t : Z) : Z :=
  wrap64 (system_timestamp c + scale_delta (wrap64 (t - tsc_timestamp c)) (tsc_to_nsec_mul c) (tsc_shift c)).
Definition clock_of (x : vcpu_time_info) (t : Z) : Z := clock_sh (copy_of x) t.

Abbreviation xen_run_time := (xen_run vt_version time_fields).
Abbreviation xen_step_time := (xen_step vt_version time_fields).

(** The environment of [s] shows [p], then the records [l]; Xen ends outside an update, and
    less than 2^32 versions after [base]. *)
Record xen_shows (base : Z) (p : Z * vcpu_time_info) (l : list (Z * vcpu_time_info)) (s : time_st) : Prop := {
  xs_now : xen_time s = p.2;
  xs_later : xen_later s = l.*2;
  xs_run : xen_run_time p l;
  xs_version : vt_version p.2 = wrap32 p.1;
  xs_last q : last (p :: l) = Some q -> Z.Even q.1 /\ q.1 < base + 2 ^ 32
}.

(** The shadow is a copy of the record [o] that Xen had at some time before [p]. *)
Record shadows (o p : Z * vcpu_time_info) (s : time_st) : Prop := {
  sh_copy : shadow_time s = copy_of o.2;
  sh_even : Z.Even o.1;
  sh_version : vt_version o.2 = wrap32 o.1;
  sh_since : rtc xen_step_time o p
}.

Lemma same_copy x y : vt_version x = vt_version y -> same_fields time_fields x y -> copy_of x = copy_of y.
Proof. intros Hv H. unfold copy_of. rewrite Hv. by rewrite !H by set_solver. Qed.

Lemma get_time_values_spec base p l s : xen_shows base p l s -> base <= p.1 ->
  exists q k, get_time_values_from_xen s = Ok (set_shadow (copy_of q.2) (set_xen q.2 k.*2 s)) /\
    rtc xen_step_time p q /\ (forall s', xen_time s' = q.2 -> xen_later s' = k.*2 -> xen_shows base q k s') /\ Z.Even q.1 /\
    q :: k `suffix_of` p :: l /\ (length k <= length l)%nat.
Proof.
  intros [Hp Hl Hrun Hv Hlast] Hb. unfold get_time_values_from_xen. rewrite Hp, Hl.
  destruct (read_record_spec vt_version time_fields (S (length l.*2)) p l) as (q & k & -> & Hpq & Hk & Hev & Hvq & Hlk & Hn); [done..| | |].
  { rewrite length_fmap. lia. }
  { intros q Hq. destruct (Hlast q Hq). split; [done|lia]. }
  exists q, k. splits; try done. intros s' H1 H2. split; try done. intros r Hr. apply Hlast. by rewrite (suffix_last _ _ _ _ Hlk).
Qed.

Lemma get_nsec_offset_spec s : exists t tl,
  get_nsec_offset s = (scale_delta (wrap64 (t - tsc_timestamp (shadow_time s))) (tsc_to_nsec_mul (shadow_time s)) (tsc_shift (shadow_time s)),
    set_tsc t tl s) /\ t :: tl `suffix_of` tsc s :: tsc_later s.
Proof.
  unfold get_nsec_offset, rdtscll, see.
  destruct (tsc_later s) as [|t tl]; [by exists (tsc s), []|]. exists t, tl. split; [done|]. by exists [tsc s].
Qed.

(** The shadow's version tells whether the record changed. *)
Lemma up_to_date o p s : shadows o p s -> p.1 < o.1 + 2 ^ 32 -> vt_version p.2 = wrap32 p.1 ->
  (version (copy_of o.2) = vt_version p.2 -> o.1 = p.1) /\ (o.1 = p.1 -> copy_of o.2 = copy_of p.2).
Proof.
  intros [_ Hev Hv Hop] Hb Hp. destruct (xen_steps _ _ _ _ Hop) as (H1 & _ & H3). cbn [version copy_of]. split; intros He.
  - apply (mod_inj (2 ^ 32)); [lia|lia|]. unfold wrap in *. congruence.
  - apply same_copy; [congruence|auto].
Qed.

Lemma shows_last base p l s : xen_shows base p l s -> Z.Even p.1 \/ l <> [] .
Proof. intros [_ _ _ _ H]. destruct l; [left; by destruct (H p)|by right]. Qed.

Lemma shows_bound base p l s : xen_shows base p l s -> p.1 < base + 2 ^ 32.
Proof.
  intros [_ _ Hr _ H]. destruct (xen_run_last _ _ p l Hr) as (q & Hq & Hpq).
  apply xen_steps in Hpq as (? & _). destruct (H q Hq). lia.
Qed.

(** The next record, as [time_values_up_to_date] reads it. *)
Lemma shows_next base p l s : xen_shows base p l s -> exists r l1,
  time_values_up_to_date s = (version (shadow_time s) =? vt_version r.2, set_xen r.2 l1.*2 s) /\ rtc xen_step_time p r /\
  (forall s', xen_time s' = r.2 -> xen_later s' = l1.*2 -> xen_shows base r l1 s') /\ r :: l1 `suffix_of` p :: l /\
  ((length l1 < length l)%nat \/ l = [] /\ l1 = [] /\ r = p).
Proof.
  intros [Hp Hl Hr Hv Hlast]. unfold time_values_up_to_date. rewrite Hp, Hl.
  destruct (xen_run_see _ _ p l Hr) as (r & l1 & E & Hpr & Hl1 & _ & Hrl & Hd). rewrite E.
  exists r, l1. splits; try done.
  - intros s' H1 H2. split; try done; [by apply (xen_steps _ _ _ _ Hpr)|]. intros q Hq. apply Hlast. by rewrite (suffix_last _ _ _ _ Hrl).
  - destruct Hd as [?|[-> ->]]; [by left|]. right. splits; try done. apply suffix_last in Hrl. simpl in Hrl. congruence.
Qed.

(** The loop ends, and the time is that of the record Xen has at the end. *)
Lemma monotonic_loop_spec fuel o p l s :
  shadows o p s -> xen_shows o.1 p l s -> (length l + 1 < fuel)%nat \/ (l = [] /\ o = p /\ (0 < fuel)%nat) ->
  exists t tl q k, monotonic_loop fuel s = Ok (clock_of q.2 t, set_shadow (copy_of q.2) (set_xen q.2 k.*2 (set_tsc t tl s))) /\
    rtc xen_step_time p q /\ Z.Even q.1 /\ (forall s', xen_time s' = q.2 -> xen_later s' = k.*2 -> xen_shows o.1 q k s') /\
    q :: k `suffix_of` p :: l /\ t :: tl `suffix_of` tsc s :: tsc_later s.
Proof.
  revert o p l s. induction fuel as [|fuel IH]; intros o p l s Ho Hs Hf; [lia|]. cbn [monotonic_loop].
  destruct (get_nsec_offset_spec s) as (t & tl & -> & Ht).
  assert (xen_shows o.1 p l (set_tsc t tl s)) as Hs1 by (by destruct Hs).
  destruct (shows_next _ _ _ _ Hs1) as (r & l1 & -> & Hpr & Hr & Hrl & Hd). clear Hs1.
  cbn [shadow_time set_tsc set_xen]. fold (clock_sh (shadow_time s) t). rewrite (sh_copy _ _ _ Ho).
  specialize (Hr (set_xen r.2 l1.*2 (set_tsc t tl s)) eq_refl eq_refl).
  assert (shadows o r s) as Hor by (destruct Ho as [? ? ? Hop]; split; try done; by etrans).
  destruct (up_to_date _ _ _ Hor (shows_bound _ _ _ _ Hr) (xs_version _ _ _ _ Hr)) as [Hu1 Hu2].
  destruct (xen_steps _ _ _ _ (sh_since _ _ _ Hor)) as (Hge & _).
  destruct (Z.eqb_spec (version (copy_of o.2)) (vt_version r.2)) as [Hv|Hv].
  - specialize (Hu1 Hv). specialize (Hu2 Hu1). cbn [mbind res_bind shadow_time set_tsc set_xen].
    rewrite (sh_copy _ _ _ Ho), Z.eqb_refl. exists t, tl, r, l1. splits; try done.
    + unfold clock_of. rewrite <- Hu2, <- (sh_copy _ _ _ Ho). done.
    + rewrite <- Hu1. apply Ho.
    + intros s' H1 H2. destruct Hr. by split.
  - destruct (get_time_values_spec _ _ _ _ Hr Hge) as (q & k & -> & Hrq & Hq & Hev & Hlast & Hn).
    cbn [mbind res_bind shadow_time set_shadow].
    set (s2 := set_shadow _ _). assert (xen_shows o.1 q k s2) as Hs2 by (by apply Hq).
    destruct (xen_steps _ _ _ _ Hrq) as (Hge2 & _).
    assert (shadows o q s) as Hoq by (destruct Hor as [? ? ? Hop]; split; try done; by etrans).
    destruct (up_to_date _ _ _ Hoq (shows_bound _ _ _ _ Hs2) (xs_version _ _ _ _ Hs2)) as [Hw _].
    destruct (Z.eqb_spec (version (copy_of o.2)) (version (copy_of q.2))) as [Hv2|_].
    { exfalso. apply Hv. specialize (Hw Hv2). assert (o.1 = r.1) as Ee by lia. rewrite (Hu2 Ee). done. }
    destruct (IH q q k s2) as (t' & tl' & z & m & -> & Hqz & Hz & Hsh & Hzl & Ht'); [by split; [|done|apply Hs2|]| | |].
    + destruct Hs2. split; try done. intros z Hz. destruct (xs_last0 z Hz). split; [done|lia].
    + destruct Hf as [Hf|(-> & -> & Hf)].
      * destruct Hd as [Hd|(-> & -> & ->)]; [left; lia|]. right. destruct k; simpl in *; [|lia]. splits; [done|apply suffix_last in Hlast; simpl in Hlast; congruence|lia].
      * exfalso. destruct Hd as [Hd|(_ & -> & ->)]; [simpl in Hd; lia|]. done.
    + exists t', tl', z, m. splits; try done; [by do 2 (etrans; [eassumption|])| |by do 2 (etrans; [eassumption|])|by etrans].
      intros s' H1 H2. destruct (Hsh s' H1 H2) as [? ? ? ? Hl']. split; try done. intros w Hw'.
      apply (xs_last _ _ _ _ Hr). by rewrite (suffix_last _ _ _ _ Hlast), (suffix_last _ _ _ _ Hzl).
Qed.

(** What one call of the clock does: the time of the record that Xen has at the end of the
    call, at a counter value read during it; the shadow is then a copy of that record. *)
Lemma guk_monotonic_clock_spec o p l s : shadows o p s -> xen_shows o.1 p l s ->
  exists t tl q k, guk_monotonic_clock s = Ok (clock_of q.2 t, set_shadow (copy_of q.2) (set_xen q.2 k.*2 (set_tsc t tl s))) /\
    rtc xen_step_time p q /\ Z.Even q.1 /\ (forall s', xen_time s' = q.2 -> xen_later s' = k.*2 -> xen_shows o.1 q k s') /\
    q :: k `suffix_of` p :: l /\ t :: tl `suffix_of` tsc s :: tsc_later s.
Proof.
  intros Ho Hs. apply monotonic_loop_spec; [done|done|]. left. rewrite (xs_later _ _ _ _ Hs), length_fmap. lia.
Qed.

(** From [s] to [s'] the clock is read to the end: the records and the counter values that the
    environment shows are used up from the front, the shadow is a copy of the last record read,
    which Xen was not writing, and the clock shows the time of that record at the last counter
    value read. *)
Record clock_read (s s' : time_st) : Prop := {
  cr_copy : shadow_time s' = copy_of (xen_time s');
  cr_even : Z.Even (vt_version (xen_time s'));
  cr_xen : xen_time s' :: xen_later s' `suffix_of` xen_time s :: xen_later s;
  cr_tsc : tsc s' :: tsc_later s' `suffix_of` tsc s :: tsc_later s
}.
Definition clock_value (s : time_st) : Z := clock_of (xen_time s) (tsc s).

Lemma guk_monotonic_clock_reads o p l s : shadows o p s -> xen_shows o.1 p l s ->
  exists x k t tl, let s' := set_shadow (copy_of x) (set_xen x k (set_tsc t tl s)) in
    guk_monotonic_clock s = Ok (clock_value s', s') /\ clock_read s s'.
Proof.
  intros Ho Hs. destruct (guk_monotonic_clock_spec o p l s Ho Hs) as (t & tl & q & k & -> & _ & Hev & Hq & [pre Hsuf] & Ht).
  exists q.2, k.*2, t, tl. split; [done|]. split; cbn [shadow_time xen_time xen_later tsc tsc_later set_shadow set_xen set_tsc]; [done| |by exists pre.*2; rewrite (xs_now _ _ _ _ Hs), (xs_later _ _ _ _ Hs), <- fmap_cons, Hsuf, fmap_app|done].
  rewrite (xs_version _ _ _ _ (Hq (set_xen q.2 k.*2 s) eq_refl eq_refl)). by apply wrap32_even.
Qed.

(** ** The scaled counter *)

Lemma scale_delta_range d m sh : 0 <= scale_delta d m sh < 2 ^ 64.
Proof. apply wrap_range. lia. Qed.

(** With a 32-bit fraction nothing above bit 95 of the product exists. *)
Lemma scale_delta_right d m k : 0 <= d < 2 ^ 64 -> 0 <= m < 2 ^ 32 -> 0 < k -> scale_delta d m (- k) = d / 2 ^ k * m / 2 ^ 32.
Proof.
  intros Hd Hm Hk. unfold scale_delta. destruct (Z.ltb_spec (- k) 0); [|lia].
  rewrite Z.opp_involutive, !Z.shiftr_div_pow2 by lia. apply wrap_small.
  assert (0 <= d / 2 ^ k <= d).
  { pose proof (Z.pow_pos_nonneg 2 k). split; [apply Z.div_pos; lia|]. apply Z.div_le_upper_bound; nia. }
  split; [apply Z.div_pos; nia|]. apply Z.div_lt_upper_bound; nia.
Qed.

Lemma scale_delta_left d m k : 0 <= d -> d * 2 ^ k < 2 ^ 64 -> 0 <= m < 2 ^ 32 -> 0 <= k ->
  scale_delta d m k = d * 2 ^ k * m / 2 ^ 32.
Proof.
  intros Hd Ho Hm Hk. unfold scale_delta. destruct (Z.ltb_spec k 0); [lia|].
  pose proof (Z.pow_pos_nonneg 2 k). rewrite Z.shiftl_mul_pow2, Z.shiftr_div_pow2 by lia.
  rewrite (wrap_small 64 (d * 2 ^ k)) by nia. apply wrap_small.
  split; [apply Z.div_pos; nia|]. apply Z.div_lt_upper_bound; nia.
Qed.

(** Within one record the scaled time does not go back with the counter. *)
Lemma scale_delta_mono d d' m sh : 0 <= d <= d' -> d' < 2 ^ 64 -> 0 <= m < 2 ^ 32 -> (0 <= sh -> d' * 2 ^ sh < 2 ^ 64) ->
  scale_delta d m sh <= scale_delta d' m sh.
Proof.
  intros Hd Hd' Hm Hsh. destruct (Z.lt_ge_cases sh 0).
  - replace sh with (- - sh) by lia. rewrite !scale_delta_right by lia.
    assert (d / 2 ^ (- sh) <= d' / 2 ^ (- sh)) by (apply Z.div_le_mono; [apply Z.pow_pos_nonneg; lia|lia]).
    apply Z.div_le_mono; nia.
  - assert (0 < 2 ^ sh) by (apply Z.pow_pos_nonneg; lia). specialize (Hsh H).
    assert (d * 2 ^ sh <= d' * 2 ^ sh) by (apply Z.mul_le_mono_nonneg_r; lia).
    rewrite !scale_delta_left by lia. apply Z.div_le_mono; [lia|]. apply Z.mul_le_mono_nonneg_r; lia.
Qed.

(** ** The wall clock *)

Record wc_shows (p : Z * wallclock) (l : list (Z * wallclock)) (s : time_st) : Prop := {
  ws_now : xen_wc s = p.2;
  ws_later : wc_later s = l.*2;
  ws_run : xen_run wc_version wc_fields p l;
  ws_version : wc_version p.2 = wrap32 p.1;
  ws_last q : last (p :: l) = Some q -> Z.Even q.1 /\ q.1 < p.1 + 2 ^ 32
}.

Lemma update_wallclock_spec p l irq smp s : wc_shows p l s -> irq = true \/ smp = false \/ suspended s <> 0 ->
  exists q (k : list (Z * wallclock)), update_wallclock irq smp s = Ok (set_shadow_ts (wc_sec q.2) (wc_nsec q.2) (wc_version q.2) (set_wc q.2 k.*2 s)) /\
    rtc (xen_step wc_version wc_fields) p q /\ Z.Even q.1.
Proof.
  intros [Hp Hl Hr Hv Hlast] Hc. unfold update_wallclock.
  replace (negb irq && smp && (suspended s =? 0)) with false.
  2: { destruct irq, smp, (Z.eqb_spec (suspended s) 0); naive_solver. }
  cbn [bug_on mbind res_bind]. rewrite Hp, Hl.
  destruct (read_record_spec wc_version wc_fields (S (length l.*2)) p l) as (q & k & -> & Hpq & _ & Hev & _); [done..| |done|].
  { rewrite length_fmap. lia. }
  by exists q, k.
Qed.

(** C24: [guk_gettimeofday] returns the wall clock time: the seconds and microseconds of the
    shadow of Xen's wall clock plus the system time, rounded down, with less than 10^6
    microseconds.  The system time is that of the record Xen has when the call ends, a whole
    one, at the last counter value read; reading the clock ends although Xen updates the record
    meanwhile. *)
Theorem guk_gettimeofday_spec o p l s :
  shadows o p s -> xen_shows o.1 p l s -> shadow_ts_version s <> 0 ->
  exists sec usec s', guk_gettimeofday s = Ok (sec, usec, s') /\ clock_read s s' /\ 0 <= usec < 10 ^ 6 /\
    (0 <= ts_sec s < 2 ^ 32 -> 0 <= ts_nsec s -> clock_value s' + ts_nsec s < 2 ^ 64 ->
      sec * 10 ^ 6 + usec = (ts_sec s * 10 ^ 9 + ts_nsec s + clock_value s') / 1000).
Proof.
  intros Ho Hs Hv. unfold guk_gettimeofday.
  destruct (guk_monotonic_clock_reads _ _ _ _ Ho Hs) as (x & k & t & tl & -> & Hr).
  cbn [mbind res_bind shadow_ts_version ts_nsec ts_sec set_shadow set_xen set_tsc].
  destruct (Z.eqb_spec (shadow_ts_version s) 0) as [?|_]; [done|]. cbn [bug_on]. set (s' := set_shadow _ _) in *.
  assert (0 <= clock_value s' < 2 ^ 64) as Hval by (apply wrap_range; lia).
  set (n := wrap64 _). pose proof (wrap_range 64 (clock_value s' + ts_nsec s)) as Hn. fold n in Hn.
  eexists _, _, s'. splits; try done.
  - pose proof (Z.mod_pos_bound n 1000000000). apply Z.div_pos; lia.
  - pose proof (Z.mod_pos_bound n 1000000000). apply Z.div_lt_upper_bound; lia.
  - intros Hsec Hns Hov. assert (n = clock_value s' + ts_nsec s) as En by (apply wrap_small; lia).
    unfold NSEC_TO_SEC, NSEC_TO_USEC. rewrite sgn_small; [|done|].
    2: { assert (n / 1000000000 < 2 ^ 62) by (apply Z.div_lt_upper_bound; lia).
         pose proof (Z.div_pos n 1000000000). lia. }
    replace (ts_sec s * 10 ^ 9 + ts_nsec s + clock_value s') with (ts_sec s * 10 ^ 9 + n) by lia.
    rewrite (Z_div_mod_eq_full n 1000000000) at 3. set (a := n / _). set (b := n mod _).
    replace (ts_sec s * 10 ^ 9 + (1000000000 * a + b)) with (b + ((ts_sec s + a) * 10 ^ 6) * 1000) by lia.
    rewrite Z.div_add by lia. lia.
Qed.

(** ** Suspension *)

Lemma sgn64_id x : - 2 ^ 63 <= x < 2 ^ 63 -> sgn 64 x = x.
Proof. apply (sgn_id 64). lia. Qed.

Lemma clock_of_range x t : 0 <= clock_of x t < 2 ^ 64.
Proof. apply wrap_range. lia. Qed.

Lemma time_suspend_spec o p l s : shadows o p s -> xen_shows o.1 p l s ->
  exists s1, time_suspend s = Ok s1 /\ clock_read s s1 /\ suspend_time s1 = clock_value s1 /\
    suspended s1 = sgn32 (suspended s + 1) /\ time_addend s1 = time_addend s.
Proof.
  intros Ho Hs. unfold time_suspend.
  destruct (guk_monotonic_clock_reads _ _ _ _ Ho Hs) as (x & k & t & tl & -> & [? ? ? ?]).
  eexists. splits; try done.
Qed.

(** The clock at the end of [time_resume], which starts from records of another machine. *)
Lemma time_resume_spec p l pw lw irq smp s : xen_shows p.1 p l s -> wc_shows pw lw s -> suspended s <> 0 ->
  exists s3, time_resume irq smp s = Ok s3 /\ clock_read s s3 /\ suspended s3 = sgn32 (suspended s - 1) /\
    time_addend s3 = (let delta := sgn 64 (clock_value s3 - suspend_time s) in
                      if delta <? 0 then sgn 64 (time_addend s - delta) else time_addend s).
Proof.
  intros Hs Hw Hn. unfold time_resume.
  destruct (get_time_values_spec p.1 p l s Hs) as (a & k & -> & Hpa & Ha & Hev & [pre Hsuf] & _); [lia|]. cbn [mbind res_bind].
  set (s1 := set_shadow _ _). assert (wc_shows pw lw s1) as Hw1 by (by destruct Hw).
  destruct (update_wallclock_spec pw lw irq smp s1 Hw1) as (w & kw & -> & _); [by right; right|]. cbn [mbind res_bind].
  set (s2 := set_shadow_ts _ _ _ _). assert (xen_shows p.1 a k s2) as Hs2 by (by apply Ha).
  assert (xen_time s2 :: xen_later s2 `suffix_of` xen_time s :: xen_later s) as Hx.
  { exists pre.*2. rewrite (xs_now _ _ _ _ Hs), (xs_later _ _ _ _ Hs), <- fmap_cons, Hsuf, fmap_app. done. }
  destruct (guk_monotonic_clock_reads a a k s2) as (x & m & t & tl & -> & [R1 R2 R3 R4]).
  { split; try done. apply Hs2. }
  { destruct Hs2. split; try done. intros z Hz. apply xen_steps in Hpa as (? & _). destruct (xs_last0 z Hz). split; [done|lia]. }
  cbn [mbind res_bind]. set (s3 := set_shadow _ (set_xen x m _)) in *. cbv zeta.
  eexists. split; [done|]. destruct (sgn 64 (clock_value s3 - suspend_time s3) <? 0) eqn:Ed;
    (splits; [split; [exact R1|exact R2|by etrans|exact R4]|done|]);
    (change (suspend_time s3) with (suspend_time s) in Ed; unfold clock_value; cbn [xen_time tsc set_suspend set_addend]; fold (clock_value s3); by rewrite Ed).
Qed.

(** C26: system time does not go back over a suspension.  [time_suspend] stores the time of the
    record that Xen has then, at the last counter value read; whatever machine the guest wakes
    up on, [time_resume] ends, undoes [time_suspend]'s count, and leaves [NOW] at the larger of
    its value at the suspension and the one the new clock gives. *)
Theorem time_resume_continues o p l s : shadows o p s -> xen_shows o.1 p l s -> 0 <= suspended s < 2 ^ 31 - 1 ->
  exists s1, time_suspend s = Ok s1 /\ clock_read s s1 /\ suspend_time s1 = clock_value s1 /\
    suspended s1 = suspended s + 1 /\ time_addend s1 = time_addend s /\
    forall s2 p2 l2 pw lw irq smp,
    suspend_time s2 = suspend_time s1 -> suspended s2 = suspended s1 -> time_addend s2 = time_addend s1 ->
    xen_shows p2.1 p2 l2 s2 -> wc_shows pw lw s2 ->
    exists s3, time_resume irq smp s2 = Ok s3 /\ clock_read s2 s3 /\ suspended s3 = suspended s /\
      (clock_value s1 < 2 ^ 62 -> clock_value s3 < 2 ^ 62 -> - 2 ^ 62 <= time_addend s < 2 ^ 62 ->
        clock_value s3 + time_addend s3 = (clock_value s1 + time_addend s) `max` (clock_value s3 + time_addend s)).
Proof.
  intros Ho Hs Hn. destruct (time_suspend_spec o p l s Ho Hs) as (s1 & E1 & Hr1 & Em & En & Ea).
  rewrite (sgn_id 32) in En by lia.
  exists s1. splits; try done. intros s2 p2 l2 pw lw irq smp H1 H2 H3 Hs2 Hw2.
  destruct (time_resume_spec p2 l2 pw lw irq smp s2 Hs2 Hw2) as (s3 & E3 & Hr3 & Hn3 & Ha3); [lia|].
  exists s3. splits; try done.
  - rewrite Hn3, H2, En, (sgn_id 32); lia.
  - intros Hm Hc Ha. rewrite Ha3, H1, H3, Ea, Em. cbv zeta. pose proof (clock_of_range (xen_time s3) (tsc s3)). pose proof (clock_of_range (xen_time s1) (tsc s1)).
    unfold clock_value in *. rewrite (sgn64_id (_ - _)) by lia. destruct (Z.ltb_spec (clock_of (xen_time s3) (tsc s3) - clock_of (xen_time s1) (tsc s1)) 0); [rewrite sgn64_id by lia|]; lia.
Qed.

(** ** Timers *)

Section Timers.
Context (E : time_env).

(** A delta below a millisecond is raised to one. *)
Lemma set_timer_interrupt_spec delta o p l s : shadows o p s -> xen_shows o.1 p l s -> (forall t, set_timer_op E t = 0) ->
  exists q t s', set_timer_interrupt E delta s = Ok s' /\ rtc xen_step_time p q /\ t ∈ tsc s :: tsc_later s /\
    timer_ops s' = timer_ops s ++ [wrap64 (clock_of q.2 t + 1000000 `max` delta)].
Proof.
  intros Ho Hs HE. unfold set_timer_interrupt.
  destruct (guk_monotonic_clock_spec _ _ _ _ Ho Hs) as (t & tl & q & k & -> & Hpq & _ & _ & _ & [pre Ht]).
  unfold MILLISECS. cbn [mbind res_bind do_set_timer_op]. rewrite HE. eexists q, t, _. splits; [done|done|rewrite Ht; set_solver|].
  cbn. repeat f_equal. destruct (Z.ltb_spec delta (1 * 1000000)); lia.
Qed.

(** C27: [block_domain] gives the CPU to Xen only before the time asked for, with a timer at
    that time on Xen's clock, and marks the CPU as sleeping just for that; on both ways out
    interrupts are enabled and the CPU is marked as it was, as long as Xen enables the events
    it blocks for. *)
Theorem block_domain_spec until o p l s : shadows o p s -> xen_shows o.1 p l s -> cpu_state s = CPU_UP ->
  (forall x, irqs_disabled (schedop_block E x) = false) ->
  exists t q tl (k : list (Z * vcpu_time_info)) s', block_domain E until s = Ok s' /\ rtc xen_step_time p q /\ irqs_disabled s' = false /\ cpu_state s' = CPU_UP /\
    let now := sgn 64 (sgn 64 (clock_of q.2 t) + time_addend s) in
    let s1 := set_shadow (copy_of q.2) (set_xen q.2 k.*2 (set_tsc t tl s)) in
    s' = (if now <? until
          then set_cpu CPU_UP false (schedop_block E (set_cpu CPU_SLEEPING (irqs_disabled s) (add_timer_op (wrap64 (until - time_addend s)) s1)))
          else set_cpu CPU_UP false s1).
Proof.
  intros Ho Hs Hc HE. unfold block_domain, now.
  destruct (guk_monotonic_clock_spec _ _ _ _ Ho Hs) as (t & tl & q & k & -> & Hpq & _).
  cbn [mbind res_bind time_addend set_shadow set_xen set_tsc]. exists t, q, tl, k.
  destruct (_ <? until) eqn:El.
  - unfold do_set_timer_op. cbv beta iota zeta. rewrite HE. eexists. splits; done.
  - rewrite <- Hc. eexists. splits; done.
Qed.

(** The timer interrupt marks the running thread when its slice is over; before, it asks for
    the next interrupt, for when it will be. *)
Lemma check_need_resched_spec cpu sc cur th r o p l s :
  shadows o p s -> xen_shows o.1 p l s -> (forall t, set_timer_op E t = 0) ->
  guk_not_idle_or_stepped cpu sc = Ok (Some cur) -> threads sc !! cur = Some th -> runstate_running E cpu = (0, r) ->
  0 <= r -> 0 <= resched_running_time th < 2 ^ 64 ->
  exists sc' s', check_need_resched E true cpu sc s = Ok (sc', s') /\
    if resched_running_time th =? 0 then sc' = sc /\ s' = s
    else if resched_running_time th <=? r then threads sc' = <[cur := set_flag RESCHED_FLAG th]> (threads sc) /\ s' = s
    else sc' = sc /\ exists q t, rtc xen_step_time p q /\
      timer_ops s' = timer_ops s ++ [wrap64 (clock_of q.2 t + 1000000 `max` (resched_running_time th - r))].
Proof.
  intros Ho Hs HE Hcur Hth Hr Hr0 Hrange. unfold check_need_resched. rewrite Hcur. cbn [mbind res_bind].
  unfold thr. rewrite Hth. cbn [access mbind res_bind]. destruct (Z.eqb_spec (resched_running_time th) 0) as [_|Hnz]; [by eauto|].
  unfold guk_get_cpu_running_time. cbn [negb]. rewrite Hr. cbn [bug_on negb Z.eqb mbind res_bind].
  destruct (Z.leb_spec (resched_running_time th) r) as [Hle|Hgt].
  - unfold set_need_resched, upd, thr. rewrite Hth. cbn [access mbind res_bind]. by eexists _, s.
  - destruct (set_timer_interrupt_spec (wrap64 (resched_running_time th - r)) o p l s Ho Hs HE) as (q & t & s' & -> & Hq & _ & Ht).
    rewrite (wrap_small 64 (_ - r)) in Ht by lia. cbn [mbind res_bind]. eexists _, _. split; [done|]. split; [done|]. by exists q, t.
Qed.
End Timers.

(** ** A concrete run

    Xen updates its record while the guest reads it, and after the suspension the machine's
    clock is behind. *)
Definition demo_x (V tsc sys : Z) : Z * vcpu_time_info := (V, VTime V tsc sys (2 ^ 31) 1).
Definition demo_run : list (Z * vcpu_time_info) := [demo_x 3 1000 50000; demo_x 3 9000 58000; demo_x 4 9000 58000].
Definition demo_w : Z * wallclock := (6, Wc 6 1700000000 999999000).

Definition demo_time : time_st :=
  TimeSt (copy_of (demo_x 2 1000 50000).2) 1700000000 999999000 6 0 0 500 CPU_UP true [] 11000 [12000; 13000; 14000]
    (demo_x 2 1000 50000).2 demo_run.*2 demo_w.2 [].

(** The same kernel on another machine. *)
Definition demo_woken (s : time_st) : time_st :=
  TimeSt (shadow_time s) (ts_sec s) (ts_nsec s) (shadow_ts_version s) (suspend_time s) (suspended s) (time_addend s) CPU_UP true
    (timer_ops s) 300 [400; 500] (demo_x 8 100 2000).2 [] demo_w.2 [].

Lemma demo_shadows : shadows (demo_x 2 1000 50000) (demo_x 2 1000 50000) demo_time.
Proof. split; [done|by exists 1|done|done]. Qed.

Lemma demo_shows : xen_shows (demo_x 2 1000 50000).1 (demo_x 2 1000 50000) demo_run demo_time.
Proof.
  assert (forall V x y : Z, same_fields time_fields (demo_x V x y).2 (demo_x (V + 1) x y).2) as Hsame.
  { intros V x y f Hf. unfold time_fields in Hf. rewrite !elem_of_cons, elem_of_nil in Hf. by destruct Hf as [->|[->|[->|[->|[]]]]]. }
  split; [done|done| |done|].
  - repeat split; apply rtc_once.
    + apply (xen_begin _ _ 2); [by exists 1|done|apply (Hsame 2)].
    + apply xen_write; [by exists 1|done].
    + apply (xen_end _ _ 3); [by exists 1|done|apply (Hsame 3)].
  - intros q [= <-]. split; [by exists 2|done].
Qed.

Lemma demo_woken_shows s : xen_shows (demo_x 8 100 2000).1 (demo_x 8 100 2000) [] (demo_woken s).
Proof. split; try done. intros q [= <-]. split; [by exists 4|done]. Qed.

Lemma demo_woken_wc s : wc_shows demo_w [] (demo_woken s).
Proof. split; try done. intros q [= <-]. split; [by exists 3|done]. Qed.

(** The reading of the first round is of the old record; the loop goes round again. *)
Lemma guk_gettimeofday_spec_witness : exists sec usec s', guk_gettimeofday demo_time = Ok (sec, usec, s') /\ clock_read demo_time s' /\
  xen_time s' = (demo_x 4 9000 58000).2 /\ tsc s' = 13000 /\ clock_value s' = 62000 /\
  0 <= usec < 10 ^ 6 /\ sec * 10 ^ 6 + usec = (1700000000 * 10 ^ 9 + 999999000 + 62000) / 1000.
Proof.
  destruct (guk_gettimeofday_spec _ _ _ demo_time demo_shadows demo_shows) as (sec & usec & s' & E & Hr & Hu & H); [discriminate|].
  assert (s' = (get (guk_gettimeofday demo_time) (0, 0, demo_time)).2) as Es by (by rewrite E).
  assert (xen_time s' = (demo_x 4 9000 58000).2) as Ex by (by rewrite Es). assert (tsc s' = 13000) as Et by (by rewrite Es).
  assert (clock_value s' = 62000) as Ev by (unfold clock_value; by rewrite Ex, Et).
  exists sec, usec, s'. rewrite Ev in H. splits; try done; [lia|lia|]. apply H; by vm_compute.
Defined.

Example demo_gettimeofday : (fun r => (r.1, tsc r.2)) (get (guk_gettimeofday demo_time) (0, 0, demo_time)) = ((1700000001, 61), 13000).
Proof. reflexivity. Qed.

Lemma time_resume_continues_witness : exists s1 s3, time_suspend demo_time = Ok s1 /\ suspend_time s1 = 62000 /\
  time_resume false true (demo_woken s1) = Ok s3 /\ suspended s3 = 0 /\ clock_value s3 = 2300 /\ clock_value s3 + time_addend s3 = 62000 + 500.
Proof.
  destruct (time_resume_continues _ _ _ demo_time demo_shadows demo_shows) as (s1 & E & _ & _ & _ & _ & H); [done|].
  destruct (H (demo_woken s1) (demo_x 8 100 2000) [] demo_w [] false true) as (s3 & E3 & _ & Hn & Hc); [done|done|done|apply demo_woken_shows|apply demo_woken_wc|].
  assert (s1 = get (time_suspend demo_time) demo_time) as -> by (by rewrite E).
  assert (s3 = get (time_resume false true (demo_woken (get (time_suspend demo_time) demo_time))) demo_time) as Es3 by (by rewrite E3).
  assert (clock_value (get (time_suspend demo_time) demo_time) = 62000) as E1 by (by vm_compute).
  assert (clock_value s3 = 2300) as E2 by (rewrite Es3; by vm_compute). rewrite E1, E2 in Hc.
  exists (get (time_suspend demo_time) demo_time), s3. rewrite E2. splits; [exact E|by vm_compute|exact E3|exact Hn|done|].
  etrans; [apply Hc|]; by vm_compute.
Defined.

Definition demo_env : time_env := TimeEnv (fun _ => 0) (set_cpu CPU_SLEEPING false) (fun _ => (0, 0)).

Lemma block_domain_spec_witness : exists t q tl (k : list (Z * vcpu_time_info)) s', block_domain demo_env 100000 demo_time = Ok s' /\
  rtc xen_step_time (demo_x 2 1000 50000) q /\ irqs_disabled s' = false /\ cpu_state s' = CPU_UP /\
  let now := sgn 64 (sgn 64 (clock_of q.2 t) + time_addend demo_time) in
  let s1 := set_shadow (copy_of q.2) (set_xen q.2 k.*2 (set_tsc t tl demo_time)) in
  s' = (if now <? 100000
        then set_cpu CPU_UP false (schedop_block demo_env
               (set_cpu CPU_SLEEPING (irqs_disabled demo_time) (add_timer_op (wrap64 (100000 - time_addend demo_time)) s1)))
        else set_cpu CPU_UP false s1).
Proof. exact (block_domain_spec demo_env 100000 _ _ _ demo_time demo_shadows demo_shows eq_refl (fun _ => eq_refl)). Defined.

(** It blocked, until 100000 - 500 on Xen's clock. *)
Example demo_block : timer_ops (get (block_domain demo_env 100000 demo_time) demo_time) = [99500].
Proof. reflexivity. Qed.
