(* ===== verification/Smp.v ===== *)
(** Suspending and resuming the processors: smp.c, guk/smp.h, and the parts of the idle thread
    ([check_suspend] and [idle_thread_fn] of sched.c, [block_domain] of arch/x86/time.c) that
    read and write the state of a CPU.

    The processors run at the same time.  Every access to [cpu_state], which no lock protects,
    is a step; a critical section under [cpu_lock] is one step that needs the lock free, except
    in [smp_suspend], which holds the lock over many steps.  The idle thread of every CPU and
    the thread that suspends are programs with a program counter. *)
From S2P Require Import Prelude.
From stdpp Require Import options.

(** ** Data *)

Definition CPU_DOWN : Z := 0.
Definition CPU_UP : Z := 1.
Definition CPU_SUSPENDING : Z := 2.
Definition CPU_RESUMING : Z := 3.
Definition CPU_SLEEPING : Z := 4.

(** Where the idle thread of a CPU is. *)
Inductive idle_pc :=
| I_off        (** the CPU was never started *)
| I_start      (** idle_thread_fn, before [cpu_state = CPU_UP] *)
| I_check      (** check_suspend, before its test *)
| I_run        (** after the test: other threads run, or the CPU is about to block *)
| I_sleep      (** block_domain, before [cpu_state = CPU_SLEEPING] *)
| I_blocked    (** in SCHEDOP_block *)
| I_woken      (** block_domain, before [cpu_state = CPU_UP] *)
| I_parked     (** the endless loop of check_suspend, before smp_cpu_safe *)
| I_count      (** smp_cpu_safe, before [--suspend_count] *)
| I_mark_down  (** before [cpu_state = CPU_DOWN] *)
| I_inactive   (** before [smp_active--] *)
| I_active.    (** before [smp_active++] and the restart of the idle thread *)

(** Where the thread that suspends and resumes is. *)
Inductive susp_pc :=
| S_lock | S_test (cpu : nat) | S_inc (cpu : nat) | S_write (cpu : nat) | S_signal (cpu : nat)
| S_while | S_unlock | S_sleep
| S_done       (** smp_suspend has returned *)
| R_test (cpu : nat) | R_write (cpu : nat) | R_up (cpu : nat)
| R_done.

(** What became of the mark of smp_suspend: a variable that only the proofs read. *)
Inductive mark := Unmarked | Marked | Counted.

#[global] Instance idle_pc_eq_dec : EqDecision idle_pc.
Proof. solve_decision. Defined.
#[global] Instance susp_pc_eq_dec : EqDecision susp_pc.
Proof. solve_decision. Defined.
#[global] Instance mark_eq_dec : EqDecision mark.
Proof. solve_decision. Defined.

Record cpu_private := Cpu { cpu_state : Z; ipi_port : Z; idle_at : idle_pc; marked : mark }.

Record smp := Smp {
  percpu : list cpu_private;
  suspend_count : Z;
  smp_active : Z;
  cpu_lock : bool;        (** held by smp_suspend *)
  susp_at : susp_pc;
  signals : list nat      (** the CPUs that were sent an event, the last one first *)
}.

Definition set_cpu (c : nat) (p : cpu_private) (s : smp) : smp :=
  Smp (<[c := p]> (percpu s)) (suspend_count s) (smp_active s) (cpu_lock s) (susp_at s) (signals s).
Definition set_susp (k : susp_pc) (s : smp) : smp :=
  Smp (percpu s) (suspend_count s) (smp_active s) (cpu_lock s) k (signals s).
Definition set_lock (b : bool) (s : smp) : smp :=
  Smp (percpu s) (suspend_count s) (smp_active s) b (susp_at s) (signals s).
Definition add_count (n : Z) (s : smp) : smp :=
  Smp (percpu s) (suspend_count s + n) (smp_active s) (cpu_lock s) (susp_at s) (signals s).
Definition add_active (n : Z) (s : smp) : smp :=
  Smp (percpu s) (suspend_count s) (smp_active s + n) (cpu_lock s) (susp_at s) (signals s).

(** [cpu_state] of a CPU. *)
Definition write_state (st : Z) (p : cpu_private) : cpu_private := Cpu st (ipi_port p) (idle_at p) (marked p).
Definition go (pc : idle_pc) (p : cpu_private) : cpu_private := Cpu (cpu_state p) (ipi_port p) pc (marked p).
Definition set_mark (m : mark) (p : cpu_private) : cpu_private := Cpu (cpu_state p) (ipi_port p) (idle_at p) m.

(** ** The idle thread of a CPU *)

(** The body of the loop in check_suspend: what smp_cpu_safe does depends on the state it reads. *)
Definition smp_cpu_safe (p : cpu_private) : idle_pc :=
  if cpu_state p =? CPU_SUSPENDING then I_count
  else if cpu_state p =? CPU_RESUMING then I_active
  else I_parked.

(** [blocks] says whether an idle CPU blocks; a step that needs [cpu_lock] waits for it. *)
Definition idle_step (c : nat) (blocks : bool) (s : smp) : option smp :=
  p ← percpu s !! c;
  match idle_at p with
  | I_off => None
  | I_start => Some (set_cpu c (go I_check (write_state CPU_UP p)) s)
  | I_check => Some (set_cpu c (go (if cpu_state p =? CPU_UP then I_run else I_parked) p) s)
  | I_run => Some (set_cpu c (go (if blocks then I_sleep else I_check) p) s)
  | I_sleep => Some (set_cpu c (go I_blocked (write_state CPU_SLEEPING p)) s)
  | I_blocked => Some (set_cpu c (go I_woken p) s)
  | I_woken => Some (set_cpu c (go I_check (write_state CPU_UP p)) s)
  | I_parked => Some (set_cpu c (go (smp_cpu_safe p) p) s)
  | I_count => if cpu_lock s then None else Some (add_count (-1) (set_cpu c (set_mark Counted (go I_mark_down p)) s))
  | I_mark_down => Some (set_cpu c (go I_inactive (write_state CPU_DOWN p)) s)
  | I_inactive => if cpu_lock s then None else Some (add_active (-1) (set_cpu c (go I_parked p) s))
  | I_active => if cpu_lock s then None else Some (add_active 1 (set_cpu c (go I_start p) s))
  end.

Definition guk_smp_cpu_state (c : nat) (s : smp) : res Z := p ← access (percpu s !! c); Ok (cpu_state p).
Definition smp_num_active (s : smp) : option Z := if cpu_lock s then None else Some (smp_active s).

(** The handler of the event that smp_signal_cpu sends: whether the running thread is asked to
    give up the processor. *)
Definition ipi_handler (p : cpu_private) : bool := cpu_state p =? CPU_SUSPENDING.

(** ** Signals, suspension and resumption *)
Section Code.
(** The CPU that runs the thread, the CPUs that Xen knows ([VCPUOP_is_up] returns no error),
    the result of [VCPUOP_up], and the ports that [evtchn_alloc_ipi] binds. *)
Context (self : nat) (is_up : nat -> bool) (vcpu_up : nat -> Z) (alloc_ipi : nat -> Z).

Definition smp_signal_cpu (c : nat) (s : smp) : res smp :=
  p ← access (percpu s !! c);
  Ok (if negb (c =? self)%nat && (cpu_state p =? CPU_SLEEPING)
      then Smp (percpu s) (suspend_count s) (smp_active s) (cpu_lock s) (susp_at s) (c :: signals s) else s).

(** The test of the loop over the CPUs in smp_suspend. *)
Definition is_active_state (st : Z) : bool := (st =? CPU_UP) || (st =? CPU_SLEEPING).

(** The next step of smp_suspend and of smp_resume.  [None]: it waits for the lock, or is done;
    the loops end at the number of CPUs. *)
Definition susp_step (s : smp) : option (res smp) :=
  let n := length (percpu s) in
  match susp_at s with
  | S_lock =>
      if cpu_lock s then None
      else Some (Ok (Smp (map (set_mark Unmarked) (percpu s)) 0 (smp_active s) true (S_test 1) (signals s)))
  | S_test c =>
      Some (if (c <? n)%nat then
              p ← access (percpu s !! c);
              Ok (set_susp (if is_active_state (cpu_state p) then S_inc c else S_test (S c)) s)
            else Ok (set_susp S_while s))
  | S_inc c => Some (Ok (set_susp (S_write c) (add_count 1 s)))
  | S_write c =>
      Some (p ← access (percpu s !! c);
            Ok (set_susp (S_signal c) (set_cpu c (set_mark Marked (write_state CPU_SUSPENDING p)) s)))
  | S_signal c => Some (s ← smp_signal_cpu c s; Ok (set_susp (S_test (S c)) s))
  | S_while => Some (Ok (if suspend_count s =? 0 then set_susp S_done (set_lock false s) else set_susp S_unlock s))
  | S_unlock => Some (Ok (set_susp S_sleep (set_lock false s)))
  | S_sleep => if cpu_lock s then None else Some (Ok (set_susp S_while (set_lock true s)))
  | S_done =>
      Some (p ← access (percpu s !! 0%nat);
            Ok (set_susp (R_test 1) (set_cpu 0 (Cpu (cpu_state p) (alloc_ipi 0) (idle_at p) (marked p)) s)))
  | R_test c => Some (Ok (set_susp (if (c <? n)%nat then if is_up c then R_write c else R_test (S c) else R_done) s))
  | R_write c =>
      Some (p ← access (percpu s !! c); Ok (set_susp (R_up c) (set_cpu c (write_state CPU_RESUMING p) s)))
  | R_up c =>
      Some (p ← access (percpu s !! c);
            _ ← bug_on (negb (vcpu_up c =? 0));
            Ok (set_susp (R_test (S c)) (set_cpu c (Cpu (cpu_state p) (alloc_ipi c) (idle_at p) (marked p)) s)))
  | R_done => None
  end.

(** One step of one of the processors. *)
Inductive smp_step (s : smp) : smp -> Prop :=
| step_idle c blocks s' : idle_step c blocks s = Some s' -> smp_step s s'
| step_susp s' : susp_step s = Some (Ok s') -> smp_step s s'.

(** The loop of init_smp from [cpu] on, after CPU 0. *)
Fixpoint init_loop (k : nat) (c : nat) (cpus : list cpu_private) (active : Z) : res (list cpu_private * Z) :=
  match k with
  | O => Ok (cpus, active)
  | S k =>
      if is_up c then
        _ ← bug_on (negb (vcpu_up c =? 0));
        init_loop k (S c) (cpus ++ [Cpu CPU_SLEEPING (alloc_ipi c) I_start Unmarked]) (active + 1)
      else init_loop k (S c) (cpus ++ [Cpu CPU_DOWN 0 I_off Unmarked]) active
  end.

(** [init_smp] for [n] CPUs; the thread that will suspend is at the start of smp_suspend. *)
Definition init_smp (n : nat) : res smp :=
  '(cpus, active) ← init_loop (n - 1) 1 [Cpu CPU_UP (alloc_ipi 0) I_start Unmarked] 1;
  Ok (Smp cpus 0 active false S_lock []).
End Code.

(** ** The invariant of a suspension *)

Fixpoint n_marked (l : list cpu_private) : Z :=
  match l with
  | [] => 0
  | p :: l => (if decide (marked p = Marked) then 1 else 0) + n_marked l
  end.

(** The loop of smp_suspend has dealt with CPU [c]. *)
Definition passed (k : susp_pc) (c : nat) : Prop :=
  match k with
  | S_lock => False
  | S_test i | S_inc i | S_write i => (c < i)%nat
  | S_signal i => (c <= i)%nat
  | _ => True
  end.

Definition pending (k : susp_pc) : Z := match k with S_write _ => 1 | _ => 0 end.

(** smp_suspend holds [cpu_lock]. *)
Definition holds (k : susp_pc) : bool :=
  match k with S_test _ | S_inc _ | S_write _ | S_signal _ | S_while | S_unlock => true | _ => false end.

(** smp_resume has begun. *)
Definition resuming (k : susp_pc) : bool := match k with R_test _ | R_write _ | R_up _ | R_done => true | _ => false end.

Definition cpu_ok (k : susp_pc) (c : nat) (p : cpu_private) : Prop :=
  match marked p with
  | Unmarked =>
      ((1 <= c)%nat -> passed k c -> idle_at p = I_off) /\
      match idle_at p with
      | I_off => cpu_state p = CPU_DOWN
      | I_start => is_active_state (cpu_state p) = true
      | I_check | I_run | I_sleep => cpu_state p = CPU_UP
      | I_blocked | I_woken => cpu_state p = CPU_SLEEPING
      | _ => False
      end
  | Marked =>
      (1 <= c)%nat /\ passed k c /\
      match idle_at p with
      | I_start => is_active_state (cpu_state p) = true \/ cpu_state p = CPU_SUSPENDING
      | I_check | I_run | I_sleep => cpu_state p = CPU_UP \/ cpu_state p = CPU_SUSPENDING
      | I_blocked | I_woken => cpu_state p = CPU_SLEEPING \/ cpu_state p = CPU_SUSPENDING
      | I_parked | I_count => cpu_state p = CPU_SUSPENDING
      | _ => False
      end
  | Counted =>
      (1 <= c)%nat /\ passed k c /\
      match idle_at p with
      | I_mark_down => cpu_state p = CPU_SUSPENDING
      | I_inactive | I_parked => cpu_state p = CPU_DOWN
      | _ => False
      end
  end.

Definition at_ok (s : smp) : Prop :=
  match susp_at s with
  | S_test c => (1 <= c)%nat
  | S_inc c | S_write c => (1 <= c)%nat /\ exists p, percpu s !! c = Some p /\ idle_at p <> I_off
  | S_signal c => (1 <= c)%nat /\ (c < length (percpu s))%nat
  | S_done => n_marked (percpu s) = 0
  | _ => True
  end.

Definition smp_inv (s : smp) : Prop :=
  resuming (susp_at s) = true \/
  (cpu_lock s = holds (susp_at s)
   /\ (susp_at s <> S_lock -> suspend_count s = n_marked (percpu s) + pending (susp_at s))
   /\ at_ok s
   /\ forall c p, percpu s !! c = Some p -> cpu_ok (susp_at s) c p).

(** ** Lemmas *)

Lemma n_marked_insert c p p' l : l !! c = Some p ->
  n_marked (<[c := p']> l) = n_marked l + (if decide (marked p' = Marked) then 1 else 0) - (if decide (marked p = Marked) then 1 else 0).
Proof.
  revert c. induction l as [|q l IH]; intros [|c] Hc; [done | done | |].
  - injection Hc as ->. change (<[0%nat := p']> (p :: l)) with (p' :: l). cbn [n_marked]. lia.
  - change (<[S c := p']> (q :: l)) with (q :: <[c := p']> l). cbn [n_marked]. rewrite (IH c Hc). lia.
Qed.

Lemma n_marked_unmark l : n_marked (map (set_mark Unmarked) l) = 0.
Proof. induction l as [|p l IH]; [done|]. cbn. rewrite IH. done. Qed.

Lemma n_marked_pos l : 0 <= n_marked l.
Proof. induction l as [|p l IH]; [done|]. cbn [n_marked]. destruct (decide _); lia. Qed.

Lemma n_marked_zero l c p : n_marked l = 0 -> l !! c = Some p -> marked p <> Marked.
Proof.
  intros Hn Hc Hm. pose proof (n_marked_insert c p (set_mark Unmarked p) l Hc) as E. cbn in E.
  rewrite (decide_True _ _ Hm), decide_False in E by done. pose proof (n_marked_pos (<[c := set_mark Unmarked p]> l)). lia.
Qed.

Lemma n_marked_some l : n_marked l <> 0 -> exists c p, l !! c = Some p /\ marked p = Marked.
Proof.
  induction l as [|p l IH]; [done|]. cbn [n_marked]. destruct (decide (marked p = Marked)) as [E | E]; [by exists O, p|].
  intros Hn. destruct IH as (c & q & Hc & Hq); [lia|]. by exists (S c), q.
Qed.

Section Proofs.
Context (self : nat) (is_up : nat -> bool) (vcpu_up : nat -> Z) (alloc_ipi : nat -> Z).

Abbreviation any_step := (smp_step self is_up vcpu_up alloc_ipi).
Abbreviation thread_step := (susp_step self is_up vcpu_up alloc_ipi).

(** A step of an idle thread changes its own record and, for two critical sections, a counter. *)
Lemma idle_step_inv c w s s' : idle_step c w s = Some s' ->
  exists p p', percpu s !! c = Some p /\ percpu s' = <[c := p']> (percpu s)
    /\ susp_at s' = susp_at s /\ cpu_lock s' = cpu_lock s
    /\ suspend_count s' = suspend_count s - (if decide (idle_at p = I_count) then 1 else 0)
    /\ (marked p' = if decide (idle_at p = I_count) then Counted else marked p)
    /\ idle_at p' <> I_off /\ (forall k, cpu_ok k c p -> cpu_ok k c p').
Proof.
  intros H. unfold idle_step in H. destruct (percpu s !! c) as [[st port pc m]|] eqn:Ep; [|done]. cbn in H.
  destruct pc; try destruct (cpu_lock s) eqn:El; try discriminate H; injection H as <-;
    eexists _, _; (split; [done|]); (split; [done|]); cbn; rewrite ?El; split_and!;
    try done; try (case_decide; [done | lia]); try (unfold smp_cpu_safe; repeat case_match; done).
  all: intros k; destruct m; cbn; try (by intros (? & ? & ?)); try (by intros (? & ?)).
  all: try (intros (Hoff & Hst); split; [intros H1 H2; by specialize (Hoff H1 H2)|]; try destruct w; by subst).
  all: intros (H1 & H2 & H3); try destruct H3 as [H3 | H3]; try destruct w; subst; cbn; by auto.
Qed.

Lemma idle_step_smp_inv c w s s' : smp_inv s -> idle_step c w s = Some s' -> smp_inv s'.
Proof.
  intros Hs H. destruct (idle_step_inv c w s s' H) as (p & p' & Hp & Hl & Hk & Hlock & Hc & Hm & Hoff & Hok).
  destruct Hs as [Hr | (H1 & H2 & H3 & H4)]; [left; by rewrite Hk | right]. rewrite Hk, Hlock, Hl. split; [done|]. split; [|split].
  - intros Hne. rewrite Hc, (H2 Hne), (n_marked_insert c p p') by done. rewrite Hm. specialize (H4 c p Hp).
    destruct (decide (idle_at p = I_count)) as [Ei | Ei]; [|lia]. rewrite decide_False by done.
    unfold cpu_ok in H4. rewrite Ei in H4. destruct (marked p); [by destruct H4 | rewrite decide_True by done; lia | by destruct H4 as (_ & _ & ?)].
  - unfold at_ok in *. rewrite Hk, Hl, ?length_insert. destruct (susp_at s); try done.
    3: { rewrite (n_marked_insert c p p'), Hm by done. pose proof (n_marked_pos (<[c:=p']> (percpu s))) as Hpos.
         rewrite (n_marked_insert c p p'), Hm in Hpos by done.
         destruct (decide (idle_at p = I_count)); [rewrite (decide_False (P := Counted = Marked)) in * by done|]; destruct (decide (marked p = Marked)); lia. }
    all: destruct H3 as (H3 & q & Hq & Hqo); split; [done|]; destruct (decide (cpu = c)) as [-> | Hne];
      [exists p'; rewrite list_lookup_insert_eq by (by apply lookup_lt_Some in Hq); done | exists q; by rewrite list_lookup_insert_ne].
  - intros c' q Hq. apply list_lookup_insert_Some in Hq as [(<- & <- & _) | (Hne & Hq)]; [by apply Hok, H4 | by apply H4].
Qed.

Lemma cpu_ok_mono k k' c p : cpu_ok k c p -> (passed k c -> passed k' c) ->
  (marked p = Unmarked -> (1 <= c)%nat -> passed k' c -> passed k c \/ idle_at p = I_off) -> cpu_ok k' c p.
Proof.
  unfold cpu_ok. intros Hp Hk Hn. destruct (marked p).
  - destruct Hp as (H1 & H2). split; [|done]. intros Hc Hk'. destruct (Hn eq_refl Hc Hk'); auto.
  - destruct Hp as (H1 & H2 & H3). auto.
  - destruct Hp as (H1 & H2 & H3). auto.
Qed.

(** A CPU of which smp_suspend finds the state neither UP nor SLEEPING is off. *)
Lemma inactive_off k c p : cpu_ok k c p -> marked p = Unmarked -> is_active_state (cpu_state p) = false -> idle_at p = I_off.
Proof.
  unfold cpu_ok. intros Hp Hm Hs. rewrite Hm in Hp. destruct Hp as (_ & Hp).
  destruct (idle_at p); try done; by rewrite Hp in Hs.
Qed.

Lemma unpassed_unmarked k c p : cpu_ok k c p -> ~ passed k c -> marked p = Unmarked.
Proof. unfold cpu_ok. destruct (marked p); [done | |]; intros (_ & H & _) Hn; done. Qed.

(** The thread that suspends goes on without touching a CPU. *)
Lemma susp_move_inv s s' :
  smp_inv s -> resuming (susp_at s) = false -> percpu s' = percpu s -> cpu_lock s' = holds (susp_at s') ->
  (susp_at s' <> S_lock -> suspend_count s' - pending (susp_at s') = suspend_count s - pending (susp_at s)) -> susp_at s <> S_lock ->
  at_ok s' ->
  (forall c, passed (susp_at s) c -> passed (susp_at s') c) ->
  (forall c p, percpu s !! c = Some p -> marked p = Unmarked -> (1 <= c)%nat -> passed (susp_at s') c -> passed (susp_at s) c \/ idle_at p = I_off) ->
  smp_inv s'.
Proof.
  intros Hs Hr Hl Hlock Hc Hne Hat Hp Hu. right. destruct Hs as [Hs | (H1 & H2 & H3 & H4)]; [by rewrite Hs in Hr|].
  rewrite Hl. split; [done|]. split; [|split; [done|]].
  - intros Hne'. specialize (H2 Hne). specialize (Hc Hne'). lia.
  - intros c p Hq. eapply cpu_ok_mono; [by apply H4 | apply Hp | by apply Hu].
Qed.

Lemma lock_inv s : smp_inv s -> susp_at s = S_lock -> cpu_lock s = false ->
  smp_inv (Smp (map (set_mark Unmarked) (percpu s)) 0 (smp_active s) true (S_test 1) (signals s)).
Proof.
  intros Hs Ek Hlock. right. destruct Hs as [Hs | (H1 & H2 & H3 & H4)]; [by rewrite Ek in Hs|]. cbn. split; [done|]. split; [|split; [lia|]].
  - intros _. by rewrite n_marked_unmark.
  - intros c p Hq. apply list_lookup_fmap_Some in Hq as (q & -> & Hq). specialize (H4 c q Hq). rewrite Ek in H4.
    unfold cpu_ok in *. cbn. destruct (marked q); [| by destruct H4 as (_ & [] & _) ..]. destruct H4 as (Hoff & Hq4). split; [|done].
    intros Hc1 Hc2. lia.
Qed.

Lemma write_inv s c p : smp_inv s -> susp_at s = S_write c -> percpu s !! c = Some p ->
  smp_inv (set_susp (S_signal c) (set_cpu c (set_mark Marked (write_state CPU_SUSPENDING p)) s)).
Proof.
  intros Hs Ek Hp. right. destruct Hs as [Hs | (H1 & H2 & H3 & H4)]; [by rewrite Ek in Hs|]. rewrite Ek in *. cbn.
  unfold at_ok in H3. rewrite Ek in H3. destruct H3 as (Hc & q & Hq & Hoff). assert (q = p) as -> by congruence.
  pose proof (H4 c p Hp) as Hok. assert (marked p = Unmarked) as Hm by (eapply unpassed_unmarked; [done | cbn; lia]).
  split; [done|]. split; [|split].
  - intros _. rewrite (n_marked_insert c p), H2, Hm by done. cbn [marked set_mark write_state pending].
    rewrite decide_True, decide_False by done. lia.
  - unfold at_ok. cbn. rewrite length_insert. apply lookup_lt_Some in Hp. done.
  - intros c' r Hr. apply list_lookup_insert_Some in Hr as [(<- & <- & _) | (Hne & Hr)].
    + unfold cpu_ok in *. rewrite Hm in Hok. destruct Hok as (_ & Hok). cbn. split; [done|]. split; [lia|]. destruct (idle_at p); auto; done.
    + eapply cpu_ok_mono; [by apply H4 | cbn; lia | intros _ _ Hl; left; cbn in *; lia].
Qed.

Lemma susp_step_inv s s' : smp_inv s -> thread_step s = Some (Ok s') -> smp_inv s'.
Proof.
  intros Hs H. destruct (resuming (susp_at s)) eqn:Hr.
  { left. unfold susp_step in H. destruct (susp_at s); try discriminate Hr; try discriminate H; injection H as H;
      [by repeat case_match; subst | |]; res_inv; done. }
  unfold susp_step in H. destruct (susp_at s) eqn:Ek; try discriminate Hr.
  all: pose proof Hs as [Hs' | (H1 & H2 & H3 & H4)]; [by rewrite Ek in Hs'|]; rewrite Ek in *; unfold at_ok in H3; rewrite Ek in H3.
  - destruct (cpu_lock s) eqn:El; [done|]. injection H as <-. by apply lock_inv.
  - injection H as H. destruct (cpu <? length (percpu s))%nat eqn:Ec; res_inv.
    + pose proof (H4 cpu a Hr0) as Hok. assert (marked a = Unmarked) as Hm by (eapply unpassed_unmarked; [done | cbn; lia]).
      destruct (is_active_state (cpu_state a)) eqn:Ea; apply (susp_move_inv s); rewrite ?Ek; cbn; try done; try lia.
      * split; [done|]. exists a. split; [done|]. intros Eo. unfold cpu_ok in Hok. rewrite Hm, Eo in Hok. by rewrite (proj2 Hok) in Ea.
      * intros c p Hp Hpm _ Hl. destruct (decide (c = cpu)) as [-> | Hne]; [|left; lia]. right. assert (p = a) as -> by congruence. by eapply inactive_off.
    + apply Nat.ltb_ge in Ec. apply (susp_move_inv s); rewrite ?Ek; cbn; try done.
      intros c p Hp _ _ _. left. apply lookup_lt_Some in Hp. lia.
  - injection H as <-. apply (susp_move_inv s); rewrite ?Ek; cbn; try done; try lia; auto.
  - injection H as H. res_inv. by apply write_inv.
  - injection H as H. unfold smp_signal_cpu in H. res_inv.
    match goal with |- context [if ?t then _ else s] => destruct t end; apply (susp_move_inv s); rewrite ?Ek; cbn; try done; try lia.
  - injection H as <-. destruct (Z.eqb_spec (suspend_count s) 0) as [E | E]; apply (susp_move_inv s); rewrite ?Ek; cbn; try done; auto.
    unfold at_ok. cbn. specialize (H2 ltac:(done)). cbn in H2. lia.
  - injection H as <-. apply (susp_move_inv s); rewrite ?Ek; cbn; try done; auto.
  - destruct (cpu_lock s); [done|]. injection H as <-. apply (susp_move_inv s); rewrite ?Ek; cbn; try done; auto.
  - injection H as H. res_inv. by left.
Qed.

Lemma smp_step_inv s s' : smp_inv s -> any_step s s' -> smp_inv s'.
Proof. intros Hs [c w ? H | ? H]; [by eapply idle_step_smp_inv | by eapply susp_step_inv]. Qed.

Lemma smp_steps_inv s s' : smp_inv s -> rtc any_step s s' -> smp_inv s'.
Proof. intros Hs H. induction H as [|x y z H _ IH]; [done|]. by apply IH, (smp_step_inv x). Qed.

(** The state that init_smp leaves satisfies the invariant. *)
Lemma init_loop_ok k : forall c cpus active cpus' active',
  init_loop is_up vcpu_up alloc_ipi k c cpus active = Ok (cpus', active') ->
  (forall i p, cpus !! i = Some p -> cpu_ok S_lock i p) -> forall i p, cpus' !! i = Some p -> cpu_ok S_lock i p.
Proof.
  induction k as [|k IH]; intros c cpus active cpus' active' H Hok; cbn in H; [by res_inv|]. destruct (is_up c); res_inv.
  all: eapply IH; [done|]; intros i p Hp; apply lookup_app_Some in Hp as [Hp | (_ & Hp)]; [by apply Hok|];
    apply list_lookup_singleton_Some in Hp as (_ & <-); by split.
Qed.

Lemma init_smp_inv n s : init_smp is_up vcpu_up alloc_ipi n = Ok s -> smp_inv s.
Proof.
  intros H. unfold init_smp in H. res_inv. destruct a as [cpus active]. res_inv. right. split; [done|]. split; [done|]. split; [done|].
  eapply init_loop_ok; [done|]. intros i p Hp. apply list_lookup_singleton_Some in Hp as (_ & <-). by split.
Qed.


(** ** A mark that is lost *)

(** The CPU was marked, but the next write of its own idle thread overwrites the mark, or has. *)
Definition lost (p : cpu_private) : Prop :=
  marked p = Marked /\
  match idle_at p with
  | I_start | I_sleep | I_blocked | I_woken => True
  | I_check | I_run => cpu_state p = CPU_UP
  | _ => False
  end.

Lemma lost_idle c w s s' p : percpu s !! c = Some p -> lost p -> idle_step c w s = Some s' ->
  exists p', percpu s' !! c = Some p' /\ lost p'.
Proof.
  intros Hp [Hm Hl] H. unfold idle_step in H. rewrite Hp in H. cbn in H. pose proof (lookup_lt_Some _ _ _ Hp) as Hlt.
  destruct (idle_at p) eqn:Ei; try done; injection H as <-; cbn;
    (eexists; split; [by apply list_lookup_insert_eq|]); (split; [done|]); cbn; rewrite ?Hl; try done.
  by destruct w.
Qed.

Lemma lost_other c d w s s' p : d <> c -> percpu s !! c = Some p -> idle_step d w s = Some s' -> percpu s' !! c = Some p.
Proof.
  intros Hne Hp H. destruct (idle_step_inv d w s s' H) as (q & q' & _ & -> & _). by rewrite list_lookup_insert_ne.
Qed.

(** While the mark is lost, smp_suspend cannot leave its loop. *)
Lemma lost_susp c s s' p : smp_inv s -> resuming (susp_at s) = false -> susp_at s <> S_done ->
  percpu s !! c = Some p -> lost p -> thread_step s = Some (Ok s') ->
  percpu s' !! c = Some p /\ susp_at s' <> S_done /\ resuming (susp_at s') = false.
Proof.
  intros Hs Hr Hd Hp [Hm Hl] H. destruct Hs as [Hs | (H1 & H2 & H3 & H4)]; [by rewrite Hs in Hr|].
  pose proof (H4 c p Hp) as Hok. unfold cpu_ok in Hok. rewrite Hm in Hok. destruct Hok as (Hc & Hpass & _).
  unfold susp_step in H. destruct (susp_at s) eqn:Ek; try done.
  - injection H as H. destruct (cpu <? length (percpu s))%nat; res_inv; [|done].
    cbn. by destruct (is_active_state (cpu_state a)).
  - by injection H as <-.
  - injection H as H. res_inv. cbn. cbn in Hpass. by rewrite list_lookup_insert_ne by lia.
  - injection H as H. unfold smp_signal_cpu in H. res_inv.
    by match goal with |- context [if ?t then _ else s] => destruct t end.
  - injection H as <-. destruct (Z.eqb_spec (suspend_count s) 0) as [E | E]; [|done].
    rewrite H2 in E by done. cbn in E. exfalso. eapply (n_marked_zero (percpu s) c p); [lia | done | done].
  - by injection H as <-.
  - destruct (cpu_lock s); [done|]. by injection H as <-.
Qed.

Lemma lost_forever c s s' p : smp_inv s -> resuming (susp_at s) = false -> susp_at s <> S_done ->
  percpu s !! c = Some p -> lost p -> rtc any_step s s' -> susp_at s' <> S_done.
Proof.
  intros Hs Hr Hd Hp Hl H. revert p Hs Hr Hd Hp Hl. induction H as [s|s s1 s' H _ IH]; intros p Hs Hr Hd Hp Hl; [done|].
  pose proof (smp_step_inv _ _ Hs H) as Hs1. destruct H as [d w s1 H | s1 H].
  - destruct (idle_step_inv d w s s1 H) as (_ & _ & _ & _ & Ek & _). rewrite <- Ek in Hr, Hd. destruct (decide (d = c)) as [-> | Hne].
    + destruct (lost_idle c w s s1 p Hp Hl H) as (p' & Hp' & Hl'). by apply (IH p').
    + pose proof (lost_other c d w s s1 p Hne Hp H) as Hp'. by apply (IH p).
  - destruct (lost_susp c s s1 p Hs Hr Hd Hp Hl H) as (Hp' & Hd' & Hr'). by apply (IH p).
Qed.

(** ** A mark that is seen *)

(** A marked CPU whose mark was not lost counts itself as soon as smp_suspend sleeps. *)
Definition counts (c : nat) (s : smp) : Prop :=
  exists s' p', rtc any_step s s' /\ susp_at s' = S_sleep /\ cpu_lock s' = false /\ percpu s' = <[c := p']> (percpu s) /\ marked p' = Counted.

Lemma counts_step c w s p p' : percpu s !! c = Some p -> idle_step c w s = Some (set_cpu c p' s) -> counts c (set_cpu c p' s) -> counts c s.
Proof.
  intros Hp H (s' & q & Hr & Hk & Hl & Hq & Hm). exists s', q. split; [by eapply rtc_l; [eapply step_idle|]|].
  split_and!; [done | done | | done]. rewrite Hq. cbn. by rewrite list_insert_insert_eq.
Qed.

Lemma seen_counts c s p : percpu s !! c = Some p -> susp_at s = S_sleep -> cpu_lock s = false ->
  cpu_state p = CPU_SUSPENDING -> idle_at p ∈ [I_run; I_check; I_parked; I_count] -> counts c s.
Proof.
  assert (forall s p, percpu s !! c = Some p -> susp_at s = S_sleep -> cpu_lock s = false -> idle_at p = I_count -> counts c s) as Hcount.
  { intros s' q Hq Hk Hl Hi. eexists _, (set_mark Counted (go I_mark_down q)). split; [eapply rtc_once, (step_idle _ _ _ _ _ c true); unfold idle_step; rewrite Hq; cbn; rewrite Hi, Hl; done|]. done. }
  assert (forall s p, percpu s !! c = Some p -> susp_at s = S_sleep -> cpu_lock s = false -> cpu_state p = CPU_SUSPENDING -> idle_at p = I_parked -> counts c s) as Hparked.
  { intros s' q Hq Hk Hl Hs Hi. eapply (counts_step c true); [done | unfold idle_step; rewrite Hq; cbn; rewrite Hi; done|].
    eapply Hcount; [by apply list_lookup_insert_eq, (lookup_lt_Some _ _ _ Hq) | done | done |]. cbn. unfold smp_cpu_safe. by rewrite Hs. }
  assert (forall s p, percpu s !! c = Some p -> susp_at s = S_sleep -> cpu_lock s = false -> cpu_state p = CPU_SUSPENDING -> idle_at p = I_check -> counts c s) as Hcheck.
  { intros s' q Hq Hk Hl Hs Hi. eapply (counts_step c true); [done | unfold idle_step; rewrite Hq; cbn; rewrite Hi; done|].
    eapply Hparked; [by apply list_lookup_insert_eq, (lookup_lt_Some _ _ _ Hq) | done | done | done |]. cbn. by rewrite Hs. }
  intros Hp Hk Hl Hs Hi. repeat setoid_rewrite elem_of_cons in Hi. destruct Hi as [Hi | [Hi | [Hi | [Hi | Hi]]]].
  - eapply (counts_step c false); [done | unfold idle_step; rewrite Hp; cbn; rewrite Hi; done|].
    eapply Hcheck; [by apply list_lookup_insert_eq, (lookup_lt_Some _ _ _ Hp) | done..].
  - by eapply Hcheck.
  - by eapply Hparked.
  - by eapply Hcount.
  - by apply elem_of_nil in Hi.
Qed.

(** The loop of smp_suspend around its sleep. *)
Lemma while_done s : susp_at s = S_while -> suspend_count s = 0 -> exists s', rtc any_step s s' /\ susp_at s' = S_done.
Proof.
  intros Hk Hc. eexists. split; [eapply rtc_once, step_susp; unfold susp_step; by rewrite Hk, Hc|]. done.
Qed.

Lemma while_sleeps s : susp_at s = S_while -> suspend_count s <> 0 ->
  rtc any_step s (set_susp S_sleep (set_lock false (set_susp S_unlock s))).
Proof.
  intros Hk Hc. apply (rtc_l _ _ (set_susp S_unlock s)); [|apply rtc_once]; apply step_susp; [|done].
  unfold susp_step. rewrite Hk. by rewrite (proj2 (Z.eqb_neq _ _) Hc).
Qed.

Lemma sleep_wakes s : susp_at s = S_sleep -> cpu_lock s = false -> rtc any_step s (set_susp S_while (set_lock true s)).
Proof. intros Hk Hl. eapply rtc_once, step_susp. unfold susp_step. by rewrite Hk, Hl. Qed.

Lemma seen_all_done k : forall s, smp_inv s -> susp_at s = S_while -> n_marked (percpu s) = Z.of_nat k ->
  (forall c p, percpu s !! c = Some p -> ~ lost p) -> exists s', rtc any_step s s' /\ susp_at s' = S_done.
Proof.
  induction k as [|k IH]; intros s Hs Hk Hn Hlost; pose proof Hs as [Hs' | (_ & H2 & _ & H4)]; try (by rewrite Hk in Hs');
    rewrite Hk in *; specialize (H2 ltac:(done)); cbn in H2.
  - apply while_done; [done | lia].
  - assert (suspend_count s <> 0) as Hc by lia. pose proof (while_sleeps s Hk Hc) as Hr. set (s1 := set_susp S_sleep _) in Hr.
    destruct (n_marked_some (percpu s)) as (c & p & Hp & Hm); [lia|]. pose proof (H4 c p Hp) as Hok. specialize (Hlost c p Hp) as Hl.
    unfold cpu_ok in Hok. rewrite Hm in Hok. unfold lost in Hl. destruct (seen_counts c s1 p) as (s2 & p2 & Hr2 & Hk2 & Hl2 & Hp2 & Hm2); [exact Hp | done | done | | |].
    { destruct Hok as (_ & _ & Hok). destruct (idle_at p); try done; try (exfalso; by apply Hl); destruct Hok as [Hok | Hok]; try done; exfalso; by apply Hl. }
    { destruct Hok as (_ & _ & Hok). destruct (idle_at p); try done; try (exfalso; by apply Hl); set_solver. }
    assert (rtc any_step s (set_susp S_while (set_lock true s2))) as Hr3 by (etrans; [exact Hr | etrans; [exact Hr2 | by apply sleep_wakes]]).
    destruct (IH (set_susp S_while (set_lock true s2))) as (s3 & Hr4 & Hd).
    + by eapply smp_steps_inv.
    + done.
    + cbn. rewrite Hp2. change (percpu s1) with (percpu s). rewrite (n_marked_insert c p) by done. rewrite Hm, Hm2.
      rewrite (decide_False (P := Counted = Marked)), decide_True by done. lia.
    + intros d q Hq. cbn in Hq. rewrite Hp2 in Hq. change (percpu s1) with (percpu s) in Hq.
      apply list_lookup_insert_Some in Hq as [(_ & <- & _) | (_ & Hq)]; [intros [Hx _]; congruence | by eapply Hlost].
    + exists s3. split; [by etrans|done].
Qed.
End Proofs.

(** C10: What smp_suspend promises: when it returns, on every processor but the first the idle
    thread is in the endless loop of check_suspend, about to write its state, or was never
    started; no other thread runs there.  This holds in every reachable state of any number
    of processors, however their idle threads interleave with the marking. *)
Theorem smp_suspend_parks self is_up vcpu_up alloc_ipi n s0 s c p :
  init_smp is_up vcpu_up alloc_ipi n = Ok s0 -> rtc (smp_step self is_up vcpu_up alloc_ipi) s0 s -> susp_at s = S_done ->
  (1 <= c)%nat -> percpu s !! c = Some p ->
  idle_at p ∈ [I_off; I_mark_down; I_inactive; I_parked] /\ (idle_at p = I_parked -> cpu_state p = CPU_DOWN).
Proof.
  intros H0 H Hd Hc Hp. apply init_smp_inv in H0. pose proof (smp_steps_inv _ _ _ _ _ _ H0 H) as [Hs | (_ & _ & H3 & H4)]; [by rewrite Hd in Hs|].
  specialize (H4 c p Hp). rewrite Hd in *. unfold cpu_ok in H4. destruct (marked p) eqn:Em.
  - destruct H4 as (Hoff & _). rewrite (Hoff Hc I). split; [set_solver | done].
  - exfalso. eapply (n_marked_zero (percpu s) c p); [|done | done]. unfold at_ok in H3. by rewrite Hd in H3.
  - destruct H4 as (_ & _ & H4). destruct (idle_at p); try done; split; try done; set_solver.
Qed.

(** C11: A processor that is asleep when smp_suspend marks it (or that is just starting, falling
    asleep or waking) never sees the mark: [block_domain] and [idle_thread_fn] write the state
    of the processor without looking at it.  From then on smp_suspend does not return, in any
    continuation; whereas if no mark was lost, it can return from every reachable state of its
    waiting loop. *)
Theorem smp_suspend_returns_iff_seen self is_up vcpu_up alloc_ipi n s0 s :
  init_smp is_up vcpu_up alloc_ipi n = Ok s0 -> rtc (smp_step self is_up vcpu_up alloc_ipi) s0 s -> susp_at s = S_while ->
  (exists s', rtc (smp_step self is_up vcpu_up alloc_ipi) s s' /\ susp_at s' = S_done)
  <-> (forall c p, percpu s !! c = Some p -> ~ lost p).
Proof.
  intros H0 H Hk. apply init_smp_inv in H0. pose proof (smp_steps_inv _ _ _ _ _ _ H0 H) as Hs. split.
  - intros (s' & Hr & Hd) c p Hp Hl. revert Hd. eapply (lost_forever _ _ _ _ c s s' p); rewrite ?Hk; done.
  - apply (seen_all_done _ _ _ _ (Z.to_nat (n_marked (percpu s)))); [done | done |].
    pose proof (n_marked_pos (percpu s)). lia.
Qed.

(** ** Concrete runs *)

(** A schedule names the next thread: an idle thread, with its choice, or the one that suspends. *)
Fixpoint smp_run (self : nat) (is_up : nat -> bool) (vcpu_up alloc_ipi : nat -> Z) (l : list (option (nat * bool))) (s : smp) : option smp :=
  match l with
  | [] => Some s
  | x :: l =>
      s' ← match x with
           | Some (c, w) => idle_step c w s
           | None => match susp_step self is_up vcpu_up alloc_ipi s with Some (Ok s') => Some s' | _ => None end
           end;
      smp_run self is_up vcpu_up alloc_ipi l s'
  end.

Lemma smp_run_steps self is_up vcpu_up alloc_ipi l : forall s s',
  smp_run self is_up vcpu_up alloc_ipi l s = Some s' -> rtc (smp_step self is_up vcpu_up alloc_ipi) s s'.
Proof.
  induction l as [|x l IH]; intros s s' H; cbn in H; [by injection H as <-|]. apply bind_Some in H as (s1 & H1 & H). eapply rtc_l; [|by apply IH].
  destruct x as [[c w]|]; [by eapply step_idle|]. destruct (susp_step _ _ _ _ s) as [[]|] eqn:E; try done. injection H1 as <-. by apply step_susp.
Qed.

(** Two processors; the first runs the thread that suspends. *)
Definition two_up (c : nat) : bool := true.
Definition no_error (c : nat) : Z := 0.
Definition two_cpus : smp := get (init_smp two_up no_error Z.of_nat 2) (Smp [] 0 0 false S_lock []).
Definition demo_run (l : list (option (nat * bool))) : smp := default two_cpus (smp_run 0 two_up no_error Z.of_nat l two_cpus).

Definition marks : list (option (nat * bool)) := replicate 6 None.

(** Processor 1 runs threads, is marked, and counts itself; smp_suspend returns at once. *)
Definition seen_run : list (option (nat * bool)) :=
  replicate 2 (Some (1%nat, true)) ++ marks ++ replicate 2 None ++ [Some (1%nat, false)] ++ replicate 3 (Some (1%nat, true)) ++ replicate 2 None.

(** Processor 1 is asleep when it is marked. *)
Definition asleep_run : list (option (nat * bool)) := replicate 4 (Some (1%nat, true)) ++ marks.

Lemma smp_demo_steps l s : smp_run 0 two_up no_error Z.of_nat l two_cpus = Some s -> rtc (smp_step 0 two_up no_error Z.of_nat) two_cpus s.
Proof. apply smp_run_steps. Qed.

Lemma smp_suspend_parks_witness : exists p, percpu (demo_run seen_run) !! 1%nat = Some p /\
  idle_at p ∈ [I_off; I_mark_down; I_inactive; I_parked] /\ (idle_at p = I_parked -> cpu_state p = CPU_DOWN).
Proof.
  eexists. split; [by vm_compute|].
  apply (smp_suspend_parks 0 two_up no_error Z.of_nat 2 two_cpus (demo_run seen_run) 1); [by vm_compute | apply (smp_demo_steps seen_run); by vm_compute | by vm_compute | lia | by vm_compute].
Defined.

Lemma smp_suspend_returns_iff_seen_witness :
  ~ exists s', rtc (smp_step 0 two_up no_error Z.of_nat) (demo_run asleep_run) s' /\ susp_at s' = S_done.
Proof.
  intros H. pose proof (proj1 (smp_suspend_returns_iff_seen 0 two_up no_error Z.of_nat 2 two_cpus (demo_run asleep_run)
    ltac:(by vm_compute) ltac:(apply (smp_demo_steps asleep_run); by vm_compute) ltac:(by vm_compute)) H) as Hl.
  eapply (Hl 1%nat); [by vm_compute | by vm_compute].
Defined.

(** A processor that is asleep is not even signalled: its state is SUSPENDING by then. *)
Lemma marked_not_signalled : signals (demo_run asleep_run) = [].
Proof. by vm_compute. Qed.

(** smp_suspend returns before the processor has written its state and left the count of the
    active ones. *)
Lemma smp_suspend_returns_early :
  susp_at (demo_run seen_run) = S_done /\ smp_active (demo_run seen_run) = 2 /\
  cpu_state <$> percpu (demo_run seen_run) !! 1%nat = Some CPU_SUSPENDING.
Proof. by vm_compute. Qed.

(** When smp_resume is that early too, the processor overwrites RESUMING and stays in its loop
    for ever. *)
Definition early_resume : smp := demo_run (seen_run ++ replicate 5 None ++ replicate 2 (Some (1%nat, true))).

Lemma smp_resume_lost : susp_at early_resume = R_done /\
  (cpu_state <$> percpu early_resume !! 1%nat) = Some CPU_DOWN /\
  idle_step 1 true early_resume = Some early_resume.
Proof. by vm_compute. Qed.
