(* ===== verification/Suspend.v ===== *)
(** Services and suspension: service.c and shutdown.c.

    do_suspend takes the kernel down and up again part by part: the services (device drivers),
    the store client, the other processors, event channels, grants, time, the console.  The
    state [machine] holds the states of the clocks ([Time]), the map of the machine frames
    ([P2m]), the grants ([Gnttab]) and the event channels ([Events]), and [rest] for the other
    parts, whose functions are arguments.  Xen's part of the suspension is an argument too. *)
From Stdlib Require Import String.
From S2P Require Import Prelude CString Gnttab Events P2m Seqlock Time.
From stdpp Require Import options.
Open Scope Z_scope.
Open Scope list_scope.

(** ** The services: service.c *)

Definition SERV_STOP : Z := 0.
Definition SERV_STARTED : Z := 1.
Definition SERV_SUSPEND : Z := 2.
Definition SERV_RESUME : Z := 3.

(** [struct service]; [M] is the state of the kernel. *)
Record service {M : Type} := Service {
  sv_init : M -> res (Z * M);
  sv_suspend : M -> res (Z * M);
  sv_resume : M -> res (Z * M);
  sv_shutdown : M -> res (Z * M)
}.
Arguments service : clear implicits.
Arguments Service {M}.

Record registry {M : Type} := Registry { services : list (service M); services_state : Z }.
Arguments registry : clear implicits.
Arguments Registry {M}.

Section Services.
Context {M : Type}.
Implicit Types r : registry M.

(** [list_add] puts the service in front. *)
Definition register_service (s : service M) r : res (registry M) :=
  _ ← bug_on (negb (services_state r =? SERV_STOP)); Ok (Registry (s :: services r) (services_state r)).

Fixpoint start_loop (l : list (service M)) (m : M) : res M :=
  match l with [] => Ok m | s :: l => '(_, m) ← sv_init s m; start_loop l m end.

(** [retval += s->f()] for every service. *)
Fixpoint services_loop (f : service M -> M -> res (Z * M)) (l : list (service M)) (retval : Z) (m : M) : res (Z * M) :=
  match l with [] => Ok (retval, m) | s :: l => '(x, m) ← f s m; services_loop f l (sgn32 (retval + x)) m end.

Definition start_services r (m : M) : res (registry M * M) :=
  m ← start_loop (services r) m; Ok (Registry (services r) SERV_STARTED, m).

Definition suspend_services r (m : M) : res (Z * registry M * M) :=
  '(retval, m) ← services_loop sv_suspend (services r) 0 m; Ok (retval, Registry (services r) SERV_SUSPEND, m).

Definition resume_services r (m : M) : res (Z * registry M * M) :=
  '(retval, m) ← services_loop sv_resume (services r) 0 m; Ok (retval, Registry (services r) SERV_STARTED, m).

Definition shutdown_services r (m : M) : res (Z * registry M * M) :=
  '(retval, m) ← services_loop sv_shutdown (services r) 0 m; Ok (retval, Registry (services r) SERV_STOP, m).
End Services.

(** ** The machine *)

(** The fields of the start info page that are used here. *)
Record start_info := StartInfo { store_mfn : Z; console_mfn : Z; si_shared_info : Z }.

Record machine {W X : Type} := Machine {
  clock : time_st;
  table : p2m;
  frames : Z -> Z;              (** [virt_to_mfn] *)
  grants : gnttab;
  events : evst W;              (** with the preemption count of the thread *)
  xen_info : start_info;        (** the page of Xen, and the copy *)
  info_copy : start_info;
  hv_shared_info : Z;           (** [HYPERVISOR_shared_info] *)
  rest : X
}.
Arguments machine : clear implicits.
Arguments Machine {W X}.

Section Setters.
Context {W X : Type}.
Implicit Types m : machine W X.
Definition set_clock v m : machine W X := Machine v (table m) (frames m) (grants m) (events m) (xen_info m) (info_copy m) (hv_shared_info m) (rest m).
Definition set_p2m v m : machine W X := Machine (clock m) v (frames m) (grants m) (events m) (xen_info m) (info_copy m) (hv_shared_info m) (rest m).
Definition set_grants v m : machine W X := Machine (clock m) (table m) (frames m) v (events m) (xen_info m) (info_copy m) (hv_shared_info m) (rest m).
Definition set_events v m : machine W X := Machine (clock m) (table m) (frames m) (grants m) v (xen_info m) (info_copy m) (hv_shared_info m) (rest m).
Definition set_info v m : machine W X := Machine (clock m) (table m) (frames m) (grants m) (events m) v (info_copy m) (hv_shared_info m) (rest m).
Definition set_copy v m : machine W X := Machine (clock m) (table m) (frames m) (grants m) (events m) (xen_info m) v (hv_shared_info m) (rest m).
Definition set_shared_info v m : machine W X := Machine (clock m) (table m) (frames m) (grants m) (events m) (xen_info m) (info_copy m) v (rest m).
Definition set_rest v m : machine W X := Machine (clock m) (table m) (frames m) (grants m) (events m) (xen_info m) (info_copy m) (hv_shared_info m) v.
End Setters.

(** The other parts of the kernel, on [rest]. *)
Record parts {X : Type} := Parts {
  xenbus_suspend : X -> res X;
  xenbus_resume : X -> res X;
  smp_suspend : X -> res X;
  smp_resume : X -> res X;
  console_suspend : X -> res X;
  console_resume : X -> res X;
  smp_processor_id : X -> Z;
  HYPERVISOR_update_va_mapping : Z -> Z -> Z -> X -> Z * X
}.
Arguments parts : clear implicits.
Arguments Parts {X}.

Section Code.
Context {W X : Type} `{!EventEnv W} (abi : grant_abi) (K : parts X).
(** Addresses and constants of Xen's headers. *)
Context (xen_info_addr shared_info L1_PROT UVMF_INVLPG : Z).
(** [machine_to_phys_mapping] and [phys_to_machine_mapping]; the argument of [update_wallclock]
    and the frames of the grant table that Xen gives out; the address of timer_handler. *)
Context (machine_to_phys : Z -> Z) (phys_to_machine_mapping : Z) (smp_init_completed : bool) (grant_frames : list Z) (timer_fn : Z).
(** The hypercall: its result and the machine when the domain runs again. *)
Context (HYPERVISOR_suspend : Z -> machine W X -> Z * machine W X).
Implicit Types m : machine W X.

Definition on_rest (f : X -> res X) m : res (machine W X) := x ← f (rest m); Ok (set_rest x m).
Definition on_clock (f : time_st -> res time_st) m : res (machine W X) := t ← f (clock m); Ok (set_clock t m).
Definition on_events (f : evst W -> res (evst W)) m : res (machine W X) := e ← f (events m); Ok (set_events e m).
Definition on_grants (f : gnttab -> res gnttab) m : res (machine W X) := g ← f (grants m); Ok (set_grants g m).

(** preempt_disable and preempt_enable, up to its check for rescheduling. *)
Definition preempt_add (n : Z) (e : evst W) : res (evst W) := Ok (set_irq (sgn32 (irq_count e + n)) e).
Definition set_irqs (off : bool) (t : time_st) : res time_st := Ok (set_cpu (cpu_state t) off t).

(** [BUG_ON(HYPERVISOR_update_va_mapping(...))] *)
Definition map_shared (addr pte : Z) m : res (machine W X) :=
  let '(err, x) := HYPERVISOR_update_va_mapping K addr pte UVMF_INVLPG (rest m) in
  _ ← bug_on (negb (err =? 0)); Ok (set_rest x m).

(** do_suspend between the suspension of the services and the hypercall, *)
Definition suspend_parts m : res (machine W X) :=
  m ← on_rest (xenbus_suspend K) m;
  m ← on_rest (smp_suspend K) m;
  m ← on_events (preempt_add 1) m;
  m ← on_events evtchn_suspend m;
  let m := set_grants (gnttab_suspend (grants m)) m in
  _ ← bug_on (negb (smp_processor_id K (rest m) =? 0));
  m ← on_clock (set_irqs true) m;
  m ← on_clock time_suspend m;
  m ← on_rest (console_suspend K) m;
  m ← on_clock (fun t => '(_, t) ← now t; Ok t) m;
  m ← map_shared (hv_shared_info m) (Z.lor (Z.shiftl (frames m shared_info) 12) L1_PROT) m;
  Ok (set_info (StartInfo (machine_to_phys (store_mfn (xen_info m))) (machine_to_phys (console_mfn (xen_info m))) (si_shared_info (xen_info m))) m).

(** and from its return to the services. *)
Definition resume_parts (err : Z) m : res (machine W X) :=
  _ ← bug_on (negb (err =? 0));
  m ← map_shared shared_info (Z.lor (si_shared_info (xen_info m)) 7) m;
  let m := set_shared_info shared_info m in
  let m := set_copy (xen_info m) m in
  m ← on_rest (console_resume K) m;
  m ← on_clock (time_resume false smp_init_completed) m;
  m ← on_clock (set_irqs false) m;
  t ← arch_rebuild_p2m phys_to_machine_mapping (frames m) (table m);
  let m := set_p2m t m in
  m ← on_grants (gnttab_resume abi grant_frames) m;
  m ← on_events (evtchn_resume timer_fn (smp_processor_id K (rest m))) m;
  m ← on_events (preempt_add (-1)) m;
  m ← on_rest (smp_resume K) m;
  on_rest (xenbus_resume K) m.

Definition do_suspend (r : registry (machine W X)) m : res (registry (machine W X) * machine W X) :=
  let start_info_mfn := frames m xen_info_addr in
  '(_, r, m) ← suspend_services r m;
  m ← suspend_parts m;
  let '(err, m) := HYPERVISOR_suspend start_info_mfn m in
  m ← resume_parts err m;
  '(_, r, m) ← resume_services r m;
  Ok (r, m).

(** ** The shutdown thread *)

Definition SHUTDOWN_SHUTDOWN : Z := 1.
Definition SHUTDOWN_REBOOT : Z := 2.
Definition SHUTDOWN_SUSPEND : Z := 3.

(** What the store client does for one request: the path of the watch event, the result of the
    read ([None] is an error, [Some None] no value), and for every attempt of the transaction
    whether it could start and whether it must be tried again. *)
Record request := Request { rq_path : list Z; rq_value : option (option (list Z)); rq_attempts : list (bool * bool) }.

(** The calls that write. *)
Inductive store_call := S_start | S_write (path value : list Z) | S_end (abort : bool).

(** [again:], with the calls made. *)
Fixpoint acknowledge (path : list Z) (attempts : list (bool * bool)) : res (list store_call) :=
  match attempts with
  | [] => Fuel
  | (failed, retry) :: attempts =>
      if failed : bool then Ok [S_start]
      else
        let calls := [S_start; S_write path [0]; S_end false] in
        if retry : bool then l ← acknowledge path attempts; Ok (calls ++ l) else Ok calls
  end.

Definition check_shutdown (q : request) : res (Z * list store_call) :=
  match rq_value q with
  | None => Ok (0, [])
  | Some value =>
      retval ← (match value with
                | None => Ok 0
                | Some v =>
                    a ← strcmp v (cstr "poweroff");
                    b ← (if a =? 0 then Ok 0 else strcmp v (cstr "halt"));
                    if (a =? 0) || (b =? 0) then Ok SHUTDOWN_SHUTDOWN
                    else c ← strcmp v (cstr "suspend"); if c =? 0 then Ok SHUTDOWN_SUSPEND
                    else d ← strcmp v (cstr "reboot"); if d =? 0 then Ok SHUTDOWN_REBOOT else Ok 0
                end);
      if retval =? 0 then Ok (retval, []) else calls ← acknowledge (rq_path q) (rq_attempts q); Ok (retval, calls)
  end.

Definition SHUTDOWN_poweroff : Z := 0.
Definition SHUTDOWN_reboot : Z := 1.

(** How a round of the thread ends: the domain is gone, or the thread goes on. *)
Inductive outcome := Gone (reason : Z) | Runs (r : registry (machine W X)) (m : machine W X).

(** [for (;;) HYPERVISOR_sched_op(SCHEDOP_shutdown, ...)]; the hypercall gives a state when it
    returns. *)
Context (SCHEDOP_shutdown : Z -> machine W X -> option (machine W X)).

Fixpoint halt (n : nat) (reason : Z) m : res outcome :=
  match n with
  | O => Fuel
  | S n => match SCHEDOP_shutdown reason m with None => Ok (Gone reason) | Some m => halt n reason m end
  end.

Definition do_shutdown (n : nat) (r : registry (machine W X)) m : res outcome :=
  '(_, _, m) ← shutdown_services r m; halt n SHUTDOWN_poweroff m.

Definition do_reboot (n : nat) m : res outcome := halt n SHUTDOWN_reboot m.

(** One round of shutdown_thread. *)
Definition shutdown_round (n : nat) (q : request) (r : registry (machine W X)) m : res (outcome * list store_call) :=
  '(shutdown, calls) ← check_shutdown q;
  o ← (if shutdown =? SHUTDOWN_SHUTDOWN then do_shutdown n r m
       else if shutdown =? SHUTDOWN_SUSPEND then '(r, m) ← do_suspend r m; Ok (Runs r m)
       else if shutdown =? SHUTDOWN_REBOOT then do_reboot n m
       else Ok (Runs r m));
  Ok (o, calls).
End Code.
