(* ===== verification/SuspendProps.v ===== *)
(** What suspension and resumption achieve together: the clock continues, Xen finds the map of
    the frames again, interrupts, preemption and the timer are as before; and what the shutdown
    thread makes of the requests in the store. *)
From Stdlib Require Import String.
From S2P Require Import Prelude Bitmap CString FreeList Gnttab Events P2m Seqlock Time Suspend.
From stdpp Require Import options.
Open Scope Z_scope.
Open Scope list_scope.

(** ** The parts *)

(** [time_suspend] leaves the clock readable. *)
Lemma time_suspend_shows o p l s : shadows o p s -> xen_shows o.1 p l s ->
  exists q k s1, time_suspend s = Ok s1 /\ clock_read s s1 /\
    suspend_time s1 = clock_value s1 /\ suspended s1 = sgn32 (suspended s + 1) /\ time_addend s1 = time_addend s /\
    shadows q q s1 /\ xen_shows q.1 q k s1.
Proof.
  intros Ho Hs. destruct (time_suspend_spec o p l s Ho Hs) as (s1 & E1 & Hr & Hst & Hsu & Had). pose proof E1 as E2. unfold time_suspend in E1.
  destruct (guk_monotonic_clock_spec _ _ _ _ Ho Hs) as (t & tl & q & k & E & Hpq & Hev & Hsh & _). rewrite E in E1.
  cbn [mbind res_bind] in E1. injection E1 as E1. exists q, k, s1. splits; try done; clear E2 Hr Hst Hsu Had; subst s1.
  - split; try done. destruct (Hsh (set_xen q.2 k.*2 s)) as [? ? ? Hv ?]; done.
  - set (s1 := set_suspend _ _ _). destruct (Hsh s1) as [H1 H2 H3 H4 H5]; [done..|]. split; [done..|].
    intros x Hx. destruct (H5 x Hx). apply xen_steps in Hpq as (? & _). pose proof (sh_since _ _ _ Ho) as Hop. apply xen_steps in Hop as (? & _). split; [done|lia].
Qed.

(** Reading the clock changes only what is read. *)
Lemma now_total o p l s : shadows o p s -> xen_shows o.1 p l s ->
  exists v s', now s = Ok (v, s') /\ suspend_time s' = suspend_time s /\ suspended s' = suspended s /\ time_addend s' = time_addend s /\
    irqs_disabled s' = irqs_disabled s.
Proof.
  intros Ho Hs. unfold now. destruct (guk_monotonic_clock_spec _ _ _ _ Ho Hs) as (t & tl & q & k & -> & _).
  cbn [mbind res_bind]. by eexists _, _.
Qed.

Lemma put_entries_total n : forall from g, 0 <= from -> from + Z.of_nat n <= Z.of_nat (length (gnttab_list g)) ->
  exists g', put_entries n from g = Ok g' /\ gnttab_suspended g' = gnttab_suspended g.
Proof.
  induction n as [|n IH]; intros from g Hf Hn; cbn [put_entries]; [by exists g|].
  unfold put_free_entry. destruct (fl_push_any (gnttab_list g) from from) as (l & -> & Hl); [lia|]. cbn [mbind res_bind].
  destruct (IH (from + 1) (set_list l (sgn32 (num_free g + 1)) g)) as (g' & H & Hg); [lia|cbn [gnttab_list set_list]; lia|].
  by exists g'.
Qed.

Lemma gnttab_resume_total abi fr g :
  NR_RESERVED_ENTRIES <= NR_GRANT_ENTRIES abi -> Z.of_nat (length (gnttab_list g)) = NR_GRANT_ENTRIES abi -> gnttab_suspended g = 1 ->
  exists g', gnttab_resume abi fr g = Ok g' /\ gnttab_suspended g' = 0.
Proof.
  intros Hr Hl Hs. unfold gnttab_resume, init_frames. rewrite Hs. cbn [Z.eqb Pos.eqb negb bug_on mbind res_bind]. unfold NR_RESERVED_ENTRIES in *.
  destruct (put_entries_total (Z.to_nat (NR_GRANT_ENTRIES abi - 8)) 8 g) as (g' & -> & Hg); [lia|lia|].
  cbn [mbind res_bind]. eexists. split; [done|]. cbn [gnttab_suspended set_suspended map_frames]. lia.
Qed.

(** Xen gives the timer a port that has no event pending. *)
Definition virq_law {W} `{!EventEnv W} : Prop := forall virq cpu (s : evst W), exists port m w,
  hypercall (EVTCHNOP_bind_virq virq cpu) s = (0, port, set_world w (set_pending m s)) /\ 0 <= port < NR_EVS /\
  length m = length (evtchn_pending s) /\ (words_ok (evtchn_pending s) -> words_ok m) /\ page_bit m port = false.

Lemma evtchn_resume_binds {W} `{!EventEnv W} timer cpu (s : evst W) : virq_law -> ev_ok s ->
  exists port s', evtchn_resume timer cpu s = Ok s' /\ ev_ok s' /\ irq_count s' = irq_count s /\ 0 <= port < NR_EVS /\
    ev_actions s' !! Z.to_nat port = Some (EvAction cpu (H_fn timer) 0 0) /\
    (forall q, 0 <= q -> page_bit (bound_ports s') q = bool_decide (q = port) || page_bit (bound_ports s) q) /\
    page_bit (evtchn_mask s') port = false.
Proof.
  intros Hv Hok. unfold evtchn_resume, bind_virq, event_channel_op.
  match goal with |- context [hypercall ?o ?x] => destruct (Hv VIRQ_TIMER cpu x) as (port & m & w & -> & Hp & Hlm & Hwm & Hbit) end.
  cbn [evtchn_pending ev_tell] in Hlm, Hwm. cbn [Z.eqb negb bug_on mbind res_bind]. unfold NR_EVS in Hp.
  destruct (ok_bound s Hok) as [Hlb Hwb], (ok_mask s Hok) as [Hlk Hwk], (ok_pending s Hok) as [Hlp Hwp].
  unfold set_bound_port. cbn [bound_ports ev_tell set_pending set_world].
  destruct (set_bit_at (bound_ports s) port Hwb) as (b & -> & Hlb' & Hwb' & Hb); [lia|]. cbn [mbind res_bind].
  unfold bind_evtchn. cbn [ev_actions set_bound set_world set_pending ev_tell].
  destruct (lookup_lt_is_Some_2 (ev_actions s) (Z.to_nat port)) as [a Ha]; [rewrite (ok_actions s Hok); unfold NR_EVS; lia|].
  rewrite Ha. cbn [access mbind res_bind]. unfold unmask_evtchn. cbn [evtchn_mask set_actions set_bound set_world set_pending ev_tell].
  destruct (clear_bit_at (evtchn_mask s) port Hwk) as (k & -> & Hlk' & Hwk' & Hk); [lia|]. cbn [mbind res_bind evtchn_pending set_mask set_actions set_bound set_world set_pending ev_tell].
  rewrite test_bit_at by (first [by apply Hwm|lia]). rewrite Hbit. cbn [mbind res_bind].
  exists port. eexists. split; [done|]. cbn [irq_count ev_actions bound_ports evtchn_mask set_mask set_actions set_bound set_world set_pending ev_tell].
  splits; [|done|apply Hp|apply Hp| | |].
  - constructor; cbn; [by rewrite length_insert, (ok_actions s Hok)|split; [congruence|done]|split; [congruence|by apply Hwm]|split; [congruence|done]|apply Hok].
  - apply list_lookup_insert_eq. rewrite (ok_actions s Hok). unfold NR_EVS. lia.
  - intros q Hq. by rewrite Hb.
  - rewrite Hk by lia. by rewrite bool_decide_eq_true_2.
Qed.

(** Closing the ports leaves the preemption count alone. *)
Lemma unbind_ports_irq {W} `{!EventEnv W} n : hv_frame (W := W) -> forall i (s s' : evst W), unbind_ports n i s = Ok s' -> irq_count s' = irq_count s.
Proof.
  intros Hv. induction n as [|n IH]; intros i s s' H; cbn [unbind_ports] in H; [by injection H as <-|].
  apply res_bind_ok in H as (s1 & H1 & H). rewrite (IH _ _ _ H). clear IH H. unfold unbind_port in H1.
  apply res_bind_ok in H1 as (b & _ & H1). apply res_bind_ok in H1 as (m & _ & H1). destruct b; [|by injection H1 as <-].
  apply res_bind_ok in H1 as (s2 & H2 & H1). unfold mask_evtchn in H2. apply res_bind_ok in H2 as (k & _ & H2). injection H2 as <-.
  unfold unbind_evtchn in H1. apply res_bind_ok in H1 as (a & _ & H1). injection H1 as <-. cbn [irq_count set_actions]. unfold event_channel_op.
  match goal with |- context [hypercall ?o ?x] => destruct (Hv o x) as (err & pt & pe & w & -> & _ & _) end. done.
Qed.

(** ** Down and up again *)
Section Spec.
Set Default Proof Using "Type*".
Context {W X : Type} `{!EventEnv W} (abi : grant_abi) (K : parts X).
Context (xen_info_addr shared_info L1_PROT UVMF_INVLPG : Z) (machine_to_phys : Z -> Z) (phys_to_machine_mapping : Z)
  (smp_init_completed : bool) (grant_frames : list Z) (timer_fn : Z) (HYPERVISOR_suspend : Z -> machine W X -> Z * machine W X).
Implicit Types m : machine W X.

Local Abbreviation suspend_parts := (Suspend.suspend_parts K shared_info L1_PROT UVMF_INVLPG machine_to_phys).
Local Abbreviation resume_parts := (Suspend.resume_parts abi K shared_info UVMF_INVLPG phys_to_machine_mapping smp_init_completed grant_frames timer_fn).
Local Abbreviation do_suspend := (Suspend.do_suspend abi K xen_info_addr shared_info L1_PROT UVMF_INVLPG machine_to_phys phys_to_machine_mapping
  smp_init_completed grant_frames timer_fn HYPERVISOR_suspend).

(** The other parts come back, smp_suspend on the first processor, and Xen accepts the mappings
    of the shared page. *)
Record parts_return : Prop := {
  pr_xenbus x : exists x', xenbus_suspend K x = Ok x';
  pr_xenbus_resume x : exists x', xenbus_resume K x = Ok x';
  pr_smp x : exists x', smp_suspend K x = Ok x' /\ smp_processor_id K x' = 0;
  pr_smp_resume x : exists x', smp_resume K x = Ok x';
  pr_console x : exists x', console_suspend K x = Ok x';
  pr_console_resume x : exists x', console_resume K x = Ok x';
  pr_mapping a p f x : exists x', HYPERVISOR_update_va_mapping K a p f x = (0, x')
}.

(** A running machine. *)
Record machine_ok m : Prop := {
  m_clock : exists o p l, shadows o p (clock m) /\ xen_shows o.1 p l (clock m);
  m_suspended : 0 <= suspended (clock m) < 2 ^ 31 - 1;
  m_table : table_ok (table m);
  m_list : Z.of_nat (length (gnttab_list (grants m))) = NR_GRANT_ENTRIES abi;
  m_grants : gnttab_suspended (grants m) = 0;
  m_events : ev_ok (events m);
  m_preempt : irq_count (events m) + 1 < 2 ^ 31 - IRQ_ACTIVE
}.

(** The suspension returns success; Xen has kept the memory of the kernel and shows the clocks
    of the machine on which it runs now, and any frames. *)
Definition xen_resumes : Prop := forall a m, exists m', HYPERVISOR_suspend a m = (0, m') /\
  table m' = table m /\ grants m' = grants m /\ suspend_time (clock m') = suspend_time (clock m) /\ suspended (clock m') = suspended (clock m) /\
  time_addend (clock m') = time_addend (clock m) /\ (exists p l pw lw, xen_shows p.1 p l (clock m') /\ wc_shows pw lw (clock m')) /\
  (ev_ok (events m) -> ev_ok (events m')) /\ irq_count (events m') = irq_count (events m) /\ bound_ports (events m') = bound_ports (events m).

(** The machine that is about to be suspended. *)
Record taken_down m m' : Prop := {
  d_clock : exists c, clock_read (clock m) c /\ suspend_time (clock m') = clock_value c;
  d_suspended : suspended (clock m') = suspended (clock m) + 1;
  d_addend : time_addend (clock m') = time_addend (clock m);
  d_table : table m' = table m;
  d_list : gnttab_list (grants m') = gnttab_list (grants m);
  d_grants : gnttab_suspended (grants m') = 1;
  d_events : ev_ok (events m');
  d_preempt : irq_count (events m') = irq_count (events m) + 1;
  d_ports p : 0 <= p < NR_EVS -> page_bit (bound_ports (events m')) p = false
}.

Lemma suspend_parts_spec m : parts_return -> hv_frame (W := W) -> machine_ok m -> exists m', suspend_parts m = Ok m' /\ taken_down m m'.
Proof.
  intros Hk Hv Hm. destruct (m_clock m Hm) as (o & p & l & Ho & Hs). pose proof (m_suspended m Hm) as Hn.
  unfold Suspend.suspend_parts, on_rest, on_events, on_clock.
  destruct (pr_xenbus Hk (rest m)) as [x1 ->]. cbn [mbind res_bind rest set_rest].
  destruct (pr_smp Hk x1) as (x2 & -> & Hcpu). cbn [mbind res_bind rest set_rest events preempt_add].
  pose proof (ok_irq _ (m_events m Hm)) as Hirq. pose proof (m_preempt m Hm) as Hpre. unfold IRQ_ACTIVE in *.
  rewrite sgn_small by lia. set (e1 := set_irq _ _).
  assert (ev_ok e1) as Hok1 by (destruct (m_events m Hm); constructor; [done..|cbn; unfold IRQ_ACTIVE; lia]).
  cbn [mbind res_bind events set_events]. destruct (suspend_unbinds e1 Hv Hok1) as (e2 & He2 & Hcl). rewrite He2.
  cbn [mbind res_bind grants set_events set_rest rest set_grants]. rewrite Hcpu. cbn [Z.eqb negb bug_on mbind res_bind clock set_grants set_events set_rest set_irqs].
  set (c1 := set_cpu _ true _). destruct (time_suspend_shows o p l c1) as (q & k & c2 & Hc2 & Hread & Hst & Hsu & Had & Hsh & Hxs).
  { destruct Ho. by split. } { by destruct Hs. }
  cbn [clock set_clock]. rewrite Hc2. cbn [mbind res_bind rest set_clock set_grants set_events set_rest].
  destruct (pr_console Hk x2) as [x3 ->]. cbn [mbind res_bind clock set_rest set_clock].
  destruct (now_total q q k c2 Hsh Hxs) as (v & c3 & Hc3 & Hst3 & Hsu3 & Had3 & _). rewrite Hc3. cbn [mbind res_bind].
  unfold map_shared. cbn [rest set_clock set_rest hv_shared_info frames set_grants set_events].
  match goal with |- context [HYPERVISOR_update_va_mapping K ?a ?b ?c ?x] => destruct (pr_mapping Hk a b c x) as [x4 ->] end.
  cbn [Z.eqb negb bug_on mbind res_bind]. eexists. split; [done|].
  split; cbn [clock table grants events set_info set_rest set_clock set_grants set_events].
  - exists c2. split; [by destruct Hread; split|congruence].
  - rewrite Hsu3, Hsu. cbn [suspended c1 set_cpu]. apply sgn_small; lia.
  - by rewrite Had3, Had.
  - done.
  - done.
  - cbn [gnttab_suspend gnttab_suspended set_suspended]. by rewrite (m_grants m Hm).
  - apply (cl_ok _ _ _ _ Hcl).
  - by rewrite (unbind_ports_irq _ Hv _ _ _ He2).
  - intros b Hb. rewrite (cl_bound _ _ _ _ Hcl) by lia. rewrite bool_decide_eq_true_2 by (unfold NR_EVS in *; lia). apply andb_false_r.
Qed.
(** The machine [m'] that runs again; [m] is the one whose services were suspended, and [m2] the
    one on which Xen resumed the domain: the suspension time is that of a record of Xen on the
    old machine, read to the end, the clock of [m'] was read on the new one, and [NOW] is the
    larger of its value at the suspension and the one the new clock gives. *)
Record resumed m m2 m' : Prop := {
  r_before : exists c, clock_read (clock m) c /\ suspend_time (clock m2) = clock_value c;
  r_after : clock_read (clock m2) (clock m');
  r_clock : suspend_time (clock m2) < 2 ^ 62 -> clock_value (clock m') < 2 ^ 62 -> - 2 ^ 62 <= time_addend (clock m) < 2 ^ 62 ->
    clock_value (clock m') + time_addend (clock m') =
      (suspend_time (clock m2) + time_addend (clock m)) `max` (clock_value (clock m') + time_addend (clock m));
  r_suspended : suspended (clock m') = suspended (clock m);
  r_irqs : irqs_disabled (clock m') = false;
  r_table : table_ok (table m') /\ max_pfn_table (table m') = max_pfn_table (table m) /\ maxmem_pfn_table (table m') = maxmem_pfn_table (table m);
  r_finds page_of : (forall p, page_of (frames m' p) = Some p) -> xen_finds phys_to_machine_mapping (frames m') page_of (table m');
  r_grants : gnttab_suspended (grants m') = 0;
  r_events : ev_ok (events m') /\ irq_count (events m') = irq_count (events m);
  r_ports : exists port, 0 <= port < NR_EVS /\ (forall p, 0 <= p < NR_EVS -> page_bit (bound_ports (events m')) p = bool_decide (p = port)) /\
    page_bit (evtchn_mask (events m')) port = false /\
    exists cpu, ev_actions (events m') !! Z.to_nat port = Some (EvAction cpu (H_fn timer_fn) 0 0);
  r_info : info_copy m' = xen_info m' /\ hv_shared_info m' = shared_info
}.

(** The clock after the resumption, as in [time_resume_spec]. *)
Lemma addend_continues st c a : 0 <= st < 2 ^ 62 -> 0 <= c < 2 ^ 62 -> - 2 ^ 62 <= a < 2 ^ 62 ->
  c + (let delta := sgn 64 (c - st) in if delta <? 0 then sgn 64 (a - delta) else a) = (st + a) `max` (c + a).
Proof using.
  intros Hst Hc Ha. cbv zeta. rewrite (sgn64_id (c - st)) by lia. destruct (Z.ltb_spec (c - st) 0) as [Hlt|Hge]; [|lia].
  rewrite sgn64_id by lia. lia.
Qed.

Lemma resume_parts_spec m m1 m2 :
  parts_return -> virq_law (W := W) -> NR_RESERVED_ENTRIES <= NR_GRANT_ENTRIES abi -> machine_ok m -> taken_down m m1 ->
  table m2 = table m1 -> grants m2 = grants m1 -> suspend_time (clock m2) = suspend_time (clock m1) -> suspended (clock m2) = suspended (clock m1) ->
  time_addend (clock m2) = time_addend (clock m1) -> (exists p l pw lw, xen_shows p.1 p l (clock m2) /\ wc_shows pw lw (clock m2)) ->
  ev_ok (events m2) -> irq_count (events m2) = irq_count (events m1) -> bound_ports (events m2) = bound_ports (events m1) ->
  exists m', resume_parts 0 m2 = Ok m' /\ resumed m m2 m'.
Proof.
  intros Hk Hv Habi Hm Hd Ht Hg Hst Hsu Had (p & l & pw & lw & Hxs & Hwc) Hev Hirq Hbp.
  unfold Suspend.resume_parts. cbn [Z.eqb negb bug_on mbind res_bind]. unfold map_shared, on_rest, on_events, on_clock, on_grants.
  match goal with |- context [HYPERVISOR_update_va_mapping K ?a ?b ?c ?x] => destruct (pr_mapping Hk a b c x) as [x1 ->] end.
  cbn [Z.eqb negb bug_on mbind res_bind rest set_rest set_copy set_shared_info].
  destruct (pr_console_resume Hk x1) as [x2 ->]. cbn [mbind res_bind clock set_rest set_copy set_shared_info].
  pose proof (m_suspended m Hm) as Hn.
  destruct (time_resume_spec p l pw lw false smp_init_completed (clock m2) Hxs Hwc) as (c3 & -> & [R1 R2 R3 R4] & Hsu3 & Had3).
  { rewrite Hsu, (d_suspended _ _ Hd). lia. }
  cbn [mbind res_bind clock set_clock set_irqs table frames set_rest set_copy set_shared_info].
  rewrite Ht, (d_table _ _ Hd). destruct (arch_rebuild_p2m_restores phys_to_machine_mapping (frames m2) (table m) (m_table m Hm)) as (t3 & -> & Ht3 & Hf3 & Hmx & Hmm & _).
  cbn [mbind res_bind grants set_p2m set_clock set_rest set_copy set_shared_info]. rewrite Hg.
  destruct (gnttab_resume_total abi grant_frames (grants m1) Habi) as (g3 & -> & Hg3); [by rewrite (d_list _ _ Hd), (m_list m Hm)|apply (d_grants _ _ Hd)|].
  cbn [mbind res_bind events rest set_grants set_p2m set_clock set_rest set_copy set_shared_info].
  destruct (evtchn_resume_binds timer_fn (smp_processor_id K x2) (events m2) Hv Hev) as (port & e3 & -> & Hok3 & Hirq3 & Hp & Hact & Hb & Hmask).
  cbn [mbind res_bind preempt_add events rest set_events set_grants set_p2m set_clock set_rest set_copy set_shared_info].
  destruct (pr_smp_resume Hk x2) as [x4 ->]. cbn [mbind res_bind rest set_rest].
  destruct (pr_xenbus_resume Hk x4) as [x5 ->]. cbn [mbind res_bind].
  eexists. split; [done|]. pose proof (ok_irq _ (m_events m Hm)) as Hi. pose proof (m_preempt m Hm) as Hpre. unfold IRQ_ACTIVE in *.
  assert (sgn32 (irq_count e3 + -1) = irq_count (events m)) as Hcount by (rewrite Hirq3, Hirq, (d_preempt _ _ Hd), sgn_small by lia; lia).
  split; cbn [clock table frames grants events info_copy xen_info hv_shared_info set_rest set_events set_grants set_p2m set_clock set_copy set_shared_info
    irq_count set_irq evtchn_mask ev_actions bound_ports]; try done.
  - destruct (d_clock _ _ Hd) as (c & Hc & Hst0). exists c. split; [done|congruence].
  - unfold clock_value. cbn [time_addend set_cpu xen_time tsc]. fold (clock_value c3). intros H1 H2 H3. rewrite Had3, Had, (d_addend _ _ Hd).
    destruct (d_clock _ _ Hd) as (c & Hc & Hst0). pose proof (clock_of_range (xen_time c) (tsc c)). pose proof (clock_of_range (xen_time c3) (tsc c3)).
    fold (clock_value c) in *. fold (clock_value c3) in *. apply addend_continues; [rewrite Hst, Hst0 in *; lia|lia|lia].
  - cbn [suspended set_cpu]. rewrite Hsu3, Hsu, (d_suspended _ _ Hd). rewrite sgn_small by lia. lia.
  - split; [|exact Hcount]. destruct Hok3. constructor; [done..|]. cbn [irq_count set_irq]. rewrite Hcount. unfold IRQ_ACTIVE. lia.
  - exists port. split; [done|]. split; [|split; [done|by eexists]].
    intros b Hbr. rewrite Hb by lia. rewrite Hbp, (d_ports _ _ Hd) by done. apply orb_false_r.
Qed.

(** Services that let themselves be suspended and resumed. *)
Definition service_ok (sv : service (machine W X)) : Prop :=
  (forall m, machine_ok m -> exists x m', sv_suspend sv m = Ok (x, m') /\ machine_ok m') /\ forall m, exists x m', sv_resume sv m = Ok (x, m').

Lemma services_suspended l x m : Forall service_ok l -> machine_ok m -> exists x' m', services_loop sv_suspend l x m = Ok (x', m') /\ machine_ok m'.
Proof using.
  intros Hl. revert x m. induction Hl as [|sv l [Hs _] _ IH]; intros x m Hm; [by exists x, m|].
  destruct (Hs m Hm) as (y & m1 & H1 & Hm1). cbn [services_loop]. rewrite H1. by apply IH.
Qed.

Lemma services_resumed l x m : Forall service_ok l -> exists x' m', services_loop sv_resume l x m = Ok (x', m').
Proof using.
  intros Hl. revert x m. induction Hl as [|sv l [_ Hs] _ IH]; intros x m; [by exists x, m|].
  destruct (Hs m) as (y & m1 & H1). cbn [services_loop]. rewrite H1. apply IH.
Qed.

(** C25: do_suspend, on the clocks, the map of the frames, the grants and the event channels
    together: whatever machine Xen resumes the domain on, it returns with the services running;
    the system time goes on from where it was - the time of the record that Xen had on the old
    machine - or from the clock of the new one, whichever is later; Xen
    finds every page of the physical-to-machine map at its new frame; interrupts and preemption
    are as before; of the event channels exactly the port of the timer is open, its handler set
    and unmasked; the new start info page is copied. *)
Theorem do_suspend_restores r m :
  parts_return -> hv_frame (W := W) -> virq_law (W := W) -> xen_resumes -> NR_RESERVED_ENTRIES <= NR_GRANT_ENTRIES abi ->
  Forall service_ok (services r) -> machine_ok m ->
  exists x1 x2 m1 m2 m3 m4 m', services_loop sv_suspend (services r) 0 m = Ok (x1, m1) /\ suspend_parts m1 = Ok m2 /\
    HYPERVISOR_suspend (frames m xen_info_addr) m2 = (0, m3) /\ resumed m1 m3 m4 /\
    services_loop sv_resume (services r) 0 m4 = Ok (x2, m') /\ do_suspend r m = Ok (Registry (services r) SERV_STARTED, m').
Proof.
  intros Hk Hv Hq Hx Habi Hr Hm. destruct (services_suspended (services r) 0 m Hr Hm) as (x1 & m1 & H1 & Hm1).
  destruct (suspend_parts_spec m1 Hk Hv Hm1) as (m2 & H2 & Hd).
  destruct (Hx (frames m xen_info_addr) m2) as (m3 & H3 & Ht & Hg & Hst & Hsu & Had & Hsh & Hev & Hirq & Hbp).
  destruct (resume_parts_spec m1 m2 m3) as (m4 & H4 & Hres); try done; [apply Hev, (d_events _ _ Hd)|].
  destruct (services_resumed (services r) 0 m4 Hr) as (x2 & m5 & H5).
  exists x1, x2, m1, m2, m3, m4, m5. do 5 (split; [done|]).
  unfold Suspend.do_suspend, suspend_services, resume_services. rewrite H1. cbn [mbind res_bind]. rewrite H2. cbn [mbind res_bind]. rewrite H3, H4.
  cbn [mbind res_bind services]. by rewrite H5.
Qed.
End Spec.

(** ** The requests in the store *)

(** What a value of the control node asks for. *)
Definition request_code (t : list Z) : Z :=
  if decide (t = str "poweroff" \/ t = str "halt") then SHUTDOWN_SHUTDOWN
  else if decide (t = str "suspend") then SHUTDOWN_SUSPEND
  else if decide (t = str "reboot") then SHUTDOWN_REBOOT else 0.

Lemma acknowledge_retries path n rest :
  acknowledge path (replicate n (false, true) ++ (false, false) :: rest) = Ok (concat (replicate (S n) [S_start; S_write path [0]; S_end false])).
Proof. induction n as [|n IH]; [done|]. cbn [replicate app acknowledge]. by rewrite IH. Qed.

Lemma strcmp_word t r w : nonzero t -> nonzero (str w) -> exists v, strcmp (t ++ 0 :: r) (cstr w) = Ok v /\ (v = 0 <-> t = str w).
Proof. intros Ht Hw. by apply strcmp_total. Qed.

(** [check_shutdown] answers the code of the request, for every string, and acknowledges a request
    it knows by emptying the node, in a transaction that is repeated until it is accepted. *)
Lemma check_shutdown_spec path t r n rest : nonzero t ->
  check_shutdown (Request path (Some (Some (t ++ 0 :: r))) (replicate n (false, true) ++ (false, false) :: rest)) =
  Ok (request_code t, if request_code t =? 0 then [] else concat (replicate (S n) [S_start; S_write path [0]; S_end false])).
Proof.
  intros Ht. unfold check_shutdown. cbn [rq_value rq_path rq_attempts]. rewrite acknowledge_retries.
  destruct (strcmp_word t r "poweroff" Ht ltac:(repeat constructor)) as (a & -> & Ha).
  destruct (strcmp_word t r "halt" Ht ltac:(repeat constructor)) as (b & Eb & Hb).
  destruct (strcmp_word t r "suspend" Ht ltac:(repeat constructor)) as (c & Ec & Hc).
  destruct (strcmp_word t r "reboot" Ht ltac:(repeat constructor)) as (d & Ed & Hd).
  cbn [mbind res_bind]. unfold request_code. rewrite Eb, Ec, Ed.
  destruct (Z.eqb_spec a 0) as [Ea|Ea]; cbn [mbind res_bind orb].
  { rewrite decide_True by (left; tauto). done. }
  destruct (Z.eqb_spec b 0) as [E|E]; [rewrite decide_True by (right; tauto); done|]. rewrite decide_False by tauto.
  destruct (Z.eqb_spec c 0) as [E2|E2]; cbn [mbind res_bind]; [rewrite decide_True by tauto; done|]. rewrite decide_False by tauto.
  destruct (Z.eqb_spec d 0) as [E3|E3]; cbn [mbind res_bind]; [by rewrite decide_True by tauto|by rewrite decide_False by tauto].
Qed.

(** ** Examples *)

(** Services are resumed in the order in which they were suspended, the last registered first;
    the parts below them are resumed in the reverse order. *)
Definition demo_service (k : Z) : service (list Z) :=
  Service (fun l => Ok (0, l ++ [k])) (fun l => Ok (k, l ++ [10 + k])) (fun l => Ok (0, l ++ [20 + k])) (fun l => Ok (0, l)).

Definition demo_registry : res (registry (list Z)) :=
  r ← register_service (demo_service 1) (Registry [] SERV_STOP); r ← register_service (demo_service 2) r; register_service (demo_service 3) r.

Example services_order :
  (r ← demo_registry; '(r, l) ← start_services r []; '(x, r, l) ← suspend_services r l; '(_, r, l) ← resume_services r l; Ok (x, l)) =
  Ok (6, [3; 2; 1; 13; 12; 11; 23; 22; 21]).
Proof. reflexivity. Qed.

Example register_late : (r ← demo_registry; '(r, _) ← start_services r []; register_service (demo_service 4) r) = Bug BUG_ON.
Proof. reflexivity. Qed.

(** A machine on a Xen that has no events pending and gives the timer port 3. *)
Local Instance susp_env : EventEnv Z := {
  run_handler _ _ _ s := Ok s;
  hypercall _ s := (0, 3, set_pending (replicate (length (evtchn_pending s)) 0) s)
}.

Lemma zero_words n : words_ok (replicate n 0).
Proof. apply Forall_replicate. lia. Qed.

Lemma susp_hv : hv_frame (W := Z).
Proof. intros o s. exists 0, 3, (replicate (length (evtchn_pending s)) 0), (ev_world s). split; [by destruct s|]. split; [apply length_replicate|intros _; apply zero_words]. Qed.

Lemma susp_virq : virq_law (W := Z).
Proof.
  intros virq cpu s. exists 3, (replicate (length (evtchn_pending s)) 0), (ev_world s). splits; [by destruct s|done|done|apply length_replicate|intros _; apply zero_words|].
  unfold page_bit. destruct (length (evtchn_pending s)) as [|n]; done.
Qed.

Definition demo_parts : parts () := Parts Ok Ok Ok Ok Ok Ok (fun _ => 0) (fun _ _ _ x => (0, x)).

Definition demo_machine : machine Z () :=
  Machine demo_time (p2m_demo 2 [200; 300]) (demo_frame 5000) demo_granted (demo_events 0 0) (StartInfo 11 12 4096) (StartInfo 11 12 4096) 8192 ().

(** It wakes up on another machine, in other frames. *)
Definition demo_resume (_ : Z) (m : machine Z ()) : Z * machine Z () :=
  (0, Machine (demo_woken (clock m)) (table m) (demo_frame 9000) (grants m) (events m) (StartInfo 21 22 8192) (info_copy m) (hv_shared_info m) ()).

(** A driver, and one that cannot be suspended. *)
Definition demo_services : registry (machine Z ()) :=
  Registry [Service (fun m => Ok (0, m)) (fun m => Ok (1, m)) (fun m => Ok (1, m)) (fun m => Ok (1, m));
            Service (fun m => Ok (0, m)) (fun m => Ok (0, m)) (fun m => Ok (0, m)) (fun m => Ok (0, m))] SERV_STARTED.

Lemma demo_machine_ok : machine_ok demo_abi demo_machine.
Proof.
  split.
  - exists (demo_x 2 1000 50000), (demo_x 2 1000 50000), demo_run. split; [apply demo_shadows|apply demo_shows].
  - done.
  - apply demo_table_ok.
  - apply demo_granted_free.
  - by vm_compute.
  - by apply demo_events_ok.
  - done.
Qed.

Lemma demo_woken_value s s' : clock_read (demo_woken s) s' -> clock_value s' < 3000.
Proof.
  intros [_ _ [pre Hx] [pre' Ht]]. unfold clock_value.
  assert (xen_time s' ∈ [(demo_x 8 100 2000).2]) as Hx' by (change (xen_time s' ∈ xen_time (demo_woken s) :: xen_later (demo_woken s)); rewrite Hx; set_solver).
  assert (tsc s' ∈ [300; 400; 500]) as Ht' by (change (tsc s' ∈ tsc (demo_woken s) :: tsc_later (demo_woken s)); rewrite Ht; set_solver).
  apply list_elem_of_singleton in Hx' as ->. rewrite !elem_of_cons, elem_of_nil in Ht'. by destruct Ht' as [->|[->|[->|[]]]].
Qed.

(** [NOW] on the other machine, whose clock is behind, goes on from the suspension time. *)
Lemma do_suspend_restores_witness :
  exists m2 m3 m4 m', suspend_time (clock m2) = 62000 /\ demo_resume 1 m2 = (0, m3) /\ resumed 4096 8192 7 demo_machine m3 m4 /\
    clock_value (clock m4) + time_addend (clock m4) = 62000 + 500 /\
    do_suspend demo_abi demo_parts 1 4096 3 2 (fun k => k) 8192 true [200; 201; 202; 203] 7 demo_resume demo_services demo_machine =
    Ok (Registry (services demo_services) SERV_STARTED, m').
Proof.
  destruct (do_suspend_restores demo_abi demo_parts 1 4096 3 2 (fun k => k) 8192 true [200; 201; 202; 203] 7 demo_resume demo_services demo_machine)
    as (x1 & x2 & m1 & m2 & m3 & m4 & m' & H1 & H2 & H3 & Hr & _ & H).
  - split; try (intros; by eexists).
  - apply susp_hv.
  - apply susp_virq.
  - intros a m. exists (demo_resume a m).2. split; [done|]. splits; try done.
    exists (demo_x 8 100 2000), [], demo_w, []. split; [apply demo_woken_shows|apply demo_woken_wc].
  - by vm_compute.
  - repeat (apply Forall_cons; split); [..|by apply Forall_nil]; split; intros; by eexists _, _.
  - apply demo_machine_ok.
  - apply Ok_inj in H1. apply (f_equal snd) in H1. change (demo_machine = m1) in H1. subst m1.
    apply (f_equal snd) in H3. change ((demo_resume 1 m2).2 = m3) in H3. subst m3.
    assert (suspend_time (clock m2) = 62000) as Hst by (apply (f_equal (fun r => suspend_time (clock (get r demo_machine)))) in H2; symmetry; etrans; [|exact H2]; by vm_compute).
    exists m2, (demo_resume 1 m2).2, m4, m'. splits; [exact Hst|done|exact Hr| |exact H].
    pose proof (demo_woken_value _ _ (r_after _ _ _ _ _ _ Hr)) as Hlt.
    pose proof (r_clock _ _ _ _ _ _ Hr) as Hc. cbn [clock demo_machine demo_resume snd] in Hc. change (suspend_time (demo_woken (clock m2))) with (suspend_time (clock m2)) in Hc.
    rewrite Hst in Hc. change (time_addend demo_time) with 500 in Hc. rewrite Hc; lia.
Defined.
