(* ===== verification/Completion.v ===== *)
(** Wait queues and completions: include/guk/wait.h and completion.c, on the
    scheduler.

    A wait queue is the sequence of the threads whose entries are linked, in the
    order of the list; an entry is a local variable of the waiting thread, so a
    thread has one.  What the code does between taking and releasing the lock of
    the queue is one step (the lock is the subject of [Spinlock]); a function that
    calls [schedule] is split there.  [UINT_MAX] is that of a 32-bit [unsigned]. *)
From S2P Require Import Prelude Sched SchedInv SchedReach.
From stdpp Require Import options.

Definition UINT_MAX : Z := 2 ^ 32 - 1.

(** [struct completion], with the list of its wait queue. *)
Record completion := Comp { done : Z; wait : list Z }.

Definition init_completion : completion := Comp 0 [].

(** [INIT_COMPLETION(x)] *)
Definition INIT_COMPLETION (c : completion) : completion := Comp 0 (wait c).

Section Code.
Context (E : sched_env) (cpu : Z).

(** ** wait.h *)

Definition add_wait_queue (l : list Z) (t : Z) : list Z := if bool_decide (t ∈ l) then l else l ++ [t].

Definition remove_wait_queue (l : list Z) (t : Z) : list Z := remove_from t l.

(** The loop over the entries: [next] is read before the thread is woken, and
    waking does not change the list. *)
Fixpoint __wake_up (l : list Z) (s : sched) : res sched :=
  match l with
  | [] => Ok s
  | t :: l => s ← guk_wake E cpu t s; __wake_up l s
  end.

Definition wake_up (l : list Z) (s : sched) : res sched := __wake_up l s.

(** [add_waiter(w, wq)] and [remove_waiter(w)] *)
Definition add_waiter (l : list Z) (s : sched) : res (list Z * sched) :=
  t ← current s cpu;
  let l := add_wait_queue l t in
  s ← guk_block cpu t s;
  Ok (l, s).

Definition remove_waiter (l : list Z) (t : Z) : list Z := remove_wait_queue l t.

(** One iteration of the loop of [wait_event]; [cond] is the condition when it is
    tested.  The result says whether [schedule] is called and the loop goes on. *)
Definition wait_event_iter (cond : bool) (l : list Z) (s : sched) : res (bool * list Z * sched) :=
  t ← current s cpu;
  let l := add_wait_queue l t in
  s ← guk_block cpu t s;
  if cond then s ← guk_wake E cpu t s; Ok (false, l, s) else Ok (true, l, s).

(** What follows the loop. *)
Definition wait_event_end (l : list Z) (t : Z) : list Z :=
  if bool_decide (t ∈ l) then remove_wait_queue l t else l.

(** ** completion.c *)

(** [guk_wait_for_completion] up to its first [schedule], or to its end: the
    result says whether it calls [schedule]. *)
Definition wait_for_completion_begin (c : completion) (s : sched) : res (bool * completion * sched) :=
  if done c =? 0 then
    t ← current s cpu;
    let l := add_wait_queue (wait c) t in
    s ← guk_block cpu t s;
    Ok (true, Comp (done c) l, s)
  else Ok (false, Comp (done c - 1) (wait c), s).

(** The rest after a [schedule], up to the next one or to the end. *)
Definition wait_for_completion_again (c : completion) (s : sched) : res (bool * completion * sched) :=
  t ← current s cpu;
  if done c =? 0 then
    s ← guk_block cpu t s;
    Ok (true, c, s)
  else Ok (false, Comp (done c - 1) (remove_wait_queue (wait c) t), s).

Definition guk_complete_all (c : completion) (s : sched) : res (completion * sched) :=
  s ← __wake_up (wait c) s;
  Ok (Comp (UINT_MAX / 2) (wait c), s).

Definition guk_complete (c : completion) (s : sched) : res (completion * sched) :=
  s ← __wake_up (wait c) s;
  Ok (Comp 1 (wait c), s).
End Code.

(** ** Waking a queue *)

(** Waking puts the thread on the ready queue. *)
Definition gets_ready (s : sched) (t : Z) : bool :=
  match threads s !! t with Some th => negb (queued s th) && queued s (woken th) | None => false end.

Definition waiters_ok (s : sched) (l : list Z) : Prop := NoDup l /\ forall t, t ∈ l -> exists th, wakeable s t th.

Lemma woken_awake s s' t th : threads s' = <[t := woken th]> (threads s) -> awake s' t.
Proof.
  intros H. exists (woken th). rewrite H, lookup_insert_eq. split; [done|].
  by destruct (woken_facts th) as (_&_&_&_&_&_&_&_&_&_&_&_&_&?&_).
Qed.

Lemma wake_wakes E cpu s t th :
  sched_ok s -> quiet s cpu -> wakeable s t th ->
  exists s', guk_wake E cpu t s = Ok s' /\ wakes s s' /\ awake s' t /\
    threads s' = <[t := woken th]> (threads s) /\
    ready_queue s' = ready_queue s ++ if gets_ready s t then [t] else [].
Proof.
  intros Hok Hq Hw. destruct (wake_spec E cpu s t th Hok Hq Hw) as (s' & Hr & Hok' & (F1&F2&F3&F4&F5&F6&F7&F8&F9) & Hth & Hrq).
  destruct Hw as (Ht & _). exists s'. splits; [done| |by eapply woken_awake|done|].
  - unfold wakes. splits; try done; [by eapply same_threads_insert; [exact Ht|apply same_woken|]|].
    intros q x Hx. exists x. rewrite F1. auto.
  - rewrite Hrq. unfold gets_ready. rewrite Ht. destruct (queued s th), (queued s (woken th)); cbn; by rewrite ?app_nil_r.
Qed.

(** Waking a queue makes every waiter runnable, and those that were not queued
    join the ready queue in the order of the wait queue. *)
Lemma wake_up_spec E cpu l s :
  sched_ok s -> quiet s cpu -> waiters_ok s l ->
  exists s', __wake_up E cpu l s = Ok s' /\ wakes s s' /\ (forall t, t ∈ l -> awake s' t) /\
    ready_queue s' = ready_queue s ++ filter (fun t => gets_ready s t = true) l.
Proof.
  revert s. induction l as [|t l IH]; intros s Hok Hq [Hnd Hl].
  { exists s. splits; [done|by apply wakes_refl|set_solver|by rewrite app_nil_r]. }
  apply NoDup_cons in Hnd as [Htl Hnd]. destruct (Hl t ltac:(by left)) as [th Hw]. cbn [__wake_up].
  destruct (wake_wakes E cpu s t th Hok Hq Hw) as (s1 & -> & Hw1 & Ha1 & Hth1 & Hrq1). cbn [mbind res_bind].
  pose proof Hw1 as (Hok1 & Hst & _ & _ & _ & Hc & Hup & _).
  destruct (IH s1) as (s' & -> & Hw' & Ha' & Hrq'); [done|by eapply quiet_same| |].
  { split; [done|]. intros x Hx. destruct (Hl x ltac:(by right)) as [xth Hxw]. by eapply wakeable_same. }
  exists s'. splits; [done|by eapply wakes_trans| |].
  - intros x [->|Hx]%elem_of_cons; [|by apply Ha']. eapply awake_same; [|exact Ha1]. apply Hw'.
  - rewrite Hrq', Hrq1, <- app_assoc. f_equal.
    assert (filter (fun x => gets_ready s1 x = true) l = filter (fun x => gets_ready s x = true) l) as ->.
    { clear -Htl Hth1 Hup. induction l as [|x l IHl]; [done|]. apply not_elem_of_cons in Htl as [Hne Htl].
      assert (gets_ready s1 x = gets_ready s x) as Heq.
      { unfold gets_ready, queued. by rewrite Hth1, lookup_insert_ne, Hup by done. }
      rewrite !filter_cons, Heq. by rewrite IHl. }
    rewrite filter_cons. destruct (gets_ready s t); [by rewrite decide_True|by rewrite decide_False].
Qed.

(** ** Completions over time *)

(** What holds whenever no thread is inside a critical section: waiters can be
    woken, and a posted completion leaves none of them asleep. *)
Record comp_ok (s : sched) (c : completion) : Prop := CompOk {
  co_sched : sched_ok s;
  co_wait : waiters_ok s (wait c);
  co_done : 0 <= done c < 2 ^ 31;
  co_awake : done c <> 0 -> forall t, t ∈ wait c -> awake s t
}.

(** The threads inside [guk_wait_for_completion] are those on the wait queue. *)
Definition waiting (W : gset Z) (c : completion) : Prop := forall t, t ∈ W <-> t ∈ wait c.

(** The critical sections of the threads that use the completion, and everything
    else the system does meanwhile: it keeps the waiters wakeable and does not put
    one to sleep that is awake.  [W] are the threads that have called
    [guk_wait_for_completion] and not returned from it: a thread enters the set when
    its first critical section ends in [schedule], and leaves it when a later one
    does not. *)
Inductive cstep : sched * completion * gset Z -> sched * completion * gset Z -> Prop :=
| CWait cpu s c W t th b c' s' :
    quiet s cpu -> current s cpu = Ok t -> t ∉ W -> wakeable s t th -> is_runnable th = true ->
    wait_for_completion_begin cpu c s = Ok (b, c', s') -> cstep (s, c, W) (s', c', if b then {[t]} ∪ W else W)
| CAgain cpu s c W t th b c' s' :
    quiet s cpu -> current s cpu = Ok t -> t ∈ W -> wakeable s t th -> is_runnable th = true ->
    wait_for_completion_again cpu c s = Ok (b, c', s') -> cstep (s, c, W) (s', c', if b then W else W ∖ {[t]})
| CComplete E cpu s c W c' s' :
    quiet s cpu -> guk_complete E cpu c s = Ok (c', s') -> cstep (s, c, W) (s', c', W)
| CCompleteAll E cpu s c W c' s' :
    quiet s cpu -> guk_complete_all E cpu c s = Ok (c', s') -> cstep (s, c, W) (s', c', W)
| COther s s' c W :
    sched_ok s' -> (forall t, t ∈ W -> (exists th, wakeable s' t th) /\ (awake s t -> awake s' t)) ->
    cstep (s, c, W) (s', c, W).

Lemma block_waiters cpu s t th (l : list Z) :
  sched_ok s -> quiet s cpu -> threads s !! t = Some th -> is_runnable th = true ->
  (forall x, x ∈ l -> exists xth, wakeable s x xth) ->
  exists s', guk_block cpu t s = Ok s' /\ sched_ok s' /\ forall x, x ∈ l -> exists xth, wakeable s' x xth.
Proof.
  intros Hok Hq Ht Hr Hl. destruct (block_spec cpu s t th Hok Hq Ht Hr) as (s' & Hb & Hok' & (_&_&_&_&Hc&_) & Hth & _).
  exists s'. splits; [done|done|]. intros x Hx. destruct (Hl x Hx) as [xth Hw].
  eapply (wakeable_update s s' t th (clear_flag RUNNABLE_FLAG th)); [done|done|done|done|by flags|exact Hw].
Qed.

Lemma complete_with_ok E cpu v s c s' :
  comp_ok s c -> quiet s cpu -> 0 < v < 2 ^ 31 -> __wake_up E cpu (wait c) s = Ok s' -> comp_ok s' (Comp v (wait c)).
Proof.
  intros [Hok Hw Hd Ha] Hq Hv Hr. destruct (wake_up_spec E cpu (wait c) s Hok Hq Hw) as (s1 & Hr1 & Hwk & Haw & _).
  rewrite Hr in Hr1. injection Hr1 as <-. destruct Hwk as (Hok' & Hst & _ & _ & _ & Hc & _).
  constructor; cbn [done wait]; [done| |lia|auto]. destruct Hw as [Hnd Hw]. split; [done|].
  intros t Ht. destruct (Hw t Ht) as [th Hth]. by eapply wakeable_same.
Qed.

(** A thread that calls [guk_wait_for_completion] passes when the completion is
    posted, and else goes to sleep at the end of the wait queue. *)
Lemma begin_spec cpu s c t th :
  comp_ok s c -> quiet s cpu -> current s cpu = Ok t -> t ∉ wait c -> wakeable s t th -> is_runnable th = true ->
  if done c =? 0 then
    exists s', wait_for_completion_begin cpu c s = Ok (true, Comp 0 (wait c ++ [t]), s') /\ comp_ok s' (Comp 0 (wait c ++ [t])) /\
      threads s' = <[t := clear_flag RUNNABLE_FLAG th]> (threads s)
  else wait_for_completion_begin cpu c s = Ok (false, Comp (done c - 1) (wait c), s) /\ comp_ok s (Comp (done c - 1) (wait c)).
Proof.
  intros [Hsok [Hnd Hww] Hd Ha] Hq Hcur Htw Hw Hr. unfold wait_for_completion_begin. destruct (Z.eqb_spec (done c) 0) as [E0|NE].
  - rewrite Hcur. cbn [mbind res_bind].
    destruct (block_waiters cpu s t th (wait c ++ [t]) Hsok Hq (proj1 Hw) Hr) as (s1 & Hb & Hok1 & Hw1).
    { intros x [Hx|Hx%list_elem_of_singleton]%elem_of_app; [by apply Hww|subst x; by exists th]. }
    destruct (block_spec cpu s t th Hsok Hq (proj1 Hw) Hr) as (s2 & Hb2 & _ & _ & Hth & _). rewrite Hb in Hb2. injection Hb2 as <-.
    rewrite Hb. cbn [mbind res_bind]. unfold add_wait_queue. rewrite bool_decide_eq_false_2, E0 by done.
    exists s1. splits; [done| |done]. constructor; cbn [done wait]; [done|split; [|done]|lia|done].
    apply NoDup_app. splits; [done|set_solver|apply NoDup_singleton].
  - split; [done|]. constructor; cbn [done wait]; [done|done|lia|auto].
Qed.

Lemma again_spec cpu s c t th :
  comp_ok s c -> quiet s cpu -> current s cpu = Ok t -> wakeable s t th -> is_runnable th = true ->
  if done c =? 0 then exists s', wait_for_completion_again cpu c s = Ok (true, c, s') /\ comp_ok s' c
  else wait_for_completion_again cpu c s = Ok (false, Comp (done c - 1) (remove_from t (wait c)), s) /\
    comp_ok s (Comp (done c - 1) (remove_from t (wait c))).
Proof.
  intros [Hsok [Hnd Hww] Hd Ha] Hq Hcur Hw Hr. unfold wait_for_completion_again. rewrite Hcur. cbn [mbind res_bind].
  destruct (Z.eqb_spec (done c) 0) as [E0|NE].
  - destruct (block_waiters cpu s t th (wait c) Hsok Hq (proj1 Hw) Hr Hww) as (s1 & Hb & Hok1 & Hw1).
    rewrite Hb. cbn [mbind res_bind]. exists s1. split; [done|]. by constructor.
  - split; [done|]. constructor; cbn [done wait]; [done| |lia|].
    + split; [by apply remove_nodup|]. intros x [_ Hx]%elem_of_remove. by apply Hww.
    + intros _ x [_ Hx]%elem_of_remove. by apply Ha.
Qed.

(** Both ways to post the completion wake all threads on the wait queue. *)
Lemma post_spec E cpu s c : comp_ok s c -> quiet s cpu ->
  exists s', __wake_up E cpu (wait c) s = Ok s' /\ (forall t, t ∈ wait c -> awake s' t) /\
    guk_complete E cpu c s = Ok (Comp 1 (wait c), s') /\ guk_complete_all E cpu c s = Ok (Comp (UINT_MAX / 2) (wait c), s').
Proof.
  intros Hc Hq. destruct (wake_up_spec E cpu (wait c) s (co_sched _ _ Hc) Hq (co_wait _ _ Hc)) as (s' & Hr & _ & Haw & _).
  exists s'. unfold guk_complete, guk_complete_all. by rewrite Hr.
Qed.

Definition sys_ok (x : sched * completion * gset Z) : Prop := comp_ok x.1.1 x.1.2 /\ waiting x.2 x.1.2.

Lemma cstep_ok x y : cstep x y -> sys_ok x -> sys_ok y.
Proof.
  intros Hs [Hok HW]. destruct Hs as [cpu s c W t th b c' s' Hq Hcur Htw Hw Hr H|cpu s c W t th b c' s' Hq Hcur Htw Hw Hr H
    |E cpu s c W c' s' Hq H|E cpu s c W c' s' Hq H|s s' c W Hok' Hrel]; cbn [fst snd] in *; unfold sys_ok, waiting in *; cbn [fst snd] in *.
  - rewrite HW in Htw. pose proof (begin_spec cpu s c t th Hok Hq Hcur Htw Hw Hr) as Hb. destruct (done c =? 0).
    + destruct Hb as (s1 & E1 & Hb & _). rewrite E1 in H. injection H as <- <- <-. split; [done|]. cbn [wait]. set_solver.
    + destruct Hb as [E1 Hb]. rewrite E1 in H. by injection H as <- <- <-.
  - pose proof (again_spec cpu s c t th Hok Hq Hcur Hw Hr) as Hb. destruct (done c =? 0).
    + destruct Hb as (s1 & E1 & Hb). rewrite E1 in H. by injection H as <- <- <-.
    + destruct Hb as [E1 Hb]. rewrite E1 in H. injection H as <- <- <-. split; [done|]. cbn [wait]. intros x. rewrite elem_of_remove. set_solver.
  - destruct (post_spec E cpu s c Hok Hq) as (s1 & Hr & _ & E1 & _). rewrite E1 in H. injection H as <- <-.
    split; [|done]. eapply complete_with_ok; [exact Hok|exact Hq|lia|exact Hr].
  - destruct (post_spec E cpu s c Hok Hq) as (s1 & Hr & _ & _ & E1). rewrite E1 in H. injection H as <- <-.
    split; [|done]. eapply complete_with_ok; [exact Hok|exact Hq|by vm_compute|exact Hr].
  - destruct Hok as [Hsok [Hnd Hww] Hd Ha]. split; [|done].
    constructor; [done|split; [done|]|done|]; [intros t Ht|intros Hne t Ht]; apply HW in Ht as HtW; by apply Hrel; auto.
Qed.

(** ** Properties *)

(** Posting a completion stops on none of the assertions of the scheduler,
    makes every waiting thread runnable (or leaves it to the debugger that holds
    it), appends those that were off the ready queue to it in the order of the wait
    queue, and leaves the completion so that the first waiter to run passes, and the
    second blocks again. *)
Lemma complete_wakes_waiters E cpu s c :
  comp_ok s c -> quiet s cpu ->
  exists s', guk_complete E cpu c s = Ok (Comp 1 (wait c), s') /\ comp_ok s' (Comp 1 (wait c)) /\ wakes s s' /\
    (forall t, t ∈ wait c -> awake s' t) /\
    ready_queue s' = ready_queue s ++ filter (fun t => gets_ready s t = true) (wait c) /\
    forall cpu1 t1, current s' cpu1 = Ok t1 ->
      wait_for_completion_again cpu1 (Comp 1 (wait c)) s' = Ok (false, Comp 0 (remove_wait_queue (wait c) t1), s') /\
      forall cpu2 t2 l, current s' cpu2 = Ok t2 ->
        wait_for_completion_again cpu2 (Comp 0 l) s' = (s2 ← guk_block cpu2 t2 s'; Ok (true, Comp 0 l, s2)).
Proof.
  intros Hc Hq. destruct (wake_up_spec E cpu (wait c) s (co_sched _ _ Hc) Hq (co_wait _ _ Hc)) as (s' & Hr & Hwk & Haw & Hrq).
  unfold guk_complete. rewrite Hr. cbn [mbind res_bind]. exists s'. splits; [done| |done|done|done|].
  - eapply complete_with_ok; [exact Hc|exact Hq|lia|exact Hr].
  - intros cpu1 t1 H1. split; [unfold wait_for_completion_again; by rewrite H1|]. intros cpu2 t2 l H2.
    unfold wait_for_completion_again. by rewrite H2.
Qed.

(** C23: No wake-up is lost: however waiting, posting and the rest of the system
    interleave, the threads inside [guk_wait_for_completion] are at any time those on
    the wait queue of the completion, once each, and none of them is asleep while the
    completion is posted; [guk_complete] and [guk_complete_all] return and make every
    one of them runnable; and a thread that calls [guk_wait_for_completion] goes to
    sleep on the queue when the completion is not posted and passes when it is.  The
    counter stays within the positive [int]s. *)
Theorem completion_no_lost_wakeup s c W s' c' W' :
  comp_ok s c -> waiting W c -> rtc cstep (s, c, W) (s', c', W') ->
  comp_ok s' c' /\ waiting W' c' /\ (done c' <> 0 -> forall t, t ∈ W' -> awake s' t) /\
  (forall E cpu, quiet s' cpu -> exists s1, guk_complete E cpu c' s' = Ok (Comp 1 (wait c'), s1) /\
    guk_complete_all E cpu c' s' = Ok (Comp (UINT_MAX / 2) (wait c'), s1) /\ forall t, t ∈ W' -> awake s1 t) /\
  (forall cpu t th, quiet s' cpu -> current s' cpu = Ok t -> t ∉ W' -> wakeable s' t th -> is_runnable th = true ->
    if done c' =? 0 then
      exists s1, wait_for_completion_begin cpu c' s' = Ok (true, Comp 0 (wait c' ++ [t]), s1) /\
        threads s1 = <[t := clear_flag RUNNABLE_FLAG th]> (threads s')
    else wait_for_completion_begin cpu c' s' = Ok (false, Comp (done c' - 1) (wait c'), s')).
Proof.
  intros Hok HW Hr. assert (sys_ok (s', c', W')) as [Hok' HW'].
  { assert (sys_ok (s, c, W)) as Hx by done. clear -Hr Hx. induction Hr as [|x y z Hs _ IH]; [done|]. by eapply IH, cstep_ok. }
  cbn [fst snd] in *. splits; [done|done| | |].
  - intros Hne t Ht. by apply (co_awake _ _ Hok'), HW'.
  - intros E cpu Hq. destruct (post_spec E cpu s' c' Hok' Hq) as (s1 & _ & Ha & E1 & E2).
    exists s1. splits; [done|done|]. intros t Ht. by apply Ha, HW'.
  - intros cpu t th Hq Hcur Ht Hw Hrun. rewrite (HW' t) in Ht. pose proof (begin_spec cpu s' c' t th Hok' Hq Hcur Ht Hw Hrun) as Hb.
    destruct (done c' =? 0); [|apply Hb]. destruct Hb as (s1 & E1 & _ & E2). by exists s1.
Qed.

(** ** Witnesses *)

Lemma demo_comp_ok l : NoDup l -> (forall t, t ∈ l -> t = 11 \/ t = 12) -> comp_ok (demo []) (Comp 0 l).
Proof.
  intros Hnd Hl. constructor; cbn [done wait]; [apply demo_ok| |lia|done]. split; [done|]. intros t Ht.
  assert (exists th, threads (demo []) !! t = Some th) as [th Hth] by (destruct (Hl t Ht) as [-> | ->]; eexists; demo_in).
  exists th. apply demo_wakeable; [done|auto].
Qed.

Lemma complete_wakes_waiters_witness :
  exists s', guk_complete demo_env 0 (Comp 0 [12; 11]) (demo []) = Ok (Comp 1 [12; 11], s') /\
    ready_queue s' = [10; 11; 14; 12] /\ awake s' 12.
Proof.
  destruct (complete_wakes_waiters demo_env 0 (demo []) (Comp 0 [12; 11])) as (s' & Hr & _ & _ & Ha & Hrq & _).
  - apply demo_comp_ok; [by apply (bool_decide_unpack _)|]. intros t. rewrite !elem_of_cons, elem_of_nil. tauto.
  - apply demo_quiet.
  - exists s'. splits; [exact Hr|rewrite Hrq; by vm_compute|]. apply Ha. by left.
Defined.

(** The running thread 10 waits behind thread 12, and then the completion is posted. *)
Definition demo_asleep : sched := get (s ← guk_block 0 10 (demo []); Ok s) (demo []).

Lemma demo_10 : wakeable (demo []) 10 (demo_thread (Z.lor RUNNABLE_FLAG RUNNING_FLAG) 2 0 0 true [13]).
Proof.
  unfold wakeable. splits; [demo_in|done| |].
  - intros c cp Hc. destruct (demo_cpu _ _ _ Hc) as [[-> ->]|[-> ->]]; simpl; lia.
  - intros j jth Hj Hin. destruct (demo_joined _ _ _ _ Hj Hin). lia.
Qed.

Lemma completion_no_lost_wakeup_witness :
  exists s2, wait_for_completion_begin 0 (Comp 0 [12]) (demo []) = Ok (true, Comp 0 [12; 10], demo_asleep) /\
    guk_complete demo_env 0 (Comp 0 [12; 10]) demo_asleep = Ok (Comp 1 [12; 10], s2) /\ awake s2 12 /\ awake s2 10.
Proof.
  assert (comp_ok (demo []) (Comp 0 [12])) as Hok.
  { apply demo_comp_ok; [apply NoDup_singleton|]. intros t ->%list_elem_of_singleton. by right. }
  assert (wait_for_completion_begin 0 (Comp 0 [12]) (demo []) = Ok (true, Comp 0 [12; 10], demo_asleep)) as E by reflexivity.
  assert (rtc cstep (demo [], Comp 0 [12], {[12]}) (demo_asleep, Comp 0 [12; 10], {[10]} ∪ {[12]})) as Hr.
  { apply rtc_once. apply (CWait 0 (demo []) (Comp 0 [12]) {[12]} 10 (demo_thread (Z.lor RUNNABLE_FLAG RUNNING_FLAG) 2 0 0 true [13]) true (Comp 0 [12; 10]) demo_asleep);
      [apply demo_quiet|reflexivity|set_solver|exact demo_10|reflexivity|exact E]. }
  destruct (completion_no_lost_wakeup _ _ {[12]} _ _ _ Hok ltac:(unfold waiting; set_solver) Hr) as (_ & _ & _ & Hpost & _).
  destruct (Hpost demo_env 0) as (s2 & E2 & _ & Ha); [eexists (CPU 1 10 true), _; split; [done|]; split; [by vm_compute|]; by vm_compute|].
  exists s2. splits; [exact E|exact E2|apply Ha; set_solver|apply Ha; set_solver].
Defined.
