(* ===== verification/Spinlock.v ===== *)
(** Spin locks: spinlock.c, include/guk/spinlock.h, include/x86/arch_spinlock.h.

    Any number of threads, each current on its CPU, take and release one lock.
    The code is a program counter per thread and a step per access to the shared
    lock; a step also makes the accesses to the thread's own state that go with it.
    Every interleaving of these steps is a run.  The check for rescheduling in
    [preempt_enable] and the delivery of pending events when interrupts are enabled
    again are left out. *)
From S2P Require Import Prelude.
From stdpp Require Import options.

Definition SPIN_LOCK_MAX : Z := 100000000.

(** [spinlock_t], with [CONFIG_PREEMPT] and [CONFIG_SMP]. *)
Record spinlock := Lock {
  slock : Z;                (** the byte of the lock, a [signed char] *)
  break_lock : Z;
  spin_count : Z;           (** [unsigned long] *)
  owner : Z                 (** the thread, 0 for none *)
}.

Definition SPIN_LOCK_UNLOCKED : spinlock := Lock 1 0 0 0.

Definition arch_spin_is_locked (l : spinlock) : bool := slock l <=? 0.
Definition arch_spin_can_lock (l : spinlock) : bool := negb (arch_spin_is_locked l).

(** The exchanges of [_raw_spin_trylock] and [_raw_spin_unlock]. *)
Definition _raw_spin_trylock (l : spinlock) : bool * spinlock :=
  (0 <? slock l, Lock 0 (break_lock l) (spin_count l) (owner l)).
Definition _raw_spin_unlock (l : spinlock) : spinlock := Lock 1 (break_lock l) (spin_count l) (owner l).

(** Where a thread is: outside; before [preempt_disable] in the loop; after a
    failed [trylock]; at the assignment of [break_lock]; at the two tests and in
    the body of the inner loop; at the three assignments after the loop; inside the
    critical section; before the exchange of the unlock, and after it. *)
Inductive spin_pc :=
| P_outside | P_try | P_failed | P_set_break | P_can_lock | P_break_lock | P_body
| P_clear_break | P_clear_count | P_set_owner | P_holding | P_unlock | P_unlocked.

Global Instance spin_pc_eq_dec : EqDecision spin_pc.
Proof. solve_decision. Defined.

Record spin_thread := SpinThread {
  pc : spin_pc;
  irqsave : bool;           (** which of the two variants it calls *)
  t_preempt : Z;            (** [preempt_count], an [int] *)
  t_locks : Z;              (** [lock_count], an [int] *)
  irq_mask : Z;             (** [evtchn_upcall_mask] of its CPU *)
  irq_flags : Z             (** the local variable [flags] *)
}.

Definition set_pc (p : spin_pc) (t : spin_thread) : spin_thread :=
  SpinThread p (irqsave t) (t_preempt t) (t_locks t) (irq_mask t) (irq_flags t).

(** [preempt_disable] and [preempt_enable], with the bug check on the count. *)
Definition add_preempt (v : Z) (t : spin_thread) : res spin_thread :=
  let n := sgn32 (t_preempt t + v) in
  _ ← bug_on (n <? 0);
  Ok (SpinThread (pc t) (irqsave t) n (t_locks t) (irq_mask t) (irq_flags t)).

(** [local_irq_save(flags)] and [local_irq_restore(flags)] in the variant that has
    them. *)
Definition irq_save (t : spin_thread) : spin_thread :=
  if irqsave t then SpinThread (pc t) true (t_preempt t) (t_locks t) 1 (irq_mask t) else t.
Definition irq_restore (t : spin_thread) : spin_thread :=
  if irqsave t then SpinThread (pc t) true (t_preempt t) (t_locks t) (irq_flags t) (irq_flags t) else t.

Definition add_locks (v : Z) (t : spin_thread) : spin_thread :=
  SpinThread (pc t) (irqsave t) (t_preempt t) (sgn32 (t_locks t + v)) (irq_mask t) (irq_flags t).

(** The next step of thread [me] in state [t].  [P_outside] and [P_holding] have
    none: the caller goes on there. *)
Definition spin_step (me : Z) (l : spinlock) (t : spin_thread) : res (spinlock * spin_thread) :=
  match pc t with
  | P_outside | P_holding => Ok (l, t)
  | P_try =>
      t ← add_preempt 1 t;
      let t := irq_save t in
      let '(got, l) := _raw_spin_trylock l in
      Ok (l, set_pc (if got then P_clear_break else P_failed) t)
  | P_failed =>
      t ← add_preempt (-1) (irq_restore t);
      Ok (l, set_pc (if break_lock l =? 0 then P_set_break else P_can_lock) t)
  | P_set_break => Ok (Lock (slock l) 1 (spin_count l) (owner l), set_pc P_can_lock t)
  | P_can_lock => Ok (l, set_pc (if arch_spin_can_lock l then P_try else P_break_lock) t)
  | P_break_lock => Ok (l, set_pc (if break_lock l =? 0 then P_try else P_body) t)
  | P_body =>
      let n := wrap64 (spin_count l + 1) in
      if SPIN_LOCK_MAX <? n then Bug CRASH_EXIT
      else Ok (Lock (slock l) (break_lock l) n (owner l), set_pc P_can_lock t)
  | P_clear_break => Ok (Lock (slock l) 0 (spin_count l) (owner l), set_pc P_clear_count t)
  | P_clear_count => Ok (Lock (slock l) (break_lock l) 0 (owner l), set_pc P_set_owner t)
  | P_set_owner =>
      let l := if irqsave t then Lock (slock l) (break_lock l) (spin_count l) me else l in
      Ok (l, set_pc P_holding (add_locks 1 t))
  | P_unlock => Ok (_raw_spin_unlock l, set_pc P_unlocked (add_locks (-1) t))
  | P_unlocked =>
      let t := irq_restore t in
      _ ← bug_on (t_locks t <? 0);
      t ← add_preempt (-1) t;
      Ok (l, set_pc P_outside t)
  end.

(** Calls: a thread outside calls one of the lock functions, a thread inside the
    critical section the unlock function that belongs to it. *)
Definition call_lock (irq : bool) (t : spin_thread) : spin_thread :=
  SpinThread P_try irq (t_preempt t) (t_locks t) (irq_mask t) (irq_flags t).

(** ** Runs *)

Record spin_sys := SpinSys { the_lock : spinlock; spinners : gmap Z spin_thread }.

Inductive spin_run : spin_sys -> spin_sys -> Prop :=
| run_call y t th irq :
    spinners y !! t = Some th -> pc th = P_outside ->
    spin_run y (SpinSys (the_lock y) (<[t := call_lock irq th]> (spinners y)))
| run_unlock y t th :
    spinners y !! t = Some th -> pc th = P_holding ->
    spin_run y (SpinSys (the_lock y) (<[t := set_pc P_unlock th]> (spinners y)))
| run_step y t th l' th' :
    spinners y !! t = Some th -> spin_step t (the_lock y) th = Ok (l', th') ->
    spin_run y (SpinSys l' (<[t := th']> (spinners y))).

Inductive spin_reach : spin_sys -> spin_sys -> Prop :=
| spin_refl y : spin_reach y y
| spin_more x y z : spin_reach x y -> spin_run y z -> spin_reach x z.

(** The lock is free and every thread is outside, preemptible or not, with no
    negative counts. *)
Definition spin_init (y : spin_sys) : Prop :=
  slock (the_lock y) = 1 /\
  forall t th, spinners y !! t = Some th -> pc th = P_outside /\ 0 <= t_preempt th < 2 ^ 31 - 1 /\ 0 <= t_locks th < 2 ^ 31 - 1.

(** ** The invariant *)

(** The thread has the lock. *)
Definition has_lock (t : spin_thread) : bool :=
  match pc t with
  | P_clear_break | P_clear_count | P_set_owner | P_holding | P_unlock => true
  | _ => false
  end.

(** Between its [preempt_disable] and its [preempt_enable]. *)
Definition guarded (t : spin_thread) : bool :=
  has_lock t || match pc t with P_failed | P_unlocked => true | _ => false end.

(** Counted in [lock_count]. *)
Definition counted (t : spin_thread) : bool := match pc t with P_holding | P_unlock => true | _ => false end.

Record thread_ok (t : spin_thread) : Prop := ThreadOk {
  to_preempt : (if guarded t then 1 else 0) <= t_preempt t < 2 ^ 31 - (if guarded t then 0 else 1);
  to_locks : (if counted t then 1 else 0) <= t_locks t < 2 ^ 31 - (if counted t then 0 else 1);
  to_irq : guarded t = true -> irqsave t = true -> irq_mask t = 1
}.

Record spin_ok (y : spin_sys) : Prop := SpinOk {
  so_thread : forall t th, spinners y !! t = Some th -> thread_ok th;
  so_one : forall t1 t2 th1 th2, spinners y !! t1 = Some th1 -> spinners y !! t2 = Some th2 ->
    has_lock th1 = true -> has_lock th2 = true -> t1 = t2;
  so_free : slock (the_lock y) = 1 -> forall t th, spinners y !! t = Some th -> has_lock th = false;
  so_byte : slock (the_lock y) = 1 \/ (slock (the_lock y) = 0 /\ exists t th, spinners y !! t = Some th /\ has_lock th = true)
}.

(** A step that neither takes nor releases the lock. *)
Lemma spin_ok_keep y t th l' th' :
  spin_ok y -> spinners y !! t = Some th -> thread_ok th' -> has_lock th' = has_lock th -> slock l' = slock (the_lock y) ->
  spin_ok (SpinSys l' (<[t := th']> (spinners y))).
Proof.
  intros [H1 H2 H3 H4] Ht Hth Hl Hs.
  assert (forall x xth, <[t := th']> (spinners y) !! x = Some xth -> exists xth0, spinners y !! x = Some xth0 /\ has_lock xth = has_lock xth0) as Hb.
  { intros x xth Hx. look Hx; eauto. }
  constructor; cbn [the_lock spinners]; rewrite ?Hs.
  - intros x xth Hx. look Hx; [done|eauto].
  - intros t1 t2 th1 th2 Ht1 Ht2. destruct (Hb _ _ Ht1) as (? & ? & ->), (Hb _ _ Ht2) as (? & ? & ->). by eapply H2.
  - intros Hf x xth Hx. destruct (Hb _ _ Hx) as (? & ? & ->). by eapply H3.
  - destruct H4 as [|(H0 & x & xth & Hx & Hxl)]; [by left|]. right. split; [done|].
    destruct (decide (x = t)) as [->|]; [|exists x, xth; by rewrite lookup_insert_ne].
    exists t, th'. rewrite lookup_insert_eq. split; [done|]. congruence.
Qed.

(** The exchange that finds the lock free takes it. *)
Lemma spin_ok_take y t th l' th' :
  spin_ok y -> spinners y !! t = Some th -> thread_ok th' -> slock (the_lock y) = 1 -> has_lock th' = true -> slock l' = 0 ->
  spin_ok (SpinSys l' (<[t := th']> (spinners y))).
Proof.
  intros [H1 H2 H3 H4] Ht Hth Hf Hl Hs. constructor; cbn [the_lock spinners]; rewrite ?Hs.
  - intros x xth Hx. look Hx; [done|eauto].
  - intros t1 t2 th1 th2 Ht1 Ht2 Hl1 Hl2. look Ht1; look Ht2; try done; [|..]; exfalso;
      [rewrite (H3 Hf _ _ Ht2) in Hl2|rewrite (H3 Hf _ _ Ht1) in Hl1|rewrite (H3 Hf _ _ Ht1) in Hl1]; done.
  - done.
  - right. split; [done|]. exists t, th'. by rewrite lookup_insert_eq.
Qed.

(** The exchange of the unlock releases it. *)
Lemma spin_ok_release y t th l' th' :
  spin_ok y -> spinners y !! t = Some th -> thread_ok th' -> has_lock th = true -> has_lock th' = false -> slock l' = 1 ->
  spin_ok (SpinSys l' (<[t := th']> (spinners y))).
Proof.
  intros [H1 H2 H3 H4] Ht Hth Hl Hl' Hs.
  assert (forall x xth, <[t := th']> (spinners y) !! x = Some xth -> has_lock xth = false) as Hno.
  { intros x xth Hx. look Hx; [done|]. destruct (has_lock xth) eqn:E; [|done]. exfalso. apply Hn. by eapply H2. }
  constructor; cbn [the_lock spinners].
  - intros x xth Hx. look Hx; [done|eauto].
  - intros t1 t2 th1 th2 Ht1 Ht2 Hl1. by rewrite (Hno _ _ Ht1) in Hl1.
  - intros _. exact Hno.
  - by left.
Qed.

Lemma add_preempt_on t : thread_ok t -> guarded t = false ->
  add_preempt 1 t = Ok (SpinThread (pc t) (irqsave t) (t_preempt t + 1) (t_locks t) (irq_mask t) (irq_flags t)).
Proof.
  intros [Hp _ _] Hg. rewrite Hg in Hp. unfold add_preempt. rewrite sgn_small by lia.
  by rewrite (proj2 (Z.ltb_ge _ _)) by lia.
Qed.

Lemma add_preempt_off t : 1 <= t_preempt t < 2 ^ 31 ->
  add_preempt (-1) t = Ok (SpinThread (pc t) (irqsave t) (t_preempt t - 1) (t_locks t) (irq_mask t) (irq_flags t)).
Proof.
  intros Hp. unfold add_preempt. replace (t_preempt t + -1) with (t_preempt t - 1) by lia. rewrite sgn_small by lia.
  by rewrite (proj2 (Z.ltb_ge _ _)) by lia.
Qed.

(** The counts after a step. *)
Ltac thread_ok_tac :=
  constructor; unfold guarded, counted, has_lock in *; cbn in *; try lia; try done.

Lemma spin_step_ok y t th l' th' :
  spin_ok y -> spinners y !! t = Some th -> spin_step t (the_lock y) th = Ok (l', th') ->
  spin_ok (SpinSys l' (<[t := th']> (spinners y))).
Proof.
  intros Hok Ht Hs. pose proof (so_thread _ Hok _ _ Ht) as Hth. pose proof Hth as [Hp Hl Hi].
  assert (forall l2 th2, spin_step t (the_lock y) th = Ok (l2, th2) -> thread_ok th2 -> has_lock th2 = has_lock th ->
    slock l2 = slock (the_lock y) -> spin_ok (SpinSys l' (<[t := th']> (spinners y)))) as Hkeep.
  { intros l2 th2 E ? ? ?. rewrite Hs in E. injection E as -> ->. by eapply spin_ok_keep. }
  destruct th as [p irq n k m f]. destruct p; unfold guarded, counted, has_lock in Hp, Hl, Hi; cbn [pc orb t_preempt t_locks irqsave irq_mask] in Hp, Hl, Hi.
  - eapply Hkeep; [reflexivity|exact Hth|done|done].
  - cbn in Hs. rewrite add_preempt_on in Hs by done. cbn in Hs.
    assert (forall q, guarded (SpinThread q irq 0 0 0 0) = true -> counted (SpinThread q irq 0 0 0 0) = false ->
      thread_ok (set_pc q (irq_save (SpinThread P_try irq (n + 1) k m f)))) as Hnew.
    { intros q Hq Hc. unfold irq_save, set_pc. cbn [irqsave]. destruct irq; constructor; unfold guarded, counted, has_lock in *; cbn in *; rewrite ?Hq, ?Hc; done || lia. }
    destruct (Z.ltb_spec 0 (slock (the_lock y))); injection Hs as <- <-.
    + destruct (so_byte _ Hok) as [Hf|[H0 _]]; [|lia]. eapply spin_ok_take; [done|done|by apply Hnew|done|by destruct irq|done].
    + destruct (so_byte _ Hok) as [Hf|[H0 _]]; [lia|]. eapply spin_ok_keep; [done|done|by apply Hnew|by destruct irq|by rewrite H0].
  - cbn in Hs, Hkeep. destruct irq; rewrite add_preempt_off in Hs, Hkeep by (cbn; lia); (eapply Hkeep; [reflexivity|destruct (break_lock (the_lock y) =? 0); thread_ok_tac|by destruct (break_lock (the_lock y) =? 0)|done]).
  - eapply Hkeep; [reflexivity|thread_ok_tac|done|done].
  - eapply Hkeep; [reflexivity|cbn; destruct (arch_spin_can_lock _); thread_ok_tac|cbn; by destruct (arch_spin_can_lock _)|done].
  - eapply Hkeep; [reflexivity|cbn; destruct (_ =? 0); thread_ok_tac|cbn; by destruct (_ =? 0)|done].
  - cbn in Hs, Hkeep. destruct (SPIN_LOCK_MAX <? _); [done|]. eapply Hkeep; [reflexivity|thread_ok_tac|done|done].
  - eapply Hkeep; [reflexivity|thread_ok_tac|done|done].
  - eapply Hkeep; [reflexivity|thread_ok_tac|done|done].
  - eapply Hkeep; [reflexivity| |done|by destruct irq].
    unfold add_locks, set_pc. cbn [t_locks]. rewrite sgn_small by lia. thread_ok_tac.
  - eapply Hkeep; [reflexivity|exact Hth|done|done].
  - cbn in Hs. injection Hs as <- <-. eapply spin_ok_release; [done|done| |done|done|done].
    unfold add_locks, set_pc. cbn [t_locks pc]. replace (k + -1) with (k - 1) by lia. rewrite sgn_small by lia. thread_ok_tac.
  - cbn in Hs, Hkeep. destruct irq; cbn in Hs, Hkeep; rewrite (proj2 (Z.ltb_ge k 0)) in Hs, Hkeep by lia; cbn in Hs, Hkeep;
      rewrite add_preempt_off in Hs, Hkeep by (cbn; lia); cbn in Hs, Hkeep; (eapply Hkeep; [reflexivity|thread_ok_tac|done|done]).
Qed.

Lemma spin_run_ok y z : spin_run y z -> spin_ok y -> spin_ok z.
Proof.
  intros Hr Hok. destruct Hr as [y t th irq Ht Hpc|y t th Ht Hpc|y t th l' th' Ht Hs]; [| |by eapply spin_step_ok].
  - destruct (so_thread _ Hok _ _ Ht) as [Hp Hl Hi]. destruct th as [p i n k m f]. cbn in Hpc. subst p.
    eapply spin_ok_keep; [done|exact Ht|thread_ok_tac|done|done].
  - destruct (so_thread _ Hok _ _ Ht) as [Hp Hl Hi]. destruct th as [p i n k m f]. cbn in Hpc. subst p.
    eapply spin_ok_keep; [done|exact Ht|thread_ok_tac; auto|done|done].
Qed.

Lemma spin_init_ok y : spin_init y -> spin_ok y.
Proof.
  intros [Hs Ht]. assert (forall t th, spinners y !! t = Some th -> has_lock th = false) as Hno.
  { intros t th H. destruct (Ht t th H) as (Hpc & _). unfold has_lock. by rewrite Hpc. }
  constructor; [| |done|by left].
  - intros t th H. destruct (Ht t th H) as (Hpc & Hp & Hl). constructor; unfold guarded, counted, has_lock; rewrite Hpc; done || lia.
  - intros t1 t2 th1 th2 H1 _ Hl. by rewrite (Hno _ _ H1) in Hl.
Qed.

Lemma spin_reach_ok y0 y : spin_init y0 -> spin_reach y0 y -> spin_ok y.
Proof.
  intros Hi Hr. assert (spin_ok y0 -> spin_ok y) as H; [|by apply H, spin_init_ok].
  clear Hi. induction Hr as [|x y z _ IH Hs]; [done|]. intros H. by apply (spin_run_ok y z Hs), IH.
Qed.

(** ** A thread that runs alone *)

Fixpoint spin_solo (n : nat) (me : Z) (l : spinlock) (t : spin_thread) : res (spinlock * spin_thread) :=
  match n with
  | O => Ok (l, t)
  | S n => '(l, t) ← spin_step me l t; spin_solo n me l t
  end.

(** Inside one of the lock functions, without the lock. *)
Definition trying (t : spin_thread) : bool :=
  match pc t with P_try | P_failed | P_set_break | P_can_lock | P_break_lock | P_body => true | _ => false end.

Lemma solo_step n me l t l' t' : spin_step me l t = Ok (l', t') -> spin_solo (S n) me l t = spin_solo n me l' t'.
Proof. intros H. cbn [spin_solo]. by rewrite H. Qed.

Lemma solo_holding n me l t : pc t = P_holding -> spin_solo n me l t = Ok (l, t).
Proof.
  intros H. induction n as [|n IH]; [done|]. rewrite (solo_step n me l t l t); [done|]. unfold spin_step. by rewrite H.
Qed.

(** One turn of the inner loop. *)
Lemma spin_body_step me b br sc o irq n k m f : 0 <= sc < SPIN_LOCK_MAX ->
  spin_step me (Lock b br sc o) (SpinThread P_body irq n k m f) = Ok (Lock b br (sc + 1) o, SpinThread P_can_lock irq n k m f).
Proof.
  intros Hsc. unfold spin_step. cbn [pc spin_count]. unfold SPIN_LOCK_MAX in *. rewrite wrap_small by lia.
  by rewrite (proj2 (Z.ltb_ge _ _)) by lia.
Qed.

(** From the exchange on: four steps with the lock free. *)
Lemma solo_try j me br sc o irq n k m f :
  0 <= n < 2 ^ 31 - 1 -> 0 <= k < 2 ^ 31 - 1 ->
  exists o' th', spin_solo (4 + j) me (Lock 1 br sc o) (SpinThread P_try irq n k m f) = Ok (Lock 0 0 0 o', th') /\
    pc th' = P_holding /\ t_locks th' = k + 1 /\ (irq = true -> o' = me).
Proof.
  intros Hn Hk. cbn [Nat.add].
  assert (spin_step me (Lock 1 br sc o) (SpinThread P_try irq n k m f) =
    Ok (Lock 0 br sc o, set_pc P_clear_break (irq_save (SpinThread P_try irq (n + 1) k m f)))) as Hs.
  { unfold spin_step. cbn [pc]. by rewrite add_preempt_on by thread_ok_tac. }
  rewrite (solo_step _ _ _ _ _ _ Hs). destruct irq.
  all: erewrite solo_step by reflexivity; erewrite solo_step by reflexivity; erewrite solo_step by reflexivity.
  all: rewrite solo_holding by done; eexists _, _; (split; [reflexivity|]); cbn; rewrite sgn_small by lia; done.
Qed.

(** ** Properties *)

(** C21: In every interleaving of any number of threads that take and release the
    lock, at most one thread is between its successful exchange and the exchange of
    its unlock; the byte of the lock is 1 exactly when there is none; the thread
    that has the lock is not preemptible, and has interrupts disabled if it uses the
    variant that saves them; and no thread fails an assertion on its counts. *)
Theorem spinlock_mutex y0 y :
  spin_init y0 -> spin_reach y0 y ->
  (forall t1 t2 th1 th2, spinners y !! t1 = Some th1 -> spinners y !! t2 = Some th2 ->
     has_lock th1 = true -> has_lock th2 = true -> t1 = t2) /\
  (slock (the_lock y) = 1 <-> forall t th, spinners y !! t = Some th -> has_lock th = false) /\
  (forall t th, spinners y !! t = Some th -> has_lock th = true -> 0 < t_preempt th /\ (irqsave th = true -> irq_mask th = 1)) /\
  (forall t th, spinners y !! t = Some th -> spin_step t (the_lock y) th <> Bug BUG_ON).
Proof.
  intros Hi Hr. pose proof (spin_reach_ok _ _ Hi Hr) as Hok. splits; [by apply Hok| | |].
  - split; [by apply Hok|]. intros Hno. destruct (so_byte _ Hok) as [|(_ & t & th & Ht & Hl)]; [done|]. by rewrite (Hno t th Ht) in Hl.
  - intros t th Ht Hl. destruct (so_thread _ Hok t th Ht) as [Hp _ Hirq]. unfold guarded in Hp, Hirq. rewrite Hl in Hp, Hirq. cbn [orb] in Hp, Hirq. split; [lia|by apply Hirq].
  - intros t th Ht. destruct (so_thread _ Hok t th Ht) as [Hp Hl _]. destruct th as [p irq n k m f].
    destruct p; unfold guarded, counted, has_lock in *; cbn in *; try done.
    + by rewrite add_preempt_on by thread_ok_tac.
    + destruct irq; by rewrite add_preempt_off by (cbn; lia).
    + by destruct (SPIN_LOCK_MAX <? _).
    + destruct irq; cbn; rewrite (proj2 (Z.ltb_ge k 0)) by lia; cbn; by rewrite add_preempt_off by (cbn; lia).
Qed.

(** C22: When the lock is free, a thread anywhere in the loop of a lock function
    that runs undisturbed has the lock after at most eight of its steps, whatever
    state the spinning of the others left; the break and spin counters are reset. *)
Theorem spinlock_acquires y0 y t th :
  spin_init y0 -> spin_reach y0 y -> spinners y !! t = Some th -> trying th = true ->
  slock (the_lock y) = 1 -> 0 <= spin_count (the_lock y) < SPIN_LOCK_MAX ->
  exists o th', spin_solo 8 t (the_lock y) th = Ok (Lock 0 0 0 o, th') /\ pc th' = P_holding /\
    t_locks th' = t_locks th + 1 /\ (irqsave th = true -> o = t).
Proof.
  intros Hi Hr Ht Htry Hf Hc. pose proof (spin_reach_ok _ _ Hi Hr) as Hok. destruct (so_thread _ Hok t th Ht) as [Hp Hl _].
  destruct (the_lock y) as [b br sc o]. cbn in Hf, Hc. subst b. destruct th as [p irq n k m f].
  assert (0 <= k < 2 ^ 31 - 1) as Hk by (destruct p; unfold counted in Hl; cbn in Hl, Htry; done || lia).
  destruct p; try done; unfold guarded, has_lock in Hp; cbn [pc orb t_preempt irqsave t_locks] in *.
  - apply (solo_try 4 t); cbn; lia.
  - assert (spin_step t (Lock 1 br sc o) (SpinThread P_failed irq n k m f) = Ok (Lock 1 br sc o,
      set_pc (if br =? 0 then P_set_break else P_can_lock) (let r := irq_restore (SpinThread P_failed irq n k m f) in
        SpinThread P_failed irq (n - 1) k (irq_mask r) (irq_flags r)))) as Hs.
    { unfold spin_step. cbn [pc]. destruct irq; by rewrite add_preempt_off by (cbn; lia). }
    rewrite (solo_step _ _ _ _ _ _ Hs). destruct (br =? 0).
    + do 2 erewrite solo_step by reflexivity. apply (solo_try 1 t); cbn; lia.
    + erewrite solo_step by reflexivity. apply (solo_try 2 t); cbn; lia.
  - do 2 erewrite solo_step by reflexivity. apply (solo_try 2 t); cbn; lia.
  - erewrite solo_step by reflexivity. apply (solo_try 3 t); cbn; lia.
  - erewrite solo_step by reflexivity. cbn [break_lock set_pc pc]. destruct (br =? 0); [apply (solo_try 3 t); cbn; lia|].
    unfold set_pc. rewrite (solo_step _ _ _ _ _ _ (spin_body_step t 1 br sc o irq n k m f Hc)). erewrite solo_step by reflexivity. apply (solo_try 1 t); cbn; lia.
  - rewrite (solo_step _ _ _ _ _ _ (spin_body_step t 1 br sc o irq n k m f Hc)). erewrite solo_step by reflexivity. apply (solo_try 2 t); cbn; lia.
Qed.

(** ** Witnesses *)

(** Two threads, the second with interrupts saved; thread 1 takes the lock first,
    thread 2 finds it taken and spins. *)
Definition demo_spin : spin_sys :=
  SpinSys SPIN_LOCK_UNLOCKED (<[1 := SpinThread P_outside false 0 0 0 0]> {[2 := SpinThread P_outside true 0 0 0 0]}).

Lemma demo_spin_init : spin_init demo_spin.
Proof. split; [done|]. intros t th H. unfold demo_spin in H. cbn in H. look H; [done|]. by apply lookup_singleton_Some in H as [_ <-]. Qed.

(** The calls and the steps of a schedule. *)
Inductive spin_act := A_lock (t : Z) (irq : bool) | A_unlock (t : Z) | A_step (t : Z).

Definition act (a : spin_act) (y : spin_sys) : option spin_sys :=
  match a with
  | A_lock t irq =>
      th ← spinners y !! t;
      if decide (pc th = P_outside) then Some (SpinSys (the_lock y) (<[t := call_lock irq th]> (spinners y))) else None
  | A_unlock t =>
      th ← spinners y !! t;
      if decide (pc th = P_holding) then Some (SpinSys (the_lock y) (<[t := set_pc P_unlock th]> (spinners y))) else None
  | A_step t =>
      th ← spinners y !! t;
      match spin_step t (the_lock y) th with Ok (l, th) => Some (SpinSys l (<[t := th]> (spinners y))) | _ => None end
  end.

Fixpoint acts (l : list spin_act) (y : spin_sys) : option spin_sys :=
  match l with [] => Some y | a :: l => y ← act a y; acts l y end.

Lemma acts_reach l y0 y z : spin_reach y0 y -> acts l y = Some z -> spin_reach y0 z.
Proof.
  revert y. induction l as [|a l IH]; intros y Hr; cbn [acts]; [by intros [= <-]|].
  destruct (act a y) as [y1|] eqn:Ha; [|done]. cbn [mbind option_bind]. apply IH. eapply spin_more; [exact Hr|].
  destruct a as [t irq|t|t]; cbn in Ha; destruct (spinners y !! t) as [th|] eqn:Ht; try done; cbn in Ha.
  - destruct (decide _); [|done]. injection Ha as <-. by apply run_call.
  - destruct (decide _); [|done]. injection Ha as <-. by apply run_unlock.
  - destruct (spin_step _ _ _) as [[l' th']| |] eqn:Hs; try done. injection Ha as <-. by apply run_step with (th := th).
Qed.

Definition demo_schedule : list spin_act :=
  [A_lock 1 false; A_lock 2 true; A_step 1; A_step 2; A_step 1; A_step 2; A_step 1; A_step 2; A_step 1; A_step 2; A_step 2].

Lemma spinlock_mutex_witness :
  exists y th1 th2, acts demo_schedule demo_spin = Some y /\ spinners y !! 1 = Some th1 /\ spinners y !! 2 = Some th2 /\
    has_lock th1 = true /\ has_lock th2 = false /\ 0 < t_preempt th1.
Proof.
  destruct (acts demo_schedule demo_spin) as [y|] eqn:Ha; [|by vm_compute in Ha].
  destruct (spinners y !! 1) as [th1|] eqn:H1; [|vm_compute in Ha; injection Ha as <-; by vm_compute in H1].
  destruct (spinners y !! 2) as [th2|] eqn:H2; [|vm_compute in Ha; injection Ha as <-; by vm_compute in H2].
  assert (has_lock th1 = true) as Hl1 by (vm_compute in Ha; injection Ha as <-; vm_compute in H1; by injection H1 as <-).
  destruct (spinlock_mutex demo_spin y demo_spin_init) as (Hone & _ & Hheld & _);
    [exact (acts_reach _ _ _ _ (spin_refl _) Ha)|].
  exists y, th1, th2. splits; [reflexivity|exact H1|exact H2|exact Hl1| |exact (proj1 (Hheld 1 th1 H1 Hl1))].
  destruct (has_lock th2) eqn:Hl2; [|done]. specialize (Hone 1 2 th1 th2 H1 H2 Hl1 Hl2). lia.
Defined.

Lemma spinlock_acquires_witness :
  exists y th2 o th', acts (demo_schedule ++ [A_unlock 1; A_step 1]) demo_spin = Some y /\ spinners y !! 2 = Some th2 /\
    spin_solo 8 2 (the_lock y) th2 = Ok (Lock 0 0 0 o, th') /\ pc th' = P_holding.
Proof.
  destruct (acts (demo_schedule ++ [A_unlock 1; A_step 1]) demo_spin) as [y|] eqn:Ha; [|by vm_compute in Ha].
  destruct (spinners y !! 2) as [th2|] eqn:H2; [|vm_compute in Ha; injection Ha as <-; by vm_compute in H2].
  destruct (spinlock_acquires demo_spin y 2 th2 demo_spin_init (acts_reach _ _ _ _ (spin_refl _) Ha) H2) as (o & th' & Hs & Hpc & _).
  - vm_compute in Ha; injection Ha as <-; vm_compute in H2; by injection H2 as <-.
  - vm_compute in Ha; by injection Ha as <-.
  - vm_compute in Ha; by injection Ha as <-.
  - exists y, th2, o, th'. splits; [reflexivity|exact H2|exact Hs|exact Hpc].
Defined.
