(* ===== verification/XenbusRing.v ===== *)
(** The ring shared with the store daemon: the byte transport of xenbus/xenbus.c.

    The layout of the page and of [struct xsd_sockmsg] comes from Xen's public header
    io/xs_wire.h: the class [wire] has what the code uses of it, [wire_ok] what the header
    documents.  The ring of one direction is read as a queue of bytes, the slots between
    the consumer's and the producer's index.  *)
From S2P Require Import Prelude ByteRing.
From stdpp Require Import options.

(** The fields of [struct xsd_sockmsg], all 32-bit. *)
Record xsd_sockmsg := Msg { m_type : Z; m_req_id : Z; m_tx_id : Z; m_len : Z }.

Definition msg_range (m : xsd_sockmsg) : Prop :=
  0 <= m_type m < 2 ^ 32 /\ 0 <= m_req_id m < 2 ^ 32 /\ 0 <= m_tx_id m < 2 ^ 32 /\ 0 <= m_len m < 2 ^ 32.

(** io/xs_wire.h: the size of a ring and the index into it, the size and the bytes of a
    header, and the message types. *)
Class wire := {
  XENSTORE_RING_SIZE : Z;
  MASK_XENSTORE_IDX : Z -> Z;
  msg_size : Z;
  enc_msg : xsd_sockmsg -> list Z;
  dec_msg : list Z -> xsd_sockmsg;
  XS_DEBUG : Z; XS_DIRECTORY : Z; XS_READ : Z; XS_GET_PERMS : Z; XS_WATCH : Z; XS_UNWATCH : Z;
  XS_TRANSACTION_START : Z; XS_TRANSACTION_END : Z; XS_WRITE : Z; XS_RM : Z; XS_SET_PERMS : Z;
  XS_WATCH_EVENT : Z; XS_ERROR : Z
}.

(** What the header documents: the size is a power of two that fits an [int], the index is
    masked with it, and a header is the bytes of its fields. *)
Class wire_ok (W : wire) : Prop := {
  ring_size_pow : exists k, 0 <= k < 31 /\ XENSTORE_RING_SIZE = 2 ^ k;
  mask_mod i : 0 <= i -> MASK_XENSTORE_IDX i = i mod XENSTORE_RING_SIZE;
  msg_size_pos : 0 < msg_size < 2 ^ 16;
  enc_length m : Z.of_nat (length (enc_msg m)) = msg_size;
  dec_enc m : msg_range m -> dec_msg (enc_msg m) = m
}.

(** The shared page: [struct xenstore_domain_interface]. *)
Record ring := Ring {
  req : list Z; rsp : list Z;
  req_cons : Z; req_prod : Z;
  rsp_cons : Z; rsp_prod : Z
}.

(** [struct write_req]: the object [data] points to, and the length to send. *)
Record write_req := Req { data : list Z; wlen : Z }.

Abbreviation slots := (ByteRing.slots XENSTORE_RING_SIZE).
Abbreviation slot := (ByteRing.slot XENSTORE_RING_SIZE).

Section Code.
Context {W : wire}.

(** The two sides of a [memcpy] within the bounds of an object; the length is converted to
    [size_t], so a negative one is out of bounds. *)
Definition read_bytes (obj : list Z) (off n : Z) : res (list Z) :=
  if (0 <=? off) && (0 <=? n) && (off + n <=? Z.of_nat (length obj))
  then Ok (take (Z.to_nat n) (drop (Z.to_nat off) obj)) else Bug BAD_ACCESS.

Definition write_bytes (obj : list Z) (off : Z) (bs : list Z) : res (list Z) :=
  if (0 <=? off) && (off + Z.of_nat (length bs) <=? Z.of_nat (length obj))
  then Ok (take (Z.to_nat off) obj ++ bs ++ drop (Z.to_nat off + length bs) obj) else Bug BAD_ACCESS.

(** The bytes [memcpy_from_ring] copies to [Dest]. *)
Definition memcpy_from_ring (Ring : list Z) (off len : Z) : res (list Z) :=
  let c1 := Z.min len (XENSTORE_RING_SIZE - off) in
  let c2 := len - c1 in
  a ← read_bytes Ring off c1;
  b ← read_bytes Ring 0 c2;
  Ok (a ++ b).

(** The copying loop of [xb_write].  [cur] are the requests from [cur_req] on, the header
    first; the result is [prod], [req_off], [total_off] and the ring. *)
Fixpoint write_loop (fuel : nat) (cur : list write_req) (prod req_off total_off len : Z) (buf : list Z)
    : res (Z * Z * Z * list Z) :=
  if total_off <? len then
    match fuel with
    | O => Fuel
    | S fuel =>
        c ← access (head cur);
        let this_chunk :=
          sgn32 (Z.min (wrap32 (wlen c - req_off)) (wrap32 (XENSTORE_RING_SIZE - MASK_XENSTORE_IDX prod))) in
        chunk ← read_bytes (data c) req_off this_chunk;
        buf ← write_bytes buf (MASK_XENSTORE_IDX prod) chunk;
        let prod := wrap32 (prod + this_chunk) in
        let req_off := sgn32 (req_off + this_chunk) in
        let total_off := sgn32 (total_off + this_chunk) in
        if wrap32 req_off =? wlen c then write_loop fuel (tail cur) prod 0 total_off len buf
        else write_loop fuel cur prod req_off total_off len buf
    end
  else Ok (prod, req_off, total_off, buf).

(** [xb_write] with the lock held: the copy and the update of the index. *)
Definition write_message (cur : list write_req) (len : Z) (r : ring) : res ring :=
  '(prod, req_off, total_off, buf) ←
    write_loop (Z.to_nat len + length cur) cur (req_prod r) 0 0 len (req r);
  bug_on (negb (req_off =? 0));;
  bug_on (negb (total_off =? len));;
  bug_on (wrap32 (req_cons r + XENSTORE_RING_SIZE) <? prod);;
  Ok (Ring buf (rsp r) (req_cons r) (wrap32 (req_prod r + len)) (rsp_cons r) (rsp_prod r)).

(** The test for space on the ring. *)
Definition has_space (len : Z) (r : ring) : bool :=
  wrap32 (req_prod r + len - req_cons r) <=? XENSTORE_RING_SIZE.

Definition data_len (reqs : list write_req) : Z := foldl (fun len q => sgn32 (len + wlen q)) 0 reqs.

(** [xb_write].  When there is no space, others work on the ring before the condition of
    [wait_event] is tested, again before it is tested in the loop, and before the lock is
    taken again: [w1], [w2] and [w3].  In the loop the running thread is blocked before the
    test and woken when there is space; otherwise it calls [schedule], which stops, as the
    only caller has disabled preemption.  The result says whether the thread was woken. *)
Definition xb_write (type req_id trans_id : Z) (reqs : list write_req) (w1 w2 w3 : ring -> ring) (r : ring)
    : res (bool * ring) :=
  let len := data_len reqs in
  let m := Msg (wrap32 type) (wrap32 req_id) (wrap32 trans_id) (wrap32 len) in
  let len := sgn32 (len + msg_size) in
  let cur := Req (enc_msg m) msg_size :: reqs in
  bug_on (XENSTORE_RING_SIZE <? len);;
  if has_space len r then r ← write_message cur len r; Ok (false, r)
  else
    let r := w1 r in
    if has_space len r then r ← write_message cur len (w3 r); Ok (false, r)
    else
      let r := w2 r in
      if has_space len r then r ← write_message cur len (w3 r); Ok (true, r)
      else Bug BUG_ON.

(** ** The ring as a queue *)

Definition req_used (r : ring) : Z := wrap32 (req_prod r - req_cons r).
Definition rsp_used (r : ring) : Z := wrap32 (rsp_prod r - rsp_cons r).

(** The bytes sent and not yet consumed, in both directions. *)
Definition req_queue (r : ring) : list Z := slots (req r) (req_cons r) (req_used r).
Definition rsp_queue (r : ring) : list Z := slots (rsp r) (rsp_cons r) (rsp_used r).

Record ring_wf (r : ring) : Prop := {
  wf_req : Z.of_nat (length (req r)) = XENSTORE_RING_SIZE;
  wf_rsp : Z.of_nat (length (rsp r)) = XENSTORE_RING_SIZE;
  wf_req_cons : 0 <= req_cons r < 2 ^ 32;
  wf_req_prod : 0 <= req_prod r < 2 ^ 32;
  wf_rsp_cons : 0 <= rsp_cons r < 2 ^ 32;
  wf_rsp_prod : 0 <= rsp_prod r < 2 ^ 32;
  wf_req_used : req_used r <= XENSTORE_RING_SIZE;
  wf_rsp_used : rsp_used r <= XENSTORE_RING_SIZE
}.

(** A request in bounds, and the bytes sent for it. *)
Definition req_ok (q : write_req) : Prop := 0 <= wlen q <= Z.of_nat (length (data q)) /\ wlen q < 2 ^ 31.
Definition payload (q : write_req) : list Z := take (Z.to_nat (wlen q)) (data q).

End Code.

#[export] Instance wire_size `{wire_ok} : PowSize XENSTORE_RING_SIZE := ring_size_pow.

Section Spec.
Set Default Proof Using "Type*".
Context {W : wire} {WO : wire_ok W}.

Local Abbreviation S_ := XENSTORE_RING_SIZE.

Lemma read_bytes_ok obj off n :
  0 <= off -> 0 <= n -> off + n <= Z.of_nat (length obj) ->
  read_bytes obj off n = Ok (take (Z.to_nat n) (drop (Z.to_nat off) obj)).
Proof. intros. unfold read_bytes. case_ifs; lia. Qed.

Lemma read_bytes_slots buf p n :
  Z.of_nat (length buf) = S_ -> 0 <= n <= S_ - p mod S_ -> read_bytes buf (p mod S_) n = Ok (slots buf p n).
Proof.
  intros. pose proof (mod_size_range p). rewrite read_bytes_ok by lia. by rewrite slots_straight by lia.
Qed.

(** Reading from the ring across its end. *)
Lemma memcpy_from_ring_spec buf p n :
  Z.of_nat (length buf) = S_ -> 0 <= n <= S_ -> memcpy_from_ring buf (p mod S_) n = Ok (slots buf p n).
Proof.
  intros Hl Hn. pose proof (mod_size_range p). unfold memcpy_from_ring.
  set (c1 := Z.min n (S_ - p mod S_)). rewrite read_bytes_slots by lia. simpl.
  replace (read_bytes buf 0 (n - c1)) with (Ok (slots buf (p + c1) (n - c1))).
  - simpl. rewrite <- slots_app by lia. do 2 f_equal. lia.
  - destruct (decide (n - c1 = 0)) as [->|].
    { unfold read_bytes, slots. rewrite seqZ_nil by lia. case_ifs; lia. }
    assert ((p + c1) mod S_ = 0) as Hz.
    { rewrite <- mod_size_add. replace (p mod S_ + c1) with S_ by lia. apply Z_mod_same_full. }
    rewrite <- Hz. symmetry. apply read_bytes_slots; lia.
Qed.

(** Writing a chunk that ends before the end of the array. *)
Lemma write_bytes_slots buf p bs :
  Z.of_nat (length buf) = S_ -> Z.of_nat (length bs) <= S_ - p mod S_ ->
  exists buf', write_bytes buf (p mod S_) bs = Ok buf' /\ Z.of_nat (length buf') = S_ /\
    slots buf' p (Z.of_nat (length bs)) = bs /\
    (forall i, p + Z.of_nat (length bs) - S_ <= i < p -> slot buf' i = slot buf i).
Proof.
  intros Hl Hb. pose proof (mod_size_range p). unfold write_bytes.
  set (o := Z.to_nat (p mod S_)). set (buf' := take o buf ++ bs ++ drop (o + length bs) buf).
  assert (length (take o buf) = o) as Ho by (rewrite length_take; lia).
  assert (Z.of_nat (length buf') = S_) as Hl'.
  { unfold buf'. rewrite !length_app, length_drop. lia. }
  exists buf'. splits; [case_ifs; lia|done| |].
  - rewrite slots_straight by lia. fold o. unfold buf'. rewrite drop_app_length' by done.
    rewrite Nat2Z.id. by rewrite take_app_length.
  - intros i Hi. unfold slot. set (j := i mod S_). pose proof (mod_size_range i).
    assert (~ (p mod S_ <= j < p mod S_ + Z.of_nat (length bs))) as Hj.
    { intros Hin. assert (p + (j - p mod S_) = i); [|lia]. apply mod_size_inj; [lia|].
      rewrite <- mod_size_add, Z.mod_small by lia. fold j. lia. }
    rewrite !nth_lookup. f_equal. unfold buf'.
    destruct (decide (j < p mod S_)); [rewrite lookup_app_l by lia; apply lookup_take_lt; lia|].
    rewrite lookup_app_r by lia. rewrite lookup_app_r by lia. rewrite lookup_drop. f_equal. lia.
Qed.

Lemma payload_length c : req_ok c -> Z.of_nat (length (payload c)) = wlen c.
Proof. intros [Hc _]. unfold payload. rewrite length_take. lia. Qed.

Lemma payload_chunk c (J : list Z) off k :
  req_ok c -> 0 <= off -> 0 <= k -> off + k <= wlen c ->
  drop (Z.to_nat off) (payload c ++ J) =
  take (Z.to_nat k) (drop (Z.to_nat off) (data c)) ++ drop (Z.to_nat (off + k)) (payload c ++ J).
Proof.
  intros Hc ???. pose proof (payload_length c Hc) as Hl.
  rewrite <- (take_drop (Z.to_nat k) (drop (Z.to_nat off) (payload c ++ J))) at 1. rewrite drop_drop.
  f_equal; [|f_equal; lia].
  rewrite drop_app_le by lia. rewrite take_app_le by (rewrite length_drop; lia).
  unfold payload. rewrite !take_drop_commute, take_take. do 2 f_equal. lia.
Qed.

(** The copying loop sends the rest of the requests, and leaves the slots before [p] that
    are within the size of the ring from the end of what it sends. *)
Lemma write_loop_spec fuel cur p off tot len buf :
  Forall req_ok cur -> 0 <= p -> Z.of_nat (length buf) = S_ ->
  0 <= off -> (off = 0 \/ exists c, head cur = Some c /\ off < wlen c) ->
  0 <= tot <= len -> len <= S_ ->
  Z.of_nat (length (mjoin (payload <$> cur))) = off + (len - tot) ->
  len - tot + Z.of_nat (length cur) <= Z.of_nat fuel ->
  exists buf',
    write_loop fuel cur (wrap32 p) off tot len buf =
      Ok (wrap32 (p + (len - tot)), (if tot <? len then 0 else off), len, buf') /\
    Z.of_nat (length buf') = S_ /\
    slots buf' p (len - tot) = drop (Z.to_nat off) (mjoin (payload <$> cur)) /\
    (forall i, p + (len - tot) - S_ <= i < p -> slot buf' i = slot buf i).
Proof.
  revert cur p off tot buf. induction fuel as [|fuel IH]; intros cur p off tot buf Hok Hp Hb Hoff0 Hoff Htot Hlen Hsum Hf.
  { destruct cur as [|c cur]; [|simpl in Hf; lia]. simpl in *.
    assert (tot = len /\ off = 0) as [-> ->] by lia. rewrite Z.ltb_irrefl. exists buf.
    replace (p + (len - len)) with p by lia. replace (len - len) with 0 by lia. done. }
  simpl. destruct (Z.ltb_spec tot len) as [Hlt|]; [|].
  - destruct cur as [|c cur]; [simpl in *; lia|]. simpl head. simpl access. cbn [mbind res_bind].
    apply Forall_cons in Hok as [[Hc1 Hc2] Hok]. pose proof size_bounds as [Hs _].
    pose proof (mod_size_range p) as Hmp.
    assert (off <= wlen c) as Hoc by (destruct Hoff as [-> | (c' & [= <-] & ?)]; lia).
    rewrite mask_mod, wrap32_mod_size by (apply wrap_range; lia).
    rewrite (wrap_small 32 (wlen c - off)), (wrap_small 32 (S_ - _)) by lia.
    remember (Z.min (wlen c - off) (S_ - p mod S_)) as k eqn:Hkd.
    rewrite (sgn_small 32 k) by lia. rewrite read_bytes_ok by lia. cbn [mbind res_bind].
    set (chunk := take (Z.to_nat k) (drop (Z.to_nat off) (data c))).
    assert (Z.of_nat (length chunk) = k) as Hk by (unfold chunk; rewrite length_take, length_drop; lia).
    pose proof (payload_length c (conj Hc1 Hc2)) as Hpl. csimpl in Hsum. rewrite length_app in Hsum.
    destruct (write_bytes_slots buf p chunk) as (buf1 & Hw & Hb1 & Hs1 & Hf1); [done|lia|].
    rewrite Hw, Hk in *. cbn [mbind res_bind].
    rewrite (sgn_small 32 (off + k)), (sgn_small 32 (tot + k)), (wrap_small 32 (off + k)) by lia.
    assert (wrap32 (wrap32 p + k) = wrap32 (p + k)) as -> by (unfold wrap; apply Zplus_mod_idemp_l).
    assert (forall buf' , slots buf' (p + k) (len - (tot + k)) =
                     drop (Z.to_nat (off + k)) (payload c ++ mjoin (payload <$> cur)) ->
              (forall i, p + k + (len - (tot + k)) - S_ <= i < p + k -> slot buf' i = slot buf1 i) ->
              slots buf' p (len - tot) = drop (Z.to_nat off) (payload c ++ mjoin (payload <$> cur)) /\
              (forall i, p + (len - tot) - S_ <= i < p -> slot buf' i = slot buf i)) as Hstep.
    { intros buf' Hs' Hf'. split.
      - replace (len - tot) with (k + (len - (tot + k))) by lia. rewrite slots_app by lia. rewrite Hs'.
        rewrite (payload_chunk c _ off k) by (done || lia). f_equal. fold chunk. rewrite <- Hs1.
        apply slots_ext. intros i Hi. apply Hf'. lia.
      - intros i Hi. rewrite Hf' by lia. apply Hf1. lia. }
    destruct (Z.eqb_spec (off + k) (wlen c)) as [He|Hne].
    + destruct (IH cur (p + k) 0 (tot + k) buf1) as (buf' & Hl & Hb' & Hs' & Hf'); [done|lia|done|lia|by left|lia|lia|lia|simpl in Hf; lia|].
      exists buf'. simpl tail. rewrite Hl. rewrite (drop_app_length' (payload c)) in Hstep by lia.
      destruct (Hstep buf' Hs' Hf') as [Hs2 Hf2]. splits; [|done..].
      replace (p + k + (len - (tot + k))) with (p + (len - tot)) by lia. by case_ifs.
    + destruct (IH (c :: cur) (p + k) (off + k) (tot + k) buf1) as (buf' & Hl & Hb' & Hs' & Hf'); [by apply Forall_cons|lia|done|lia|right; exists c; split; [done|lia]|lia|lia| |simpl in *; lia|].
      { csimpl. rewrite length_app. lia. }
      exists buf'. rewrite Hl. destruct (Hstep buf' Hs' Hf') as [Hs2 Hf2]. splits; [|done..].
      replace (p + k + (len - (tot + k))) with (p + (len - tot)) by lia. by rewrite (proj2 (Z.ltb_lt (tot + k) len)) by lia.
  - assert (tot = len) as -> by lia. exists buf. rewrite Z.sub_diag, Z.add_0_r. splits; [done..| |done].
    rewrite drop_ge by lia. done.
Qed.

Lemma req_used_bounds r : 0 <= req_used r.
Proof. apply wrap_range. lia. Qed.

Lemma prod_used r : ring_wf r -> req_prod r = wrap32 (req_cons r + req_used r).
Proof.
  intros [_ _ _ Hp _ _ _ _]. unfold req_used, wrap. rewrite Zplus_mod_idemp_r.
  replace (req_cons r + (req_prod r - req_cons r)) with (req_prod r) by lia. rewrite Z.mod_small by lia. done.
Qed.

(** The ring after [n] more bytes of [bs] were written. *)
Definition sent (r : ring) (buf : list Z) (n : Z) : ring :=
  Ring buf (rsp r) (req_cons r) (wrap32 (req_prod r + n)) (rsp_cons r) (rsp_prod r).

Lemma sent_used r buf n : ring_wf r -> 0 <= n -> req_used r + n <= S_ -> req_used (sent r buf n) = req_used r + n.
Proof.
  intros Hwf Hn Hs. pose proof size_bounds as [? _]. pose proof (req_used_bounds r).
  unfold req_used at 1, sent. simpl. rewrite (prod_used r) by done. unfold wrap. rewrite Zplus_mod_idemp_l, Zminus_mod_idemp_l.
  rewrite Z.mod_small; lia.
Qed.

(** The index test at the end of [xb_write] compares 32-bit indices that may have wrapped. *)
Definition index_test_fails (r : ring) (n : Z) : bool :=
  (2 ^ 32 <=? req_cons r + S_) && (req_cons r + req_used r + n <? 2 ^ 32).

Lemma index_test r n :
  ring_wf r -> 0 < n -> req_used r + n <= S_ ->
  (wrap32 (req_cons r + S_) <? wrap32 (req_cons r + req_used r + n)) = index_test_fails r n.
Proof.
  intros Hwf Hn Hs. pose proof size_bounds as [? _]. pose proof (req_used_bounds r). pose proof (wf_req_cons r Hwf).
  assert (forall x, 0 <= x < 2 * 2 ^ 32 -> wrap32 x = if x <? 2 ^ 32 then x else x - 2 ^ 32) as Hw.
  { intros x Hx. unfold wrap. destruct (Z.ltb_spec x (2 ^ 32)); [apply Z.mod_small; lia|].
    rewrite <- (Z_mod_plus_full x (-1)), Z.mod_small; lia. }
  unfold index_test_fails. rewrite !Hw by lia.
  destruct (Z.ltb_spec (req_cons r + S_) (2 ^ 32)), (Z.ltb_spec (req_cons r + req_used r + n) (2 ^ 32)),
    (Z.leb_spec (2 ^ 32) (req_cons r + S_)); simpl; try lia; first [apply Z.ltb_lt; lia | apply Z.ltb_ge; lia].
Qed.

Lemma write_message_spec cur n r :
  ring_wf r -> Forall req_ok cur -> n = Z.of_nat (length (mjoin (payload <$> cur))) -> 0 < n -> req_used r + n <= S_ ->
  if index_test_fails r n then write_message cur n r = Bug BUG_ON
  else exists buf, write_message cur n r = Ok (sent r buf n) /\ ring_wf (sent r buf n) /\
    req_queue (sent r buf n) = req_queue r ++ mjoin (payload <$> cur).
Proof.
  intros Hwf Hok Hn Hn0 Hs. pose proof size_bounds as [? _]. pose proof (req_used_bounds r).
  pose proof (wf_req_cons r Hwf) as Hc. set (p := req_cons r + req_used r).
  destruct (write_loop_spec (Z.to_nat n + length cur) cur p 0 0 n (req r))
    as (buf & Hl & Hb & Hsl & Hfr); [done|lia|apply Hwf|lia|by left|lia|lia|lia|lia|].
  unfold write_message. rewrite (prod_used r) by done. fold p. rewrite Hl, Z.sub_0_r in *.
  rewrite (proj2 (Z.ltb_lt 0 n)) by lia. cbn [mbind res_bind]. rewrite (proj2 (Z.eqb_eq n n) eq_refl).
  simpl negb. cbn [bug_on mbind res_bind]. change (0 =? 0) with true. cbn [negb bug_on mbind res_bind].
  rewrite index_test by done. destruct (index_test_fails r n); [done|]. cbn [bug_on mbind res_bind].
  exists buf. splits; [unfold sent; by rewrite (prod_used r) by done| |].
  - destruct Hwf. constructor; simpl; try done; [apply wrap_range; lia|]. rewrite sent_used; [lia|by constructor|lia..].
  - unfold req_queue at 1. rewrite sent_used by (done || lia). simpl. rewrite slots_app by lia. f_equal.
    + apply slots_ext. intros i Hi. apply Hfr. lia.
    + fold p. by rewrite Hsl.
Qed.

Lemma data_len_spec reqs acc :
  Forall req_ok reqs -> 0 <= acc -> acc + Z.of_nat (length (mjoin (payload <$> reqs))) < 2 ^ 31 ->
  foldl (fun len q => sgn32 (len + wlen q)) acc reqs = acc + Z.of_nat (length (mjoin (payload <$> reqs))).
Proof.
  intros Hok. revert acc. induction Hok as [|q reqs Hq Hok IH]; intros acc Ha Hs; csimpl in *; [lia|].
  rewrite length_app in *. pose proof (payload_length q Hq). rewrite sgn_small by lia. rewrite IH; lia.
Qed.

(** The requests [xb_write] sends: the header and the data. *)
Definition message (type req_id trans_id : Z) (reqs : list write_req) : list Z :=
  let d := mjoin (payload <$> reqs) in
  enc_msg (Msg (wrap32 type) (wrap32 req_id) (wrap32 trans_id) (wrap32 (Z.of_nat (length d)))) ++ d.

Lemma message_length type req_id trans_id reqs :
  Z.of_nat (length (message type req_id trans_id reqs)) = msg_size + Z.of_nat (length (mjoin (payload <$> reqs))).
Proof. unfold message. rewrite length_app. pose proof (enc_length (Msg (wrap32 type) (wrap32 req_id) (wrap32 trans_id) (wrap32 (Z.of_nat (length (mjoin (payload <$> reqs))))))). lia. Qed.

(** [xb_write] on a ring with space, and with a message longer than the ring. *)
Lemma xb_write_spec type req_id trans_id reqs w1 w2 w3 r :
  ring_wf r -> Forall req_ok reqs ->
  let msg := message type req_id trans_id reqs in
  let n := Z.of_nat (length msg) in
  n < 2 ^ 31 ->
  (S_ < n -> xb_write type req_id trans_id reqs w1 w2 w3 r = Bug BUG_ON) /\
  (req_used r + n <= S_ ->
   if index_test_fails r n then xb_write type req_id trans_id reqs w1 w2 w3 r = Bug BUG_ON
   else exists buf, xb_write type req_id trans_id reqs w1 w2 w3 r = Ok (false, sent r buf n) /\
     ring_wf (sent r buf n) /\ req_queue (sent r buf n) = req_queue r ++ msg).
Proof.
  intros Hwf Hok msg n Hn. pose proof size_bounds as [? _]. pose proof (req_used_bounds r).
  pose proof (message_length type req_id trans_id reqs) as Hml. fold msg in Hml. fold n in Hml.
  pose proof msg_size_pos.
  unfold xb_write, data_len. rewrite data_len_spec by (done || lia). rewrite Z.add_0_l.
  rewrite (sgn_small 32) by lia. replace (Z.of_nat (length (mjoin (payload <$> reqs))) + msg_size) with n by lia.
  split; intros Hs; [by rewrite (proj2 (Z.ltb_lt S_ n)) by lia|].
  rewrite (proj2 (Z.ltb_ge S_ n)) by lia. cbn [bug_on mbind res_bind].
  assert (has_space n r = true) as ->.
  { unfold has_space. apply Z.leb_le. rewrite (prod_used r) by done. unfold wrap.
    replace ((req_cons r + req_used r) `mod` 2 ^ 32 + n - req_cons r)
      with ((req_cons r + req_used r) `mod` 2 ^ 32 + (n - req_cons r)) by lia.
    rewrite Zplus_mod_idemp_l. rewrite Z.mod_small; lia. }
  set (hdr := Req _ _).
  assert (mjoin (payload <$> hdr :: reqs) = msg) as Hj.
  { csimpl. unfold payload at 1, hdr. simpl. unfold msg, message. f_equal. apply take_ge.
    rewrite <- (Nat2Z.id (length _)), enc_length. done. }
  assert (Forall req_ok (hdr :: reqs)) as Hok2.
  { constructor; [|done]. unfold req_ok. simpl. rewrite enc_length. lia. }
  pose proof (write_message_spec (hdr :: reqs) n r) as Hw. rewrite Hj in Hw.
  specialize (Hw Hwf Hok2 eq_refl ltac:(lia) Hs). destruct (index_test_fails r n).
  - by rewrite Hw.
  - destruct Hw as (buf & -> & ?). exists buf. done.
Qed.
End Spec.

(** ** The layout on x86_64

    1024 bytes a ring, four little-endian words a header. *)
Module Demo.

Definition word_bytes (x : Z) : list Z := [x mod 256; (x / 256) mod 256; (x / 65536) mod 256; (x / 16777216) mod 256].
Definition word_at (l : list Z) (i : nat) : Z :=
  nth i l 0 + 256 * nth (i + 1) l 0 + 65536 * nth (i + 2) l 0 + 16777216 * nth (i + 3) l 0.

Global Instance xs_wire : wire := {|
  XENSTORE_RING_SIZE := 1024;
  MASK_XENSTORE_IDX i := Z.land i 1023;
  msg_size := 16;
  enc_msg m := word_bytes (m_type m) ++ word_bytes (m_req_id m) ++ word_bytes (m_tx_id m) ++ word_bytes (m_len m);
  dec_msg l := Msg (word_at l 0) (word_at l 4) (word_at l 8) (word_at l 12);
  XS_DEBUG := 0; XS_DIRECTORY := 1; XS_READ := 2; XS_GET_PERMS := 3; XS_WATCH := 4; XS_UNWATCH := 5;
  XS_TRANSACTION_START := 6; XS_TRANSACTION_END := 7; XS_WRITE := 11; XS_RM := 13; XS_SET_PERMS := 14;
  XS_WATCH_EVENT := 15; XS_ERROR := 16
|}.

Lemma word_round_trip x : 0 <= x < 2 ^ 32 ->
  x mod 256 + 256 * ((x / 256) mod 256) + 65536 * ((x / 65536) mod 256) + 16777216 * ((x / 16777216) mod 256) = x.
Proof. intros. Z.div_mod_to_equations. lia. Qed.

Global Instance xs_wire_ok : wire_ok xs_wire.
Proof.
  constructor.
  - by exists 10.
  - intros i Hi. change (MASK_XENSTORE_IDX i) with (Z.land i (Z.ones 10)). by rewrite Z.land_ones.
  - simpl. lia.
  - done.
  - intros [t i x l] (?&?&?&?). simpl in *. unfold word_at. simpl. by rewrite !word_round_trip.
Qed.

End Demo.
