(* ===== verification/Xenbus.v ===== *)
(** The store client: xenbus/xenbus.c.

    The file-scope variables are the record [xb]; the reply blocks and strings that the client
    allocates are a heap from addresses to contents, on which [free] of a block that is not in
    use stops as in [Xmalloc].  The allocator is an argument.  What the code does between
    taking and releasing a lock is one definition, and a function that calls [schedule] is
    split there.  Of the scheduler the state keeps the set of the blocked threads; blocking
    and waking themselves are in [Sched], the wait queues in [Completion]. *)
From S2P Require Import Prelude CString Printf ByteRing XenbusRing.
From S2P Require Completion.
From Stdlib Require Import String.
From stdpp Require Import options.

Open Scope Z_scope.
Open Scope list_scope.

Definition NR_REQS : Z := 32.
Definition MAX_PATHS : Z := 10.

(** [struct xenbus_req_info] *)
Record xenbus_req_info := RI { in_use : Z; waitq : list Z; reply : Z }.

(** [struct xenbus_watch]; [token] and [path] are the callers' strings, [paths] are pointers. *)
Record xenbus_watch := Watch {
  w_token : list Z; w_path : list Z;
  path_prod_idx : Z; path_cons_idx : Z;
  paths : list Z;
  w_thread : Z
}.

Record xb := Xb {
  x_ring : ring;
  req_info : list xenbus_req_info;
  nr_live_reqs : Z;
  probe : Z;
  req_wq : list Z;
  suspend : bool;
  watch_list : list Z;
  watches : gmap Z xenbus_watch;
  heap : gmap Z (list Z);
  blocked : gset Z;
  notified : nat
}.

Definition set_ring (r : ring) (s : xb) : xb :=
  Xb r (req_info s) (nr_live_reqs s) (probe s) (req_wq s) (suspend s) (watch_list s) (watches s) (heap s)
    (blocked s) (notified s).
Definition set_reqs (l : list xenbus_req_info) (n p : Z) (s : xb) : xb :=
  Xb (x_ring s) l n p (req_wq s) (suspend s) (watch_list s) (watches s) (heap s) (blocked s) (notified s).
Definition set_req_wq (l : list Z) (s : xb) : xb :=
  Xb (x_ring s) (req_info s) (nr_live_reqs s) (probe s) l (suspend s) (watch_list s) (watches s) (heap s)
    (blocked s) (notified s).
Definition set_watches (l : list Z) (m : gmap Z xenbus_watch) (s : xb) : xb :=
  Xb (x_ring s) (req_info s) (nr_live_reqs s) (probe s) (req_wq s) (suspend s) l m (heap s) (blocked s) (notified s).
Definition set_heap (h : gmap Z (list Z)) (s : xb) : xb :=
  Xb (x_ring s) (req_info s) (nr_live_reqs s) (probe s) (req_wq s) (suspend s) (watch_list s) (watches s) h
    (blocked s) (notified s).
Definition set_blocked (b : gset Z) (s : xb) : xb :=
  Xb (x_ring s) (req_info s) (nr_live_reqs s) (probe s) (req_wq s) (suspend s) (watch_list s) (watches s) (heap s)
    b (notified s).

(** [notify_remote_via_evtchn] is counted. *)
Definition notify (s : xb) : xb :=
  Xb (x_ring s) (req_info s) (nr_live_reqs s) (probe s) (req_wq s) (suspend s) (watch_list s) (watches s) (heap s)
    (blocked s) (S (notified s)).

Definition set_req (id : Z) (ri : xenbus_req_info) (s : xb) : xb :=
  set_reqs (<[Z.to_nat id := ri]> (req_info s)) (nr_live_reqs s) (probe s) s.

Definition block (t : Z) (s : xb) : xb := set_blocked ({[t]} ∪ blocked s) s.
Definition wake (t : Z) (s : xb) : xb := set_blocked (blocked s ∖ {[t]}) s.
Definition wake_up (l : list Z) (s : xb) : xb := foldl (fun s t => wake t s) s l.

Section Code.
Context {W : wire} (malloc : gset Z -> Z -> Z).

Definition used (s : xb) : gset Z := dom (heap s) ∪ dom (watches s).

(** A block of [size] bytes, filled by the stores that follow: they fail when it is NULL. *)
Definition new_block (size : Z) (contents : list Z) (s : xb) : res (Z * xb) :=
  let a := malloc (used s) size in
  if a =? 0 then Bug BAD_ACCESS else Ok (a, set_heap (<[a := contents]> (heap s)) s).

Definition free (a : Z) (s : xb) : res xb :=
  if a =? 0 then Ok s
  else match heap s !! a with Some _ => Ok (set_heap (delete a (heap s)) s) | None => Bug BUG_ON end.

Definition block_at (a : Z) (s : xb) : res (list Z) := access (heap s !! a).

(** [strdup], which returns NULL when there is no memory. *)
Definition strdup_ptr (x : list Z) (s : xb) : res (Z * xb) :=
  n ← strlen x;
  let a := malloc (used s) (wrap64 (sgn32 n + 1)) in
  d ← strdup (fun size => if a =? 0 then None else Some (replicate (Z.to_nat size) 0)) x;
  match d with
  | None => Ok (0, s)
  | Some d => Ok (a, set_heap (<[a := d]> (heap s)) s)
  end.

(** ** Watches *)

Fixpoint find_watch_from (l : list Z) (token : list Z) (s : xb) : res Z :=
  match l with
  | [] => Ok 0
  | a :: l =>
      w ← access (watches s !! a);
      c ← strcmp (w_token w) token;
      if c =? 0 then Ok a else find_watch_from l token s
  end.

Definition find_watch (token : list Z) (s : xb) : res Z := find_watch_from (watch_list s) token s.

(** The branch of [xenbus_thread_func] for a watch event; [payload] is the copy of the
    message at address [p]. *)
Definition watch_event (p : Z) (payload : list Z) (s : xb) : res xb :=
  let path := drop (Z.to_nat msg_size) payload in
  n ← strlen path;
  let token := drop (Z.to_nat (n + 1)) path in
  a ← find_watch token s;
  if a =? 0 then Ok s
  else
    w ← access (watches s !! a);
    bug_on (MAX_PATHS <? sgn32 (path_prod_idx w - path_cons_idx w));;
    let i := path_prod_idx w in
    '(d, s) ← strdup_ptr path s;
    _ ← elem (paths w) (Z.rem i MAX_PATHS);
    let w := Watch (w_token w) (w_path w) (sgn32 (i + 1)) (path_cons_idx w)
               (<[Z.to_nat (Z.rem i MAX_PATHS) := d]> (paths w)) (w_thread w) in
    let s := set_watches (watch_list s) (<[a := w]> (watches s)) s in
    Ok (if w_thread w =? 0 then s else wake (w_thread w) s).

(** ** The receiving thread *)

(** [rsp_cons += msg.len + sizeof(msg)] *)
Definition consume (n : Z) (s : xb) : xb :=
  let r := x_ring s in
  set_ring (Ring (req r) (rsp r) (req_cons r) (req_prod r) (wrap32 (rsp_cons r + n)) (rsp_prod r)) s.

(** The condition of [wait_event] in [xenbus_thread_func], for its last [prod]. *)
Definition thread_waits (prod : Z) (s : xb) : bool := negb (negb (prod =? rsp_prod (x_ring s)) || suspend s).

(** One iteration of the inner loop of [xenbus_thread_func]; [false] is a [break]. *)
Definition receive (s : xb) : res (bool * xb) :=
  let r := x_ring s in
  let avail := wrap32 (rsp_prod r - rsp_cons r) in
  let off := MASK_XENSTORE_IDX (rsp_cons r) in
  if avail <? msg_size then Ok (false, s)
  else
    h ← memcpy_from_ring (rsp r) off msg_size;
    let msg := dec_msg h in
    let n := m_len msg + msg_size in
    if avail <? n then Ok (false, s)
    else if m_type msg =? XS_WATCH_EVENT then
      payload ← memcpy_from_ring (rsp r) off (sgn32 n);
      '(p, s) ← new_block n payload s;
      s ← watch_event p payload s;
      let s := consume n s in
      s ← free p s;
      Ok (true, s)
    else
      ri ← elem (req_info s) (m_req_id msg);
      bug_on (in_use ri =? 0);;
      bytes ← memcpy_from_ring (rsp r) off (sgn32 n);
      '(p, s) ← new_block n bytes s;
      let s := set_req (m_req_id msg) (RI (in_use ri) (waitq ri) p) s in
      let s := consume n s in
      Ok (true, wake_up (waitq ri) s).

(** ** Request identifiers *)

Definition release_xenbus_id (id : Z) (s : xb) : res xb :=
  ri ← elem (req_info s) id;
  bug_on (in_use ri =? 0);;
  let n := nr_live_reqs s - 1 in
  let s := set_reqs (<[Z.to_nat id := RI 0 (waitq ri) (reply ri)]> (req_info s)) n (probe s) s in
  Ok (if (n =? NR_REQS - 1) || (n =? 0) then wake_up (req_wq s) s else s).

(** The search for an identifier that is not in use. *)
Fixpoint probe_loop (fuel : nat) (o_probe : Z) (s : xb) : res Z :=
  match fuel with
  | O => Fuel
  | S fuel =>
      ri ← elem (req_info s) o_probe;
      if in_use ri =? 0 then Ok o_probe
      else
        let o_probe := Z.rem (o_probe + 1) NR_REQS in
        bug_on (o_probe =? probe s);;
        probe_loop fuel o_probe s
  end.

(** [allocate_xenbus_id]; [None] when it has to wait. *)
Definition allocate_xenbus_id (s : xb) : res (option Z * xb) :=
  if nr_live_reqs s <? NR_REQS then
    id ← probe_loop (Z.to_nat NR_REQS) (probe s) s;
    ri ← elem (req_info s) id;
    Ok (Some id,
        set_reqs (<[Z.to_nat id := RI 1 [] (reply ri)]> (req_info s)) (nr_live_reqs s + 1)
          (Z.rem (id + 1) NR_REQS) s)
  else Ok (None, s).

(** The wait of [allocate_xenbus_id] up to [schedule], or its end: the result says whether
    [schedule] is called. *)
Definition allocate_wait (t : Z) (s : xb) : bool * xb :=
  if (nr_live_reqs s <? NR_REQS) && negb (suspend s)
  then (false, set_req_wq (Completion.wait_event_end (req_wq s) t) s)
  else (true, block t (set_req_wq (Completion.add_wait_queue (req_wq s) t) s)).

(** ** Requests *)

(** [add_waiter(w, req_info[id].waitq)] of the running thread. *)
Definition add_waiter (id t : Z) (s : xb) : res xb :=
  ri ← elem (req_info s) id;
  Ok (block t (set_req id (RI (in_use ri) (Completion.add_wait_queue (waitq ri) t) (reply ri)) s)).

(** [xb_write] for the thread [t], with its notification. *)
Definition send (type id trans : Z) (io : list write_req) (w1 w2 w3 : ring -> ring) (t : Z) (s : xb) : res xb :=
  '(woken, r) ← xb_write type id trans io w1 w2 w3 (x_ring s);
  let s := set_ring r s in
  Ok (notify (if woken : bool then wake t s else s)).

(** [xenbus_msg_reply] up to [schedule], when it has not to wait for an identifier. *)
Definition msg_reply_begin (type trans : Z) (io : list write_req) (w1 w2 w3 : ring -> ring) (t : Z) (s : xb)
    : res (option Z * xb) :=
  '(oid, s) ← allocate_xenbus_id s;
  match oid with
  | None => Ok (None, s)
  | Some id =>
      s ← add_waiter id t s;
      s ← send type id trans io w1 w2 w3 t s;
      Ok (Some id, s)
  end.

(** The header of a reply. *)
Definition msg_of (b : list Z) : res xsd_sockmsg := h ← read_bytes b 0 msg_size; Ok (dec_msg h).

(** The rest of [xenbus_msg_reply]. *)
Definition msg_reply_end (id : Z) (s : xb) : res (Z * xb) :=
  ri ← elem (req_info s) id;
  let rep := reply ri in
  b ← block_at rep s;
  m ← msg_of b;
  bug_on (negb (m_req_id m =? wrap32 id));;
  s ← release_xenbus_id id s;
  Ok (rep, s).

(** The string of a reply, with the terminator the callers add.  The size [len + 1] is
    computed in 32 bits. *)
Definition reply_string (b : list Z) (m : xsd_sockmsg) : res (list Z) :=
  t ← read_bytes b msg_size (m_len m);
  if m_len m <? wrap32 (m_len m + 1) then Ok (t ++ [0]) else Bug BAD_ACCESS.

Definition errmsg (rep : Z) (s : xb) : res (Z * xb) :=
  if rep =? 0 then strdup_ptr (cstr "no reply") s
  else
    b ← block_at rep s;
    m ← msg_of b;
    if negb (m_type m =? XS_ERROR) then Ok (0, s)
    else
      t ← reply_string b m;
      '(r, s) ← new_block (m_len m + 1) t s;
      s ← free rep s;
      Ok (r, s).


(** ** Client operations

    An operation is the requests it passes to [xenbus_msg_reply], and what it does with the
    reply.  Pointers to results are 0 for NULL. *)

(** [{ s, strlen(s) + 1 }] *)
Definition cstring_req (s : list Z) : res write_req := n ← strlen s; Ok (Req s (wrap32 (n + 1))).

Definition cstring_reqs (l : list (list Z)) : res (list write_req) := mapM cstring_req l.

Definition xenbus_debug_msg_reqs (msg : list Z) : res (Z * list write_req) :=
  n ← strlen msg;
  Ok (XS_DEBUG, [Req (cstr "print") 6; Req msg (wrap32 (sgn32 n)); Req (cstr "") 1]).

Definition xenbus_ls_reqs (pre : list Z) : res (Z * list write_req) :=
  l ← cstring_reqs [pre]; Ok (XS_DIRECTORY, l).
Definition xenbus_read_reqs (path : list Z) : res (Z * list write_req) :=
  l ← cstring_reqs [path]; Ok (XS_READ, l).
Definition xenbus_get_perms_reqs (path : list Z) : res (Z * list write_req) :=
  l ← cstring_reqs [path]; Ok (XS_GET_PERMS, l).
Definition xenbus_rm_reqs (path : list Z) : res (Z * list write_req) :=
  l ← cstring_reqs [path]; Ok (XS_RM, l).
Definition xenbus_write_reqs (path value : list Z) : res (Z * list write_req) :=
  l ← cstring_reqs [path; value]; Ok (XS_WRITE, l).
Definition xenbus_transaction_start_reqs : Z * list write_req :=
  (XS_TRANSACTION_START, [Req (cstr "") 1]).
Definition xenbus_transaction_end_reqs (abort : bool) : Z * list write_req :=
  (XS_TRANSACTION_END, [Req (cstr (if abort then "F" else "T")) 2]).

(** The buffer [value] is at the address [buf], with 32 bytes of unknown contents. *)
Definition xenbus_set_perms_reqs (path : list Z) (dom perm : Z) (buf : Z) (value : list Z)
    : res (Z * list write_req) :=
  '(_, value, _) ← snprintf buf value 32 (cstr "%c%hu") [ANum perm; ANum dom];
  l ← cstring_reqs [path; value];
  Ok (XS_SET_PERMS, l).

(** [xenbus_printf] up to the call of [xenbus_write]: the two strings it writes. *)
Definition xenbus_printf (node path fmt : list Z) (args : list arg) (a_node a_path buf1 buf2 : Z)
    (fullpath val : list Z) : res (list Z * list Z) :=
  n ← strlen node;
  m ← strlen path;
  bug_on (256 <=? n + m + 1);;
  '(_, fullpath, _) ← sprintf buf1 fullpath (cstr "%s/%s") [AStr a_node node; AStr a_path path];
  '(_, val, _) ← vsprintf buf2 val fmt args;
  Ok (fullpath, val).

(** What [guk_xenbus_read] and [xenbus_get_perms] do with the reply: the message and the value. *)
Definition value_end (rep : Z) (s : xb) : res (Z * Z * xb) :=
  '(msg, s) ← errmsg rep s;
  if negb (msg =? 0) then Ok (msg, 0, s)
  else
    b ← block_at rep s;
    m ← msg_of b;
    t ← reply_string b m;
    '(r, s) ← new_block (m_len m + 1) t s;
    s ← free rep s;
    Ok (0, r, s).

(** [xenbus_write], [xenbus_rm] and [xenbus_set_perms]: the message. *)
Definition done_end (rep : Z) (s : xb) : res (Z * xb) :=
  '(msg, s) ← errmsg rep s;
  if negb (msg =? 0) then Ok (msg, s) else s ← free rep s; Ok (0, s).

(** The loop of [xenbus_ls] that copies the strings of the reply. *)
Fixpoint ls_loop (nr : nat) (reply : list Z) (s : xb) : res (list Z * xb) :=
  match nr with
  | O => Ok ([], s)
  | S nr =>
      l ← strlen reply;
      let n := Z.to_nat (sgn32 l + 1) in
      '(a, s) ← new_block (sgn32 l + 1) (take n reply) s;
      '(rest, s) ← ls_loop nr (drop n reply) s;
      Ok (a :: rest, s)
  end.

(** [xenbus_ls]: the message and the array. *)
Definition xenbus_ls_end (rep : Z) (s : xb) : res (Z * Z * xb) :=
  '(msg, s) ← errmsg rep s;
  if negb (msg =? 0) then Ok (msg, 0, s)
  else
    b ← block_at rep s;
    m ← msg_of b;
    t ← read_bytes b msg_size (m_len m);
    let nr_elems := Datatypes.length (filter (fun c => c = 0) t) in
    '(arr, s) ← new_block (8 * (Z.of_nat nr_elems + 1)) [] s;
    '(strs, s) ← ls_loop nr_elems (drop (Z.to_nat msg_size) b) s;
    let s := set_heap (<[arr := strs ++ [0]]> (heap s)) s in
    s ← free rep s;
    Ok (0, arr, s).

Definition xenbus_transaction_start_end (rep : Z) (xbt : Z) (s : xb) : res (Z * list (Z * sval) * xb) :=
  '(err, s) ← errmsg rep s;
  if negb (err =? 0) then Ok (err, [], s)
  else
    b ← block_at rep s;
    '(_, stores) ← sscanf (drop (Z.to_nat msg_size) b) (cstr "%u") [ARef xbt];
    s ← free rep s;
    Ok (0, stores, s).

(** The message and [*retry]. *)
Definition xenbus_transaction_end_end (rep : Z) (s : xb) : res (Z * Z * xb) :=
  '(err, s) ← errmsg rep s;
  if negb (err =? 0) then
    e ← block_at err s;
    c ← strcmp e (cstr "EAGAIN");
    if c =? 0 then s ← free err s; Ok (0, 1, s) else Ok (err, 0, s)
  else s ← free rep s; Ok (0, 0, s).

(** [xenbus_read_integer] after its [xenbus_read]; [t] is the contents of the uninitialised
    variable at the address [at_]. *)
Definition xenbus_read_integer_end (msg buf : Z) (at_ t : Z) (s : xb) : res (Z * xb) :=
  if negb (msg =? 0) then s ← free msg s; Ok (-1, s)
  else
    b ← block_at buf s;
    '(_, stores) ← sscanf b (cstr "%d") [ARef at_];
    s ← free buf s;
    Ok (match stores with [(_, VNum v)] => sgn32 v | _ => t end, s).

(** [xenbus_watch_path] up to [xenbus_msg_reply]. *)
Definition xenbus_watch_path_begin (path token : list Z) (s : xb) : res (Z * list write_req * xb) :=
  reqs ← cstring_reqs [path; token];
  a ← find_watch token s;
  bug_on (negb (a =? 0));;
  let w := malloc (used s) 128 in
  if w =? 0 then Bug BAD_ACCESS
  else
    Ok (XS_WATCH, reqs,
        set_watches (w :: watch_list s) (<[w := Watch token path 0 0 (replicate 10 0) 0]> (watches s)) s).

(** [list_del(&watch->list)] and [free(watch)] *)
Definition remove_watch (a : Z) (s : xb) : res xb :=
  _ ← access (watches s !! a);
  Ok (set_watches (filter (fun b => b <> a) (watch_list s)) (delete a (watches s)) s).

(** Its rest: on an error the reply is freed although [errmsg] has freed it. *)
Definition xenbus_watch_path_end (token : list Z) (rep : Z) (s : xb) : res (Z * xb) :=
  '(msg, s) ← errmsg rep s;
  if negb (msg =? 0) then
    s ← free rep s;
    a ← find_watch token s;
    bug_on (a =? 0);;
    s ← remove_watch a s;
    Ok (msg, s)
  else Ok (0, s).

(** [xenbus_rm_watch] up to [xenbus_msg_reply], if there is such a watch, and its rest. *)
Definition xenbus_rm_watch_begin (token : list Z) (s : xb) : res (option (Z * Z * list write_req)) :=
  a ← find_watch token s;
  if a =? 0 then Ok None
  else
    w ← access (watches s !! a);
    reqs ← cstring_reqs [w_path w; w_token w];
    Ok (Some (a, XS_UNWATCH, reqs)).

Definition xenbus_rm_watch_end (a : Z) (s : xb) : res xb := remove_watch a s.

(** [xenbus_read_watch] between two calls of [schedule], for the watch at [a]: the path, or
    nothing when the thread [t] is blocked and calls [schedule]. *)
Definition xenbus_read_watch (t a : Z) (s : xb) : res (option Z * xb) :=
  w ← access (watches s !! a);
  let i := path_cons_idx w in
  if i <? path_prod_idx w then
    p ← elem (paths w) (Z.rem i MAX_PATHS);
    let w := Watch (w_token w) (w_path w) (path_prod_idx w) (sgn32 (i + 1)) (paths w) 0 in
    Ok (Some p, set_watches (watch_list s) (<[a := w]> (watches s)) s)
  else
    let w := Watch (w_token w) (w_path w) (path_prod_idx w) i (paths w) t in
    Ok (None, block t (set_watches (watch_list s) (<[a := w]> (watches s)) s)).

End Code.
