(* ===== verification/XenbusProps.v ===== *)
(** Properties of the store client: dispatch of the messages of the daemon, request
    identifiers, watches, and the operations of clients. *)
From S2P Require Import Prelude CString Printf ByteRing XenbusRing Xenbus.
From S2P Require Completion.
From Stdlib Require Import String.
From stdpp Require Import options.
Open Scope Z_scope.
Open Scope list_scope.
Local Abbreviation length := Datatypes.length.

(** What the allocator promises: NULL, or an address that is not in use. *)
Definition malloc_ok (malloc : gset Z -> Z -> Z) : Prop :=
  forall u size, malloc u size = 0 \/ (malloc u size <> 0 /\ malloc u size ∉ u).

Lemma malloc_fresh malloc s size :
  malloc_ok malloc -> let a := malloc (used s) size in a <> 0 -> heap s !! a = None /\ watches s !! a = None.
Proof.
  intros Hm a Ha. destruct (Hm (used s) size) as [|[_ Hn]]; [done|]. unfold used in Hn at 2.
  split; apply not_elem_of_dom; set_solver.
Qed.

Section Props.
Context {W : wire} {WO : wire_ok W}.
Set Default Proof Using "Type*".

(** ** Receiving *)

Lemma slots_split buf p n a b :
  0 <= n -> slots buf p n = a ++ b ->
  slots buf p (Z.of_nat (length a)) = a /\ slots buf (p + Z.of_nat (length a)) (n - Z.of_nat (length a)) = b.
Proof.
  intros Hn He. assert (Z.of_nat (length a) <= n) as Hl.
  { apply (f_equal length) in He. rewrite slots_length, length_app in He. lia. }
  replace n with (Z.of_nat (length a) + (n - Z.of_nat (length a))) in He by lia.
  rewrite slots_app in He by lia. apply app_inj_1 in He; [done|]. rewrite slots_length. lia.
Qed.

(** A message the daemon may send. *)
Definition msg_wf (m : xsd_sockmsg) (body : list Z) : Prop :=
  msg_range m /\ m_len m = Z.of_nat (length body).

Definition msg_bytes (m : xsd_sockmsg) (body : list Z) : list Z := enc_msg m ++ body.

Lemma msg_bytes_length m body :
  msg_wf m body -> Z.of_nat (length (msg_bytes m body)) = m_len m + msg_size.
Proof. intros [_ Hl]. unfold msg_bytes. rewrite length_app. pose proof (enc_length m). lia. Qed.

(** The parts of a ring whose next message is [m] with the body [body]. *)
Record next_msg (r : ring) (m : xsd_sockmsg) (body rest : list Z) : Prop := {
  nm_wf : ring_wf r;
  nm_msg : msg_wf m body;
  nm_queue : rsp_queue r = msg_bytes m body ++ rest
}.

Lemma next_msg_avail r m body rest :
  next_msg r m body rest -> m_len m + msg_size + Z.of_nat (length rest) = rsp_used r.
Proof.
  intros [_ Hm Hq]. apply (f_equal length) in Hq. rewrite length_app in Hq. pose proof (msg_bytes_length m body Hm).
  unfold rsp_queue in Hq. rewrite slots_length in Hq. assert (0 <= rsp_used r) by (apply wrap_range; lia). lia.
Qed.

Lemma next_msg_read r m body rest :
  next_msg r m body rest ->
  let off := MASK_XENSTORE_IDX (rsp_cons r) in
  memcpy_from_ring (rsp r) off msg_size = Ok (enc_msg m) /\
  memcpy_from_ring (rsp r) off (sgn32 (m_len m + msg_size)) = Ok (msg_bytes m body).
Proof.
  intros Hn. pose proof (next_msg_avail r m body rest Hn). destruct Hn as [Hwf Hm Hq].
  pose proof (wf_rsp_used r Hwf). pose proof (wf_rsp_cons r Hwf). pose proof size_bounds as [? _].
  pose proof msg_size_pos. pose proof (msg_bytes_length m body Hm) as Hl. pose proof (enc_length m) as He.
  destruct Hm as [Hr Hlen]. cbn zeta. rewrite mask_mod by lia. rewrite sgn_small by (destruct Hr; lia).
  unfold rsp_queue in Hq. assert (0 <= rsp_used r) by lia.
  destruct (slots_split _ _ (rsp_used r) _ _ ltac:(lia) Hq) as [Hm' _]. rewrite Hl in Hm'.
  rewrite !memcpy_from_ring_spec by (apply Hwf || lia). rewrite Hm'. split; [|done]. f_equal.
  unfold msg_bytes in Hm'. apply slots_split in Hm' as [Hm' _]; [|lia]. by rewrite He in Hm'.
Qed.

Lemma consume_queue r m body rest s :
  x_ring s = r -> next_msg r m body rest ->
  let r' := x_ring (consume (m_len m + msg_size) s) in
  ring_wf r' /\ rsp_queue r' = rest /\ req_queue r' = req_queue r /\ req_used r' = req_used r.
Proof.
  intros Hr Hn. pose proof (next_msg_avail r m body rest Hn) as Ha. destruct Hn as [Hwf Hm Hq].
  pose proof (wf_rsp_used r Hwf). pose proof (wf_rsp_cons r Hwf). pose proof (wf_rsp_prod r Hwf). pose proof size_bounds as [? _].
  pose proof msg_size_pos. pose proof (msg_bytes_length m body Hm) as Hl. destruct Hm as [Hrange Hlen].
  set (n := m_len m + msg_size) in *. cbn zeta. unfold consume. rewrite Hr. simpl.
  assert (rsp_used (Ring (req r) (rsp r) (req_cons r) (req_prod r) (wrap32 (rsp_cons r + n)) (rsp_prod r)) = rsp_used r - n) as Hu.
  { unfold rsp_used at 1. simpl. unfold wrap. rewrite Zminus_mod_idemp_r.
    replace (rsp_prod r - (rsp_cons r + n)) with (rsp_prod r - rsp_cons r - n) by lia.
    rewrite <- Zminus_mod_idemp_l. change ((rsp_prod r - rsp_cons r) mod 2 ^ 32) with (rsp_used r).
    apply Z.mod_small. destruct Hrange. lia. }
  splits.
  - destruct Hwf. constructor; simpl; try done; [apply wrap_range; lia|]. rewrite Hu. lia.
  - unfold rsp_queue. rewrite Hu. simpl. unfold rsp_queue in Hq. apply slots_split in Hq as [_ Hq]; [|lia].
    rewrite Hl in Hq. rewrite <- Hq. apply slots_congr, wrap32_mod_size.
  - done.
  - done.
Qed.

(** A reply: its block is stored for the thread that waits for it, and the thread woken. *)
Definition replied (id p : Z) (bytes : list Z) (n : Z) (s : xb) : xb :=
  let ri := nth (Z.to_nat id) (req_info s) (RI 0 [] 0) in
  wake_up (waitq ri) (consume n (set_req id (RI (in_use ri) (waitq ri) p) (set_heap (<[p := bytes]> (heap s)) s))).

Lemma receive_reply malloc s m body rest :
  next_msg (x_ring s) m body rest -> m_type m <> XS_WATCH_EVENT ->
  receive malloc s =
    if Z.of_nat (length (req_info s)) <=? m_req_id m then Bug BAD_ACCESS
    else if in_use (nth (Z.to_nat (m_req_id m)) (req_info s) (RI 0 [] 0)) =? 0 then Bug BUG_ON
    else let p := malloc (used s) (m_len m + msg_size) in
      if p =? 0 then Bug BAD_ACCESS
      else Ok (true, replied (m_req_id m) p (msg_bytes m body) (m_len m + msg_size) s).
Proof.
  intros Hn Ht. pose proof (next_msg_avail _ _ _ _ Hn) as Ha. destruct (next_msg_read _ _ _ _ Hn) as [Hh Hb].
  destruct Hn as [Hwf [(?&?&?&?) Hl] _]. pose proof msg_size_pos.
  unfold receive. fold (rsp_used (x_ring s)).
  rewrite (proj2 (Z.ltb_ge _ msg_size)) by lia. rewrite Hh. cbn [mbind res_bind].
  rewrite dec_enc by (unfold msg_range; tauto). rewrite (proj2 (Z.ltb_ge _ _)) by lia.
  rewrite (proj2 (Z.eqb_neq _ _)) by done.
  destruct (Z.leb_spec (Z.of_nat (length (req_info s))) (m_req_id m)).
  { unfold elem. rewrite (proj2 (Z.ltb_ge _ 0)) by lia. by rewrite lookup_ge_None_2 by lia. }
  rewrite (elem_nth _ _ (RI 0 [] 0)) by lia. cbn [mbind res_bind].
  destruct (in_use _ =? 0); [done|]. simpl bug_on. cbn [mbind res_bind]. rewrite Hb. cbn [mbind res_bind].
  unfold new_block. destruct (malloc _ _ =? 0); done.
Qed.

(** With no complete header or message on the ring nothing is done. *)
Lemma receive_incomplete malloc s :
  rsp_used (x_ring s) < msg_size -> receive malloc s = Ok (false, s).
Proof. intros Ha. unfold receive. fold (rsp_used (x_ring s)). by rewrite (proj2 (Z.ltb_lt _ _)) by lia. Qed.

End Props.

Section Ids.

(** ** Request identifiers *)

Definition live (l : list xenbus_req_info) : Z := Z.of_nat (length (filter (fun ri => in_use ri <> 0) l)).

Record ids_ok (s : xb) : Prop := {
  ids_length : Z.of_nat (length (req_info s)) = NR_REQS;
  ids_live : nr_live_reqs s = live (req_info s);
  ids_probe : 0 <= probe s < NR_REQS
}.

Definition id_free (s : xb) (id : Z) : Prop := exists ri, req_info s !! Z.to_nat id = Some ri /\ in_use ri = 0.

Lemma live_app l k : live (l ++ k) = live l + live k.
Proof. unfold live. rewrite filter_app, length_app. lia. Qed.

Lemma live_cons ri l : live (ri :: l) = (if in_use ri =? 0 then 0 else 1) + live l.
Proof.
  unfold live. destruct (Z.eqb_spec (in_use ri) 0) as [H|H].
  - rewrite filter_cons_False by lia. lia.
  - rewrite filter_cons_True by done. simpl. lia.
Qed.

Lemma live_insert l i ri ri' :
  l !! i = Some ri ->
  live (<[i := ri']> l) = live l - (if in_use ri =? 0 then 0 else 1) + (if in_use ri' =? 0 then 0 else 1).
Proof.
  intros Hi. rewrite <- (take_drop_middle l i ri Hi) at 2.
  rewrite insert_take_drop by (by eapply lookup_lt_Some). rewrite !live_app, !live_cons. lia.
Qed.

Lemma live_free l : live l < Z.of_nat (length l) -> exists i ri, l !! i = Some ri /\ in_use ri = 0.
Proof.
  induction l as [|ri l IH]; [unfold live; simpl; lia|]. rewrite live_cons. simpl length.
  destruct (Z.eqb_spec (in_use ri) 0); [by exists 0%nat, ri|].
  intros Hl. destruct IH as (i & r & ?); [lia|]. by exists (S i), r.
Qed.

(** The identifier [k] places after the probe. *)
Definition probed (s : xb) (k : Z) : Z := (probe s + k) mod NR_REQS.

Lemma probed_next s k : Z.rem (probed s k + 1) NR_REQS = probed s (k + 1).
Proof.
  unfold probed. rewrite Z.rem_mod_nonneg by (pose proof (Z.mod_pos_bound (probe s + k) NR_REQS); unfold NR_REQS in *; lia).
  rewrite Zplus_mod_idemp_l. f_equal. lia.
Qed.

Lemma probed_probe s k : ids_ok s -> 0 <= k < NR_REQS -> probed s k = probe s -> k = 0.
Proof.
  intros [_ _ Hp] Hk He. unfold probed, NR_REQS in *.
  destruct (decide (probe s + k < 32)); [rewrite Z.mod_small in He; lia|].
  rewrite <- (Z_mod_plus_full _ (-1)), Z.mod_small in He; lia.
Qed.

(** The search stops at the first free identifier from the probe on. *)
Lemma probe_loop_spec fuel s j d :
  ids_ok s -> 0 <= j <= d -> d < NR_REQS -> d - j < Z.of_nat fuel -> id_free s (probed s d) ->
  exists k, j <= k <= d /\ probe_loop fuel (probed s j) s = Ok (probed s k) /\ id_free s (probed s k) /\
    forall i, j <= i < k -> ~ id_free s (probed s i).
Proof.
  revert j. induction fuel as [|fuel IH]; intros j Hok Hj Hd Hf Hfree; [lia|]. simpl.
  assert (0 <= probed s j < Z.of_nat (length (req_info s))) as Hr.
  { rewrite (ids_length s Hok). apply Z.mod_pos_bound. done. }
  destruct (lookup_lt_is_Some_2 (req_info s) (Z.to_nat (probed s j))) as [ri Hri]; [lia|].
  unfold elem. rewrite (proj2 (Z.ltb_ge _ 0)) by lia. rewrite Hri. cbn [access mbind res_bind].
  destruct (Z.eqb_spec (in_use ri) 0) as [H0|H0].
  { exists j. splits; [lia|lia|done|by exists ri|lia]. }
  assert (j <> d) by (intros ->; destruct Hfree as (? & ? & ?); simplify_eq).
  rewrite probed_next. destruct (Z.eqb_spec (probed s (j + 1)) (probe s)) as [He|_].
  { apply probed_probe in He; [lia|done|lia]. }
  cbn [bug_on mbind res_bind]. destruct (IH (j + 1)) as (k & Hk & -> & Hfk & Hbefore); [done|lia..|done|].
  exists k. splits; [lia|lia|done|done|]. intros i Hi. destruct (decide (i = j)) as [->|]; [|apply Hbefore; lia].
  intros (ri' & ? & ?). simplify_eq.
Qed.

Lemma allocate_spec s :
  ids_ok s -> nr_live_reqs s < NR_REQS ->
  exists k, 0 <= k < NR_REQS /\ let id := probed s k in
    id_free s id /\ (forall i, 0 <= i < k -> ~ id_free s (probed s i)) /\
    exists rep s', allocate_xenbus_id s = Ok (Some id, s') /\
      s' = set_reqs (<[Z.to_nat id := RI 1 [] rep]> (req_info s)) (nr_live_reqs s + 1) (probed s (k + 1)) s /\
      ids_ok s'.
Proof.
  intros Hok Hn. destruct (live_free (req_info s)) as (f & rf & Hf & Hf0).
  { rewrite <- (ids_live s Hok), (ids_length s Hok). done. }
  pose proof (lookup_lt_Some _ _ _ Hf) as Hfl. pose proof (ids_length s Hok) as Hlen. pose proof (ids_probe s Hok) as Hp.
  set (d := (Z.of_nat f - probe s) mod NR_REQS).
  assert (probed s d = Z.of_nat f) as Hd.
  { unfold probed, d. rewrite Zplus_mod_idemp_r, Z.mod_small; lia. }
  destruct (probe_loop_spec (Z.to_nat NR_REQS) s 0 d) as (k & Hk & Hl & (ri & Hri & Hri0) & Hb);
    [done|pose proof (Z.mod_pos_bound (Z.of_nat f - probe s) NR_REQS); unfold NR_REQS in *; lia..| |].
  { exists rf. by rewrite Hd, Nat2Z.id. }
  assert (0 <= d < NR_REQS) by (apply Z.mod_pos_bound; done).
  exists k. split; [lia|]. assert (probed s 0 = probe s) as Hp0 by (unfold probed; rewrite Z.add_0_r; apply Z.mod_small; done).
  cbn zeta. splits; [by exists ri|intros; apply Hb; lia|].
  exists (reply ri), (set_reqs (<[Z.to_nat (probed s k) := RI 1 [] (reply ri)]> (req_info s)) (nr_live_reqs s + 1) (probed s (k + 1)) s).
  unfold allocate_xenbus_id. rewrite (proj2 (Z.ltb_lt _ _)) by done. rewrite <- Hp0, Hl. cbn [mbind res_bind].
  assert (0 <= probed s k) by (apply Z.mod_pos_bound; done).
  unfold elem. rewrite (proj2 (Z.ltb_ge _ 0)) by lia. rewrite Hri. cbn [access mbind res_bind]. rewrite probed_next.
  splits; [done..|]. constructor; simpl.
  - by rewrite length_insert.
  - rewrite (live_insert _ _ ri) by done. rewrite (ids_live s Hok), Hri0. simpl. lia.
  - apply Z.mod_pos_bound. done.
Qed.

(** The state after an identifier was released. *)
Definition released (id : Z) (s : xb) : xb :=
  let ri := nth (Z.to_nat id) (req_info s) (RI 0 [] 0) in
  let n := nr_live_reqs s - 1 in
  let s := set_reqs (<[Z.to_nat id := RI 0 (waitq ri) (reply ri)]> (req_info s)) n (probe s) s in
  if (n =? NR_REQS - 1) || (n =? 0) then wake_up (req_wq s) s else s.

Lemma wake_up_fields l s :
  x_ring (wake_up l s) = x_ring s /\ req_info (wake_up l s) = req_info s /\
  nr_live_reqs (wake_up l s) = nr_live_reqs s /\ probe (wake_up l s) = probe s /\
  req_wq (wake_up l s) = req_wq s /\ watch_list (wake_up l s) = watch_list s /\
  watches (wake_up l s) = watches s /\ heap (wake_up l s) = heap s /\
  (forall t, t ∈ blocked (wake_up l s) <-> t ∈ blocked s /\ t ∉ l).
Proof.
  unfold wake_up. revert s. induction l as [|u l IH]; intros s; simpl.
  { splits; try done. set_solver. }
  destruct (IH (wake u s)) as (-> & -> & -> & -> & -> & -> & -> & -> & Hb). splits; try done.
  intros t. rewrite Hb. simpl. set_solver.
Qed.

Lemma released_live id s : nr_live_reqs (released id s) = nr_live_reqs s - 1.
Proof.
  unfold released. set (s1 := set_reqs _ _ _ s). destruct (_ || _); [|done].
  by destruct (wake_up_fields (req_wq s1) s1) as (_ & _ & -> & _).
Qed.

Lemma release_spec id s ri :
  ids_ok s -> 0 <= id -> req_info s !! Z.to_nat id = Some ri -> in_use ri <> 0 ->
  release_xenbus_id id s = Ok (released id s) /\ ids_ok (released id s).
Proof.
  intros Hok Hid Hri Hu. unfold release_xenbus_id, elem. rewrite (proj2 (Z.ltb_ge _ 0)) by lia. rewrite Hri.
  cbn [access mbind res_bind]. rewrite (proj2 (Z.eqb_neq (in_use ri) 0)) by done. cbn [bug_on mbind res_bind].
  unfold released. rewrite (nth_lookup_Some _ _ _ _ Hri). cbn zeta. split; [done|].
  set (s1 := set_reqs _ _ _ s). assert (ids_ok s1) as Hs1.
  { constructor; simpl; [rewrite length_insert; apply Hok| |apply Hok].
    rewrite (live_insert _ _ ri) by done. rewrite (ids_live s Hok), (proj2 (Z.eqb_neq _ _)) by done. simpl. lia. }
  destruct (_ || _); [|done]. destruct (wake_up_fields (req_wq s1) s1) as (_ & Hi & Hn & Hp & _).
  destruct Hs1. constructor; by rewrite ?Hi, ?Hn, ?Hp.
Qed.
End Ids.

Section Watches.
Context {W : wire} {WO : wire_ok W} (malloc : gset Z -> Z -> Z).
Set Default Proof Using "Type*".

(** ** Watches *)

(** The pointers to the paths not yet read, oldest first. *)
Definition path_at (l : list Z) (i : Z) : Z := nth (Z.to_nat (i mod MAX_PATHS)) l 0.
Definition unread (w : xenbus_watch) : list Z :=
  path_at (paths w) <$> seqZ (path_cons_idx w) (path_prod_idx w - path_cons_idx w).

Record watch_ok (w : xenbus_watch) : Prop := {
  wo_paths : Z.of_nat (length (paths w)) = MAX_PATHS;
  wo_cons : 0 <= path_cons_idx w;
  wo_prod : path_cons_idx w <= path_prod_idx w < 2 ^ 31 - 1
}.

Definition pushed (w : xenbus_watch) (d : Z) : xenbus_watch :=
  Watch (w_token w) (w_path w) (path_prod_idx w + 1) (path_cons_idx w)
    (<[Z.to_nat (path_prod_idx w mod MAX_PATHS) := d]> (paths w)) (w_thread w).

Lemma path_at_insert l i j d :
  Z.of_nat (length l) = MAX_PATHS ->
  path_at (<[Z.to_nat (i mod MAX_PATHS) := d]> l) j = if j mod MAX_PATHS =? i mod MAX_PATHS then d else path_at l j.
Proof.
  intros Hl. unfold path_at. pose proof (Z.mod_pos_bound i MAX_PATHS eq_refl). pose proof (Z.mod_pos_bound j MAX_PATHS eq_refl).
  rewrite !nth_lookup. destruct (Z.eqb_spec (j mod MAX_PATHS) (i mod MAX_PATHS)) as [->|].
  - rewrite list_lookup_insert_eq by lia. done.
  - rewrite list_lookup_insert_ne by lia. done.
Qed.

Lemma paths_before l i d a n :
  Z.of_nat (length l) = MAX_PATHS -> a + n <= i < a + MAX_PATHS ->
  path_at (<[Z.to_nat (i mod MAX_PATHS) := d]> l) <$> seqZ a n = path_at l <$> seqZ a n.
Proof.
  intros Hl Hi. apply list_fmap_ext. intros k x Hx. apply lookup_seqZ in Hx as [-> Hk].
  rewrite path_at_insert by done. destruct (Z.eqb_spec ((a + Z.of_nat k) mod MAX_PATHS) (i mod MAX_PATHS)) as [He|]; [|done].
  exfalso. assert ((i - (a + Z.of_nat k)) mod MAX_PATHS = 0) as Hz.
  { rewrite Zminus_mod, He, Z.sub_diag. done. }
  rewrite Z.mod_small in Hz by lia. lia.
Qed.

(** A path pushed on at most nine others comes last; the eleventh also takes the place of
    the oldest. *)
Lemma unread_pushed w d :
  watch_ok w -> path_prod_idx w - path_cons_idx w < MAX_PATHS -> unread (pushed w d) = unread w ++ [d].
Proof.
  intros [Hl Hc Hp] Hn. unfold unread. simpl.
  replace (path_prod_idx w + 1 - path_cons_idx w) with (path_prod_idx w - path_cons_idx w + 1) by lia.
  rewrite seqZ_app, fmap_app by lia. rewrite paths_before by lia. f_equal. simpl. rewrite path_at_insert by done.
  replace (path_cons_idx w + (path_prod_idx w - path_cons_idx w)) with (path_prod_idx w) by lia. by rewrite Z.eqb_refl.
Qed.

Lemma unread_overrun w d :
  watch_ok w -> path_prod_idx w - path_cons_idx w = MAX_PATHS -> unread (pushed w d) = d :: tail (unread w) ++ [d].
Proof.
  intros [Hl Hc Hp] Hn. unfold unread. simpl paths. simpl path_cons_idx. simpl path_prod_idx.
  set (c := path_cons_idx w) in *. replace (path_prod_idx w) with (c + MAX_PATHS) in * by lia.
  assert (forall n, seqZ c (1 + n) = c :: seqZ (c + 1) n \/ n < 0) as Hs.
  { intros n. destruct (decide (n < 0)); [by right|left]. by rewrite seqZ_app by lia. }
  replace (c + MAX_PATHS + 1 - c) with (1 + (9 + 1)) by (unfold MAX_PATHS; lia).
  replace (c + MAX_PATHS - c) with (1 + 9) by (unfold MAX_PATHS; lia).
  destruct (Hs (9 + 1)) as [->|?]; [|lia]. destruct (Hs 9) as [->|?]; [|lia]. cbn [tail fmap list_fmap].
  rewrite path_at_insert by done.
  assert ((c + MAX_PATHS) mod MAX_PATHS = c mod MAX_PATHS) as He by (rewrite <- (Z_mod_plus_full c 1); f_equal; lia).
  rewrite He, Z.eqb_refl, <- He. f_equal.
  rewrite seqZ_app, fmap_app by lia. rewrite (paths_before _ (c + MAX_PATHS)) by (done || unfold MAX_PATHS; lia).
  f_equal. simpl. rewrite path_at_insert by done.
  replace (c + 1 + 9) with (c + MAX_PATHS) by (unfold MAX_PATHS; lia). by rewrite Z.eqb_refl.
Qed.

Lemma strdup_ptr_spec x r s :
  nonzero x -> Z.of_nat (length x) + 1 < 2 ^ 31 ->
  let a := malloc (used s) (Z.of_nat (length x) + 1) in
  strdup_ptr malloc (x ++ 0 :: r) s = Ok (if a =? 0 then (0, s) else (a, set_heap (<[a := x ++ [0]]> (heap s)) s)).
Proof.
  intros Hx Hl. cbn zeta. unfold strdup_ptr, strdup. rewrite strlen_spec by done. cbn [mbind res_bind].
  rewrite sgn_small, wrap_small by lia.
  destruct (Z.eqb_spec (malloc (used s) (Z.of_nat (length x) + 1)) 0) as [->|]; [done|]. rewrite memcpy_spec by (rewrite ?length_replicate, ?length_app; simpl; lia).
  cbn [mbind res_bind]. do 4 f_equal. rewrite drop_ge by (rewrite length_replicate; lia). rewrite app_nil_r.
  replace (x ++ 0 :: r) with ((x ++ [0]) ++ r) by by rewrite <- app_assoc.
  f_equal. apply take_app_length'. rewrite length_app. simpl. lia.
Qed.

(** The heap after a string was duplicated. *)
Definition strdup_heap (x : list Z) (s : xb) : gmap Z (list Z) :=
  let a := malloc (used s) (Z.of_nat (length x) + 1) in
  if a =? 0 then heap s else <[a := x ++ [0]]> (heap s).

Lemma watch_event_spec p hdr path tok s a w :
  Z.of_nat (length hdr) = msg_size -> nonzero path -> Z.of_nat (length path) + 1 < 2 ^ 31 ->
  find_watch tok s = Ok a -> a <> 0 -> watches s !! a = Some w -> watch_ok w ->
  let d := malloc (used s) (Z.of_nat (length path) + 1) in
  let s' := set_watches (watch_list s) (<[a := pushed w d]> (watches s)) (set_heap (strdup_heap path s) s) in
  watch_event malloc p (hdr ++ path ++ 0 :: tok) s =
    if MAX_PATHS <? path_prod_idx w - path_cons_idx w then Bug BUG_ON
    else Ok (if w_thread w =? 0 then s' else wake (w_thread w) s').
Proof.
  intros Hh Hx Hl Hf Ha Hw [Hp Hc Hpr]. cbn zeta. unfold watch_event.
  rewrite drop_app_length' by lia. rewrite strlen_spec by done. cbn [mbind res_bind].
  replace (drop (Z.to_nat (Z.of_nat (length path) + 1)) (path ++ 0 :: tok)) with tok.
  2: { replace (path ++ 0 :: tok) with ((path ++ [0]) ++ tok) by by rewrite <- app_assoc.
       symmetry. apply drop_app_length'. rewrite length_app. simpl. lia. }
  rewrite Hf. cbn [mbind res_bind]. rewrite (proj2 (Z.eqb_neq a 0)) by done. rewrite Hw. cbn [access mbind res_bind].
  rewrite !sgn_small by lia. destruct (MAX_PATHS <? _); [done|]. cbn [bug_on mbind res_bind].
  rewrite strdup_ptr_spec by done. cbn [mbind res_bind]. rewrite Z.rem_mod_nonneg by (unfold MAX_PATHS; lia).
  assert (0 <= path_prod_idx w mod MAX_PATHS < Z.of_nat (length (paths w))) as Hi by (rewrite Hp; apply Z.mod_pos_bound; done).
  unfold strdup_heap, pushed. destruct (Z.eqb_spec (malloc (used s) (Z.of_nat (length path) + 1)) 0) as [H0|H0];
    cbn [mbind res_bind]; rewrite (elem_nth _ _ 0) by done; cbn [mbind res_bind]; simpl w_thread;
    rewrite ?H0; destruct s; done.
Qed.

(** Reading takes the oldest path, or blocks the thread. *)
Definition taken (w : xenbus_watch) : xenbus_watch :=
  Watch (w_token w) (w_path w) (path_prod_idx w) (path_cons_idx w + 1) (paths w) 0.
Definition reader (w : xenbus_watch) (t : Z) : xenbus_watch :=
  Watch (w_token w) (w_path w) (path_prod_idx w) (path_cons_idx w) (paths w) t.

Lemma read_watch_spec t a s w :
  watches s !! a = Some w -> watch_ok w ->
  let upd w := set_watches (watch_list s) (<[a := w]> (watches s)) s in
  xenbus_read_watch t a s =
    match unread w with
    | p :: _ => Ok (Some p, upd (taken w))
    | [] => Ok (None, block t (upd (reader w t)))
    end /\
  unread (taken w) = tail (unread w).
Proof.
  intros Hw [Hp Hc Hpr]. cbn zeta. unfold xenbus_read_watch. rewrite Hw. cbn [access mbind res_bind].
  unfold unread. simpl. destruct (Z.ltb_spec (path_cons_idx w) (path_prod_idx w)) as [Hlt|Hge].
  - replace (path_prod_idx w - path_cons_idx w) with (1 + (path_prod_idx w - (path_cons_idx w + 1))) by lia.
    rewrite seqZ_app by lia. simpl. rewrite Z.rem_mod_nonneg by (unfold MAX_PATHS; lia).
    rewrite (elem_nth _ _ 0) by (rewrite Hp; apply Z.mod_pos_bound; done). cbn [mbind res_bind].
    rewrite sgn_small by lia. done.
  - rewrite !seqZ_nil by lia. done.
Qed.
End Watches.

Lemma Forall2_in_impl {A B} (P Q : A -> B -> Prop) l k :
  Forall2 P l k -> (forall x y, x ∈ l -> P x y -> Q x y) -> Forall2 Q l k.
Proof.
  induction 1 as [|x y l k Hxy Hlk IH]; intros H; constructor; [apply H; [by left|done]|].
  apply IH. intros x' y' Hx'. apply H. by right.
Qed.

Section Clients.
Context {W : wire} {WO : wire_ok W} (malloc : gset Z -> Z -> Z).
Hypothesis Hmalloc : malloc_ok malloc.
Set Default Proof Using "Type*".

(** ** Clients *)

(** The block of a reply. *)
Record reply_at (rep : Z) (m : xsd_sockmsg) (body : list Z) (s : xb) : Prop := {
  ra_ptr : rep <> 0;
  ra_block : heap s !! rep = Some (msg_bytes m body);
  ra_msg : msg_wf m body;
  ra_len : m_len m < 2 ^ 31
}.

Lemma reply_msg_of m body : msg_wf m body -> msg_of (msg_bytes m body) = Ok m.
Proof.
  intros [Hr _]. pose proof msg_size_pos. pose proof (enc_length m) as He. unfold msg_of, msg_bytes.
  rewrite read_bytes_ok by (rewrite ?length_app; lia). cbn [mbind res_bind]. rewrite drop_0.
  rewrite take_app_length' by lia. by rewrite dec_enc.
Qed.

Lemma reply_read m body : msg_wf m body -> read_bytes (msg_bytes m body) msg_size (m_len m) = Ok body.
Proof.
  intros [(?&?&?&?) Hl]. pose proof msg_size_pos. pose proof (enc_length m) as He. unfold msg_bytes.
  rewrite read_bytes_ok by (rewrite ?length_app; lia). rewrite drop_app_length' by lia. by rewrite take_ge by lia.
Qed.

Lemma reply_string_spec rep m body s : reply_at rep m body s -> reply_string (msg_bytes m body) m = Ok (body ++ [0]).
Proof.
  intros [_ _ Hm Hl]. unfold reply_string. rewrite reply_read by done. cbn [mbind res_bind].
  destruct Hm as [(?&?&?&?) _]. rewrite wrap_small by lia. by rewrite (proj2 (Z.ltb_lt _ _)) by lia.
Qed.

(** [errmsg]: an error is copied out of its reply, which is freed. *)
Lemma errmsg_spec rep m body s :
  reply_at rep m body s ->
  errmsg malloc rep s =
    if m_type m =? XS_ERROR then
      let r := malloc (used s) (m_len m + 1) in
      if r =? 0 then Bug BAD_ACCESS else Ok (r, set_heap (delete rep (<[r := body ++ [0]]> (heap s))) s)
    else Ok (0, s).
Proof.
  intros Hra. pose proof Hra as [Hp Hb Hm Hl]. unfold errmsg, block_at. rewrite (proj2 (Z.eqb_neq rep 0)) by done.
  rewrite Hb. cbn [access mbind res_bind]. rewrite reply_msg_of by done. cbn [mbind res_bind].
  destruct (m_type m =? XS_ERROR); [|done]. cbn [negb]. erewrite reply_string_spec by done. cbn [mbind res_bind].
  unfold new_block. set (r := malloc _ _). destruct (Z.eqb_spec r 0) as [|Hr]; [done|]. cbn [mbind res_bind].
  unfold free. rewrite (proj2 (Z.eqb_neq rep 0)) by done. simpl heap.
  destruct (malloc_fresh malloc s (m_len m + 1)) as [Hf _]; [done..|]. fold r in Hf.
  rewrite lookup_insert_ne by congruence. by rewrite Hb.
Qed.

(** [guk_xenbus_read] and [xenbus_get_perms]: exactly one new block, the reply is freed. *)
Lemma value_end_spec rep m body s :
  reply_at rep m body s ->
  let r := malloc (used s) (m_len m + 1) in
  value_end malloc rep s =
    if r =? 0 then Bug BAD_ACCESS
    else let s' := set_heap (delete rep (<[r := body ++ [0]]> (heap s))) s in
      Ok (if m_type m =? XS_ERROR then (r, 0, s') else (0, r, s')).
Proof.
  intros Hra. pose proof Hra as [Hp Hb Hm Hl]. cbn zeta. unfold value_end. rewrite (errmsg_spec rep m body) by done.
  cbn zeta. set (r := malloc _ _). destruct (m_type m =? XS_ERROR).
  { destruct (Z.eqb_spec r 0); [done|]. cbn [mbind res_bind]. by rewrite (proj2 (Z.eqb_neq r 0)) by done. }
  cbn [mbind res_bind negb]. change (0 =? 0) with true. cbn [negb]. unfold block_at. rewrite Hb. cbn [access mbind res_bind].
  rewrite reply_msg_of by done. cbn [mbind res_bind]. erewrite reply_string_spec by done. cbn [mbind res_bind].
  unfold new_block. fold r. destruct (Z.eqb_spec r 0) as [|Hr]; [done|]. cbn [mbind res_bind].
  unfold free. rewrite (proj2 (Z.eqb_neq rep 0)) by done. simpl heap.
  destruct (malloc_fresh malloc s (m_len m + 1)) as [Hf _]; [done..|]. fold r in Hf.
  rewrite lookup_insert_ne by congruence. by rewrite Hb.
Qed.

(** [xenbus_watch_path] frees the reply of an error twice: it never returns. *)
Lemma watch_path_error token rep m body s :
  reply_at rep m body s -> m_type m = XS_ERROR ->
  xenbus_watch_path_end malloc token rep s =
    if malloc (used s) (m_len m + 1) =? 0 then Bug BAD_ACCESS else Bug BUG_ON.
Proof.
  intros Hra Ht. pose proof Hra as [Hp Hb Hm Hl]. unfold xenbus_watch_path_end. rewrite (errmsg_spec rep m body) by done.
  rewrite (proj2 (Z.eqb_eq _ _) Ht). cbn zeta. set (r := malloc _ _). destruct (Z.eqb_spec r 0) as [|Hr]; [done|].
  cbn [mbind res_bind]. rewrite (proj2 (Z.eqb_neq r 0)) by done. cbn [negb]. unfold free.
  rewrite (proj2 (Z.eqb_neq rep 0)) by done. simpl heap. by rewrite lookup_delete_eq.
Qed.

(** The strings of a directory listing. *)
Definition strings (l : list (list Z)) : list Z := mjoin ((fun x => x ++ [0]) <$> l).

Record listed (ptrs : list Z) (l : list (list Z)) (h h' : gmap Z (list Z)) : Prop := {
  li_strings : Forall2 (fun p x => h' !! p = Some (x ++ [0])) ptrs l;
  li_nodup : NoDup ptrs;
  li_fresh p : p ∈ ptrs -> h !! p = None;
  li_frame a : a ∉ ptrs -> h' !! a = h !! a
}.

Lemma ls_loop_spec l r s :
  (forall u size, malloc u size <> 0) -> Forall nonzero l -> Z.of_nat (length (strings l)) < 2 ^ 31 ->
  exists ptrs h', ls_loop malloc (length l) (strings l ++ r) s = Ok (ptrs, set_heap h' s) /\ listed ptrs l (heap s) h'.
Proof.
  intros Htot Hnz. revert s. induction Hnz as [|x l Hx Hnz IH]; intros s Hlen.
  { exists [], (heap s). split; [by destruct s|]. split; try done; [constructor|]. intros p Hp. by apply elem_of_nil in Hp. }
  unfold strings in *. csimpl in *. rewrite !length_app in Hlen. simpl in Hlen.
  replace (((x ++ [0]) ++ mjoin ((fun x => x ++ [0]) <$> l)) ++ r)
    with (x ++ 0 :: (mjoin ((fun x => x ++ [0]) <$> l) ++ r)) by by rewrite <- !app_assoc.
  rewrite strlen_spec by done. cbn [mbind res_bind]. rewrite sgn_small by lia.
  set (rest := mjoin _ ++ r). unfold new_block. set (a := malloc _ _). pose proof (Htot (used s) (Z.of_nat (length x) + 1)) as Ha.
  fold a in Ha. rewrite (proj2 (Z.eqb_neq a 0)) by done. cbn [mbind res_bind].
  replace (x ++ 0 :: rest) with ((x ++ [0]) ++ rest) by by rewrite <- app_assoc.
  rewrite take_app_length', drop_app_length' by (rewrite length_app; simpl; lia).
  destruct (malloc_fresh malloc s _ Hmalloc Ha) as [Hf _]. fold a in Hf.
  subst rest. destruct (IH (set_heap (<[a := x ++ [0]]> (heap s)) s)) as (ptrs & h' & -> & [H1 H2 H3 H4]); [lia|]. simpl heap in *.
  cbn [mbind res_bind]. assert (a ∉ ptrs) as Hn by (intros Hin; apply H3 in Hin; by rewrite lookup_insert_eq in Hin).
  exists (a :: ptrs), h'. split; [done|]. constructor.
  - constructor; [|done]. rewrite H4 by done. by rewrite lookup_insert_eq.
  - by constructor.
  - intros p [-> | Hp]%elem_of_cons; [done|]. pose proof (H3 p Hp) as Hp'. rewrite lookup_insert_ne in Hp'; [done|]. intros ->. done.
  - intros b Hb. apply not_elem_of_cons in Hb as [Hb1 Hb2]. rewrite H4 by done. by rewrite lookup_insert_ne.
Qed.

Lemma strings_zeros l : Forall nonzero l -> length (filter (fun c => c = 0) (strings l)) = length l.
Proof.
  intros Hl. induction Hl as [|x l Hx Hl IH]; [done|]. unfold strings in *. csimpl.
  rewrite !filter_app, !length_app, IH. simpl.
  replace (filter (fun c => c = 0) x) with (@nil Z); [done|]. symmetry.
  induction Hx as [|c x Hc Hx IHx]; [done|]. rewrite filter_cons_False by lia. done.
Qed.

(** [xenbus_ls]: the strings of the reply, in order. *)
Lemma ls_end_spec rep m l s :
  (forall u size, malloc u size <> 0) -> Forall nonzero l -> reply_at rep m (strings l) s -> m_type m <> XS_ERROR ->
  exists arr ptrs h h', xenbus_ls_end malloc rep s = Ok (0, arr, set_heap h s) /\
    heap s !! arr = None /\ listed ptrs l (<[arr := []]> (heap s)) h' /\
    h = delete rep (<[arr := ptrs ++ [0]]> h').
Proof.
  intros Htot Hnz Hra Ht. pose proof Hra as [Hp Hb Hm Hl]. unfold xenbus_ls_end. rewrite (errmsg_spec rep m (strings l)) by done.
  rewrite (proj2 (Z.eqb_neq _ _) Ht). cbn [mbind res_bind]. change (0 =? 0) with true. cbn [negb].
  unfold block_at. rewrite Hb. cbn [access mbind res_bind]. rewrite reply_msg_of by done. cbn [mbind res_bind].
  rewrite reply_read by done. cbn [mbind res_bind]. cbn zeta. rewrite strings_zeros by done.
  unfold new_block at 1. set (arr := malloc _ _). pose proof (Htot (used s) (8 * (Z.of_nat (length l) + 1))) as Ha.
  fold arr in Ha. rewrite (proj2 (Z.eqb_neq arr 0)) by done. cbn [mbind res_bind].
  destruct (malloc_fresh malloc s _ Hmalloc Ha) as [Hf _]. fold arr in Hf.
  destruct Hm as [Hr Hlen]. pose proof (enc_length m) as He.
  assert (drop (Z.to_nat msg_size) (msg_bytes m (strings l)) = strings l ++ []) as ->.
  { unfold msg_bytes. rewrite app_nil_r. apply drop_app_length'. lia. }
  destruct (ls_loop_spec l [] (set_heap (<[arr := []]> (heap s)) s)) as (ptrs & h' & -> & Hli); [done|done|lia|].
  simpl heap in *. cbn [mbind res_bind]. unfold free. rewrite (proj2 (Z.eqb_neq rep 0)) by done. simpl heap.
  assert (rep <> arr) as Hne by congruence.
  assert (rep ∉ ptrs) as Hni.
  { intros Hin. apply (li_fresh _ _ _ _ Hli) in Hin. rewrite lookup_insert_ne in Hin by done. congruence. }
  rewrite lookup_insert_ne by done. rewrite (li_frame _ _ _ _ Hli) by done. rewrite lookup_insert_ne by done. rewrite Hb.
  exists arr, ptrs, (delete rep (<[arr := ptrs ++ [0]]> h')), h'. done.
Qed.
End Clients.

(** ** The properties *)

Section Theorems.
Context {W : wire} {WO : wire_ok W}.
Set Default Proof Using "Type*".

(** C18: [xb_write] on a well-formed ring, for any requests whose lengths are within their
    objects: a message longer than the ring stops; with room on the ring the header and the
    data are appended in one piece to the bytes not yet consumed, across the end of the ring if
    need be, reading as many bytes from the old producer index gives the message back, and
    nothing else changes - except when the last test, on 32-bit indices, compares a wrapped
    limit with an index that has not wrapped, which stops. *)
Theorem xb_write_transports type req_id trans_id reqs w1 w2 w3 r :
  ring_wf r -> Forall req_ok reqs ->
  let msg := message type req_id trans_id reqs in
  let n := Z.of_nat (length msg) in
  n < 2 ^ 31 ->
  (XENSTORE_RING_SIZE < n -> xb_write type req_id trans_id reqs w1 w2 w3 r = Bug BUG_ON) /\
  (req_used r + n <= XENSTORE_RING_SIZE ->
   if (2 ^ 32 <=? req_cons r + XENSTORE_RING_SIZE) && (req_cons r + req_used r + n <? 2 ^ 32)
   then xb_write type req_id trans_id reqs w1 w2 w3 r = Bug BUG_ON
   else exists r', xb_write type req_id trans_id reqs w1 w2 w3 r = Ok (false, r') /\ ring_wf r' /\
     req_queue r' = req_queue r ++ msg /\
     memcpy_from_ring (req r') (MASK_XENSTORE_IDX (req_prod r)) n = Ok msg /\
     req_prod r' = wrap32 (req_prod r + n) /\ req_cons r' = req_cons r /\
     rsp_queue r' = rsp_queue r).
Proof.
  intros Hwf Hok msg n Hn. destruct (xb_write_spec type req_id trans_id reqs w1 w2 w3 r Hwf Hok Hn) as [Hlong Hsp].
  split; [exact Hlong|]. intros Hs. specialize (Hsp Hs). fold (index_test_fails r n). fold msg n in Hsp.
  destruct (index_test_fails r n); [done|]. destruct Hsp as (buf & Hx & Hwf' & Hq). exists (sent r buf n).
  splits; try done. pose proof (req_used_bounds r). pose proof (wf_req_prod r Hwf). pose proof (wf_req_cons r Hwf).
  unfold req_queue in Hq at 1. rewrite sent_used in Hq by (done || lia).
  apply slots_split in Hq as [_ Hq]; [|lia]. unfold req_queue in Hq. rewrite slots_length in Hq.
  rewrite mask_mod by lia. rewrite memcpy_from_ring_spec by (apply Hwf' || lia). f_equal. rewrite <- Hq.
  simpl req_cons. replace (req_used r + n - Z.of_nat (Z.to_nat (req_used r))) with n by lia.
  apply slots_congr. rewrite (prod_used r) by done. rewrite wrap32_mod_size. f_equal. lia.
Qed.

(** Request identifiers: while fewer than 32 requests are live, [allocate_xenbus_id]
    returns the first identifier from the probe on that is not in use, stopping on none of its
    assertions, and releasing it again gives back the count; with 32 live requests it waits. *)
Lemma identifiers_first_free s :
  ids_ok s ->
  if nr_live_reqs s <? NR_REQS then
    exists k id s', 0 <= k < NR_REQS /\ id = (probe s + k) mod NR_REQS /\
      allocate_xenbus_id s = Ok (Some id, s') /\ id_free s id /\ ~ id_free s' id /\
      (forall i, 0 <= i < k -> ~ id_free s ((probe s + i) mod NR_REQS)) /\
      (forall id', 0 <= id' -> id' <> id -> id_free s' id' <-> id_free s id') /\ ids_ok s' /\
      exists s'', release_xenbus_id id s' = Ok s'' /\ ids_ok s'' /\ nr_live_reqs s'' = nr_live_reqs s
  else allocate_xenbus_id s = Ok (None, s).
Proof.
  intros Hok. destruct (Z.ltb_spec (nr_live_reqs s) NR_REQS) as [Hlt|Hge].
  2: { unfold allocate_xenbus_id. by rewrite (proj2 (Z.ltb_ge _ _)) by lia. }
  destruct (allocate_spec s Hok Hlt) as (k & Hk & Hfree & Hb & rep & s' & Ha & Hs' & Hok').
  set (id := probed s k) in *. assert (0 <= id) by (apply Z.mod_pos_bound; done).
  destruct Hfree as (ri & Hri & Hz). assert (req_info s' !! Z.to_nat id = Some (RI 1 [] rep)) as Hi.
  { rewrite Hs'. simpl. apply list_lookup_insert_eq. by eapply lookup_lt_Some. }
  destruct (release_spec id s' _ Hok' ltac:(lia) Hi ltac:(done)) as [Hrel Hok''].
  exists k, id, s'. split; [exact Hk|]. split; [done|]. split; [exact Ha|]. split; [by exists ri|]. split.
  { intros (ri' & Hri' & Hz'). rewrite Hi in Hri'. by injection Hri' as <-. }
  split; [exact Hb|]. split.
  { intros id' Hid' Hne. unfold id_free. rewrite Hs'. simpl. by rewrite list_lookup_insert_ne by lia. }
  split; [exact Hok'|]. exists (released id s'). split; [exact Hrel|]. split; [exact Hok''|].
  rewrite released_live, Hs'. simpl. lia.
Qed.

(** The paths of a watch are a queue: an event with fewer than ten unread paths appends a
    copy of its path and wakes the reader, and [xenbus_read_watch] returns the oldest one, or
    blocks the reader when there is none.  The test for a full buffer is off by one: with ten
    unread paths the new path takes the place of the oldest, which is lost, and will be
    returned twice; only the next event stops. *)
Lemma watch_paths_fifo malloc p hdr path tok s a w t :
  Z.of_nat (length hdr) = msg_size -> nonzero path -> Z.of_nat (length path) + 1 < 2 ^ 31 ->
  find_watch tok s = Ok a -> a <> 0 -> watches s !! a = Some w -> watch_ok w ->
  let n := path_prod_idx w - path_cons_idx w in
  let d := malloc (used s) (Z.of_nat (length path) + 1) in
  (if MAX_PATHS <? n then watch_event malloc p (hdr ++ path ++ 0 :: tok) s = Bug BUG_ON
   else exists s' w', watch_event malloc p (hdr ++ path ++ 0 :: tok) s = Ok s' /\
     watches s' = <[a := w']> (watches s) /\ w_thread w' = w_thread w /\
     unread w' = (if n =? MAX_PATHS then d :: tail (unread w) ++ [d] else unread w ++ [d]) /\
     (d <> 0 -> heap s' = <[d := path ++ [0]]> (heap s)) /\
     blocked s' = (if w_thread w =? 0 then blocked s else blocked s ∖ {[w_thread w]})) /\
  exists o s' w', xenbus_read_watch t a s = Ok (o, s') /\ watches s' = <[a := w']> (watches s) /\
    match unread w with
    | q :: l => o = Some q /\ unread w' = l /\ w_thread w' = 0 /\ blocked s' = blocked s
    | [] => o = None /\ unread w' = [] /\ w_thread w' = t /\ blocked s' = {[t]} ∪ blocked s
    end.
Proof.
  intros Hh Hx Hl Hf Ha Hw Hok n d. split.
  - rewrite (watch_event_spec malloc p hdr path tok s a w) by done. fold n d.
    destruct (Z.ltb_spec MAX_PATHS n) as [|Hn]; [done|]. eexists _, (pushed w d). split; [done|].
    split; [by destruct (w_thread w =? 0)|]. split; [done|]. split.
    { destruct (Z.eqb_spec n MAX_PATHS); [by apply unread_overrun|apply unread_pushed; [done|lia]]. }
    split; [|by destruct (w_thread w =? 0)]. intros Hd.
    assert (strdup_heap malloc path s = <[d := path ++ [0]]> (heap s)) as He.
    { unfold strdup_heap. fold d. by rewrite (proj2 (Z.eqb_neq d 0)). }
    rewrite He. by destruct (w_thread w =? 0).
  - destruct (read_watch_spec t a s w Hw Hok) as [Hr Ht]. rewrite Hr. destruct (unread w) as [|q l] eqn:Hu.
    + eexists _, _, (reader w t). splits; done.
    + eexists _, _, (taken w). splits; done.
Qed.

(** [xenbus_ls] returns an array with a fresh copy of every string of the reply, in the
    order of the reply, ends it with NULL, frees the reply and leaves every other block alone. *)
Lemma xenbus_ls_strings malloc rep m l s :
  malloc_ok malloc -> (forall u size, malloc u size <> 0) ->
  Forall nonzero l -> reply_at rep m (strings l) s -> m_type m <> XS_ERROR ->
  exists arr ptrs s', xenbus_ls_end malloc rep s = Ok (0, arr, s') /\
    heap s' !! arr = Some (ptrs ++ [0]) /\
    Forall2 (fun q x => heap s' !! q = Some (x ++ [0])) ptrs l /\ NoDup (arr :: ptrs) /\
    (forall a, a ∈ arr :: ptrs -> heap s !! a = None) /\
    heap s' !! rep = None /\ (forall a, a ∉ rep :: arr :: ptrs -> heap s' !! a = heap s !! a).
Proof.
  intros Hm Htot Hnz Hra Ht. destruct (ls_end_spec malloc Hm rep m l s Htot Hnz Hra Ht)
    as (arr & ptrs & h & h' & He & Hfr & [Hs Hnd Hf Hframe] & ->).
  assert (arr ∉ ptrs) as Hna by (intros Hin; apply Hf in Hin; by rewrite lookup_insert_eq in Hin).
  assert (rep <> arr) as Hra1 by (intros ->; destruct Hra; congruence).
  assert (forall q, q ∈ ptrs -> heap s !! q = None) as Hf'.
  { intros q Hq. pose proof (Hf q Hq) as Hfq. rewrite lookup_insert_ne in Hfq; [done|]. by intros ->. }
  assert (rep ∉ ptrs) as Hra2 by (intros Hin%Hf'; destruct Hra; congruence).
  eexists arr, ptrs, _. split; [exact He|]. simpl. splits.
  - rewrite lookup_delete_ne by done. apply lookup_insert_eq.
  - apply (Forall2_in_impl _ _ _ _ Hs). intros q x Hq Hx. rewrite lookup_delete_ne by (intros ->; done).
    rewrite lookup_insert_ne by (intros ->; done). done.
  - by constructor.
  - intros a [-> | Ha]%elem_of_cons; [done|by apply Hf'].
  - apply lookup_delete_eq.
  - intros a [H1 [H2 H3]%not_elem_of_cons]%not_elem_of_cons. rewrite lookup_delete_ne, lookup_insert_ne by done.
    rewrite Hframe by done. by rewrite lookup_insert_ne.
Qed.

(** The reply of [guk_xenbus_read] and [xenbus_get_perms]: an error is returned as a copy of
    its text with the value NULL, anything else as a copy of the value with no message; either
    way the reply is freed and exactly one block is allocated, and without memory the store
    through NULL stops.  [xenbus_write] and the like free the reply too.  [xenbus_watch_path]
    frees the reply of an error a second time: it never returns the message. *)
Lemma replies_freed malloc rep m body s token :
  malloc_ok malloc -> reply_at rep m body s ->
  let r := malloc (used s) (m_len m + 1) in
  let s' := set_heap (delete rep (<[r := body ++ [0]]> (heap s))) s in
  let err := m_type m =? XS_ERROR in
  value_end malloc rep s = (if r =? 0 then Bug BAD_ACCESS else Ok (if err then (r, 0, s') else (0, r, s'))) /\
  done_end malloc rep s = (if err then if r =? 0 then Bug BAD_ACCESS else Ok (r, s')
                           else Ok (0, set_heap (delete rep (heap s)) s)) /\
  xenbus_watch_path_end malloc token rep s =
    (if err then Bug (if r =? 0 then BAD_ACCESS else BUG_ON) else Ok (0, s)).
Proof.
  intros Hm Hra r s' err. split; [|split].
  - by apply (value_end_spec malloc Hm rep m body s Hra).
  - unfold done_end. rewrite (errmsg_spec malloc Hm rep m body) by done. fold err r. cbn zeta. fold s'. destruct err.
    + destruct (Z.eqb_spec r 0) as [|Hr]; [done|]. cbn [mbind res_bind]. by rewrite (proj2 (Z.eqb_neq r 0)).
    + cbn [mbind res_bind]. change (0 =? 0) with true. cbn [negb]. unfold free.
      rewrite (proj2 (Z.eqb_neq rep 0)) by apply Hra. by rewrite (ra_block _ _ _ _ Hra).
  - destruct (decide (m_type m = XS_ERROR)) as [He|He].
    + rewrite (watch_path_error malloc Hm token rep m body s Hra He). fold r. unfold err.
      rewrite (proj2 (Z.eqb_eq (m_type m) XS_ERROR)) by done. by destruct (r =? 0).
    + unfold xenbus_watch_path_end, err. rewrite (errmsg_spec malloc Hm rep m body) by done.
      by rewrite (proj2 (Z.eqb_neq (m_type m) XS_ERROR)) by done.
Qed.

(** When the ring is full and has room only after the thread was blocked on [xb_waitq], [xb_write]
    wakes the thread, which was blocked for its reply: the end of [xenbus_msg_reply] then runs with
    no reply, and stops on the null pointer. *)
Lemma send_wait_unblocks type id trans io w1 w2 w3 t s s' :
  let len := sgn32 (data_len io + msg_size) in
  has_space len (x_ring s) = false -> has_space len (w1 (x_ring s)) = false ->
  send type id trans io w1 w2 w3 t s = Ok s' ->
  t ∉ blocked s' /\
  (forall ri, req_info s !! Z.to_nat id = Some ri -> 0 <= id -> heap s !! reply ri = None -> msg_reply_end id s' = Bug BAD_ACCESS).
Proof.
  intros len H1 H2 Hs. unfold send, xb_write in Hs. fold len in Hs. rewrite H1, H2 in Hs.
  destruct (_ <? _); [done|]. cbn [bug_on mbind res_bind] in Hs. destruct (has_space len (w2 (w1 (x_ring s)))); [|done].
  apply res_bind_ok in Hs as ([woken r] & Hr & Hs). apply res_bind_ok in Hr as (r' & _ & Hr). injection Hr as <- <-.
  injection Hs as <-. simpl. split; [set_solver|]. intros ri Hri Hid Hh. unfold msg_reply_end, elem.
  rewrite (proj2 (Z.ltb_ge _ 0)) by lia. simpl. rewrite Hri. cbn [access mbind res_bind]. unfold block_at. simpl. by rewrite Hh.
Qed.
End Theorems.

(** ** A concrete client *)

(** An empty ring both of whose indices are [p]. *)
Definition empty_ring (p : Z) : ring := Ring (replicate 1024 0) (replicate 1024 0) p p 0 0.

Lemma empty_ring_wf p : 0 <= p < 2 ^ 32 -> @ring_wf Demo.xs_wire (empty_ring p).
Proof.
  intros Hp. assert (wrap32 (p - p) = 0) as He by by rewrite Z.sub_diag.
  constructor; simpl; rewrite ?He; try done; try lia; unfold req_used, rsp_used; simpl; rewrite ?He; done.
Qed.

Definition demo_malloc (u : gset Z) (_ : Z) : Z := fresh ({[0]} ∪ u).

Lemma demo_malloc_ok : malloc_ok demo_malloc.
Proof.
  intros u size. right. unfold demo_malloc. pose proof (is_fresh ({[0]} ∪ u)) as Hf. set_solver.
Qed.

Lemma demo_malloc_total u size : demo_malloc u size <> 0.
Proof. unfold demo_malloc. pose proof (is_fresh ({[0]} ∪ u)) as Hf. set_solver. Qed.

(** Identifier 0 in use, the probe on it; one watch at 600; a heap. *)
Definition demo_watch (prod : Z) : xenbus_watch := Watch (cstr "tok") (cstr "device") prod 0 (seqZ 101 10) 7.
Definition demo_xb (prod : Z) (h : gmap Z (list Z)) : xb :=
  Xb (empty_ring 1000) (RI 1 [] 0 :: replicate 31 (RI 0 [] 0)) 1 0 [] false [600] {[600 := demo_watch prod]} h {[7]} 0.

Lemma demo_ids_ok prod h : ids_ok (demo_xb prod h).
Proof. constructor; [done|done|]. unfold NR_REQS. simpl. lia. Qed.

Lemma xb_write_transports_witness :
  exists r', xb_write 2 5 0 [Req (cstr "domid") 6] id id id (empty_ring 1000) = Ok (false, r') /\
    memcpy_from_ring (req r') 1000 22 = Ok (message 2 5 0 [Req (cstr "domid") 6]).
Proof.
  destruct (xb_write_transports 2 5 0 [Req (cstr "domid") 6] id id id (empty_ring 1000)) as [_ H].
  - apply empty_ring_wf. lia.
  - repeat constructor; simpl; lia.
  - vm_compute. done.
  - destruct H as (r' & Hx & _ & _ & Hm & _); [vm_compute; done|]. exists r'. split; [exact Hx|exact Hm].
Defined.

(** Close to the end of the index space the same message stops. *)
Example xb_write_wrap_stops :
  xb_write 2 5 0 [Req (cstr "domid") 6] id id id (empty_ring (2 ^ 32 - 500)) = Bug BUG_ON.
Proof. vm_compute. done. Qed.

(** Two writers wait for space; both see it, and the second one, which takes the lock after the
    first has used it, overwrites what the first has sent before the assertion stops it. *)
Example xb_write_two_writers :
  let full := Ring (replicate 1024 0) (replicate 1024 0) 0 1010 0 0 in
  let drained r := Ring (req r) (rsp r) (req_prod r) (req_prod r) (rsp_cons r) (rsp_prod r) in
  let other r := Ring (req r) (rsp r) (req_cons r) (wrap32 (req_prod r + 1010)) (rsp_cons r) (rsp_prod r) in
  xb_write 2 5 0 [Req (cstr "domid") 6] drained id other full = Bug BUG_ON /\
  is_ok (xb_write 2 5 0 [Req (cstr "domid") 6] drained id id full).
Proof. vm_compute. done. Qed.

Lemma identifiers_first_free_witness :
  exists s', allocate_xenbus_id (demo_xb 0 ∅) = Ok (Some 1, s') /\ ids_ok s'.
Proof.
  pose proof (identifiers_first_free (demo_xb 0 ∅) (demo_ids_ok 0 ∅)) as H. simpl in H.
  destruct H as (k & id & s' & _ & _ & Ha & _ & _ & _ & _ & Hok & _). exists s'. split; [|exact Hok].
  rewrite Ha. vm_compute in Ha. by injection Ha as <- _.
Defined.

Lemma watch_paths_fifo_witness :
  let payload := replicate 16 0 ++ str "device/vif" ++ 0 :: cstr "tok" in
  (exists s' w', watch_event demo_malloc 50 payload (demo_xb 3 ∅) = Ok s' /\ watches s' !! 600 = Some w' /\
     unread w' = [101; 102; 103; demo_malloc {[600]} 11] /\ blocked s' = {[7]} ∖ {[7]}) /\
  (exists s' w', watch_event demo_malloc 50 payload (demo_xb 10 ∅) = Ok s' /\ watches s' !! 600 = Some w' /\
     head (unread w') <> Some 101).
Proof.
  assert (forall n, 0 <= n < 11 -> watch_ok (demo_watch n)) as Hok.
  { intros n Hn. constructor; simpl; [done|lia|lia]. }
  split.
  - destruct (watch_paths_fifo demo_malloc 50 (replicate 16 0) (str "device/vif") (cstr "tok") (demo_xb 3 ∅) 600
      (demo_watch 3) 7) as [(s' & w' & He & Hw & _ & Hu & _ & Hb) _].
    1-7: try done; try (apply Hok; lia); repeat constructor; lia.
    exists s', w'. split; [exact He|]. split; [rewrite Hw; apply lookup_insert_eq|]. split; [|exact Hb].
    rewrite Hu. reflexivity.
  - destruct (watch_paths_fifo demo_malloc 50 (replicate 16 0) (str "device/vif") (cstr "tok") (demo_xb 10 ∅) 600
      (demo_watch 10) 7) as [(s' & w' & He & Hw & _ & Hu & _) _].
    1-7: try done; try (apply Hok; lia); repeat constructor; lia.
    exists s', w'. split; [exact He|]. split; [rewrite Hw; apply lookup_insert_eq|].
    rewrite Hu. vm_compute. congruence.
Defined.

(** A reply at address 40. *)
Definition demo_reply (type : Z) (body : list Z) : xb :=
  demo_xb 0 {[40 := msg_bytes (Msg type 0 0 (Z.of_nat (length body))) body]}.

Lemma demo_reply_at type body :
  0 <= type < 2 ^ 32 -> Z.of_nat (length body) < 2 ^ 31 ->
  reply_at 40 (Msg type 0 0 (Z.of_nat (length body))) body (demo_reply type body).
Proof.
  intros Ht Hl. constructor; [done|apply lookup_singleton_eq| |done]. split; [|done]. unfold msg_range. simpl. lia.
Qed.

Lemma xenbus_ls_strings_witness :
  exists arr ptrs s',
    xenbus_ls_end demo_malloc 40 (demo_reply XS_DIRECTORY (strings [str "vif"; str "vbd"])) = Ok (0, arr, s') /\
    heap s' !! arr = Some (ptrs ++ [0]) /\
    Forall2 (fun q x => heap s' !! q = Some (x ++ [0])) ptrs [str "vif"; str "vbd"].
Proof.
  destruct (xenbus_ls_strings demo_malloc 40 (Msg XS_DIRECTORY 0 0 8) [str "vif"; str "vbd"]
    (demo_reply XS_DIRECTORY (strings [str "vif"; str "vbd"]))) as (arr & ptrs & s' & He & Ha & Hs & _).
  - exact demo_malloc_ok.
  - exact demo_malloc_total.
  - repeat constructor; lia.
  - apply (demo_reply_at XS_DIRECTORY (strings [str "vif"; str "vbd"])); simpl; lia.
  - done.
  - exists arr, ptrs, s'. split; [exact He|]. split; [exact Ha|exact Hs].
Defined.

Lemma replies_freed_witness :
  xenbus_watch_path_end demo_malloc (cstr "tok") 40 (demo_reply XS_ERROR (cstr "EEXIST")) = Bug BUG_ON.
Proof.
  destruct (replies_freed demo_malloc 40 (Msg XS_ERROR 0 0 7) (cstr "EEXIST") (demo_reply XS_ERROR (cstr "EEXIST"))
    (cstr "tok")) as (_ & _ & H).
  - exact demo_malloc_ok.
  - apply (demo_reply_at XS_ERROR (cstr "EEXIST")); simpl; lia.
  - rewrite H. simpl. rewrite (proj2 (Z.eqb_neq _ 0)); [done|apply demo_malloc_total].
Defined.
