(* ===== verification/XenbusProto.v ===== *)
(** Requests and replies of the store client: the threads, the receiving thread and the
    daemon as steps, in any order, and the proof that a thread gets the reply to its request.

    A step is what the code does between taking and releasing a lock.  The daemon takes whole
    messages from the ring, answers each request once with the request's identifier, and sends
    watch events; that is its side of the protocol in Xen's io/xs_wire.h.  A request
    is sent in one step, when the ring has room for it; what the code does when it has not
    is [st_full] below, and [XenbusProps.send_wait_unblocks] when room appears meanwhile.
    Where an operation of the code can stop in a reachable state is [settled]. *)
From S2P Require Import Prelude CString ByteRing XenbusRing Xenbus XenbusProps.
From S2P Require Completion.
From stdpp Require Import options.

(** Where a thread is: waiting for an identifier; in [xenbus_msg_reply] before [add_waiter],
    before [xb_write], and in or after [schedule]; in [schedule] of [xenbus_read_watch]. *)
Inductive phase :=
| WaitId
| Allocated (id : Z)
| Waiting (id : Z)
| Sent (id : Z)
| Reading (a : Z).

Definition phase_id (ph : phase) : option Z :=
  match ph with Allocated id | Waiting id | Sent id => Some id | _ => None end.

(** [p_daemon] are the identifiers of the requests the daemon works on, [p_answers] its last
    answer for each identifier, [p_owned] the blocks that belong to the clients. *)
Record proto := Proto {
  p_xb : xb;
  p_threads : gmap Z phase;
  p_daemon : list Z;
  p_answers : gmap Z (list Z);
  p_owned : gset Z
}.

Section Proto.
Context {W : wire} {WO : wire_ok W}.

(** The daemon takes the message [m] off the request ring; it sends [m] on the other. *)
Record takes (r : ring) (m : xsd_sockmsg) (body : list Z) (r' : ring) : Prop := {
  tk_wf : ring_wf r';
  tk_msg : msg_wf m body;
  tk_queue : req_queue r = msg_bytes m body ++ req_queue r';
  tk_rsp : rsp_queue r' = rsp_queue r
}.

Record sends (r : ring) (m : xsd_sockmsg) (body : list Z) (r' : ring) : Prop := {
  sd_wf : ring_wf r';
  sd_msg : msg_wf m body;
  sd_req : req_queue r' = req_queue r;
  sd_queue : rsp_queue r' = rsp_queue r ++ msg_bytes m body
}.

Inductive pstep : proto -> proto -> Prop :=
| step_alloc t id s s' th D A O :
    th !! t = None -> t ∉ blocked s -> allocate_xenbus_id s = Ok (Some id, s') ->
    pstep (Proto s th D A O) (Proto s' (<[t := Allocated id]> th) D A O)
| step_wait t b s s' th D A O :
    th !! t = None \/ th !! t = Some WaitId -> t ∉ blocked s -> allocate_wait t s = (b, s') ->
    pstep (Proto s th D A O) (Proto s' (if b then <[t := WaitId]> th else delete t th) D A O)
| step_add t id s s' th D A O :
    th !! t = Some (Allocated id) -> add_waiter id t s = Ok s' ->
    pstep (Proto s th D A O) (Proto s' (<[t := Waiting id]> th) D A O)
| step_send t id type trans io w1 w2 w3 s s' th D A O :
    th !! t = Some (Waiting id) -> Forall req_ok io ->
    req_used (x_ring s) + Z.of_nat (length (message type id trans io)) <= XENSTORE_RING_SIZE ->
    send type id trans io w1 w2 w3 t s = Ok s' ->
    pstep (Proto s th D A O) (Proto s' (<[t := Sent id]> th) D A O)
| step_end t id rep s s' th D A O :
    th !! t = Some (Sent id) -> t ∉ blocked s -> msg_reply_end id s = Ok (rep, s') ->
    pstep (Proto s th D A O) (Proto s' (delete t th) D A ({[rep]} ∪ O))
| step_free a s s' th D A O :
    a ∈ O -> free a s = Ok s' -> pstep (Proto s th D A O) (Proto s' th D A (O ∖ {[a]}))
| step_new malloc size c a s s' th D A O :
    malloc_ok malloc -> new_block malloc size c s = Ok (a, s') ->
    pstep (Proto s th D A O) (Proto s' th D A ({[a]} ∪ O))
| step_receive malloc b s s' th D A O :
    malloc_ok malloc -> receive malloc s = Ok (b, s') ->
    pstep (Proto s th D A O) (Proto s' th D A O)
| step_read t a o s s' th D A O :
    th !! t = None \/ th !! t = Some (Reading a) -> t ∉ blocked s -> t <> 0 ->
    xenbus_read_watch t a s = Ok (o, s') ->
    pstep (Proto s th D A O)
      (Proto s' (if o is Some _ then delete t th else <[t := Reading a]> th) D A O)
| step_take m body r' s th D A O :
    takes (x_ring s) m body r' ->
    pstep (Proto s th D A O) (Proto (set_ring r' s) th (D ++ [m_req_id m]) A O)
| step_answer m body r' s th D1 D2 A O :
    sends (x_ring s) m body r' -> m_type m <> XS_WATCH_EVENT ->
    pstep (Proto s th (D1 ++ m_req_id m :: D2) A O)
      (Proto (set_ring r' s) th (D1 ++ D2) (<[m_req_id m := msg_bytes m body]> A) O)
| step_event m body r' s th D A O :
    sends (x_ring s) m body r' -> m_type m = XS_WATCH_EVENT ->
    pstep (Proto s th D A O) (Proto (set_ring r' s) th D A O).

(** ** The invariant *)

Abbreviation msg_list := (list (xsd_sockmsg * list Z)).

Definition msgs (l : msg_list) : list Z := mjoin ((fun x => msg_bytes x.1 x.2) <$> l).
Definition req_ids (l : msg_list) : list Z := (fun x => m_req_id x.1) <$> l.
Definition is_reply (x : xsd_sockmsg * list Z) : Prop := m_type x.1 <> XS_WATCH_EVENT.
Global Instance is_reply_dec x : Decision (is_reply x).
Proof. unfold is_reply. apply _. Defined.
Definition reply_ids (l : msg_list) : list Z := req_ids (filter is_reply l).

(** The identifiers of the requests and replies under way. *)
Definition under_way (qs : msg_list) (D : list Z) (rs : msg_list) : list Z := req_ids qs ++ D ++ reply_ids rs.

Definition info (s : xb) (id : Z) : xenbus_req_info := nth (Z.to_nat id) (req_info s) (RI 0 [] 0).

Definition held (s : xb) (id : Z) : Prop := 0 <= id < NR_REQS /\ in_use (info s id) <> 0.

(** The block of a reply that has come. *)
Record answered (s : xb) (A : gmap Z (list Z)) (O : gset Z) (id : Z) : Prop := {
  an_block : exists m body, heap s !! reply (info s id) = Some (msg_bytes m body) /\
    A !! id = Some (msg_bytes m body) /\ msg_wf m body /\ m_req_id m = id;
  an_owned : reply (info s id) ∉ O
}.

Definition phase_ok (s : xb) (fl : list Z) (A : gmap Z (list Z)) (O : gset Z) (t : Z) (ph : phase) : Prop :=
  match ph with
  | Allocated id => held s id /\ id ∉ fl /\ waitq (info s id) = []
  | Waiting id => held s id /\ id ∉ fl /\ waitq (info s id) = [t] /\ t ∈ blocked s
  | Sent id => held s id /\
      (id ∈ fl -> waitq (info s id) = [t] /\ t ∈ blocked s) /\
      (id ∉ fl -> t ∉ blocked s /\ answered s A O id)
  | _ => True
  end.

Record pinv (p : proto) (qs rs : msg_list) : Prop := {
  pi_ring : ring_wf (x_ring (p_xb p));
  pi_ids : ids_ok (p_xb p);
  pi_qs : req_queue (x_ring (p_xb p)) = msgs qs;
  pi_rs : rsp_queue (x_ring (p_xb p)) = msgs rs;
  pi_qs_wf : Forall (fun x => msg_wf x.1 x.2) qs;
  pi_rs_wf : Forall (fun x => msg_wf x.1 x.2) rs;
  pi_nodup : NoDup (under_way qs (p_daemon p) rs);
  pi_answers x : x ∈ rs -> is_reply x -> p_answers p !! m_req_id x.1 = Some (msg_bytes x.1 x.2);
  pi_phase t ph : p_threads p !! t = Some ph ->
    phase_ok (p_xb p) (under_way qs (p_daemon p) rs) (p_answers p) (p_owned p) t ph;
  pi_inj t t' ph ph' id : p_threads p !! t = Some ph -> p_threads p !! t' = Some ph' ->
    phase_id ph = Some id -> phase_id ph' = Some id -> t = t';
  pi_sender id : id ∈ under_way qs (p_daemon p) rs -> exists t, p_threads p !! t = Some (Sent id);
  pi_replies t t' id id' : p_threads p !! t = Some (Sent id) -> p_threads p !! t' = Some (Sent id') ->
    id ∉ under_way qs (p_daemon p) rs -> id' ∉ under_way qs (p_daemon p) rs ->
    reply (info (p_xb p) id) = reply (info (p_xb p) id') -> id = id';
  pi_req_wq t : t ∈ req_wq (p_xb p) -> p_threads p !! t = Some WaitId;
  pi_readers a w : watches (p_xb p) !! a = Some w -> w_thread w <> 0 ->
    p_threads p !! w_thread w = Some (Reading a);
  pi_owned a : a ∈ p_owned p -> is_Some (heap (p_xb p) !! a)
}.

Local Arguments pi_ring {_ _ _}.
Local Arguments pi_ids {_ _ _}.
Local Arguments pi_qs {_ _ _}.
Local Arguments pi_rs {_ _ _}.
Local Arguments pi_qs_wf {_ _ _}.
Local Arguments pi_rs_wf {_ _ _}.
Local Arguments pi_nodup {_ _ _}.
Local Arguments pi_answers {_ _ _}.
Local Arguments pi_phase {_ _ _}.
Local Arguments pi_inj {_ _ _}.
Local Arguments pi_sender {_ _ _}.
Local Arguments pi_replies {_ _ _}.
Local Arguments pi_req_wq {_ _ _}.
Local Arguments pi_readers {_ _ _}.
Local Arguments pi_owned {_ _ _}.

Set Default Proof Using "Type*".

(** ** Lemmas on the parts of the invariant *)

Lemma held_range s id : ids_ok s -> held s id -> 0 <= id < Z.of_nat (length (req_info s)).
Proof. intros Hok [Hr _]. rewrite (ids_length s Hok). done. Qed.

Lemma info_insert l n p id ri s id' :
  0 <= id < Z.of_nat (length (req_info s)) -> 0 <= id' -> l = <[Z.to_nat id := ri]> (req_info s) ->
  info (set_reqs l n p s) id' = if decide (id' = id) then ri else info s id'.
Proof.
  intros Hr Hid ->. unfold info. simpl. rewrite !nth_lookup. case_decide as Hd.
  - subst. rewrite list_lookup_insert_eq by lia. done.
  - rewrite list_lookup_insert_ne by lia. done.
Qed.

Lemma elem_info s id : 0 <= id < Z.of_nat (length (req_info s)) -> elem (req_info s) id = Ok (info s id).
Proof. apply elem_nth. Qed.

Lemma info_lookup s id : 0 <= id < Z.of_nat (length (req_info s)) -> req_info s !! Z.to_nat id = Some (info s id).
Proof.
  intros Hr. destruct (lookup_lt_is_Some_2 (req_info s) (Z.to_nat id)) as [x Hx]; [lia|]. unfold info.
  by rewrite (nth_lookup_Some _ _ _ _ Hx).
Qed.

Lemma answered_mono s s' A A' O O' id :
  answered s A O id -> info s' id = info s id -> A' !! id = A !! id ->
  (forall a b, a ∉ O -> heap s !! a = Some b -> a = reply (info s id) -> heap s' !! a = Some b /\ a ∉ O') ->
  answered s' A' O' id.
Proof.
  intros [(m & body & Hb & Ha & Hm & Hi) Ho] Hinfo HA Hh. destruct (Hh _ _ Ho Hb eq_refl) as [Hb' Ho'].
  constructor; rewrite Hinfo, ?HA; [|done]. by exists m, body.
Qed.

Lemma phase_ok_mono s s' fl fl' A A' O O' t ph :
  phase_ok s fl A O t ph ->
  (forall id, phase_id ph = Some id -> held s id -> info s' id = info s id /\ (id ∈ fl' <-> id ∈ fl)) ->
  (forall id, phase_id ph = Some id -> (t ∈ blocked s' <-> t ∈ blocked s)) ->
  (forall id, ph = Sent id -> id ∉ fl -> answered s A O id -> answered s' A' O' id) ->
  phase_ok s' fl' A' O' t ph.
Proof.
  destruct ph as [|id|id|id|]; simpl; try done.
  - intros (Hh & Hf & Hw) Hi _ _. destruct (Hi id eq_refl Hh) as [He Hfl]. unfold held. rewrite He, Hfl. done.
  - intros (Hh & Hf & Hw & Hb) Hi Hbl _. destruct (Hi id eq_refl Hh) as [He Hfl]. unfold held. rewrite He, Hfl, (Hbl id) by done. done.
  - intros (Hh & Hin & Hout) Hi Hbl Ha. destruct (Hi id eq_refl Hh) as [He Hfl]. unfold held. rewrite He, Hfl, (Hbl id) by done.
    split; [done|]. split; [done|]. intros Hn. destruct (Hout Hn). split; [done|]. by apply Ha.
Qed.

Lemma msgs_cons m body l : msgs ((m, body) :: l) = msg_bytes m body ++ msgs l.
Proof. done. Qed.

Lemma msgs_app l k : msgs (l ++ k) = msgs l ++ msgs k.
Proof. unfold msgs. by rewrite fmap_app, join_app. Qed.

(** The bytes of a queue determine its messages. *)
Lemma msgs_next l m body rest :
  Forall (fun x => msg_wf x.1 x.2) l -> msg_wf m body -> msgs l = msg_bytes m body ++ rest ->
  exists l', l = (m, body) :: l' /\ rest = msgs l'.
Proof.
  intros Hl Hm He. pose proof msg_size_pos. destruct l as [|[m' body'] l].
  { apply (f_equal length) in He. rewrite length_app in He. pose proof (msg_bytes_length m body Hm).
    destruct Hm as [(?&?&?&?) ?]. simpl in He. lia. }
  apply Forall_cons in Hl as [Hm' _]. simpl in Hm'. rewrite msgs_cons in He. unfold msg_bytes in He. rewrite <- !app_assoc in He.
  pose proof (enc_length m). pose proof (enc_length m'). apply app_inj_1 in He as [He He2]; [|lia].
  assert (m' = m) as ->.
  { destruct Hm as [Hr _], Hm' as [Hr' _]. rewrite <- (dec_enc m), <- (dec_enc m') by done. by rewrite He. }
  destruct Hm as [_ Hlm], Hm' as [_ Hlm']. apply app_inj_1 in He2 as [-> He2]; [|lia]. exists l. done.
Qed.

Lemma reply_ids_cons x l : reply_ids (x :: l) = if decide (is_reply x) then m_req_id x.1 :: reply_ids l else reply_ids l.
Proof. unfold reply_ids. rewrite filter_cons. by case_decide. Qed.

Lemma reply_ids_app l k : reply_ids (l ++ k) = reply_ids l ++ reply_ids k.
Proof. unfold reply_ids, req_ids. by rewrite filter_app, fmap_app. Qed.

Lemma no_msgs_incomplete l r : rsp_queue r = msgs l -> l = [] -> rsp_used r < msg_size.
Proof.
  intros Hq ->. pose proof msg_size_pos. assert (0 <= rsp_used r) by (apply wrap_range; lia).
  apply (f_equal length) in Hq. unfold rsp_queue in Hq. rewrite slots_length in Hq. simpl in Hq. lia.
Qed.

(** The thread that has an identifier: no other phase has it. *)
Lemma other_id p qs rs t id u ph id' :
  pinv p qs rs -> p_threads p !! t = Some (Sent id) \/ p_threads p !! t = Some (Waiting id) \/ p_threads p !! t = Some (Allocated id) ->
  p_threads p !! u = Some ph -> u <> t -> phase_id ph = Some id' -> id' <> id.
Proof.
  intros Hp Ht Hu Hne Hi ->. apply Hne. destruct Ht as [Ht|[Ht|Ht]]; eapply (pi_inj Hp); eauto.
Qed.

Lemma held_id p qs rs t ph id : pinv p qs rs -> p_threads p !! t = Some ph -> phase_id ph = Some id -> held (p_xb p) id.
Proof.
  intros Hp Ht Hi. pose proof (pi_phase Hp t ph Ht) as Hph. destruct ph; simpl in *; simplify_eq; apply Hph.
Qed.

(** ** Steps of a thread that leave the messages alone *)

(** What such a step of thread [t], now in the phase [oph], may change. *)
Record thread_step (s s' : xb) (th th' : gmap Z phase) (fl : list Z) (A : gmap Z (list Z)) (O O' : gset Z)
    (t : Z) (oph : option phase) : Prop := {
  ts_ring : x_ring s' = x_ring s;
  ts_ids : ids_ok s';
  ts_threads : th' !! t = oph;
  ts_others u : u <> t -> th' !! u = th !! u;
  ts_info u ph id : u <> t -> th !! u = Some ph -> phase_id ph = Some id ->
    info s' id = info s id /\ (u ∈ blocked s' <-> u ∈ blocked s);
  ts_answered u id : u <> t -> th !! u = Some (Sent id) -> id ∉ fl -> answered s A O id -> answered s' A O' id;
  ts_phase ph : oph = Some ph -> phase_ok s' fl A O' t ph;
  ts_fresh ph id u ph' : oph = Some ph -> phase_id ph = Some id -> u <> t -> th !! u = Some ph' -> phase_id ph' <> Some id;
  ts_sent id : oph <> Some (Sent id);
  ts_left id : th !! t = Some (Sent id) -> id ∉ fl;
  ts_req_wq u : u ∈ req_wq s' -> if decide (u = t) then oph = Some WaitId else u ∈ req_wq s;
  ts_readers a w : watches s' !! a = Some w -> w_thread w <> 0 ->
    if decide (w_thread w = t) then oph = Some (Reading a)
    else exists w0, watches s !! a = Some w0 /\ w_thread w0 = w_thread w;
  ts_owned a : a ∈ O' -> is_Some (heap s' !! a)
}.

Local Arguments ts_ring {_ _ _ _ _ _ _ _ _ _}.
Local Arguments ts_ids {_ _ _ _ _ _ _ _ _ _}.
Local Arguments ts_threads {_ _ _ _ _ _ _ _ _ _}.
Local Arguments ts_others {_ _ _ _ _ _ _ _ _ _}.
Local Arguments ts_info {_ _ _ _ _ _ _ _ _ _}.
Local Arguments ts_answered {_ _ _ _ _ _ _ _ _ _}.
Local Arguments ts_phase {_ _ _ _ _ _ _ _ _ _}.
Local Arguments ts_fresh {_ _ _ _ _ _ _ _ _ _}.
Local Arguments ts_sent {_ _ _ _ _ _ _ _ _ _}.
Local Arguments ts_left {_ _ _ _ _ _ _ _ _ _}.
Local Arguments ts_req_wq {_ _ _ _ _ _ _ _ _ _}.
Local Arguments ts_readers {_ _ _ _ _ _ _ _ _ _}.
Local Arguments ts_owned {_ _ _ _ _ _ _ _ _ _}.

Lemma thread_step_inv s s' th th' D A O O' t oph qs rs :
  pinv (Proto s th D A O) qs rs -> thread_step s s' th th' (under_way qs D rs) A O O' t oph ->
  pinv (Proto s' th' D A O') qs rs.
Proof.
  intros Hp Hs. pose proof (ts_others Hs) as Hoth. pose proof (ts_threads Hs) as Ht.
  assert (forall u id, th' !! u = Some (Sent id) -> u <> t /\ th !! u = Some (Sent id)) as Hsent.
  { intros u id Hu. destruct (decide (u = t)) as [->|Hne]; [|rewrite Hoth in Hu; done].
    rewrite Ht in Hu. by destruct (ts_sent Hs id). }
  assert (forall u id, th' !! u = Some (Sent id) -> info s' id = info s id) as Hinfo.
  { intros u id [Hne Hu]%Hsent. by apply (ts_info Hs u (Sent id)). }
  constructor; simpl; try rewrite (ts_ring Hs).
  - apply Hp.
  - apply Hs.
  - apply (pi_qs Hp).
  - apply (pi_rs Hp).
  - apply (pi_qs_wf Hp).
  - apply (pi_rs_wf Hp).
  - apply (pi_nodup Hp).
  - apply (pi_answers Hp).
  - intros u ph Hu. destruct (decide (u = t)) as [->|Hne]; [rewrite Ht in Hu; by apply Hs|].
    rewrite Hoth in Hu by done. pose proof (pi_phase Hp u ph Hu) as Hph. simpl in Hph.
    eapply phase_ok_mono; [done| | |].
    + intros id Hid _. split; [|done]. by apply (ts_info Hs u ph).
    + intros id Hid. by apply (ts_info Hs u ph id).
    + intros id -> Hn Ha. by eapply (ts_answered Hs u).
  - intros u u' ph ph' id Hu Hu' Hi Hi'. destruct (decide (u = t)) as [->|Hne], (decide (u' = t)) as [->|Hne']; [done| | |].
    + rewrite Ht in Hu. rewrite Hoth in Hu' by done. by destruct (ts_fresh Hs ph id u' ph').
    + rewrite Ht in Hu'. rewrite Hoth in Hu by done. by destruct (ts_fresh Hs ph' id u ph).
    + rewrite Hoth in Hu, Hu' by done. by eapply (pi_inj Hp u u').
  - intros id Hid. destruct (pi_sender Hp id Hid) as [u Hu]. simpl in Hu. exists u. rewrite Hoth; [done|].
    intros ->. by apply (ts_left Hs id).
  - intros u u' id id' Hu Hu' Hn Hn' He. rewrite (Hinfo u id), (Hinfo u' id') in He by done.
    apply Hsent in Hu as [_ Hu], Hu' as [_ Hu']. by eapply (pi_replies Hp u u').
  - intros u Hu. apply (ts_req_wq Hs) in Hu. case_decide; [by subst|].
    rewrite Hoth by done. by apply (pi_req_wq Hp).
  - intros a w Hw Hz. pose proof (ts_readers Hs a w Hw Hz) as Hr. case_decide; [by subst|].
    destruct Hr as (w0 & Hw0 & He). rewrite Hoth by done. rewrite <- He. eapply (pi_readers Hp a); [done|congruence].
  - apply Hs.
Qed.

(** The condition on watches when they are left alone. *)
Lemma readers_kept s th D A O qs rs t oph a w :
  pinv (Proto s th D A O) qs rs -> th !! t = None \/ (forall b, th !! t <> Some (Reading b)) ->
  watches s !! a = Some w -> w_thread w <> 0 ->
  if decide (w_thread w = t) then oph = Some (Reading a)
  else exists w0, watches s !! a = Some w0 /\ w_thread w0 = w_thread w.
Proof.
  intros Hp Ht Hw Hz. pose proof (pi_readers Hp a w Hw Hz) as Hr. simpl in Hr. case_decide; [|by exists w].
  subst t. destruct Ht as [Ht|Ht]; [congruence|]. by destruct (Ht a).
Qed.

Lemma req_wq_kept s th D A O qs rs t oph u :
  pinv (Proto s th D A O) qs rs -> th !! t <> Some WaitId -> u ∈ req_wq s ->
  if decide (u = t) then oph = Some WaitId else u ∈ req_wq s.
Proof. intros Hp Ht Hu. pose proof (pi_req_wq Hp u Hu) as Hw. simpl in Hw. case_decide; [subst; done|done]. Qed.

Lemma alloc_inv s s' th D A O qs rs t id :
  pinv (Proto s th D A O) qs rs -> th !! t = None -> allocate_xenbus_id s = Ok (Some id, s') ->
  pinv (Proto s' (<[t := Allocated id]> th) D A O) qs rs.
Proof.
  intros Hp Ht Ha. pose proof (pi_ids Hp) as Hok. simpl in Hok.
  destruct (Z.ltb_spec (nr_live_reqs s) NR_REQS) as [Hlt|Hge].
  2: { unfold allocate_xenbus_id in Ha. rewrite (proj2 (Z.ltb_ge _ _)) in Ha by lia. done. }
  destruct (allocate_spec s Hok Hlt) as (k & Hk & (ri & Hri & Hz) & _ & rep & s1 & Ha1 & Hs1 & Hok1).
  rewrite Ha1 in Ha. injection Ha as <- <-. set (id := probed s k) in *.
  assert (0 <= id < NR_REQS) as Hid by (apply Z.mod_pos_bound; done).
  assert (info s id = ri) as Hi by (unfold info; by apply nth_lookup_Some).
  assert (forall u ph id', th !! u = Some ph -> phase_id ph = Some id' -> id' <> id) as Hne.
  { intros u ph id' Hu Hid' ->. destruct (held_id _ _ _ u ph id Hp Hu Hid') as [_ Hh]. simpl in Hh. congruence. }
  assert (forall id', 0 <= id' -> info s1 id' = if decide (id' = id) then RI 1 [] rep else info s id') as Hinfo.
  { intros id' Hid'. rewrite Hs1. apply info_insert; [rewrite (ids_length s Hok); lia|done|done]. }
  eapply (thread_step_inv _ _ _ _ _ _ _ _ t (Some (Allocated id))); [exact Hp|]. constructor; rewrite ?Hs1.
  - done.
  - by rewrite <- Hs1.
  - apply lookup_insert_eq.
  - intros u Hu. by rewrite lookup_insert_ne.
  - intros u ph id' _ Hu Hid'. rewrite <- Hs1. destruct (held_id _ _ _ u ph id' Hp Hu Hid') as [Hr _].
    rewrite Hinfo by lia. rewrite decide_False by (by eapply Hne). by rewrite Hs1.
  - intros u id' _ Hu _ Han. eapply answered_mono; [done| |done|done].
    destruct (held_id _ _ _ u _ id' Hp Hu eq_refl) as [Hr _]. rewrite <- Hs1, Hinfo by lia.
    by rewrite decide_False by (by eapply Hne).
  - intros ph [= <-]. rewrite <- Hs1. simpl. unfold held. rewrite Hinfo, decide_True by (done || lia). splits; try done; [lia..|].
    intros Hin. destruct (pi_sender Hp id Hin) as [u Hu]. by destruct (Hne u _ id Hu).
  - intros ph id' u ph' [= <-] [= <-] _ Hu Hid'. by destruct (Hne u ph' _ Hu Hid').
  - done.
  - congruence.
  - intros u Hu. eapply (req_wq_kept _ _ _ _ _ _ _ t); [exact Hp|congruence|done].
  - intros a w Hw Hz'. eapply (readers_kept s); [exact Hp|by left|exact Hw|exact Hz'].
  - apply (pi_owned Hp).
Qed.

Lemma wait_inv s s' th D A O qs rs t b :
  pinv (Proto s th D A O) qs rs -> th !! t = None \/ th !! t = Some WaitId -> allocate_wait t s = (b, s') ->
  pinv (Proto s' (if b then <[t := WaitId]> th else delete t th) D A O) qs rs.
Proof.
  intros Hp Ht Ha.
  assert (forall u ph id, th !! u = Some ph -> phase_id ph = Some id -> u <> t) as Hne by (intros u ph id Hu Hi ->; naive_solver).
  assert (x_ring s' = x_ring s /\ req_info s' = req_info s /\ ids_ok s' /\ watches s' = watches s /\ heap s' = heap s /\
    (forall u, u <> t -> u ∈ blocked s' <-> u ∈ blocked s) /\
    (forall u, u ∈ req_wq s' -> if decide (u = t) then b = true else u ∈ req_wq s)) as (Hr & Hi & Hok & Hw & Hh & Hb & Hq).
  { pose proof (pi_ids Hp) as [? ? ?]. unfold allocate_wait in Ha. destruct (_ && _); injection Ha as <- <-; simpl.
    - splits; try done. intros u Hu. unfold Completion.wait_event_end, Completion.remove_wait_queue, Sched.remove_from in Hu.
      destruct (bool_decide_reflect (t ∈ req_wq s)); [apply list_elem_of_filter in Hu as [Hne' Hu]|];
        (case_decide; [subst; done|done]).
    - splits; try done; [set_solver|]. intros u Hu. case_decide; [done|].
      unfold Completion.add_wait_queue in Hu. case_bool_decide; [done|]. apply elem_of_app in Hu as [Hu|Hu]; [done|].
      by apply list_elem_of_singleton in Hu. }
  assert (forall id, info s' id = info s id) as Hinfo by (intros id; unfold info; by rewrite Hi).
  eapply (thread_step_inv _ _ _ _ _ _ _ _ t (if b then Some WaitId else None)); [exact Hp|]. constructor.
  - done.
  - done.
  - destruct b; [apply lookup_insert_eq|apply lookup_delete_eq].
  - intros u Hu. destruct b; [by rewrite lookup_insert_ne|by rewrite lookup_delete_ne].
  - intros u ph id Hu _ _. rewrite Hinfo. split; [done|]. by apply Hb.
  - intros u id _ _ _ Han. eapply answered_mono; [done|apply Hinfo|done|by rewrite Hh].
  - intros ph Hph. destruct b; by simplify_eq.
  - intros ph id u ph' Hph Hid. destruct b; by simplify_eq.
  - by destruct b.
  - intros id Hid. naive_solver.
  - intros u Hu. apply Hq in Hu. case_decide; [by rewrite Hu|done].
  - intros a w. rewrite Hw. eapply readers_kept; [exact Hp|]. destruct Ht as [Ht|Ht]; [by left|right; congruence].
  - rewrite Hh. apply (pi_owned Hp).
Qed.

Lemma add_inv s s' th D A O qs rs t id :
  pinv (Proto s th D A O) qs rs -> th !! t = Some (Allocated id) -> add_waiter id t s = Ok s' ->
  pinv (Proto s' (<[t := Waiting id]> th) D A O) qs rs.
Proof.
  intros Hp Ht Ha. pose proof (pi_ids Hp) as Hok. simpl in Hok.
  pose proof (pi_phase Hp t _ Ht) as (Hheld & Hfl & Hw). simpl in Hheld, Hfl, Hw.
  pose proof (held_range s id Hok Hheld) as Hr.
  unfold add_waiter in Ha. rewrite elem_info in Ha by done. cbn [mbind res_bind] in Ha. injection Ha as <-.
  rewrite Hw. change (Completion.add_wait_queue [] t) with [t]. set (ri := RI _ _ _). set (s' := block t (set_req id ri s)).
  assert (forall id', 0 <= id' -> info s' id' = if decide (id' = id) then ri else info s id') as Hinfo.
  { intros id' Hid'. by apply info_insert. }
  assert (forall u ph id', u <> t -> th !! u = Some ph -> phase_id ph = Some id' -> info s' id' = info s id') as Hother.
  { intros u ph id' Hne Hu Hid'. destruct (held_id _ _ _ u ph id' Hp Hu Hid') as [Hr' _].
    rewrite Hinfo by lia. rewrite decide_False; [done|]. eapply (other_id _ _ _ t id u); [exact Hp|simpl; tauto|done..]. }
  eapply (thread_step_inv _ _ _ _ _ _ _ _ t (Some (Waiting id))); [exact Hp|]. constructor.
  - done.
  - destruct Hok as [Hl Hn Hpr]. constructor; simpl; [by rewrite length_insert| |done].
    rewrite (live_insert _ _ (info s id)) by (by apply info_lookup). simpl. rewrite Hn. lia.
  - apply lookup_insert_eq.
  - intros u Hu. by rewrite lookup_insert_ne.
  - intros u ph id' Hne Hu Hid'. split; [by eapply Hother|]. simpl. set_solver.
  - intros u id' Hne Hu _ Han. eapply answered_mono; [done| |done|done]. by eapply Hother.
  - intros ph [= <-]. simpl. unfold held. rewrite Hinfo, decide_True by (done || apply Hheld).
    split; [exact Hheld|]. splits; [done|done|set_solver].
  - intros ph id' u ph' [= <-] [= <-] Hne Hu Hid'. assert (id <> id) as []; [|done].
    eapply (other_id _ _ _ t id u ph'); [exact Hp|simpl; tauto|done..].
  - done.
  - congruence.
  - intros u Hu. eapply (req_wq_kept s); [exact Hp|congruence|done].
  - intros a w Hw' Hz. eapply (readers_kept s); [exact Hp|right; congruence|exact Hw'|exact Hz].
  - apply (pi_owned Hp).
Qed.

(** *** The end of a request *)

Lemma released_fields id s :
  ids_ok s -> 0 <= id < NR_REQS ->
  x_ring (released id s) = x_ring s /\ req_wq (released id s) = req_wq s /\
  watches (released id s) = watches s /\ heap (released id s) = heap s /\
  (forall id', 0 <= id' -> id' <> id -> info (released id s) id' = info s id') /\
  (forall t, t ∉ req_wq s -> t ∈ blocked (released id s) <-> t ∈ blocked s).
Proof.
  intros Hok Hid. unfold released. set (s1 := set_reqs _ _ _ s).
  assert (forall id', 0 <= id' -> id' <> id -> info s1 id' = info s id') as Hi.
  { intros id' Hid' Hne. unfold s1. erewrite info_insert; [|rewrite (ids_length s Hok); exact Hid|done|done].
    by rewrite decide_False. }
  destruct (_ || _); [|done]. destruct (wake_up_fields (req_wq s1) s1) as (-> & Hri & _ & _ & -> & _ & -> & -> & Hb).
  splits; try done.
  - intros id' Hid' Hne. unfold info. rewrite Hri. by apply Hi.
  - intros t Ht. rewrite Hb. simpl. tauto.
Qed.

Lemma msg_reply_end_spec s A O id :
  ids_ok s -> held s id -> answered s A O id ->
  msg_reply_end id s = Ok (reply (info s id), released id s) /\ ids_ok (released id s).
Proof.
  intros Hok Hh [(m & body & Hb & _ & Hm & Hi) _]. pose proof (held_range s id Hok Hh) as Hr.
  destruct (release_spec id s (info s id) Hok) as [Hrel Hok']; [lia|by apply info_lookup|apply Hh|]. split; [|done].
  unfold msg_reply_end. rewrite elem_info by done. cbn [mbind res_bind]. unfold block_at. rewrite Hb.
  cbn [access mbind res_bind]. rewrite reply_msg_of by done. cbn [mbind res_bind]. destruct Hh as [Hrange _].
  rewrite Hi, wrap_small by (unfold NR_REQS in Hrange; lia). rewrite Z.eqb_refl. cbn [negb bug_on mbind res_bind]. by rewrite Hrel.
Qed.

(** A thread that has sent its request and is not blocked has its answer. *)
Lemma sent_answered s th D A O qs rs t id :
  pinv (Proto s th D A O) qs rs -> th !! t = Some (Sent id) -> t ∉ blocked s ->
  held s id /\ id ∉ under_way qs D rs /\ answered s A O id.
Proof.
  intros Hp Ht Hb. destruct (pi_phase Hp t _ Ht) as (Hh & Hin & Hout). simpl in *.
  assert (id ∉ under_way qs D rs) as Hn by (intros Hi; by destruct (Hin Hi)).
  split; [done|]. split; [done|]. apply (Hout Hn).
Qed.

Lemma end_inv s s' th D A O qs rs t id rep :
  pinv (Proto s th D A O) qs rs -> th !! t = Some (Sent id) -> t ∉ blocked s -> msg_reply_end id s = Ok (rep, s') ->
  pinv (Proto s' (delete t th) D A ({[rep]} ∪ O)) qs rs.
Proof.
  intros Hp Ht Hb He. pose proof (pi_ids Hp) as Hok. simpl in Hok.
  destruct (sent_answered _ _ _ _ _ _ _ t id Hp Ht Hb) as (Hh & Hn & Han).
  destruct (msg_reply_end_spec s A O id Hok Hh Han) as [He' Hok']. rewrite He' in He. injection He as <- <-.
  destruct (released_fields id s Hok (proj1 Hh)) as (Hr & Hq & Hw & Hhp & Hi & Hbl).
  assert (forall u ph id', u <> t -> th !! u = Some ph -> phase_id ph = Some id' ->
            0 <= id' /\ id' <> id) as Hne.
  { intros u ph id' Hne Hu Hid'. destruct (held_id _ _ _ u ph id' Hp Hu Hid') as [Hr' _]. split; [lia|].
    eapply (other_id _ _ _ t id u); [exact Hp|simpl; tauto|done..]. }
  eapply (thread_step_inv _ _ _ _ _ _ _ _ t None); [exact Hp|]. constructor.
  - done.
  - done.
  - apply lookup_delete_eq.
  - intros u Hu. by rewrite lookup_delete_ne.
  - intros u ph id' Hu Hph Hid'. destruct (Hne u ph id') as [H0 H1]; [done..|]. split; [by apply Hi|]. apply Hbl.
    intros Hin. pose proof (pi_req_wq Hp u Hin) as Hwt. simpl in Hwt. by simplify_eq.
  - intros u id' Hu Hph Hn' Han'. destruct (Hne u _ id' Hu Hph eq_refl) as [H0 H1].
    eapply answered_mono; [done|by apply Hi|done|]. intros a b Ha Hab ->. rewrite Hhp. split; [done|].
    apply not_elem_of_union. split; [|done]. intros Heq%elem_of_singleton. apply H1. by eapply (pi_replies Hp u t).
  - done.
  - done.
  - done.
  - intros id' Ht'. simpl in *. congruence.
  - intros u. rewrite Hq. eapply (req_wq_kept s); [exact Hp|congruence].
  - intros a w. rewrite Hw. eapply (readers_kept s); [exact Hp|right; congruence].
  - intros a. rewrite Hhp. intros [->%elem_of_singleton|Ha]%elem_of_union; [|by apply (pi_owned Hp)].
    destruct Han as [(m & body & Hbl' & _) _]. by exists (msg_bytes m body).
Qed.

(** *** Reading a watch *)

Lemma read_inv s s' th D A O qs rs t a o :
  pinv (Proto s th D A O) qs rs -> th !! t = None \/ th !! t = Some (Reading a) ->
  xenbus_read_watch t a s = Ok (o, s') ->
  pinv (Proto s' (if o is Some _ then delete t th else <[t := Reading a]> th) D A O) qs rs.
Proof.
  intros Hp Ht Ha.
  assert (forall u ph id, th !! u = Some ph -> phase_id ph = Some id -> u <> t) as Hne by (intros u ph id Hu Hi ->; naive_solver).
  assert (exists w', x_ring s' = x_ring s /\ req_info s' = req_info s /\ ids_ok s' /\ heap s' = heap s /\ req_wq s' = req_wq s /\
    watches s' = <[a := w']> (watches s) /\ (forall u, u <> t -> u ∈ blocked s' <-> u ∈ blocked s) /\
    (w_thread w' <> 0 -> w_thread w' = t /\ o = None)) as (w' & Hr & Hi & Hok & Hh & Hq & Hw & Hb & Hwt).
  { pose proof (pi_ids Hp) as [? ? ?]. unfold xenbus_read_watch in Ha. apply res_bind_ok in Ha as (w & Hw & Ha).
    destruct (path_cons_idx w <? path_prod_idx w).
    - apply res_bind_ok in Ha as (q & _ & Ha). injection Ha as <- <-. eexists. simpl. splits; done.
    - injection Ha as <- <-. eexists. simpl. splits; try done. intros u Hu. simpl. set_solver. }
  assert (forall id, info s' id = info s id) as Hinfo by (intros id; unfold info; by rewrite Hi).
  eapply (thread_step_inv _ _ _ _ _ _ _ _ t (if o is Some _ then None else Some (Reading a))); [exact Hp|]. constructor.
  - done.
  - done.
  - destruct o; [apply lookup_delete_eq|apply lookup_insert_eq].
  - intros u Hu. destruct o; [by rewrite lookup_delete_ne|by rewrite lookup_insert_ne].
  - intros u ph id Hu _ _. rewrite Hinfo. split; [done|]. by apply Hb.
  - intros u id _ _ _ Han. eapply answered_mono; [done|apply Hinfo|done|by rewrite Hh].
  - intros ph Hph. destruct o; by simplify_eq.
  - intros ph id u ph' Hph Hid. destruct o; by simplify_eq.
  - by destruct o.
  - intros id Hid. naive_solver.
  - intros u. rewrite Hq. eapply (req_wq_kept s); [exact Hp|naive_solver].
  - intros b w. rewrite Hw. intros [[<- <-]|[Hab Hb']]%lookup_insert_Some Hz.
    + destruct (Hwt Hz) as [He ->]. by rewrite decide_True by done.
    + pose proof (pi_readers Hp b w Hb' Hz) as Hrd. simpl in Hrd. case_decide; [|by exists w]. subst. naive_solver.
  - rewrite Hh. apply (pi_owned Hp).
Qed.

(** ** Steps that leave the threads alone *)

(** The state [s'] differs from [s] in the heap, in the ring, in blocked threads that have no
    request and in the paths of watches. *)
Record quiet_step (s s' : xb) (th : gmap Z phase) (fl : list Z) (A A' : gmap Z (list Z)) (O O' : gset Z) : Prop := {
  qt_info : req_info s' = req_info s;
  qt_live : nr_live_reqs s' = nr_live_reqs s;
  qt_probe : probe s' = probe s;
  qt_wq : req_wq s' = req_wq s;
  qt_blocked t ph id : th !! t = Some ph -> phase_id ph = Some id -> (t ∈ blocked s' <-> t ∈ blocked s);
  qt_answered t id : th !! t = Some (Sent id) -> id ∉ fl -> answered s A O id -> answered s' A' O' id;
  qt_readers a w : watches s' !! a = Some w -> exists w0, watches s !! a = Some w0 /\ w_thread w0 = w_thread w;
  qt_owned a : a ∈ O' -> (forall b, b ∈ O -> is_Some (heap s !! b)) -> is_Some (heap s' !! a)
}.

Record ring_holds (r : ring) (qs rs : msg_list) (A : gmap Z (list Z)) : Prop := {
  rh_wf : ring_wf r;
  rh_qs : req_queue r = msgs qs;
  rh_rs : rsp_queue r = msgs rs;
  rh_qs_wf : Forall (fun x => msg_wf x.1 x.2) qs;
  rh_rs_wf : Forall (fun x => msg_wf x.1 x.2) rs;
  rh_answers x : x ∈ rs -> is_reply x -> A !! m_req_id x.1 = Some (msg_bytes x.1 x.2)
}.

Lemma pinv_ring p qs rs : pinv p qs rs -> ring_holds (x_ring (p_xb p)) qs rs (p_answers p).
Proof. intros []. by constructor. Qed.

Lemma quiet_step_inv s s' th D D' A A' O O' qs qs' rs rs' :
  pinv (Proto s th D A O) qs rs -> quiet_step s s' th (under_way qs D rs) A A' O O' ->
  ring_holds (x_ring s') qs' rs' A' -> under_way qs' D' rs' ≡ₚ under_way qs D rs ->
  pinv (Proto s' th D' A' O') qs' rs'.
Proof.
  intros Hp [Hi Hl Hpr Hq Hb Ha Hr Ho] [? ? ? ? ? ?] Hperm.
  assert (forall id, info s' id = info s id) as Hinfo by (intros id; unfold info; by rewrite Hi).
  assert (forall id, id ∈ under_way qs' D' rs' <-> id ∈ under_way qs D rs) as Hfl by (intros id; by rewrite Hperm).
  constructor; simpl; try done.
  - destruct (pi_ids Hp). constructor; by rewrite ?Hi, ?Hl, ?Hpr.
  - rewrite Hperm. apply (pi_nodup Hp).
  - intros t ph Ht. pose proof (pi_phase Hp t ph Ht) as Hph. simpl in Hph. eapply phase_ok_mono; [exact Hph| | |].
    + intros id _ _. by rewrite Hinfo, Hfl.
    + intros id Hid. by eapply Hb.
    + intros id -> Hn. by eapply Ha.
  - apply (pi_inj Hp).
  - intros id Hid. apply (pi_sender Hp id). by apply Hfl.
  - intros t t' id id' Ht Ht' Hn Hn'. rewrite !Hinfo. rewrite Hfl in Hn, Hn'. by eapply (pi_replies Hp t t').
  - intros t. rewrite Hq. apply (pi_req_wq Hp).
  - intros a w Hw Hz. destruct (Hr a w Hw) as (w0 & Hw0 & He). rewrite <- He. apply (pi_readers Hp a w0); [done|congruence].
  - intros a Ha'. apply Ho; [done|]. apply (pi_owned Hp).
Qed.

(** A step that only changes the heap and the ownership of blocks. *)
Lemma heap_inv s h th D A O O' qs rs :
  pinv (Proto s th D A O) qs rs ->
  (forall a b, a ∉ O -> heap s !! a = Some b -> h !! a = Some b /\ a ∉ O') ->
  (forall a, a ∈ O' -> (forall b, b ∈ O -> is_Some (heap s !! b)) -> is_Some (h !! a)) ->
  pinv (Proto (set_heap h s) th D A O') qs rs.
Proof.
  intros Hp Hh Ho. eapply quiet_step_inv; [exact Hp| |by apply (pinv_ring _ _ _ Hp)|done]. constructor; try done.
  - intros t id _ _ Han. eapply answered_mono; [done..|]. intros a b Ha Hb _. by apply Hh.
  - intros a w Hw. by exists w.
Qed.

Lemma free_inv s s' th D A O qs rs a :
  pinv (Proto s th D A O) qs rs -> a ∈ O -> free a s = Ok s' -> pinv (Proto s' th D A (O ∖ {[a]})) qs rs.
Proof.
  intros Hp Ha Hf. unfold free in Hf.
  assert (exists h, s' = set_heap h s /\ forall b, b <> a -> h !! b = heap s !! b) as (h & -> & Hh).
  { destruct (a =? 0); [injection Hf as <-; exists (heap s); by destruct s|].
    destruct (heap s !! a); [|done]. injection Hf as <-. eexists. split; [done|]. intros b Hb. by rewrite lookup_delete_ne. }
  apply (heap_inv _ _ _ _ _ O); [done| |].
  - intros b x Hb Hx. rewrite Hh by (intros ->; done). set_solver.
  - intros b [Hb Hne]%elem_of_difference Ho. rewrite Hh by set_solver. by apply Ho.
Qed.

Lemma new_inv malloc size c a s s' th D A O qs rs :
  pinv (Proto s th D A O) qs rs -> malloc_ok malloc -> new_block malloc size c s = Ok (a, s') ->
  pinv (Proto s' th D A ({[a]} ∪ O)) qs rs.
Proof.
  intros Hp Hm Hn. unfold new_block in Hn. destruct (Z.eqb_spec (malloc (used s) size) 0) as [|Hz]; [done|].
  injection Hn as <- <-. destruct (malloc_fresh malloc s size Hm Hz) as [Hf _].
  apply (heap_inv _ _ _ _ _ O); [done| |].
  - intros b x Hb Hx. assert (b <> malloc (used s) size) by congruence. rewrite lookup_insert_ne by done. set_solver.
  - intros b Hb Ho. destruct (decide (b = malloc (used s) size)) as [->|]; [rewrite lookup_insert_eq; by eexists|].
    rewrite lookup_insert_ne by done. apply Ho. set_solver.
Qed.

Lemma ring_quiet s r th fl A O : quiet_step s (set_ring r s) th fl A A O O.
Proof. constructor; try done; [|eauto..]. intros t id _ _ Han. by eapply answered_mono. Qed.

Lemma take_inv s th D A O qs rs m body r' :
  pinv (Proto s th D A O) qs rs -> takes (x_ring s) m body r' ->
  exists qs', pinv (Proto (set_ring r' s) th (D ++ [m_req_id m]) A O) qs' rs.
Proof.
  intros Hp [Hwf Hm Hq Hr]. pose proof (pinv_ring _ _ _ Hp) as [Hw Hqs Hrs Hqw Hrw Han]. simpl in *.
  rewrite Hqs in Hq. destruct (msgs_next qs m body _ Hqw Hm Hq) as (qs' & -> & He). apply Forall_cons in Hqw as [_ Hqw].
  exists qs'. eapply quiet_step_inv; [exact Hp|apply ring_quiet| |].
  - constructor; simpl; try done. by rewrite Hr.
  - unfold under_way. rewrite (Permutation_app_comm D [m_req_id m]). simpl. by rewrite <- Permutation_middle.
Qed.

Lemma event_inv s th D A O qs rs m body r' :
  pinv (Proto s th D A O) qs rs -> sends (x_ring s) m body r' -> m_type m = XS_WATCH_EVENT ->
  pinv (Proto (set_ring r' s) th D A O) qs (rs ++ [(m, body)]).
Proof.
  intros Hp [Hwf Hm Hq Hr] Ht. pose proof (pinv_ring _ _ _ Hp) as [Hw Hqs Hrs Hqw Hrw Han]. simpl in *.
  assert (~ is_reply (m, body)) as Hn by (unfold is_reply; simpl; tauto).
  eapply quiet_step_inv; [exact Hp|apply ring_quiet| |].
  - constructor; simpl; try done; [by rewrite Hq| | |].
    + rewrite Hr, Hrs, msgs_app, msgs_cons. unfold msgs. simpl. by rewrite app_nil_r.
    + apply Forall_app. split; [done|]. by constructor.
    + intros x [Hx | ->%list_elem_of_singleton]%elem_of_app Hrep; [by apply Han|done].
  - unfold under_way. rewrite reply_ids_app, reply_ids_cons, decide_False by done. simpl. by rewrite app_nil_r.
Qed.

Lemma answer_inv s th D1 D2 A O qs rs m body r' :
  pinv (Proto s th (D1 ++ m_req_id m :: D2) A O) qs rs -> sends (x_ring s) m body r' -> m_type m <> XS_WATCH_EVENT ->
  pinv (Proto (set_ring r' s) th (D1 ++ D2) (<[m_req_id m := msg_bytes m body]> A) O) qs (rs ++ [(m, body)]).
Proof.
  intros Hp [Hwf Hm Hq Hr] Ht. pose proof (pinv_ring _ _ _ Hp) as [Hw Hqs Hrs Hqw Hrw Han]. simpl in *.
  assert (is_reply (m, body)) as Hrep by done. pose proof (pi_nodup Hp) as Hnd. simpl in Hnd.
  assert (m_req_id m ∉ reply_ids rs) as Hnr.
  { unfold under_way in Hnd. apply NoDup_app in Hnd as (_ & _ & Hnd). apply NoDup_app in Hnd as (_ & Hnd & _).
    intros Hin. eapply Hnd; [|exact Hin]. set_solver. }
  eapply quiet_step_inv; [exact Hp| | |].
  - constructor; try done.
    + intros t id Hid Hn Han'. eapply answered_mono; [done|done| |done]. apply lookup_insert_ne. intros He. apply Hn.
      rewrite <- He. unfold under_way. set_solver.
    + intros a w Hw'. by exists w.
    + auto.
  - constructor; simpl; try done; [by rewrite Hq| | |].
    + rewrite Hr, Hrs, msgs_app, msgs_cons. unfold msgs. simpl. by rewrite app_nil_r.
    + apply Forall_app. split; [done|]. by constructor.
    + intros x [Hx | ->%list_elem_of_singleton]%elem_of_app Hx'; [|apply lookup_insert_eq].
      rewrite lookup_insert_ne; [by apply Han|]. intros He. apply Hnr. rewrite He. unfold reply_ids, req_ids.
      apply list_elem_of_fmap. exists x. split; [done|]. by apply list_elem_of_filter.
  - unfold under_way. rewrite reply_ids_app, reply_ids_cons, decide_True by done. simpl.
    rewrite (Permutation_app_comm (reply_ids rs) [m_req_id m]). rewrite <- !app_assoc. simpl.
    by rewrite <- (Permutation_middle D2).
Qed.

(** ** The receiving thread *)

(** What handling a watch event changes: the heap grows, a path is added to a watch, and the
    thread that reads it is woken. *)
Record event_frame (s s' : xb) : Prop := {
  ev_ring : x_ring s' = x_ring s;
  ev_info : req_info s' = req_info s;
  ev_live : nr_live_reqs s' = nr_live_reqs s;
  ev_probe : probe s' = probe s;
  ev_wq : req_wq s' = req_wq s;
  ev_heap a b : heap s !! a = Some b -> heap s' !! a = Some b;
  ev_watches a w : watches s' !! a = Some w -> exists w0, watches s !! a = Some w0 /\ w_thread w0 = w_thread w;
  ev_blocked t : t ∈ blocked s' -> t ∈ blocked s;
  ev_woken t : t ∈ blocked s -> t ∈ blocked s' \/ exists a w, watches s !! a = Some w /\ w_thread w = t /\ t <> 0
}.

Lemma event_frame_refl s : event_frame s s.
Proof. constructor; eauto. Qed.

Lemma strdup_ptr_frame malloc x s d s' :
  malloc_ok malloc -> strdup_ptr malloc x s = Ok (d, s') ->
  exists h, s' = set_heap h s /\ forall a b, heap s !! a = Some b -> h !! a = Some b.
Proof.
  intros Hm Hs. unfold strdup_ptr in Hs. apply res_bind_ok in Hs as (n & _ & Hs). apply res_bind_ok in Hs as (o & Ho & Hs).
  destruct o as [b|]; injection Hs as <- <-; [|exists (heap s); by destruct s]. eexists. split; [done|].
  intros a b' Hb. destruct (Z.eqb_spec (malloc (used s) (wrap64 (sgn32 n + 1))) 0) as [|Hz].
  { unfold CString.strdup in Ho. apply res_bind_ok in Ho as (k & _ & Ho). done. }
  destruct (malloc_fresh malloc s _ Hm Hz) as [Hf _]. rewrite lookup_insert_ne; [done|congruence].
Qed.

Lemma watch_event_frame malloc p payload s s' :
  malloc_ok malloc -> watch_event malloc p payload s = Ok s' -> event_frame s s'.
Proof.
  intros Hm He. unfold watch_event in He. apply res_bind_ok in He as (n & _ & He). apply res_bind_ok in He as (a & _ & He).
  destruct (a =? 0); [injection He as <-; apply event_frame_refl|].
  apply res_bind_ok in He as (w & Hw%access_ok & He). apply res_bind_ok in He as (_ & _ & He).
  apply res_bind_ok in He as ([d s1] & Hd & He). apply res_bind_ok in He as (_ & _ & He).
  destruct (strdup_ptr_frame _ _ _ _ _ Hm Hd) as (h & -> & Hh). simpl in He. injection He as <-.
  set (w' := Watch _ _ _ _ _ _). set (s2 := set_watches _ _ _).
  assert (event_frame s s2) as Hf.
  { constructor; simpl; try done; [|by left]. intros b w0. intros [[<- <-]|[_ Hb]]%lookup_insert_Some; eauto. }
  destruct (Z.eqb_spec (w_thread w) 0) as [|Hz]; [done|]. destruct Hf as [Fr Fi Fl Fp Fq Fh Fw Fb Fwk].
  constructor; simpl; try done; [set_solver|].
  intros t Ht. destruct (decide (t = w_thread w)) as [->|]; [right; eauto|left; set_solver].
Qed.

Lemma receive_event_frame malloc s b s' m body rest :
  malloc_ok malloc -> next_msg (x_ring s) m body rest -> m_type m = XS_WATCH_EVENT -> receive malloc s = Ok (b, s') ->
  exists s0, event_frame s s0 /\ s' = consume (m_len m + msg_size) s0.
Proof.
  intros Hm Hn Ht Hr. pose proof (next_msg_avail _ _ _ _ Hn) as Ha. destruct (next_msg_read _ _ _ _ Hn) as [Hh Hb].
  destruct Hn as [Hwf [Hrange Hl] _]. pose proof msg_size_pos. unfold receive in Hr. fold (rsp_used (x_ring s)) in Hr.
  rewrite (proj2 (Z.ltb_ge _ msg_size)) in Hr by (destruct Hrange; lia). rewrite Hh in Hr. cbn [mbind res_bind] in Hr.
  rewrite dec_enc in Hr by done. rewrite (proj2 (Z.ltb_ge _ _)) in Hr by (destruct Hrange; lia).
  rewrite (proj2 (Z.eqb_eq _ _)) in Hr by done. rewrite Hb in Hr. cbn [mbind res_bind] in Hr.
  apply res_bind_ok in Hr as ([p s1] & H1 & Hr). apply res_bind_ok in Hr as (s2 & H2 & Hr).
  apply res_bind_ok in Hr as (s3 & H3 & Hr). injection Hr as <- <-.
  unfold new_block in H1. destruct (Z.eqb_spec (malloc (used s) (m_len m + msg_size)) 0) as [|Hz]; [done|].
  injection H1 as <- <-. set (p := malloc _ _) in *. destruct (malloc_fresh malloc s _ Hm Hz) as [Hfp _]. fold p in Hfp.
  destruct (watch_event_frame _ _ _ _ _ Hm H2) as [Fr Fi Fl Fp Fq Fh Fw Fb Fwk]. simpl in *.
  unfold free in H3. rewrite (proj2 (Z.eqb_neq p 0)) in H3 by done. simpl in H3.
  destruct (heap s2 !! p) eqn:Hp2; [|done]. injection H3 as <-.
  exists (set_heap (delete p (heap s2)) s2). split; [|done]. constructor; simpl; try done.
  intros a x Hx. assert (a <> p) by congruence. rewrite lookup_delete_ne by done. apply Fh. by rewrite lookup_insert_ne.
Qed.

Lemma consume_info n s id : info (consume n s) id = info s id.
Proof. done. Qed.

Lemma receive_event_inv malloc s b s' th D A O qs rs m body :
  pinv (Proto s th D A O) qs ((m, body) :: rs) -> malloc_ok malloc -> m_type m = XS_WATCH_EVENT ->
  receive malloc s = Ok (b, s') -> pinv (Proto s' th D A O) qs rs.
Proof.
  intros Hp Hm Ht Hr. pose proof (pinv_ring _ _ _ Hp) as [Hw Hqs Hrs Hqw Hrw Han]. simpl in *.
  apply Forall_cons in Hrw as [Hmw Hrw]. simpl in Hmw.
  assert (next_msg (x_ring s) m body (msgs rs)) as Hn by (constructor; done).
  destruct (receive_event_frame _ _ _ _ _ _ _ Hm Hn Ht Hr) as (s0 & [Fr Fi Fl Fp Fq Fh Fw Fb Fwk] & ->).
  assert (x_ring (consume (m_len m + msg_size) s0) = x_ring (consume (m_len m + msg_size) s)) as Hring.
  { unfold consume. simpl. by rewrite Fr. }
  destruct (consume_queue _ _ _ _ s eq_refl Hn) as (Hwf' & Hrq & Hreq & _).
  assert (~ is_reply (m, body)) as Hnr by (unfold is_reply; simpl; tauto).
  eapply quiet_step_inv; [exact Hp| | |].
  - constructor; simpl; try done.
    + intros t ph id Hph Hid. split; [apply Fb|]. intros Hin. destruct (Fwk t Hin) as [|(a & w & Hwa & Hwt & Hz)]; [done|].
      subst t. pose proof (pi_readers Hp a w Hwa Hz) as Hrd. simpl in Hrd. by simplify_eq.
    + intros t id _ _ Hans. eapply answered_mono; [done| |done|].
      * rewrite consume_info. unfold info. by rewrite Fi.
      * intros a x Ha Hx _. simpl. split; [by apply Fh|done].
    + intros a Ha Ho. destruct (Ho a Ha) as [x Hx]. exists x. by apply Fh.
  - rewrite Hring. constructor; try done. intros x Hx. apply Han. by right.
  - unfold under_way. by rewrite reply_ids_cons, decide_False.
Qed.

(** What storing a reply at the fresh address [q] changes. *)
Record reply_step (s s' : xb) (m : xsd_sockmsg) (body : list Z) (q : Z) : Prop := {
  rp_ids : ids_ok s';
  rp_info id : 0 <= id ->
    info s' id = if decide (id = m_req_id m) then RI (in_use (info s id)) (waitq (info s id)) q else info s id;
  rp_fresh : heap s !! q = None;
  rp_heap : heap s' = <[q := msg_bytes m body]> (heap s);
  rp_blocked t : t ∈ blocked s' <-> t ∈ blocked s /\ t ∉ waitq (info s (m_req_id m));
  rp_wq : req_wq s' = req_wq s;
  rp_watches : watches s' = watches s
}.

Lemma reply_step_inv s s' th D A O qs rs m body q :
  pinv (Proto s th D A O) qs ((m, body) :: rs) -> is_reply (m, body) -> msg_wf m body -> reply_step s s' m body q ->
  ring_holds (x_ring s') qs rs A -> pinv (Proto s' th D A O) qs rs.
Proof.
  intros Hp Hrep Hmw [Hok Hinfo Hf Hh Hb Hq Hw] [? ? ? ? ? ?]. set (id := m_req_id m) in *.
  assert (under_way qs D ((m, body) :: rs) ≡ₚ id :: under_way qs D rs) as Hperm.
  { unfold under_way. rewrite reply_ids_cons, decide_True by done. rewrite app_assoc, <- Permutation_middle.
    by rewrite <- app_assoc. }
  assert (id ∈ under_way qs D ((m, body) :: rs)) as Hin by (rewrite Hperm; by left).
  pose proof (pi_nodup Hp) as Hnd. simpl in Hnd. rewrite Hperm in Hnd. apply NoDup_cons in Hnd as [Hnid Hnd].
  destruct (pi_sender Hp id Hin) as [t Hts]. simpl in Hts.
  pose proof (pi_phase Hp t _ Hts) as (Hheld & Hin' & _). simpl in Hheld, Hin'. destruct (Hin' Hin) as [Hwq Htb].
  assert (forall id', id' <> id -> id' ∈ under_way qs D rs <-> id' ∈ under_way qs D ((m, body) :: rs)) as Hfl.
  { intros id' Hne. rewrite Hperm, elem_of_cons. tauto. }
  assert (forall u ph id', th !! u = Some ph -> phase_id ph = Some id' -> 0 <= id' /\ (u <> t -> id' <> id)) as Hne.
  { intros u ph id' Hu Hid'. destruct (held_id _ _ _ u ph id' Hp Hu Hid') as [Hr' _]. split; [lia|]. intros Hut.
    eapply (other_id _ _ _ t id u ph); [exact Hp|simpl; tauto|done..]. }
  assert (forall u id', th !! u = Some (Sent id') -> id' ∉ under_way qs D rs -> u <> t ->
            info s' id' = info s id' /\ answered s A O id') as Hold.
  { intros u id' Hu Hn Hut. destruct (Hne u _ id' Hu eq_refl) as [H0 Hni]. rewrite Hinfo, decide_False by auto. split; [done|].
    destruct (pi_phase Hp u _ Hu) as (_ & _ & Hout). apply Hout. by rewrite <- Hfl by auto. }
  constructor; simpl; try done.
  - intros u ph Hu. pose proof (pi_phase Hp u ph Hu) as Hph. simpl in Hph. destruct (decide (u = t)) as [->|Hut].
    + rewrite Hts in Hu. injection Hu as <-. simpl. unfold held. destruct Hheld as [Hr Hu]. rewrite Hinfo, decide_True by (done || lia).
      split; [done|]. split; [done|]. intros _. split; [rewrite Hb, Hwq; set_solver|]. constructor.
      * exists m, body. rewrite Hinfo, decide_True by (done || lia). simpl. rewrite Hh, lookup_insert_eq. splits; [done|eapply (pi_answers Hp (m, body)); [by left|done]|apply Hmw..|done].
      * rewrite Hinfo, decide_True by (done || lia). simpl. intros Hqo. destruct (pi_owned Hp q Hqo) as [x Hx]. simpl in Hx. congruence.
    + eapply phase_ok_mono; [exact Hph| | |].
      * intros id' Hid' _. destruct (Hne u ph id' Hu Hid') as [H0 Hni]. rewrite Hinfo, decide_False by auto. split; [done|auto].
      * intros id' _. rewrite Hb, Hwq. set_solver.
      * intros id' -> _ Hans. destruct (Hne u _ id' Hu eq_refl) as [H0 Hni]. eapply answered_mono; [exact Hans| |done|].
        { by rewrite Hinfo, decide_False by auto. }
        intros a b Ha Hab _. rewrite Hh, lookup_insert_ne by congruence. done.
  - apply (pi_inj Hp).
  - intros id' Hid'. apply (pi_sender Hp id'). simpl. rewrite Hperm. by right.
  - assert (forall u id', th !! u = Some (Sent id') -> id' ∉ under_way qs D rs -> u <> t -> reply (info s' id') <> q) as Hnq.
    { intros u id' Hu Hn Hut Heq. destruct (Hold u id' Hu Hn Hut) as [Hi [(m' & b' & Hb' & _) _]]. rewrite Hi in Heq. congruence. }
    assert (reply (info s' id) = q) as Hidq by (rewrite Hinfo, decide_True by (done || apply Hheld); done).
    intros u u' id1 id2 Hu Hu' Hn1 Hn2 He. destruct (decide (u = t)) as [->|Hut], (decide (u' = t)) as [->|Hut']; simplify_eq; try done.
    + by destruct (Hnq u' id2 Hu' Hn2 Hut').
    + by destruct (Hnq u id1 Hu Hn1 Hut).
    + destruct (Hold u id1 Hu Hn1 Hut) as [Hi1 _], (Hold u' id2 Hu' Hn2 Hut') as [Hi2 _]. rewrite Hi1, Hi2 in He.
      destruct (Hne u _ id1 Hu eq_refl) as [_ Hni1], (Hne u' _ id2 Hu' eq_refl) as [_ Hni2].
      eapply (pi_replies Hp u u'); [done..| | |done]; by rewrite <- Hfl by auto.
  - rewrite Hq. apply (pi_req_wq Hp).
  - rewrite Hw. apply (pi_readers Hp).
  - intros a Ha. rewrite Hh. destruct (decide (a = q)) as [->|]; [rewrite lookup_insert_eq; by eexists|].
    rewrite lookup_insert_ne by done. by apply (pi_owned Hp).
Qed.

Lemma receive_reply_inv malloc s b s' th D A O qs rs m body :
  pinv (Proto s th D A O) qs ((m, body) :: rs) -> malloc_ok malloc -> is_reply (m, body) ->
  receive malloc s = Ok (b, s') -> pinv (Proto s' th D A O) qs rs.
Proof.
  intros Hp Hm Ht Hr. pose proof (pinv_ring _ _ _ Hp) as [Hw Hqs Hrs Hqw Hrw Han]. simpl in *.
  pose proof (pi_ids Hp) as Hok. simpl in Hok. apply Forall_cons in Hrw as [Hmw Hrw]. simpl in Hmw.
  assert (next_msg (x_ring s) m body (msgs rs)) as Hn by (constructor; done).
  destruct (consume_queue _ _ _ _ s eq_refl Hn) as (Hwf' & Hrq & Hreq & _).
  rewrite (receive_reply _ _ _ _ _ Hn Ht) in Hr. destruct (Z.leb_spec (Z.of_nat (length (req_info s))) (m_req_id m)) as [|Hlt]; [done|].
  destruct (_ =? 0); [done|]. cbn zeta in Hr.
  destruct (Z.eqb_spec (malloc (used s) (m_len m + msg_size)) 0) as [|Hz]; [done|]. injection Hr as <- <-.
  set (q := malloc _ _) in *. destruct (malloc_fresh malloc s _ Hm Hz) as [Hfp _]. fold q in Hfp.
  assert (0 <= m_req_id m < Z.of_nat (length (req_info s))) as Hid by (destruct Hmw as [(_ & ? & _) _]; lia).
  unfold replied. fold (info s (m_req_id m)). set (ri := RI _ _ _).
  set (s2 := consume _ (set_req (m_req_id m) ri (set_heap _ s))).
  destruct (wake_up_fields (waitq (info s (m_req_id m))) s2) as (Er & Ei & El & Ep & Eq & _ & Ew & Eh & Eb).
  apply (reply_step_inv s _ th D A O qs rs m body q); [done|done|done| |].
  - constructor; try done.
    + destruct Hok as [Hl Hlv Hpr]. constructor; rewrite ?Ei, ?El, ?Ep; simpl; [by rewrite length_insert| |done].
      rewrite (live_insert _ _ (info s (m_req_id m))) by (by apply info_lookup). simpl. rewrite Hlv. lia.
    + intros id Hid0. unfold info at 1. rewrite Ei.
      change (info (set_req (m_req_id m) ri s) id = if decide (id = m_req_id m) then RI (in_use (info s id)) (waitq (info s id)) q else info s id).
      unfold set_req. erewrite info_insert; [|exact Hid|done|done]. case_decide; [by subst|done].
  - rewrite Er. constructor; try done. intros x Hx. apply Han. by right.
Qed.

Lemma receive_inv malloc s b s' th D A O qs rs :
  pinv (Proto s th D A O) qs rs -> malloc_ok malloc -> receive malloc s = Ok (b, s') ->
  exists rs', pinv (Proto s' th D A O) qs rs'.
Proof.
  intros Hp Hm Hr. destruct rs as [|[m body] rs].
  - rewrite receive_incomplete in Hr; [|eapply no_msgs_incomplete; [apply (pi_rs Hp)|done]].
    injection Hr as <- <-. by exists [].
  - exists rs. destruct (decide (is_reply (m, body))) as [Ht|Ht].
    + by eapply receive_reply_inv.
    + eapply receive_event_inv; [exact Hp|exact Hm| |exact Hr]. unfold is_reply in Ht. simpl in Ht. lia.
Qed.

(** ** Sending *)

Lemma send_state type id trans io w1 w2 w3 t s s' :
  ring_wf (x_ring s) -> Forall req_ok io ->
  let msg := message type id trans io in
  req_used (x_ring s) + Z.of_nat (length msg) <= XENSTORE_RING_SIZE ->
  send type id trans io w1 w2 w3 t s = Ok s' ->
  exists buf, s' = notify (set_ring (sent (x_ring s) buf (Z.of_nat (length msg))) s) /\
    ring_wf (x_ring s') /\ req_queue (x_ring s') = req_queue (x_ring s) ++ msg /\ rsp_queue (x_ring s') = rsp_queue (x_ring s).
Proof.
  intros Hwf Hio msg Hs Hsend. pose proof size_bounds as [? _]. pose proof (req_used_bounds (x_ring s)).
  destruct (xb_write_spec type id trans io w1 w2 w3 (x_ring s) Hwf Hio) as [_ Hx]; [fold msg; lia|].
  specialize (Hx Hs). fold msg in Hx. unfold send in Hsend. destruct (index_test_fails _ _).
  { rewrite Hx in Hsend. done. }
  destruct Hx as (buf & Hx & Hwf' & Hq). rewrite Hx in Hsend. cbn [mbind res_bind] in Hsend. injection Hsend as <-.
  by exists buf.
Qed.

(** The message of a request for an identifier. *)
Lemma message_msg type id trans io :
  0 <= id < NR_REQS -> Z.of_nat (length (message type id trans io)) < 2 ^ 31 ->
  exists m body, message type id trans io = msg_bytes m body /\ msg_wf m body /\ m_req_id m = id.
Proof.
  intros Hid Hl. pose proof msg_size_pos. rewrite message_length in Hl. unfold message.
  eexists (Msg _ _ _ _), _. split; [done|]. simpl. rewrite (wrap_small 32 id) by (unfold NR_REQS in Hid; lia).
  rewrite (wrap_small 32 (Z.of_nat _)) by lia. split; [|done]. split; [|done].
  unfold msg_range. simpl. pose proof (wrap_range 32 type). pose proof (wrap_range 32 trans). unfold NR_REQS in Hid. lia.
Qed.

Lemma send_inv s s' th D A O qs rs t id type trans io w1 w2 w3 :
  pinv (Proto s th D A O) qs rs -> th !! t = Some (Waiting id) -> Forall req_ok io ->
  req_used (x_ring s) + Z.of_nat (length (message type id trans io)) <= XENSTORE_RING_SIZE ->
  send type id trans io w1 w2 w3 t s = Ok s' ->
  exists qs', pinv (Proto s' (<[t := Sent id]> th) D A O) qs' rs.
Proof.
  intros Hp Ht Hio Hs Hsend. pose proof size_bounds as [? _]. pose proof (req_used_bounds (x_ring s)).
  pose proof (pinv_ring _ _ _ Hp) as [Hw Hqs Hrs Hqw Hrw Han]. simpl in *.
  pose proof (pi_phase Hp t _ Ht) as (Hheld & Hfl & Hwq & Htb). simpl in Hheld, Hfl, Hwq, Htb.
  destruct (send_state _ _ _ _ _ _ _ _ _ _ Hw Hio Hs Hsend) as (buf & -> & Hwf' & Hq & Hr).
  destruct (message_msg type id trans io) as (m & body & Hmsg & Hmw & Hmid); [apply Hheld|lia|].
  set (s' := notify _) in *. rewrite Hmsg in Hq. exists (qs ++ [(m, body)]).
  assert (under_way (qs ++ [(m, body)]) D rs ≡ₚ id :: under_way qs D rs) as Hperm.
  { unfold under_way, req_ids. rewrite fmap_app. simpl. rewrite Hmid, <- app_assoc. simpl. by rewrite <- Permutation_middle. }
  assert (forall u ph id', u <> t -> th !! u = Some ph -> phase_id ph = Some id' -> id' <> id) as Hne.
  { intros u ph id' Hut Hu Hid'. eapply (other_id _ _ _ t id u ph); [exact Hp|simpl; tauto|done..]. }
  assert (forall u id', <[t := Sent id]> th !! u = Some (Sent id') -> id' ∉ under_way (qs ++ [(m, body)]) D rs ->
            th !! u = Some (Sent id') /\ id' ∉ under_way qs D rs) as Hold.
  { intros u id'. rewrite Hperm, not_elem_of_cons. intros [[<- [= <-]]|[Hut Hu]]%lookup_insert_Some [? ?]; done. }
  constructor; simpl; try done.
  - destruct (pi_ids Hp). by constructor.
  - etransitivity; [exact Hq|]. by rewrite Hqs, msgs_app, msgs_cons, app_nil_r.
  - apply Forall_app. split; [done|]. by constructor.
  - rewrite Hperm. constructor; [done|apply (pi_nodup Hp)].
  - intros u ph [[<- <-]|[Hut Hu]]%lookup_insert_Some.
    + simpl. split; [done|]. rewrite Hperm. split; [intros _; split; [exact Hwq|exact Htb]|]. intros Hn. destruct Hn. by left.
    + pose proof (pi_phase Hp u ph Hu) as Hph. simpl in Hph. eapply phase_ok_mono; [exact Hph| |done|intros ? ? ? Hans; by eapply answered_mono].
      intros id' Hid' _. split; [done|]. rewrite Hperm, elem_of_cons. pose proof (Hne u ph id' ltac:(done) Hu Hid'). tauto.
  - intros u u' ph ph' id' [[<- <-]|[Hut Hu]]%lookup_insert_Some [[<- <-]|[Hut' Hu']]%lookup_insert_Some Hi Hi'; simplify_eq/=; [done| | |].
    + by destruct (Hne u' ph' _ (not_eq_sym Hut') Hu' Hi').
    + by destruct (Hne u ph _ (not_eq_sym Hut) Hu Hi).
    + by eapply (pi_inj Hp u u').
  - intros id'. rewrite Hperm. intros [-> | Hin]%elem_of_cons; [exists t; apply lookup_insert_eq|].
    destruct (pi_sender Hp id' Hin) as [u Hu]. simpl in Hu. exists u. rewrite lookup_insert_ne; [done|]. intros <-. simplify_eq.
  - intros u u' id1 id2 Hu Hu' Hn1 Hn2. destruct (Hold u id1 Hu Hn1), (Hold u' id2 Hu' Hn2). by eapply (pi_replies Hp u u').
  - intros u Hu. pose proof (pi_req_wq Hp u Hu) as Hwt. simpl in Hwt. rewrite lookup_insert_ne; [done|]. intros <-. simplify_eq.
  - intros a w Hwa Hz. pose proof (pi_readers Hp a w Hwa Hz) as Hrd. simpl in Hrd. rewrite lookup_insert_ne; [done|congruence].
  - apply (pi_owned Hp).
Qed.

(** ** Runs *)

Lemma pstep_inv p p' : pstep p p' -> (exists qs rs, pinv p qs rs) -> exists qs rs, pinv p' qs rs.
Proof.
  intros Hst (qs & rs & Hp). destruct Hst.
  - exists qs, rs. by eapply alloc_inv.
  - exists qs, rs. by eapply wait_inv.
  - exists qs, rs. by eapply add_inv.
  - destruct (send_inv _ _ _ _ _ _ _ _ _ _ _ _ _ _ _ _ Hp H H0 H1 H2) as [qs' ?]. by exists qs', rs.
  - exists qs, rs. by eapply end_inv.
  - exists qs, rs. by eapply free_inv.
  - exists qs, rs. by eapply new_inv.
  - destruct (receive_inv _ _ _ _ _ _ _ _ _ _ Hp H H0) as [rs' ?]. by exists qs, rs'.
  - exists qs, rs. by eapply read_inv.
  - destruct (take_inv _ _ _ _ _ _ _ _ _ _ Hp H) as [qs' ?]. by exists qs', rs.
  - eexists _, _. by eapply answer_inv.
  - eexists _, _. by eapply event_inv.
Qed.

(** Nothing has been sent and no thread has an identifier. *)
Record p_init (p : proto) : Prop := {
  pn_ring : ring_wf (x_ring (p_xb p));
  pn_ids : ids_ok (p_xb p);
  pn_req : req_used (x_ring (p_xb p)) = 0;
  pn_rsp : rsp_used (x_ring (p_xb p)) = 0;
  pn_threads : p_threads p = ∅;
  pn_daemon : p_daemon p = [];
  pn_owned : p_owned p = ∅;
  pn_wq : req_wq (p_xb p) = [];
  pn_readers a w : watches (p_xb p) !! a = Some w -> w_thread w = 0
}.

Lemma p_init_inv p : p_init p -> pinv p [] [].
Proof.
  intros [Hr Hi Hq Hs Ht Hd Ho Hw Hrd]. constructor; rewrite ?Ht, ?Hd, ?Ho, ?Hw; try done.
  - unfold req_queue. by rewrite Hq.
  - unfold rsp_queue. by rewrite Hs.
  - constructor.
  - intros x Hx. by apply elem_of_nil in Hx.
  - intros id Hid. by apply elem_of_nil in Hid.
  - intros t Hin. by apply elem_of_nil in Hin.
  - intros a w Hwa Hz. by rewrite (Hrd a w Hwa) in Hz.
Qed.

Lemma reachable_inv p0 p : p_init p0 -> rtc pstep p0 p -> exists qs rs, pinv p qs rs.
Proof.
  intros Hi Hr. assert (exists qs rs, pinv p0 qs rs) as H by (exists [], []; by apply p_init_inv).
  clear Hi. induction Hr; [done|]. eauto using pstep_inv.
Qed.

(** A message for the identifier [id] is in a queue of bytes. *)
Definition in_queue (q : list Z) (id : Z) : Prop :=
  exists m body pre post, q = pre ++ msg_bytes m body ++ post /\ msg_wf m body /\ m_req_id m = id.

Lemma in_queue_msgs l id : Forall (fun x => msg_wf x.1 x.2) l -> id ∈ req_ids l -> in_queue (msgs l) id.
Proof.
  intros Hl ([m body] & -> & Hin)%list_elem_of_fmap. apply list_elem_of_split in Hin as (l1 & l2 & ->).
  apply Forall_app in Hl as [_ [Hm _]%Forall_cons]. exists m, body, (msgs l1), (msgs l2).
  split; [by rewrite msgs_app, msgs_cons|done].
Qed.

(** ** No stops *)

(** The string and the token of a watch event, for a watch with room for one more path, or for
    no watch. *)
Definition event_ok (s : xb) (body : list Z) : Prop :=
  exists path tok a, body = path ++ 0 :: tok /\ nonzero path /\ Z.of_nat (length path) + 1 < 2 ^ 31 /\
    find_watch tok s = Ok a /\
    (a <> 0 -> exists w, watches s !! a = Some w /\ watch_ok w /\ path_prod_idx w - path_cons_idx w <= MAX_PATHS).

Lemma find_watch_same tok s s' :
  watches s' = watches s -> watch_list s' = watch_list s -> find_watch tok s' = find_watch tok s.
Proof.
  intros Hw Hl. unfold find_watch. rewrite Hl. clear Hl. induction (watch_list s) as [|a l IH]; [done|]. simpl. rewrite Hw.
  destruct (access _) as [w| |]; [|done..]. cbn [mbind res_bind]. destruct (strcmp _ _) as [c| |]; [|done..]. cbn [mbind res_bind].
  by rewrite IH.
Qed.

Lemma receive_event_ok malloc s m body rest :
  malloc_ok malloc -> (forall u n, malloc u n <> 0) -> next_msg (x_ring s) m body rest -> m_type m = XS_WATCH_EVENT ->
  event_ok s body -> exists s', receive malloc s = Ok (true, s').
Proof.
  intros Hm Htot Hn Ht (path & tok & a & -> & Hnz & Hl & Hf & Ha).
  pose proof (next_msg_avail _ _ _ _ Hn) as Hav. destruct (next_msg_read _ _ _ _ Hn) as [Hh Hb].
  destruct Hn as [Hwf [Hrange Hlen] _]. pose proof msg_size_pos. unfold receive. fold (rsp_used (x_ring s)).
  rewrite (proj2 (Z.ltb_ge _ msg_size)) by (destruct Hrange; lia). rewrite Hh. cbn [mbind res_bind].
  rewrite dec_enc by done. rewrite (proj2 (Z.ltb_ge _ _)) by (destruct Hrange; lia).
  rewrite (proj2 (Z.eqb_eq _ _)) by done. rewrite Hb. cbn [mbind res_bind]. unfold new_block.
  rewrite (proj2 (Z.eqb_neq _ 0)) by apply Htot. cbn [mbind res_bind].
  set (q := malloc (used s) _). set (s1 := set_heap _ s).
  assert (exists s2, watch_event malloc q (msg_bytes m (path ++ 0 :: tok)) s1 = Ok s2) as [s2 Hs2].
  { rewrite <- (find_watch_same tok s s1) in Hf by done. unfold msg_bytes. destruct (decide (a = 0)) as [->|Hz].
    - unfold watch_event. rewrite drop_app_length' by (pose proof (enc_length m); lia). rewrite strlen_spec by done. cbn [mbind res_bind].
      replace (drop (Z.to_nat (Z.of_nat (length path) + 1)) (path ++ 0 :: tok)) with tok.
      { rewrite Hf. cbn [mbind res_bind]. eauto. }
      replace (path ++ 0 :: tok) with ((path ++ [0]) ++ tok) by by rewrite <- app_assoc.
      symmetry. apply drop_app_length'. rewrite length_app. simpl. lia.
    - destruct (Ha Hz) as (w & Hw & Hok & Hroom).
      rewrite (watch_event_spec malloc q (enc_msg m) path tok s1 a w) by (done || apply enc_length).
      rewrite (proj2 (Z.ltb_ge _ _)) by lia. eauto. }
  rewrite Hs2. cbn [mbind res_bind].
  destruct (watch_event_frame _ _ _ _ _ Hm Hs2) as [_ _ _ _ _ Fh _ _ _]. unfold free.
  rewrite (proj2 (Z.eqb_neq q 0)) by apply Htot. simpl heap.
  rewrite (Fh q (msg_bytes m (path ++ 0 :: tok))) by (subst s1; simpl; apply lookup_insert_eq). eauto.
Qed.

(** The operations of a state that do not stop, and the two ways in which a request stops. *)
Record settled (p : proto) : Prop := {
  st_alloc : exists o s', allocate_xenbus_id (p_xb p) = Ok (o, s');
  st_add t id : p_threads p !! t = Some (Allocated id) -> exists s', add_waiter id t (p_xb p) = Ok s';
  st_send t id type trans io w1 w2 w3 :
    p_threads p !! t = Some (Waiting id) -> Forall req_ok io ->
    let n := Z.of_nat (length (message type id trans io)) in
    req_used (x_ring (p_xb p)) + n <= XENSTORE_RING_SIZE ->
    if index_test_fails (x_ring (p_xb p)) n then send type id trans io w1 w2 w3 t (p_xb p) = Bug BUG_ON
    else exists s', send type id trans io w1 w2 w3 t (p_xb p) = Ok s';
  (** the ring has no room and the daemon takes nothing during the call *)
  st_full t id type trans io w3 :
    p_threads p !! t = Some (Waiting id) -> Forall req_ok io ->
    let n := Z.of_nat (length (message type id trans io)) in
    n < 2 ^ 31 -> XENSTORE_RING_SIZE < req_used (x_ring (p_xb p)) + n ->
    send type id trans io Datatypes.id Datatypes.id w3 t (p_xb p) = Bug BUG_ON;
  st_receive malloc : malloc_ok malloc -> (forall u n, malloc u n <> 0) ->
    (forall m body rest, next_msg (x_ring (p_xb p)) m body rest -> m_type m = XS_WATCH_EVENT -> event_ok (p_xb p) body) ->
    exists b s', receive malloc (p_xb p) = Ok (b, s');
  st_free a : a ∈ p_owned p -> exists s', free a (p_xb p) = Ok s'
}.

Lemma send_full type id trans io w3 t s :
  ring_wf (x_ring s) -> Forall req_ok io ->
  let n := Z.of_nat (length (message type id trans io)) in
  n < 2 ^ 31 -> XENSTORE_RING_SIZE < req_used (x_ring s) + n ->
  send type id trans io Datatypes.id Datatypes.id w3 t s = Bug BUG_ON.
Proof.
  intros Hwf Hok n Hn Hs. pose proof size_bounds as [? _]. pose proof (req_used_bounds (x_ring s)).
  pose proof (wf_req_used _ Hwf). pose proof (message_length type id trans io) as Hml. fold n in Hml. pose proof msg_size_pos.
  unfold send, xb_write, data_len. rewrite data_len_spec by (done || lia). rewrite Z.add_0_l.
  rewrite (sgn_small 32) by lia. replace (Z.of_nat (length (mjoin (payload <$> io))) + msg_size) with n by lia.
  destruct (XENSTORE_RING_SIZE <? n) eqn:Hb; [done|]. cbn [bug_on mbind res_bind]. unfold Datatypes.id.
  assert (has_space n (x_ring s) = false) as ->; [|done].
  apply Z.ltb_ge in Hb. unfold has_space. apply Z.leb_gt. rewrite (prod_used _ Hwf). unfold wrap.
  replace ((req_cons (x_ring s) + req_used (x_ring s)) `mod` 2 ^ 32 + n - req_cons (x_ring s))
    with ((req_cons (x_ring s) + req_used (x_ring s)) `mod` 2 ^ 32 + (n - req_cons (x_ring s))) by lia.
  rewrite Zplus_mod_idemp_l. rewrite Z.mod_small; lia.
Qed.

Lemma pinv_receive malloc s th D A O qs rs :
  pinv (Proto s th D A O) qs rs -> malloc_ok malloc -> (forall u n, malloc u n <> 0) ->
  (forall m body rest, next_msg (x_ring s) m body rest -> m_type m = XS_WATCH_EVENT -> event_ok s body) ->
  exists b s', receive malloc s = Ok (b, s').
Proof.
  intros Hp Hm Htot Hev. pose proof (pinv_ring _ _ _ Hp) as [Hw Hqs Hrs Hqw Hrw Han]. simpl in *.
  destruct rs as [|[m body] rs].
  { rewrite receive_incomplete by (eapply no_msgs_incomplete; [apply (pi_rs Hp)|done]). eauto. }
  apply Forall_cons in Hrw as [Hmw Hrw]. simpl in Hmw.
  assert (next_msg (x_ring s) m body (msgs rs)) as Hn by (constructor; done).
  destruct (decide (is_reply (m, body))) as [Hrep|Hev'].
  - assert (m_req_id m ∈ under_way qs D ((m, body) :: rs)) as Hin.
    { unfold under_way. rewrite reply_ids_cons, decide_True by done. set_solver. }
    destruct (pi_sender Hp _ Hin) as [t Hts]. simpl in Hts. pose proof (pi_phase Hp t _ Hts) as ([Hr Hu] & _). simpl in Hr, Hu.
    rewrite (receive_reply _ _ _ _ _ Hn Hrep). pose proof (ids_length _ (pi_ids Hp)) as Hlen. simpl in Hlen.
    rewrite (proj2 (Z.leb_gt _ _)) by lia. unfold info in Hu. rewrite (proj2 (Z.eqb_neq _ 0)) by done. cbv zeta.
    rewrite (proj2 (Z.eqb_neq _ 0)) by apply Htot. eauto.
  - assert (m_type m = XS_WATCH_EVENT) as Ht by (unfold is_reply in Hev'; simpl in Hev'; lia).
    destruct (receive_event_ok malloc s m body _ Hm Htot Hn Ht (Hev _ _ _ Hn Ht)) as [s' ->]. eauto.
Qed.

Lemma pinv_settled p qs rs : pinv p qs rs -> settled p.
Proof.
  intros Hp. destruct p as [s th D A O]. pose proof (pi_ids Hp) as Hids. pose proof (pi_ring Hp) as Hwf. simpl in Hids, Hwf.
  constructor; simpl.
  - destruct (decide (nr_live_reqs s < NR_REQS)) as [Hlt|Hge].
    + destruct (allocate_spec s Hids Hlt) as (k & _ & _ & _ & r & s' & -> & _). eauto.
    + unfold allocate_xenbus_id. rewrite (proj2 (Z.ltb_ge _ _)) by lia. eauto.
  - intros t id Ht. pose proof (pi_phase Hp t _ Ht) as (Hh & _). simpl in Hh. unfold add_waiter.
    rewrite elem_info by (by apply held_range). cbn [mbind res_bind]. eauto.
  - intros t id type trans io w1 w2 w3 Ht Hio Hs. pose proof size_bounds as [? _]. pose proof (req_used_bounds (x_ring s)).
    destruct (xb_write_spec type id trans io w1 w2 w3 (x_ring s) Hwf Hio ltac:(lia)) as [_ Hx]. specialize (Hx Hs).
    unfold send. destruct (index_test_fails _ _); [by rewrite Hx|]. destruct Hx as (buf & -> & _). cbn [mbind res_bind]. eauto.
  - intros. by apply send_full.
  - intros malloc Hm Htot Hev. by eapply pinv_receive.
  - intros a Ha. destruct (pi_owned Hp a Ha) as [x Hx]. simpl in Hx. unfold free. destruct (a =? 0); [eauto|]. rewrite Hx. eauto.
Qed.

(** C9: in every state reached by the client threads, the receiving thread and the daemon, in any
    order and with any other traffic, where a request is written while the ring has room for it: no
    two threads have the same identifier; a thread blocked for its reply has its request on one
    ring, with the daemon, or its reply on the other ring - the wakeup is not lost; and a thread
    that was woken finishes [xenbus_msg_reply], stopping on no assertion, with exactly the bytes of
    the daemon's answer to its identifier.  In each such state ([settled]) an identifier is
    allocated, a waiter added and a result freed without a stop; a request that fits is sent, except
    where the comparison of the indices wraps; the receiving thread does not stop while there is
    memory, on a reply never, on a watch event not if it is well formed and its watch has room.  A
    request that finds the ring full, and the daemon takes nothing meanwhile, stops. *)
Theorem xenbus_replies_match p0 p :
  p_init p0 -> rtc pstep p0 p ->
  settled p /\
  forall t id, p_threads p !! t = Some (Sent id) ->
  (forall u ph, p_threads p !! u = Some ph -> phase_id ph = Some id -> u = t) /\
  (if bool_decide (t ∈ blocked (p_xb p)) then
     in_queue (req_queue (x_ring (p_xb p))) id \/ id ∈ p_daemon p \/ in_queue (rsp_queue (x_ring (p_xb p))) id
   else exists a s' bytes, msg_reply_end id (p_xb p) = Ok (a, s') /\ heap s' !! a = Some bytes /\
     p_answers p !! id = Some bytes).
Proof.
  intros Hi Hr. destruct (reachable_inv p0 p Hi Hr) as (qs & rs & Hp). split; [by eapply pinv_settled|]. intros t id Ht.
  destruct p as [s th D A O]. simpl in *.
  split; [intros u ph Hu Hid; by eapply (pi_inj Hp u t)|].
  pose proof (pinv_ring _ _ _ Hp) as [_ Hqs Hrs Hqw Hrw _]. simpl in *. case_bool_decide as Hb.
  - destruct (pi_phase Hp t _ Ht) as (_ & _ & Hout). simpl in Hout.
    destruct (decide (id ∈ under_way qs D rs)) as [Hin|Hn]; [|by destruct (Hout Hn)].
    unfold under_way in Hin. apply elem_of_app in Hin as [Hin|[Hin|Hin]%elem_of_app].
    + left. rewrite Hqs. by apply in_queue_msgs.
    + by right; left.
    + right; right. rewrite Hrs. apply in_queue_msgs; [done|]. unfold reply_ids, req_ids in *.
      apply list_elem_of_fmap in Hin as (x & -> & [_ Hx]%list_elem_of_filter). apply list_elem_of_fmap. by exists x.
  - destruct (sent_answered _ _ _ _ _ _ _ _ _ Hp Ht Hb) as (Hh & _ & Han).
    destruct (msg_reply_end_spec s A O id (pi_ids Hp) Hh Han) as [He _].
    destruct (released_fields id s (pi_ids Hp) (proj1 Hh)) as (_ & _ & _ & Hhp & _).
    destruct Han as [(m & body & Hblk & HA & _) _].
    exists (reply (info s id)), (released id s), (msg_bytes m body). rewrite Hhp. done.
Qed.
End Proto.

(** ** A run

    Thread 5 reads a key: identifier 0, a request of 22 bytes, an answer of 18. *)
Definition run_io : list write_req := [Req [100; 111; 109; 105; 100; 0] 6].
Definition run0 : xb := Xb (empty_ring 0) (replicate 32 (RI 0 [] 0)) 0 0 [] false [] ∅ ∅ ∅ 0.
Definition run1 : xb := (get (allocate_xenbus_id run0) (None, run0)).2.
Definition run2 : xb := get (add_waiter 0 5 run1) run0.
Definition run3 : xb := get (send 2 0 0 run_io id id id 5 run2) run0.
Definition run4 : xb :=
  set_ring (let r := x_ring run3 in Ring (req r) (rsp r) 22 (req_prod r) (rsp_cons r) (rsp_prod r)) run3.
Definition run_answer : xsd_sockmsg := Msg 2 0 0 2.
Definition run5 : xb :=
  set_ring (let r := x_ring run4 in
    Ring (req r) (msg_bytes run_answer [52; 50] ++ replicate 1006 0) (req_cons r) (req_prod r) (rsp_cons r) 18) run4.
Definition run6 : xb := (get (receive demo_malloc run5) (false, run0)).2.

Definition run_end : proto :=
  Proto run6 {[5 := Sent 0]} [] {[0 := msg_bytes run_answer [52; 50]]} ∅.

Ltac concrete_ring := constructor; vm_compute; repeat split; done.

Lemma run_steps : rtc pstep (Proto run0 ∅ [] ∅ ∅) run_end.
Proof.
  eapply rtc_l; [apply (step_alloc 5 0 run0 run1); [done|set_solver|vm_compute; done]|].
  eapply rtc_l; [apply (step_add 5 0 run1 run2); [apply lookup_insert_eq|vm_compute; done]|].
  eapply rtc_l; [apply (step_send 5 0 2 0 run_io id id id run2 run3);
    [apply lookup_insert_eq|repeat constructor; simpl; lia|vm_compute; done|vm_compute; done]|].
  eapply rtc_l; [apply (step_take (Msg 2 0 0 6) [100; 111; 109; 105; 100; 0] (x_ring run4) run3); constructor|].
  1: concrete_ring. 1-3: vm_compute; repeat split; done.
  eapply rtc_l; [apply (step_answer run_answer [52; 50] (x_ring run5) run4 _ [] []); [constructor|done]|].
  1: concrete_ring. 1-3: vm_compute; repeat split; done.
  eapply rtc_l; [apply (step_receive demo_malloc true run5 run6); [apply demo_malloc_ok|vm_compute; done]|].
  apply reflexive_eq. unfold run_end. f_equal.
Qed.

Lemma xenbus_replies_match_witness :
  exists a s' bytes, msg_reply_end 0 run6 = Ok (a, s') /\ heap s' !! a = Some bytes /\
    bytes = msg_bytes run_answer [52; 50].
Proof.
  destruct (xenbus_replies_match (Proto run0 ∅ [] ∅ ∅) run_end) as [_ H0].
  - constructor; done.
  - apply run_steps.
  - destruct (H0 5 0) as [_ H]; [apply lookup_singleton_eq|].
    rewrite bool_decide_false in H by (vm_compute; intros Hn; inversion Hn).
    destruct H as (a & s' & bytes & He & Hh & HA). exists a, s', bytes. split; [exact He|]. split; [exact Hh|].
    simpl in HA. rewrite lookup_singleton_eq in HA. by injection HA as <-.
Defined.
